(* ===== verification/_CoqProject ===== *)
-Q . S2P
Prelude.v
Float.v
Pcm.v
Transport.v
TransportQueue.v
TransportMix.v
ClockControl.v
ClockTheory.v
CaptureRing.v
DeviceSession.v
HALMapping.v
Registry.v
SharedMemory.v
MachService.v
ServiceTheory.v
DeviceClient.v
ClientTheory.v
MidiParser.v
MidiQueue.v
MidiRecovery.v
MidiReads.v
MidiWorker.v
MidiSession.v
Policies.v
Timing.v
Rounding.v
TransportResample.v
UsbOutput.v
UsbTheory.v
UsbCapture.v
UsbFeedback.v
UsbLifecycle.v
Hal.v
HalTheory.v
HalIO.v
UsbWorker.v
HalProperties.v
ServiceLoop.v
OutRing.v
OutRingTheory.v
OutRingResample.v
PacketPolicy.v
PolicyTheory.v
OutPacket.v
OutPacketTheory.v
IoKit.v
UsbSession.v
UsbSessionTheory.v
OutWorker.v
OutWorkerTheory.v
FeedbackReader.v
FeedbackTheory.v
SequencedReads.v
SequencedTheory.v
InputEngine.v
EngineTheory.v
MidiInput.v
Readers.v
ReadersTheory.v
Lifecycle.v
Activation.v
ActivationTheory.v
AudioDriver.v
DriverTheory.v
DriverProperties.v
MidiOutput.v
MidiOutputTheory.v
