(* ===== verification/Prelude.v ===== *)
(** * Verification of the Numark NS6 drivers for macOS (arm64)

    The repository holds two drivers for the same device: the C driver under src/coreaudio and
    its rewrite in C++ under src/numark-ns6.  This library models both in Rocq and proves the
    properties that make their parts correct.

    ** The C driver

    CoreAudio calls the HAL plug-in (NS6HAL.c), which runs in the audio daemon.  The plug-in
    connects over Mach messages (NS6DeviceClient.c) to a helper process that owns the USB device
    (NS6MIDIBridge.c built as the service, NS6DeviceMachService.c), and maps a block of shared
    memory from it (NS6SharedMemory.h).  The block holds the output ring (NS6Transport.c) that
    the plug-in fills and the USB worker (NS6USB.c) plays as isochronous transfers, and the
    capture ring (NS6CaptureRing.h) for the other direction.  How many frames a packet carries is
    decided by the output clock (NS6ClockControl.c) from the reports of the device's feedback
    endpoint.  MIDI runs beside it: the driver's reads and writes (NS6MIDI.c), the report parser
    (NS6MIDIParser.h) and a bridge to CoreMIDI (NS6MIDIBridge.c).

    - Prelude.v: machine integers, arrays, loops, interleavings; tactics and hints.
    - Float.v, Rounding.v: binary32 and binary64 (the standard library's SpecFloat at the two
      formats), exactness on integers, bounds on rounded results.
    - Pcm.v: 24-bit samples, idle fill, level meter, fade and capture decoder (NS6Transport.c,
      NS6IdlePCM.h, NS6PCMLevel.h, NS6AudioRecovery.c, NS6CaptureDecoder.h).
    - Transport.v: the output ring (NS6Transport.c).  TransportQueue.v: its calls are those of a
      bounded FIFO of frames (C1, C2).  TransportMix.v: occupancy and mixing (C16).
      TransportResample.v: reading at any rate is resampling of that FIFO (C36).
    - ClockControl.v, ClockTheory.v: the output clock (C17, C18).
    - CaptureRing.v: the capture ring and its two threads, access by access (C19).
    - DeviceSession.v (NS6DeviceSession.h, NS6DeviceOwner.h; C20, C21) and HALMapping.v
      (NS6HALMapping.h; C22, C23): the handshakes that let a session end and memory be unmapped
      while callbacks run, access by access.
    - Registry.v (NS6DeviceClientRegistry.h; C24), SharedMemory.v (the block and the protocol),
      MachService.v and ServiceTheory.v (NS6DeviceMachService.c; C25), DeviceClient.v and
      ClientTheory.v (NS6DeviceClient.c; C27).
    - MidiParser.v (parser, report and datagram paths), MidiQueue.v (output queue; C32),
      MidiRecovery.v (policies of the input reads), MidiReads.v (read slots; C33), MidiWorker.v
      (the writing thread), MidiSession.v (start, handshake, stop; C34).
    - Policies.v: the small headers of the USB and HAL code.  Timing.v: NS6USBTiming.c and
      NS6IOMetrics.c.
    - UsbOutput.v and UsbTheory.v: filling, submitting and completing output transfers (C37).
      UsbCapture.v: bulk reads and capture sessions. UsbFeedback.v: feedback reads and the
      firmware query.  UsbLifecycle.v: setup, cleanup and the resources they hold (C38).
      UsbWorker.v: these parts as one driver, its sessions and the calls of other threads (C26).
    - Hal.v (clients, start and stop, service monitor, settable properties), HalTheory.v, HalIO.v
      (the I/O callbacks), HalProperties.v (property tables, zero timestamps; C28): NS6HAL.c and
      NS6ZeroTimestamp.h.
    - ServiceLoop.v: the helper process as a whole, with its receiving thread, the USB worker and
      the maintenance of its main loop (C35).

    ** The C++ driver

    The plug-in (coreaudio/NS6AudioDriver.cpp) owns the device itself: the first client to start
    opens a session (usb/NS6DeviceSession.cpp), wakes the controller
    (midi/ControllerActivation.cpp) and starts a runtime (coreaudio/AudioTransportRuntime.cpp),
    whose thread keeps output transfers (audio-out), feedback reads (audio-feedback), capture
    reads (audio-in) and MIDI reads and writes (midi) in flight on its run loop.  The packet
    policy decides from the feedback how many frames each packet carries; the audio ring connects
    I/O callbacks and transfers.  A separate process (midi/MIDIUserSessionBridge.cpp) carries
    MIDI between CoreMIDI and the runtime over local datagrams and keeps the device playing.

    - OutRing.v, OutRingTheory.v, OutRingResample.v: AudioOutputRing, a FIFO in every
      interleaving of producer and consumer (C3).
    - PacketPolicy.v, PolicyTheory.v: AudioPacketPolicy and the parsing of reports (C13).
    - OutPacket.v, OutPacketTheory.v: packets, transfers, slots and bus schedules (C12).
    - IoKit.v: the system as the C++ driver sees it, the state monad its methods are written in
      and the weakest preconditions the proofs use.
    - UsbSession.v, UsbSessionTheory.v: NS6DeviceSession (C6).
    - OutWorker.v, OutWorkerTheory.v: AudioOutWorker (C5).
    - FeedbackReader.v, FeedbackTheory.v: AudioFeedbackReader and its way to the policy (C14).
    - InputEngine.v, EngineTheory.v: decoder, capture and playback engines (C39, C8).
    - SequencedReads.v, SequencedTheory.v: the part AudioInputReader and MIDIInputReader share.
      MidiInput.v: report parser and word encoder (C40).  Readers.v, ReadersTheory.v: the two
      readers (C9, C10).
    - Activation.v, ActivationTheory.v: ControllerActivation (C31, C7).
    - Lifecycle.v: AudioClientLifecycle, AudioDeviceLifecycle and AudioKeepalivePolicy (C15).
    - AudioDriver.v, DriverTheory.v, DriverProperties.v: AudioTransportRuntime's interface and
      NS6AudioDriver (C4, C29).
    - MidiOutput.v, MidiOutputTheory.v: the way of MIDI from applications to the device
      (MIDIUserSessionBridge, MIDIOutputWriter, LocalMIDIForwarder) and the keepalive (C11, C30).

    ** How the code is modelled

    A C integer is a [Z] with its wrap-around written out ([u32], [u64], [swrap]); [float] and
    [double] are [spec_float]s with the rounding of the format.  A struct or a group of static
    variables is a record under the source's names, an array a list read and written by index
    ([rd], [wr], [memcpy]), a null pointer [None] or the handle 0.  A function of the C driver
    becomes a function from the state and what the system answers (clock readings, results of
    IOKit, Mach and CoreAudio calls) to the results, the new state and the calls it makes.  A
    method of the C++ driver that makes many calls of the system is written in a state monad over
    its object, the session and a [world]: the [n]-th call is answered by a parameter, and every
    reference taken or given back is recorded, so that leaks and double releases are visible.
    Completions that arrive while a method runs the run loop are lists given as arguments, over
    which the theorems quantify.  Compile-time switches are parameters: a statement about [cfg :
    ClockConfig] holds for every build.  Constants and structure sizes of system headers are
    fields of classes ([MachABI], [IOKitABI], [USBABI], [BulkABI], [IsocABI], [CoreAudioABI],
    [PropertyABI], [DriverABI], [IOReturns]); the examples instantiate them.  Log lines are left
    out; variables that limit them are kept.

    Lock-free code whose correctness depends on the interleaving (the C++ audio ring, the capture
    ring, the device session, the mapping, the MIDI read slots) is also modelled as a step
    relation over its single atomic accesses.  For the two rings and the read slots a theorem
    links the functions to runs of the steps; for the session and the mapping the steps follow
    the functions line by line, without such a theorem.  The steps are sequentially consistent,
    which is an assumption of the theorems about them: the source asks for weaker orders, and C23
    shows where these matter.  The other functions are modelled as one step each.  Mostly their
    lock or their thread's run loop makes them atomic; the C output ring's functions, the
    property reads of the HAL ([get_property], which loads the presence of the device twice, as
    in the source) and the maintenance of the helper ([maintain_device_service]) hold no lock,
    and their theorems are about calls that do not overlap with others.  What may happen between
    two steps is a sequence of events, over which the theorems quantify.

    Loops with a fixed number of turns are [for_loop]s; the loops of the rings take the number of
    frames asked for as fuel and stop earlier by themselves, so the fuel cannot run out; a drain
    of completed reads takes the number of slots, each turn of it frees one; a packet of MIDI
    takes its length; the wait in [ns6_device_session_begin] has the 100000 turns of the source;
    waits for the system take the list of what each turn meets, whose end is the deadline.

    ** What the theorems show

    - The data paths: the C output ring is a FIFO call by call, at any rate (C1, C2, C36); the
      C++ ring, of a capacity that divides 2^32, is one in every interleaving of its two threads
      (C3); transfers play them (C12), capture is a FIFO and exact (C19, C8, C9, C39), channel
      messages survive the cut into reports in both directions (C32, C10, C40, C11).
    - The clock: what it measures (C17), that its cadence does not drift (C18), and that packets
      follow the reports of the device (C13, C14).
    - Sharing: sessions and mappings end only when nobody uses them (C20, C21, C22, C23);
      registry, service, clients and drivers agree on who plays, and the hardware runs while
      somebody does (C24, C25, C35, C27, C15, C4, C30).
    - Errors and resources: sessions, workers and readers leak nothing and have no transfer
      without buffers (C6, C5, C14, C7, C38), recovery happens after three failures of one slot
      (C37), reads are not lost (C33) but for the case of C34; C26 says which reads are in flight
      when buffers are destroyed; and what a property announces is what a read stores, with the
      exceptions C28 and C29 name.

    Theorems of the files that have no number support these or state further properties.

    ** Not modelled

    The look-up of the device in the I/O registry (NS6USB.c 176 to 275, ns6_connected of
    NS6HAL.c), the sockets and CoreMIDI calls of NS6MIDI.c and NS6MIDIBridge.c, and the setup and
    delivery loop of MIDIUserSessionBridge.cpp: they call the system and their results are
    arguments here.  The loop of the runtime's thread (AudioTransportRuntime.cpp 91 to 312)
    composes the components above; its behaviour is an argument of the driver.  NS6USBWorkerQoS.h
    asks for a thread priority.  in_flight_read_mask and a few functions NS6MIDI.c and
    NS6MIDIBridge.c use are declared nowhere; the first is a parameter, the calls of the others
    are left out.  The command line tools, the probes, the tests and the status application
    (Swift) only call the system or show what the properties report. *)

From stdpp Require Import base list numbers tactics.
From Stdlib Require Import ZArith Lia ZifyBool.

#[global] Open Scope Z_scope.

(** ** Fixed-width integers

    A C integer of width [w] is a [Z]; unsigned wrap-around is written out as
    [mod 2 ^ w] and a narrowing conversion to a signed type as [swrap]. *)

Definition UINT32_MAX : Z := 4294967295.
Definition UINT64_MAX : Z := 18446744073709551615.

Definition u8 (z : Z) : Z := z mod 256.
Definition u16 (z : Z) : Z := z mod 65536.
Definition u32 (z : Z) : Z := z mod 4294967296.
Definition u64 (z : Z) : Z := z mod 18446744073709551616.

(** Two's complement reading of the low [w] bits. *)
Definition swrap (w z : Z) : Z := (z + 2 ^ (w - 1)) mod 2 ^ w - 2 ^ (w - 1).

Declare Scope c_scope.
Delimit Scope c_scope with c.
Notation "a +₆₄ b" := (u64 (a + b)) (at level 50, left associativity) : c_scope.
Notation "a -₆₄ b" := (u64 (a - b)) (at level 50, left associativity) : c_scope.
Notation "a *₆₄ b" := (u64 (a * b)) (at level 40, left associativity) : c_scope.
Notation "a +₃₂ b" := (u32 (a + b)) (at level 50, left associativity) : c_scope.
Notation "a -₃₂ b" := (u32 (a - b)) (at level 50, left associativity) : c_scope.
#[global] Open Scope c_scope.

(** A value a [uint<w>_t] variable can hold. *)
Definition is_u8 (z : Z) : Prop := 0 <= z < 256.
Definition is_u32 (z : Z) : Prop := 0 <= z < 4294967296.
Definition is_u64 (z : Z) : Prop := 0 <= z < 18446744073709551616.

(** ** Tactics

    [bsolve] closes goals about comparisons; [case_ifs] splits every [if] and
    [match] of the goal, keeping the equations. *)

Ltac case_if :=
  match goal with
  | |- context [if ?b then _ else _] => destruct b eqn:?
  | H : context [if ?b then _ else _] |- _ => destruct b eqn:?
  end.

Ltac case_ifs := repeat (case_if; try (exfalso; lia); try congruence).

Ltac unfold_width :=
  unfold u8, u16, u32, u64, is_u8, is_u32, is_u64, UINT32_MAX, UINT64_MAX in *.

Ltac width_lia := unfold_width; Z.div_mod_to_equations; lia.


Create HintDb ns6 discriminated.
Create Rewrite HintDb ns6_rw.

Lemma u64_id z : is_u64 z → u64 z = z.
Proof. unfold u64, is_u64. intros. apply Z.mod_small. lia. Qed.

Lemma u32_id z : is_u32 z → u32 z = z.
Proof. unfold u32, is_u32. intros. apply Z.mod_small. lia. Qed.

Lemma u8_id z : is_u8 z → u8 z = z.
Proof. unfold u8, is_u8. intros. apply Z.mod_small. lia. Qed.

Lemma u64_range z : is_u64 (u64 z).
Proof. unfold u64, is_u64. apply Z.mod_pos_bound. lia. Qed.

Lemma u32_range z : is_u32 (u32 z).
Proof. unfold u32, is_u32. apply Z.mod_pos_bound. lia. Qed.

Lemma u8_range z : is_u8 (u8 z).
Proof. unfold u8, is_u8. apply Z.mod_pos_bound. lia. Qed.

#[export] Hint Resolve u64_range u32_range u8_range : ns6.

(** ** Arrays

    A C array is a list; [rd] and [wr] access one element, [memcpy] writes a
    block and [slice] reads one.  An index outside the array is undefined in C:
    [rd] then gives the default and [wr] changes nothing, and the bounds
    theorems show that the code does not get there. *)

Section arrays.
Context {A : Type} `{Inhabited A}.
Implicit Types (l : list A) (i off : Z).

Definition rd (l : list A) (i : Z) : A := l !!! Z.to_nat i.
Definition wr (l : list A) (i : Z) (v : A) : list A := <[Z.to_nat i := v]> l.
Definition memcpy (l : list A) (off : Z) (src : list A) : list A :=
  list_inserts (Z.to_nat off) src l.
Definition slice (l : list A) (off n : Z) : list A :=
  take (Z.to_nat n) (drop (Z.to_nat off) l).

Lemma length_wr l i v : length (wr l i v) = length l.
Proof. apply length_insert. Qed.

Lemma length_memcpy l off src : length (memcpy l off src) = length l.
Proof. apply length_inserts. Qed.

Lemma rd_wr_eq l i v : 0 <= i < Z.of_nat (length l) → rd (wr l i v) i = v.
Proof.
  intros. unfold rd, wr. apply list_lookup_total_insert_eq. lia.
Qed.

Lemma rd_wr_ne l i j v : 0 <= i → 0 <= j → i ≠ j → rd (wr l i v) j = rd l j.
Proof.
  intros. unfold rd, wr. apply list_lookup_total_insert_ne. lia.
Qed.

Lemma wr_id l i : 0 <= i < Z.of_nat (length l) → wr l i (rd l i) = l.
Proof.
  intros. unfold rd, wr. apply list_insert_id, list_lookup_lookup_total_lt. lia.
Qed.

Lemma length_slice l off n :
  0 <= off → 0 <= n → off + n <= Z.of_nat (length l) →
  length (slice l off n) = Z.to_nat n.
Proof. intros. unfold slice. rewrite length_take, length_drop. lia. Qed.

Lemma rd_slice l off n i :
  0 <= off → 0 <= i < n → rd (slice l off n) i = rd l (off + i).
Proof.
  intros. unfold rd, slice. rewrite lookup_total_take_lt by lia.
  rewrite lookup_total_drop. f_equal. lia.
Qed.

(** Reading back exactly what was written. *)
Lemma slice_memcpy_eq l off src :
  0 <= off → off + Z.of_nat (length src) <= Z.of_nat (length l) →
  slice (memcpy l off src) off (Z.of_nat (length src)) = src.
Proof.
  intros. unfold slice, memcpy. apply list_eq. intros i.
  destruct (decide (i < length src)%nat) as [Hi|Hi].
  - rewrite lookup_take_lt by lia. rewrite lookup_drop.
    rewrite list_lookup_inserts by lia. f_equal. lia.
  - rewrite lookup_take_ge by lia. symmetry. apply lookup_ge_None. lia.
Qed.

(** Reading a block that does not overlap the one written. *)
Lemma slice_memcpy_ne l off src off' n :
  0 <= off → 0 <= off' → 0 <= n →
  off' + n <= off ∨ off + Z.of_nat (length src) <= off' →
  slice (memcpy l off src) off' n = slice l off' n.
Proof.
  intros. unfold slice, memcpy. apply list_eq. intros i.
  destruct (decide (i < Z.to_nat n)%nat) as [Hi|Hi].
  - rewrite !lookup_take_lt by lia. rewrite !lookup_drop.
    destruct (decide (Z.to_nat off' + i < Z.to_nat off)%nat).
    + apply list_lookup_inserts_lt. lia.
    + apply list_lookup_inserts_ge. lia.
  - rewrite !lookup_take_ge by lia. done.
Qed.
End arrays.

#[export] Hint Rewrite @length_wr @length_memcpy : ns6_rw.

(** Loop over [for (i = 0; i < n; ++i)]: [body] maps the index and the state. *)
Fixpoint for_loop {S : Type} (n : nat) (i : Z) (body : Z → S → S) (s : S) : S :=
  match n with
  | O => s
  | S n' => for_loop n' (i + 1) body (body i s)
  end.

Lemma for_loop_snoc {S} n i (body : Z → S → S) s :
  for_loop (Datatypes.S n) i body s = body (i + Z.of_nat n) (for_loop n i body s).
Proof.
  revert i s. induction n as [|n IH]; intros i s.
  - cbn. by rewrite Z.add_0_r.
  - change (for_loop (Datatypes.S (Datatypes.S n)) i body s)
      with (for_loop (Datatypes.S n) (i + 1) body (body i s)).
    rewrite IH. cbn [for_loop]. f_equal. lia.
Qed.

(** Loop invariants: [P k] holds before iteration [k]. *)
Lemma for_loop_ind {S} (P : Z → S → Prop) n i (body : Z → S → S) s :
  P i s →
  (∀ k s', i <= k < i + Z.of_nat n → P k s' → P (k + 1) (body k s')) →
  P (i + Z.of_nat n) (for_loop n i body s).
Proof.
  revert i s. induction n as [|n IH]; intros i s H0 Hstep; cbn [for_loop].
  - by rewrite Z.add_0_r.
  - replace (i + Z.of_nat (Datatypes.S n)) with (i + 1 + Z.of_nat n) by lia.
    apply IH.
    + apply Hstep; [lia|done].
    + intros k s' Hk. apply Hstep. lia.
Qed.

(** ** Step relations: reflexive transitive closure and invariants. *)

Inductive steps {S : Type} (R : S → S → Prop) : S → S → Prop :=
  | steps_refl s : steps R s s
  | steps_cons s1 s2 s3 : R s1 s2 → steps R s2 s3 → steps R s1 s3.

Lemma steps_invariant {S} (R : S → S → Prop) (I : S → Prop) :
  (∀ s s', I s → R s s' → I s') → ∀ s s', I s → steps R s s' → I s'.
Proof. intros HR s s' Hs Hst. induction Hst; eauto. Qed.

Lemma steps_trans {S} (R : S → S → Prop) a b c :
  steps R a b → steps R b c → steps R a c.
Proof. intros Hab. induction Hab; intros; [done|]. econstructor; eauto. Qed.

(** [swrap] is the identity on the values of the signed type. *)
Lemma swrap_id w z : 0 < w → - 2 ^ (w - 1) <= z < 2 ^ (w - 1) → swrap w z = z.
Proof.
  intros Hw Hz. unfold swrap.
  assert (2 ^ w = 2 * 2 ^ (w - 1)) by (rewrite <- Z.pow_succ_r by lia; f_equal; lia).
  rewrite Z.mod_small; lia.
Qed.

(** [map] and indexing. *)
Lemma map_lookup_total {A B} `{Inhabited A, Inhabited B} (f : A → B) l j :
  (j < length l)%nat → map f l !!! j = f (l !!! j).
Proof. intros Hj. exact (list_lookup_total_fmap f l j Hj). Qed.

(** [slice] of a block that was just written, from inside the block. *)
Lemma slice_memcpy_in {A} `{Inhabited A} (l : list A) off src j n :
  0 <= off → 0 <= j → 0 <= n → j + n <= Z.of_nat (length src) →
  off + Z.of_nat (length src) <= Z.of_nat (length l) →
  slice (memcpy l off src) (off + j) n = slice src j n.
Proof.
  intros. unfold slice, memcpy. apply list_eq. intros i.
  destruct (decide (i < Z.to_nat n)%nat) as [Hi|Hi].
  - rewrite !lookup_take_lt by lia. rewrite !lookup_drop.
    rewrite list_lookup_inserts by lia. f_equal. lia.
  - rewrite !lookup_take_ge by lia. done.
Qed.

Lemma slice_slice {A} (l : list A) off n j m :
  0 <= off → 0 <= j → 0 <= m → j + m <= n → slice (slice l off n) j m = slice l (off + j) m.
Proof.
  intros. unfold slice. rewrite skipn_firstn_comm, take_take, drop_drop. f_equal; [lia|f_equal; lia].
Qed.

Lemma wr_wr {A} `{Inhabited A} (l : list A) i a b : wr (wr l i a) i b = wr l i b.
Proof. apply list_insert_insert_eq. Qed.

Lemma Forall_wr {A} `{Inhabited A} (P : A → Prop) l i v : Forall P l → P v → Forall P (wr l i v).
Proof. intros Hl Hv. by apply Forall_insert. Qed.

(** ** Record update

    [r <| f := v |>] and [r <| f ::= g |>] replace one field of a record whose
    fields are listed by an instance of [Eta]; the other fields stay the
    projections of [r], so [cbn] reads a field through updates. *)

Class Eta (R : Type) := eta : R → R.
Class Setter {R E : Type} (g : R → E) := set_field : (E → E) → R → R.
Arguments set_field {R E} g {Setter} f r.

Ltac find_setter R E g :=
  exact (λ (f : E → E) (r : R),
    ltac:(let e := constr:(_ : Eta R) in
          let e := eval red in e in
          let b := eval cbv beta in (e r) in
          match b with context C [g r] => let b' := context C [f (g r)] in exact b' end)).

#[export] Hint Extern 1 (@Setter ?R ?E ?g) => find_setter R E g : typeclass_instances.

Notation "r <| g := v |>" := (set_field g (λ _, v) r)
  (at level 8, g at next level, v at level 200, left associativity,
   format "r <| g  :=  v |>") : c_scope.
Notation "r <| g ::= f |>" := (set_field g f r)
  (at level 8, g at next level, f at level 200, left associativity,
   format "r <| g  ::=  f |>") : c_scope.
