(* ===== verification/Float.v ===== *)
(** * IEEE 754 arithmetic as the C sources use it

    The sources compute with [float] (binary32) and [double] (binary64) in
    round-to-nearest mode.  Both are modelled by the executable specification of
    the standard library ([SpecFloat]), instantiated at the two formats.  This
    file adds the conversions C performs ([(double)i], [(uint64_t)x], [lrint])
    and the lemmas that the arithmetic of integer-valued numbers is exact below
    [2 ^ prec]; they carry the proofs about the resampling ring. *)

From stdpp Require Import base list numbers tactics.
From Stdlib Require Import ZArith Lia ZifyBool.
From Stdlib Require Export SpecFloat.
From S2P Require Import Prelude.

(** ** Conversions *)

(** [lrint]/[lrintf]: nearest integer, ties to even.  NaN and infinities have no
    integer value (the callers clamp before converting). *)
Definition sf_rint (x : spec_float) : Z :=
  match x with
  | S754_finite s m e =>
      let v := if e >=? 0 then Zpos m * 2 ^ e
               else let d := 2 ^ (- e) in
                    let q := Zpos m / d in
                    let r := Zpos m mod d in
                    if (2 * r <? d) || ((2 * r =? d) && Z.even q) then q else q + 1 in
      if s then - v else v
  | _ => 0
  end.

(** [(uint64_t)x] and [(int32_t)x]: truncation toward zero. *)
Definition sf_trunc (x : spec_float) : Z :=
  match x with
  | S754_finite s m e =>
      let v := if e >=? 0 then Zpos m * 2 ^ e else Zpos m / 2 ^ (- e) in
      if s then - v else v
  | _ => 0
  end.

Definition sf_isfinite (x : spec_float) : bool :=
  match x with S754_nan | S754_infinity _ => false | _ => true end.

(** Integer to floating point, correctly rounded. *)
Definition sf_of_Z (prec emax z : Z) : spec_float :=
  binary_normalize prec emax z 0 false.

(** ** The formats *)

Class Format (prec emax : Z) : Prop := {
  prec_gt_1 : 1 < prec;
  prec_lt_emax : prec + 2 < emax
}.

#[export] Instance binary32 : Format 24 128.
Proof. split; lia. Qed.

#[export] Instance binary64 : Format 53 1024.
Proof. split; lia. Qed.

(** [float] *)
Definition f32_mul : spec_float → spec_float → spec_float := SFmul 24 128.
Definition f32_of_Z : Z → spec_float := sf_of_Z 24 128.

(** [double] *)
Definition d_add : spec_float → spec_float → spec_float := SFadd 53 1024.
Definition d_sub : spec_float → spec_float → spec_float := SFsub 53 1024.
Definition d_mul : spec_float → spec_float → spec_float := SFmul 53 1024.
Definition d_div : spec_float → spec_float → spec_float := SFdiv 53 1024.
Definition d_of_Z : Z → spec_float := sf_of_Z 53 1024.
Definition d_lt (x y : spec_float) : bool := SFltb x y.

(** A decimal literal [n/d] with both parts exactly representable: the correctly
    rounded quotient is the double nearest to the literal. *)
Definition d_lit (n d : Z) : spec_float := d_div (d_of_Z n) (d_of_Z d).

(** The 32 bits of a [float], as [memcpy] finds them. *)
Definition f32_of_bits (b : Z) : spec_float :=
  let s := Z.testbit b 31 in
  let e := Z.land (Z.shiftr b 23) 255 in
  let m := Z.land b 8388607 in
  if e =? 255 then (if m =? 0 then S754_infinity s else S754_nan)
  else if e =? 0 then
    match m with Zpos p => S754_finite s p (-149) | _ => S754_zero s end
  else match m + 8388608 with
       | Zpos p => S754_finite s p (e - 150)
       | _ => S754_zero s
       end.

(** ** Digits and shifts *)

Lemma digits2_log2 p : Zpos (digits2_pos p) = Z.log2 (Zpos p) + 1.
Proof.
  induction p as [p IH|p IH|]; cbn [digits2_pos]; [| |done].
  - rewrite Pos2Z.inj_succ, IH. rewrite (Pos2Z.inj_xI p), Z.log2_succ_double by lia. lia.
  - rewrite Pos2Z.inj_succ, IH. rewrite (Pos2Z.inj_xO p), Z.log2_double by lia. lia.
Qed.

Lemma log2_shift z k : 0 < z → 0 <= k → Z.log2 (z * 2 ^ k) = Z.log2 z + k.
Proof. intros. rewrite Z.log2_mul_pow2 by lia. lia. Qed.

Lemma iter_pos_iter {A} (f : A → A) n x : iter_pos f n x = Pos.iter f x n.
Proof.
  revert x. induction n as [n IH|n IH|]; intros x; cbn [iter_pos]; [| |done].
  - rewrite !IH. cbn. by rewrite !Pos.iter_swap.
  - rewrite !IH. done.
Qed.

Lemma iter_xO p n : Zpos (Pos.iter xO p n) = Zpos p * 2 ^ Zpos n.
Proof.
  revert n. apply (Pos.peano_ind (λ n, Zpos (Pos.iter xO p n) = Zpos p * 2 ^ Zpos n)).
  - cbn. lia.
  - intros n IH. rewrite Pos.iter_succ, Pos2Z.inj_succ, Z.pow_succ_r by lia.
    rewrite Pos2Z.inj_xO, IH. lia.
Qed.

(** Dropping trailing zero bits is exact. *)
Lemma shr_1_exact p : shr_1 (Build_shr_record (Zpos p~0) false false)
                      = Build_shr_record (Zpos p) false false.
Proof. done. Qed.

Lemma shr_exact p n e :
  0 <= n →
  shr (Build_shr_record (Zpos p * 2 ^ n) false false) e n
  = (Build_shr_record (Zpos p) false false, e + n).
Proof.
  intros Hn. destruct n as [|n|]; [| |lia].
  - rewrite Z.mul_1_r. cbn. f_equal. lia.
  - unfold shr. f_equal. rewrite iter_pos_iter. revert n Hn.
    apply (Pos.peano_ind (λ n, 0 <= Zpos n →
      Pos.iter shr_1 (Build_shr_record (Zpos p * 2 ^ Zpos n) false false) n
      = Build_shr_record (Zpos p) false false)); [by rewrite Z.pow_1_r, Z.mul_comm|].
    intros n IH _. rewrite Pos.iter_succ_r, Pos2Z.inj_succ, Z.pow_succ_r by lia.
    rewrite <- (IH ltac:(lia)). f_equal.
    replace (Zpos p * (2 * 2 ^ Zpos n)) with (2 * (Zpos p * 2 ^ Zpos n)) by ring.
    rewrite <- iter_xO. done.
Qed.

Lemma shl_align_ge M E e' : E <= e' → shl_align M E e' = (M, E).
Proof. intros. unfold shl_align. destruct (e' - E) eqn:?; [done|done|lia]. Qed.

Lemma shl_align_lt M E e' :
  e' < E →
  snd (shl_align M E e') = e' ∧ Zpos (fst (shl_align M E e')) = Zpos M * 2 ^ (E - e').
Proof.
  intros. unfold shl_align. destruct (e' - E) as [| |d] eqn:?; [lia|lia|].
  split; [done|]. cbn [fst]. rewrite iter_xO. do 2 f_equal. lia.
Qed.

(** ** Exactness *)

Section exact.
Context {prec emax : Z} `{F : Format prec emax}.

(** [m0] has exactly [prec] digits and [e0] is a legal exponent. *)
Definition canonical (m0 : positive) (e0 : Z) : Prop :=
  Z.log2 (Zpos m0) + 1 = prec ∧ 3 - emax - prec <= e0 <= emax - prec.

Lemma fexp_eq e0 : 3 - emax - prec <= e0 → fexp prec emax (prec + e0) = e0.
Proof. unfold fexp, emin. lia. Qed.

(** Rounding an exactly representable value changes nothing. *)
Lemma round_aux_canonical s m0 e0 j :
  canonical m0 e0 → 0 <= j →
  binary_round_aux prec emax s (Zpos m0 * 2 ^ j) (e0 - j) loc_Exact
  = S754_finite s m0 e0.
Proof.
  intros [Hd He] Hj. unfold binary_round_aux, shr_fexp.
  assert (Hz : Zdigits2 (Zpos m0 * 2 ^ j) = prec + j).
  { destruct (Zpos m0 * 2 ^ j) as [|q|q] eqn:Eq; [nia| |nia].
    cbn [Zdigits2]. rewrite digits2_log2, <- Eq, log2_shift by lia. lia. }
  rewrite Hz. replace (prec + j + (e0 - j)) with (prec + e0) by lia.
  rewrite fexp_eq by lia. replace (e0 - (e0 - j)) with j by lia.
  cbn [shr_record_of_loc]. rewrite shr_exact by lia.
  replace (e0 - j + j) with e0 by lia. cbn -[shr digits2_pos Z.add Z.sub fexp].
  rewrite digits2_log2, Hd, fexp_eq, Z.sub_diag by lia. cbn.
  destruct (Z.leb_spec e0 (emax - prec)); [done|lia].
Qed.

Lemma round_canonical s m0 e0 M E :
  canonical m0 e0 →
  (E <= e0 ∧ Zpos M = Zpos m0 * 2 ^ (e0 - E)) ∨
  (e0 <= E ∧ Zpos m0 = Zpos M * 2 ^ (E - e0)) →
  binary_round prec emax s M E = S754_finite s m0 e0.
Proof.
  intros Hc HM. unfold binary_round. pose proof Hc as [Hd He].
  assert (Hlog : Z.log2 (Zpos M) + E = Z.log2 (Zpos m0) + e0).
  { destruct HM as [[? Heq]|[? Heq]]; rewrite Heq, log2_shift by lia; lia. }
  rewrite digits2_log2. replace (Z.log2 (Zpos M) + 1 + E) with (prec + e0) by lia.
  rewrite fexp_eq by lia. destruct (decide (E <= e0)) as [HE|HE].
  - rewrite shl_align_ge by done.
    assert (Zpos M = Zpos m0 * 2 ^ (e0 - E)) as ->.
    { destruct HM as [[_ ?]|[? Heq]]; [done|].
      assert (E = e0) as -> by lia. rewrite Heq, Z.sub_diag. lia. }
    replace E with (e0 - (e0 - E)) at 2 by lia.
    apply round_aux_canonical; [done|lia].
  - destruct HM as [[? ?]|[? Heq]]; [lia|].
    pose proof (shl_align_lt M E e0 ltac:(lia)) as Hs.
    destruct (shl_align M E e0) as [mz ez]. cbn [fst snd] in Hs. destruct Hs as [-> Hmz].
    rewrite Hmz, <- Heq, <- (Z.mul_1_r (Zpos m0)). replace e0 with (e0 - 0) at 1 by lia.
    apply (round_aux_canonical s m0 e0 0); [done|lia].
Qed.

(** The canonical form of the positive integer [p]. *)
Lemma canonical_of_pos p :
  Zpos p < 2 ^ prec →
  ∃ m0, Zpos m0 = Zpos p * 2 ^ (prec - 1 - Z.log2 (Zpos p)) ∧
        canonical m0 (Z.log2 (Zpos p) + 1 - prec).
Proof.
  intros Hp. pose proof prec_gt_1. pose proof prec_lt_emax.
  pose proof (Z.log2_nonneg (Zpos p)) as H2.
  assert (Hlt : Z.log2 (Zpos p) < prec) by (apply Z.log2_lt_pow2; lia).
  assert (0 < 2 ^ (prec - 1 - Z.log2 (Zpos p))) by (apply Z.pow_pos_nonneg; lia).
  destruct (Zpos p * 2 ^ (prec - 1 - Z.log2 (Zpos p))) as [|m0|] eqn:E; [lia| |lia].
  exists m0. split; [done|]. split; [rewrite <- E, log2_shift by lia; lia|lia].
Qed.

(** Normalising an integer scaled by a power of two gives its canonical form. *)
Lemma round_scaled s p k :
  Zpos p < 2 ^ prec → 0 <= k →
  ∀ M, Zpos M = Zpos p * 2 ^ k →
  binary_round prec emax s M (- k) = binary_round prec emax s p 0.
Proof.
  intros Hp Hk M HM. destruct (canonical_of_pos p Hp) as (m0 & Hm0 & Hc).
  set (l := Z.log2 (Zpos p)) in *. pose proof Hc as [_ ?].
  assert (Hl : l < prec) by (apply Z.log2_lt_pow2; lia).
  rewrite (round_canonical s m0 _ M (- k) Hc), (round_canonical s m0 _ p 0 Hc); [done| |].
  - right. split; [lia|]. rewrite Hm0. do 2 f_equal. lia.
  - destruct (decide (- k <= l + 1 - prec)); [left|right]; (split; [lia|]).
    + rewrite HM, Hm0, <- Z.mul_assoc, <- Z.pow_add_r by lia. do 2 f_equal. lia.
    + rewrite HM, Hm0, <- Z.mul_assoc, <- Z.pow_add_r by lia. do 2 f_equal. lia.
Qed.

Lemma normalize_scaled z k b :
  Z.abs z < 2 ^ prec → 0 <= k → (z = 0 → b = false) →
  binary_normalize prec emax (z * 2 ^ k) (- k) b = sf_of_Z prec emax z.
Proof.
  intros Hz Hk Hb. assert (0 < 2 ^ k) by (apply Z.pow_pos_nonneg; lia).
  unfold sf_of_Z. destruct z as [|p|p].
  - rewrite Z.mul_0_l. cbn. by rewrite Hb.
  - destruct (Zpos p * 2 ^ k) as [|M|] eqn:E; [lia| |lia].
    cbn. by apply round_scaled.
  - destruct (Zneg p * 2 ^ k) as [| |M] eqn:E; [lia|lia|].
    cbn. apply round_scaled; [done|done|]. lia.
Qed.

(** The shape of an integer-valued float; the sign does not matter. *)
Lemma round_pos_shape p :
  Zpos p < 2 ^ prec →
  ∃ m0 k, (∀ s, binary_round prec emax s p 0 = S754_finite s m0 (- k)) ∧
          k = prec - 1 - Z.log2 (Zpos p) ∧ 0 <= k ∧ Zpos m0 = Zpos p * 2 ^ k.
Proof.
  intros Hp. destruct (canonical_of_pos p Hp) as (m0 & Hm0 & Hc).
  assert (Hl : Z.log2 (Zpos p) < prec) by (apply Z.log2_lt_pow2; lia).
  exists m0, (prec - 1 - Z.log2 (Zpos p)). split; [|split; [done|split; [lia|done]]].
  intros s. replace (- (prec - 1 - Z.log2 (Zpos p))) with (Z.log2 (Zpos p) + 1 - prec) by lia.
  apply (round_canonical s m0 _ p 0 Hc). right. split; [lia|].
  rewrite Hm0. do 2 f_equal. lia.
Qed.

Lemma sf_of_Z_shape z :
  z ≠ 0 → Z.abs z < 2 ^ prec →
  ∃ m0 k, sf_of_Z prec emax z = S754_finite (z <? 0) m0 (- k) ∧ 0 <= k ∧
          Zpos m0 = Z.abs z * 2 ^ k.
Proof.
  intros Hz Habs. unfold sf_of_Z. destruct z as [|p|p]; [done| |];
    destruct (round_pos_shape p Habs) as (m0 & k & Hr & ? & ? & ?);
    exists m0, k; cbn; rewrite Hr; done.
Qed.

Lemma sf_of_Z_opp z :
  z ≠ 0 → Z.abs z < 2 ^ prec →
  sf_of_Z prec emax (- z) = SFopp (sf_of_Z prec emax z).
Proof.
  intros Hz Habs. unfold sf_of_Z. destruct z as [|p|p]; [done| |];
    destruct (round_pos_shape p Habs) as (m0 & k & Hr & _);
    rewrite ?Pos2Z.opp_pos, ?Pos2Z.opp_neg; cbn [binary_normalize]; by rewrite !Hr.
Qed.

Lemma signed_align s z m0 k k' :
  0 <= k → k <= k' → Zpos m0 = Z.abs z * 2 ^ k → s = (z <? 0) →
  cond_Zopp s (Zpos (fst (shl_align m0 (- k) (- k')))) = z * 2 ^ k'.
Proof.
  intros Hk Hk' Hm ->.
  assert (Hfst : Zpos (fst (shl_align m0 (- k) (- k'))) = Z.abs z * 2 ^ k').
  { destruct (decide (k = k')) as [->|].
    - rewrite shl_align_ge by lia. done.
    - destruct (shl_align_lt m0 (- k) (- k') ltac:(lia)) as [_ ->].
      rewrite Hm, <- Z.mul_assoc, <- Z.pow_add_r by lia. do 2 f_equal. lia. }
  unfold cond_Zopp. rewrite Hfst. destruct (Z.ltb_spec z 0); lia.
Qed.

Lemma SFadd_of_Z a b :
  Z.abs a < 2 ^ prec → Z.abs b < 2 ^ prec → Z.abs (a + b) < 2 ^ prec →
  SFadd prec emax (sf_of_Z prec emax a) (sf_of_Z prec emax b) = sf_of_Z prec emax (a + b).
Proof.
  intros Ha Hb Hab.
  destruct (decide (a = 0)) as [->|Ha0]; [|destruct (decide (b = 0)) as [->|Hb0]].
  - rewrite Z.add_0_l. destruct (decide (b = 0)) as [->|Hb0]; [done|].
    destruct (sf_of_Z_shape b Hb0 Hb) as (mb & kb & -> & _). done.
  - rewrite Z.add_0_r. destruct (sf_of_Z_shape a Ha0 Ha) as (ma & ka & -> & _). done.
  - destruct (sf_of_Z_shape a Ha0 Ha) as (ma & ka & -> & Hka & Hma).
    destruct (sf_of_Z_shape b Hb0 Hb) as (mb & kb & -> & Hkb & Hmb).
    cbn [SFadd]. replace (Z.min (- ka) (- kb)) with (- Z.max ka kb) by lia.
    rewrite (signed_align _ a ma ka), (signed_align _ b mb kb) by (done || lia).
    rewrite <- Z.mul_add_distr_r. apply normalize_scaled; [done|lia|done].
Qed.

Lemma SFsub_of_Z a b :
  Z.abs a < 2 ^ prec → Z.abs b < 2 ^ prec → Z.abs (a - b) < 2 ^ prec →
  SFsub prec emax (sf_of_Z prec emax a) (sf_of_Z prec emax b) = sf_of_Z prec emax (a - b).
Proof.
  intros Ha Hb Hab.
  destruct (decide (b = 0)) as [->|Hb0]; [|destruct (decide (a = 0)) as [->|Ha0]].
  - rewrite Z.sub_0_r. destruct (decide (a = 0)) as [->|Ha0]; [done|].
    destruct (sf_of_Z_shape a Ha0 Ha) as (ma & ka & -> & _). done.
  - rewrite Z.sub_0_l, sf_of_Z_opp by done.
    destruct (sf_of_Z_shape b Hb0 Hb) as (mb & kb & -> & _). done.
  - destruct (sf_of_Z_shape a Ha0 Ha) as (ma & ka & -> & Hka & Hma).
    destruct (sf_of_Z_shape b Hb0 Hb) as (mb & kb & -> & Hkb & Hmb).
    cbn [SFsub]. replace (Z.min (- ka) (- kb)) with (- Z.max ka kb) by lia.
    rewrite (signed_align _ a ma ka), (signed_align _ b mb kb) by (done || lia).
    rewrite <- Z.mul_sub_distr_r. apply normalize_scaled; [done|lia|done].
Qed.

(** An integer-valued float converts back to its integer. *)
Lemma sf_rint_of_Z z : Z.abs z < 2 ^ prec → sf_rint (sf_of_Z prec emax z) = z.
Proof.
  intros Hz. destruct (decide (z = 0)) as [->|Hz0]; [done|].
  destruct (sf_of_Z_shape z Hz0 Hz) as (m & k & -> & Hk & Hm).
  assert (0 < 2 ^ k) by (apply Z.pow_pos_nonneg; lia). cbn [sf_rint]. rewrite Hm.
  destruct (Z.geb_spec (- k) 0).
  - assert (k = 0) as -> by lia. cbn. destruct (Z.ltb_spec z 0); lia.
  - rewrite Z.opp_involutive, Z.div_mul, Z.mod_mul by lia.
    replace (2 * 0 <? 2 ^ k) with true by lia. cbn.
    destruct (Z.ltb_spec z 0); lia.
Qed.

Lemma sf_trunc_of_Z z : Z.abs z < 2 ^ prec → sf_trunc (sf_of_Z prec emax z) = z.
Proof.
  intros Hz. destruct (decide (z = 0)) as [->|Hz0]; [done|].
  destruct (sf_of_Z_shape z Hz0 Hz) as (m & k & -> & Hk & Hm).
  assert (0 < 2 ^ k) by (apply Z.pow_pos_nonneg; lia). cbn [sf_trunc]. rewrite Hm.
  destruct (Z.geb_spec (- k) 0).
  - assert (k = 0) as -> by lia. cbn. destruct (Z.ltb_spec z 0); lia.
  - rewrite Z.opp_involutive, Z.div_mul by lia. destruct (Z.ltb_spec z 0); lia.
Qed.

(** [x + d * 0.0 = x] for integer-valued [x] and [d], whatever the sign of zero. *)
Lemma SFadd_mul_zero a d s :
  Z.abs d < 2 ^ prec → Z.abs a < 2 ^ prec →
  sf_rint (SFadd prec emax (sf_of_Z prec emax a)
            (SFmul prec emax (sf_of_Z prec emax d) (S754_zero s))) = a.
Proof.
  intros Hd Ha.
  assert (∃ s', SFmul prec emax (sf_of_Z prec emax d) (S754_zero s) = S754_zero s') as [s' ->].
  { destruct (decide (d = 0)) as [->|Hd0]; [by eexists|].
    destruct (sf_of_Z_shape d Hd0 Hd) as (m & k & -> & _). by eexists. }
  destruct (decide (a = 0)) as [->|Ha0]; [by destruct s'|].
  rewrite <- (sf_rint_of_Z a Ha) at 2.
  destruct (sf_of_Z_shape a Ha0 Ha) as (m & k & -> & _). done.
Qed.

Lemma compare_pos_of_Z (p q mp mq : positive) (kp kq : Z) :
  (∀ s, binary_round prec emax s p 0 = S754_finite s mp (- kp)) →
  (∀ s, binary_round prec emax s q 0 = S754_finite s mq (- kq)) →
  kp = prec - 1 - Z.log2 (Zpos p) → kq = prec - 1 - Z.log2 (Zpos q) →
  0 <= kp → 0 <= kq → Zpos mp = Zpos p * 2 ^ kp → Zpos mq = Zpos q * 2 ^ kq →
  match Z.compare (- kp) (- kq) with
  | Lt => Lt | Gt => Gt | Eq => Pos.compare_cont Eq mp mq
  end = Z.compare (Zpos p) (Zpos q).
Proof.
  intros _ _ Hkp Hkq Hp0 Hq0 Hmp Hmq.
  destruct (Z.compare_spec (- kp) (- kq)) as [He|He|He].
  - assert (kp = kq) as -> by lia.
    change (Pos.compare_cont Eq mp mq) with (Z.compare (Zpos mp) (Zpos mq)).
    rewrite Hmp, Hmq. symmetry. apply Zmult_compare_compat_r.
    apply Z.lt_gt, Z.pow_pos_nonneg; lia.
  - symmetry. apply Z.compare_lt_iff, Z.log2_lt_cancel. lia.
  - symmetry. apply Z.compare_gt_iff, Z.log2_lt_cancel. lia.
Qed.

(** Comparing integer-valued floats compares the integers. *)
Lemma SFcompare_of_Z a b :
  Z.abs a < 2 ^ prec → Z.abs b < 2 ^ prec →
  SFcompare (sf_of_Z prec emax a) (sf_of_Z prec emax b) = Some (Z.compare a b).
Proof.
  intros Ha Hb. unfold sf_of_Z. destruct a as [|p|p]; destruct b as [|q|q]; [done|..];
    try (destruct (round_pos_shape p Ha) as (mp & kp & Hp & Hkp & Hp0 & Hmp));
    try (destruct (round_pos_shape q Hb) as (mq & kq & Hq & Hkq & Hq0 & Hmq));
    cbn [binary_normalize]; rewrite ?Hp, ?Hq; cbn [SFcompare]; try done; f_equal.
  - by apply compare_pos_of_Z.
  - pose proof (compare_pos_of_Z p q mp mq kp kq Hp Hq Hkp Hkq Hp0 Hq0 Hmp Hmq) as Hc.
    change (Z.compare (Zneg p) (Zneg q)) with (CompOpp (Z.compare (Zpos p) (Zpos q))).
    rewrite <- Hc. by destruct (- kp ?= - kq).
Qed.

Lemma SFltb_of_Z a b :
  Z.abs a < 2 ^ prec → Z.abs b < 2 ^ prec →
  SFltb (sf_of_Z prec emax a) (sf_of_Z prec emax b) = (a <? b).
Proof.
  intros. unfold SFltb. rewrite SFcompare_of_Z by done. unfold Z.ltb. by destruct (a ?= b).
Qed.
End exact.
