(* ===== verification/Pcm.v ===== *)
(** * 24-bit PCM samples

    The sample arithmetic shared by the transport ring, the USB worker and the
    capture path: packing and unpacking 24-bit little-endian samples, conversion
    of CoreAudio frames to USB frames, linear interpolation, idle PCM, level
    measurement, the underrun fade and the decoder of captured lanes
    (NS6Transport.c, NS6IdlePCM.h, NS6PCMLevel.h, NS6AudioRecovery.c,
    NS6CaptureDecoder.h, NS6USB.c). *)

From stdpp Require Import base list numbers tactics.
From Stdlib Require Import ZArith Lia ZifyBool.
From S2P Require Import Prelude Float.

Definition CHANNELS : Z := 4.
Definition USB_FRAME_BYTES : Z := 12.

(** Constants of the CoreAudio headers, which are not part of the repository. *)
Class CoreAudioABI := { kAudioFormatFlagIsFloat : Z }.

(** The fields of an [AudioStreamBasicDescription] the sources read. *)
Record AudioStreamBasicDescription := {
  mFormatFlags : Z;
  mBytesPerFrame : Z;
  mChannelsPerFrame : Z;
  mBitsPerChannel : Z
}.

(** ** Packing *)

(** The three bytes [pack24] stores at its destination. *)
Definition pack24 (sample : Z) : list Z :=
  [u8 sample; u8 (Z.shiftr sample 8); u8 (Z.shiftr sample 16)].

(** The sample at byte [off] of [bytes]; the third byte is read as [int8_t]. *)
Definition unpack24 (bytes : list Z) (off : Z) : Z :=
  Z.lor (Z.lor (rd bytes off) (Z.shiftl (rd bytes (off + 1)) 8))
        (Z.shiftl (swrap 8 (rd bytes (off + 2))) 16).

Definition saturate24 (value : Z) : Z :=
  if value >? 8388607 then 8388607
  else if value <? -8388608 then -8388608
  else value.

Definition is_s24 (z : Z) : Prop := -8388608 <= z <= 8388607.

(** The copies of the two routines in NS6USB.c. *)
Definition pack_pcm24 (value : Z) : list Z :=
  [u8 value; u8 (Z.shiftr value 8); u8 (Z.shiftr value 16)].

Definition unpack_pcm24 (bytes : list Z) (off : Z) : Z :=
  Z.lor (Z.lor (rd bytes off) (Z.shiftl (rd bytes (off + 1)) 8))
        (Z.shiftl (swrap 8 (rd bytes (off + 2))) 16).

(** ** Conversion of one frame *)

Definition valid_format `{CoreAudioABI} (format : option AudioStreamBasicDescription) : bool :=
  match format with
  | None => false
  | Some f =>
      if negb (mChannelsPerFrame f =? CHANNELS) || (mBytesPerFrame f =? 0) ||
         negb (mBytesPerFrame f mod CHANNELS =? 0) then false
      else
        let bytes := mBytesPerFrame f / CHANNELS in
        if negb (Z.land (mFormatFlags f) kAudioFormatFlagIsFloat =? 0)
        then (mBitsPerChannel f =? 32) && (bytes =? 4)
        else ((mBitsPerChannel f =? 24) && (bytes =? 3)) ||
             ((mBitsPerChannel f =? 32) && (bytes =? 4))
  end.

(** Four little-endian bytes, as [memcpy] into a 32-bit variable reads them. *)
Definition le32 (bytes : list Z) (off : Z) : Z :=
  Z.lor (Z.lor (rd bytes off) (Z.shiftl (rd bytes (off + 1)) 8))
        (Z.lor (Z.shiftl (rd bytes (off + 2)) 16) (Z.shiftl (rd bytes (off + 3)) 24)).

(** The float branch: non-finite to zero, clamp to [-1, 1], scale and round. *)
Definition convert_float (value : spec_float) : Z :=
  let value := if sf_isfinite value then value else S754_zero false in
  let value := if SFltb (f32_of_Z 1) value then f32_of_Z 1 else value in
  let value := if SFltb value (f32_of_Z (-1)) then f32_of_Z (-1) else value in
  sf_rint (f32_mul value (f32_of_Z 8388607)).

Definition convert_sample (source : list Z) (off : Z) (is_float : bool) (bits : Z) : Z :=
  if is_float then convert_float (f32_of_bits (le32 source off))
  else if bits =? 24 then
    Z.lor (Z.lor (rd source off) (Z.shiftl (rd source (off + 1)) 8))
          (Z.shiftl (swrap 8 (rd source (off + 2))) 16)
  else Z.shiftr (swrap 32 (le32 source off)) 8.

(** The twelve bytes of the USB frame made from the CoreAudio frame at byte [off]. *)
Definition convert_frame (source : list Z) (off sample_bytes : Z) (is_float : bool) (bits : Z)
    : list Z :=
  pack24 (convert_sample source off is_float bits) ++
  pack24 (convert_sample source (off + sample_bytes) is_float bits) ++
  pack24 (convert_sample source (off + 2 * sample_bytes) is_float bits) ++
  pack24 (convert_sample source (off + 3 * sample_bytes) is_float bits).

(** ** Interpolation between two stored frames *)

Definition interpolate_sample (a b : Z) (fraction : spec_float) : Z :=
  let value := d_add (d_of_Z a) (d_mul (d_sub (d_of_Z b) (d_of_Z a)) fraction) in
  let value := if d_lt (d_of_Z 8388607) value then d_of_Z 8388607 else value in
  let value := if d_lt value (d_of_Z (-8388608)) then d_of_Z (-8388608) else value in
  sf_rint value.

Definition interpolate_frame (first second : list Z) (fraction : spec_float) : list Z :=
  pack24 (interpolate_sample (unpack24 first 0) (unpack24 second 0) fraction) ++
  pack24 (interpolate_sample (unpack24 first 3) (unpack24 second 3) fraction) ++
  pack24 (interpolate_sample (unpack24 first 6) (unpack24 second 6) fraction) ++
  pack24 (interpolate_sample (unpack24 first 9) (unpack24 second 9) fraction).

(** Mixing: the saturated sum of two frames, channel by channel. *)
Definition mix_frame (dest converted : list Z) : list Z :=
  pack24 (saturate24 (unpack24 dest 0 + unpack24 converted 0)) ++
  pack24 (saturate24 (unpack24 dest 3 + unpack24 converted 3)) ++
  pack24 (saturate24 (unpack24 dest 6 + unpack24 converted 6)) ++
  pack24 (saturate24 (unpack24 dest 9 + unpack24 converted 9)).

(** A USB frame: twelve bytes. *)
Definition is_frame (bs : list Z) : Prop := length bs = 12%nat ∧ Forall is_u8 bs.

(** ** Round trips of the packing *)

Lemma swrap8_eq b : is_u8 b → swrap 8 b = if b <? 128 then b else b - 256.
Proof.
  intros [? ?]. unfold swrap. change (2 ^ (8 - 1)) with 128. change (2 ^ 8) with 256.
  destruct (Z.ltb_spec b 128).
  - rewrite Z.mod_small; lia.
  - replace (b + 128) with (b - 128 + 1 * 256) by lia. rewrite Z.mod_add by lia.
    rewrite Z.mod_small; lia.
Qed.

(** Or-ing disjoint bit fields is addition. *)
Lemma lor_disjoint_add lo hi n :
  0 <= n → 0 <= lo < 2 ^ n → Z.lor lo (Z.shiftl hi n) = lo + hi * 2 ^ n.
Proof.
  intros Hn Hlo. rewrite <- Z.shiftl_mul_pow2 by lia. symmetry.
  apply Z.add_nocarry_lor. apply Z.bits_inj'. intros k Hk.
  rewrite Z.land_spec, Z.bits_0, Z.shiftl_spec by lia.
  destruct (decide (k < n)).
  - rewrite (Z.testbit_neg_r hi) by lia. apply andb_false_r.
  - destruct (decide (lo = 0)) as [->|]; [by rewrite Z.bits_0|].
    rewrite (Z.bits_above_log2 lo); [done|lia|].
    apply Z.lt_le_trans with n; [apply Z.log2_lt_pow2; lia|lia].
Qed.

Lemma lor3_eq b0 b1 h :
  is_u8 b0 → is_u8 b1 →
  Z.lor (Z.lor b0 (Z.shiftl b1 8)) (Z.shiftl h 16) = b0 + 256 * b1 + 65536 * h.
Proof.
  unfold is_u8. intros. rewrite (lor_disjoint_add b0 b1 8) by lia.
  rewrite lor_disjoint_add by lia. lia.
Qed.

(** [unpack24] as a number. *)
Lemma unpack24_eq bs off b0 b1 b2 :
  rd bs off = b0 → rd bs (off + 1) = b1 → rd bs (off + 2) = b2 →
  is_u8 b0 → is_u8 b1 → is_u8 b2 →
  unpack24 bs off = b0 + 256 * b1 + 65536 * (if b2 <? 128 then b2 else b2 - 256).
Proof.
  unfold unpack24. intros -> -> -> ? ? ?. rewrite lor3_eq, swrap8_eq by done. done.
Qed.

Lemma s24_of_bytes b0 b1 b2 :
  is_u8 b0 → is_u8 b1 → is_u8 b2 →
  is_s24 (b0 + 256 * b1 + 65536 * (if b2 <? 128 then b2 else b2 - 256)).
Proof. unfold is_u8, is_s24. intros. case_ifs; lia. Qed.

Lemma pack24_of_bytes b0 b1 b2 :
  is_u8 b0 → is_u8 b1 → is_u8 b2 →
  pack24 (b0 + 256 * b1 + 65536 * (if b2 <? 128 then b2 else b2 - 256)) = [b0; b1; b2].
Proof.
  unfold is_u8, pack24, u8. intros. rewrite !Z.shiftr_div_pow2 by lia.
  change (2 ^ 8) with 256. change (2 ^ 16) with 65536.
  case_ifs; repeat f_equal; Z.div_mod_to_equations; lia.
Qed.

Lemma bytes_of_s24 z :
  is_s24 z →
  z = u8 z + 256 * u8 (Z.shiftr z 8) +
      65536 * (if u8 (Z.shiftr z 16) <? 128 then u8 (Z.shiftr z 16)
               else u8 (Z.shiftr z 16) - 256).
Proof.
  unfold is_s24, u8. intros. rewrite !Z.shiftr_div_pow2 by lia.
  change (2 ^ 8) with 256. change (2 ^ 16) with 65536.
  destruct (Z.ltb_spec ((z / 65536) mod 256) 128); Z.div_mod_to_equations; lia.
Qed.

Lemma length_pack24 z : length (pack24 z) = 3%nat.
Proof. done. Qed.

Lemma pack24_u8 z : Forall is_u8 (pack24 z).
Proof. repeat constructor; apply u8_range. Qed.

(** The four channels of a frame built by packing. *)
Lemma unpack24_frame a b c d :
  is_s24 a → is_s24 b → is_s24 c → is_s24 d →
  let f := pack24 a ++ pack24 b ++ pack24 c ++ pack24 d in
  unpack24 f 0 = a ∧ unpack24 f 3 = b ∧ unpack24 f 6 = c ∧ unpack24 f 9 = d.
Proof.
  intros Ha Hb Hc Hd f.
  repeat split; (erewrite unpack24_eq; [|reflexivity|reflexivity|reflexivity|apply u8_range..]);
    symmetry; by apply bytes_of_s24.
Qed.

Lemma is_frame_pack a b c d : is_frame (pack24 a ++ pack24 b ++ pack24 c ++ pack24 d).
Proof. split; [done|]. rewrite !Forall_app. auto using pack24_u8. Qed.

(** Every frame is the packing of the samples it holds. *)
Lemma frame_eta f :
  is_frame f →
  pack24 (unpack24 f 0) ++ pack24 (unpack24 f 3) ++
  pack24 (unpack24 f 6) ++ pack24 (unpack24 f 9) = f.
Proof.
  intros [Hlen Hu8].
  do 12 (destruct f as [|? f]; [done|]). destruct f; [|done]. clear Hlen.
  repeat match goal with H : Forall _ (_ :: _) |- _ => apply Forall_cons_1 in H as [? H] end.
  do 4 (erewrite unpack24_eq; [|lazy; reflexivity|lazy; reflexivity|lazy; reflexivity|done|done|done]).
  by rewrite !pack24_of_bytes.
Qed.

Lemma unpack24_s24 f off :
  is_frame f → off ∈ [0; 3; 6; 9] → is_s24 (unpack24 f off).
Proof.
  intros [Hlen Hu8] Hoff.
  do 12 (destruct f as [|? f]; [done|]). destruct f; [|done]. clear Hlen.
  repeat match goal with H : Forall _ (_ :: _) |- _ => apply Forall_cons_1 in H as [? H] end.
  repeat (apply elem_of_cons in Hoff as [->|Hoff]); [..|by apply elem_of_nil in Hoff];
    (erewrite unpack24_eq; [|lazy; reflexivity|lazy; reflexivity|lazy; reflexivity|done|done|done]); by apply s24_of_bytes.
Qed.

Lemma saturate24_range z : is_s24 (saturate24 z).
Proof. unfold saturate24, is_s24. case_ifs; lia. Qed.

Lemma saturate24_id z : is_s24 z → saturate24 z = z.
Proof. unfold saturate24, is_s24. intros. case_ifs; lia. Qed.

#[export] Hint Resolve saturate24_range is_frame_pack pack24_u8 : ns6.

(** ** Idle PCM (NS6IdlePCM.h) *)

(** The frames [ns6_fill_idle_pcm] leaves in the first [frames * 12] bytes of its
    buffer: silence, or the smallest positive sample on every channel. *)
Definition idle_frame (keep_alive : bool) : list Z :=
  if keep_alive then [1; 0; 0; 1; 0; 0; 1; 0; 0; 1; 0; 0] else replicate 12 0.

Definition ns6_fill_idle_pcm (output : list Z) (off frames : Z) (keep_alive : bool) : list Z :=
  let cleared := memcpy output off (replicate (Z.to_nat (frames * 12)) 0) in
  if negb keep_alive then cleared
  else for_loop (Z.to_nat frames) 0
         (λ frame out, for_loop 4 0 (λ channel out', wr out' (off + frame * 12 + channel * 3) 1) out)
         cleared.

(** ** Level measurement (NS6PCMLevel.h) *)

Record NS6PCMLevel := { peak : list Z; nonzero_frames : Z }.

Definition measure_sample (pcm : list Z) (frame channel : Z) : Z :=
  let off := (frame * 4 + channel) * 3 in
  let raw := Z.lor (Z.lor (rd pcm off) (Z.shiftl (rd pcm (off + 1)) 8))
                   (Z.shiftl (rd pcm (off + 2)) 16) in
  let value := Z.land raw 8388607 in
  if negb (Z.land raw 8388608 =? 0) then value - 8388608 else value.

Definition measure_channel (pcm : list Z) (frame channel : Z) (st : NS6PCMLevel * bool)
    : NS6PCMLevel * bool :=
  let '(level, nonzero) := st in
  let value := measure_sample pcm frame channel in
  let magnitude := if value <? 0 then - value else value in
  let peak' := if magnitude >? rd (peak level) channel
               then wr (peak level) channel magnitude else peak level in
  ({| peak := peak'; nonzero_frames := nonzero_frames level |}, nonzero || negb (value =? 0)).

Definition measure_frame (pcm : list Z) (frame : Z) (level : NS6PCMLevel) : NS6PCMLevel :=
  let '(level', nonzero) := for_loop 4 0 (measure_channel pcm frame) (level, false) in
  {| peak := peak level'; nonzero_frames := nonzero_frames level' +₆₄ Z.b2z nonzero |}.

Definition ns6_pcm24_measure (pcm : list Z) (frames : Z) : NS6PCMLevel :=
  for_loop (Z.to_nat frames) 0 (measure_frame pcm)
    {| peak := [0; 0; 0; 0]; nonzero_frames := 0 |}.

(** ** Underrun fade (NS6AudioRecovery.c) *)

Definition ns6_audio_recovery_underrun_gain (frame_index missing_frames : Z) : spec_float :=
  if (missing_frames =? 0) || (frame_index >=? missing_frames) then S754_zero false
  else d_div (d_of_Z (missing_frames - frame_index - 1)) (d_of_Z missing_frames).

(** ** Decoder of captured lanes (NS6CaptureDecoder.h) *)

Definition NS6_CAPTURE_SOURCE_STRIDE : Z := 64.
Definition NS6_CAPTURE_CHANNELS : Z := 2.

Definition capture_lane_bits (source : list Z) (off : Z) : Z :=
  for_loop 24 0 (λ bit value, Z.lor (u32 (Z.shiftl value 1)) (Z.land (rd source (off + bit)) 1)) 0.

Definition capture_lane_value (source : list Z) (off : Z) : Z :=
  let value := capture_lane_bits source off in
  if negb (Z.land value 8388608 =? 0) then swrap 32 (Z.lor value 4278190080) else value.

Definition ns6_capture_decode_lane (source : list Z) (off : Z) : spec_float :=
  f32_mul (f32_of_Z (capture_lane_value source off)) (SFdiv 24 128 (f32_of_Z 1) (f32_of_Z 8388608)).

(** Returns the number of frames and the output buffer; the three null tests of
    the source are the [option] arguments. *)
Definition ns6_capture_decode_block (source : option (list Z)) (source_bytes : Z)
    (output : option (list spec_float)) (output_capacity_frames : Z)
    : Z * option (list spec_float) :=
  match source, output with
  | Some src, Some out =>
      if (source_bytes =? 0) || negb (source_bytes mod NS6_CAPTURE_SOURCE_STRIDE =? 0)
      then (0, output)
      else
        let frames := source_bytes / NS6_CAPTURE_SOURCE_STRIDE in
        if output_capacity_frames <? frames then (0, output)
        else
          (frames,
           Some (for_loop (Z.to_nat frames) 0
             (λ frame o,
                let sample := frame * NS6_CAPTURE_SOURCE_STRIDE in
                let o := wr o (frame * NS6_CAPTURE_CHANNELS) (ns6_capture_decode_lane src sample) in
                wr o (frame * NS6_CAPTURE_CHANNELS + 1) (ns6_capture_decode_lane src (sample + 32)))
             out))
  | _, _ => (0, output)
  end.

(** ** Interpolation at an integral position *)

Lemma interpolate_sample_zero a b s :
  is_s24 a → is_s24 b → interpolate_sample a b (S754_zero s) = a.
Proof.
  unfold is_s24. intros Ha Hb. unfold interpolate_sample, d_add, d_mul, d_sub, d_of_Z.
  rewrite (SFsub_of_Z b a) by (cbn; lia).
  assert (∃ s', SFmul 53 1024 (sf_of_Z 53 1024 (b - a)) (S754_zero s) = S754_zero s') as [s' ->].
  { destruct (decide (b - a = 0)) as [->|Hd0]; [by eexists|].
    destruct (sf_of_Z_shape (prec:=53) (emax:=1024) (b - a) Hd0 ltac:(cbn; lia))
      as (m & k & -> & _). by eexists. }
  destruct (decide (a = 0)) as [->|Ha0]; [by destruct s'|].
  assert (Hadd : SFadd 53 1024 (sf_of_Z 53 1024 a) (S754_zero s') = sf_of_Z 53 1024 a).
  { destruct (sf_of_Z_shape (prec:=53) (emax:=1024) a Ha0 ltac:(cbn; lia))
      as (m & k & -> & _). done. }
  rewrite Hadd. unfold d_lt. rewrite SFltb_of_Z by (cbn; lia).
  replace (8388607 <? a) with false by lia. rewrite SFltb_of_Z by (cbn; lia).
  replace (a <? -8388608) with false by lia. apply sf_rint_of_Z. cbn; lia.
Qed.

(** Reading the ring at an integral position returns the stored frame. *)
Lemma interpolate_frame_zero f g s :
  is_frame f → is_frame g → interpolate_frame f g (S754_zero s) = f.
Proof.
  intros Hf Hg. unfold interpolate_frame.
  rewrite !interpolate_sample_zero by (apply unpack24_s24; [done|rewrite !elem_of_cons; auto 6]).
  by apply frame_eta.
Qed.
