(* ===== verification/Transport.v ===== *)
(** * The shared output ring (NS6Transport.c, NS6Transport.h)

    CoreAudio callbacks append converted frames, the USB worker reads them with
    linear resampling.  Every slot carries a tag, the absolute position of the
    frame it holds.  The operations below are the sequential bodies of the C
    functions; a null pointer is [None]. *)

From stdpp Require Import base list numbers tactics.
From Stdlib Require Import ZArith Lia ZifyBool.
From S2P Require Import Prelude Float Pcm.

Definition RING : Z := 16384.

Record NS6TransportShared := {
  samples : list Z;
  tags : list Z;
  read_cursor : Z;
  high_water : Z;
  initialized : bool
}.

Record NS6TransportReader := { read_fraction : spec_float }.

Inductive NS6TransportStopReason :=
  | NS6_TRANSPORT_STOP_NONE
  | NS6_TRANSPORT_STOP_EMPTY
  | NS6_TRANSPORT_STOP_MISSING_TAG
  | NS6_TRANSPORT_STOP_RING_LIMIT
  | NS6_TRANSPORT_STOP_INVALID.

#[export] Instance stop_reason_eq_dec : EqDecision NS6TransportStopReason.
Proof. solve_decision. Defined.

(** ** Field updates *)

Definition set_read_cursor (s : NS6TransportShared) (c : Z) : NS6TransportShared :=
  {| samples := samples s; tags := tags s; read_cursor := c;
     high_water := high_water s; initialized := initialized s |}.

Definition set_high_water (s : NS6TransportShared) (h : Z) : NS6TransportShared :=
  {| samples := samples s; tags := tags s; read_cursor := read_cursor s;
     high_water := h; initialized := initialized s |}.

(** Both counters set to [p] and the ring marked initialized. *)
Definition start_at (s : NS6TransportShared) (p : Z) : NS6TransportShared :=
  {| samples := samples s; tags := tags s; read_cursor := p;
     high_water := p; initialized := true |}.

Definition slot_of (position : Z) : Z := position mod RING.

(** The frame stored in the slot of [position]. *)
Definition frame_at (s : NS6TransportShared) (position : Z) : list Z :=
  slice (samples s) (slot_of position * USB_FRAME_BYTES) USB_FRAME_BYTES.

Definition tag_at (s : NS6TransportShared) (position : Z) : Z := rd (tags s) (slot_of position).

Definition store_frame (s : NS6TransportShared) (position : Z) (frame : list Z)
    : NS6TransportShared :=
  {| samples := memcpy (samples s) (slot_of position * USB_FRAME_BYTES) frame;
     tags := wr (tags s) (slot_of position) position;
     read_cursor := read_cursor s; high_water := high_water s;
     initialized := initialized s |}.

(** ** Reset *)

(** [ns6_transport_init_shared] and [ns6_transport_reset_shared] leave the samples
    alone and clear everything else. *)
Definition ns6_transport_reset_shared (s : NS6TransportShared) : NS6TransportShared :=
  {| samples := samples s; tags := replicate (Z.to_nat RING) UINT64_MAX;
     read_cursor := 0; high_water := 0; initialized := false |}.

Definition ns6_transport_init_shared (s : NS6TransportShared) : NS6TransportShared :=
  {| samples := samples s; tags := replicate (Z.to_nat RING) UINT64_MAX;
     read_cursor := 0; high_water := 0; initialized := false |}.

Definition ns6_transport_discard_shared (s : NS6TransportShared)
    (reader : option NS6TransportReader) : NS6TransportShared * option NS6TransportReader :=
  ({| samples := samples s; tags := replicate (Z.to_nat RING) UINT64_MAX;
      read_cursor := 0; high_water := 0; initialized := false |},
   option_map (λ _, {| read_fraction := S754_zero false |}) reader).

(** ** Appending *)

Section operations.
Context `{CoreAudioABI}.

Definition format_is_float (f : AudioStreamBasicDescription) : bool :=
  negb (Z.land (mFormatFlags f) kAudioFormatFlagIsFloat =? 0).

(** The USB frame made from frame [i] of a CoreAudio buffer. *)
Definition converted (source : list Z) (off : Z) (f : AudioStreamBasicDescription) (i : Z)
    : list Z :=
  convert_frame source (off + i * mBytesPerFrame f) (mBytesPerFrame f / CHANNELS)
    (format_is_float f) (mBitsPerChannel f).

Definition enqueue_loop (source : list Z) (off : Z) (f : AudioStreamBasicDescription)
    (sample_time count : Z) (s : NS6TransportShared) : NS6TransportShared :=
  for_loop (Z.to_nat count) 0
    (λ frame s, store_frame s (sample_time +₆₄ frame) (converted source off f frame)) s.

Definition ns6_transport_enqueue_at_shared (shared : option NS6TransportShared)
    (input : option (list Z)) (sample_time count : Z)
    (format : option AudioStreamBasicDescription) : bool * option NS6TransportShared :=
  match shared with
  | None => (false, None)
  | Some s0 =>
      if (match input with None => negb (count =? 0) | Some _ => false end)
         || negb (valid_format format) then (false, shared)
      else if count =? 0 then (true, shared)
      else match input, format with
      | Some source, Some f =>
          let sample_time := high_water s0 in
          if sample_time >? UINT64_MAX - count then (false, shared)
          else
            let s := if negb (initialized s0) then start_at s0 sample_time else s0 in
            let cursor := read_cursor s in
            let '(sample_time, s) :=
              if sample_time <? cursor then (cursor, set_high_water s cursor)
              else (sample_time, s) in
            let end_ := sample_time +₆₄ count in
            if end_ <=? cursor then (true, Some s)
            else
              let skip := if sample_time <? cursor then u32 (cursor - sample_time) else 0 in
              let sample_time := sample_time +₆₄ skip in
              let count := count -₃₂ skip in
              if (count =? 0) || (sample_time -₆₄ cursor >? RING) ||
                 (count >? RING -₆₄ (sample_time -₆₄ cursor))
              then (false, Some s)
              else
                let s := enqueue_loop source (skip * mBytesPerFrame f) f sample_time count s in
                let s := if end_ >? high_water s then set_high_water s end_ else s in
                (true, Some s)
      | _, _ => (false, shared)
      end
  end.

Definition ns6_transport_enqueue_shared (shared : option NS6TransportShared)
    (frames : option (list Z)) (count : Z) (format : option AudioStreamBasicDescription)
    : bool * option NS6TransportShared :=
  match shared with
  | None => (false, None)
  | Some s =>
      let position := if negb (initialized s) then 0 else high_water s in
      ns6_transport_enqueue_at_shared shared frames position count format
  end.

(** ** Reading *)

Fixpoint available_loop (s : NS6TransportShared) (cursor : Z) (fuel : nat) (count : Z) : Z :=
  match fuel with
  | O => count
  | S fuel' =>
      if negb (tag_at s (cursor +₆₄ count) =? cursor +₆₄ count) then count
      else available_loop s cursor fuel' (count + 1)
  end.

(** The loop runs at most [limit] times, so [limit] is enough fuel. *)
Definition ns6_transport_available_shared (shared : option NS6TransportShared) : Z :=
  match shared with
  | None => 0
  | Some s =>
      if negb (initialized s) then 0
      else
        let cursor := read_cursor s in
        let end_ := high_water s in
        if end_ <=? cursor then 0
        else
          let limit := end_ -₆₄ cursor in
          let limit := if limit >? RING then RING else limit in
          available_loop s cursor (Z.to_nat limit) 0
  end.

(** ** Mixing at a given position *)

Definition mix_one (source : list Z) (off : Z) (f : AudioStreamBasicDescription)
    (sample_time frame : Z) (s : NS6TransportShared) : NS6TransportShared :=
  let position := sample_time +₆₄ frame in
  let conv := converted source off f frame in
  if tag_at s position =? position then
    {| samples := memcpy (samples s) (slot_of position * USB_FRAME_BYTES)
                    (mix_frame (frame_at s position) conv);
       tags := tags s; read_cursor := read_cursor s; high_water := high_water s;
       initialized := initialized s |}
  else store_frame s position conv.

Definition mix_loop (source : list Z) (off : Z) (f : AudioStreamBasicDescription)
    (sample_time count : Z) (s : NS6TransportShared) : NS6TransportShared :=
  for_loop (Z.to_nat count) 0 (mix_one source off f sample_time) s.

(** The spin lock makes the body atomic for the mixers; it is not part of the state. *)
Definition ns6_transport_mix_at_shared (shared : option NS6TransportShared)
    (input : option (list Z)) (sample_time count : Z)
    (format : option AudioStreamBasicDescription) : bool * option NS6TransportShared :=
  match shared with
  | None => (false, None)
  | Some s0 =>
      if (match input with None => negb (count =? 0) | Some _ => false end)
         || negb (valid_format format) then (false, shared)
      else if count =? 0 then (true, shared)
      else if sample_time >? UINT64_MAX - count then (false, shared)
      else match input, format with
      | Some source, Some f =>
          let s := if negb (initialized s0) then start_at s0 sample_time else s0 in
          let cursor := read_cursor s in
          let s :=
            if ((if sample_time >? cursor then sample_time - cursor else cursor - sample_time)
                  >=? RING) && (ns6_transport_available_shared (Some s) =? 0)
            then set_high_water (set_read_cursor s sample_time) sample_time else s in
          let aligned_cursor := read_cursor s in
          let late := aligned_cursor - sample_time in
          if (sample_time <? aligned_cursor) && (late >=? count) then (true, Some s)
          else
            let '(off, count, sample_time) :=
              if sample_time <? aligned_cursor
              then (late * mBytesPerFrame f, count -₃₂ u32 late, aligned_cursor)
              else (0, count, sample_time) in
            if (sample_time -₆₄ aligned_cursor >=? RING) ||
               (count >? RING -₆₄ (sample_time -₆₄ aligned_cursor))
            then (false, Some s)
            else
              let s := mix_loop source off f sample_time count s in
              let end_ := sample_time +₆₄ count in
              (true, Some (if end_ >? high_water s then set_high_water s end_ else s))
      | _, _ => (false, shared)
      end
  end.
End operations.

(** ** Reading with resampling *)

Definition clamp_rate (rate : spec_float) : spec_float :=
  if negb (sf_isfinite rate) || d_lt rate (d_lit 1 2) || d_lt (d_lit 3 2) rate
  then d_of_Z 1 else rate.

Definition tags_match (s : NS6TransportShared) (first_position second_position : Z) : bool :=
  (tag_at s first_position =? first_position) && (tag_at s second_position =? second_position).

(** One iteration per output frame; returns the frames produced, the phase, the
    output buffer and why the loop stopped.  The tags are tested twice, as in the
    source. *)
Fixpoint dequeue_loop (s : NS6TransportShared) (cursor end_ : Z) (rate : spec_float)
    (n : nat) (produced : Z) (phase : spec_float) (out : list Z)
    : Z * spec_float * list Z * NS6TransportStopReason :=
  match n with
  | O => (produced, phase, out, NS6_TRANSPORT_STOP_NONE)
  | S n' =>
      let whole := u64 (sf_trunc phase) in
      let fraction := d_sub phase (d_of_Z whole) in
      let first_position := cursor +₆₄ whole in
      let second_position := first_position +₆₄ (if d_lt (S754_zero false) fraction then 1 else 0) in
      if second_position >=? end_ then (produced, phase, out, NS6_TRANSPORT_STOP_EMPTY)
      else if second_position -₆₄ cursor >=? RING
      then (produced, phase, out, NS6_TRANSPORT_STOP_RING_LIMIT)
      else if negb (tags_match s first_position second_position)
      then (produced, phase, out, NS6_TRANSPORT_STOP_MISSING_TAG)
      else if negb (tags_match s first_position second_position)
      then (produced, phase, out, NS6_TRANSPORT_STOP_MISSING_TAG)
      else
        let frame := interpolate_frame (frame_at s first_position) (frame_at s second_position)
                       fraction in
        dequeue_loop s cursor end_ rate n' (produced + 1) (d_add phase rate)
          (memcpy out (produced * USB_FRAME_BYTES) frame)
  end.

Record dequeue_result := {
  dq_produced : Z;
  dq_shared : option NS6TransportShared;
  dq_reader : option NS6TransportReader;
  dq_output : option (list Z);
  dq_stop : NS6TransportStopReason
}.

Definition ns6_transport_dequeue_resampled_shared_diagnostic
    (shared : option NS6TransportShared) (reader : option NS6TransportReader)
    (output : option (list Z)) (output_frames : Z) (rate : spec_float) : dequeue_result :=
  let invalid := {| dq_produced := 0; dq_shared := shared; dq_reader := reader;
                    dq_output := output; dq_stop := NS6_TRANSPORT_STOP_INVALID |} in
  match shared, reader, output with
  | Some s, Some r, Some out =>
      if (output_frames =? 0) || negb (initialized s) then invalid
      else
        let rate := clamp_rate rate in
        let cursor := read_cursor s in
        let end_ := high_water s in
        let '(produced, phase, out, stop) :=
          dequeue_loop s cursor end_ rate (Z.to_nat output_frames) 0 (read_fraction r) out in
        let consumed := u64 (sf_trunc phase) in
        {| dq_produced := produced;
           dq_shared := Some (set_read_cursor s (cursor +₆₄ consumed));
           dq_reader := Some {| read_fraction := d_sub phase (d_of_Z consumed) |};
           dq_output := Some out;
           dq_stop := stop |}
  | _, _, _ => invalid
  end.

(** The variant that passes no stop reason. *)
Definition ns6_transport_dequeue_resampled_shared (shared : option NS6TransportShared)
    (reader : option NS6TransportReader) (output : option (list Z)) (output_frames : Z)
    (rate : spec_float) : dequeue_result :=
  ns6_transport_dequeue_resampled_shared_diagnostic shared reader output output_frames rate.

Definition ns6_transport_dequeue_shared (shared : option NS6TransportShared)
    (reader : option NS6TransportReader) (frames : option (list Z)) (capacity : Z)
    : dequeue_result :=
  ns6_transport_dequeue_resampled_shared shared reader frames capacity (d_of_Z 1).

(** ** Skipping frames *)

Definition ns6_transport_advance_resampled_shared (shared : option NS6TransportShared)
    (reader : option NS6TransportReader) (output_frames : Z) (rate : spec_float)
    : Z * option NS6TransportShared * option NS6TransportReader :=
  match shared, reader with
  | Some s, Some r =>
      if negb (initialized s) then (0, shared, reader)
      else
        let rate := clamp_rate rate in
        let phase := d_add (read_fraction r) (d_mul (d_of_Z output_frames) rate) in
        let consumed := u64 (sf_trunc phase) in
        (u32 consumed,
         Some (set_read_cursor s (read_cursor s +₆₄ consumed)),
         Some {| read_fraction := d_sub phase (d_of_Z consumed) |})
  | _, _ => (0, shared, reader)
  end.

Definition ns6_transport_advance_shared (shared : option NS6TransportShared) (frames : Z)
    : Z * option NS6TransportShared :=
  match shared with
  | Some s =>
      if negb (initialized s) then (0, shared)
      else (frames, Some (set_read_cursor s (read_cursor s +₆₄ frames)))
  | None => (0, None)
  end.
