(* ===== verification/TransportQueue.v ===== *)
(** * The output ring implements a bounded FIFO of frames

    [queue_rel s q]: the ring state [s] represents the queue of unread frames [q].
    Appending a CoreAudio buffer and reading at unity rate are then the two
    operations of a queue bounded by the ring size. *)

From stdpp Require Import base list numbers tactics.
From Stdlib Require Import ZArith Lia ZifyBool.
From S2P Require Import Prelude Float Pcm Transport.

(** ** Well-formed rings *)

Record ring_wf (s : NS6TransportShared) : Prop := {
  wf_samples : length (samples s) = Z.to_nat (RING * USB_FRAME_BYTES);
  wf_bytes : Forall is_u8 (samples s);
  wf_tags : length (tags s) = Z.to_nat RING;
  wf_cursor : is_u64 (read_cursor s);
  wf_high : is_u64 (high_water s)
}.

Record queue_rel (s : NS6TransportShared) (q : list (list Z)) : Prop := {
  qr_wf : ring_wf s;
  qr_fits : Z.of_nat (length q) <= RING;
  qr_uninit : initialized s = false → q = [];
  qr_bounds : initialized s = true →
    high_water s = read_cursor s + Z.of_nat (length q) ∨ (q = [] ∧ high_water s <= read_cursor s);
  qr_tags : ∀ i, 0 <= i < Z.of_nat (length q) →
    tag_at s (read_cursor s + i) = read_cursor s + i;
  qr_frames : ∀ i, 0 <= i < Z.of_nat (length q) →
    q !! Z.to_nat i = Some (frame_at s (read_cursor s + i))
}.

(** ** Slots *)

Lemma slot_range p : 0 <= slot_of p < RING.
Proof. apply Z.mod_pos_bound. done. Qed.

(** Positions less than a ring apart use different slots. *)
Lemma slot_inj p p' : Z.abs (p - p') < RING → slot_of p = slot_of p' → p = p'.
Proof. unfold slot_of, RING. intros. Z.div_mod_to_equations. lia. Qed.

Lemma slice_u8 (l : list Z) off n : Forall is_u8 l → Forall is_u8 (slice l off n).
Proof. intros. by apply Forall_take, Forall_drop. Qed.

Lemma frame_at_is_frame s p : ring_wf s → is_frame (frame_at s p).
Proof.
  intros [Hlen Hu8 _ _ _]. pose proof (slot_range p). unfold frame_at, RING, USB_FRAME_BYTES in *.
  split; [|by apply slice_u8]. rewrite length_slice; lia.
Qed.

Lemma store_frame_wf s p f : ring_wf s → is_frame f → ring_wf (store_frame s p f).
Proof.
  intros [H1 H2 H3 H4 H5] [Hf Hu]. split; cbn; autorewrite with ns6_rw; try done.
  by apply Forall_inserts.
Qed.

Lemma frame_at_store_eq s p f :
  ring_wf s → is_frame f → frame_at (store_frame s p f) p = f.
Proof.
  intros [Hlen _ _ _ _] [Hf _]. pose proof (slot_range p).
  unfold frame_at, RING, USB_FRAME_BYTES in *.
  pose proof (slice_memcpy_eq (samples s) (slot_of p * 12) f ltac:(lia) ltac:(lia)) as E.
  rewrite Hf in E. exact E.
Qed.

Lemma frame_at_store_ne s p p' f :
  is_frame f → slot_of p ≠ slot_of p' → frame_at (store_frame s p f) p' = frame_at s p'.
Proof.
  intros [Hf _] Hne. pose proof (slot_range p). pose proof (slot_range p').
  unfold frame_at, store_frame, RING, USB_FRAME_BYTES in *. cbn [samples].
  apply slice_memcpy_ne; lia.
Qed.

Lemma tag_at_store_eq s p f : ring_wf s → tag_at (store_frame s p f) p = p.
Proof.
  intros [_ _ Ht _ _]. pose proof (slot_range p). unfold tag_at. cbn.
  apply rd_wr_eq. unfold RING in *. lia.
Qed.

Lemma tag_at_store_ne s p p' f :
  slot_of p ≠ slot_of p' → tag_at (store_frame s p f) p' = tag_at s p'.
Proof.
  intros Hne. pose proof (slot_range p). pose proof (slot_range p'). unfold tag_at. cbn.
  apply rd_wr_ne; unfold RING in *; lia.
Qed.

(** ** Appending *)

Section append.
Context `{CoreAudioABI}.

(** The frames a CoreAudio buffer of [count] frames contributes. *)
Definition frames_of (source : list Z) (f : AudioStreamBasicDescription) (count : Z)
  : list (list Z) :=
map (λ i, converted source 0 f (Z.of_nat i)) (seq 0 (Z.to_nat count)).

Lemma converted_is_frame source off f i : is_frame (converted source off f i).
Proof. apply is_frame_pack. Qed.

(** What the copy loop leaves: counters as before, the new positions filled, the
  positions less than a ring before them untouched. *)
Record loop_post (source : list Z) (f : AudioStreamBasicDescription) (base k : Z)
  (s s' : NS6TransportShared) : Prop := {
lp_wf : ring_wf s';
lp_cursor : read_cursor s' = read_cursor s;
lp_high : high_water s' = high_water s;
lp_init : initialized s' = initialized s;
lp_new : ∀ i, 0 <= i < k →
  tag_at s' (base + i) = base + i ∧ frame_at s' (base + i) = converted source 0 f i;
lp_old : ∀ p, base + k - RING <= p < base →
  tag_at s' p = tag_at s p ∧ frame_at s' p = frame_at s p
}.

Lemma enqueue_loop_post source f base count s :
ring_wf s → 0 <= base → 0 <= count <= RING → base + count <= UINT64_MAX →
loop_post source f base count s (enqueue_loop source 0 f base count s).
Proof.
intros Hwf Hb Hc Hmax. unfold enqueue_loop.
pose proof (for_loop_ind (λ k s', 0 <= k <= count ∧ loop_post source f base k s s')
  (Z.to_nat count) 0
  (λ frame s, store_frame s (base +₆₄ frame) (converted source 0 f frame)) s) as Hind.
cbv beta in Hind. replace (0 + Z.of_nat (Z.to_nat count)) with count in Hind by lia.
apply Hind; clear Hind.
- split; [lia|]. split; try done. intros; lia.
- intros k s' Hk [_ [Hwf' Hcur Hhigh Hini Hnew Hold]]. split; [lia|].
  rewrite u64_id by (unfold is_u64, UINT64_MAX in *; lia).
  assert (Hne : ∀ p, base + k + 1 - RING <= p < base + k → slot_of (base + k) ≠ slot_of p).
  { intros p Hp E. apply slot_inj in E; lia. }
  split; cbn; try done.
  + apply store_frame_wf; [done|apply converted_is_frame].
  + intros i Hi. destruct (decide (i = k)) as [->|].
    * split; [by apply tag_at_store_eq|].
      apply frame_at_store_eq; [done|apply converted_is_frame].
    * rewrite tag_at_store_ne, frame_at_store_ne by
        (try apply converted_is_frame; apply Hne; lia).
      apply Hnew. lia.
  + intros p Hp. rewrite tag_at_store_ne, frame_at_store_ne by
        (try apply converted_is_frame; apply Hne; lia).
    apply Hold. lia.
Qed.

Lemma lookup_frames_of source f count i :
0 <= i < count → frames_of source f count !! Z.to_nat i = Some (converted source 0 f i).
Proof.
intros. unfold frames_of. rewrite list_lookup_fmap, lookup_seq_lt by lia.
rewrite Nat.add_0_l. unfold fmap, option_fmap, option_map. by rewrite Z2Nat.id by lia.
Qed.

Lemma length_frames_of source f count : length (frames_of source f count) = Z.to_nat count.
Proof. unfold frames_of. by rewrite length_map, length_seq. Qed.

(** After the copy loop and the update of the high-water mark, the ring holds the
  old queue followed by the new frames. *)
Lemma append_rel source f s s' q count :
queue_rel s q → initialized s = true → high_water s = read_cursor s + Z.of_nat (length q) →
0 < count → Z.of_nat (length q) + count <= RING → high_water s + count <= UINT64_MAX →
loop_post source f (high_water s) count s s' →
queue_rel (set_high_water s' (high_water s + count)) (q ++ frames_of source f count).
Proof.
intros [Hwf Hfit _ _ Ht Hf] Hini Hhw Hc Hroom Hmax [Hwf' Hcur Hhigh Hini' Hnew Hold].
pose proof (wf_cursor _ Hwf) as Hu. unfold is_u64, UINT64_MAX in *.
assert (Hlen : Z.of_nat (length (q ++ frames_of source f count))
               = Z.of_nat (length q) + count).
{ rewrite length_app, length_frames_of. lia. }
split.
- destruct Hwf'. split; cbn; try done. unfold is_u64. lia.
- rewrite Hlen. lia.
- cbn. congruence.
- left. rewrite Hlen. cbn [set_high_water high_water read_cursor]. lia.
- intros i Hi. rewrite Hlen in Hi. cbn. change (tag_at _ _) with (tag_at s' (read_cursor s' + i)).
  rewrite Hcur. destruct (decide (i < Z.of_nat (length q))).
  + destruct (Hold (read_cursor s + i)) as [-> _]; [lia|]. apply Ht. lia.
  + destruct (Hnew (i - Z.of_nat (length q))) as [E _]; [lia|].
    replace (read_cursor s + i) with (high_water s + (i - Z.of_nat (length q))) by lia. done.
- intros i Hi. rewrite Hlen in Hi. cbn.
  change (frame_at _ _) with (frame_at s' (read_cursor s' + i)). rewrite Hcur.
  destruct (decide (i < Z.of_nat (length q))).
  + rewrite lookup_app_l by lia. destruct (Hold (read_cursor s + i)) as [_ ->]; [lia|].
    apply Hf. lia.
  + rewrite lookup_app_r by lia.
    replace (Z.to_nat i - length q)%nat with (Z.to_nat (i - Z.of_nat (length q))) by lia.
    rewrite lookup_frames_of by lia.
    destruct (Hnew (i - Z.of_nat (length q))) as [_ E]; [lia|]. rewrite <- E. do 2 f_equal. lia.
Qed.
End append.

(** Once initialized and with the high-water mark pulled up to the cursor, the
    state still represents the same queue. *)
Lemma queue_rel_start s : ring_wf s → queue_rel (start_at s (high_water s)) [].
Proof.
  intros [? ? ? ? ?]. split; cbn; try done; try (intros; lia).
Qed.

Lemma queue_rel_catch_up s :
  queue_rel s [] → initialized s = true → queue_rel (set_high_water s (read_cursor s)) [].
Proof.
  intros [[? ? ? ? ?] ? ? ? ? ?] ?. split; cbn; try done; try (intros; lia).
Qed.

Section enqueue.
Context `{CoreAudioABI}.

(** The state the appending code works on. *)
Definition prepared (s : NS6TransportShared) : NS6TransportShared :=
let s := if negb (initialized s) then start_at s (high_water s) else s in
if high_water s <? read_cursor s then set_high_water s (read_cursor s) else s.

Lemma prepared_rel s q :
queue_rel s q →
queue_rel (prepared s) q ∧ initialized (prepared s) = true ∧
high_water (prepared s) = read_cursor (prepared s) + Z.of_nat (length q) ∧
high_water (prepared s) <= Z.max (high_water s) (read_cursor s).
Proof.
intros Hq. unfold prepared. destruct (initialized s) eqn:Ei; cbn [negb].
- destruct (Z.ltb_spec (high_water s) (read_cursor s)).
  + assert (q = []) as -> by (destruct (qr_bounds _ _ Hq Ei) as [?|[? ?]]; [lia|done]).
    split; [by apply queue_rel_catch_up|]. cbn. lia.
  + split; [done|]. destruct (qr_bounds _ _ Hq Ei) as [?|[-> ?]]; cbn; lia.
- assert (q = []) as -> by (by apply (qr_uninit _ _ Hq)).
  cbn [start_at high_water read_cursor]. rewrite Z.ltb_irrefl.
  split; [apply queue_rel_start, (qr_wf _ _ Hq)|]. cbn. lia.
Qed.

Lemma enqueue_at_shared_eq s q source st count f :
queue_rel s q → valid_format (Some f) = true → 0 < count → is_u32 count →
Z.max (high_water s) (read_cursor s) + count <= UINT64_MAX →
ns6_transport_enqueue_at_shared (Some s) (Some source) st count (Some f) =
(let p := prepared s in
 if Z.of_nat (length q) + count <=? RING
 then (true, Some (set_high_water (enqueue_loop source 0 f (high_water p) count p)
                     (high_water p + count)))
 else (false, Some p)).
Proof.
intros Hq Hf Hc Hc32 Hmax. pose proof (prepared_rel s q Hq) as (Hp & Hpi & Hph & Hple).
pose proof (qr_wf _ _ Hp) as [_ _ _ Hpc _]. pose proof (qr_fits _ _ Hq) as Hfit.
unfold ns6_transport_enqueue_at_shared. rewrite Hf. cbn [negb orb].
replace (count =? 0) with false by lia.
replace (high_water s >? UINT64_MAX - count) with false by lia.
set (s1 := if negb (initialized s) then start_at s (high_water s) else s).
assert (Hhw1 : high_water s1 = high_water s) by (subst s1; by destruct (initialized s)).
assert (Hprep : (if high_water s <? read_cursor s1
                 then (read_cursor s1, set_high_water s1 (read_cursor s1))
                 else (high_water s, s1)) = (high_water (prepared s), prepared s)).
{ unfold prepared. fold s1. rewrite Hhw1.
  by destruct (high_water s <? read_cursor s1); [|rewrite Hhw1]. }
assert (Hcur : read_cursor s1 = read_cursor (prepared s)).
{ unfold prepared. fold s1. by destruct (high_water s1 <? read_cursor s1). }
rewrite Hprep, Hcur. clear Hprep Hcur Hhw1 s1. cbn zeta. set (p := prepared s) in *.
unfold is_u32, is_u64, UINT64_MAX, RING in *.
rewrite (u64_id (high_water p + count)) by (unfold is_u64; lia).
replace (high_water p + count <=? read_cursor p) with false by lia.
replace (high_water p <? read_cursor p) with false by lia.
rewrite !Z.add_0_r, !Z.sub_0_r. rewrite (u64_id (high_water p)) by (unfold is_u64; lia).
rewrite (u32_id count) by done.
rewrite (u64_id (high_water p - read_cursor p)) by (unfold is_u64; lia).
rewrite u64_id by (unfold is_u64; lia).
replace ((count =? 0) || (high_water p - read_cursor p >? 16384)
         || (count >? 16384 - (high_water p - read_cursor p)))
  with (negb (Z.of_nat (length q) + count <=? 16384)) by lia.
destruct (Z.leb_spec (Z.of_nat (length q) + count) 16384); cbn [negb]; [|done].
rewrite Z.mul_0_l.
assert (Hl : high_water (enqueue_loop source 0 f (high_water p) count p) = high_water p).
{ eapply lp_high, enqueue_loop_post; unfold RING, UINT64_MAX; try lia. apply (qr_wf _ _ Hp). }
rewrite Hl. by replace (high_water p + count >? high_water p) with true by lia.
Qed.
End enqueue.

(** ** Reading at unity rate *)

Lemma memcpy_app (A B src : list Z) off :
  Z.to_nat off = length A → (length src <= length B)%nat →
  memcpy (A ++ B) off src = (A ++ src) ++ drop (length src) B.
Proof.
  intros Hoff Hlen. unfold memcpy. rewrite Hoff.
  replace (length A) with (length A + 0)%nat by lia. rewrite list_inserts_app_r.
  rewrite <- (take_drop (length src) B) at 1.
  rewrite list_inserts_0_r by (rewrite length_take; lia). by rewrite app_assoc.
Qed.

Lemma unity_phase k :
  0 <= k <= RING →
  u64 (sf_trunc (d_of_Z k)) = k ∧ d_sub (d_of_Z k) (d_of_Z k) = S754_zero false ∧
  d_add (d_of_Z k) (d_of_Z 1) = d_of_Z (k + 1).
Proof.
  unfold RING, d_of_Z, d_sub, d_add. intros.
  rewrite sf_trunc_of_Z, SFsub_of_Z, SFadd_of_Z by (cbn; lia).
  rewrite Z.sub_diag, u64_id by (unfold is_u64; lia). done.
Qed.

Lemma concat_take_S (q : list (list Z)) k f :
  q !! k = Some f → concat (take (S k) q) = concat (take k q) ++ f.
Proof. intros. rewrite (take_S_r _ _ f), concat_app by done. cbn. by rewrite app_nil_r. Qed.

Lemma length_concat_frames (q : list (list Z)) k :
  (∀ i f, q !! i = Some f → length f = 12%nat) → (k <= length q)%nat →
  length (concat (take k q)) = (12 * k)%nat.
Proof.
  intros Hq. induction k as [|k IH]; intros Hk; [done|].
  destruct (lookup_lt_is_Some_2 q k ltac:(lia)) as [f Hf].
  rewrite (concat_take_S _ _ f) by done. rewrite length_app, IH, (Hq k f Hf) by lia. lia.
Qed.

Section unity.
Context (s : NS6TransportShared) (q : list (list Z)).
Hypothesis Hq : queue_rel s q.
Hypothesis Hinit : initialized s = true.

Lemma queue_frame i f : q !! i = Some f → f = frame_at s (read_cursor s + Z.of_nat i) ∧ length f = 12%nat.
Proof.
  intros Hi. pose proof (lookup_lt_Some _ _ _ Hi).
  pose proof (qr_frames _ _ Hq (Z.of_nat i) ltac:(lia)) as Hf. rewrite Nat2Z.id in Hf.
  assert (f = frame_at s (read_cursor s + Z.of_nat i)) as -> by congruence.
  split; [done|]. apply (frame_at_is_frame s). apply (qr_wf _ _ Hq).
Qed.

(** At the end of the queue the loop stops. *)
Lemma dequeue_loop_stop n out :
  let k := Z.of_nat (length q) in
  dequeue_loop s (read_cursor s) (high_water s) (d_of_Z 1) (S n) k (d_of_Z k) out
  = (k, d_of_Z k, out, NS6_TRANSPORT_STOP_EMPTY).
Proof.
  intros k. pose proof (qr_fits _ _ Hq) as Hfit. subst k.
  pose proof (qr_wf _ _ Hq) as [_ _ _ Hcur Hhw]. pose proof (qr_bounds _ _ Hq Hinit) as Hb.
  destruct (unity_phase (Z.of_nat (length q)) ltac:(lia)) as (E1 & E2 & _).
  cbn [dequeue_loop]. rewrite E1, E2. cbn [d_lt SFltb SFcompare]. rewrite Z.add_0_r.
  rewrite (u64_id (u64 _)) by apply u64_range. unfold is_u64 in *.
  assert (Hge : (u64 (read_cursor s + Z.of_nat (length q)) >=? high_water s) = true).
  { destruct Hb as [Hb|[-> Hb]]; [|cbn; rewrite Z.add_0_r];
      rewrite u64_id by (unfold is_u64; lia); lia. }
  by rewrite Hge.
Qed.

(** Before the end it copies the next frame of the queue. *)
Lemma dequeue_loop_step n k out f :
  q !! k = Some f →
  dequeue_loop s (read_cursor s) (high_water s) (d_of_Z 1) (S n) (Z.of_nat k)
    (d_of_Z (Z.of_nat k)) out
  = dequeue_loop s (read_cursor s) (high_water s) (d_of_Z 1) n (Z.of_nat (S k))
      (d_of_Z (Z.of_nat (S k))) (memcpy out (Z.of_nat k * USB_FRAME_BYTES) f).
Proof.
  intros Hf. pose proof (lookup_lt_Some _ _ _ Hf) as Hk.
  destruct (queue_frame k f Hf) as [Ef _]. pose proof (qr_fits _ _ Hq) as Hfit.
  pose proof (qr_wf _ _ Hq) as Hwf. pose proof Hwf as [_ _ _ Hcur Hhw].
  destruct (unity_phase (Z.of_nat k) ltac:(lia)) as (E1 & E2 & E3).
  assert (Hhw' : high_water s = read_cursor s + Z.of_nat (length q)).
  { destruct (qr_bounds _ _ Hq Hinit) as [?|[-> ?]]; [done|]. cbn in Hk. lia. }
  unfold is_u64, RING in *.
  cbn [dequeue_loop]. rewrite E1, E2, E3. cbn [d_lt SFltb SFcompare]. rewrite Z.add_0_r.
  rewrite (u64_id (u64 _)) by apply u64_range.
  rewrite (u64_id (read_cursor s + Z.of_nat k)) by (unfold is_u64; lia).
  replace (read_cursor s + Z.of_nat k >=? high_water s) with false by lia.
  rewrite u64_id by (unfold is_u64; lia).
  replace (read_cursor s + Z.of_nat k - read_cursor s >=? RING) with false by (unfold RING; lia).
  assert (Htag : tags_match s (read_cursor s + Z.of_nat k) (read_cursor s + Z.of_nat k) = true).
  { unfold tags_match. rewrite (qr_tags _ _ Hq (Z.of_nat k)) by lia. by rewrite Z.eqb_refl. }
  rewrite Htag. cbn [negb]. rewrite interpolate_frame_zero by (by apply frame_at_is_frame).
  rewrite <- Ef. by replace (Z.of_nat k + 1) with (Z.of_nat (S k)) by lia.
Qed.

Lemma length_queue_prefix k : (k <= length q)%nat → length (concat (take k q)) = (12 * k)%nat.
Proof. intros. apply length_concat_frames; [|done]. intros. by eapply queue_frame. Qed.

(** The whole loop: as many frames as asked for or as the queue holds. *)
Lemma dequeue_loop_unity n k out :
  (k <= length q)%nat →
  (12 * (k + Nat.min n (length q - k)) <= length out)%nat →
  out = concat (take k q) ++ drop (12 * k) out →
  let m := (k + Nat.min n (length q - k))%nat in
  dequeue_loop s (read_cursor s) (high_water s) (d_of_Z 1) n (Z.of_nat k) (d_of_Z (Z.of_nat k)) out
  = (Z.of_nat m, d_of_Z (Z.of_nat m), concat (take m q) ++ drop (12 * m) out,
     if decide (n <= length q - k)%nat then NS6_TRANSPORT_STOP_NONE
     else NS6_TRANSPORT_STOP_EMPTY).
Proof.
  revert k out. induction n as [|n IH]; intros k out Hk Hlen Hout m.
  { subst m. rewrite Nat.min_0_l, Nat.add_0_r, <- Hout. cbn [dequeue_loop].
    destruct (decide _); [done|lia]. }
  destruct (decide (k = length q)) as [->|Hne].
  { replace m with (length q) by lia. rewrite <- Hout, dequeue_loop_stop.
    destruct (decide _); [lia|done]. }
  destruct (lookup_lt_is_Some_2 q k ltac:(lia)) as [f Hf].
  destruct (queue_frame k f Hf) as [_ Elen].
  pose proof (length_queue_prefix k ltac:(lia)) as Hck.
  pose proof (length_queue_prefix (S k) ltac:(lia)) as Hcs.
  rewrite (dequeue_loop_step _ _ _ f Hf).
  assert (memcpy out (Z.of_nat k * USB_FRAME_BYTES) f
          = concat (take (S k) q) ++ drop (12 * S k) out) as ->.
  { rewrite Hout at 1.
    rewrite memcpy_app; [|unfold USB_FRAME_BYTES; lia|rewrite length_drop; lia].
    rewrite (concat_take_S _ _ f), Elen, drop_drop by done. do 2 f_equal. lia. }
  assert (Hdrop : ∀ j, (S k <= j)%nat →
    drop (12 * j) (concat (take (S k) q) ++ drop (12 * S k) out) = drop (12 * j) out).
  { intros j Hj. rewrite drop_app_ge by lia. rewrite drop_drop. f_equal. lia. }
  rewrite IH; [|lia|rewrite length_app, length_drop; lia|by rewrite Hdrop].
  subst m. replace (S k + Nat.min n (length q - S k))%nat
    with (k + Nat.min (S n) (length q - k))%nat by lia.
  rewrite Hdrop by lia. f_equal. destruct (decide _), (decide _); (done || lia).
Qed.

(** Moving the cursor over [k] frames drops them from the queue. *)
Lemma queue_rel_drop k :
  (k <= length q)%nat → queue_rel (set_read_cursor s (read_cursor s + Z.of_nat k)) (drop k q).
Proof.
  intros Hk. destruct Hq as [Hwf Hfit Hun Hb Ht Hf]. pose proof Hwf as [? ? ? Hc Hh].
  specialize (Hb Hinit). unfold is_u64 in *.
  assert (Hov : read_cursor s + Z.of_nat k < 18446744073709551616).
  { destruct Hb as [Hb|[-> Hb]]; cbn in *; lia. }
  split.
  - split; cbn; unfold is_u64; try done. lia.
  - rewrite length_drop. lia.
  - cbn. congruence.
  - cbn [set_read_cursor initialized high_water read_cursor]. rewrite length_drop.
    intros _. destruct Hb as [Hb|[-> Hb]]; [left; lia|right]. cbn in *.
    split; [by destruct k|lia].
  - intros i Hi. rewrite length_drop in Hi.
    change (tag_at _ _) with (tag_at s (read_cursor s + Z.of_nat k + i)).
    cbn [set_read_cursor read_cursor]. rewrite <- Z.add_assoc. apply Ht. lia.
  - intros i Hi. rewrite length_drop in Hi. rewrite lookup_drop.
    change (frame_at _ _) with (frame_at s (read_cursor s + Z.of_nat k + i)).
    rewrite <- Z.add_assoc. replace (k + Z.to_nat i)%nat with (Z.to_nat (Z.of_nat k + i)) by lia.
    apply Hf. lia.
Qed.
End unity.

(** ** The contract *)

(** A bounded queue of frames: what the transport promises its two users. *)
Definition queue_enqueue (q fs : list (list Z)) : bool * list (list Z) :=
  if decide (Z.of_nat (length q + length fs) <= RING) then (true, q ++ fs) else (false, q).

Definition queue_dequeue (q : list (list Z)) (n : nat) : list (list Z) * list (list Z) :=
  (take n q, drop n q).

(** C1: appending a CoreAudio buffer of [count] frames to a ring that represents the
    queue [q] is the enqueue operation of a queue bounded by the ring size: it succeeds
    exactly when the frames fit, the new ring represents the old queue followed by the
    converted frames, and on failure the queue is unchanged. *)
Theorem enqueue_refines_queue `{CoreAudioABI} s q source st count f :
  queue_rel s q → valid_format (Some f) = true → 0 < count → is_u32 count →
  Z.max (high_water s) (read_cursor s) + count <= UINT64_MAX →
  ∃ s', ns6_transport_enqueue_at_shared (Some s) (Some source) st count (Some f)
        = (fst (queue_enqueue q (frames_of source f count)), Some s') ∧
        queue_rel s' (snd (queue_enqueue q (frames_of source f count))).
Proof.
  intros Hq Hf Hc Hc32 Hmax. rewrite (enqueue_at_shared_eq s q) by done.
  pose proof (prepared_rel s q Hq) as (Hp & Hpi & Hph & Hple).
  unfold queue_enqueue. rewrite length_frames_of. cbn zeta.
  destruct (Z.leb_spec (Z.of_nat (length q) + count) RING); destruct (decide _); try lia.
  - eexists. split; [reflexivity|]. apply append_rel; try done; try lia.
    apply enqueue_loop_post; try lia; [apply (qr_wf _ _ Hp)|].
    pose proof (qr_wf _ _ Hp) as [_ _ _ _ [? _]]. done.
  - by eexists.
Qed.

(** C2: reading [n] frames at unity rate from a ring that represents [q] is the dequeue
    operation of the queue: the output buffer starts with the first [min n |q|] frames of
    [q], byte for byte, the rest of it is untouched, the ring represents what remains, the
    fractional phase stays zero, and the stop reason is "empty" exactly when the queue ran
    out. *)
Theorem dequeue_refines_queue s q out n :
  queue_rel s q → initialized s = true → 0 < n →
  (12 * Nat.min (Z.to_nat n) (length q) <= length out)%nat →
  let m := Nat.min (Z.to_nat n) (length q) in
  ∃ s', ns6_transport_dequeue_shared (Some s) (Some {| read_fraction := d_of_Z 0 |}) (Some out) n
    = {| dq_produced := Z.of_nat m;
         dq_shared := Some s';
         dq_reader := Some {| read_fraction := d_of_Z 0 |};
         dq_output := Some (concat (fst (queue_dequeue q m)) ++ drop (12 * m) out);
         dq_stop := if decide (Z.to_nat n <= length q)%nat
                    then NS6_TRANSPORT_STOP_NONE else NS6_TRANSPORT_STOP_EMPTY |} ∧
    queue_rel s' (snd (queue_dequeue q m)).
Proof.
  intros Hq Hi Hn Hlen m. unfold ns6_transport_dequeue_shared, ns6_transport_dequeue_resampled_shared,
    ns6_transport_dequeue_resampled_shared_diagnostic.
  rewrite Hi. replace (n =? 0) with false by lia. cbn [negb orb read_fraction].
  replace (clamp_rate (d_of_Z 1)) with (d_of_Z 1) by (by vm_compute).
  pose proof (dequeue_loop_unity s q Hq Hi (Z.to_nat n) 0 out ltac:(lia)) as Hloop.
  rewrite Nat.sub_0_r, Nat.add_0_l in Hloop. change (Z.of_nat 0) with 0 in Hloop.
  specialize (Hloop Hlen eq_refl). cbn zeta in Hloop. fold m in Hloop. rewrite Hloop.
  pose proof (qr_fits _ _ Hq) as Hfit.
  destruct (unity_phase (Z.of_nat m) ltac:(unfold RING in *; lia)) as (-> & -> & _).
  eexists. split; [reflexivity|]. rewrite u64_id.
  - apply queue_rel_drop; [done|done|lia].
  - destruct (qr_wf _ _ (queue_rel_drop s q Hq Hi m ltac:(lia))). done.
Qed.

(** ** A concrete ring *)

Definition zero_ring : NS6TransportShared :=
  ns6_transport_init_shared
    {| samples := replicate (Z.to_nat (RING * USB_FRAME_BYTES)) 0; tags := [];
       read_cursor := 0; high_water := 0; initialized := false |}.

Definition float_abi : CoreAudioABI := {| kAudioFormatFlagIsFloat := 1 |}.

(** Four interleaved 32-bit floats per frame, the driver's stream format. *)
Definition float4 : AudioStreamBasicDescription :=
  {| mFormatFlags := 9; mBytesPerFrame := 16; mChannelsPerFrame := 4; mBitsPerChannel := 32 |}.

Definition pcm24x4 : AudioStreamBasicDescription :=
  {| mFormatFlags := 12; mBytesPerFrame := 12; mChannelsPerFrame := 4; mBitsPerChannel := 24 |}.

Lemma zero_ring_wf : ring_wf zero_ring.
Proof.
  split; cbn [zero_ring ns6_transport_init_shared samples tags read_cursor high_water].
  - apply length_replicate.
  - apply Forall_replicate. split; lia.
  - apply length_replicate.
  - split; lia.
  - split; lia.
Qed.

Lemma zero_ring_rel : queue_rel zero_ring [].
Proof.
  split; [apply zero_ring_wf|cbn; unfold RING; lia|intros; exact eq_refl|intros; discriminate| |];
    intros i [? Hi]; cbn in Hi; lia.
Qed.

Lemma enqueue_refines_queue_witness :
  ∃ s', @ns6_transport_enqueue_at_shared float_abi (Some zero_ring) (Some (replicate 32 0)) 0 2
          (Some float4)
        = (true, Some s') ∧
        queue_rel s' (@frames_of float_abi (replicate 32 0) float4 2).
Proof.
  apply (@enqueue_refines_queue float_abi zero_ring [] (replicate 32 0) 0 2 float4);
    [apply zero_ring_rel|reflexivity|lia|split; lia|vm_compute; discriminate].
Defined.

(** A ring holding one frame. *)
Definition one_frame : list Z := [1; 2; 3; 4; 5; 6; 7; 8; 9; 10; 11; 12].

Definition one_frame_ring : NS6TransportShared :=
  set_high_water (@enqueue_loop float_abi one_frame 0 pcm24x4 0 1 (start_at zero_ring 0)) 1.

Lemma one_frame_ring_rel : queue_rel one_frame_ring [one_frame].
Proof.
  change [one_frame] with ([] ++ @frames_of float_abi one_frame pcm24x4 1).
  apply (@append_rel float_abi one_frame pcm24x4 (start_at zero_ring 0)).
  - apply (queue_rel_start zero_ring), zero_ring_wf.
  - exact eq_refl.
  - exact eq_refl.
  - lia.
  - cbn. unfold RING. lia.
  - cbn [start_at high_water]. unfold UINT64_MAX. lia.
  - apply (@enqueue_loop_post float_abi); cbn [start_at high_water]; unfold RING, UINT64_MAX;
      try lia.
    apply (qr_wf _ []), (queue_rel_start zero_ring), zero_ring_wf.
Qed.

Lemma dequeue_refines_queue_witness :
  ∃ s', ns6_transport_dequeue_shared (Some one_frame_ring) (Some {| read_fraction := d_of_Z 0 |})
          (Some (replicate 24 0)) 2
    = {| dq_produced := 1; dq_shared := Some s';
         dq_reader := Some {| read_fraction := d_of_Z 0 |};
         dq_output := Some (one_frame ++ replicate 12 0);
         dq_stop := NS6_TRANSPORT_STOP_EMPTY |} ∧ queue_rel s' [].
Proof.
  apply (dequeue_refines_queue one_frame_ring [one_frame] (replicate 24 0) 2);
    [apply one_frame_ring_rel|reflexivity|lia|cbn; lia].
Defined.
