(* ===== verification/TransportMix.v ===== *)
(** * Occupancy and mixing

    [ns6_transport_available_shared] counts the contiguous tagged frames at the
    cursor; [ns6_transport_mix_at_shared] adds the buffers of several clients
    with saturation, whatever the order in which they arrive. *)

From stdpp Require Import base list numbers tactics.
From Stdlib Require Import ZArith Lia ZifyBool.
From S2P Require Import Prelude Float Pcm Transport TransportQueue.

(** ** Occupancy *)

Lemma available_loop_spec s c fuel k :
  let r := available_loop s c fuel k in
  k <= r <= k + Z.of_nat fuel ∧
  (∀ i, k <= i < r → tag_at s (c +₆₄ i) = c +₆₄ i) ∧
  (r < k + Z.of_nat fuel → tag_at s (c +₆₄ r) ≠ c +₆₄ r).
Proof.
  revert k. induction fuel as [|fuel IH]; intros k; cbn [available_loop].
  { repeat split; intros; lia. }
  destruct (Z.eqb_spec (tag_at s (c +₆₄ k)) (c +₆₄ k)) as [E|E]; cbn [negb].
  - destruct (IH (k + 1)) as (H1 & H2 & H3). split; [lia|]. split; [|intros; apply H3; lia].
    intros i Hi. destruct (decide (i = k)) as [->|]; [done|]. apply H2. lia.
  - split; [lia|]. split; [intros; lia|done].
Qed.

(** The most frames a reader can see, and whether frame [i] after the cursor is there. *)
Definition window (s : NS6TransportShared) : Z := Z.min RING (high_water s - read_cursor s).
Definition tagged (s : NS6TransportShared) (i : Z) : Prop :=
  tag_at s (read_cursor s + i) = read_cursor s + i.

(** On every state, the occupancy is at most the ring size, every position it counts
    holds a frame tagged with that position, and it is maximal: the count stops only at the
    high-water mark, at the ring size or at the first missing tag. *)
Theorem available_is_contiguous s :
  ring_wf s → initialized s = true → read_cursor s < high_water s →
  let r := ns6_transport_available_shared (Some s) in
  0 <= r <= window s ∧ (∀ i, 0 <= i < r → tagged s i) ∧ (r < window s → ¬ tagged s r).
Proof.
  intros [_ _ _ Hc Hh] Hi Hlt. unfold window, tagged, ns6_transport_available_shared. rewrite Hi.
  unfold is_u64 in *. cbn [negb]. replace (high_water s <=? read_cursor s) with false by lia.
  rewrite u64_id by (unfold is_u64; lia).
  set (limit := if high_water s - read_cursor s >? RING then RING else high_water s - read_cursor s).
  assert (Hlim : limit = Z.min RING (high_water s - read_cursor s)) by (subst limit; case_ifs; lia).
  destruct (available_loop_spec s (read_cursor s) (Z.to_nat limit) 0) as (H1 & H2 & H3).
  unfold RING in *. set (r := available_loop s (read_cursor s) (Z.to_nat limit) 0) in *.
  split; [lia|]. split.
  - intros i Hir. specialize (H2 i Hir). rewrite u64_id in H2 by (unfold is_u64; lia). done.
  - intros Hr. rewrite u64_id in H3 by (unfold is_u64; lia). apply H3. lia.
Qed.

Lemma available_of_queue s q :
  queue_rel s q → initialized s = true →
  ns6_transport_available_shared (Some s) = Z.of_nat (length q).
Proof.
  intros Hq Hi. pose proof (qr_wf _ _ Hq) as [_ _ _ Hc Hh]. pose proof (qr_fits _ _ Hq) as Hfit.
  unfold ns6_transport_available_shared. rewrite Hi. unfold is_u64 in *. cbn [negb].
  destruct (Z.leb_spec (high_water s) (read_cursor s)).
  { destruct (qr_bounds _ _ Hq Hi) as [?|[-> ?]]; cbn in *; lia. }
  destruct (qr_bounds _ _ Hq Hi) as [Hb|[-> ?]]; [|lia].
  rewrite u64_id by (unfold is_u64; lia).
  replace (high_water s - read_cursor s >? RING) with false by lia.
  replace (high_water s - read_cursor s) with (Z.of_nat (length q)) by lia. rewrite Nat2Z.id.
  destruct (available_loop_spec s (read_cursor s) (length q) 0) as (H1 & _ & H3).
  destruct (decide (available_loop s (read_cursor s) (length q) 0 = Z.of_nat (length q))); [done|].
  exfalso. apply H3; [lia|]. rewrite u64_id by (unfold is_u64; lia). apply (qr_tags _ _ Hq). lia.
Qed.

Lemma available_is_contiguous_witness :
  let r := ns6_transport_available_shared (Some one_frame_ring) in
  0 <= r <= window one_frame_ring ∧ (∀ i, 0 <= i < r → tagged one_frame_ring i) ∧
  (r < window one_frame_ring → ¬ tagged one_frame_ring r).
Proof.
  apply available_is_contiguous;
    [exact (qr_wf _ _ one_frame_ring_rel)|reflexivity|vm_compute; reflexivity].
Defined.

(** ** Mixing *)

Lemma mix_frame_comm a b : mix_frame a b = mix_frame b a.
Proof. unfold mix_frame. by rewrite !(Z.add_comm (unpack24 a _)). Qed.

Lemma mix_frame_is_frame a b : is_frame (mix_frame a b).
Proof. apply is_frame_pack. Qed.

Section mixing.
Context `{CoreAudioABI}.

(** What [mix_one] leaves in the slot of [position]. *)
Definition mixed (s : NS6TransportShared) (position : Z) (conv : list Z) : list Z :=
  if tag_at s position =? position then mix_frame (frame_at s position) conv else conv.

(** [mix_one] stores the mixed frame; when the tag was already right, storing it again
    changes nothing. *)
Lemma mix_one_store source off f st k s :
  ring_wf s → 0 <= st + k < 18446744073709551616 →
  mix_one source off f st k s
  = store_frame s (st + k) (mixed s (st + k) (converted source off f k)).
Proof.
  intros Hwf Hk. unfold mix_one, mixed. rewrite (u64_id (st + k)) by done.
  destruct (Z.eqb_spec (tag_at s (st + k)) (st + k)) as [E|E]; [|done].
  unfold store_frame. f_equal. symmetry.
  transitivity (wr (tags s) (slot_of (st + k)) (rd (tags s) (slot_of (st + k)))).
  - f_equal. symmetry. exact E.
  - apply wr_id. pose proof (slot_range (st + k)). rewrite (wf_tags _ Hwf).
    unfold RING in *. lia.
Qed.

(** After [k] iterations: new positions hold the mixed frame, the others of the ring are as
    before. *)
Record mix_post (source : list Z) (off : Z) (f : AudioStreamBasicDescription) (base k : Z)
    (s s' : NS6TransportShared) : Prop := {
  mp_wf : ring_wf s';
  mp_cursor : read_cursor s' = read_cursor s;
  mp_high : high_water s' = high_water s;
  mp_init : initialized s' = initialized s;
  mp_new : ∀ i, 0 <= i < k →
    tag_at s' (base + i) = base + i ∧
    frame_at s' (base + i) = mixed s (base + i) (converted source off f i);
  mp_old : ∀ p, (∀ i, 0 <= i < k → slot_of (base + i) ≠ slot_of p) →
    tag_at s' p = tag_at s p ∧ frame_at s' p = frame_at s p
}.

Lemma mixed_is_frame s p conv : is_frame conv → is_frame (mixed s p conv).
Proof. unfold mixed. intros. destruct (_ =? _); [apply mix_frame_is_frame|done]. Qed.

Lemma mix_loop_post source off f base count s :
  ring_wf s → 0 <= base → 0 <= count <= RING → base + count <= UINT64_MAX →
  mix_post source off f base count s (mix_loop source off f base count s).
Proof.
  intros Hwf Hb Hc Hmax. unfold mix_loop.
  pose proof (for_loop_ind (λ k s', 0 <= k <= count ∧ mix_post source off f base k s s')
    (Z.to_nat count) 0 (mix_one source off f base) s) as Hind.
  cbv beta in Hind. replace (0 + Z.of_nat (Z.to_nat count)) with count in Hind by lia.
  apply Hind; clear Hind.
  { split; [lia|]. split; try done. intros; lia. }
  intros k s' Hk [_ [Hwf' Hcur Hhigh Hini Hnew Hold]]. split; [lia|].
  unfold UINT64_MAX in *. rewrite mix_one_store by (done || lia).
  assert (Hinj : ∀ i, 0 <= i < k → slot_of (base + i) ≠ slot_of (base + k)).
  { intros i Hi E. apply slot_inj in E; lia. }
  assert (Hmk : mixed s' (base + k) (converted source off f k)
                = mixed s (base + k) (converted source off f k)).
  { unfold mixed. destruct (Hold (base + k)) as [-> ->]; [done|]. done. }
  rewrite Hmk. pose proof (mixed_is_frame s (base + k) _ (converted_is_frame source off f k)) as Hfr.
  split; cbn; try done.
  - by apply store_frame_wf.
  - intros i Hi. destruct (decide (i = k)) as [->|].
    + split; [by apply tag_at_store_eq|by apply frame_at_store_eq].
    + rewrite tag_at_store_ne, frame_at_store_ne by
        (try done; apply not_eq_sym, Hinj; lia). apply Hnew. lia.
  - intros p Hp. rewrite tag_at_store_ne, frame_at_store_ne by (try done; apply Hp; lia).
    apply Hold. intros. apply Hp. lia.
Qed.

(** A buffer that is on time and fits in the ring. *)
Lemma mix_at_on_time s source st count f :
  initialized s = true → ring_wf s → valid_format (Some f) = true →
  read_cursor s = st → 0 < count <= RING → st + count <= UINT64_MAX →
  ns6_transport_mix_at_shared (Some s) (Some source) st count (Some f) =
  (let s' := mix_loop source 0 f st count s in
   (true, Some (if st + count >? high_water s' then set_high_water s' (st + count) else s'))).
Proof.
  intros Hi Hwf Hf Hst Hc Hmax. unfold ns6_transport_mix_at_shared. rewrite Hf, Hi.
  cbn [negb orb]. replace (count =? 0) with false by lia.
  replace (st >? UINT64_MAX - count) with false by lia. rewrite Hst.
  replace (st >? st) with false by lia. rewrite Z.sub_diag. cbn [andb].
  replace (0 >=? RING) with false by done. cbn [andb]. rewrite Hst, Z.ltb_irrefl. cbn [andb].
  rewrite Z.sub_diag. replace (u64 0) with 0 by done. cbn [orb].
  rewrite Z.sub_0_r. replace (u64 RING) with RING by done.
  replace (0 >=? RING) with false by done. cbn [orb].
  replace (count >? RING) with false by lia.
  assert (0 <= st) by (destruct Hwf as [_ _ _ [? _] _]; lia).
  rewrite u64_id by (unfold is_u64, UINT64_MAX in *; lia). done.
Qed.

(** A client's buffer. *)
Record client_buffer := {
  cb_source : list Z;
  cb_format : AudioStreamBasicDescription;
  cb_count : Z
}.

Definition cb_valid (b : client_buffer) : Prop :=
  valid_format (Some (cb_format b)) = true ∧ 0 < cb_count b <= RING.

Definition mix_client (st : Z) (b : client_buffer) (shared : option NS6TransportShared)
    : option NS6TransportShared :=
  snd (ns6_transport_mix_at_shared shared (Some (cb_source b)) st (cb_count b)
         (Some (cb_format b))).

Definition cb_frame (b : client_buffer) (i : Z) : list Z :=
  converted (cb_source b) 0 (cb_format b) i.

(** The frame expected at offset [i] when [a] and [b] play together. *)
Definition sum_frame (a b : client_buffer) (i : Z) : list Z :=
  if i <? cb_count a then
    if i <? cb_count b then mix_frame (cb_frame a i) (cb_frame b i) else cb_frame a i
  else cb_frame b i.

(** A ring as [ns6_transport_reset_shared] leaves it. *)
Definition ring_cleared (s : NS6TransportShared) : Prop :=
  ring_wf s ∧ initialized s = false ∧ ∀ p, tag_at s p = UINT64_MAX.

Lemma mix_client_started s st b :
  ring_wf s → initialized s = true → read_cursor s = st → cb_valid b →
  st + cb_count b <= UINT64_MAX → st <= high_water s →
  ∃ s', mix_client st b (Some s) = Some s' ∧
    high_water s' = Z.max (high_water s) (st + cb_count b) ∧ initialized s' = true ∧
    ring_wf s' ∧ read_cursor s' = st ∧
    (∀ i, 0 <= i < cb_count b →
       tag_at s' (st + i) = st + i ∧ frame_at s' (st + i) = mixed s (st + i) (cb_frame b i)) ∧
    (∀ i, cb_count b <= i < RING →
       tag_at s' (st + i) = tag_at s (st + i) ∧ frame_at s' (st + i) = frame_at s (st + i)).
Proof.
  intros Hwf Hi Hst [Hf Hc] Hmax Hhw. unfold mix_client. rewrite mix_at_on_time by done.
  assert (0 <= st) by (destruct Hwf as [_ _ _ [? _] _]; lia).
  destruct (mix_loop_post (cb_source b) 0 (cb_format b) st (cb_count b) s)
    as [Hwf' Hcur Hhigh Hini Hnew Hold]; [done|lia|lia|lia|]. cbn zeta.
  set (s' := mix_loop _ _ _ _ _ _) in *. clearbody s'. cbn [snd]. rewrite Hhigh.
  assert (Hold' : ∀ i, cb_count b <= i < RING →
    tag_at s' (st + i) = tag_at s (st + i) ∧ frame_at s' (st + i) = frame_at s (st + i)).
  { intros i Hi'. apply Hold. intros j Hj E. apply slot_inj in E; lia. }
  eexists. split; [reflexivity|].
  destruct (Z.gtb_spec (st + cb_count b) (high_water s)); cbn.
  - split; [lia|]. split; [congruence|]. split; [|split; [congruence|done]].
    destruct Hwf'. split; cbn; try done. unfold is_u64, UINT64_MAX in *. lia.
  - split; [lia|]. split; [congruence|]. split; [done|]. split; [congruence|done].
Qed.

Lemma mix_client_cleared s st b :
  ring_cleared s → 0 <= st → cb_valid b → st + cb_count b <= UINT64_MAX →
  mix_client st b (Some s) = mix_client st b (Some (start_at s st)).
Proof.
  intros (Hwf & Hi & Ht) Hst [Hf Hc] Hmax. unfold mix_client, ns6_transport_mix_at_shared.
  rewrite Hf, Hi. cbn [negb orb start_at initialized].
  replace (cb_count b =? 0) with false by lia.
  by replace (st >? UINT64_MAX - cb_count b) with false by lia.
Qed.

Lemma two_clients_frames s st a b :
  ring_cleared s → 0 <= st → cb_valid a → cb_valid b →
  st + cb_count a <= UINT64_MAX → st + cb_count b <= UINT64_MAX →
  ∃ s', mix_client st b (mix_client st a (Some s)) = Some s' ∧
    high_water s' = st + Z.max (cb_count a) (cb_count b) ∧
    ∀ i, 0 <= i < Z.max (cb_count a) (cb_count b) →
      tag_at s' (st + i) = st + i ∧ frame_at s' (st + i) = sum_frame a b i.
Proof.
  intros Hs Hst Ha Hb Hma Hmb. rewrite mix_client_cleared by done.
  destruct Hs as (Hwf & _ & Ht). pose proof Ha as [_ Hca]. pose proof Hb as [_ Hcb].
  assert (Hwf0 : ring_wf (start_at s st)).
  { destruct Hwf. split; cbn; try done; unfold is_u64, UINT64_MAX in *; lia. }
  destruct (mix_client_started (start_at s st) st a) as (s1 & -> & Hh1 & Hi1 & Hw1 & Hc1 & Hn1 & Ho1);
    try done; try (cbn; lia). cbn [start_at high_water] in Hh1.
  destruct (mix_client_started s1 st b) as (s2 & -> & Hh2 & _ & _ & _ & Hn2 & Ho2); try done; try lia.
  exists s2. split; [done|]. split; [lia|]. intros i Hi. unfold UINT64_MAX in *.
  assert (Hfresh : ∀ j conv, 0 <= j → st + j < 18446744073709551615 →
                     mixed (start_at s st) (st + j) conv = conv).
  { intros j conv Hj Hlt. unfold mixed. change (tag_at (start_at s st) (st + j)) with (tag_at s (st + j)).
    rewrite Ht. unfold UINT64_MAX. by replace (18446744073709551615 =? st + j) with false by lia. }
  unfold sum_frame. destruct (Z.ltb_spec i (cb_count b)).
  - destruct (Hn2 i ltac:(lia)) as [-> ->]. split; [done|]. unfold mixed.
    destruct (Z.ltb_spec i (cb_count a)).
    + destruct (Hn1 i ltac:(lia)) as [-> ->]. rewrite Z.eqb_refl, Hfresh by lia. done.
    + destruct (Ho1 i ltac:(lia)) as [-> _].
      change (tag_at (start_at s st) (st + i)) with (tag_at s (st + i)). rewrite Ht.
      unfold UINT64_MAX. by replace (18446744073709551615 =? st + i) with false by lia.
  - destruct (Ho2 i ltac:(lia)) as [-> ->]. replace (i <? cb_count a) with true by lia.
    destruct (Hn1 i ltac:(lia)) as [-> ->]. rewrite Hfresh by lia. done.
Qed.

Lemma sum_frame_comm a b i :
  0 <= i < Z.max (cb_count a) (cb_count b) → sum_frame a b i = sum_frame b a i.
Proof. intros. unfold sum_frame. case_ifs; try lia. apply mix_frame_comm. Qed.
End mixing.

(** C16: when two clients write buffers for the same output time into a cleared ring, every
    position holds the channel-wise saturated sum of the two (or the frame of the only client
    that covers it), the ring extends to the longer buffer, and the result does not depend on
    which client came first. *)
Theorem two_clients_mix_in_any_order `{CoreAudioABI} s st a b :
  ring_cleared s → 0 <= st → cb_valid a → cb_valid b →
  st + cb_count a <= UINT64_MAX → st + cb_count b <= UINT64_MAX →
  ∃ sab sba,
    mix_client st b (mix_client st a (Some s)) = Some sab ∧
    mix_client st a (mix_client st b (Some s)) = Some sba ∧
    high_water sab = st + Z.max (cb_count a) (cb_count b) ∧ high_water sba = high_water sab ∧
    ∀ i, 0 <= i < Z.max (cb_count a) (cb_count b) →
      tag_at sab (st + i) = st + i ∧ tag_at sba (st + i) = st + i ∧
      frame_at sab (st + i) = sum_frame a b i ∧ frame_at sba (st + i) = sum_frame a b i.
Proof.
  intros Hs Hst Ha Hb Hma Hmb.
  destruct (two_clients_frames s st a b) as (sab & E1 & Hh1 & Hf1); try done.
  destruct (two_clients_frames s st b a) as (sba & E2 & Hh2 & Hf2); try done.
  exists sab, sba. split; [done|]. split; [done|]. split; [done|]. split; [lia|].
  intros i Hi. destruct (Hf1 i Hi) as [T1 F1]. destruct (Hf2 i ltac:(lia)) as [T2 F2].
  rewrite (sum_frame_comm b a) in F2 by lia. done.
Qed.

Lemma zero_ring_cleared : ring_cleared zero_ring.
Proof.
  split; [apply zero_ring_wf|]. split; [exact eq_refl|]. intros p.
  unfold tag_at, rd. cbn [zero_ring ns6_transport_init_shared tags].
  apply lookup_total_replicate_2. pose proof (slot_range p). unfold RING in *. lia.
Qed.

Definition loud : client_buffer :=
  {| cb_source := concat (replicate 4 [0; 0; 127]); cb_format := pcm24x4; cb_count := 1 |}.

(** A longer and softer buffer; together the first frame saturates. *)
Definition longer : client_buffer :=
  {| cb_source := concat (replicate 8 [7; 1; 2]); cb_format := pcm24x4; cb_count := 2 |}.

Lemma two_clients_mix_in_any_order_witness :
  ∃ sab sba,
    @mix_client float_abi 5 longer (@mix_client float_abi 5 loud (Some zero_ring)) = Some sab ∧
    @mix_client float_abi 5 loud (@mix_client float_abi 5 longer (Some zero_ring)) = Some sba ∧
    high_water sab = 7 ∧ high_water sba = high_water sab ∧
    frame_at sab 5 = concat (replicate 4 [255; 255; 127]) ∧ frame_at sba 5 = frame_at sab 5 ∧
    frame_at sab 6 = concat (replicate 4 [7; 1; 2]) ∧ frame_at sba 6 = frame_at sab 6.
Proof.
  destruct (@two_clients_mix_in_any_order float_abi zero_ring 5 loud longer) as (sab & sba & E1 & E2 & H1 & H2 & Hf);
    [apply zero_ring_cleared|lia|split; [reflexivity|cbn; unfold RING; lia]
    |split; [reflexivity|cbn; unfold RING; lia]|vm_compute; discriminate|vm_compute; discriminate|].
  exists sab, sba. destruct (Hf 0 ltac:(vm_compute; split; congruence)) as (_ & _ & A1 & A2).
  destruct (Hf 1 ltac:(vm_compute; split; congruence)) as (_ & _ & B1 & B2).
  change (5 + 0) with 5 in *. change (5 + 1) with 6 in *. rewrite A2, B2, A1, B1.
  repeat split; try assumption; vm_compute; reflexivity.
Defined.
