(* ===== verification/ClockControl.v ===== *)
(** * The output clock (NS6ClockControl.c, NS6ClockControl.h)

    The controller reports, every millisecond, how many frames it consumed; the
    clock turns these reports into the number of frames of each USB microframe.
    The preprocessor switches of the header are a configuration record. *)

From stdpp Require Import base list numbers tactics.
From Stdlib Require Import ZArith Lia ZifyBool.
From S2P Require Import Prelude Float.

(** [NS6_ADAPTIVE_CLOCK_ENABLED], [NS6_FEEDBACK_PATTERN_SCHEDULER_ENABLED],
    [NS6_CLOCK_QUEUE_TARGET_FRAMES], [NS6_ADAPTIVE_CLOCK_MIN_OUTPUT_RATE_MILLIHZ]. *)
Record ClockConfig := {
  cfg_adaptive : bool;
  cfg_pattern : bool;
  cfg_queue_target : Z;
  cfg_min_rate : Z
}.

Definition default_config : ClockConfig :=
  {| cfg_adaptive := false; cfg_pattern := false; cfg_queue_target := 4096;
     cfg_min_rate := 44000000 |}.

Definition NS6_NOMINAL_RATE_MILLIHZ : Z := 44100000.
Definition NS6_FEEDBACK_MIN_FRAMES_PER_MS : Z := 42.
Definition NS6_FEEDBACK_MAX_FRAMES_PER_MS : Z := 46.
Definition NS6_MAX_OUTPUT_RATE_MILLIHZ : Z := 44100300.
Definition NS6_FEEDBACK_WINDOW : Z := 40000.
Definition PATTERN_CAPACITY : Z := 256.

Record NS6ClockControl := {
  feedback_sum : Z;
  rate_millihz : Z;
  requested_total : Z;
  sent_total : Z;
  fixed_fraction : Z;
  adaptive_fraction_millionths : Z;
  feedback_count : Z;
  feedback_index : Z;
  locked : bool;
  target_frames_per_ms : Z;
  feedback_window : list Z;
  pattern_queue : list Z;
  pattern_queue_read : Z;
  pattern_queue_count : Z
}.

Definition ns6_clock_control_feedback_value_is_valid (frames_per_ms : Z) : bool :=
  (frames_per_ms >=? NS6_FEEDBACK_MIN_FRAMES_PER_MS) &&
  (frames_per_ms <=? NS6_FEEDBACK_MAX_FRAMES_PER_MS).

Definition zero_window : list Z := replicate (Z.to_nat NS6_FEEDBACK_WINDOW) 0.

Definition ns6_clock_control_init : NS6ClockControl :=
  {| feedback_sum := 0; rate_millihz := NS6_NOMINAL_RATE_MILLIHZ; requested_total := 0;
     sent_total := 0; fixed_fraction := 0; adaptive_fraction_millionths := 0;
     feedback_count := 0; feedback_index := 0; locked := false; target_frames_per_ms := 44;
     feedback_window := zero_window;
     pattern_queue := replicate (Z.to_nat PATTERN_CAPACITY) 0;
     pattern_queue_read := 0; pattern_queue_count := 0 |}.

Definition ns6_clock_control_reset_feedback (c : NS6ClockControl) : NS6ClockControl :=
  {| feedback_sum := 0; rate_millihz := NS6_NOMINAL_RATE_MILLIHZ; requested_total := 0;
     sent_total := 0; fixed_fraction := 0; adaptive_fraction_millionths := 0;
     feedback_count := 0; feedback_index := 0; locked := false; target_frames_per_ms := 44;
     feedback_window := zero_window;
     pattern_queue := pattern_queue c;
     pattern_queue_read := 0; pattern_queue_count := 0 |}.

(** The fields the pattern scheduler keeps: queue, read index, count. *)
Definition pattern_push (queue : list Z) (read count v : Z) : list Z * Z * Z :=
  let '(read, count) :=
    if count =? PATTERN_CAPACITY then ((read + 1) mod PATTERN_CAPACITY, count - 1)
    else (read, count) in
  let write_index := (read + count) mod PATTERN_CAPACITY in
  (wr queue write_index v, read, count + 1).

Definition ns6_clock_control_observe (cfg : ClockConfig) (c : NS6ClockControl)
    (frames_per_ms : Z) : NS6ClockControl :=
  if negb (ns6_clock_control_feedback_value_is_valid frames_per_ms) then c
  else
    let '(sum, count) :=
      if feedback_count c =? NS6_FEEDBACK_WINDOW
      then (feedback_sum c -₆₄ rd (feedback_window c) (feedback_index c), feedback_count c)
      else (feedback_sum c, feedback_count c +₃₂ 1) in
    let window := wr (feedback_window c) (feedback_index c) frames_per_ms in
    let sum := sum +₆₄ frames_per_ms in
    let index := u32 (feedback_index c + 1) mod NS6_FEEDBACK_WINDOW in
    let '(queue, qread, qcount) :=
      if cfg_adaptive cfg && cfg_pattern cfg
      then pattern_push (pattern_queue c) (pattern_queue_read c) (pattern_queue_count c)
             frames_per_ms
      else (pattern_queue c, pattern_queue_read c, pattern_queue_count c) in
    let rate := if count =? NS6_FEEDBACK_WINDOW
                then (sum *₆₄ 1000000) / NS6_FEEDBACK_WINDOW else rate_millihz c in
    {| feedback_sum := sum; rate_millihz := rate;
       requested_total := requested_total c +₆₄ frames_per_ms;
       sent_total := sent_total c; fixed_fraction := fixed_fraction c;
       adaptive_fraction_millionths := adaptive_fraction_millionths c;
       feedback_count := count; feedback_index := index; locked := true;
       target_frames_per_ms := frames_per_ms; feedback_window := window;
       pattern_queue := queue; pattern_queue_read := qread; pattern_queue_count := qcount |}.

Definition ns6_clock_control_output_rate_millihz (cfg : ClockConfig)
    (control : option NS6ClockControl) : Z :=
  if cfg_adaptive cfg then
    let rate := match control with
                | Some c => if locked c && negb (rate_millihz c =? 0)
                            then rate_millihz c else NS6_NOMINAL_RATE_MILLIHZ
                | None => NS6_NOMINAL_RATE_MILLIHZ
                end in
    let rate := if rate <? cfg_min_rate cfg then cfg_min_rate cfg else rate in
    if rate >? NS6_MAX_OUTPUT_RATE_MILLIHZ then NS6_MAX_OUTPUT_RATE_MILLIHZ else rate
  else NS6_NOMINAL_RATE_MILLIHZ.

(** The nominal cadence: 44 frames, and one more whenever ten tenths accumulate. *)
Definition fixed_cadence (fraction : Z) : Z * Z :=
  let fraction := fraction +₆₄ 100 in
  if fraction >=? 1000 then (fraction - 1000, 45) else (fraction, 44).

Definition patterns : list (list Z) :=
  [[6; 5; 5; 5; 6; 5; 5; 5];
   [5; 5; 6; 5; 6; 5; 6; 5];
   [6; 5; 6; 5; 6; 5; 6; 5];
   [6; 6; 5; 6; 5; 6; 5; 6];
   [5; 6; 6; 6; 5; 6; 6; 6]].

(** Spreading [frames] over eight microframes with an error accumulator. *)
Fixpoint spread (n : nat) (base remainder accumulator : Z) : list Z :=
  match n with
  | O => []
  | S n' =>
      let accumulator := accumulator + remainder in
      if accumulator >=? 8 then (base + 1) :: spread n' base remainder (accumulator - 8)
      else base :: spread n' base remainder accumulator
  end.

Definition set_schedule (c : NS6ClockControl) (frames fixed adaptive qread qcount : Z)
    : NS6ClockControl :=
  {| feedback_sum := feedback_sum c; rate_millihz := rate_millihz c;
     requested_total := requested_total c; sent_total := sent_total c +₆₄ frames;
     fixed_fraction := fixed; adaptive_fraction_millionths := adaptive;
     feedback_count := feedback_count c; feedback_index := feedback_index c;
     locked := locked c; target_frames_per_ms := target_frames_per_ms c;
     feedback_window := feedback_window c; pattern_queue := pattern_queue c;
     pattern_queue_read := qread; pattern_queue_count := qcount |}.

(** The frames of the eight microframes of the next millisecond. *)
Definition ns6_clock_control_next_millisecond (cfg : ClockConfig) (c : NS6ClockControl)
    : list Z * NS6ClockControl :=
  if cfg_adaptive cfg && cfg_pattern cfg then
    let '(frames, fixed, qread, qcount) :=
      if negb (pattern_queue_count c =? 0)
      then (rd (pattern_queue c) (pattern_queue_read c), fixed_fraction c,
            (pattern_queue_read c + 1) mod PATTERN_CAPACITY, pattern_queue_count c - 1)
      else let '(fixed, frames) := fixed_cadence (fixed_fraction c) in
           (frames, fixed, pattern_queue_read c, pattern_queue_count c) in
    (rd patterns (frames - NS6_FEEDBACK_MIN_FRAMES_PER_MS),
     set_schedule c frames fixed (adaptive_fraction_millionths c) qread qcount)
  else
    let '(frames, fixed, adaptive) :=
      if cfg_adaptive cfg then
        let rate := ns6_clock_control_output_rate_millihz cfg (Some c) in
        let frames := u32 (rate / 1000000) in
        let adaptive := adaptive_fraction_millionths c +₆₄ (rate mod 1000000) in
        let '(adaptive, frames) :=
          if adaptive >=? 1000000 then (adaptive - 1000000, frames +₃₂ 1)
          else (adaptive, frames) in
        let frames := if frames <? 40 then 40 else frames in
        let frames := if frames >? 48 then 48 else frames in
        (frames, fixed_fraction c, adaptive)
      else let '(fixed, frames) := fixed_cadence (fixed_fraction c) in
           (frames, fixed, adaptive_fraction_millionths c) in
    (spread 8 (frames / 8) (frames mod 8) 0,
     set_schedule c frames fixed adaptive (pattern_queue_read c) (pattern_queue_count c)).

(** [int64_t]: the difference of the two totals, as the source branches on it. *)
Definition ns6_clock_control_debt (control : option NS6ClockControl) : Z :=
  match control with
  | None => 0
  | Some c =>
      if requested_total c >=? sent_total c
      then swrap 64 (requested_total c -₆₄ sent_total c)
      else - swrap 64 (sent_total c -₆₄ requested_total c)
  end.

Definition ns6_clock_control_requested_total (control : option NS6ClockControl) : Z :=
  from_option requested_total 0 control.
Definition ns6_clock_control_sent_total (control : option NS6ClockControl) : Z :=
  from_option sent_total 0 control.
Definition ns6_clock_control_rate_millihz (control : option NS6ClockControl) : Z :=
  from_option rate_millihz 0 control.
Definition ns6_clock_control_is_locked (control : option NS6ClockControl) : bool :=
  from_option locked false control.

Definition ns6_clock_control_is_adaptive_enabled (cfg : ClockConfig) : bool :=
  cfg_adaptive cfg.
Definition ns6_clock_control_is_feedback_pattern_enabled (cfg : ClockConfig) : bool :=
  cfg_adaptive cfg && cfg_pattern cfg.

(** The resampling step: nominal over measured rate, trimmed by the queue error. *)
Definition ns6_clock_control_source_frames_per_output_frame (cfg : ClockConfig)
    (control : option NS6ClockControl) (queued_frames : Z) : spec_float :=
  let measured := ns6_clock_control_output_rate_millihz cfg control in
  let step := d_div (d_of_Z NS6_NOMINAL_RATE_MILLIHZ) (d_of_Z measured) in
  let trim := d_mul (d_sub (d_of_Z queued_frames) (d_of_Z (cfg_queue_target cfg)))
                    (d_lit 1 1000000) in
  let trim := if d_lt (d_lit 5 1000) trim then d_lit 5 1000 else trim in
  let trim := if d_lt trim (d_lit (-5) 1000) then d_lit (-5) 1000 else trim in
  let step := d_mul step (d_add (d_of_Z 1) trim) in
  let step := if d_lt (d_lit 1005 1000) step then d_lit 1005 1000 else step in
  if d_lt step (d_lit 995 1000) then d_lit 995 1000 else step.

Lemma length_zero_window : length zero_window = Z.to_nat NS6_FEEDBACK_WINDOW.
Proof. apply length_replicate. Qed.

#[global] Opaque zero_window.
