(* ===== verification/ClockTheory.v ===== *)
(** * Theorems on the output clock

    The clock is driven by three kinds of events: a feedback report, the
    preparation of one millisecond of USB OUT traffic, and a feedback reset.  A
    run of events is compared with its history: the accepted reports since the
    last reset. *)

From stdpp Require Import base list numbers tactics.
From Stdlib Require Import ZArith Lia ZifyBool.
From S2P Require Import Prelude Float ClockControl.

Inductive event := Observe (frames_per_ms : Z) | NextMillisecond | ResetFeedback.

Definition step (cfg : ClockConfig) (c : NS6ClockControl) (e : event) : NS6ClockControl :=
  match e with
  | Observe v => ns6_clock_control_observe cfg c v
  | NextMillisecond => snd (ns6_clock_control_next_millisecond cfg c)
  | ResetFeedback => ns6_clock_control_reset_feedback c
  end.

Definition run (cfg : ClockConfig) (es : list event) : NS6ClockControl :=
  foldl (step cfg) ns6_clock_control_init es.

Definition sum_list (l : list Z) : Z := foldr Z.add 0 l.

Lemma sum_list_cons x l : sum_list (x :: l) = x + sum_list l.
Proof. done. Qed.

Lemma sum_list_app l k : sum_list (l ++ k) = sum_list l + sum_list k.
Proof. unfold sum_list. induction l; cbn; lia. Qed.

Lemma sum_list_snoc l v : sum_list (l ++ [v]) = sum_list l + v.
Proof. rewrite sum_list_app. cbn. lia. Qed.

Lemma sum_list_bound l lo hi :
  Forall (λ v, lo <= v <= hi) l →
  lo * Z.of_nat (length l) <= sum_list l <= hi * Z.of_nat (length l).
Proof. unfold sum_list. induction 1; cbn [foldr length]; lia. Qed.

(** ** The feedback window *)

Definition valid (v : Z) : Prop := 42 <= v <= 46.

Lemma valid_spec v : ns6_clock_control_feedback_value_is_valid v = true ↔ valid v.
Proof.
  unfold ns6_clock_control_feedback_value_is_valid, valid,
    NS6_FEEDBACK_MIN_FRAMES_PER_MS, NS6_FEEDBACK_MAX_FRAMES_PER_MS. lia.
Qed.

(** The accepted reports since the last reset. *)
Definition history_step (h : list Z) (e : event) : list Z :=
  match e with
  | Observe v => if ns6_clock_control_feedback_value_is_valid v then h ++ [v] else h
  | NextMillisecond => h
  | ResetFeedback => []
  end.

Definition history (es : list event) : list Z := foldl history_step [] es.

Definition WINDOW : nat := Z.to_nat NS6_FEEDBACK_WINDOW.

(** The newest [NS6_FEEDBACK_WINDOW] reports. *)
Definition newest (h : list Z) : list Z := drop (length h - WINDOW) h.

Record window_rel (h : list Z) (c : NS6ClockControl) : Prop := {
  w_valid : Forall valid h;
  w_length : length (feedback_window c) = WINDOW;
  w_count : feedback_count c = Z.of_nat (Nat.min (length h) WINDOW);
  w_index : feedback_index c = Z.of_nat (length h) mod NS6_FEEDBACK_WINDOW;
  w_cells : ∀ i, (i < length h)%nat → (length h - WINDOW <= i)%nat →
      rd (feedback_window c) (Z.of_nat i mod NS6_FEEDBACK_WINDOW) = h !!! i;
  w_sum : feedback_sum c = sum_list (newest h);
  w_requested : requested_total c = u64 (sum_list h);
  w_locked : locked c = negb (bool_decide (h = []));
  w_target : target_frames_per_ms c = List.last h 44;
  w_rate : rate_millihz c =
      if (WINDOW <=? length h)%nat then sum_list (newest h) * 1000000 / NS6_FEEDBACK_WINDOW
      else NS6_NOMINAL_RATE_MILLIHZ
}.

Lemma WINDOW_Z : Z.of_nat WINDOW = NS6_FEEDBACK_WINDOW.
Proof. unfold WINDOW. rewrite Z2Nat.id; [done|]. unfold NS6_FEEDBACK_WINDOW. lia. Qed.

Lemma WINDOW_pos : (0 < WINDOW)%nat.
Proof. pose proof WINDOW_Z. unfold NS6_FEEDBACK_WINDOW in *. lia. Qed.

#[local] Opaque WINDOW.

Lemma length_newest h : length (newest h) = Nat.min (length h) WINDOW.
Proof. unfold newest. rewrite length_drop. lia. Qed.

Lemma newest_sum_bound h : Forall valid h → 0 <= sum_list (newest h) <= 1840000.
Proof.
  intros Hh. assert (Forall valid (newest h)) as Hn by by apply Forall_drop.
  apply sum_list_bound in Hn. rewrite length_newest in Hn.
  pose proof WINDOW_Z. unfold NS6_FEEDBACK_WINDOW in *. lia.
Qed.

(** Sliding by one: the oldest report leaves once the window is full. *)
Lemma newest_snoc h v :
  sum_list (newest (h ++ [v])) =
  (if (WINDOW <=? length h)%nat then sum_list (newest h) - h !!! (length h - WINDOW)%nat
   else sum_list (newest h)) + v.
Proof.
  unfold newest. rewrite length_app. cbn [length]. pose proof WINDOW_pos.
  destruct (WINDOW <=? length h)%nat eqn:E.
  - rewrite drop_app_le by lia. rewrite sum_list_snoc.
    destruct (lookup_lt_is_Some_2 h (length h - WINDOW)) as [x Hx]; [lia|].
    rewrite (drop_S h x (length h - WINDOW)) by done.
    rewrite (list_lookup_total_correct _ _ _ Hx), sum_list_cons.
    replace (length h + 1 - WINDOW)%nat with (S (length h - WINDOW)) by lia. lia.
  - replace (length h + 1 - WINDOW)%nat with 0%nat by lia.
    replace (length h - WINDOW)%nat with 0%nat by lia.
    rewrite !drop_0. apply sum_list_snoc.
Qed.

Lemma window_rel_init : window_rel [] ns6_clock_control_init.
Proof.
  split; cbn; try done. lia.
Qed.

Lemma window_rel_reset c : window_rel [] (ns6_clock_control_reset_feedback c).
Proof.
  split; cbn; try done. lia.
Qed.

(** Observing an accepted report slides the window by one. *)
Lemma observe_cells h c v i :
  window_rel h c → (i < length (h ++ [v]))%nat → (length (h ++ [v]) - WINDOW <= i)%nat →
  rd (wr (feedback_window c) (feedback_index c) v) (Z.of_nat i mod NS6_FEEDBACK_WINDOW) =
  (h ++ [v]) !!! i.
Proof.
  intros H Hi Hlo. rewrite length_app in *. cbn [length] in *.
  pose proof WINDOW_Z. pose proof WINDOW_pos. rewrite (w_index _ _ H).
  unfold NS6_FEEDBACK_WINDOW in *.
  destruct (decide (i = length h)) as [->|Hne].
  - rewrite rd_wr_eq by (rewrite (w_length _ _ H); Z.div_mod_to_equations; lia).
    by rewrite list_lookup_total_middle.
  - rewrite rd_wr_ne by (Z.div_mod_to_equations; lia).
    rewrite lookup_total_app_l by lia. apply (w_cells _ _ H); lia.
Qed.

Lemma observe_sum h c v :
  window_rel h c → valid v →
  (if feedback_count c =? NS6_FEEDBACK_WINDOW
   then feedback_sum c -₆₄ rd (feedback_window c) (feedback_index c)
   else feedback_sum c) +₆₄ v = sum_list (newest (h ++ [v])).
Proof.
  intros H Hv. rewrite newest_snoc, (w_sum _ _ H), (w_count _ _ H), (w_index _ _ H).
  pose proof WINDOW_Z as HW. pose proof WINDOW_pos.
  pose proof (newest_sum_bound h (w_valid _ _ H)).
  destruct (WINDOW <=? length h)%nat eqn:E.
  - replace (Z.of_nat (length h `min` WINDOW) =? NS6_FEEDBACK_WINDOW) with true by lia.
    assert (Hold : rd (feedback_window c) (Z.of_nat (length h) mod NS6_FEEDBACK_WINDOW) =
                   h !!! (length h - WINDOW)%nat).
    { rewrite <- (w_cells _ _ H) by lia. f_equal. rewrite <- HW.
      replace (Z.of_nat (length h)) with
        (Z.of_nat (length h - WINDOW) + 1 * Z.of_nat WINDOW) by lia.
      by rewrite Z_mod_plus_full. }
    rewrite Hold.
    assert (valid (h !!! (length h - WINDOW)%nat)) as Ho.
    { destruct (lookup_lt_is_Some_2 h (length h - WINDOW)) as [x Hx]; [lia|].
      rewrite (list_lookup_total_correct _ _ _ Hx).
      exact (Forall_lookup_1 _ _ _ _ (w_valid _ _ H) Hx). }
    pose proof (newest_sum_bound (h ++ [v])) as Hb. rewrite newest_snoc, E in Hb.
    assert (Forall valid (h ++ [v])) as Hs by (apply Forall_app; split; [apply H|by constructor]).
    specialize (Hb Hs). unfold valid in *. width_lia.
  - replace (Z.of_nat (length h `min` WINDOW) =? NS6_FEEDBACK_WINDOW) with false by lia.
    unfold valid in *. width_lia.
Qed.

Lemma observe_window_rel cfg h c v :
  window_rel h c → valid v → window_rel (h ++ [v]) (ns6_clock_control_observe cfg c v).
Proof.
  intros H Hv. unfold ns6_clock_control_observe.
  rewrite (proj2 (valid_spec v) Hv). cbn [negb].
  pose proof (observe_sum _ _ v H Hv) as Hsum.
  pose proof (λ i, observe_cells _ _ v i H) as Hcells.
  pose proof WINDOW_Z as HW. pose proof WINDOW_pos. pose proof (w_count _ _ H) as Hc.
  set (sc := if feedback_count c =? _ then _ else _).
  assert (Hs1 : (fst sc) +₆₄ v = sum_list (newest (h ++ [v]))).
  { rewrite <- Hsum. subst sc. by destruct (feedback_count c =? _). }
  assert (Hs2 : snd sc = Z.of_nat (length (h ++ [v]) `min` WINDOW)).
  { subst sc. rewrite length_app. cbn [length].
    destruct (feedback_count c =? NS6_FEEDBACK_WINDOW) eqn:E; cbn [snd];
      unfold NS6_FEEDBACK_WINDOW in *; width_lia. }
  clearbody sc. destruct sc as [s n]. cbn [fst snd] in *.
  set (q := if cfg_adaptive cfg && cfg_pattern cfg then _ else _).
  clearbody q. destruct q as [[queue qread] qcount].
  rewrite Hs1. assert (Forall valid (h ++ [v])) as Hval
    by (apply Forall_app; split; [apply H|by constructor]).
  pose proof (newest_sum_bound _ Hval).
  assert (Hlen : length (h ++ [v]) = (length h + 1)%nat) by by rewrite length_app.
  split; cbn [feedback_window feedback_count feedback_index feedback_sum requested_total
              locked target_frames_per_ms ClockControl.rate_millihz].
  - exact Hval.
  - rewrite length_wr. apply H.
  - exact Hs2.
  - rewrite (w_index _ _ H), Hlen. unfold NS6_FEEDBACK_WINDOW. width_lia.
  - exact Hcells.
  - reflexivity.
  - rewrite (w_requested _ _ H), sum_list_snoc. width_lia.
  - rewrite bool_decide_eq_false_2; [reflexivity|]. by destruct h.
  - by rewrite List.last_last.
  - rewrite Hs2. destruct (WINDOW <=? length (h ++ [v]))%nat eqn:E.
    + replace (_ =? _) with true by lia. rewrite u64_id; [reflexivity|]. unfold is_u64; lia.
    + replace (_ =? _) with false by lia. rewrite (w_rate _ _ H).
      by replace (WINDOW <=? length h)%nat with false by lia.
Qed.

(** Preparing a millisecond only moves the schedule. *)
Lemma next_is_schedule cfg c :
  ∃ ps frames fixed adaptive qread qcount,
    ns6_clock_control_next_millisecond cfg c =
    (ps, set_schedule c frames fixed adaptive qread qcount).
Proof.
  unfold ns6_clock_control_next_millisecond, fixed_cadence. case_ifs; repeat eexists.
Qed.

Lemma step_window_rel cfg h c e :
  window_rel h c → window_rel (history_step h e) (step cfg c e).
Proof.
  intros H. destruct e as [v| |]; cbn [step history_step].
  - destruct (ns6_clock_control_feedback_value_is_valid v) eqn:E.
    + apply observe_window_rel; [exact H|]. by apply valid_spec.
    + unfold ns6_clock_control_observe. rewrite E. exact H.
  - destruct (next_is_schedule cfg c) as (ps & f & x & a & r & q & ->). cbn [snd].
    destruct H. by constructor.
  - apply window_rel_reset.
Qed.

Lemma run_window_rel cfg es : window_rel (history es) (run cfg es).
Proof.
  unfold history, run.
  assert (∀ h c, window_rel h c →
    window_rel (foldl history_step h es) (foldl (step cfg) c es)) as Hgen.
  { induction es as [|e es IH]; intros h c Hc; cbn [foldl]; [exact Hc|].
    apply IH, step_window_rel, Hc. }
  apply Hgen, window_rel_init.
Qed.

(** C17: after any sequence of reports, prepared milliseconds and resets, the
    ring buffer of the clock has computed exactly the mean of the newest 40000
    accepted reports since the last reset: its running sum is their sum, the
    measured rate is that sum scaled to millihertz (nominal until 40000 reports
    came in), the number of frames requested is the sum of all of them, and the
    clock is locked exactly when one was accepted. *)
Theorem measured_rate_is_sliding_mean cfg es :
  let h := history es in
  let c := run cfg es in
  feedback_sum c = sum_list (newest h) ∧
  feedback_count c = Z.of_nat (length (newest h)) ∧
  ns6_clock_control_rate_millihz (Some c) =
    (if (WINDOW <=? length h)%nat then sum_list (newest h) * 1000000 / NS6_FEEDBACK_WINDOW
     else NS6_NOMINAL_RATE_MILLIHZ) ∧
  ns6_clock_control_requested_total (Some c) = u64 (sum_list h) ∧
  ns6_clock_control_is_locked (Some c) = negb (bool_decide (h = [])).
Proof.
  pose proof (run_window_rel cfg es) as H. cbn zeta.
  rewrite length_newest. destruct H. repeat split; assumption.
Qed.

(** ** The schedule *)

(** The reports the pattern scheduler has not used yet, oldest first. *)
Definition pending_of (queue : list Z) (read count : Z) : list Z :=
  map (λ i, rd queue ((read + Z.of_nat i) mod PATTERN_CAPACITY)) (seq 0 (Z.to_nat count)).

Definition pending (c : NS6ClockControl) : list Z :=
  pending_of (pattern_queue c) (pattern_queue_read c) (pattern_queue_count c).

Record schedule_wf (c : NS6ClockControl) : Prop := {
  s_fixed : 0 <= fixed_fraction c < 1000;
  s_adaptive : 0 <= adaptive_fraction_millionths c < 1000000;
  s_length : length (pattern_queue c) = Z.to_nat PATTERN_CAPACITY;
  s_read : 0 <= pattern_queue_read c < PATTERN_CAPACITY;
  s_count : 0 <= pattern_queue_count c <= PATTERN_CAPACITY;
  s_pending : Forall valid (pending c)
}.

(** The queue the scheduler implements: the newest 256 reports. *)
Definition queue_report (q : list Z) (v : Z) : list Z :=
  (if (length q =? Z.to_nat PATTERN_CAPACITY)%nat then tail q else q) ++ [v].

Lemma length_pending_of queue read count :
  length (pending_of queue read count) = Z.to_nat count.
Proof. unfold pending_of. by rewrite length_map, length_seq. Qed.

Lemma pending_of_uncons queue read count :
  0 <= read < PATTERN_CAPACITY → 0 < count →
  pending_of queue read count =
  rd queue read :: pending_of queue ((read + 1) mod PATTERN_CAPACITY) (count - 1).
Proof.
  intros Hr Hc. unfold pending_of.
  replace (Z.to_nat count) with (S (Z.to_nat (count - 1))) by lia.
  cbn [seq map]. f_equal.
  - rewrite Z.add_0_r, Z.mod_small by lia. done.
  - rewrite <- seq_shift, map_map. apply map_ext. intros i. f_equal.
    rewrite Zplus_mod_idemp_l. f_equal. lia.
Qed.

Lemma pending_of_snoc queue read count v :
  length queue = Z.to_nat PATTERN_CAPACITY → 0 <= read < PATTERN_CAPACITY →
  0 <= count < PATTERN_CAPACITY →
  pending_of (wr queue ((read + count) mod PATTERN_CAPACITY) v) read (count + 1) =
  pending_of queue read count ++ [v].
Proof.
  intros Hl Hr Hc. unfold pending_of, PATTERN_CAPACITY in *.
  replace (Z.to_nat (count + 1)) with (Z.to_nat count + 1)%nat by lia.
  rewrite seq_app, map_app. cbn [seq map]. f_equal.
  - apply map_ext_in. intros i Hi%in_seq. apply rd_wr_ne; Z.div_mod_to_equations; lia.
  - f_equal. rewrite Nat.add_0_l, Z2Nat.id by lia.
    apply rd_wr_eq. rewrite Hl. Z.div_mod_to_equations; lia.
Qed.

Lemma pattern_push_spec queue read count v :
  length queue = Z.to_nat PATTERN_CAPACITY → 0 <= read < PATTERN_CAPACITY →
  0 <= count <= PATTERN_CAPACITY →
  let '(queue', read', count') := pattern_push queue read count v in
  length queue' = Z.to_nat PATTERN_CAPACITY ∧ 0 <= read' < PATTERN_CAPACITY ∧
  0 <= count' <= PATTERN_CAPACITY ∧
  pending_of queue' read' count' = queue_report (pending_of queue read count) v.
Proof.
  intros Hl Hr Hc. unfold pattern_push, queue_report.
  rewrite length_pending_of. destruct (count =? PATTERN_CAPACITY) eqn:E.
  - replace (_ =? _)%nat with true by lia.
    rewrite (pending_of_uncons queue read count) by (unfold PATTERN_CAPACITY in *; lia).
    cbn [tail]. rewrite length_wr, Z.sub_add.
    assert (0 <= (read + 1) mod PATTERN_CAPACITY < PATTERN_CAPACITY) as Hm
      by (unfold PATTERN_CAPACITY; Z.div_mod_to_equations; lia).
    repeat split; try lia.
    rewrite <- (Z.sub_add 1 count) at 2. apply pending_of_snoc; lia.
  - replace (_ =? _)%nat with false by (unfold PATTERN_CAPACITY in *; lia).
    rewrite length_wr. repeat split; try lia. apply pending_of_snoc; lia.
Qed.

Lemma queue_report_valid q v : Forall valid q → valid v → Forall valid (queue_report q v).
Proof.
  intros Hq Hv. unfold queue_report. apply Forall_app. split; [|by constructor].
  destruct (_ =? _)%nat; [|done]. destruct Hq; [constructor|done].
Qed.

Lemma fixed_cadence_spec f :
  0 <= f < 1000 →
  let '(f', n) := fixed_cadence f in
  0 <= f' < 1000 ∧ 44 <= n <= 45 ∧ 1000 * n + f' = 44100 + f.
Proof. intros. unfold fixed_cadence. rewrite u64_id by (unfold is_u64; lia). case_ifs; lia. Qed.

Lemma spread_spec n base r acc :
  0 <= r < 8 → 0 <= acc < 8 →
  let ps := spread n base r acc in
  length ps = n ∧ Forall (λ p, base <= p <= base + (if r =? 0 then 0 else 1)) ps ∧
  sum_list ps = base * Z.of_nat n + (acc + r * Z.of_nat n) / 8.
Proof.
  intros Hr. revert acc. induction n as [|n IH]; intros acc Hacc; cbn [spread].
  - split; [reflexivity|]. split; [constructor|]. change (sum_list []) with 0.
    Z.div_mod_to_equations; lia.
  - destruct (acc + r >=? 8) eqn:E.
    + destruct (IH (acc + r - 8)) as (Hl & Hf & Hs); [lia|].
      split; [cbn [length]; lia|]. split; [constructor; [destruct (r =? 0) eqn:?; lia|done]|].
      rewrite sum_list_cons, Hs. Z.div_mod_to_equations; lia.
    + destruct (IH (acc + r)) as (Hl & Hf & Hs); [lia|].
      split; [cbn [length]; lia|]. split; [constructor; [destruct (r =? 0); lia|done]|].
      rewrite sum_list_cons, Hs. Z.div_mod_to_equations; lia.
Qed.

(** Eight microframes of five or six frames that add up to [frames]. *)
Definition good_packets (ps : list Z) (frames : Z) : Prop :=
  length ps = 8%nat ∧ Forall (λ p, 5 <= p <= 6) ps ∧ sum_list ps = frames.

Lemma spread_good frames :
  40 <= frames <= 48 → good_packets (spread 8 (frames / 8) (frames mod 8) 0) frames.
Proof.
  intros Hf. destruct (spread_spec 8 (frames / 8) (frames mod 8) 0) as (Hl & Hb & Hs);
    [Z.div_mod_to_equations; lia|lia|].
  split; [done|]. split.
  - revert Hb. apply Forall_impl. intros p Hp.
    destruct (frames mod 8 =? 0) eqn:E; Z.div_mod_to_equations; lia.
  - rewrite Hs. Z.div_mod_to_equations; lia.
Qed.

Lemma patterns_good frames :
  valid frames → good_packets (rd patterns (frames - NS6_FEEDBACK_MIN_FRAMES_PER_MS)) frames.
Proof.
  unfold valid. intros Hv.
  assert (frames = 42 ∨ frames = 43 ∨ frames = 44 ∨ frames = 45 ∨ frames = 46) as Hc by lia.
  destruct Hc as [->|[->|[->|[->| ->]]]];
    (split; [reflexivity|]; split; [|reflexivity]; repeat (constructor; [lia|]); constructor).
Qed.

(** What a switch combination schedules: its frame count and new fractions. *)
Lemma next_spec cfg c :
  schedule_wf c →
  ∃ ps frames fixed adaptive qread qcount,
    ns6_clock_control_next_millisecond cfg c =
      (ps, set_schedule c frames fixed adaptive qread qcount) ∧
    good_packets ps frames ∧ 40 <= frames <= 48 ∧
    schedule_wf (set_schedule c frames fixed adaptive qread qcount) ∧
    pending_of (pattern_queue c) qread qcount =
      (if cfg_adaptive cfg && cfg_pattern cfg then tail (pending c) else pending c).
Proof.
  intros [Hf Ha Hl Hr Hc Hp]. unfold ns6_clock_control_next_millisecond.
  pose proof (fixed_cadence_spec _ Hf) as Hfix.
  destruct (fixed_cadence (fixed_fraction c)) as [f' n]. destruct Hfix as (Hf' & Hn & _).
  destruct (cfg_adaptive cfg) eqn:Ead; cbn [andb].
  - destruct (cfg_pattern cfg).
    + destruct (pattern_queue_count c =? 0) eqn:Eq; cbn [negb].
      * assert (pending c = []) as Hnil
          by (apply nil_length_inv; unfold pending; rewrite length_pending_of; lia).
        do 6 eexists. split; [reflexivity|].
        split; [apply patterns_good; unfold valid; lia|]. split; [lia|].
        split; [constructor; cbn; try lia; done|]. fold (pending c). by rewrite Hnil.
      * pose proof (pending_of_uncons (pattern_queue c) _ (pattern_queue_count c) Hr) as Hu.
        fold (pending c) in Hu.
        rewrite Hu in Hp |- * by lia. apply Forall_cons_1 in Hp as [Hv Hp].
        assert (0 <= (pattern_queue_read c + 1) mod PATTERN_CAPACITY < PATTERN_CAPACITY)
          by (unfold PATTERN_CAPACITY; Z.div_mod_to_equations; lia).
        do 6 eexists. split; [reflexivity|]. split; [by apply patterns_good|].
        unfold valid in Hv. split; [lia|]. split; [|done].
        constructor; cbn; try lia; done.
    + set (rate := ns6_clock_control_output_rate_millihz _ _).
      set (fa := if _ +₆₄ _ >=? 1000000 then _ else _).
      assert (0 <= fst fa < 1000000) as Hfa.
      { subst fa. pose proof (Z.mod_pos_bound rate 1000000 ltac:(lia)).
        rewrite u64_id by (unfold is_u64; lia). case_ifs; cbn [fst]; lia. }
      clearbody fa. destruct fa as [a fr]. cbn [fst] in Hfa.
      do 6 eexists. split; [reflexivity|].
      split; [apply spread_good; case_ifs; lia|]. split; [case_ifs; lia|].
      split; [|done]. constructor; cbn; try lia; done.
  - do 6 eexists. split; [reflexivity|]. split; [apply spread_good; lia|]. split; [lia|].
    split; [|done]. constructor; cbn; try lia; done.
Qed.

(** The reports waiting to be scheduled, as the pattern scheduler promises. *)
Definition queue_step (cfg : ClockConfig) (q : list Z) (e : event) : list Z :=
  match e with
  | Observe v => if (cfg_adaptive cfg && cfg_pattern cfg) &&
                    ns6_clock_control_feedback_value_is_valid v
                 then queue_report q v else q
  | NextMillisecond => if cfg_adaptive cfg && cfg_pattern cfg then tail q else q
  | ResetFeedback => []
  end.

Definition waiting (cfg : ClockConfig) (es : list event) : list Z :=
  foldl (queue_step cfg) [] es.

Lemma observe_schedule cfg c v :
  schedule_wf c →
  schedule_wf (ns6_clock_control_observe cfg c v) ∧
  pending (ns6_clock_control_observe cfg c v) = queue_step cfg (pending c) (Observe v).
Proof.
  intros H. pose proof H as [Hf Ha Hl Hr Hc Hp]. cbn [queue_step].
  unfold ns6_clock_control_observe.
  destruct (ns6_clock_control_feedback_value_is_valid v) eqn:Ev; cbn [negb];
    [|by rewrite andb_false_r].
  rewrite andb_true_r. apply valid_spec in Ev.
  destruct (if feedback_count c =? _ then _ else _) as [s n].
  destruct (cfg_adaptive cfg && cfg_pattern cfg).
  - pose proof (pattern_push_spec _ _ _ v Hl Hr Hc) as Hpush.
    destruct (pattern_push _ _ _ _) as [[q r] k]. destruct Hpush as (Hl' & Hr' & Hc' & Hp').
    split; [|exact Hp'].
    constructor; cbn [fixed_fraction adaptive_fraction_millionths pattern_queue
      pattern_queue_read pattern_queue_count]; try assumption.
    unfold pending. cbn [pattern_queue pattern_queue_read pattern_queue_count].
    rewrite Hp'. by apply queue_report_valid.
  - split; [|reflexivity]. constructor; assumption.
Qed.

Lemma step_schedule cfg c e :
  schedule_wf c →
  schedule_wf (step cfg c e) ∧ pending (step cfg c e) = queue_step cfg (pending c) e.
Proof.
  intros H. destruct e as [v| |]; cbn [step].
  - by apply observe_schedule.
  - destruct (next_spec cfg c H) as (ps & fr & f & a & r & k & -> & _ & _ & Hwf & Hp).
    split; [exact Hwf|exact Hp].
  - split; [|reflexivity]. constructor; cbn; try lia.
    + apply H.
    + unfold PATTERN_CAPACITY; lia.
    + unfold PATTERN_CAPACITY; lia.
    + constructor.
Qed.

Lemma schedule_wf_init : schedule_wf ns6_clock_control_init.
Proof.
  constructor; cbn; try (unfold PATTERN_CAPACITY; lia); [reflexivity|constructor].
Qed.

Lemma run_schedule cfg es : schedule_wf (run cfg es) ∧ pending (run cfg es) = waiting cfg es.
Proof.
  unfold run, waiting. change [] with (pending ns6_clock_control_init).
  pose proof schedule_wf_init as Hc. revert Hc. generalize ns6_clock_control_init.
  induction es as [|e es IH]; intros c Hc; cbn [foldl]; [done|].
  destruct (step_schedule cfg c e Hc) as [Hc' <-]. by apply IH.
Qed.

(** Under every combination of the clock's compile-time switches and after
    any sequence of events, the eight microframes prepared for a millisecond
    carry five or six frames each and the counter of sent frames grows by
    exactly the frames they carry. *)
Theorem packets_account_for_sent_frames cfg es :
  let c := run cfg es in
  let '(ps, c') := ns6_clock_control_next_millisecond cfg c in
  length ps = 8%nat ∧ Forall (λ p, 5 <= p <= 6) ps ∧
  ns6_clock_control_sent_total (Some c') =
    ns6_clock_control_sent_total (Some c) +₆₄ sum_list ps.
Proof.
  cbn zeta. destruct (run_schedule cfg es) as [Hwf _].
  destruct (next_spec cfg _ Hwf) as (ps & fr & f & a & r & k & -> & (Hl & Hb & Hs) & _).
  rewrite Hs. by repeat split.
Qed.

(** The feedback pattern scheduler is a FIFO of the newest 256 reports:
    after any sequence of events the ring holds the reports the abstract queue
    holds, and the next millisecond plays the pattern of the oldest of them. *)
Theorem pattern_scheduler_is_fifo cfg es :
  cfg_adaptive cfg = true → cfg_pattern cfg = true →
  pending (run cfg es) = waiting cfg es ∧
  ∀ v q, waiting cfg es = v :: q →
    fst (ns6_clock_control_next_millisecond cfg (run cfg es)) =
      rd patterns (v - NS6_FEEDBACK_MIN_FRAMES_PER_MS).
Proof.
  intros Ha Hp. destruct (run_schedule cfg es) as [Hwf Hw]. split; [exact Hw|].
  intros v q Hv. rewrite <- Hw in Hv.
  assert (pattern_queue_count (run cfg es) ≠ 0) as Hne.
  { intros E. unfold pending in Hv. by rewrite E in Hv. }
  pose proof (s_count _ Hwf). pose proof (s_read _ Hwf) as Hr.
  unfold pending in Hv. rewrite pending_of_uncons in Hv by lia. injection Hv as Hv _.
  unfold ns6_clock_control_next_millisecond. rewrite Ha, Hp. cbn [andb].
  replace (pattern_queue_count (run cfg es) =? 0) with false by lia. cbn [negb fst].
  by rewrite Hv.
Qed.

Definition pattern_config : ClockConfig :=
  {| cfg_adaptive := true; cfg_pattern := true; cfg_queue_target := 4096;
     cfg_min_rate := 44000000 |}.

Lemma pattern_scheduler_is_fifo_witness :
  fst (ns6_clock_control_next_millisecond pattern_config
         (run pattern_config [Observe 45; Observe 99; Observe 42; NextMillisecond])) =
    [6; 5; 5; 5; 6; 5; 5; 5].
Proof.
  apply (proj2 (pattern_scheduler_is_fifo pattern_config
    [Observe 45; Observe 99; Observe 42; NextMillisecond] eq_refl eq_refl) 42 []).
  reflexivity.
Defined.

(** ** Cadence over many milliseconds *)

(** Milliseconds prepared since the last reset. *)
Definition milliseconds_step (n : Z) (e : event) : Z :=
  match e with Observe _ => n | NextMillisecond => n + 1 | ResetFeedback => 0 end.

Definition milliseconds (es : list event) : Z := foldl milliseconds_step 0 es.

Definition fixed_rel (n : Z) (c : NS6ClockControl) : Prop :=
  0 <= n ∧ fixed_fraction c = 100 * (n mod 10) ∧ sent_total c = u64 (44 * n + n / 10).

Lemma observe_fixed cfg n c v : fixed_rel n c → fixed_rel n (ns6_clock_control_observe cfg c v).
Proof.
  intros H. unfold ns6_clock_control_observe.
  destruct (negb _); [exact H|].
  destruct (if feedback_count c =? _ then _ else _) as [s k].
  destruct (if _ && _ then pattern_push _ _ _ _ else _) as [[q r] m]. exact H.
Qed.

Lemma next_fixed cfg n c :
  cfg_adaptive cfg = false → fixed_rel n c →
  fixed_rel (n + 1) (snd (ns6_clock_control_next_millisecond cfg c)).
Proof.
  intros Ha (Hn & Hf & Hs). unfold ns6_clock_control_next_millisecond. rewrite Ha.
  cbn [andb]. unfold fixed_cadence. rewrite Hf.
  rewrite u64_id by (unfold is_u64; Z.div_mod_to_equations; lia).
  destruct (100 * (n mod 10) + 100 >=? 1000) eqn:E; cbn [snd];
    (split; [lia|]; split; cbn [fixed_fraction sent_total set_schedule];
     [|rewrite Hs]; width_lia).
Qed.

Lemma run_fixed cfg es :
  cfg_adaptive cfg = false → fixed_rel (milliseconds es) (run cfg es).
Proof.
  intros Ha. unfold milliseconds, run.
  assert (fixed_rel 0 ns6_clock_control_init) as Hc by (split; [lia|done]).
  revert Hc. generalize ns6_clock_control_init, 0.
  induction es as [|e es IH]; intros c n Hc; cbn [foldl]; [done|].
  apply IH. destruct e; cbn [step milliseconds_step].
  - by apply observe_fixed.
  - by apply next_fixed.
  - split; [lia|done].
Qed.

(** With the adaptive clock compiled out (the default build) the cadence is
    exact: [n] milliseconds after the last reset the driver has scheduled
    [44100 * n / 1000] frames, whatever reports came in between. *)
Theorem fixed_cadence_is_exact cfg es :
  cfg_adaptive cfg = false →
  ns6_clock_control_sent_total (Some (run cfg es)) = u64 (44100 * milliseconds es / 1000).
Proof.
  intros Ha. destruct (run_fixed cfg es Ha) as (Hn & _ & Hs). cbn. rewrite Hs.
  f_equal. Z.div_mod_to_equations; lia.
Qed.

Lemma fixed_cadence_is_exact_witness :
  ns6_clock_control_sent_total
    (Some (run default_config (Observe 46 :: repeat NextMillisecond 25))) = 1102.
Proof. rewrite (fixed_cadence_is_exact default_config _ eq_refl). reflexivity. Defined.

Lemma output_rate_bounds cfg control :
  cfg_min_rate cfg <= NS6_MAX_OUTPUT_RATE_MILLIHZ → cfg_min_rate cfg <= NS6_NOMINAL_RATE_MILLIHZ →
  cfg_min_rate cfg <= ns6_clock_control_output_rate_millihz cfg control <= NS6_MAX_OUTPUT_RATE_MILLIHZ.
Proof.
  intros Hm Hn. unfold ns6_clock_control_output_rate_millihz, NS6_MAX_OUTPUT_RATE_MILLIHZ,
    NS6_NOMINAL_RATE_MILLIHZ in *.
  destruct (cfg_adaptive cfg); [|lia]. destruct control; case_ifs; lia.
Qed.

(** One adaptive millisecond: the fraction carries what was not sent. *)
Lemma next_adaptive cfg c :
  cfg_adaptive cfg = true → cfg_pattern cfg = false →
  40000000 <= cfg_min_rate cfg <= NS6_NOMINAL_RATE_MILLIHZ → schedule_wf c →
  let rate := ns6_clock_control_output_rate_millihz cfg (Some c) in
  let total := adaptive_fraction_millionths c + rate in
  ∃ ps, ns6_clock_control_next_millisecond cfg c =
    (ps, set_schedule c (total / 1000000) (fixed_fraction c) (total mod 1000000)
           (pattern_queue_read c) (pattern_queue_count c)).
Proof.
  intros Ha Hp Hm Hwf. cbn zeta. unfold ns6_clock_control_next_millisecond.
  rewrite Ha, Hp. cbn [andb].
  pose proof (output_rate_bounds cfg (Some c)) as Hr.
  unfold NS6_MAX_OUTPUT_RATE_MILLIHZ, NS6_NOMINAL_RATE_MILLIHZ in *.
  specialize (Hr ltac:(lia) ltac:(lia)).
  set (rate := ns6_clock_control_output_rate_millihz cfg (Some c)) in *.
  pose proof (s_adaptive _ Hwf) as Hf.
  set (f := adaptive_fraction_millionths c) in *. clearbody rate f.
  rewrite (u64_id (f + _)) by (unfold is_u64; Z.div_mod_to_equations; lia).
  rewrite (u32_id (rate / _)) by (unfold is_u32; Z.div_mod_to_equations; lia).
  destruct (f + rate mod 1000000 >=? 1000000) eqn:E;
    [rewrite u32_id by (unfold is_u32; Z.div_mod_to_equations; lia)|];
    (rewrite (proj2 (Z.ltb_ge _ 40)) by (Z.div_mod_to_equations; lia);
     replace (_ >? 48) with false by (Z.div_mod_to_equations; lia);
     eexists; f_equal; f_equal; Z.div_mod_to_equations; lia).
Qed.

(** [n] milliseconds in a row. *)
Definition next_n (cfg : ClockConfig) (n : nat) (c : NS6ClockControl) : NS6ClockControl :=
  Nat.iter n (λ c, snd (ns6_clock_control_next_millisecond cfg c)) c.

Lemma next_n_adaptive cfg n c :
  cfg_adaptive cfg = true → cfg_pattern cfg = false →
  40000000 <= cfg_min_rate cfg <= NS6_NOMINAL_RATE_MILLIHZ → schedule_wf c →
  let rate := ns6_clock_control_output_rate_millihz cfg (Some c) in
  let total := adaptive_fraction_millionths c + Z.of_nat n * rate in
  let c' := next_n cfg n c in
  ns6_clock_control_output_rate_millihz cfg (Some c') = rate ∧ schedule_wf c' ∧
  adaptive_fraction_millionths c' = total mod 1000000 ∧
  u64 (sent_total c') = u64 (sent_total c + total / 1000000).
Proof.
  intros Ha Hp Hm Hwf. cbn zeta. induction n as [|n IH].
  - cbn [next_n Nat.iter]. pose proof (s_adaptive _ Hwf).
    rewrite Z.mul_0_l, Z.add_0_r, Z.mod_small, Z.div_small, Z.add_0_r by lia. done.
  - change (next_n cfg (S n) c) with
      (snd (ns6_clock_control_next_millisecond cfg (next_n cfg n c))).
    destruct IH as (Hr & Hwf' & Hf & Hs).
    destruct (next_adaptive cfg _ Ha Hp Hm Hwf') as [ps Hn].
    destruct (next_spec cfg _ Hwf') as (ps' & fr & f & a & r & k & Hn' & _ & _ & Hwf'' & _).
    rewrite Hn in Hn'. apply (f_equal snd) in Hn'. cbn [snd] in Hn'. rewrite Hn. cbn [snd].
    rewrite <- Hn' in Hwf''. split; [exact Hr|]. split; [exact Hwf''|].
    cbn [set_schedule adaptive_fraction_millionths sent_total]. rewrite Hr, Hf.
    set (rate := ns6_clock_control_output_rate_millihz _ (Some c)) in *.
    replace (Z.of_nat (S n) * rate) with (Z.of_nat n * rate + rate) by lia.
    set (f0 := adaptive_fraction_millionths c) in *. set (m := Z.of_nat n * rate) in *.
    clearbody f0 m rate. split.
    + rewrite Zplus_mod_idemp_l. f_equal. lia.
    + assert (Hd : ((f0 + m) mod 1000000 + rate) / 1000000 =
                   (f0 + (m + rate)) / 1000000 - (f0 + m) / 1000000)
        by (Z.div_mod_to_equations; lia).
      rewrite Hd. revert Hs. generalize ((f0 + (m + rate)) / 1000000), ((f0 + m) / 1000000).
      unfold u64. intros z z0 Hs. rewrite Zmod_mod.
      apply (f_equal (λ t, (t + (z - z0)) mod 18446744073709551616)) in Hs.
      rewrite !Zplus_mod_idemp_l in Hs. rewrite Hs. f_equal. lia.
Qed.

(** C18: in the adaptive mode without the packet pattern, with a configured minimum rate of 40 to
    44.1 kHz, the clock does not drift from its output rate (the measured rate, limited to the
    configured band): over any number of consecutive milliseconds without a report in between, the
    frames sent are the whole number of frames of that rate over that time, counted from the
    fraction carried in, so the error never exceeds one frame. *)
Theorem adaptive_cadence_does_not_drift cfg es n :
  cfg_adaptive cfg = true → cfg_pattern cfg = false →
  40000000 <= cfg_min_rate cfg <= NS6_NOMINAL_RATE_MILLIHZ →
  let c := run cfg es in
  let rate := ns6_clock_control_output_rate_millihz cfg (Some c) in
  u64 (sent_total (next_n cfg n c)) =
    u64 (sent_total c + (adaptive_fraction_millionths c + Z.of_nat n * rate) / 1000000) ∧
  0 <= adaptive_fraction_millionths c < 1000000.
Proof.
  intros Ha Hp Hm. cbn zeta. destruct (run_schedule cfg es) as [Hwf _].
  split; [|apply Hwf]. by apply next_n_adaptive.
Qed.

Definition adaptive_config : ClockConfig :=
  {| cfg_adaptive := true; cfg_pattern := false; cfg_queue_target := 4096;
     cfg_min_rate := 44000000 |}.

Lemma adaptive_cadence_does_not_drift_witness :
  u64 (sent_total (next_n adaptive_config 10 (run adaptive_config [Observe 44]))) = 441.
Proof.
  rewrite (proj1 (adaptive_cadence_does_not_drift adaptive_config [Observe 44] 10
    eq_refl eq_refl ltac:(unfold NS6_NOMINAL_RATE_MILLIHZ; cbn; lia))).
  reflexivity.
Defined.
