(* ===== verification/CaptureRing.v ===== *)
(** * The capture ring (NS6CaptureRing.h)

    A lock-free ring of stereo float frames between the USB completion thread,
    which writes, and the HAL callback, which reads or clears.  The first part is
    the C functions run alone; the second part interleaves the two threads, one
    memory access to the shared samples per step, and shows that the reader
    receives every sample unchanged, at most once and in order.  The acquire and
    release accesses to [head] and [tail] are what makes sequentially consistent
    interleaving the right granularity. *)

From stdpp Require Import base list numbers tactics.
From Stdlib Require Import ZArith Lia ZifyBool SpecFloat.
From S2P Require Import Prelude.

Definition NS6_CAPTURE_RING_CAPACITY : Z := 8192.
Definition NS6_CAPTURE_RING_CHANNELS : Z := 2.

Record NS6CaptureRing := { samples : list spec_float; head : Z; tail : Z }.

#[export] Instance spec_float_inhabited : Inhabited spec_float := populate (S754_zero false).

Definition ns6_capture_ring_init (ring : NS6CaptureRing) : NS6CaptureRing :=
  {| samples := samples ring; head := 0; tail := 0 |}.

Definition ns6_capture_ring_clear (ring : NS6CaptureRing) : NS6CaptureRing :=
  {| samples := samples ring; head := head ring; tail := head ring |}.

(** [(size_t)((position + frame) % CAPACITY) * CHANNELS]. *)
Definition slot (position frame : Z) : Z :=
  ((position +₆₄ frame) mod NS6_CAPTURE_RING_CAPACITY) * NS6_CAPTURE_RING_CHANNELS.

(** Frames accepted by a write that asks for [frames]. *)
Definition write_frames (ring : NS6CaptureRing) (frames : Z) : Z :=
  let used := head ring -₆₄ tail ring in
  if used >=? NS6_CAPTURE_RING_CAPACITY then 0
  else
    let available := NS6_CAPTURE_RING_CAPACITY - used in
    if frames >? available then available else frames.

Definition ns6_capture_ring_write (ring : NS6CaptureRing) (input : option (list spec_float))
    (frames : Z) : Z * NS6CaptureRing :=
  match input with
  | None => (0, ring)
  | Some input =>
      if frames =? 0 then (0, ring)
      else if head ring -₆₄ tail ring >=? NS6_CAPTURE_RING_CAPACITY then (0, ring)
      else
        let frames := write_frames ring frames in
        (frames,
         {| samples := for_loop (Z.to_nat frames) 0
              (λ frame s,
                 let s := wr s (slot (head ring) frame) (rd input (frame * NS6_CAPTURE_RING_CHANNELS)) in
                 wr s (slot (head ring) frame + 1) (rd input (frame * NS6_CAPTURE_RING_CHANNELS + 1)))
              (samples ring);
            head := head ring +₆₄ frames; tail := tail ring |})
  end.

(** Frames delivered by a read that asks for [frames]. *)
Definition read_frames (ring : NS6CaptureRing) (frames : Z) : Z :=
  let available := head ring -₆₄ tail ring in
  if available >? frames then frames else available.

(** Frames past the delivered ones are silence. *)
Definition ns6_capture_ring_read (ring : NS6CaptureRing) (output : option (list spec_float))
    (frames : Z) : Z * NS6CaptureRing * option (list spec_float) :=
  match output with
  | None => (0, ring, output)
  | Some out =>
      if frames =? 0 then (0, ring, output)
      else
        let consumed := read_frames ring frames in
        let out := for_loop (Z.to_nat consumed) 0
          (λ frame o,
             let o := wr o (frame * NS6_CAPTURE_RING_CHANNELS)
                        (rd (samples ring) (slot (tail ring) frame)) in
             wr o (frame * NS6_CAPTURE_RING_CHANNELS + 1)
               (rd (samples ring) (slot (tail ring) frame + 1))) out in
        let out := for_loop (Z.to_nat (frames - consumed)) consumed
          (λ frame o,
             let o := wr o (frame * NS6_CAPTURE_RING_CHANNELS) (S754_zero false) in
             wr o (frame * NS6_CAPTURE_RING_CHANNELS + 1) (S754_zero false)) out in
        (consumed,
         {| samples := samples ring; head := head ring; tail := tail ring +₆₄ consumed |},
         Some out)
  end.

(** ** Interleaving of the two threads *)

(** Sample [j] of the block that starts at frame [position]: channel [j mod 2]
    of its frame [j / 2]. *)
Definition cell (position j : Z) : Z :=
  slot position (j / NS6_CAPTURE_RING_CHANNELS) + j mod NS6_CAPTURE_RING_CHANNELS.

(** The writer between its loads of [head] and [tail] and its store of [head]. *)
Inductive writer_pc :=
  | WIdle
  | WCopy (head0 frames : Z) (j : Z) (input : list spec_float).

(** The reader between its loads and its store of [tail]; clearing has loaded
    [head] and not stored [tail] yet. *)
Inductive reader_pc :=
  | RIdle
  | RClear (head0 : Z)
  | RCopy (tail0 frames : Z) (j : Z) (out : list spec_float).

(** [published] logs the samples of completed writes; [reads] logs every
    completed read, newest first, with the number of frames taken out before it;
    [taken] is that number now. *)
Record system := {
  ring : NS6CaptureRing;
  wpc : writer_pc;
  rpc : reader_pc;
  published : list spec_float;
  taken : Z;
  reads : list (Z * list spec_float)
}.

Inductive step : system → system → Prop :=
  | w_begin r rp pub tk log input frames :
      head r -₆₄ tail r < NS6_CAPTURE_RING_CAPACITY →
      0 < frames → Z.of_nat (length input) = frames * NS6_CAPTURE_RING_CHANNELS →
      step {| ring := r; wpc := WIdle; rpc := rp; published := pub; taken := tk; reads := log |}
           {| ring := r; wpc := WCopy (head r) (write_frames r frames) 0 input; rpc := rp;
              published := pub; taken := tk; reads := log |}
  | w_store r rp pub tk log h n j input :
      j < n * NS6_CAPTURE_RING_CHANNELS →
      step {| ring := r; wpc := WCopy h n j input; rpc := rp; published := pub;
              taken := tk; reads := log |}
           {| ring := {| samples := wr (samples r) (cell h j) (rd input j);
                         head := head r; tail := tail r |};
              wpc := WCopy h n (j + 1) input; rpc := rp; published := pub;
              taken := tk; reads := log |}
  | w_publish r rp pub tk log h n input :
      step {| ring := r; wpc := WCopy h n (n * NS6_CAPTURE_RING_CHANNELS) input; rpc := rp;
              published := pub; taken := tk; reads := log |}
           {| ring := {| samples := samples r; head := h +₆₄ n; tail := tail r |};
              wpc := WIdle; rpc := rp;
              published := pub ++ slice input 0 (n * NS6_CAPTURE_RING_CHANNELS);
              taken := tk; reads := log |}
  | r_begin r wp pub tk log frames :
      0 < frames →
      step {| ring := r; wpc := wp; rpc := RIdle; published := pub; taken := tk; reads := log |}
           {| ring := r; wpc := wp; rpc := RCopy (tail r) (read_frames r frames) 0 [];
              published := pub; taken := tk; reads := log |}
  | r_load r wp pub tk log t n j out :
      j < n * NS6_CAPTURE_RING_CHANNELS →
      step {| ring := r; wpc := wp; rpc := RCopy t n j out; published := pub;
              taken := tk; reads := log |}
           {| ring := r; wpc := wp; rpc := RCopy t n (j + 1) (out ++ [rd (samples r) (cell t j)]);
              published := pub; taken := tk; reads := log |}
  | r_finish r wp pub tk log t n out :
      step {| ring := r; wpc := wp; rpc := RCopy t n (n * NS6_CAPTURE_RING_CHANNELS) out;
              published := pub; taken := tk; reads := log |}
           {| ring := {| samples := samples r; head := head r; tail := t +₆₄ n |};
              wpc := wp; rpc := RIdle; published := pub; taken := tk + n;
              reads := (tk, out) :: log |}
  | c_begin r wp pub tk log :
      step {| ring := r; wpc := wp; rpc := RIdle; published := pub; taken := tk; reads := log |}
           {| ring := r; wpc := wp; rpc := RClear (head r); published := pub; taken := tk;
              reads := log |}
  | c_finish r wp pub tk log h :
      step {| ring := r; wpc := wp; rpc := RClear h; published := pub; taken := tk; reads := log |}
           {| ring := {| samples := samples r; head := head r; tail := h |};
              wpc := wp; rpc := RIdle; published := pub; taken := tk + (h -₆₄ tail r);
              reads := log |}.

Definition start (r : NS6CaptureRing) : system :=
  {| ring := ns6_capture_ring_init r; wpc := WIdle; rpc := RIdle; published := [];
     taken := 0; reads := [] |}.

(** ** The invariant *)

Definition SAMPLES : Z := 16384.

(** Successive reads take disjoint, increasing ranges of frames, the last of them
    ending at [upto], and return the samples published at those positions. *)
Inductive log_ok (pub : list spec_float) : list (Z * list spec_float) → Z → Prop :=
  | log_nil upto : 0 <= upto → log_ok pub [] upto
  | log_cons t out log n upto :
      log_ok pub log t → Z.of_nat (length out) = 2 * n → 0 <= n → t + n <= upto →
      2 * (t + n) <= Z.of_nat (length pub) →
      out = slice pub (2 * t) (2 * n) → log_ok pub ((t, out) :: log) upto.

Record inv (s : system) : Prop := {
  i_len : length (samples (ring s)) = Z.to_nat SAMPLES;
  i_pub : Z.of_nat (length (published s)) mod 2 = 0;
  i_head : head (ring s) = u64 (Z.of_nat (length (published s)) / 2);
  i_tail : tail (ring s) = u64 (taken s);
  i_taken : 0 <= taken s;
  i_order : 2 * taken s <= Z.of_nat (length (published s)) <= 2 * taken s + SAMPLES;
  i_cells : ∀ i, 2 * taken s <= i < Z.of_nat (length (published s)) →
      rd (samples (ring s)) (i mod SAMPLES) = rd (published s) i;
  i_writer : match wpc s with
    | WIdle => True
    | WCopy h n j input =>
        let p := Z.of_nat (length (published s)) in
        h = head (ring s) ∧ 0 <= n ∧ p + 2 * n <= 2 * taken s + SAMPLES ∧
        0 <= j <= 2 * n ∧ 2 * n <= Z.of_nat (length input) ∧
        ∀ k, 0 <= k < j → rd (samples (ring s)) ((p + k) mod SAMPLES) = rd input k
    end;
  i_reader : match rpc s with
    | RIdle => True
    | RClear h => ∃ g, h = u64 g ∧ taken s <= g ∧ 2 * g <= Z.of_nat (length (published s))
    | RCopy t n j out =>
        t = tail (ring s) ∧ 0 <= n ∧ 2 * (taken s + n) <= Z.of_nat (length (published s)) ∧
        0 <= j <= 2 * n ∧ out = slice (published s) (2 * taken s) j
    end;
  i_log : log_ok (published s) (reads s) (taken s)
}.

(** Sample indices wrap at 16384 however the position wraps at 64 bits. *)
Lemma cell_eq p j : 0 <= j → cell (u64 p) j = (2 * p + j) mod SAMPLES.
Proof.
  intros Hj. unfold cell, slot, SAMPLES, u64, NS6_CAPTURE_RING_CAPACITY, NS6_CAPTURE_RING_CHANNELS.
  rewrite Zplus_mod_idemp_l.
  rewrite Z.mod_mod_divide by (exists 2251799813685248; lia).
  Z.div_mod_to_equations; lia.
Qed.

Lemma mod_ne a b : a < b < a + SAMPLES → a mod SAMPLES ≠ b mod SAMPLES.
Proof. unfold SAMPLES. intros. Z.div_mod_to_equations; lia. Qed.

Lemma mod_range a : 0 <= a mod SAMPLES < SAMPLES.
Proof. unfold SAMPLES. Z.div_mod_to_equations; lia. Qed.

Lemma used_eq p t : 0 <= t <= p → p <= t + 8192 → u64 p -₆₄ u64 t = p - t.
Proof.
  intros H1 H2. unfold u64. rewrite Zminus_mod_idemp_l, Zminus_mod_idemp_r.
  apply Z.mod_small. lia.
Qed.

Lemma slice_app_l {A} `{Inhabited A} (l k : list A) off n :
  0 <= off → 0 <= n → off + n <= Z.of_nat (length l) → slice (l ++ k) off n = slice l off n.
Proof.
  intros. unfold slice. rewrite drop_app_le by lia. apply take_app_le.
  rewrite length_drop. lia.
Qed.

Lemma log_ok_nonneg pub log upto : log_ok pub log upto → 0 <= upto.
Proof. induction 1; lia. Qed.

Lemma log_ok_app pub k log upto : log_ok pub log upto → log_ok (pub ++ k) log upto.
Proof.
  induction 1 as [|t out log n upto Hlog IH Hlen Hn Hle Hpub Hout]; [by constructor|].
  apply log_ok_nonneg in Hlog as Ht.
  econstructor; eauto.
  - rewrite length_app. lia.
  - rewrite slice_app_l by lia. done.
Qed.

Lemma log_ok_mono pub log u v : log_ok pub log u → u <= v → log_ok pub log v.
Proof. intros [|]; intros; econstructor; eauto; lia. Qed.

Lemma slice_snoc {A} `{Inhabited A} (l : list A) off n :
  0 <= off → 0 <= n → off + n < Z.of_nat (length l) →
  slice l off n ++ [rd l (off + n)] = slice l off (n + 1).
Proof.
  intros. unfold slice, rd. replace (Z.to_nat (n + 1)) with (S (Z.to_nat n)) by lia.
  destruct (lookup_lt_is_Some_2 l (Z.to_nat (off + n))) as [x Hx]; [lia|].
  rewrite (list_lookup_total_correct _ _ _ Hx). symmetry. apply take_S_r.
  rewrite lookup_drop. rewrite <- Hx. f_equal. lia.
Qed.

Lemma capture_inv_start r : length (samples r) = Z.to_nat SAMPLES → inv (start r).
Proof.
  intros Hl. constructor; cbn [start ring wpc rpc published taken reads length]; try done.
  - cbn. intros i Hi. lia.
  - by constructor.
Qed.

(** Each kind of step preserves the invariant. *)
Lemma inv_w_begin r rp pub tk log input frames :
  head r -₆₄ tail r < NS6_CAPTURE_RING_CAPACITY →
  0 < frames → Z.of_nat (length input) = frames * NS6_CAPTURE_RING_CHANNELS →
  inv {| ring := r; wpc := WIdle; rpc := rp; published := pub; taken := tk; reads := log |} →
  inv {| ring := r; wpc := WCopy (head r) (write_frames r frames) 0 input; rpc := rp;
         published := pub; taken := tk; reads := log |}.
Proof.
  intros Hu Hf Hin [Hlen Hpub Hh Ht Htk Hord Hcell Hw Hr Hlog]; cbn in *.
  constructor; cbn [ring wpc rpc published taken reads samples head tail]; try assumption. unfold write_frames, NS6_CAPTURE_RING_CAPACITY,
    NS6_CAPTURE_RING_CHANNELS, SAMPLES in *.
  rewrite Hh, Ht, used_eq in Hu |- * by (Z.div_mod_to_equations; lia).
  split; [done|]. case_ifs; repeat split; try (intros; lia); Z.div_mod_to_equations; lia.
Qed.

Lemma inv_w_store r rp pub tk log h n j input :
  j < n * NS6_CAPTURE_RING_CHANNELS →
  inv {| ring := r; wpc := WCopy h n j input; rpc := rp; published := pub;
         taken := tk; reads := log |} →
  inv {| ring := {| samples := wr (samples r) (cell h j) (rd input j);
                    head := head r; tail := tail r |};
         wpc := WCopy h n (j + 1) input; rpc := rp; published := pub;
         taken := tk; reads := log |}.
Proof.
  unfold NS6_CAPTURE_RING_CHANNELS.
  intros Hj [Hlen Hpub Hh Ht Htk Hord Hcell Hw Hr Hlog]; cbn in *.
  destruct Hw as (-> & Hn & Hfit & Hjn & Hin & Hdone).
  rewrite Hh, cell_eq by lia.
  replace (2 * (Z.of_nat (length pub) / 2) + j) with (Z.of_nat (length pub) + j)
    by (Z.div_mod_to_equations; lia).
  constructor; cbn [ring wpc rpc published taken reads samples head tail]; try assumption; try reflexivity.
  - by rewrite length_wr.
  - intros i Hi. rewrite rd_wr_ne; [by apply Hcell|apply mod_range..|].
    apply not_eq_sym, mod_ne. lia.
  - split; [done|]. split; [done|]. split; [done|]. split; [lia|]. split; [done|].
    intros k Hk. destruct (decide (k = j)) as [->|].
    + apply rd_wr_eq. rewrite Hlen. pose proof (mod_range (Z.of_nat (length pub) + j)).
      unfold SAMPLES in *. lia.
    + rewrite rd_wr_ne; [apply Hdone; lia|apply mod_range..|]. apply not_eq_sym, mod_ne.
      unfold SAMPLES in *. lia.
Qed.

Lemma inv_w_publish r rp pub tk log h n input :
  inv {| ring := r; wpc := WCopy h n (n * NS6_CAPTURE_RING_CHANNELS) input; rpc := rp;
         published := pub; taken := tk; reads := log |} →
  inv {| ring := {| samples := samples r; head := h +₆₄ n; tail := tail r |};
         wpc := WIdle; rpc := rp;
         published := pub ++ slice input 0 (n * NS6_CAPTURE_RING_CHANNELS);
         taken := tk; reads := log |}.
Proof.
  unfold NS6_CAPTURE_RING_CHANNELS.
  intros [Hlen Hpub Hh Ht Htk Hord Hcell Hw Hr Hlog]; cbn in *.
  destruct Hw as (-> & Hn & Hfit & Hjn & Hin & Hdone).
  assert (Hl : Z.of_nat (length (pub ++ slice input 0 (n * 2))) =
               Z.of_nat (length pub) + 2 * n).
  { rewrite length_app, length_slice by lia. lia. }
  constructor; cbn [ring wpc rpc published taken reads samples head tail]; rewrite ?Hl; try assumption; try lia.
  - Z.div_mod_to_equations; lia.
  - rewrite Hh. unfold u64. rewrite Zplus_mod_idemp_l. f_equal. Z.div_mod_to_equations; lia.
  - intros i Hi. destruct (decide (i < Z.of_nat (length pub))).
    + rewrite Hcell by lia. unfold rd. by rewrite lookup_total_app_l by lia.
    + transitivity (rd input (i - Z.of_nat (length pub))).
      * rewrite <- Hdone by lia. do 2 f_equal. lia.
      * unfold rd. rewrite lookup_total_app_r by lia. unfold slice.
        rewrite drop_0, lookup_total_take_lt by lia. f_equal. lia.
  - destruct rp as [|h'|t m j out]; [done|..].
    + destruct Hr as (g & -> & ? & ?). exists g. split; [done|]. lia.
    + destruct Hr as (? & ? & ? & ? & Hout). repeat split; try assumption; try lia.
      rewrite slice_app_l by lia. done.
  - by apply log_ok_app.
Qed.

Lemma inv_r_begin r wp pub tk log frames :
  0 < frames →
  inv {| ring := r; wpc := wp; rpc := RIdle; published := pub; taken := tk; reads := log |} →
  inv {| ring := r; wpc := wp; rpc := RCopy (tail r) (read_frames r frames) 0 [];
         published := pub; taken := tk; reads := log |}.
Proof.
  intros Hf [Hlen Hpub Hh Ht Htk Hord Hcell Hw Hr Hlog]; cbn in *.
  constructor; cbn [ring wpc rpc published taken reads samples head tail]; try assumption.
  unfold read_frames, SAMPLES in *.
  rewrite Hh, Ht, used_eq by (Z.div_mod_to_equations; lia).
  split; [done|]. case_ifs; repeat split; Z.div_mod_to_equations; lia.
Qed.

Lemma inv_r_load r wp pub tk log t n j out :
  j < n * NS6_CAPTURE_RING_CHANNELS →
  inv {| ring := r; wpc := wp; rpc := RCopy t n j out; published := pub;
         taken := tk; reads := log |} →
  inv {| ring := r; wpc := wp; rpc := RCopy t n (j + 1) (out ++ [rd (samples r) (cell t j)]);
         published := pub; taken := tk; reads := log |}.
Proof.
  unfold NS6_CAPTURE_RING_CHANNELS.
  intros Hj [Hlen Hpub Hh Ht Htk Hord Hcell Hw Hr Hlog]; cbn in *.
  destruct Hr as (-> & Hn & Hfit & Hjn & ->).
  constructor; cbn [ring wpc rpc published taken reads samples head tail]; try assumption.
  repeat split; try lia. rewrite Ht, cell_eq, Hcell by lia. by apply slice_snoc; lia.
Qed.

Lemma inv_r_finish r wp pub tk log t n out :
  inv {| ring := r; wpc := wp; rpc := RCopy t n (n * NS6_CAPTURE_RING_CHANNELS) out;
         published := pub; taken := tk; reads := log |} →
  inv {| ring := {| samples := samples r; head := head r; tail := t +₆₄ n |};
         wpc := wp; rpc := RIdle; published := pub; taken := tk + n;
         reads := (tk, out) :: log |}.
Proof.
  unfold NS6_CAPTURE_RING_CHANNELS.
  intros [Hlen Hpub Hh Ht Htk Hord Hcell Hw Hr Hlog]; cbn in *.
  destruct Hr as (-> & Hn & Hfit & Hjn & ->).
  constructor; cbn [ring wpc rpc published taken reads samples head tail]; try assumption;
    try exact I; try lia.
  - rewrite Ht. unfold u64. by rewrite Zplus_mod_idemp_l.
  - intros i Hi. apply Hcell. lia.
  - destruct wp as [|h m j input]; [done|].
    destruct Hw as (? & ? & ? & ? & ? & ?). repeat split; try assumption; lia.
  - econstructor; [exact Hlog| |exact Hn|lia|lia|f_equal; lia].
    rewrite length_slice by lia. lia.
Qed.

Lemma inv_c_begin r wp pub tk log :
  inv {| ring := r; wpc := wp; rpc := RIdle; published := pub; taken := tk; reads := log |} →
  inv {| ring := r; wpc := wp; rpc := RClear (head r); published := pub; taken := tk;
         reads := log |}.
Proof.
  intros [Hlen Hpub Hh Ht Htk Hord Hcell Hw Hr Hlog]; cbn in *.
  constructor; cbn [ring wpc rpc published taken reads samples head tail]; try assumption.
  exists (Z.of_nat (length pub) / 2). split; [done|]. Z.div_mod_to_equations; lia.
Qed.

Lemma inv_c_finish r wp pub tk log h :
  inv {| ring := r; wpc := wp; rpc := RClear h; published := pub; taken := tk; reads := log |} →
  inv {| ring := {| samples := samples r; head := head r; tail := h |};
         wpc := wp; rpc := RIdle; published := pub; taken := tk + (h -₆₄ tail r);
         reads := log |}.
Proof.
  intros [Hlen Hpub Hh Ht Htk Hord Hcell Hw Hr Hlog]; cbn in *.
  destruct Hr as (g & -> & Hg1 & Hg2).
  rewrite Ht, used_eq by (unfold SAMPLES in *; lia).
  replace (tk + (g - tk)) with g by lia.
  constructor; cbn [ring wpc rpc published taken reads samples head tail]; try assumption;
    try reflexivity; try lia; try exact I.
  - intros i Hi. apply Hcell. lia.
  - destruct wp as [|h' m j input]; [done|].
    destruct Hw as (? & ? & ? & ? & ? & ?). repeat split; try assumption; lia.
  - by apply log_ok_mono with tk.
Qed.

Lemma capture_inv_step s s' : inv s → step s s' → inv s'.
Proof.
  intros Hi Hs. destruct Hs.
  - by apply inv_w_begin.
  - by apply inv_w_store.
  - by apply inv_w_publish.
  - by apply inv_r_begin.
  - by apply inv_r_load.
  - by apply inv_r_finish.
  - by apply inv_c_begin.
  - by apply inv_c_finish.
Qed.

(** C19: in every interleaving of the writing thread with the reading and
    clearing thread, for any number of calls and also when the 64-bit counters
    wrap: every completed read returned exactly the samples published at the
    frames it took, successive reads take disjoint increasing ranges of frames,
    and the ring never holds more than its capacity. *)
Theorem capture_reads_are_fifo r s :
  length (samples r) = Z.to_nat SAMPLES → steps step (start r) s →
  log_ok (published s) (reads s) (taken s) ∧
  head (ring s) -₆₄ tail (ring s) <= NS6_CAPTURE_RING_CAPACITY ∧
  head (ring s) -₆₄ tail (ring s) = Z.of_nat (length (published s)) / 2 - taken s.
Proof.
  intros Hl Hs.
  destruct (steps_invariant _ inv capture_inv_step _ _ (capture_inv_start r Hl) Hs)
    as [_ Hpub Hh Ht Htk Hord _ _ _ Hlog].
  split; [exact Hlog|]. unfold NS6_CAPTURE_RING_CAPACITY, SAMPLES in *.
  rewrite Hh, Ht, used_eq by (Z.div_mod_to_equations; lia). Z.div_mod_to_equations; lia.
Qed.

(** ** The C functions are runs of the threads *)

Lemma cell_frame p f : 0 <= f → cell p (2 * f) = slot p f ∧ cell p (2 * f + 1) = slot p f + 1.
Proof.
  intros. unfold cell, NS6_CAPTURE_RING_CHANNELS.
  replace (2 * f / 2) with f by (Z.div_mod_to_equations; lia).
  replace ((2 * f + 1) / 2) with f by (Z.div_mod_to_equations; lia).
  split; Z.div_mod_to_equations; lia.
Qed.

Definition copy_in (p : Z) (input : list spec_float) (frame : Z) (s : list spec_float)
    : list spec_float :=
  wr (wr s (slot p frame) (rd input (frame * NS6_CAPTURE_RING_CHANNELS)))
     (slot p frame + 1) (rd input (frame * NS6_CAPTURE_RING_CHANNELS + 1)).

Lemma writer_copies rp pub tk log hd tl p n input (k : nat) f s :
  0 <= f → f + Z.of_nat k <= n →
  steps step
    {| ring := {| samples := s; head := hd; tail := tl |}; wpc := WCopy p n (2 * f) input;
       rpc := rp; published := pub; taken := tk; reads := log |}
    {| ring := {| samples := for_loop k f (copy_in p input) s; head := hd; tail := tl |};
       wpc := WCopy p n (2 * (f + Z.of_nat k)) input;
       rpc := rp; published := pub; taken := tk; reads := log |}.
Proof.
  revert f s. induction k as [|k IH]; intros f s Hf Hn.
  - rewrite Z.add_0_r. constructor.
  - destruct (cell_frame p f Hf) as [Hc0 Hc1].
    eapply steps_cons; [apply w_store; unfold NS6_CAPTURE_RING_CHANNELS; lia|].
    eapply steps_cons; [apply w_store; unfold NS6_CAPTURE_RING_CHANNELS; lia|].
    cbn [samples head tail]. rewrite Hc0, Hc1.
    replace (2 * f + 1 + 1) with (2 * (f + 1)) by lia.
    replace (f + Z.of_nat (S k)) with (f + 1 + Z.of_nat k) by lia.
    cbn [for_loop]. unfold copy_in at 2, NS6_CAPTURE_RING_CHANNELS.
    replace (f * 2) with (2 * f) by lia. apply IH; lia.
Qed.

Lemma write_run r rp pub tk log input frames :
  0 < frames → Z.of_nat (length input) = frames * NS6_CAPTURE_RING_CHANNELS →
  let '(n, r') := ns6_capture_ring_write r (Some input) frames in
  steps step
    {| ring := r; wpc := WIdle; rpc := rp; published := pub; taken := tk; reads := log |}
    {| ring := r'; wpc := WIdle; rpc := rp;
       published := pub ++ slice input 0 (n * NS6_CAPTURE_RING_CHANNELS);
       taken := tk; reads := log |}.
Proof.
  intros Hf Hin. unfold ns6_capture_ring_write. replace (frames =? 0) with false by lia.
  destruct (head r -₆₄ tail r >=? NS6_CAPTURE_RING_CAPACITY) eqn:E.
  { unfold slice. rewrite Z.mul_0_l, take_0, app_nil_r. constructor. }
  eapply steps_cons; [apply w_begin; [lia|done|done]|].
  assert (Hn : 0 <= write_frames r frames).
  { unfold write_frames. rewrite E. pose proof (u64_range (head r - tail r)).
    unfold is_u64, NS6_CAPTURE_RING_CAPACITY in *. case_ifs; lia. }
  set (n := write_frames r frames) in *. clearbody n.
  destruct r as [s hd tl]. cbn [samples head tail]. eapply steps_trans.
  - apply (writer_copies rp pub tk log hd tl hd n input (Z.to_nat n) 0 s); lia.
  - rewrite Z2Nat.id by lia. cbn [head tail samples].
    replace (2 * (0 + n)) with (n * NS6_CAPTURE_RING_CHANNELS)
      by (unfold NS6_CAPTURE_RING_CHANNELS; lia).
    eapply steps_cons; [apply w_publish|]. constructor.
Qed.

(** Storing pairs [g (2 f), g (2 f + 1)] from frame [f] on fills the buffer in order. *)
Definition pairs (g : Z → spec_float) (f : Z) (k : nat) : list spec_float :=
  concat (map (λ i, [g (2 * (f + Z.of_nat i)); g (2 * (f + Z.of_nat i) + 1)]) (seq 0 k)).

Lemma pairs_snoc g f k :
  pairs g f (S k) = pairs g f k ++ [g (2 * (f + Z.of_nat k)); g (2 * (f + Z.of_nat k) + 1)].
Proof. unfold pairs. rewrite seq_S, map_app, concat_app. done. Qed.

Lemma length_pairs g f k : length (pairs g f k) = (2 * k)%nat.
Proof.
  induction k as [|k IH]; [done|]. rewrite pairs_snoc, length_app, IH. cbn [length]. lia.
Qed.

Lemma fill_pairs (body : Z → list spec_float → list spec_float) g f k A B :
  (∀ i o, 0 <= i → body i o = wr (wr o (i * 2) (g (2 * i))) (i * 2 + 1) (g (2 * i + 1))) →
  0 <= f → Z.of_nat (length A) = 2 * f → (2 * k <= length B)%nat →
  for_loop k f body (A ++ B) = A ++ pairs g f k ++ drop (2 * k) B.
Proof.
  intros Hbody Hf HA. induction k as [|k IH]; intros HB; [done|].
  rewrite for_loop_snoc, IH by lia. rewrite Hbody, pairs_snoc by lia.
  assert (∃ x y C, drop (2 * k)%nat B = x :: y :: C ∧ drop (2 * S k)%nat B = C) as (x & y & C & E1 & E2).
  { pose proof (length_drop B (2 * k)%nat) as Hd. replace (2 * S k)%nat with (2 * k + 2)%nat by lia.
    rewrite <- drop_drop. destruct (drop (2 * k)%nat B) as [|x [|y C]]; cbn in Hd; try lia.
    by exists x, y, C. }
  rewrite E1, E2, !app_assoc. unfold wr.
  set (g0 := g _). set (g1 := g _).
  assert (length (A ++ pairs g f k) = Z.to_nat ((f + Z.of_nat k) * 2)) as Hl
    by (rewrite length_app, length_pairs; lia).
  rewrite <- Hl. rewrite insert_app_r_alt, Nat.sub_diag by lia. cbn [insert list_insert].
  rewrite insert_app_r_alt by lia.
  replace (Z.to_nat _ - _)%nat with 1%nat by lia. cbn. by rewrite <- !app_assoc.
Qed.

Lemma pairs_const c f k m : m = (2 * k)%nat → pairs (λ _, c) f k = replicate m c.
Proof.
  intros ->. induction k as [|k IH]; [done|]. rewrite pairs_snoc, IH.
  replace (2 * S k)%nat with (2 * k + 2)%nat by lia. by rewrite replicate_add.
Qed.

Lemma reader_loads r wp pub tk log p n (k : nat) f out :
  0 <= f → f + Z.of_nat k <= n →
  steps step
    {| ring := r; wpc := wp; rpc := RCopy p n (2 * f) out; published := pub;
       taken := tk; reads := log |}
    {| ring := r; wpc := wp;
       rpc := RCopy p n (2 * (f + Z.of_nat k)) (out ++ pairs (λ j, rd (samples r) (cell p j)) f k);
       published := pub; taken := tk; reads := log |}.
Proof.
  intros Hf. induction k as [|k IH]; intros Hn.
  - rewrite Z.add_0_r. cbn. rewrite app_nil_r. constructor.
  - eapply steps_trans; [apply IH; lia|].
    eapply steps_cons; [apply r_load; unfold NS6_CAPTURE_RING_CHANNELS; lia|].
    eapply steps_cons; [apply r_load; unfold NS6_CAPTURE_RING_CHANNELS; lia|].
    rewrite pairs_snoc, <- !app_assoc. cbn [app].
    replace (2 * (f + Z.of_nat k) + 1 + 1) with (2 * (f + Z.of_nat (S k))) by lia.
    constructor.
Qed.

Lemma read_run r wp pub tk log buf frames :
  0 < frames → Z.of_nat (length buf) = frames * NS6_CAPTURE_RING_CHANNELS →
  let '(n, r', o) := ns6_capture_ring_read r (Some buf) frames in
  ∃ out, o = Some (out ++ replicate (Z.to_nat (2 * (frames - n))) (S754_zero false)) ∧
  steps step
    {| ring := r; wpc := wp; rpc := RIdle; published := pub; taken := tk; reads := log |}
    {| ring := r'; wpc := wp; rpc := RIdle; published := pub; taken := tk + n;
       reads := (tk, out) :: log |}.
Proof.
  unfold NS6_CAPTURE_RING_CHANNELS. intros Hf Hbuf. unfold ns6_capture_ring_read.
  replace (frames =? 0) with false by lia. unfold NS6_CAPTURE_RING_CHANNELS.
  assert (Hn : 0 <= read_frames r frames <= frames).
  { unfold read_frames. pose proof (u64_range (head r - tail r)). unfold is_u64 in *.
    case_ifs; lia. }
  pose proof (λ f, r_begin r wp pub tk log f) as Hbegin. specialize (Hbegin frames Hf).
  set (n := read_frames r frames) in *. clearbody n.
  set (g := λ j, rd (samples r) (cell (tail r) j)).
  exists (pairs g 0 (Z.to_nat n)). split.
  - f_equal. rewrite <- (app_nil_l buf).
    rewrite (fill_pairs _ g 0 (Z.to_nat n) [] buf); [|intros i o Hi|lia|done|lia].
    2:{ destruct (cell_frame (tail r) i Hi) as [E0 E1]. unfold g. by rewrite E0, E1. }
    cbn [app]. rewrite (fill_pairs _ (λ _, S754_zero false) n); [|done|lia| |].
    + f_equal. rewrite drop_drop, drop_ge by lia. rewrite app_nil_r. apply pairs_const. lia.
    + rewrite length_pairs. lia.
    + rewrite length_drop. lia.
  - eapply steps_cons; [exact Hbegin|]. eapply steps_trans.
    + apply (reader_loads r wp pub tk log (tail r) n (Z.to_nat n) 0 []); lia.
    + rewrite Z2Nat.id by lia. cbn [app].
      replace (2 * (0 + n)) with (n * NS6_CAPTURE_RING_CHANNELS)
        by (unfold NS6_CAPTURE_RING_CHANNELS; lia).
      eapply steps_cons; [apply r_finish|]. constructor.
Qed.

(** [ns6_capture_ring_write] and [ns6_capture_ring_read] are the two threads
    run to completion: from any state in which the thread is idle, its accesses
    lead to exactly the ring the function computes.  A write publishes the frames
    it reports as accepted; a read fills its buffer with the samples it logs,
    followed by silence. *)
Theorem calls_are_thread_runs r wp rp pub tk log input buf frames :
  0 < frames →
  Z.of_nat (length input) = frames * NS6_CAPTURE_RING_CHANNELS →
  Z.of_nat (length buf) = frames * NS6_CAPTURE_RING_CHANNELS →
  (let '(n, r') := ns6_capture_ring_write r (Some input) frames in
   steps step
     {| ring := r; wpc := WIdle; rpc := rp; published := pub; taken := tk; reads := log |}
     {| ring := r'; wpc := WIdle; rpc := rp;
        published := pub ++ slice input 0 (n * NS6_CAPTURE_RING_CHANNELS);
        taken := tk; reads := log |}) ∧
  (let '(n, r', o) := ns6_capture_ring_read r (Some buf) frames in
   ∃ out, o = Some (out ++ replicate (Z.to_nat (2 * (frames - n))) (S754_zero false)) ∧
   steps step
     {| ring := r; wpc := wp; rpc := RIdle; published := pub; taken := tk; reads := log |}
     {| ring := r'; wpc := wp; rpc := RIdle; published := pub; taken := tk + n;
        reads := (tk, out) :: log |}).
Proof. intros. split; [by apply write_run|by apply read_run]. Qed.

Definition empty_ring : NS6CaptureRing :=
  {| samples := replicate (Z.to_nat SAMPLES) (S754_zero false); head := 0; tail := 0 |}.

Lemma empty_ring_length : length (samples empty_ring) = Z.to_nat SAMPLES.
Proof. apply length_replicate. Qed.

#[local] Opaque replicate.

(** One frame through an empty ring. *)
Definition one_frame : list spec_float := [S754_finite false 1 0; S754_finite true 3 (-1)].

Lemma calls_are_thread_runs_witness :
  ∃ s, steps step (start empty_ring) s ∧ published s = one_frame ∧ wpc s = WIdle.
Proof.
  eexists. split; [|split].
  - exact (proj1 (calls_are_thread_runs (ns6_capture_ring_init empty_ring) WIdle RIdle [] 0 []
      one_frame one_frame 1 eq_refl eq_refl eq_refl)).
  - reflexivity.
  - reflexivity.
Defined.

(** It is written, and read back. *)
Lemma one_frame_run :
  ∃ s, steps step (start empty_ring) s ∧ published s = one_frame ∧ reads s = [(0, one_frame)] ∧ taken s = 1.
Proof.
  pose proof (write_run (ns6_capture_ring_init empty_ring) RIdle [] 0 [] one_frame 1 eq_refl eq_refl) as Hw.
  destruct (ns6_capture_ring_write (ns6_capture_ring_init empty_ring) (Some one_frame) 1) as [n r] eqn:Ew.
  assert (n = 1) as -> by (apply (f_equal fst) in Ew; vm_compute in Ew; by symmetry).
  pose proof (read_run r WIdle one_frame 0 [] one_frame 1 eq_refl eq_refl) as Hr.
  assert ((ns6_capture_ring_read r (Some one_frame) 1).1.1 = 1 ∧ (ns6_capture_ring_read r (Some one_frame) 1).2 = Some one_frame)
    as [E1 E2] by (apply (f_equal snd) in Ew; cbn [snd] in Ew; subst r; clear; vm_compute; by split).
  destruct (ns6_capture_ring_read r (Some one_frame) 1) as [[m r'] o]. cbn [fst snd] in E1, E2. subst m o.
  destruct Hr as (out & Eo & Hr). rewrite app_nil_r in Eo. injection Eo as <-.
  eexists. split; [exact (steps_trans _ _ _ _ Hw Hr)|done].
Qed.

Lemma capture_reads_are_fifo_witness :
  ∃ s, steps step (start empty_ring) s ∧ reads s = [(0, one_frame)] ∧
       log_ok (published s) (reads s) (taken s).
Proof.
  destruct one_frame_run as (s & Hs & _ & Hr & _). exists s. split; [exact Hs|]. split; [exact Hr|].
  apply (capture_reads_are_fifo empty_ring); [apply empty_ring_length|exact Hs].
Defined.
