(* ===== verification/DeviceSession.v ===== *)
(** * Device sessions and the owner flag (NS6DeviceSession.h, NS6DeviceOwner.h)

    A session id tells an I/O callback whether the mapping it holds still belongs
    to the running service.  The C functions come first; [begin] takes the values
    its successive loads of the in-flight counter return, since other threads
    change it while [begin] spins.  Then any number of callback threads is
    interleaved with the thread that begins sessions, one atomic access per step,
    in the order of a single total order of these accesses. *)

From stdpp Require Import base list numbers tactics.
From Stdlib Require Import ZArith Lia ZifyBool.
From S2P Require Import Prelude.

Record NS6DeviceSession := { active_id : Z; callbacks_in_flight : Z }.

Definition ns6_device_session_init : NS6DeviceSession :=
  {| active_id := 0; callbacks_in_flight := 0 |}.

Definition set_active (s : NS6DeviceSession) (id : Z) : NS6DeviceSession :=
  {| active_id := id; callbacks_in_flight := callbacks_in_flight s |}.

Definition add_in_flight (s : NS6DeviceSession) (n : Z) : NS6DeviceSession :=
  {| active_id := active_id s; callbacks_in_flight := u32 (callbacks_in_flight s + n) |}.

Definition ATTEMPTS : Z := 100000.

(** The spinning loop: the first attempt that loads zero, if any. *)
Fixpoint drained (fuel : nat) (attempt : Z) (load : Z → Z) : bool :=
  match fuel with
  | O => false
  | S fuel' => if load attempt =? 0 then true else drained fuel' (attempt + 1) load
  end.

Definition ns6_device_session_begin (session : option NS6DeviceSession) (id : Z) (load : Z → Z)
    : bool * option NS6DeviceSession :=
  match session with
  | None => (false, None)
  | Some s =>
      if id =? 0 then (false, session)
      else
        let previous := active_id s in
        if drained (Z.to_nat ATTEMPTS) 0 load then (true, Some (set_active s id))
        else (false, Some (set_active s previous))
  end.

Definition ns6_device_session_is_current (session : option NS6DeviceSession) (id : Z) : bool :=
  match session with
  | None => false
  | Some s => negb (id =? 0) && (active_id s =? id)
  end.

Definition ns6_device_session_io_begin (session : option NS6DeviceSession) (id : Z)
    : bool * option NS6DeviceSession :=
  match session with
  | None => (false, None)
  | Some s =>
      if id =? 0 then (false, session)
      else
        let s := add_in_flight s 1 in
        if ns6_device_session_is_current (Some s) id then (true, Some s)
        else (false, Some (add_in_flight s (-1)))
  end.

Definition ns6_device_session_io_end (session : option NS6DeviceSession)
    : option NS6DeviceSession :=
  option_map (λ s, add_in_flight s (-1)) session.

(** ** The owner flag *)

Record NS6DeviceOwner := { claimed : bool }.

Definition ns6_device_owner_init : NS6DeviceOwner := {| claimed := false |}.

Definition ns6_device_owner_claim (owner : option NS6DeviceOwner)
    : bool * option NS6DeviceOwner :=
  match owner with
  | None => (false, None)
  | Some o => if claimed o then (false, owner) else (true, Some {| claimed := true |})
  end.

Definition ns6_device_owner_release (owner : option NS6DeviceOwner) : option NS6DeviceOwner :=
  option_map (λ _, {| claimed := false |}) owner.

Definition ns6_device_owner_is_claimed (owner : option NS6DeviceOwner) : bool :=
  from_option claimed false owner.

(** ** Interleaving *)

(** A callback thread in [io_begin]: after the increment, after a failed test, or
    past it (performing I/O under session [id]). *)
Inductive callback_pc :=
  | COut
  | CCounted (id : Z)
  | CRejected
  | CInside (id : Z).

(** The thread in [begin]: spinning with the previous id, or about to store the
    new one after loading zero. *)
Inductive begin_pc :=
  | BOut
  | BWait (previous id attempt : Z)
  | BStore (id : Z).

Record system := {
  session : NS6DeviceSession;
  callbacks : list callback_pc;
  beginner : begin_pc
}.

Inductive step : system → system → Prop :=
  | io_count s cs b i id :
      cs !! i = Some COut → id ≠ 0 →
      step {| session := s; callbacks := cs; beginner := b |}
           {| session := add_in_flight s 1; callbacks := <[i := CCounted id]> cs; beginner := b |}
  | io_test s cs b i id :
      cs !! i = Some (CCounted id) →
      step {| session := s; callbacks := cs; beginner := b |}
           {| session := s;
              callbacks := <[i := if ns6_device_session_is_current (Some s) id
                                  then CInside id else CRejected]> cs;
              beginner := b |}
  | io_undo s cs b i :
      cs !! i = Some CRejected →
      step {| session := s; callbacks := cs; beginner := b |}
           {| session := add_in_flight s (-1); callbacks := <[i := COut]> cs; beginner := b |}
  | io_end s cs b i id :
      cs !! i = Some (CInside id) →
      step {| session := s; callbacks := cs; beginner := b |}
           {| session := add_in_flight s (-1); callbacks := <[i := COut]> cs; beginner := b |}
  | begin_exchange s cs id :
      id ≠ 0 →
      step {| session := s; callbacks := cs; beginner := BOut |}
           {| session := set_active s 0; callbacks := cs;
              beginner := BWait (active_id s) id 0 |}
  | begin_load_zero s cs previous id attempt :
      attempt < ATTEMPTS → callbacks_in_flight s = 0 →
      step {| session := s; callbacks := cs; beginner := BWait previous id attempt |}
           {| session := s; callbacks := cs; beginner := BStore id |}
  | begin_load_nonzero s cs previous id attempt :
      attempt < ATTEMPTS → callbacks_in_flight s ≠ 0 →
      step {| session := s; callbacks := cs; beginner := BWait previous id attempt |}
           {| session := s; callbacks := cs; beginner := BWait previous id (attempt + 1) |}
  | begin_store s cs id :
      step {| session := s; callbacks := cs; beginner := BStore id |}
           {| session := set_active s id; callbacks := cs; beginner := BOut |}
  | begin_give_up s cs previous id :
      step {| session := s; callbacks := cs; beginner := BWait previous id ATTEMPTS |}
           {| session := set_active s previous; callbacks := cs; beginner := BOut |}.

Definition start (n : nat) : system :=
  {| session := ns6_device_session_init; callbacks := replicate n COut; beginner := BOut |}.

(** ** The invariant *)

Definition busy (c : callback_pc) : Z := match c with COut => 0 | _ => 1 end.
Definition busy_count (cs : list callback_pc) : Z := foldr (λ c n, busy c + n) 0 cs.

(** Every thread performing I/O does so under session [id]. *)
Definition inside_only (id : Z) (cs : list callback_pc) : Prop :=
  ∀ i id', cs !! i = Some (CInside id') → id' = id.

Record inv (n : nat) (s : system) : Prop := {
  i_threads : length (callbacks s) = n;
  i_count : callbacks_in_flight (session s) = busy_count (callbacks s);
  i_nonzero : ∀ i id, callbacks s !! i = Some (CInside id) → id ≠ 0;
  i_phase : match beginner s with
    | BOut => inside_only (active_id (session s)) (callbacks s)
    | BWait previous _ _ => active_id (session s) = 0 ∧ inside_only previous (callbacks s)
    | BStore _ => active_id (session s) = 0 ∧ ∀ id, inside_only id (callbacks s)
    end
}.

Lemma busy_count_cons c cs : busy_count (c :: cs) = busy c + busy_count cs.
Proof. done. Qed.

Lemma busy_count_insert cs i c d :
  cs !! i = Some c → busy_count (<[i := d]> cs) = busy_count cs - busy c + busy d.
Proof.
  revert i. induction cs as [|x cs IH]; intros [|i] Hi; try done.
  - injection Hi as ->. change (<[0%nat := d]> (c :: cs)) with (d :: cs).
    rewrite !busy_count_cons. lia.
  - change (<[S i := d]> (x :: cs)) with (x :: <[i := d]> cs).
    rewrite !busy_count_cons, IH by done. lia.
Qed.

Lemma busy_count_bound cs : 0 <= busy_count cs <= Z.of_nat (length cs).
Proof.
  induction cs as [|c cs IH]; [done|]. rewrite busy_count_cons. cbn [length].
  destruct c; cbn [busy]; lia.
Qed.

Lemma busy_count_lookup cs i c : cs !! i = Some c → busy c <= busy_count cs.
Proof.
  intros Hi. pose proof (busy_count_insert cs i c COut Hi).
  pose proof (busy_count_bound (<[i:=COut]> cs)). cbn in *. lia.
Qed.

Lemma inside_only_insert id cs i c :
  inside_only id cs → (∀ id', c = CInside id' → id' = id) → inside_only id (<[i := c]> cs).
Proof.
  intros H Hc j id' Hj. destruct (decide (i = j)) as [<-|].
  - apply Hc. destruct (decide (i < length cs)%nat).
    + rewrite list_lookup_insert_eq in Hj by done. by injection Hj.
    + rewrite lookup_ge_None_2 in Hj; [done|]. rewrite length_insert. lia.
  - rewrite list_lookup_insert_ne in Hj by done. by eapply H.
Qed.

Lemma nonzero_insert (cs : list callback_pc) (i : nat) c :
  (∀ j id, cs !! j = Some (CInside id) → id ≠ 0) → (∀ id, c = CInside id → id ≠ 0) →
  ∀ j id, <[i := c]> cs !! j = Some (CInside id) → id ≠ 0.
Proof.
  intros H Hc j id Hj. destruct (decide (i = j)) as [<-|].
  - destruct (decide (i < length cs)%nat).
    + rewrite list_lookup_insert_eq in Hj by done. injection Hj as Hj. eauto.
    + rewrite lookup_ge_None_2 in Hj; [done|]. rewrite length_insert. lia.
  - rewrite list_lookup_insert_ne in Hj by done. eauto.
Qed.

(** A callback that is not performing I/O may change freely between the states
    that are not, with the counter following. *)
Lemma inv_callback n s s' cs b i c d :
  Z.of_nat n < 4294967296 → cs !! i = Some c → (∀ id, d ≠ CInside id) →
  active_id s' = active_id s →
  callbacks_in_flight s' = u32 (callbacks_in_flight s + (busy d - busy c)) →
  inv n {| session := s; callbacks := cs; beginner := b |} →
  inv n {| session := s'; callbacks := <[i := d]> cs; beginner := b |}.
Proof.
  intros Hn Hi Hd Ha Hf [Ht Hc Hz Hp]; cbn [session callbacks beginner] in *.
  constructor; cbn [session callbacks beginner].
  - by rewrite length_insert.
  - pose proof (busy_count_insert cs i c d Hi) as Hb.
    pose proof (busy_count_bound (<[i := d]> cs)) as Hbound. rewrite length_insert in Hbound.
    rewrite Hf, Hc, u32_id; unfold is_u32; lia.
  - apply nonzero_insert; [done|]. intros id ->. by destruct (Hd id).
  - assert (∀ id, inside_only id cs → inside_only id (<[i := d]> cs)) as Hins.
    { intros id Hid. apply inside_only_insert; [done|]. intros id' ->. by destruct (Hd id'). }
    rewrite Ha. destruct b; [auto|destruct Hp; auto..].
Qed.

Lemma inv_io_test n s cs b i id :
  cs !! i = Some (CCounted id) →
  inv n {| session := s; callbacks := cs; beginner := b |} →
  inv n {| session := s;
           callbacks := <[i := if ns6_device_session_is_current (Some s) id
                               then CInside id else CRejected]> cs;
           beginner := b |}.
Proof.
  intros Hi [Ht Hc Hz Hp]; cbn [session callbacks beginner] in *.
  assert (Hb : busy_count (<[i := if ns6_device_session_is_current (Some s) id
                               then CInside id else CRejected]> cs) = busy_count cs).
  { rewrite (busy_count_insert _ _ _ _ Hi). case_if; cbn; lia. }
  unfold ns6_device_session_is_current in *.
  constructor; cbn [session callbacks beginner]; [by rewrite length_insert|by rewrite Hb|..].
  - apply nonzero_insert; [done|]. intros id'. case_if; intros [=<-]. lia.
  - destruct b as [|previous id' attempt|id'].
    + apply inside_only_insert; [done|]. intros id'. case_if; intros [=<-]. lia.
    + destruct Hp as [H0 Hp]. split; [done|]. apply inside_only_insert; [done|].
      intros id''. case_if; intros [=<-]. lia.
    + destruct Hp as [H0 Hp]. split; [done|]. intros id''. apply inside_only_insert; [done|].
      intros id'''. case_if; intros [=<-]. lia.
Qed.

Lemma inv_begin n s s' cs b b' :
  callbacks_in_flight s' = callbacks_in_flight s →
  (match b with
    | BOut => inside_only (active_id s) cs
    | BWait previous _ _ => active_id s = 0 ∧ inside_only previous cs
    | BStore _ => active_id s = 0 ∧ ∀ id, inside_only id cs
   end →
   match b' with
    | BOut => inside_only (active_id s') cs
    | BWait previous _ _ => active_id s' = 0 ∧ inside_only previous cs
    | BStore _ => active_id s' = 0 ∧ ∀ id, inside_only id cs
   end) →
  inv n {| session := s; callbacks := cs; beginner := b |} →
  inv n {| session := s'; callbacks := cs; beginner := b' |}.
Proof. intros Hf H [Ht Hc Hz Hp]; constructor; cbn in *; [done|congruence|done|by apply H]. Qed.

(** Nobody performs I/O while the counter is zero. *)
Lemma drained_inside n s cs b id :
  inv n {| session := s; callbacks := cs; beginner := b |} →
  callbacks_in_flight s = 0 → inside_only id cs.
Proof.
  intros [_ Hc _ _] H0 i id' Hi. cbn [session callbacks] in Hc.
  pose proof (busy_count_lookup cs i _ Hi) as Hb. cbn [busy] in Hb. lia.
Qed.

Lemma session_inv_step n s s' : Z.of_nat n < 4294967296 → inv n s → step s s' → inv n s'.
Proof.
  intros Hn Hinv Hs. destruct Hs.
  - eapply inv_callback; [exact Hn|eassumption|done| | |exact Hinv]; done.
  - by apply inv_io_test.
  - eapply inv_callback; [exact Hn|eassumption|done| | |exact Hinv]; done.
  - eapply inv_callback; [exact Hn|eassumption|done| | |exact Hinv]; done.
  - revert Hinv. by apply inv_begin.
  - pose proof (λ id, drained_inside _ _ _ _ id Hinv H0) as Hd.
    revert Hinv. apply inv_begin; [done|]. by intros [? _].
  - revert Hinv. by apply inv_begin.
  - revert Hinv. apply inv_begin; [done|]. by intros [_ H].
  - revert Hinv. apply inv_begin; [done|]. by intros [_ H].
Qed.

Lemma session_inv_start n : inv n (start n).
Proof.
  constructor; cbn [start session callbacks beginner].
  - apply length_replicate.
  - cbn. induction n as [|n IH]; [done|]. cbn [replicate]. by rewrite busy_count_cons, <- IH.
  - intros i id Hi. apply lookup_replicate in Hi as [? _]. done.
  - intros i id Hi. apply lookup_replicate in Hi as [? _]. done.
Qed.

(** C20: when the atomic operations take effect in one order (sequential consistency; the source asks
    for acquire and release only), with any number of callback threads racing [begin], whenever no [begin]
    is in progress every thread performing I/O does so under the active session:
    once a new session has begun no callback of an older one is left inside.  The
    in-flight counter is the number of threads past their increment. *)
Theorem callbacks_belong_to_active_session n s :
  Z.of_nat n < 4294967296 → steps step (start n) s →
  callbacks_in_flight (session s) = busy_count (callbacks s) ∧
  ∀ i id, callbacks s !! i = Some (CInside id) →
    id ≠ 0 ∧ (beginner s = BOut → active_id (session s) = id) ∧
    (∀ new, beginner s ≠ BStore new).
Proof.
  intros Hn Hs.
  destruct (steps_invariant _ (inv n) (λ s s' H, session_inv_step n s s' Hn H) _ _ (session_inv_start n) Hs)
    as [_ Hc Hz Hp].
  split; [exact Hc|]. intros i id Hi. split; [by eapply Hz|]. split.
  - intros E. rewrite E in Hp. symmetry. by eapply Hp.
  - intros new E. rewrite E in Hp. destruct Hp as [_ Hp].
    pose proof (Hp 0 i id Hi). pose proof (Hp 1 i id Hi). lia.
Qed.

(** One callback inside session 7 while nothing else runs. *)
Definition inside_seven : system :=
  {| session := {| active_id := 7; callbacks_in_flight := 1 |};
     callbacks := [CInside 7; COut]; beginner := BOut |}.

Lemma inside_seven_reachable : steps step (start 2) inside_seven.
Proof.
  eapply steps_cons; [apply (begin_exchange _ _ 7); lia|].
  eapply steps_cons; [apply begin_load_zero; done|].
  eapply steps_cons; [apply begin_store|].
  eapply steps_cons; [apply (io_count _ _ _ 0 7); [reflexivity|lia]|].
  eapply steps_cons; [apply (io_test _ _ _ 0 7); reflexivity|].
  constructor.
Qed.

Lemma callbacks_belong_to_active_session_witness :
  active_id (session inside_seven) = 7.
Proof.
  apply (proj2 (callbacks_belong_to_active_session 2 inside_seven eq_refl
    inside_seven_reachable) 0%nat 7 eq_refl). reflexivity.
Defined.

(** ** The functions *)

Lemma drained_spec fuel attempt load :
  drained fuel attempt load = true ↔
  ∃ k, attempt <= k < attempt + Z.of_nat fuel ∧ load k = 0.
Proof.
  revert attempt. induction fuel as [|fuel IH]; intros attempt; cbn [drained].
  - split; [done|]. intros (k & Hk & _). lia.
  - destruct (load attempt =? 0) eqn:E.
    + split; [|done]. intros _. exists attempt. lia.
    + rewrite IH. split; intros (k & Hk & Hl); exists k; (split; [|done]);
        [lia|]. destruct (decide (k = attempt)) as [->|]; lia.
Qed.

(** C21: [begin] always returns, after at most 100000 loads: it succeeds exactly
    when one of them sees no callback in flight, and otherwise restores the
    previous session, which then still is the current one. *)
Theorem begin_succeeds_iff_drained s id load :
  id ≠ 0 →
  let '(ok, s') := ns6_device_session_begin (Some s) id load in
  (ok = true ↔ ∃ k, 0 <= k < ATTEMPTS ∧ load k = 0) ∧
  (ok = true → ns6_device_session_is_current s' id = true) ∧
  (ok = false → s' = Some s).
Proof.
  intros Hid. unfold ns6_device_session_begin. replace (id =? 0) with false by lia.
  pose proof (drained_spec (Z.to_nat ATTEMPTS) 0 load) as Hd.
  rewrite Z2Nat.id in Hd by (unfold ATTEMPTS; lia).
  destruct (drained _ _ _); (split; [exact Hd|]; split; [|]; try done).
  - intros _. cbn. lia.
  - intros _. by destruct s.
Qed.

Lemma begin_succeeds_iff_drained_witness :
  fst (ns6_device_session_begin (Some ns6_device_session_init) 9
         (λ k, if k =? 3 then 0 else 1)) = true.
Proof.
  pose proof (begin_succeeds_iff_drained ns6_device_session_init 9 (λ k, if k =? 3 then 0 else 1)
    ltac:(lia)) as H.
  destruct (ns6_device_session_begin _ _ _) as [ok s']. apply (proj1 H).
  exists 3. split; [unfold ATTEMPTS; lia|reflexivity].
Defined.
