(* ===== verification/HALMapping.v ===== *)
(** * Leases on the shared mapping (NS6HALMapping.h)

    Realtime callbacks take a lease on the mapped memory by counting themselves as
    readers; the owner withdraws the mapping before it unmaps the memory.  The C
    functions come first, [withdraw] with the values its successive loads of the
    reader count return.  Then any number of readers is interleaved with the
    owner, one atomic access per step.  The machine has a switch: with [fenced]
    the accesses take effect in program order, without it the owner's release
    store may still be pending when it loads the reader count, which the memory
    orders of the source allow. *)

From stdpp Require Import base list numbers tactics.
From Stdlib Require Import ZArith Lia ZifyBool.
From S2P Require Import Prelude.

(** A pointer is a nonzero address; [NULL] is 0. *)
Record NS6HALMapping := { memory : Z; session_id : Z; readers : Z }.
Record NS6HALMappingLease := { lease_memory : Z; lease_session_id : Z }.

Definition ns6_hal_mapping_init : NS6HALMapping :=
  {| memory := 0; session_id := 0; readers := 0 |}.

Definition add_readers (m : NS6HALMapping) (n : Z) : NS6HALMapping :=
  {| memory := memory m; session_id := session_id m; readers := u32 (readers m + n) |}.
Definition set_memory (m : NS6HALMapping) (p : Z) : NS6HALMapping :=
  {| memory := p; session_id := session_id m; readers := readers m |}.
Definition set_session (m : NS6HALMapping) (id : Z) : NS6HALMapping :=
  {| memory := memory m; session_id := id; readers := readers m |}.

(** The lease, when there is one, and the mapping. *)
Definition ns6_hal_mapping_acquire (mapping : NS6HALMapping)
    : option NS6HALMappingLease * NS6HALMapping :=
  let m := add_readers mapping 1 in
  let p := memory m in
  if p =? 0 then (None, add_readers m (-1))
  else (Some {| lease_memory := p; lease_session_id := session_id m |}, m).

Definition ns6_hal_mapping_release (mapping : NS6HALMapping) : NS6HALMapping :=
  add_readers mapping (-1).

(** The waiting loop needs as many rounds as the loads before the first zero;
    [None] when [fuel] loads saw none. *)
Fixpoint ns6_hal_mapping_withdraw (fuel : nat) (mapping : NS6HALMapping) (load : nat → Z)
    : option NS6HALMapping :=
  match fuel with
  | O => None
  | S fuel' =>
      if load O =? 0 then Some (set_memory mapping 0)
      else ns6_hal_mapping_withdraw fuel' mapping (λ k, load (S k))
  end.

Definition ns6_hal_mapping_publish (mapping : NS6HALMapping) (p id : Z) : NS6HALMapping :=
  set_memory (set_session mapping id) p.

(** ** Interleaving *)

(** A reader in [acquire]: counted, loaded a null pointer, loaded a pointer,
    or holding the lease. *)
Inductive reader_pc :=
  | ROut
  | RCounted
  | RRejected
  | RLoaded (p : Z)
  | RHolds (lease : NS6HALMappingLease).

(** The owner: nothing published; published; waiting in [withdraw]; between the
    two stores of [publish].  [OWithdrawn] is after [withdraw] returned, when the
    owner may unmap the memory. *)
Inductive owner_pc :=
  | OWithdrawn
  | OPublishing (p : Z)
  | OPublished
  | OWaiting.

(** [pending] is a store of [NULL] to [memory] not yet visible to the readers. *)
Record system := {
  mapping : NS6HALMapping;
  pending : bool;
  threads : list reader_pc;
  owner : owner_pc
}.

Inductive step (fenced : bool) : system → system → Prop :=
  | acquire_count m b rs o i :
      rs !! i = Some ROut →
      step fenced {| mapping := m; pending := b; threads := rs; owner := o |}
        {| mapping := add_readers m 1; pending := b; threads := <[i := RCounted]> rs; owner := o |}
  | acquire_load m b rs o i :
      rs !! i = Some RCounted →
      step fenced {| mapping := m; pending := b; threads := rs; owner := o |}
        {| mapping := m; pending := b;
           threads := <[i := if memory m =? 0 then RRejected else RLoaded (memory m)]> rs;
           owner := o |}
  | acquire_session m b rs o i p :
      rs !! i = Some (RLoaded p) →
      step fenced {| mapping := m; pending := b; threads := rs; owner := o |}
        {| mapping := m; pending := b;
           threads := <[i := RHolds {| lease_memory := p; lease_session_id := session_id m |}]> rs;
           owner := o |}
  | acquire_undo m b rs o i :
      rs !! i = Some RRejected →
      step fenced {| mapping := m; pending := b; threads := rs; owner := o |}
        {| mapping := add_readers m (-1); pending := b; threads := <[i := ROut]> rs; owner := o |}
  | release m b rs o i lease :
      rs !! i = Some (RHolds lease) →
      step fenced {| mapping := m; pending := b; threads := rs; owner := o |}
        {| mapping := add_readers m (-1); pending := b; threads := <[i := ROut]> rs; owner := o |}
  | withdraw_store m rs o :
      o = OPublished ∨ o = OWithdrawn →
      step fenced {| mapping := m; pending := false; threads := rs; owner := o |}
        {| mapping := if fenced then set_memory m 0 else m; pending := negb fenced;
           threads := rs; owner := OWaiting |}
  | withdraw_flush m rs o :
      step fenced {| mapping := m; pending := true; threads := rs; owner := o |}
        {| mapping := set_memory m 0; pending := false; threads := rs; owner := o |}
  | withdraw_again m b rs :
      readers m ≠ 0 →
      step fenced {| mapping := m; pending := b; threads := rs; owner := OWaiting |}
        {| mapping := m; pending := b; threads := rs; owner := OWaiting |}
  | withdraw_return m b rs :
      readers m = 0 →
      step fenced {| mapping := m; pending := b; threads := rs; owner := OWaiting |}
        {| mapping := m; pending := b; threads := rs; owner := OWithdrawn |}
  | publish_session m rs p id :
      p ≠ 0 →
      step fenced {| mapping := m; pending := false; threads := rs; owner := OWithdrawn |}
        {| mapping := set_session m id; pending := false; threads := rs; owner := OPublishing p |}
  | publish_memory m rs p :
      step fenced {| mapping := m; pending := false; threads := rs; owner := OPublishing p |}
        {| mapping := set_memory m p; pending := false; threads := rs; owner := OPublished |}.

Definition start (n : nat) : system :=
  {| mapping := ns6_hal_mapping_init; pending := false; threads := replicate n ROut;
     owner := OWithdrawn |}.

(** The pointer a reader has in hand, if any. *)
Definition in_hand (r : reader_pc) : option Z :=
  match r with
  | RLoaded p => Some p
  | RHolds lease => Some (lease_memory lease)
  | _ => None
  end.

Definition counted (r : reader_pc) : Z := match r with ROut => 0 | _ => 1 end.
Definition counted_sum (rs : list reader_pc) : Z := foldr (λ r n, counted r + n) 0 rs.

(** What a reader may have in hand while [p] is mapped under session [id]. *)
Definition lease_ok (p id : Z) (r : reader_pc) : Prop :=
  match r with
  | RLoaded q => q = p
  | RHolds lease => lease_memory lease = p ∧ lease_session_id lease = id
  | _ => True
  end.

(** ** The fenced machine *)

Record inv (n : nat) (s : system) : Prop := {
  i_threads : length (threads s) = n;
  i_drained : pending s = false;
  i_count : readers (mapping s) = counted_sum (threads s);
  i_phase : match owner s with
    | OWithdrawn => memory (mapping s) = 0 ∧ Forall (λ r, in_hand r = None) (threads s)
    | OPublishing p => p ≠ 0 ∧ memory (mapping s) = 0 ∧ Forall (λ r, in_hand r = None) (threads s)
    | OPublished =>
        memory (mapping s) ≠ 0 ∧
        Forall (lease_ok (memory (mapping s)) (session_id (mapping s))) (threads s)
    | OWaiting =>
        memory (mapping s) = 0 ∧ ∃ p, Forall (lease_ok p (session_id (mapping s))) (threads s)
    end
}.

Lemma counted_sum_cons r rs : counted_sum (r :: rs) = counted r + counted_sum rs.
Proof. done. Qed.

Lemma counted_sum_insert rs i r r' :
  rs !! i = Some r → counted_sum (<[i := r']> rs) = counted_sum rs - counted r + counted r'.
Proof.
  revert i. induction rs as [|x rs IH]; intros [|i] Hi; try done.
  - injection Hi as ->. change (<[0%nat := r']> (r :: rs)) with (r' :: rs).
    rewrite !counted_sum_cons. lia.
  - change (<[S i := r']> (x :: rs)) with (x :: <[i := r']> rs).
    rewrite !counted_sum_cons, IH by done. lia.
Qed.

Lemma counted_sum_bound rs : 0 <= counted_sum rs <= Z.of_nat (length rs).
Proof.
  induction rs as [|r rs IH]; [done|]. rewrite counted_sum_cons. cbn [length].
  destruct r; cbn [counted]; lia.
Qed.

Lemma counted_sum_zero rs : counted_sum rs = 0 → Forall (λ r, in_hand r = None) rs.
Proof.
  induction rs as [|r rs IH]; [constructor|]. rewrite counted_sum_cons. intros H.
  pose proof (counted_sum_bound rs). destruct r; cbn [counted] in H; try lia.
  constructor; [done|]. apply IH. lia.
Qed.

Lemma Forall_insert {A} (P : A → Prop) l i x : Forall P l → P x → Forall P (<[i := x]> l).
Proof.
  intros Hl Hx. apply Forall_lookup_2. intros j y Hj.
  destruct (decide (i = j)) as [<-|].
  - destruct (decide (i < length l)%nat).
    + rewrite list_lookup_insert_eq in Hj by done. by injection Hj as <-.
    + rewrite lookup_ge_None_2 in Hj; [done|]. rewrite length_insert. lia.
  - rewrite list_lookup_insert_ne in Hj by done. by eapply Forall_lookup_1.
Qed.

(** A reader moves to [r'], the count following, and may only take in hand what
    the owner's phase permits. *)
Lemma inv_reader n m m' b rs o i r r' :
  Z.of_nat n < 4294967296 → rs !! i = Some r →
  memory m' = memory m → session_id m' = session_id m →
  readers m' = u32 (readers m + (counted r' - counted r)) →
  match o with
  | OWithdrawn | OPublishing _ => in_hand r = None → memory m = 0 → in_hand r' = None
  | OPublished => lease_ok (memory m) (session_id m) r → memory m ≠ 0 →
                  lease_ok (memory m) (session_id m) r'
  | OWaiting => ∀ p, lease_ok p (session_id m) r → memory m = 0 → lease_ok p (session_id m) r'
  end →
  inv n {| mapping := m; pending := b; threads := rs; owner := o |} →
  inv n {| mapping := m'; pending := b; threads := <[i := r']> rs; owner := o |}.
Proof.
  intros Hn Hi Hm Hs Hr Hok [Ht Hd Hc Hp]; cbn [mapping pending threads owner] in *.
  constructor; cbn [mapping pending threads owner].
  - by rewrite length_insert.
  - done.
  - pose proof (counted_sum_insert rs i r r' Hi).
    pose proof (counted_sum_bound (<[i := r']> rs)) as Hb. rewrite length_insert in Hb.
    rewrite Hr, Hc, u32_id; unfold is_u32; lia.
  - rewrite Hm, Hs. destruct o as [|p| |].
    + destruct Hp as [H0 Hf]. split; [done|]. apply Forall_insert; [done|].
      apply Hok; [|done]. exact (Forall_lookup_1 _ _ _ _ Hf Hi).
    + destruct Hp as (Hp & H0 & Hf). split; [done|]. split; [done|].
      apply Forall_insert; [done|]. apply Hok; [|done]. exact (Forall_lookup_1 _ _ _ _ Hf Hi).
    + destruct Hp as [H0 Hf]. split; [done|]. apply Forall_insert; [done|].
      apply Hok; [|done]. exact (Forall_lookup_1 _ _ _ _ Hf Hi).
    + destruct Hp as [H0 [p Hf]]. split; [done|]. exists p. apply Forall_insert; [done|].
      apply Hok; [|done]. exact (Forall_lookup_1 _ _ _ _ Hf Hi).
Qed.

Lemma inv_same_count n m b rs o r r' :
  Z.of_nat n < 4294967296 → counted r' = counted r →
  inv n {| mapping := m; pending := b; threads := rs; owner := o |} →
  readers m = u32 (readers m + (counted r' - counted r)).
Proof.
  intros Hn He [Ht _ Hc _]. cbn [mapping threads] in *.
  pose proof (counted_sum_bound rs). rewrite u32_id; unfold is_u32; lia.
Qed.

Lemma none_lease_ok p id rs : Forall (λ r, in_hand r = None) rs → Forall (lease_ok p id) rs.
Proof. apply Forall_impl. by intros []. Qed.

Lemma inv_owner n m m' b rs o o' :
  readers m' = readers m → b = false →
  (inv n {| mapping := m; pending := b; threads := rs; owner := o |} →
   match o' with
   | OWithdrawn => memory m' = 0 ∧ Forall (λ r, in_hand r = None) rs
   | OPublishing p => p ≠ 0 ∧ memory m' = 0 ∧ Forall (λ r, in_hand r = None) rs
   | OPublished => memory m' ≠ 0 ∧ Forall (lease_ok (memory m') (session_id m')) rs
   | OWaiting => memory m' = 0 ∧ ∃ p, Forall (lease_ok p (session_id m')) rs
   end) →
  inv n {| mapping := m; pending := b; threads := rs; owner := o |} →
  inv n {| mapping := m'; pending := b; threads := rs; owner := o' |}.
Proof.
  intros Hr Hb H Hi. specialize (H Hi). destruct Hi as [Ht Hd Hc Hp].
  constructor; cbn in *; [done..|congruence|done].
Qed.

Lemma mapping_inv_step n s s' : Z.of_nat n < 4294967296 → inv n s → step true s s' → inv n s'.
Proof.
  intros Hn Hi Hs. destruct Hs as [m b rs o i Hr|m b rs o i Hr|m b rs o i p Hr|m b rs o i Hr
    |m b rs o i l Hr|m rs o Ho|m rs o|m b rs H0|m b rs H0|m rs p id Hp|m rs p].
  - eapply inv_reader; [exact Hn|exact Hr| | | | |exact Hi]; try done. by destruct o.
  - eapply inv_reader; [exact Hn|exact Hr|done|done| | |exact Hi].
    + eapply inv_same_count; [exact Hn| |exact Hi]. by case_if.
    + destruct o; intros; case_if; cbn; try done; lia.
  - eapply inv_reader; [exact Hn|exact Hr|done|done| | |exact Hi].
    + by eapply inv_same_count.
    + by destruct o.
  - eapply inv_reader; [exact Hn|exact Hr| | | | |exact Hi]; try done. by destruct o.
  - eapply inv_reader; [exact Hn|exact Hr| | | | |exact Hi]; try done. by destruct o.
  - cbn. revert Hi. apply inv_owner; [done..|]. intros [_ _ _ Hp]. cbn in *.
    split; [done|]. destruct Ho as [-> | ->].
    + eexists. apply Hp.
    + exists 0. by apply none_lease_ok, Hp.
  - by destruct Hi.
  - done.
  - pose proof (i_drained _ _ Hi) as Hb. cbn in Hb. subst b.
    revert Hi. apply inv_owner; [done..|]. intros [_ _ Hc [Hm _]].
    cbn [mapping threads] in *. split; [done|]. apply counted_sum_zero. congruence.
  - revert Hi. apply inv_owner; [done..|]. intros [_ _ _ [Hm Hf]]. cbn in *. done.
  - revert Hi. apply inv_owner; [done..|]. intros [_ _ _ (Hp & Hm & Hf)]. cbn in *.
    split; [done|]. by apply none_lease_ok.
Qed.

Lemma mapping_inv_start n : inv n (start n).
Proof.
  constructor; cbn [start mapping pending threads owner].
  - apply length_replicate.
  - done.
  - cbn. induction n as [|n IH]; [done|]. cbn [replicate]. by rewrite counted_sum_cons, <- IH.
  - split; [done|]. by apply Forall_replicate.
Qed.

(** C22: with the owner's accesses in program order, when [withdraw] has returned
    no reader has the memory in hand, so it can be unmapped; and while a mapping
    is published every lease pairs its memory with its session id. *)
Theorem withdrawn_memory_is_unused n s :
  Z.of_nat n < 4294967296 → steps (step true) (start n) s →
  (owner s = OWithdrawn → ∀ i r, threads s !! i = Some r → in_hand r = None) ∧
  (owner s = OPublished → ∀ i lease, threads s !! i = Some (RHolds lease) →
     lease_memory lease = memory (mapping s) ∧ lease_session_id lease = session_id (mapping s)).
Proof.
  intros Hn Hs.
  destruct (steps_invariant _ (inv n) (λ s s' H, mapping_inv_step n s s' Hn H) _ _ (mapping_inv_start n) Hs)
    as [_ _ _ Hp].
  split; intros E i r Hi; rewrite E in Hp; destruct Hp as [_ Hf].
  - exact (Forall_lookup_1 _ _ _ _ Hf Hi).
  - exact (Forall_lookup_1 _ _ _ _ Hf Hi).
Qed.

(** A reader holds memory 16 of session 5. *)
Definition holding : system :=
  {| mapping := {| memory := 16; session_id := 5; readers := 1 |}; pending := false;
     threads := [RHolds {| lease_memory := 16; lease_session_id := 5 |}]; owner := OPublished |}.

Lemma holding_reachable : steps (step true) (start 1) holding.
Proof.
  eapply steps_cons; [apply (publish_session _ _ _ 16 5); lia|].
  eapply steps_cons; [apply publish_memory|].
  eapply steps_cons; [apply (acquire_count _ _ _ _ _ 0); reflexivity|].
  eapply steps_cons; [apply (acquire_load _ _ _ _ _ 0); reflexivity|].
  eapply steps_cons; [apply (acquire_session _ _ _ _ _ 0 16); reflexivity|].
  constructor.
Qed.

Lemma withdrawn_memory_is_unused_witness :
  lease_session_id {| lease_memory := 16; lease_session_id := 5 |} = session_id (mapping holding).
Proof.
  apply (proj2 (withdrawn_memory_is_unused 1 holding eq_refl holding_reachable) eq_refl
    0%nat {| lease_memory := 16; lease_session_id := 5 |} eq_refl).
Defined.

(** ** Without the order of a fence *)

(** C23: the memory orders of the source do not give that guarantee by
    themselves.  [withdraw] stores with release order and then loads with acquire
    order, which leaves the load free to take effect first: then a reader that
    counts itself after the load still sees the old pointer, and the owner
    returns from [withdraw] while a lease is out. *)
Theorem release_acquire_withdraw_can_race :
  ∃ s lease, steps (step false) (start 1) s ∧ owner s = OWithdrawn ∧
    threads s !! 0%nat = Some (RHolds lease) ∧ lease_memory lease ≠ 0.
Proof.
  eexists _, _. split; [|split; [|split]].
  - eapply steps_cons; [apply (publish_session _ _ _ 16 5); lia|].
    eapply steps_cons; [apply publish_memory|].
    eapply steps_cons; [apply withdraw_store; by left|].
    eapply steps_cons; [apply withdraw_return; reflexivity|].
    eapply steps_cons; [apply (acquire_count _ _ _ _ _ 0); reflexivity|].
    eapply steps_cons; [apply (acquire_load _ _ _ _ _ 0); reflexivity|].
    eapply steps_cons; [apply (acquire_session _ _ _ _ _ 0 16); reflexivity|].
    constructor.
  - reflexivity.
  - reflexivity.
  - cbn. lia.
Qed.
