(* ===== verification/Registry.v ===== *)
(** * The client registry (NS6DeviceClientRegistry.h)

    Eight leases in an array; a lease with client id 0 is free.  The array refines
    a finite map from client ids to leases, of at most eight entries. *)

From stdpp Require Import base list numbers tactics gmap sets.
From Stdlib Require Import ZArith Lia ZifyBool.
From S2P Require Import Prelude.

Definition NS6_DEVICE_MAX_CLIENTS : Z := 8.

Record NS6DeviceClientLease := { client_id : Z; process_id : Z; audio_active : bool }.

#[export] Instance lease_inhabited : Inhabited NS6DeviceClientLease :=
  populate {| client_id := 0; process_id := 0; audio_active := false |}.

(** The leases of the array [clients]. *)
Abbreviation NS6DeviceClientRegistry := (list NS6DeviceClientLease).

Definition free_lease : NS6DeviceClientLease :=
  {| client_id := 0; process_id := 0; audio_active := false |}.

Definition empty_registry : NS6DeviceClientRegistry :=
  replicate (Z.to_nat NS6_DEVICE_MAX_CLIENTS) free_lease.

(** [for (i...) if (test) { update; return true; }]: the array after updating the
    first lease that passes the test, or [None] when none does. *)
Fixpoint update_first (test : NS6DeviceClientLease → bool)
    (update : NS6DeviceClientLease → NS6DeviceClientLease) (l : NS6DeviceClientRegistry)
    : option NS6DeviceClientRegistry :=
  match l with
  | [] => None
  | x :: l' => if test x then Some (update x :: l')
               else option_map (cons x) (update_first test update l')
  end.

Definition has_id (id : Z) (x : NS6DeviceClientLease) : bool := client_id x =? id.

Definition ns6_device_client_registry_attach (registry : NS6DeviceClientRegistry)
    (id pid : Z) : bool * NS6DeviceClientRegistry :=
  if id =? 0 then (false, registry)
  else match update_first (has_id id)
               (λ x, {| client_id := client_id x; process_id := pid;
                        audio_active := audio_active x |}) registry with
  | Some r => (true, r)
  | None =>
      match update_first (has_id 0)
              (λ _, {| client_id := id; process_id := pid; audio_active := false |}) registry with
      | Some r => (true, r)
      | None => (false, registry)
      end
  end.

Definition ns6_device_client_registry_set_audio_active (registry : NS6DeviceClientRegistry)
    (id : Z) (active : bool) : bool * NS6DeviceClientRegistry :=
  if id =? 0 then (false, registry)
  else match update_first (has_id id)
               (λ x, {| client_id := client_id x; process_id := process_id x;
                        audio_active := active |}) registry with
  | Some r => (true, r)
  | None => (false, registry)
  end.

Definition ns6_device_client_registry_contains (registry : NS6DeviceClientRegistry) (id : Z)
    : bool :=
  if id =? 0 then false else existsb (has_id id) registry.

Definition ns6_device_client_registry_detach (registry : NS6DeviceClientRegistry) (id : Z)
    : bool * NS6DeviceClientRegistry :=
  if id =? 0 then (false, registry)
  else match update_first (has_id id) (λ _, free_lease) registry with
  | Some r => (true, r)
  | None => (false, registry)
  end.

Definition of_process (pid : Z) (x : NS6DeviceClientLease) : bool :=
  negb (client_id x =? 0) && (process_id x =? pid).

Definition ns6_device_client_registry_detach_process (registry : NS6DeviceClientRegistry)
    (pid : Z) : Z * NS6DeviceClientRegistry :=
  if pid <=? 0 then (0, registry)
  else (Z.of_nat (length (List.filter (of_process pid) registry)),
        map (λ x, if of_process pid x then free_lease else x) registry).

Definition ns6_device_client_registry_any_audio_active (registry : NS6DeviceClientRegistry)
    : bool :=
  existsb (λ x, negb (client_id x =? 0) && audio_active x) registry.

(** ** The map a registry stands for *)

(** A live lease as a map entry. *)
Definition entry (x : NS6DeviceClientLease) : option (Z * (Z * bool)) :=
  if client_id x =? 0 then None else Some (client_id x, (process_id x, audio_active x)).

Definition live (l : NS6DeviceClientRegistry) : list (Z * (Z * bool)) := omap entry l.

Definition abs (l : NS6DeviceClientRegistry) : gmap Z (Z * bool) := list_to_map (live l).

(** Client ids are unique among the live leases. *)
Definition registry_wf (l : NS6DeviceClientRegistry) : Prop :=
  length l = Z.to_nat NS6_DEVICE_MAX_CLIENTS ∧ NoDup (live l).*1.

Lemma live_cons x l :
  live (x :: l) = (if client_id x =? 0 then [] else [(client_id x, (process_id x, audio_active x))])
                  ++ live l.
Proof. unfold live. cbn. unfold entry. by case_if. Qed.

Lemma live_app l k : live (l ++ k) = live l ++ live k.
Proof. induction l as [|x l IH]; [done|]. cbn [app]. by rewrite !live_cons, IH, app_assoc. Qed.

Lemma elem_of_live_fst l id : id ∈ (live l).*1 ↔ id ≠ 0 ∧ ∃ x, x ∈ l ∧ client_id x = id.
Proof.
  induction l as [|x l IH].
  - cbn. split; [by intros ?%elem_of_nil|]. intros (_ & x & Hx%elem_of_nil & _). done.
  - rewrite live_cons, fmap_app, elem_of_app, IH.
    destruct (client_id x =? 0) eqn:E; cbn.
    + split.
      * intros [?%elem_of_nil|(? & y & ? & ?)]; [done|]. split; [done|].
        exists y. split; [by right|done].
      * intros (? & y & [->|Hy]%elem_of_cons & ?); [lia|]. right. split; [done|]. by exists y.
    + rewrite list_elem_of_singleton. split.
      * intros [->|(? & y & ? & ?)]; (split; [lia|]); [by exists x; split; [left|]|].
        exists y. split; [by right|done].
      * intros (? & y & [->|Hy]%elem_of_cons & ?); [by left|]. right. split; [done|]. by exists y.
Qed.

(** The first match splits the array. *)
Lemma update_first_Some test update l r :
  update_first test update l = Some r →
  ∃ l1 x l2, l = l1 ++ x :: l2 ∧ test x = true ∧ Forall (λ y, test y = false) l1 ∧
             r = l1 ++ update x :: l2.
Proof.
  revert r. induction l as [|x l IH]; intros r; [done|]. cbn.
  destruct (test x) eqn:E.
  - intros [= <-]. by exists [], x, l.
  - destruct (update_first test update l) as [r'|] eqn:Er; [|done]. intros [= <-].
    destruct (IH r' eq_refl) as (l1 & y & l2 & -> & Hy & Hl1 & ->).
    exists (x :: l1), y, l2. repeat split; try done. by constructor.
Qed.

Lemma update_first_None test update l :
  update_first test update l = None → Forall (λ y, test y = false) l.
Proof.
  induction l as [|x l IH]; [constructor|]. cbn. destruct (test x) eqn:E; [done|].
  destruct (update_first test update l); [done|]. intros _. constructor; [done|]. by apply IH.
Qed.

Lemma map_middle (L1 L2 : list (Z * (Z * bool))) id v :
  NoDup (L1 ++ (id, v) :: L2).*1 →
  (list_to_map (L1 ++ (id, v) :: L2) : gmap Z (Z * bool)) = <[id := v]> (list_to_map (L1 ++ L2)) ∧
  (list_to_map (L1 ++ L2) : gmap Z (Z * bool)) !! id = None ∧ NoDup (L1 ++ L2).*1.
Proof.
  intros Hnd.
  assert (Hp : L1 ++ (id, v) :: L2 ≡ₚ (id, v) :: (L1 ++ L2)) by (symmetry; apply Permutation_middle).
  assert (Hnd' : NoDup ((id, v) :: (L1 ++ L2)).*1) by (by rewrite <- Hp).
  cbn in Hnd'. apply NoDup_cons in Hnd' as [Hni Hnd'].
  split; [|split; [|done]].
  - rewrite (list_to_map_proper _ _ Hnd Hp). done.
  - by apply not_elem_of_list_to_map_1.
Qed.

Lemma live_mid l1 x l2 :
  client_id x ≠ 0 →
  live (l1 ++ x :: l2) = live l1 ++ (client_id x, (process_id x, audio_active x)) :: live l2.
Proof.
  intros Hx. rewrite live_app, live_cons. by replace (client_id x =? 0) with false by lia.
Qed.

Lemma live_mid_free l1 x l2 : client_id x = 0 → live (l1 ++ x :: l2) = live l1 ++ live l2.
Proof. intros Hx. rewrite live_app, live_cons, Hx. done. Qed.

Lemma absent_id l id :
  Forall (λ y, has_id id y = false) l → abs l !! id = None.
Proof.
  intros Hf. apply not_elem_of_list_to_map_1. rewrite elem_of_live_fst.
  intros (_ & x & Hx & Hid). rewrite list.Forall_forall in Hf.
  specialize (Hf x Hx).
  unfold has_id in Hf. lia.
Qed.

(** Updating the lease of a client, with its id kept or cleared. *)
Lemma update_client l id f r :
  registry_wf l → id ≠ 0 → update_first (has_id id) f l = Some r →
  (∀ x, client_id (f x) = client_id x ∨ client_id (f x) = 0) →
  registry_wf r ∧ ∃ x, client_id x = id ∧ abs l !! id = Some (process_id x, audio_active x) ∧
    abs r = if client_id (f x) =? 0 then delete id (abs l)
            else <[id := (process_id (f x), audio_active (f x))]> (abs l).
Proof.
  intros [Hlen Hnd] Hid Hu Hf.
  destruct (update_first_Some _ _ _ _ Hu) as (l1 & x & l2 & -> & Hx & _ & ->).
  unfold has_id in Hx. assert (client_id x = id) as Hxid by lia.
  unfold abs, registry_wf in *. rewrite length_app in *. cbn [length] in *.
  rewrite (live_mid l1 x l2) in Hnd |- * by lia. rewrite Hxid in *.
  destruct (map_middle _ _ _ _ Hnd) as (Hm & Hnone & Hnd').
  destruct (client_id (f x) =? 0) eqn:E.
  - rewrite live_mid_free by lia. split; [done|]. exists x. split; [done|].
    rewrite E, Hm. split; [apply lookup_insert_eq|]. by rewrite delete_insert_id.
  - destruct (Hf x) as [Hfx|]; [|lia]. rewrite live_mid, Hfx, Hxid by lia.
    assert (NoDup (live l1 ++ (id, (process_id (f x), audio_active (f x))) :: live l2).*1) as Hnd2
      by (rewrite fmap_app in *; exact Hnd).
    split; [done|]. exists x. split; [done|]. destruct (map_middle _ _ _ _ Hnd2) as (-> & _ & _).
    rewrite Hm. split; [apply lookup_insert_eq|].
    replace (client_id (f x) =? 0) with false by lia. by rewrite insert_insert_eq.
Qed.

(** What the registry promises: operations on a map of at most eight clients. *)
Definition map_attach (m : gmap Z (Z * bool)) (id pid : Z) : bool * gmap Z (Z * bool) :=
  if id =? 0 then (false, m)
  else match m !! id with
  | Some (_, active) => (true, <[id := (pid, active)]> m)
  | None => if (size m <? 8)%nat then (true, <[id := (pid, false)]> m) else (false, m)
  end.

Definition map_set_active (m : gmap Z (Z * bool)) (id : Z) (active : bool)
    : bool * gmap Z (Z * bool) :=
  match m !! id with
  | Some (pid, _) => (true, <[id := (pid, active)]> m)
  | None => (false, m)
  end.

Definition map_detach (m : gmap Z (Z * bool)) (id : Z) : bool * gmap Z (Z * bool) :=
  match m !! id with Some _ => (true, delete id m) | None => (false, m) end.

Lemma abs_zero l : abs l !! 0 = None.
Proof.
  apply not_elem_of_list_to_map_1. rewrite elem_of_live_fst. by intros [? _].
Qed.

(** The number of clients, and when a slot is free. *)
Lemma size_abs l : registry_wf l → size (abs l) = length (live l).
Proof.
  intros [_ Hnd]. unfold abs. rewrite <- (length_map fst (live l)).
  rewrite <- size_dom. rewrite dom_list_to_map_L.
  change (map fst (live l)) with ((live l).*1).
  by rewrite size_list_to_set.
Qed.

Lemma live_full l : Forall (λ y, has_id 0 y = false) l → length (live l) = length l.
Proof.
  induction 1 as [|x l Hx Hl IH]; [done|]. rewrite live_cons. unfold has_id in Hx. rewrite Hx.
  cbn. by rewrite IH.
Qed.

Lemma live_room l1 x l2 : client_id x = 0 → (length (live (l1 ++ x :: l2)) < length (l1 ++ x :: l2))%nat.
Proof.
  intros Hx. assert (∀ l, length (live l) <= length l)%nat as Hle.
  { induction l as [|y l IH]; [done|]. rewrite live_cons. case_if; cbn in *; lia. }
  rewrite live_mid_free, !length_app by done. cbn. pose proof (Hle l1). pose proof (Hle l2). lia.
Qed.

Lemma attach_refines l id pid :
  registry_wf l →
  let '(ok, l') := ns6_device_client_registry_attach l id pid in
  registry_wf l' ∧ (ok, abs l') = map_attach (abs l) id pid.
Proof.
  intros Hwf. unfold ns6_device_client_registry_attach, map_attach.
  destruct (id =? 0) eqn:Eid; [done|].
  destruct (update_first (has_id id) _ l) as [r|] eqn:E1.
  - destruct (update_client l id _ r Hwf ltac:(lia) E1) as (Hr & x & Hx & Hl & Ha); [by left|].
    split; [done|]. cbn in Ha. rewrite Hl, Ha. by replace (client_id x =? 0) with false by lia.
  - apply update_first_None in E1. rewrite (absent_id _ _ E1).
    destruct (update_first (has_id 0) _ l) as [r|] eqn:E2.
    + apply update_first_Some in E2 as (l1 & x & l2 & -> & Hx & _ & ->).
      unfold has_id in Hx. pose proof (absent_id _ _ E1) as Hnone. pose proof (size_abs _ Hwf) as Hs.
      pose proof (live_room l1 x l2 ltac:(lia)) as Hroom. pose proof Hwf as [Hlen Hnd].
      rewrite Hlen in Hroom. change (Z.to_nat NS6_DEVICE_MAX_CLIENTS) with 8%nat in Hroom.
      rewrite Hs, (proj2 (Nat.ltb_lt _ 8) Hroom).
      unfold abs, registry_wf in *. rewrite length_app in *. cbn [length] in *.
      rewrite (live_mid_free l1 x l2) in Hnd, Hnone |- * by lia.
      rewrite live_mid by (cbn; lia). cbn [client_id process_id audio_active].
      assert (NoDup (live l1 ++ (id, (pid, false)) :: live l2).*1) as Hnd2.
      { rewrite fmap_app. cbn. rewrite <- Permutation_middle, <- fmap_app. constructor; [|done].
        by apply not_elem_of_list_to_map_2. }
      split; [done|]. by destruct (map_middle _ _ _ _ Hnd2) as (-> & _ & _).
    + apply update_first_None in E2. rewrite size_abs, live_full by done.
      rewrite (proj1 Hwf). done.
Qed.

Lemma set_active_refines l id active :
  registry_wf l →
  let '(ok, l') := ns6_device_client_registry_set_audio_active l id active in
  registry_wf l' ∧ (ok, abs l') = map_set_active (abs l) id active.
Proof.
  intros Hwf. unfold ns6_device_client_registry_set_audio_active, map_set_active.
  destruct (id =? 0) eqn:Eid.
  { replace id with 0 by lia. by rewrite abs_zero. }
  destruct (update_first (has_id id) _ l) as [r|] eqn:E1.
  - destruct (update_client l id _ r Hwf ltac:(lia) E1) as (Hr & x & Hx & Hl & Ha); [by left|].
    split; [done|]. cbn in Ha. rewrite Hl, Ha. by replace (client_id x =? 0) with false by lia.
  - apply update_first_None in E1. by rewrite (absent_id _ _ E1).
Qed.

Lemma detach_refines l id :
  registry_wf l →
  let '(ok, l') := ns6_device_client_registry_detach l id in
  registry_wf l' ∧ (ok, abs l') = map_detach (abs l) id.
Proof.
  intros Hwf. unfold ns6_device_client_registry_detach, map_detach.
  destruct (id =? 0) eqn:Eid.
  { replace id with 0 by lia. by rewrite abs_zero. }
  destruct (update_first (has_id id) _ l) as [r|] eqn:E1.
  - destruct (update_client l id _ r Hwf ltac:(lia) E1) as (Hr & x & Hx & Hl & Ha); [by right|].
    split; [done|]. cbn in Ha. by rewrite Hl, Ha.
  - apply update_first_None in E1. by rewrite (absent_id _ _ E1).
Qed.

(** A failed detach changes nothing. *)
Lemma detach_false l id c : ns6_device_client_registry_detach l id = (false, c) → c = l.
Proof.
  unfold ns6_device_client_registry_detach. destruct (id =? 0); [by intros [= <-]|].
  by destruct (update_first (has_id id) (λ _, free_lease) l); intros [= <-].
Qed.

Lemma abs_lookup l id v :
  registry_wf l →
  abs l !! id = Some v ↔
  ∃ x, x ∈ l ∧ client_id x = id ∧ id ≠ 0 ∧ v = (process_id x, audio_active x).
Proof.
  intros [_ Hnd]. unfold abs. rewrite <- elem_of_list_to_map by done.
  unfold live. rewrite list_elem_of_omap. unfold entry. split.
  - intros (x & Hx & He). destruct (client_id x =? 0) eqn:E; [done|]. injection He as <- <-.
    exists x. repeat split; [done|lia].
  - intros (x & Hx & <- & Hne & ->). exists x. split; [done|].
    by replace (client_id x =? 0) with false by lia.
Qed.

Lemma contains_refines l id :
  registry_wf l → ns6_device_client_registry_contains l id = bool_decide (is_Some (abs l !! id)).
Proof.
  intros Hwf. unfold ns6_device_client_registry_contains. apply eq_bool_prop_intro.
  rewrite bool_decide_spec. destruct (id =? 0) eqn:E.
  - replace id with 0 by lia. rewrite abs_zero. split; [done|]. by intros [? ?].
  - split.
    + intros Hx%Is_true_true%existsb_exists. destruct Hx as (x & Hx & Hid).
      eexists. apply abs_lookup; [done|]. exists x. unfold has_id in Hid.
      apply list_elem_of_In in Hx. repeat split; [done|lia|lia].
    + intros [v Hv]. apply abs_lookup in Hv as (x & Hx & Hid & _); [|done].
      apply Is_true_true, existsb_exists. exists x. split; [by apply list_elem_of_In|].
      unfold has_id. lia.
Qed.

Lemma any_active_refines l :
  registry_wf l →
  ns6_device_client_registry_any_audio_active l = true ↔ ∃ id pid, abs l !! id = Some (pid, true).
Proof.
  intros Hwf. unfold ns6_device_client_registry_any_audio_active. rewrite existsb_exists. split.
  - intros (x & Hx & Ha). exists (client_id x), (process_id x). apply abs_lookup; [done|].
    exists x. apply list_elem_of_In in Hx. apply andb_true_iff in Ha as [Hc Ha].
    repeat split; [done|lia|by rewrite Ha].
  - intros (id & pid & Hv). apply abs_lookup in Hv as (x & Hx & Hid & Hne & Hv); [|done].
    exists x. split; [by apply list_elem_of_In|]. injection Hv as -> <-. lia.
Qed.

Lemma empty_registry_wf : registry_wf empty_registry.
Proof. split; [done|]. constructor. Qed.

(** Removing the leases of a process. *)
Definition map_detach_process (m : gmap Z (Z * bool)) (pid : Z) : nat * gmap Z (Z * bool) :=
  if pid <=? 0 then (0%nat, m)
  else let m' := filter (λ e, e.2.1 ≠ pid) m in ((size m - size m')%nat, m').

Definition cleared (pid : Z) (l : NS6DeviceClientRegistry) : NS6DeviceClientRegistry :=
  map (λ x, if of_process pid x then free_lease else x) l.

Lemma live_cleared pid l :
  live (cleared pid l) = filter (λ e, e.2.1 ≠ pid) (live l).
Proof.
  induction l as [|x l IH]; [done|]. cbn [cleared map]. fold (cleared pid l).
  rewrite !live_cons, IH, filter_app. f_equal. unfold of_process.
  destruct (client_id x =? 0) eqn:E; cbn [negb andb]; [by rewrite E|].
  destruct (process_id x =? pid) eqn:E2.
  - rewrite (filter_cons_False _ (_, _)) by (cbn; lia). done.
  - rewrite E. rewrite (filter_cons_True _ (_, _)) by (cbn; lia). done.
Qed.

Lemma length_cleared pid l :
  length (live (cleared pid l)) = (length (live l) - length (List.filter (of_process pid) l))%nat ∧
  (length (List.filter (of_process pid) l) <= length (live l))%nat.
Proof.
  induction l as [|x l [IH1 IH2]]; [done|]. cbn [cleared map List.filter]. fold (cleared pid l).
  rewrite !live_cons, !length_app. unfold of_process in *.
  destruct (client_id x =? 0) eqn:E; cbn [negb andb]; [rewrite E; cbn; lia|].
  destruct (process_id x =? pid) eqn:E2; [cbn; lia|]. rewrite E. cbn. lia.
Qed.

Lemma detach_process_refines l pid :
  registry_wf l →
  let '(n, l') := ns6_device_client_registry_detach_process l pid in
  registry_wf l' ∧ (Z.to_nat n, abs l') = map_detach_process (abs l) pid.
Proof.
  intros Hwf. unfold ns6_device_client_registry_detach_process, map_detach_process.
  destruct (pid <=? 0); [done|]. fold (cleared pid l).
  assert (Hwf' : registry_wf (cleared pid l)).
  { destruct Hwf as [Hlen Hnd]. split; [unfold cleared; by rewrite length_map|].
    rewrite live_cleared. eapply sublist_NoDup; [exact Hnd|]. apply fmap_sublist, sublist_filter. }
  split; [done|]. assert (Ha : abs (cleared pid l) = filter (λ e, e.2.1 ≠ pid) (abs l)).
  { apply map_eq. intros i. apply option_eq. intros v. rewrite map_lookup_filter_Some.
    unfold abs. destruct Hwf' as [_ Hnd']. destruct Hwf as [_ Hnd]. rewrite <- !elem_of_list_to_map by done.
    rewrite live_cleared, list_elem_of_filter. tauto. }
  rewrite <- Ha, !size_abs, Nat2Z.id by done. destruct (length_cleared pid l) as [-> Hle].
  f_equal. lia.
Qed.

(** ** Runs *)

Inductive op :=
  | Attach (id pid : Z)
  | SetActive (id : Z) (active : bool)
  | Detach (id : Z)
  | DetachProcess (pid : Z).

(** Each operation with its result, a [bool] or a count. *)
Definition run_op (l : NS6DeviceClientRegistry) (o : op) : Z * NS6DeviceClientRegistry :=
  match o with
  | Attach id pid => let '(ok, l') := ns6_device_client_registry_attach l id pid in (Z.b2z ok, l')
  | SetActive id a =>
      let '(ok, l') := ns6_device_client_registry_set_audio_active l id a in (Z.b2z ok, l')
  | Detach id => let '(ok, l') := ns6_device_client_registry_detach l id in (Z.b2z ok, l')
  | DetachProcess pid => ns6_device_client_registry_detach_process l pid
  end.

Definition spec_op (m : gmap Z (Z * bool)) (o : op) : Z * gmap Z (Z * bool) :=
  match o with
  | Attach id pid => let '(ok, m') := map_attach m id pid in (Z.b2z ok, m')
  | SetActive id a => let '(ok, m') := map_set_active m id a in (Z.b2z ok, m')
  | Detach id => let '(ok, m') := map_detach m id in (Z.b2z ok, m')
  | DetachProcess pid => let '(n, m') := map_detach_process m pid in (Z.of_nat n, m')
  end.

Fixpoint run {S} (f : S → op → Z * S) (s : S) (os : list op) : list Z * S :=
  match os with
  | [] => ([], s)
  | o :: os' => let '(r, s1) := f s o in let '(rs, s2) := run f s1 os' in (r :: rs, s2)
  end.

Lemma op_refines l o :
  registry_wf l →
  registry_wf (snd (run_op l o)) ∧
  spec_op (abs l) o = (fst (run_op l o), abs (snd (run_op l o))).
Proof.
  intros Hwf. destruct o as [id pid|id a|id|pid]; cbn [run_op spec_op].
  - pose proof (attach_refines l id pid Hwf) as H.
    destruct (ns6_device_client_registry_attach _ _ _) as [ok l']. by destruct H as [? <-].
  - pose proof (set_active_refines l id a Hwf) as H.
    destruct (ns6_device_client_registry_set_audio_active _ _ _) as [ok l']. by destruct H as [? <-].
  - pose proof (detach_refines l id Hwf) as H.
    destruct (ns6_device_client_registry_detach _ _) as [ok l']. by destruct H as [? <-].
  - pose proof (detach_process_refines l pid Hwf) as H.
    assert (0 <= fst (ns6_device_client_registry_detach_process l pid)) as Hn.
    { unfold ns6_device_client_registry_detach_process. case_if; cbn; lia. }
    destruct (ns6_device_client_registry_detach_process _ _) as [n l'].
    destruct H as [? <-]. cbn in *. split; [done|]. by rewrite Z2Nat.id.
Qed.

Lemma run_refines os l :
  registry_wf l →
  registry_wf (snd (run run_op l os)) ∧
  run spec_op (abs l) os = (fst (run run_op l os), abs (snd (run run_op l os))).
Proof.
  revert l. induction os as [|o os IH]; intros l Hwf; [done|]. cbn [run].
  destruct (op_refines l o Hwf) as [Hwf' ->].
  destruct (run_op l o) as [r l']. cbn [fst snd] in *. destruct (IH l' Hwf') as [Hwf'' ->].
  by destruct (run run_op l' os).
Qed.

(** C24: for every sequence of attach, set-active, detach and detach-process
    calls, the eight-slot array returns the same results as a map of at most
    eight clients and stands for the resulting map; a client is contained exactly
    when the map has it and audio is active exactly when some client's is. *)
Theorem registry_refines_map os :
  let '(results, l) := run run_op empty_registry os in
  let '(results', m) := run spec_op ∅ os in
  results = results' ∧ abs l = m ∧ length l = 8%nat ∧
  (∀ id, ns6_device_client_registry_contains l id = bool_decide (is_Some (m !! id))) ∧
  (ns6_device_client_registry_any_audio_active l = true ↔ ∃ id pid, m !! id = Some (pid, true)).
Proof.
  destruct (run_refines os _ empty_registry_wf) as [Hwf Hr].
  change (abs empty_registry) with (∅ : gmap Z (Z * bool)) in Hr. rewrite Hr.
  destruct (run run_op empty_registry os) as [rs l]. cbn [fst snd] in *.
  repeat split; [apply Hwf|intros; by apply contains_refines|by apply any_active_refines..].
Qed.
