(* ===== verification/SharedMemory.v ===== *)
(** * The shared memory block (NS6SharedMemory.h) and the protocol
      (NS6DeviceProtocol.h, NS6DeviceAuthorization.h)

    What the service maps into the HAL process, and the messages the two exchange.
    Mach's own constants and structure sizes are parameters. *)

From stdpp Require Import base list numbers tactics.
From Stdlib Require Import ZArith Lia ZifyBool.
From S2P Require Import Prelude Pcm Transport CaptureRing DeviceSession.

(** Constants of the Mach headers, and the sizes the compiler gives to structures
    that contain Mach types. *)
Class MachABI := {
  KERN_SUCCESS : Z;
  KERN_FAILURE : Z;
  KERN_NO_ACCESS : Z;
  KERN_RESOURCE_SHORTAGE : Z;
  MIG_BAD_ID : Z;
  MIG_BAD_ARGUMENTS : Z;
  MACH_RCV_TIMED_OUT : Z;
  MACH_RCV_TOO_LARGE : Z;
  MACH_PORT_NULL : Z;
  MACH_MSG_TRAILER_FORMAT_0 : Z;
  MACH_MSG_PORT_DESCRIPTOR : Z;
  sizeof_natural_t : Z;
  sizeof_mach_msg_audit_trailer_t : Z;
  sizeof_NS6DeviceHelloRequest : Z;
  sizeof_NS6DeviceHelloReply : Z;
  sizeof_NS6DeviceControlRequest : Z;
  sizeof_NS6DeviceControlReply : Z;
  sizeof_state_reply : Z;
  sizeof_NS6SharedMemory : Z
}.

(** What the code relies on: the status codes it distinguishes are distinct. *)
Class MachLaws `{MachABI} := {
  bad_id_is_error : MIG_BAD_ID ≠ KERN_SUCCESS;
  bad_arguments_is_error : MIG_BAD_ARGUMENTS ≠ KERN_SUCCESS;
  no_access_is_error : KERN_NO_ACCESS ≠ KERN_SUCCESS;
  shortage_is_error : KERN_RESOURCE_SHORTAGE ≠ KERN_SUCCESS
}.

Definition NS6_SHARED_MEMORY_PROTOCOL_VERSION : Z := 5.

Record NS6SharedMemory := {
  protocol_version : Z;
  struct_size : Z;
  output : NS6TransportShared;
  capture : NS6CaptureRing;
  session : NS6DeviceSession;
  capture_requested : bool;
  capture_last_demand_ns : Z
}.

Definition ns6_shared_memory_init `{MachABI} (memory : NS6SharedMemory) : NS6SharedMemory :=
  {| protocol_version := NS6_SHARED_MEMORY_PROTOCOL_VERSION;
     struct_size := u32 sizeof_NS6SharedMemory;
     output := ns6_transport_init_shared (output memory);
     capture := ns6_capture_ring_init (capture memory);
     session := ns6_device_session_init;
     capture_requested := false;
     capture_last_demand_ns := 0 |}.

(** ** Protocol *)

Definition NS6_DEVICE_PROTOCOL_VERSION : Z := 4.

Definition NS6_DEVICE_MSG_HELLO : Z := 0x4e530001.
Definition NS6_DEVICE_MSG_HELLO_REPLY : Z := 0x4e530002.
Definition NS6_DEVICE_MSG_SET_AUDIO_ACTIVE : Z := 0x4e530003.
Definition NS6_DEVICE_MSG_SET_STARTUP_BUFFER : Z := 0x4e530004.
Definition NS6_DEVICE_MSG_GET_STATE : Z := 0x4e530005.
Definition NS6_DEVICE_MSG_CONTROL_REPLY : Z := 0x4e530006.
Definition NS6_DEVICE_MSG_STATE_REPLY : Z := 0x4e530007.
Definition NS6_DEVICE_MSG_RELEASE_CLIENT : Z := 0x4e530008.

Definition ns6_device_protocol_version_supported (version : Z) : bool :=
  version =? NS6_DEVICE_PROTOCOL_VERSION.

Record NS6DeviceHelloRequest := {
  hello_version : Z;
  hello_struct_size : Z;
  hello_client_id : Z
}.

(** The port descriptor is [None] when the message is not complex. *)
Record NS6DeviceHelloReply := {
  hr_protocol_version : Z;
  hr_shared_struct_size : Z;
  hr_mapped_size : Z;
  hr_memory_offset : Z;
  hr_session_id : Z;
  hr_status : Z;
  hr_memory_entry : option Z
}.

Record NS6DeviceControlRequest := {
  control_version : Z;
  control_value : Z;
  control_session_id : Z;
  control_client_id : Z
}.

Record NS6DeviceStateSnapshot := {
  connected : Z;
  transport_ready : Z;
  firmware_version : list Z;
  underruns : Z;
  transfer_errors : Z;
  packet_errors : Z;
  clock_rate_millihz : Z;
  active_frames : Z
}.

(** The bodies of the messages, after the Mach header, as little-endian bytes;
    every field is naturally aligned behind the header. *)
Definition le64 (bytes : list Z) (off : Z) : Z :=
  Z.lor (le32 bytes off) (Z.shiftl (le32 bytes (off + 4)) 32).

Definition as_hello (body : list Z) : NS6DeviceHelloRequest :=
  {| hello_version := le32 body 0; hello_struct_size := le32 body 4;
     hello_client_id := le64 body 8 |}.

Definition as_control (body : list Z) : NS6DeviceControlRequest :=
  {| control_version := le32 body 0; control_value := le32 body 4;
     control_session_id := le64 body 8; control_client_id := le64 body 16 |}.

(** ** Authorization; [uid_t] is 32 bits wide and [(uid_t)-1] its largest value. *)

Definition ns6_device_peer_uid_authorized (peer_uid coreaudiod_uid : Z) : bool :=
  (peer_uid =? 0) || (negb (coreaudiod_uid =? UINT32_MAX) && (peer_uid =? coreaudiod_uid)).

(** ** Encoding of the bodies, as the client writes them *)

Definition put32 (v : Z) : list Z :=
  [u8 v; u8 (Z.shiftr v 8); u8 (Z.shiftr v 16); u8 (Z.shiftr v 24)].
Definition put64 (v : Z) : list Z := put32 (u32 v) ++ put32 (Z.shiftr v 32).

Definition of_hello (r : NS6DeviceHelloRequest) : list Z :=
  put32 (hello_version r) ++ put32 (hello_struct_size r) ++ put64 (hello_client_id r).

Definition of_control (r : NS6DeviceControlRequest) : list Z :=
  put32 (control_version r) ++ put32 (control_value r) ++
  put64 (control_session_id r) ++ put64 (control_client_id r).

(** [le32] as a number. *)
Lemma le32_bytes bs off b0 b1 b2 b3 :
  rd bs off = b0 → rd bs (off + 1) = b1 → rd bs (off + 2) = b2 → rd bs (off + 3) = b3 →
  is_u8 b0 → is_u8 b1 → is_u8 b2 → is_u8 b3 →
  le32 bs off = b0 + 256 * b1 + 65536 * b2 + 16777216 * b3.
Proof.
  unfold le32, is_u8. intros -> -> -> -> ? ? ? ?.
  replace (Z.shiftl b3 24) with (Z.shiftl (Z.shiftl b3 8) 16) by (by rewrite Z.shiftl_shiftl by lia).
  rewrite <- Z.shiftl_lor, (lor_disjoint_add b2 b3 8), (lor_disjoint_add b0 b1 8) by lia.
  rewrite lor_disjoint_add by lia. lia.
Qed.

Lemma rd_app_at (pre l : list Z) k :
  0 <= k → rd (pre ++ l) (Z.of_nat (length pre) + k) = rd l k.
Proof.
  intros Hk. unfold rd. rewrite lookup_total_app_r by lia. f_equal. lia.
Qed.

Lemma le32_put32 pre v post :
  is_u32 v → le32 (pre ++ put32 v ++ post) (Z.of_nat (length pre)) = v.
Proof.
  intros Hv. pose proof (rd_app_at pre (put32 v ++ post)) as Hrd.
  rewrite (le32_bytes _ _ (u8 v) (u8 (Z.shiftr v 8)) (u8 (Z.shiftr v 16)) (u8 (Z.shiftr v 24)));
    try apply u8_range; try (rewrite Hrd by lia; reflexivity).
  - unfold is_u32, u8 in *. rewrite !Z.shiftr_div_pow2 by lia.
    change (2 ^ 8) with 256. change (2 ^ 16) with 65536. change (2 ^ 24) with 16777216.
    Z.div_mod_to_equations; lia.
  - rewrite <- (Z.add_0_r (Z.of_nat _)), Hrd by lia. reflexivity.
Qed.

Lemma le64_put64 pre v post :
  is_u64 v → le64 (pre ++ put64 v ++ post) (Z.of_nat (length pre)) = v.
Proof.
  intros Hv. unfold le64, put64. rewrite <- app_assoc, le32_put32 by apply u32_range.
  replace (Z.of_nat (length pre) + 4) with (Z.of_nat (length (pre ++ put32 (u32 v))))
    by (rewrite length_app; cbn; lia).
  assert (is_u32 (Z.shiftr v 32)) as Hhi.
  { unfold is_u32, is_u64 in *. rewrite Z.shiftr_div_pow2 by lia. change (2 ^ 32) with 4294967296.
    Z.div_mod_to_equations; lia. }
  rewrite app_assoc, le32_put32 by exact Hhi. rewrite Z.shiftr_div_pow2 by lia.
  rewrite lor_disjoint_add by (try lia; apply u32_range).
  unfold u32. change (2 ^ 32) with 4294967296. Z.div_mod_to_equations; lia.
Qed.

(** Both sides read a request the same way. *)
Lemma hello_roundtrip v n id :
  is_u32 v → is_u32 n → is_u64 id →
  as_hello (of_hello {| hello_version := v; hello_struct_size := n; hello_client_id := id |}) =
  {| hello_version := v; hello_struct_size := n; hello_client_id := id |}.
Proof.
  intros Hv Hn Hid. unfold as_hello, of_hello.
  cbn [hello_version hello_struct_size hello_client_id]. f_equal.
  - exact (le32_put32 [] v _ Hv).
  - exact (le32_put32 (put32 v) n _ Hn).
  - pose proof (le64_put64 (put32 v ++ put32 n) id [] Hid) as H.
    rewrite app_nil_r, <- app_assoc in H. exact H.
Qed.

Lemma control_roundtrip v n sid id :
  is_u32 v → is_u32 n → is_u64 sid → is_u64 id →
  as_control (of_control {| control_version := v; control_value := n;
                            control_session_id := sid; control_client_id := id |}) =
  {| control_version := v; control_value := n; control_session_id := sid;
     control_client_id := id |}.
Proof.
  intros Hv Hn Hs Hid. unfold as_control, of_control.
  cbn [control_version control_value control_session_id control_client_id]. f_equal.
  - exact (le32_put32 [] v _ Hv).
  - exact (le32_put32 (put32 v) n _ Hn).
  - pose proof (le64_put64 (put32 v ++ put32 n) sid (put64 id) Hs) as H.
    rewrite <- app_assoc in H. exact H.
  - pose proof (le64_put64 (put32 v ++ put32 n ++ put64 sid) id [] Hid) as H.
    rewrite app_nil_r, <- !app_assoc in H. exact H.
Qed.
