(* ===== verification/MachService.v ===== *)
(** * The device service (NS6DeviceMachService.c)

    The process that owns the USB device publishes the shared memory under a Mach
    service and answers the HAL clients.  A handler maps the service state and a
    message to the new state and the calls it makes, in order: replies and calls
    into the USB engine.  What the handlers learn from outside is the record
    [environment]. *)

From stdpp Require Import base list numbers tactics gmap.
From Stdlib Require Import ZArith Lia ZifyBool.
From S2P Require Import Prelude Pcm Transport CaptureRing DeviceSession Registry SharedMemory.

(** [running] of [NS6USB.c] with [initialized], what a restart request returns,
    and [kill(pid, 0) == 0 || errno != ESRCH]. *)
Record environment := {
  usb_is_ready : bool;
  usb_request_restart : bool;
  process_exists : Z → bool
}.

(** The audit trailer the kernel appends: its type, size and the identity in the
    audit token. *)
Record audit_trailer := {
  trailer_type : Z;
  trailer_size : Z;
  trailer_euid : Z;
  trailer_pid : Z
}.

(** A received message: header fields, the bytes after the header, and what lies
    at a given offset of the receive buffer read as a trailer. *)
Record message := {
  msgh_id : Z;
  msgh_size : Z;
  msgh_remote_port : Z;
  body : list Z;
  trailer_at : Z → audit_trailer
}.

Inductive call :=
  | ReplyHello (port : Z) (r : NS6DeviceHelloReply)
  | ReplyControl (port status : Z)
  | ReplyState (port status : Z) (snapshot : NS6DeviceStateSnapshot)
  | UsbSetPaused (paused : bool)
  | UsbSetStartupBuffer (frames : Z)
  | UsbRequestRestart.

Record NS6DeviceService := {
  memory : option NS6SharedMemory;
  receive_port : Z;
  memory_entry : Z;
  mapping_base : Z;
  mapping_size : Z;
  memory_offset : Z;
  stopping : bool;
  owner : NS6DeviceOwner;
  clients : NS6DeviceClientRegistry;
  running : bool;
  audio_active : bool;
  startup_buffer_frames : Z;
  session_id : Z;
  coreaudiod_uid : Z;
  snapshot : NS6DeviceStateSnapshot
}.

Definition set_clients (s : NS6DeviceService) (c : NS6DeviceClientRegistry) : NS6DeviceService :=
  {| memory := memory s; receive_port := receive_port s; memory_entry := memory_entry s;
     mapping_base := mapping_base s; mapping_size := mapping_size s;
     memory_offset := memory_offset s; stopping := stopping s; owner := owner s; clients := c;
     running := running s; audio_active := audio_active s;
     startup_buffer_frames := startup_buffer_frames s; session_id := session_id s;
     coreaudiod_uid := coreaudiod_uid s; snapshot := snapshot s |}.

Definition set_audio_active (s : NS6DeviceService) (a : bool) : NS6DeviceService :=
  {| memory := memory s; receive_port := receive_port s; memory_entry := memory_entry s;
     mapping_base := mapping_base s; mapping_size := mapping_size s;
     memory_offset := memory_offset s; stopping := stopping s; owner := owner s;
     clients := clients s; running := running s; audio_active := a;
     startup_buffer_frames := startup_buffer_frames s; session_id := session_id s;
     coreaudiod_uid := coreaudiod_uid s; snapshot := snapshot s |}.

Definition set_startup (s : NS6DeviceService) (n : Z) : NS6DeviceService :=
  {| memory := memory s; receive_port := receive_port s; memory_entry := memory_entry s;
     mapping_base := mapping_base s; mapping_size := mapping_size s;
     memory_offset := memory_offset s; stopping := stopping s; owner := owner s;
     clients := clients s; running := running s; audio_active := audio_active s;
     startup_buffer_frames := n; session_id := session_id s;
     coreaudiod_uid := coreaudiod_uid s; snapshot := snapshot s |}.

Section handlers.
Context `{MachABI}.

Definition zero_snapshot : NS6DeviceStateSnapshot :=
  {| connected := 0; transport_ready := 0; firmware_version := replicate 32 0; underruns := 0;
     transfer_errors := 0; packet_errors := 0; clock_rate_millihz := 0; active_frames := 0 |}.

Definition refuse_hello (status : Z) : NS6DeviceHelloReply :=
  {| hr_protocol_version := NS6_DEVICE_PROTOCOL_VERSION;
     hr_shared_struct_size := u32 sizeof_NS6SharedMemory; hr_mapped_size := 0;
     hr_memory_offset := 0; hr_session_id := 0; hr_status := status; hr_memory_entry := None |}.

Definition handle_hello (s : NS6DeviceService) (m : message) (peer_pid : Z)
    : NS6DeviceService * list call :=
  let request := as_hello (body m) in
  if negb (ns6_device_protocol_version_supported (hello_version request)) ||
     negb (hello_struct_size request =? sizeof_NS6SharedMemory) || (hello_client_id request =? 0)
  then (s, [ReplyHello (msgh_remote_port m) (refuse_hello MIG_BAD_ARGUMENTS)])
  else
    let '(ok, c) := ns6_device_client_registry_attach (clients s) (hello_client_id request)
                      (swrap 32 peer_pid) in
    if negb ok
    then (set_clients s c, [ReplyHello (msgh_remote_port m) (refuse_hello KERN_RESOURCE_SHORTAGE)])
    else
      (set_clients s c,
       [ReplyHello (msgh_remote_port m)
          {| hr_protocol_version := NS6_DEVICE_PROTOCOL_VERSION;
             hr_shared_struct_size := u32 sizeof_NS6SharedMemory;
             hr_mapped_size := mapping_size s; hr_memory_offset := memory_offset s;
             hr_session_id := session_id s; hr_status := KERN_SUCCESS;
             hr_memory_entry := Some (memory_entry s) |}]).

Definition update_audio_active_from_clients (s : NS6DeviceService)
    : NS6DeviceService * list call :=
  let active := ns6_device_client_registry_any_audio_active (clients s) in
  let was_active := audio_active s in
  (set_audio_active s active,
   if active then (if negb was_active then [UsbSetPaused false] else [])
   else if was_active then [UsbSetPaused true] else []).

(** One round of the loop of [reap_dead_clients]: the leases and whether any was
    reaped. *)
Definition reap_one (env : environment) (i : Z) (st : NS6DeviceClientRegistry * bool)
    : NS6DeviceClientRegistry * bool :=
  let '(c, reaped) := st in
  let client := rd c i in
  if (client_id client =? 0) || (process_id client <=? 0) then (c, reaped)
  else if process_exists env (process_id client) then (c, reaped)
  else
    let '(detached, c') := ns6_device_client_registry_detach_process c (process_id client) in
    if detached =? 0 then (c', reaped) else (c', true).

Definition reap_dead_clients (env : environment) (s : NS6DeviceService)
    : NS6DeviceService * list call :=
  let '(c, reaped) := for_loop (Z.to_nat NS6_DEVICE_MAX_CLIENTS) 0 (reap_one env)
                        (clients s, false) in
  let s := set_clients s c in
  if reaped then update_audio_active_from_clients s else (s, []).

(** [service.memory->session]. *)
Definition current_session (s : NS6DeviceService) : option NS6DeviceSession :=
  option_map session (memory s).

Definition handle_control (env : environment) (s : NS6DeviceService) (m : message)
    : NS6DeviceService * list call :=
  let request := as_control (body m) in
  let reply status := [ReplyControl (msgh_remote_port m) status] in
  if negb (ns6_device_protocol_version_supported (control_version request))
  then (s, reply MIG_BAD_ARGUMENTS)
  else if negb (ns6_device_session_is_current (current_session s) (control_session_id request)) ||
          negb (ns6_device_client_registry_contains (clients s) (control_client_id request))
  then (s, reply MIG_BAD_ID)
  else if msgh_id m =? NS6_DEVICE_MSG_SET_AUDIO_ACTIVE then
    if control_value request >? 1 then (s, reply MIG_BAD_ARGUMENTS)
    else
      let '(_, c) := ns6_device_client_registry_set_audio_active (clients s)
                       (control_client_id request) (negb (control_value request =? 0)) in
      let '(s', calls) := update_audio_active_from_clients (set_clients s c) in
      (s', calls ++ reply KERN_SUCCESS)
  else if msgh_id m =? NS6_DEVICE_MSG_RELEASE_CLIENT then
    let '(ok, c) := ns6_device_client_registry_detach (clients s) (control_client_id request) in
    if negb ok then (set_clients s c, reply MIG_BAD_ID)
    else
      let '(s', calls) := update_audio_active_from_clients (set_clients s c) in
      (s', calls ++ reply KERN_SUCCESS)
  else if msgh_id m =? NS6_DEVICE_MSG_SET_STARTUP_BUFFER then
    if negb (ns6_device_client_registry_contains (clients s) (control_client_id request))
    then (s, reply MIG_BAD_ID)
    else if (control_value request =? 0) || (control_value request >? 65536)
    then (s, reply MIG_BAD_ARGUMENTS)
    else
      let changed := negb (startup_buffer_frames s =? control_value request) in
      let s' := set_startup s (control_value request) in
      let restart := changed && usb_is_ready env in
      (s', UsbSetStartupBuffer (control_value request) ::
           (if restart then [UsbRequestRestart] else []) ++
           reply (if restart && negb (usb_request_restart env) then KERN_FAILURE else KERN_SUCCESS))
  else (s, reply MIG_BAD_ID).

Definition handle_state (s : NS6DeviceService) (m : message) : NS6DeviceService * list call :=
  let request := as_control (body m) in
  let status :=
    if ns6_device_protocol_version_supported (control_version request) &&
       ns6_device_session_is_current (current_session s) (control_session_id request) &&
       ns6_device_client_registry_contains (clients s) (control_client_id request)
    then KERN_SUCCESS else MIG_BAD_ID in
  let v := snapshot s in
  (s, [ReplyState (msgh_remote_port m) status
         {| connected := connected v; transport_ready := transport_ready v;
            firmware_version := firmware_version v; underruns := underruns v;
            transfer_errors := transfer_errors v; packet_errors := packet_errors v;
            clock_rate_millihz := clock_rate_millihz v;
            active_frames := startup_buffer_frames s |}]).

Definition reject_unauthorized_request (m : message) : list call :=
  if msgh_id m =? NS6_DEVICE_MSG_HELLO
  then [ReplyHello (msgh_remote_port m) (refuse_hello KERN_NO_ACCESS)]
  else if msgh_id m =? NS6_DEVICE_MSG_GET_STATE
  then [ReplyState (msgh_remote_port m) KERN_NO_ACCESS zero_snapshot]
  else [ReplyControl (msgh_remote_port m) KERN_NO_ACCESS].

(** [(size + sizeof(natural_t) - 1u) & ~(sizeof(natural_t) - 1u)], 32 bits wide. *)
Definition trailer_offset (size : Z) : Z :=
  Z.ldiff (u32 (size + sizeof_natural_t - 1)) (sizeof_natural_t - 1).

(** Whether the sender may use the service, and its process id when known. *)
Definition sender_is_authorized (m : message) (uid : Z) : bool * option Z :=
  let trailer := trailer_at m (trailer_offset (msgh_size m)) in
  if negb (trailer_type trailer =? MACH_MSG_TRAILER_FORMAT_0) ||
     (trailer_size trailer <? sizeof_mach_msg_audit_trailer_t) then (false, None)
  else (ns6_device_peer_uid_authorized (trailer_euid trailer) uid, Some (trailer_pid trailer)).

(** What [mach_msg] returns to the loop of [service_thread]. *)
Inductive received := Failure (result : Z) | Message (m : message).

(** One round of [service_thread] while the service is not stopping. *)
Definition service_round (env : environment) (s : NS6DeviceService) (r : received)
    : NS6DeviceService * list call :=
  match r with
  | Failure result =>
      if result =? MACH_RCV_TIMED_OUT then reap_dead_clients env s else (s, [])
  | Message m =>
      let '(authorized, pid) := sender_is_authorized m (coreaudiod_uid s) in
      if negb authorized then (s, reject_unauthorized_request m)
      else
        let '(s, reaped) := reap_dead_clients env s in
        let '(s, calls) :=
          if (msgh_id m =? NS6_DEVICE_MSG_HELLO) && (msgh_size m >=? sizeof_NS6DeviceHelloRequest)
          then handle_hello s m (default 0 pid)
          else if (msgh_id m =? NS6_DEVICE_MSG_GET_STATE) &&
                  (msgh_size m >=? sizeof_NS6DeviceControlRequest)
          then handle_state s m
          else if msgh_size m >=? sizeof_NS6DeviceControlRequest then handle_control env s m
          else (s, [ReplyControl (msgh_remote_port m) MIG_BAD_ARGUMENTS]) in
        (s, reaped ++ calls)
  end.

(** The loop: it ends when the service is stopping. *)
Fixpoint service_thread (s : NS6DeviceService) (inputs : list (environment * received))
    : NS6DeviceService * list call :=
  match inputs with
  | [] => (s, [])
  | (env, r) :: inputs' =>
      if stopping s then (s, [])
      else
        let '(s1, calls1) := service_round env s r in
        let '(s2, calls2) := service_thread s1 inputs' in
        (s2, calls1 ++ calls2)
  end.
End handlers.

(** ** Publishing and stopping *)

(** What [ns6_device_service_publish] learns from the system: the account, the
    page size, the memory entry (result, size, name), the check-in (result,
    port), the time, the loads of the in-flight counter and the thread creation. *)
Record publish_environment := {
  coreaudiod_account : option Z;
  vm_page_size : Z;
  make_memory_entry : Z * Z * Z;
  check_in : Z * Z;
  mach_absolute_time : Z;
  in_flight_loads : Z → Z;
  pthread_create : Z
}.

Section lifecycle.
Context `{MachABI}.

Definition set_session_of (m : NS6SharedMemory) (s : NS6DeviceSession) : NS6SharedMemory :=
  {| protocol_version := protocol_version m; struct_size := struct_size m;
     output := output m; capture := capture m; session := s;
     capture_requested := capture_requested m; capture_last_demand_ns := capture_last_demand_ns m |}.

(** The service after a failure: what is set before the failure stays. *)
Definition with_owner (s : NS6DeviceService) (uid : Z) (o : NS6DeviceOwner) (entry port : Z)
    : NS6DeviceService :=
  {| memory := memory s; receive_port := port; memory_entry := entry;
     mapping_base := mapping_base s; mapping_size := mapping_size s;
     memory_offset := memory_offset s; stopping := stopping s; owner := o;
     clients := clients s; running := running s; audio_active := audio_active s;
     startup_buffer_frames := startup_buffer_frames s; session_id := session_id s;
     coreaudiod_uid := uid; snapshot := snapshot s |}.

(** The address range that covers the block in whole pages: base, offset, length. *)
Definition page_range (page address size : Z) : Z * Z * Z :=
  let page_base := Z.ldiff address (page - 1) in
  let offset := address - page_base in
  (page_base, offset, Z.ldiff (u64 (offset + size + page - 1)) (page - 1)).

(** The memory block and its address; the result is whether the service runs, its
    state, and the block as the clients will see it. *)
Definition ns6_device_service_publish (env : publish_environment) (s : NS6DeviceService)
    (mem : option NS6SharedMemory) (address : Z)
    : bool * NS6DeviceService * option NS6SharedMemory :=
  match mem with
  | None => (false, s, mem)
  | Some m =>
      if running s || negb (protocol_version m =? NS6_SHARED_MEMORY_PROTOCOL_VERSION) ||
         negb (struct_size m =? sizeof_NS6SharedMemory) then (false, s, mem)
      else match coreaudiod_account env with
      | None => (false, s, mem)
      | Some uid =>
          let '(owned, o) := ns6_device_owner_claim (Some ns6_device_owner_init) in
          let o := default ns6_device_owner_init o in
          let released := default o (ns6_device_owner_release (Some o)) in
          if negb owned then (false, with_owner s uid o (memory_entry s) (receive_port s), mem)
          else
          let '(page_base, offset, length) := page_range (vm_page_size env) address
                                                sizeof_NS6SharedMemory in
          let '(result, entry_size, entry) := make_memory_entry env in
          if negb (result =? KERN_SUCCESS) || (entry_size <? length)
          then (false, with_owner s uid released entry (receive_port s), mem)
          else
            let '(result, port) := check_in env in
            if negb (result =? KERN_SUCCESS)
            then (false, with_owner s uid released MACH_PORT_NULL port, mem)
            else
              let id := Z.lxor (mach_absolute_time env) address in
              let id := if id =? 0 then 1 else id in
              let '(begun, session') := ns6_device_session_begin (Some (session m)) id
                                          (in_flight_loads env) in
              let m' := set_session_of m (default (session m) session') in
              let base := {| memory := None; receive_port := MACH_PORT_NULL;
                             memory_entry := MACH_PORT_NULL; mapping_base := page_base;
                             mapping_size := length; memory_offset := offset;
                             stopping := stopping s; owner := released;
                             clients := empty_registry; running := running s;
                             audio_active := audio_active s;
                             startup_buffer_frames := startup_buffer_frames s;
                             session_id := id; coreaudiod_uid := uid; snapshot := snapshot s |} in
              if negb begun then (false, base, Some m')
              else
                let v := snapshot s in
                let v := {| connected := 0; transport_ready := 0;
                            firmware_version := wr (firmware_version v) 0 0;
                            underruns := underruns v; transfer_errors := transfer_errors v;
                            packet_errors := packet_errors v;
                            clock_rate_millihz := clock_rate_millihz v;
                            active_frames := active_frames v |} in
                let started ok :=
                  {| memory := if ok : bool then Some m' else None;
                     receive_port := if ok then port else MACH_PORT_NULL;
                     memory_entry := if ok then entry else MACH_PORT_NULL;
                     mapping_base := page_base; mapping_size := length; memory_offset := offset;
                     stopping := false; owner := if ok then o else released;
                     clients := empty_registry; running := if ok then true else running s;
                     audio_active := false;
                     startup_buffer_frames := startup_buffer_frames s; session_id := id;
                     coreaudiod_uid := uid; snapshot := v |} in
                if negb (pthread_create env =? 0) then (false, started false, Some m')
                else (true, started true, Some m')
      end
  end.

(** [strlcpy] of a string (its bytes before the terminator) into [size] bytes. *)
Definition strlcpy (dst src : list Z) (size : Z) : list Z :=
  let n := Z.min (Z.of_nat (length src)) (size - 1) in
  wr (memcpy dst 0 (take (Z.to_nat n) src)) n 0.

Definition ns6_device_service_update_device_state (s : NS6DeviceService)
    (is_connected is_ready : bool) (firmware : option (list Z)) : NS6DeviceService :=
  let v := snapshot s in
  {| memory := memory s; receive_port := receive_port s; memory_entry := memory_entry s;
     mapping_base := mapping_base s; mapping_size := mapping_size s;
     memory_offset := memory_offset s; stopping := stopping s; owner := owner s;
     clients := clients s; running := running s; audio_active := audio_active s;
     startup_buffer_frames := startup_buffer_frames s; session_id := session_id s;
     coreaudiod_uid := coreaudiod_uid s;
     snapshot := {| connected := Z.b2z is_connected; transport_ready := Z.b2z is_ready;
                    firmware_version := match firmware with
                                        | Some f => strlcpy (firmware_version v) f 32
                                        | None => wr (firmware_version v) 0 0
                                        end;
                    underruns := underruns v; transfer_errors := transfer_errors v;
                    packet_errors := packet_errors v;
                    clock_rate_millihz := clock_rate_millihz v;
                    active_frames := active_frames v |} |}.

Definition ns6_device_service_audio_active (s : NS6DeviceService) : bool := audio_active s.

Definition ns6_device_service_stop (s : NS6DeviceService) : NS6DeviceService :=
  if negb (running s) then s
  else
    {| memory := None; receive_port := MACH_PORT_NULL; memory_entry := MACH_PORT_NULL;
       mapping_base := 0; mapping_size := 0; memory_offset := 0; stopping := true;
       owner := {| claimed := false |}; clients := clients s; running := false;
       audio_active := audio_active s; startup_buffer_frames := startup_buffer_frames s;
       session_id := session_id s; coreaudiod_uid := coreaudiod_uid s; snapshot := snapshot s |}.
End lifecycle.
