(* ===== verification/ServiceTheory.v ===== *)
(** * Theorems on the device service

    The audio state follows the leases of the clients, unauthorized peers change
    nothing, and leases of dead processes are reaped. *)

From stdpp Require Import base list numbers tactics gmap sets.
From Stdlib Require Import ZArith Lia ZifyBool.
From S2P Require Import Prelude Pcm Transport CaptureRing DeviceSession Registry SharedMemory.
From S2P Require Import MachService.

Section theory.
Context `{MachABI}.

(** ** The audio state *)

(** The registry is well formed and the service's flag is the aggregate of its
    clients' flags. *)
Definition consistent (s : NS6DeviceService) : Prop :=
  registry_wf (clients s) ∧
  MachService.audio_active s = ns6_device_client_registry_any_audio_active (clients s).

(** Whether the output is paused after a sequence of calls. *)
Definition paused_after (paused : bool) (calls : list call) : bool :=
  foldl (λ p c, match c with UsbSetPaused b => b | _ => p end) paused calls.

(** From a consistent state, the calls pause the output exactly when the last
    client stops and resume it exactly when the first one starts. *)
Definition follows (s : NS6DeviceService) (result : NS6DeviceService * list call) : Prop :=
  consistent (fst result) ∧
  paused_after (negb (MachService.audio_active s)) (snd result) =
    negb (MachService.audio_active (fst result)).

Lemma follows_app s s1 c1 s2 c2 : follows s (s1, c1) → follows s1 (s2, c2) → follows s (s2, c1 ++ c2).
Proof.
  unfold follows, paused_after. cbn [fst snd]. intros [_ H1] [H2 H3]. split; [done|].
  by rewrite foldl_app, H1, H3.
Qed.

Lemma follows_same s s' calls :
  consistent s' → MachService.audio_active s' = MachService.audio_active s →
  paused_after (negb (MachService.audio_active s)) calls = negb (MachService.audio_active s) →
  follows s (s', calls).
Proof. intros Hc Ha Hp. split; [done|]. cbn [fst snd]. by rewrite Ha. Qed.

(** Changing the leases and then updating the flag. *)
Lemma follows_update s c :
  registry_wf c → follows s (update_audio_active_from_clients (set_clients s c)).
Proof.
  intros Hc. unfold follows, update_audio_active_from_clients, consistent. cbn [fst snd].
  split; [done|].
  cbn [clients set_clients MachService.audio_active set_audio_active]. destruct (ns6_device_client_registry_any_audio_active c),
    (MachService.audio_active s); reflexivity.
Qed.

Lemma attach_any_active l id pid :
  registry_wf l →
  registry_wf (snd (ns6_device_client_registry_attach l id pid)) ∧
  ns6_device_client_registry_any_audio_active (snd (ns6_device_client_registry_attach l id pid)) =
  ns6_device_client_registry_any_audio_active l.
Proof.
  intros Hwf. pose proof (attach_refines l id pid Hwf) as Ha.
  destruct (ns6_device_client_registry_attach l id pid) as [ok l']. destruct Ha as [Hwf' Ha].
  cbn [snd]. split; [done|]. apply Bool.eq_iff_eq_true.
  rewrite !any_active_refines by done. unfold map_attach in Ha.
  destruct (id =? 0); [by injection Ha as _ ->|].
  destruct (abs l !! id) as [[p a]|] eqn:El.
  - injection Ha as _ ->. split; intros (id' & p' & Hl).
    + destruct (decide (id = id')) as [<-|].
      * rewrite lookup_insert_eq in Hl. injection Hl as <- ->. by exists id, p.
      * rewrite lookup_insert_ne in Hl by done. by exists id', p'.
    + destruct (decide (id = id')) as [<-|].
      * rewrite El in Hl. injection Hl as -> ->. exists id, pid. by rewrite lookup_insert_eq.
      * exists id', p'. by rewrite lookup_insert_ne.
  - destruct (size (abs l) <? 8)%nat; [|by injection Ha as _ ->].
    injection Ha as _ ->. split; intros (id' & p' & Hl).
    + destruct (decide (id = id')) as [<-|]; [by rewrite lookup_insert_eq in Hl|].
      rewrite lookup_insert_ne in Hl by done. by exists id', p'.
    + exists id', p'. rewrite lookup_insert_ne; [done|]. congruence.
Qed.

Lemma hello_follows s m pid : consistent s → follows s (handle_hello s m pid).
Proof.
  intros Hs. unfold handle_hello. destruct (_ || _ || _); [by apply follows_same|].
  destruct (attach_any_active (clients s) (hello_client_id (as_hello (body m))) (swrap 32 pid))
    as [Hwf Hany]; [apply Hs|].
  destruct (ns6_device_client_registry_attach _ _ _) as [ok c]. cbn [snd] in *.
  assert (consistent (set_clients s c)) as Hc.
  { split; [done|]. cbn [set_clients MachService.audio_active clients]. rewrite Hany. apply Hs. }
  destruct (negb ok); by apply follows_same.
Qed.

Lemma control_follows env s m : consistent s → follows s (handle_control env s m).
Proof.
  intros Hs. pose proof Hs as [Hwf Ha]. unfold handle_control.
  destruct (negb _); [by apply follows_same|]. destruct (_ || _); [by apply follows_same|].
  destruct (msgh_id m =? NS6_DEVICE_MSG_SET_AUDIO_ACTIVE).
  { destruct (_ >? 1); [by apply follows_same|].
    pose proof (set_active_refines (clients s) (control_client_id (as_control (body m)))
      (negb (control_value (as_control (body m)) =? 0)) Hwf) as Hr.
    destruct (ns6_device_client_registry_set_audio_active _ _ _) as [ok c]. destruct Hr as [Hc _].
    pose proof (follows_update s c Hc) as Hf.
    destruct (update_audio_active_from_clients (set_clients s c)) as [s' calls].
    eapply follows_app; [exact Hf|]. apply follows_same; [apply Hf|done|done]. }
  destruct (msgh_id m =? NS6_DEVICE_MSG_RELEASE_CLIENT).
  { pose proof (detach_refines (clients s) (control_client_id (as_control (body m))) Hwf) as Hr.
    destruct (ns6_device_client_registry_detach _ _) as [ok c] eqn:E. destruct Hr as [Hc _].
    destruct ok; cbn [negb].
    - pose proof (follows_update s c Hc) as Hf.
      destruct (update_audio_active_from_clients (set_clients s c)) as [s' calls].
      eapply follows_app; [exact Hf|]. apply follows_same; [apply Hf|done|done].
    - apply detach_false in E as ->. by apply follows_same. }
  destruct (msgh_id m =? NS6_DEVICE_MSG_SET_STARTUP_BUFFER); [|by apply follows_same].
  destruct (negb _); [by apply follows_same|]. destruct (_ || _); [by apply follows_same|].
  apply follows_same; [by split|done|]. destruct (_ && usb_is_ready env); reflexivity.
Qed.

(** Reaping only removes leases, and updates the flag when it did. *)
Lemma reap_one_spec env i c b :
  registry_wf c → registry_wf (fst (reap_one env i (c, b))) ∧
  (snd (reap_one env i (c, b)) = false → fst (reap_one env i (c, b)) = c ∧ b = false).
Proof.
  intros Hwf. unfold reap_one. destruct (_ || _); [by split|].
  destruct (process_exists env _); [by split|].
  pose proof (detach_process_refines c (process_id (rd c i)) Hwf) as Hd.
  destruct (ns6_device_client_registry_detach_process _ _) as [n c'] eqn:E. destruct Hd as [Hc _].
  destruct (n =? 0) eqn:En; cbn [fst snd]; [|done]. split; [done|]. intros ->. split; [|done].
  revert E. unfold ns6_device_client_registry_detach_process. destruct (_ <=? 0); intros [= <- <-].
  { done. }
  assert (length (List.filter (of_process (process_id (rd c i))) c) = 0%nat) as Hl by lia.
  revert Hl. generalize (of_process (process_id (rd c i))). clear. intros p.
  induction c as [|x c IH]; [done|]. cbn [List.filter map]. destruct (p x) eqn:E; [done|].
  intros Hl. by rewrite IH.
Qed.

Lemma reap_loop_spec env n i c b :
  registry_wf c →
  let '(c', b') := for_loop n i (reap_one env) (c, b) in
  registry_wf c' ∧ (b' = false → c' = c ∧ b = false).
Proof.
  revert i c b. induction n as [|n IH]; intros i c b Hwf; [done|]. cbn [for_loop].
  destruct (reap_one_spec env i c b Hwf) as [Hwf1 Hb1].
  destruct (reap_one env i (c, b)) as [c1 b1]. cbn [fst snd] in *.
  specialize (IH (i + 1) c1 b1 Hwf1).
  destruct (for_loop n (i + 1) (reap_one env) (c1, b1)) as [c2 b2].
  destruct IH as [Hwf2 Hb2]. split; [done|]. intros ->. destruct (Hb2 eq_refl) as [-> ->]. auto.
Qed.

Lemma reap_follows env s : consistent s → follows s (reap_dead_clients env s).
Proof.
  intros Hs. pose proof Hs as [Hwf Ha]. unfold reap_dead_clients.
  pose proof (reap_loop_spec env (Z.to_nat NS6_DEVICE_MAX_CLIENTS) 0 (clients s) false Hwf) as Hl.
  destruct (for_loop _ _ _ _) as [c reaped]. destruct Hl as [Hc Hb].
  destruct reaped; [by apply follows_update|].
  destruct (Hb eq_refl) as [-> _]. by apply follows_same.
Qed.

Lemma round_follows env s r : consistent s → follows s (service_round env s r).
Proof.
  intros Hs. destruct r as [result|m]; cbn [service_round].
  { destruct (result =? _); [by apply reap_follows|by apply follows_same]. }
  destruct (sender_is_authorized m (coreaudiod_uid s)) as [authorized pid].
  destruct (negb authorized).
  { apply follows_same; [done|done|]. unfold reject_unauthorized_request.
    destruct (_ =? _); [done|]. by destruct (_ =? _). }
  pose proof (reap_follows env s Hs) as Hr.
  destruct (reap_dead_clients env s) as [s1 reaped]. pose proof Hr as [Hs1 _]. cbn [fst] in Hs1.
  set (res := if _ && _ then _ else _).
  assert (follows s1 res) as Hres.
  { subst res. destruct (_ && _); [by apply hello_follows|].
    destruct (_ && _); [unfold handle_state; by apply follows_same|].
    destruct (_ >=? _); [by apply control_follows|by apply follows_same]. }
  destruct res as [s2 calls]. by eapply follows_app.
Qed.

Lemma thread_follows inputs s : consistent s → follows s (service_thread s inputs).
Proof.
  revert s. induction inputs as [|[env r] inputs IH]; intros s Hs; cbn [service_thread].
  { by apply follows_same. }
  destruct (stopping s); [by apply follows_same|].
  pose proof (round_follows env s r Hs) as Hr.
  destruct (service_round env s r) as [s1 c1]. specialize (IH s1 (proj1 Hr)).
  destruct (service_thread s1 inputs) as [s2 c2]. by eapply follows_app.
Qed.


(** ** Authorization *)

(** The status a call reports to the peer; [None] for calls that are not replies. *)
Definition reply_status (c : call) : option Z :=
  match c with
  | ReplyHello _ r => Some (hr_status r)
  | ReplyControl _ status => Some status
  | ReplyState _ status _ => Some status
  | _ => None
  end.

(** The peer of a message is root or the audio daemon, by the kernel's trailer. *)
Definition peer_allowed (s : NS6DeviceService) (m : message) : Prop :=
  let t := trailer_at m (trailer_offset (msgh_size m)) in
  trailer_type t = MACH_MSG_TRAILER_FORMAT_0 ∧
  sizeof_mach_msg_audit_trailer_t <= trailer_size t ∧
  (trailer_euid t = 0 ∨ (trailer_euid t = coreaudiod_uid s ∧ coreaudiod_uid s ≠ UINT32_MAX)).

Lemma authorized_iff s m :
  fst (sender_is_authorized m (coreaudiod_uid s)) = true ↔ peer_allowed s m.
Proof.
  unfold sender_is_authorized, peer_allowed, ns6_device_peer_uid_authorized.
  set (t := trailer_at m _). destruct (_ || _) eqn:E; cbn [fst]; lia.
Qed.

(** Calls of the registry update are never replies. *)
Lemma update_no_reply s : omap reply_status (snd (update_audio_active_from_clients s)) = [].
Proof.
  unfold update_audio_active_from_clients. cbn [snd].
  by destruct (ns6_device_client_registry_any_audio_active _), (MachService.audio_active s).
Qed.

Lemma reap_no_reply env s : omap reply_status (snd (reap_dead_clients env s)) = [].
Proof.
  unfold reap_dead_clients. destruct (for_loop _ _ _ _) as [c []]; [|done]. apply update_no_reply.
Qed.

(** Whether a control request may act: version, session and client all match. *)
Definition may_act (s : NS6DeviceService) (m : message) : bool :=
  let r := as_control (body m) in
  ns6_device_protocol_version_supported (control_version r) &&
  ns6_device_session_is_current (current_session s) (control_session_id r) &&
  ns6_device_client_registry_contains (clients s) (control_client_id r).

Lemma control_reply env s m :
  ∃ status, omap reply_status (snd (handle_control env s m)) = [status] ∧
  (may_act s m = false → status ∈ [MIG_BAD_ARGUMENTS; MIG_BAD_ID] ∧ fst (handle_control env s m) = s).
Proof.
  unfold handle_control, may_act.
  destruct (ns6_device_protocol_version_supported _); cbn [negb andb];
    [|eexists; split; [done|]; intros _; split; [by left|done]].
  destruct (ns6_device_session_is_current _ _); cbn [negb orb andb];
    [|eexists; split; [done|]; intros _; split; [by right; left|done]].
  destruct (ns6_device_client_registry_contains _ _); cbn [negb];
    [|eexists; split; [done|]; intros _; split; [by right; left|done]].
  destruct (msgh_id m =? NS6_DEVICE_MSG_SET_AUDIO_ACTIVE).
  { destruct (_ >? 1); [by eexists|].
    destruct (ns6_device_client_registry_set_audio_active _ _ _) as [ok c].
    pose proof (update_no_reply (set_clients s c)) as Hu.
    destruct (update_audio_active_from_clients _) as [s' calls]. cbn [snd] in *.
    rewrite omap_app, Hu. by eexists. }
  destruct (msgh_id m =? NS6_DEVICE_MSG_RELEASE_CLIENT).
  { destruct (ns6_device_client_registry_detach _ _) as [ok c].
    destruct ok; cbn [negb]; [|by eexists].
    pose proof (update_no_reply (set_clients s c)) as Hu.
    destruct (update_audio_active_from_clients _) as [s' calls]. cbn [snd] in *.
    rewrite omap_app, Hu. by eexists. }
  destruct (msgh_id m =? NS6_DEVICE_MSG_SET_STARTUP_BUFFER); [|by eexists].
  destruct (_ || _); [by eexists|]. destruct (_ && usb_is_ready env); by eexists.
Qed.

Lemma hello_reply s m pid : ∃ status, omap reply_status (snd (handle_hello s m pid)) = [status].
Proof.
  unfold handle_hello. destruct (_ || _ || _); [by eexists|].
  destruct (ns6_device_client_registry_attach _ _ _) as [ok c]. destruct (negb ok); by eexists.
Qed.

(** The service answers every message exactly once, and a message from a
    peer that is neither root nor the audio daemon is answered with "no access"
    and leaves the service, its clients and the USB engine untouched. *)
Theorem unauthorized_peers_change_nothing env s m :
  (∃ status, omap reply_status (snd (service_round env s (Message m))) = [status]) ∧
  (¬ peer_allowed s m →
     fst (service_round env s (Message m)) = s ∧
     length (snd (service_round env s (Message m))) = 1%nat ∧
     omap reply_status (snd (service_round env s (Message m))) = [KERN_NO_ACCESS]).
Proof.
  pose proof (authorized_iff s m) as Hauth. cbn [service_round].
  destruct (sender_is_authorized m (coreaudiod_uid s)) as [ok pid]. cbn [fst] in Hauth.
  destruct ok; cbn [negb].
  - split; [|intros Hn; destruct (Hn (proj1 Hauth eq_refl))].
    pose proof (reap_no_reply env s) as Hr. destruct (reap_dead_clients env s) as [s1 reaped].
    cbn [snd] in Hr. set (res := if _ && _ then _ else _).
    assert (∃ status, omap reply_status (snd res) = [status]) as [status Hst].
    { subst res. destruct (_ && _); [apply hello_reply|]. destruct (_ && _); [by eexists|].
      destruct (_ >=? _); [|by eexists]. destruct (control_reply env s1 m) as (st & Hst & _).
      by exists st. }
    destruct res as [s2 calls]. cbn [snd] in *. rewrite omap_app, Hr, Hst. by eexists.
  - unfold reject_unauthorized_request.
    destruct (_ =? _); [|destruct (_ =? _)]; (split; [by eexists|done]).
Qed.

(** ** Reaping *)

(** A lease whose process is gone. *)
Definition dead (env : environment) (x : NS6DeviceClientLease) : bool :=
  negb (client_id x =? 0) && negb (process_id x <=? 0) && negb (process_exists env (process_id x)).

Definition bury (env : environment) (x : NS6DeviceClientLease) : NS6DeviceClientLease :=
  if dead env x then free_lease else x.

(** Every lease is the original one or was freed because its process is gone. *)
Definition partly_buried (env : environment) (c c0 : NS6DeviceClientRegistry) : Prop :=
  Forall2 (λ x x0, x = x0 ∨ x = bury env x0) c c0.

Lemma bury_idem env x : bury env (bury env x) = bury env x.
Proof. unfold bury at 2 3. destruct (dead env x) eqn:E; [done|]. unfold bury. by rewrite E. Qed.

Lemma reap_one_buries env i (c c0 : NS6DeviceClientRegistry) b :
  0 <= i < Z.of_nat (length c) → partly_buried env c c0 →
  (∀ j, (j < Z.to_nat i)%nat → dead env (c !!! j) = false) →
  let c' := fst (reap_one env i (c, b)) in
  partly_buried env c' c0 ∧ length c' = length c ∧
  ∀ j, (j < Z.to_nat (i + 1))%nat → dead env (c' !!! j) = false.
Proof.
  intros Hi Hp Hj. cbn zeta. unfold reap_one, rd. set (x := c !!! Z.to_nat i).
  assert (dead env x = false → partly_buried env c c0 ∧ length c = length c ∧
    ∀ j, (j < Z.to_nat (i + 1))%nat → dead env (c !!! j) = false) as Hsame.
  { intros Hx. split; [done|]. split; [done|]. intros j Hlt.
    destruct (decide (j = Z.to_nat i)) as [->|]; [done|]. apply Hj. lia. }
  destruct ((client_id x =? 0) || (process_id x <=? 0)) eqn:E1.
  { apply Hsame. unfold dead. lia. }
  destruct (process_exists env (process_id x)) eqn:E2.
  { apply Hsame. unfold dead. rewrite E2. lia. }
  unfold ns6_device_client_registry_detach_process.
  replace (process_id x <=? 0) with false by lia. fold (cleared (process_id x) c).
  assert (∀ y, (if of_process (process_id x) y then free_lease else y) = y ∨
               (if of_process (process_id x) y then free_lease else y) = bury env y) as Hy.
  { intros y. unfold of_process, bury, dead.
    destruct (client_id y =? 0); [by left|]. destruct (process_id y =? process_id x) eqn:Ey; [|by left].
    right. replace (process_id y) with (process_id x) by lia. rewrite E2.
    by replace (process_id x <=? 0) with false by lia. }
  assert (fst (if Z.of_nat (length (List.filter (of_process (process_id x)) c)) =? 0
          then (cleared (process_id x) c, b) else (cleared (process_id x) c, true))
          = cleared (process_id x) c) as -> by by destruct (Z.of_nat _ =? 0).
  split; [|split; [unfold cleared; by rewrite length_map|]].
  - unfold partly_buried, cleared in *. apply Forall2_fmap_l. eapply Forall2_impl; [exact Hp|].
    intros y y0 [->| ->]; [apply Hy|]. right.
    destruct (Hy (bury env y0)) as [E|E]; rewrite E; [done|apply bury_idem].
  - intros j Hlt. unfold cleared. rewrite map_lookup_total by lia.
    unfold of_process.
    destruct (decide (j = Z.to_nat i)) as [->|].
    + fold x. rewrite Z.eqb_refl. by replace (client_id x =? 0) with false by lia.
    + destruct (_ && _); [done|]. apply Hj. lia.
Qed.

Lemma reap_loop_buries env n i (c c0 : NS6DeviceClientRegistry) b :
  0 <= i → (Z.to_nat i + n)%nat = length c → partly_buried env c c0 →
  (∀ j, (j < Z.to_nat i)%nat → dead env (c !!! j) = false) →
  fst (for_loop n i (reap_one env) (c, b)) = map (bury env) c0.
Proof.
  revert i c b. induction n as [|n IH]; intros i c b Hi Hn Hp Hj; cbn [for_loop].
  - cbn [fst]. unfold partly_buried in Hp. revert Hn Hj. rewrite Nat.add_0_r. intros ->.
    revert Hp. clear. induction 1 as [|x x0 c c0 Hx _ IH]; intros Hj; [done|]. cbn [map]. f_equal.
    + destruct Hx as [->| ->]; [|done]. specialize (Hj 0%nat ltac:(cbn; lia)). cbn in Hj.
      unfold bury. by rewrite Hj.
    + apply IH. intros j Hlt. apply (Hj (S j)). cbn. lia.
  - destruct (reap_one_buries env i c c0 b ltac:(lia) Hp Hj) as (Hp1 & Hl1 & Hj1).
    destruct (reap_one env i (c, b)) as [c1 b1]. cbn [fst] in *. apply IH; [lia|lia|done|done].
Qed.

(** Reaping frees exactly the leases whose process no longer exists and
    keeps every other lease in place. *)
Theorem reap_frees_exactly_dead_leases env s :
  length (clients s) = 8%nat →
  clients (fst (reap_dead_clients env s)) = map (bury env) (clients s).
Proof.
  intros Hl. unfold reap_dead_clients.
  pose proof (reap_loop_buries env 8 0 (clients s) (clients s) false ltac:(lia)) as Hb.
  rewrite Hl in Hb. specialize (Hb eq_refl).
  change (Z.to_nat NS6_DEVICE_MAX_CLIENTS) with 8%nat.
  destruct (for_loop 8 0 (reap_one env) (clients s, false)) as [c reaped]. cbn [fst] in Hb.
  assert (c = map (bury env) (clients s)) as ->.
  { apply Hb; [|intros; lia]. unfold partly_buried. clear.
    induction (clients s); constructor; auto. }
  by destruct reaped.
Qed.
End theory.

(** ** A concrete service *)

#[export] Instance darwin_abi : MachABI := {|
  KERN_SUCCESS := 0; KERN_FAILURE := 5; KERN_NO_ACCESS := 8; KERN_RESOURCE_SHORTAGE := 6;
  MIG_BAD_ID := -303; MIG_BAD_ARGUMENTS := -304; MACH_RCV_TIMED_OUT := 0x10004003;
  MACH_RCV_TOO_LARGE := 0x10004004; MACH_PORT_NULL := 0; MACH_MSG_TRAILER_FORMAT_0 := 0;
  MACH_MSG_PORT_DESCRIPTOR := 0; sizeof_natural_t := 4; sizeof_mach_msg_audit_trailer_t := 52;
  sizeof_NS6DeviceHelloRequest := 40; sizeof_NS6DeviceHelloReply := 80;
  sizeof_NS6DeviceControlRequest := 48; sizeof_NS6DeviceControlReply := 28;
  sizeof_state_reply := 112; sizeof_NS6SharedMemory := 393344 |}.

#[export] Instance darwin_laws : MachLaws.
Proof. by constructor. Qed.

(** Two attached clients, of processes 101 and 102; the second plays. *)
Definition two_clients : NS6DeviceService :=
  {| memory := None; receive_port := 1; memory_entry := 2; mapping_base := 0;
     mapping_size := 393344; memory_offset := 0; stopping := false; owner := {| claimed := true |};
     clients := [ {| client_id := 11; process_id := 101; Registry.audio_active := false |};
                  {| client_id := 12; process_id := 102; Registry.audio_active := true |} ]
                ++ replicate 6 free_lease;
     running := true; MachService.audio_active := true; startup_buffer_frames := 256;
     session_id := 9; coreaudiod_uid := 202; snapshot := zero_snapshot |}.

Definition only_101 : environment :=
  {| usb_is_ready := true; usb_request_restart := true; process_exists := λ pid, pid =? 101 |}.

Lemma two_clients_consistent : consistent two_clients.
Proof.
  split; [|reflexivity]. split; [reflexivity|]. cbn.
  repeat (constructor; [rewrite ?elem_of_cons, elem_of_nil; lia|]). constructor.
Qed.


Lemma reap_frees_exactly_dead_leases_witness :
  clients (fst (reap_dead_clients only_101 two_clients)) =
  {| client_id := 11; process_id := 101; Registry.audio_active := false |} :: replicate 7 free_lease.
Proof. rewrite (reap_frees_exactly_dead_leases only_101 two_clients eq_refl). reflexivity. Defined.

Lemma unauthorized_peers_change_nothing_witness :
  fst (service_round only_101 two_clients
         (Message {| msgh_id := NS6_DEVICE_MSG_RELEASE_CLIENT; msgh_size := 48;
                     msgh_remote_port := 3; body := [];
                     trailer_at := λ _, {| trailer_type := 0; trailer_size := 52;
                                           trailer_euid := 501; trailer_pid := 101 |} |}))
  = two_clients.
Proof.
  apply (proj2 (unauthorized_peers_change_nothing only_101 two_clients _)).
  unfold peer_allowed. cbn. lia.
Defined.
