(* ===== verification/DeviceClient.v ===== *)
(** * The HAL's connection to the device service (NS6DeviceClient.c)

    A client retains a send right on the service port, exchanges messages with the
    service and maps the shared memory the service hands out.  Each function
    returns its result, the client and the system calls it made, in order; what
    the calls return is an argument. *)

From stdpp Require Import base list numbers tactics.
From Stdlib Require Import ZArith Lia ZifyBool.
From S2P Require Import Prelude Pcm Transport CaptureRing DeviceSession SharedMemory.

Record NS6DeviceClient := {
  service_port : Z;
  mapping_address : Z;
  mapping_size : Z;
  shared_memory : option Z;
  session_id : Z;
  client_id : Z;
  connected : bool
}.

Inductive NS6DeviceClientStateResult :=
  | NS6_DEVICE_CLIENT_STATE_UNAVAILABLE
  | NS6_DEVICE_CLIENT_STATE_READY
  | NS6_DEVICE_CLIENT_STATE_REPLACED.

(** Calls that acquire or give back a port right or a mapping, and requests sent. *)
Inductive action :=
  | RetainPort (p : Z)
  | ReceivePort (p : Z)
  | DeallocatePort (p : Z)
  | MapMemory (address size : Z)
  | UnmapMemory (address size : Z)
  | SendRequest (id : Z) (request : list Z).

(** A reply by its message id; the structure the id announces follows the header. *)
Inductive reply_body :=
  | HelloBody (r : NS6DeviceHelloReply)
  | ControlBody (status : Z)
  | StateBody (status : Z) (v : NS6DeviceStateSnapshot)
  | OtherBody.

Record reply := { reply_size : Z; reply_content : reply_body }.

(** Results of the calls of one [exchange_message]: the reply port, the send and
    the receive. *)
Record exchange := {
  port_allocate : Z;
  send_result : Z;
  receive_result : Z;
  received : reply
}.

(** What [ns6_device_client_connect_to_port] learns: the results of releasing an
    earlier connection, of retaining the port, of the hello and of the mapping,
    the values its client id is made of, the header of the mapped block, and the
    result of releasing the new connection when the mapping fails. *)
Record connect_environment := {
  release_old : exchange;
  retain_result : Z;
  absolute_time : Z;
  client_pointer : Z;
  fetched_client_id : Z;
  hello : exchange;
  map_result : Z;
  map_address : Z;
  mapped_version : Z;
  mapped_struct_size : Z;
  release_new : exchange
}.

Section client.
Context `{MachABI}.

Definition exchange_message (x : exchange) (size : Z) : option reply_body :=
  if negb (port_allocate x =? KERN_SUCCESS) then None
  else if negb (send_result x =? KERN_SUCCESS) then None
  else if negb (receive_result x =? KERN_SUCCESS) then None
  else if reply_size (received x) >? size then None
  else Some (reply_content (received x)).

(** The calls of an exchange that matter outside it: the request that went out
    and the port right a complex reply carries. *)
Definition exchange_actions (x : exchange) (id : Z) (request : list Z) : list action :=
  if negb (port_allocate x =? KERN_SUCCESS) then []
  else if negb (send_result x =? KERN_SUCCESS) then []
  else SendRequest id request ::
    (if receive_result x =? KERN_SUCCESS then
       match reply_content (received x) with
       | HelloBody r => match hr_memory_entry r with Some p => [ReceivePort p] | None => [] end
       | _ => []
       end
     else []).

Definition control_request (c : NS6DeviceClient) (value : Z) : list Z :=
  of_control {| control_version := NS6_DEVICE_PROTOCOL_VERSION; control_value := value;
                control_session_id := session_id c; control_client_id := client_id c |}.

Definition send_control (c : NS6DeviceClient) (x : exchange) (message value : Z)
    : bool * list action :=
  if negb (connected c) || (service_port c =? MACH_PORT_NULL) then (false, [])
  else
    (match exchange_message x sizeof_NS6DeviceControlReply with
     | Some (ControlBody status) => status =? KERN_SUCCESS
     | _ => false
     end,
     exchange_actions x message (control_request c value)).

Definition disconnected : NS6DeviceClient :=
  {| service_port := MACH_PORT_NULL; mapping_address := 0; mapping_size := 0;
     shared_memory := None; session_id := 0; client_id := 0; connected := false |}.

Definition ns6_device_client_disconnect (c : NS6DeviceClient) (x : exchange)
    : NS6DeviceClient * list action :=
  (disconnected,
   (if connected c && negb (client_id c =? 0)
    then snd (send_control c x NS6_DEVICE_MSG_RELEASE_CLIENT 0) else []) ++
   (if negb (mapping_address c =? 0) && negb (mapping_size c =? 0)
    then [UnmapMemory (mapping_address c) (mapping_size c)] else []) ++
   (if negb (service_port c =? MACH_PORT_NULL) then [DeallocatePort (service_port c)] else [])).

(** The checks on a hello reply before the memory is mapped; a reply without a
    descriptor has the null port. *)
Definition hello_is_valid (id : Z) (r : NS6DeviceHelloReply) : bool :=
  ns6_device_protocol_version_supported (hr_protocol_version r) &&
  (hr_shared_struct_size r =? sizeof_NS6SharedMemory) &&
  negb (hr_session_id r =? 0) && negb (id =? 0) && (hr_status r =? KERN_SUCCESS) &&
  match hr_memory_entry r with Some p => negb (p =? MACH_PORT_NULL) | None => false end &&
  negb (hr_mapped_size r =? 0) && (hr_memory_offset r <? hr_mapped_size r) &&
  (sizeof_NS6SharedMemory <=? hr_mapped_size r - hr_memory_offset r).

Definition new_client_id (e : connect_environment) : Z :=
  let id := Z.lxor (Z.lxor (absolute_time e) (client_pointer e)) (fetched_client_id e) in
  if id =? 0 then 1 else id.

Definition hello_request (id : Z) : list Z :=
  of_hello {| hello_version := NS6_DEVICE_PROTOCOL_VERSION;
              hello_struct_size := u32 sizeof_NS6SharedMemory; hello_client_id := id |}.

(** After an accepted hello: map the block and check its header. *)
Definition map_shared_memory (e : connect_environment) (port id entry : Z)
    (r : NS6DeviceHelloReply) : bool * NS6DeviceClient * list action :=
  let c address size memory :=
    {| service_port := port; mapping_address := address; mapping_size := size;
       shared_memory := memory; session_id := hr_session_id r; client_id := id;
       connected := true |} in
  if negb (map_result e =? KERN_SUCCESS) then
    let '(c', acts) := ns6_device_client_disconnect (c 0 0 None) (release_new e) in
    (false, c', DeallocatePort entry :: acts)
  else
    let mapped := [MapMemory (map_address e) (hr_mapped_size r); DeallocatePort entry] in
    if negb (mapped_version e =? NS6_SHARED_MEMORY_PROTOCOL_VERSION) ||
       negb (mapped_struct_size e =? sizeof_NS6SharedMemory) then
      let '(c', acts) := ns6_device_client_disconnect
                           (c (map_address e) (hr_mapped_size r) None) (release_new e) in
      (false, c', mapped ++ acts)
    else (true, c (map_address e) (hr_mapped_size r)
                  (Some (map_address e +₆₄ hr_memory_offset r)), mapped).

Definition ns6_device_client_connect_to_port (c : NS6DeviceClient) (port : Z)
    (e : connect_environment) : bool * NS6DeviceClient * list action :=
  if port =? MACH_PORT_NULL then (false, c, [])
  else
    let '(c, acts) := ns6_device_client_disconnect c (release_old e) in
    if negb (retain_result e =? KERN_SUCCESS) then (false, c, acts)
    else
      let acts := acts ++ [RetainPort port] in
      let id := new_client_id e in
      let acts := acts ++ exchange_actions (hello e) NS6_DEVICE_MSG_HELLO (hello_request id) in
      match exchange_message (hello e) sizeof_NS6DeviceHelloReply with
      | None => (false, c, acts ++ [DeallocatePort port])
      | Some (HelloBody r) =>
          match hr_memory_entry r with
          | Some entry =>
              if hello_is_valid id r then
                let '(ok, c', acts') := map_shared_memory e port id entry r in
                (ok, c', acts ++ acts')
              else (false, c, acts ++ [DeallocatePort entry; DeallocatePort port])
          | None => (false, c, acts ++ [DeallocatePort port])
          end
      | Some _ => (false, c, acts ++ [DeallocatePort port])
      end.

(** [bootstrap_look_up] (its result and port) and the port-type test around it. *)
Definition ns6_device_client_connect (c : NS6DeviceClient) (look_up : Z * Z)
    (port_type_result : Z) (e : connect_environment) : bool * NS6DeviceClient * list action :=
  let '(result, port) := look_up in
  if negb (result =? KERN_SUCCESS) then (false, c, [])
  else
    let '(ok, c', acts) := ns6_device_client_connect_to_port c port e in
    (ok, c', ReceivePort port :: acts ++
             (if port_type_result =? KERN_SUCCESS then [DeallocatePort port] else [])).

Definition ns6_device_client_set_audio_active (c : NS6DeviceClient) (x : exchange)
    (active : bool) : bool * list action :=
  send_control c x NS6_DEVICE_MSG_SET_AUDIO_ACTIVE (if active then 1 else 0).

Definition ns6_device_client_set_startup_buffer (c : NS6DeviceClient) (x : exchange)
    (frames : Z) : bool * list action :=
  send_control c x NS6_DEVICE_MSG_SET_STARTUP_BUFFER frames.

(** The result, the snapshot it stores, if any, and the calls. *)
Definition ns6_device_client_get_state_result (c : NS6DeviceClient) (x : exchange)
    : NS6DeviceClientStateResult * option NS6DeviceStateSnapshot * list action :=
  if negb (connected c) then (NS6_DEVICE_CLIENT_STATE_UNAVAILABLE, None, [])
  else
    let acts := exchange_actions x NS6_DEVICE_MSG_GET_STATE (control_request c 0) in
    match exchange_message x sizeof_state_reply with
    | Some (StateBody status v) =>
        if status =? MIG_BAD_ID then (NS6_DEVICE_CLIENT_STATE_REPLACED, None, acts)
        else if negb (status =? KERN_SUCCESS) then (NS6_DEVICE_CLIENT_STATE_UNAVAILABLE, None, acts)
        else (NS6_DEVICE_CLIENT_STATE_READY, Some v, acts)
    | _ => (NS6_DEVICE_CLIENT_STATE_UNAVAILABLE, None, acts)
    end.

Definition ns6_device_client_get_state (c : NS6DeviceClient) (x : exchange) : bool :=
  match ns6_device_client_get_state_result c x with
  | (NS6_DEVICE_CLIENT_STATE_READY, _, _) => true
  | _ => false
  end.
End client.
