(* ===== verification/ClientTheory.v ===== *)
(** * Theorems on the client, alone and against the service

    Every port right and mapping a connection attempt acquires is either kept by
    the connected client or given back; and a client connected to the modelled
    service that asks for audio leaves the service active. *)

From stdpp Require Import base list numbers tactics gmap.
From Stdlib Require Import ZArith Lia ZifyBool.
From S2P Require Import Prelude Pcm Transport CaptureRing DeviceSession Registry SharedMemory.
From S2P Require Import MachService ServiceTheory DeviceClient.

Section theory.
Context `{MachABI}.

(** ** Balance of rights and mappings *)

(** Net change of the rights on port [p], and of the number of mappings. *)
Definition right (p : Z) (a : action) : Z :=
  match a with
  | RetainPort q | ReceivePort q => if p =? q then 1 else 0
  | DeallocatePort q => if p =? q then -1 else 0
  | _ => 0
  end.

Definition mapping (a : action) : Z :=
  match a with MapMemory _ _ => 1 | UnmapMemory _ _ => -1 | _ => 0 end.

Definition total (f : action → Z) (l : list action) : Z := foldr (λ a n, f a + n) 0 l.

Lemma total_app f l k : total f (l ++ k) = total f l + total f k.
Proof.
  induction l as [|a l IH]; [done|]. cbn [app].
  change (total f (a :: (l ++ k))) with (f a + total f (l ++ k)).
  change (total f (a :: l)) with (f a + total f l). lia.
Qed.

Lemma total_cons f a l : total f (a :: l) = f a + total f l.
Proof. done. Qed.

Lemma total_nil f : total f [] = 0.
Proof. done. Qed.

(** What a client holds. *)
Definition held (p : Z) (c : NS6DeviceClient) : Z :=
  if (service_port c =? p) && negb (p =? MACH_PORT_NULL) then 1 else 0.
Definition mapped (c : NS6DeviceClient) : Z :=
  if negb (mapping_address c =? 0) && negb (DeviceClient.mapping_size c =? 0) then 1 else 0.

(** The reply of an exchange carries no port right, or its right is received and
    the reply fits the buffer. *)
Definition carries_no_port (x : exchange) : Prop :=
  match reply_content (DeviceClient.received x) with
  | HelloBody r => hr_memory_entry r = None
  | _ => True
  end.

Definition balanced (c c' : NS6DeviceClient) (acts : list action) : Prop :=
  (∀ p, total (right p) acts = held p c' - held p c) ∧ total mapping acts = mapped c' - mapped c.

Lemma exchange_no_port x id request :
  carries_no_port x →
  (∀ p, total (right p) (exchange_actions x id request) = 0) ∧
  total mapping (exchange_actions x id request) = 0.
Proof.
  unfold carries_no_port, exchange_actions. intros Hx.
  destruct (negb _); [done|]. destruct (negb _); [done|]. destruct (_ =? _); [|done].
  destruct (reply_content _); try done. rewrite Hx. done.
Qed.

Lemma disconnect_balanced c x :
  carries_no_port x → balanced c disconnected (snd (ns6_device_client_disconnect c x)).
Proof.
  intros Hx. unfold ns6_device_client_disconnect. cbn [snd].
  assert (∃ r, r = (if connected c && negb (client_id c =? 0)
    then snd (send_control c x NS6_DEVICE_MSG_RELEASE_CLIENT 0) else []) ∧
    (∀ p, total (right p) r = 0) ∧ total mapping r = 0) as (r & <- & Hr & Hm).
  { eexists. split; [done|]. destruct (_ && _); [|done]. unfold send_control.
    destruct (_ || _); [done|]. by apply exchange_no_port. }
  split; [intros p|]; rewrite !total_app, ?Hr, ?Hm; unfold held, mapped; cbn [disconnected service_port mapping_address
      DeviceClient.mapping_size];
    destruct (negb (mapping_address c =? 0) && _) eqn:E1, (service_port c =? MACH_PORT_NULL) eqn:E2;
    cbn [negb]; rewrite ?total_cons, ?total_nil; cbn [right mapping]; case_ifs; lia.
Qed.

(** The right of the hello reply is received once. *)
Lemma hello_rights x size id request r entry :
  exchange_message x size = Some (HelloBody r) → hr_memory_entry r = Some entry →
  (∀ p, total (right p) (exchange_actions x id request) = if p =? entry then 1 else 0) ∧
  total mapping (exchange_actions x id request) = 0.
Proof.
  unfold exchange_message, exchange_actions. intros Hx He.
  destruct (negb _); [done|]. destruct (negb _); [done|].
  destruct (receive_result x =? KERN_SUCCESS); [|done]. cbn [negb] in Hx.
  destruct (_ >? _); [done|]. injection Hx as Hx. rewrite Hx, He.
  split; [intros p|]; rewrite !total_cons, !total_nil; cbn; lia.
Qed.

Lemma map_balanced e port id entry r :
  port ≠ MACH_PORT_NULL → carries_no_port (release_new e) →
  (map_result e = KERN_SUCCESS → map_address e ≠ 0) → hr_mapped_size r ≠ 0 →
  let '(ok, c', acts) := map_shared_memory e port id entry r in
  (∀ p, total (right p) acts =
     held p c' - (if p =? port then 1 else 0) - (if p =? entry then 1 else 0)) ∧
  total mapping acts = mapped c' ∧
  (ok = true → connected c' = true ∧ DeviceClient.session_id c' = hr_session_id r ∧
     client_id c' = id ∧ service_port c' = port).
Proof.
  intros Hport Hrel Haddr Hsize. unfold map_shared_memory.
  destruct (map_result e =? KERN_SUCCESS) eqn:Em; cbn [negb].
  - specialize (Haddr ltac:(lia)). destruct (_ || _).
    + set (c := {| service_port := port |}).
      destruct (disconnect_balanced c (release_new e) Hrel) as [Hr Hm].
      destruct (ns6_device_client_disconnect c (release_new e)) as [c' acts] eqn:Ed.
      cbn [snd] in *. assert (c' = disconnected) as -> by by injection Ed.
      split; [|split; [|done]].
      * intros p. rewrite !total_app, !total_cons, total_nil, Hr. unfold held. cbn. case_ifs; lia.
      * rewrite !total_app, !total_cons, total_nil, Hm. unfold mapped. cbn. case_ifs; lia.
    + split; [|split; [|done]].
      * intros p. rewrite !total_cons, total_nil. unfold held. cbn. case_ifs; lia.
      * unfold mapped. cbn. case_ifs; lia.
  - set (c := {| service_port := port |}).
    destruct (disconnect_balanced c (release_new e) Hrel) as [Hr Hm].
    destruct (ns6_device_client_disconnect c (release_new e)) as [c' acts] eqn:Ed.
    cbn [snd] in *. assert (c' = disconnected) as -> by by injection Ed.
    split; [|split; [|done]].
    * intros p. rewrite !total_cons, Hr. unfold held. cbn. case_ifs; lia.
    * rewrite !total_cons, Hm. unfold mapped. cbn. done.
Qed.

(** The hello reply fits the buffer, and only replies to hello carry a port. *)
Definition well_behaved (e : connect_environment) : Prop :=
  carries_no_port (release_old e) ∧ carries_no_port (release_new e) ∧
  (exchange_message (hello e) sizeof_NS6DeviceHelloReply = None → carries_no_port (hello e)) ∧
  (map_result e = KERN_SUCCESS → map_address e ≠ 0).

Lemma hello_is_valid_size id r : hello_is_valid id r = true → hr_mapped_size r ≠ 0.
Proof. unfold hello_is_valid. intros Hv. lia. Qed.

(** A failed hello: the retained right goes back. *)
Lemma retain_then_give_up c x acts port extra :
  port ≠ MACH_PORT_NULL → balanced c disconnected acts →
  (∀ p, total (right p) (exchange_actions x NS6_DEVICE_MSG_HELLO extra) = 0) →
  total mapping (exchange_actions x NS6_DEVICE_MSG_HELLO extra) = 0 →
  balanced c disconnected
    (((acts ++ [RetainPort port]) ++ exchange_actions x NS6_DEVICE_MSG_HELLO extra) ++
     [DeallocatePort port]).
Proof.
  intros Hp [Hr Hm] Hx Hxm. split; [intros p|]; rewrite !total_app, !total_cons, !total_nil.
  - rewrite Hr, Hx. cbn. case_ifs; lia.
  - rewrite Hm, Hxm. cbn. lia.
Qed.

(** A connection attempt never leaks and never over-releases: whatever the
    service and the kernel answer, for every port the rights acquired minus those
    given back are exactly the right the client holds afterwards minus the one it
    held before, and likewise for the mapping.  When the attempt fails the client
    is left disconnected, holding nothing. *)
Theorem connect_balances_resources c port e :
  port ≠ MACH_PORT_NULL → well_behaved e →
  let '(ok, c', acts) := ns6_device_client_connect_to_port c port e in
  (∀ p, total (right p) acts = held p c' - held p c) ∧
  total mapping acts = mapped c' - mapped c ∧
  (ok = false → c' = disconnected) ∧
  (ok = true → connected c' = true ∧ service_port c' = port ∧ client_id c' = new_client_id e).
Proof.
  intros Hport (Hold & Hnew & Hhello & Haddr). unfold ns6_device_client_connect_to_port.
  replace (port =? MACH_PORT_NULL) with false by lia.
  pose proof (disconnect_balanced c (release_old e) Hold) as Hd.
  destruct (ns6_device_client_disconnect c (release_old e)) as [c0 acts0] eqn:E0.
  assert (c0 = disconnected) as -> by by injection E0. cbn [snd] in Hd.
  destruct (negb _); [destruct Hd; by repeat split|].
  set (req := hello_request (new_client_id e)).
  assert (∀ f : Prop, carries_no_port (hello e) → let acts := ((acts0 ++ [RetainPort port]) ++
    exchange_actions (hello e) NS6_DEVICE_MSG_HELLO req) ++ [DeallocatePort port] in
    (∀ p, total (right p) acts = held p disconnected - held p c) ∧
    total mapping acts = mapped disconnected - mapped c ∧
    (false = false → disconnected = disconnected) ∧ (false = true → f)) as Hfail.
  { intros f Hno. destruct (exchange_no_port (hello e) NS6_DEVICE_MSG_HELLO req Hno) as [Hx Hxm].
    destruct (retain_then_give_up c (hello e) acts0 port req Hport Hd Hx Hxm) as [? ?].
    by repeat split. }
  destruct (exchange_message (hello e) _) as [content|] eqn:Ex; [|by apply Hfail, Hhello].
  assert (reply_content (DeviceClient.received (hello e)) = content) as Hcontent.
  { revert Ex. unfold exchange_message. repeat (destruct (negb _); [done|]).
    by destruct (_ >? _); intros [= ->]. }
  destruct content as [r|st|st v|];
    [|apply Hfail; unfold carries_no_port; by rewrite Hcontent..].
  destruct (hr_memory_entry r) as [entry|] eqn:Ee;
    [|apply Hfail; unfold carries_no_port; by rewrite Hcontent].
  destruct (hello_rights _ _ NS6_DEVICE_MSG_HELLO req _ _ Ex Ee) as [Hx Hxm].
  destruct Hd as [Hr Hm]. destruct (hello_is_valid (new_client_id e) r) eqn:Ev.
  - pose proof (map_balanced e port (new_client_id e) entry r Hport Hnew Haddr
      (hello_is_valid_size _ _ Ev)) as Hmap.
    destruct (map_shared_memory e port (new_client_id e) entry r) as [[ok c'] acts'] eqn:Emap.
    destruct Hmap as (Hr' & Hm' & Hok). split; [|split; [|split]].
    + intros p. rewrite !total_app, !total_cons, !total_nil, Hr, Hx, Hr'. cbn. unfold held at 1.
      cbn [service_port disconnected]. case_ifs; lia.
    + rewrite !total_app, !total_cons, !total_nil, Hm, Hxm, Hm'. cbn. lia.
    + intros ->. revert Emap. unfold map_shared_memory.
      destruct (negb (map_result e =? KERN_SUCCESS)); [by intros [= <- _]|].
      destruct (_ || _); [by intros [= <- _]|done].
    + intros ->. destruct (Hok eq_refl) as (? & _ & ? & ?). done.
  - split; [|split; [|done]].
    + intros p. rewrite !total_app, !total_cons, !total_nil, Hr, Hx. cbn. case_ifs; lia.
    + rewrite !total_app, !total_cons, !total_nil, Hm, Hxm. cbn. lia.
Qed.

(** ** The client against the service *)

Definition body_of (c : call) : option reply_body :=
  match c with
  | ReplyHello _ r => Some (HelloBody r)
  | ReplyControl _ status => Some (ControlBody status)
  | ReplyState _ status v => Some (StateBody status v)
  | _ => None
  end.

(** The request as the service receives it, with the identity of the sender. *)
Definition delivered (id size : Z) (request : list Z) (port : Z) (trailer : audit_trailer)
    : message :=
  {| msgh_id := id; msgh_size := size; msgh_remote_port := port; body := request;
     trailer_at := λ _, trailer |}.

(** An exchange the kernel carries out: the service processes the request, and a reply it makes is what
    the client receives. *)
Definition transported (env : environment) (s s' : NS6DeviceService) (m : message) (x : exchange)
    : Prop :=
  fst (service_round env s (Message m)) = s' ∧
  port_allocate x = KERN_SUCCESS ∧ send_result x = KERN_SUCCESS ∧
  receive_result x = KERN_SUCCESS ∧
  ∀ b, omap body_of (snd (service_round env s (Message m))) = [b] → reply_content (DeviceClient.received x) = b.

(** The mapping of the service's block, whose header is what the service holds. *)
Definition maps_block (s : NS6DeviceService) (e : connect_environment) : Prop :=
  map_result e = KERN_SUCCESS ∧
  ∀ mem, memory s = Some mem → mapped_version e = protocol_version mem ∧ mapped_struct_size e = struct_size mem.

(** Nothing is reaped while every process is alive. *)
Lemma reap_alive env s :
  (∀ pid, process_exists env pid = true) → reap_dead_clients env s = (s, []).
Proof.
  intros Hall. unfold reap_dead_clients.
  assert (∀ n i c b, for_loop n i (reap_one env) (c, b) = (c, b)) as Hloop.
  { induction n as [|n IH]; intros i c b; [done|]. cbn [for_loop].
    replace (reap_one env i (c, b)) with (c, b); [apply IH|]. unfold reap_one.
    destruct (_ || _); [done|]. by rewrite Hall. }
  rewrite Hloop. by destruct s.
Qed.

(** A running service with room for a client, as [ns6_device_service_publish]
    leaves it, and a sender it accepts. *)
Record ready (s : NS6DeviceService) : Prop := {
  rd_consistent : consistent s;
  rd_memory : ∃ mem, memory s = Some mem ∧ active_id (session mem) = MachService.session_id s ∧
    protocol_version mem = NS6_SHARED_MEMORY_PROTOCOL_VERSION ∧ struct_size mem = sizeof_NS6SharedMemory;
  rd_session : MachService.session_id s ≠ 0 ∧ is_u64 (MachService.session_id s);
  rd_entry : memory_entry s ≠ MACH_PORT_NULL;
  rd_range : memory_offset s + sizeof_NS6SharedMemory <= MachService.mapping_size s;
  rd_offset : 0 <= memory_offset s;
  rd_room : (size (abs (clients s)) < 8)%nat
}.

Definition struct_sizes : Prop := is_u32 sizeof_NS6SharedMemory ∧ 0 < sizeof_NS6SharedMemory.

Lemma hello_attaches env s s1 id t port x :
  ready s → struct_sizes → (∀ pid, process_exists env pid = true) →
  is_u64 id → id ≠ 0 → abs (clients s) !! id = None →
  let m := delivered NS6_DEVICE_MSG_HELLO sizeof_NS6DeviceHelloRequest (hello_request id) port t in
  peer_allowed s m → transported env s s1 m x → reply_size (DeviceClient.received x) <= sizeof_NS6DeviceHelloReply →
  ∃ r, exchange_message x sizeof_NS6DeviceHelloReply = Some (HelloBody r) ∧
    hr_memory_entry r = Some (memory_entry s) ∧ hello_is_valid id r = true ∧
    hr_session_id r = MachService.session_id s ∧
    registry_wf (clients s1) ∧ memory s1 = memory s ∧
    coreaudiod_uid s1 = coreaudiod_uid s ∧
    abs (clients s1) = <[id := (swrap 32 (trailer_pid t), false)]> (abs (clients s)).
Proof.
  intros Hs [Hsz Hpos] Hall Hid Hid0 Hnew m Hpeer (Hs1 & Ha & Hsend & Hrecv & Hbody) Hfit.
  cbn [service_round] in Hs1, Hbody. apply authorized_iff in Hpeer.
  destruct (sender_is_authorized m (coreaudiod_uid s)) as [ok pid] eqn:Eauth.
  cbn [fst] in Hpeer. subst ok. cbn [negb] in *. rewrite reap_alive in Hs1, Hbody by done.
  assert (pid = Some (trailer_pid t)) as ->.
  { revert Eauth. unfold sender_is_authorized. destruct (_ || _); [done|]. by intros [= _ <-]. }
  subst m. cbn [msgh_id msgh_size delivered] in *.
  rewrite Z.eqb_refl, Z.geb_leb, Z.leb_refl in Hs1, Hbody. cbn [andb] in *.
  unfold handle_hello in *. cbn [body delivered] in *. unfold hello_request in *.
  rewrite hello_roundtrip in Hs1, Hbody by (try done; apply u32_range).
  cbn [hello_version hello_struct_size hello_client_id] in *.
  rewrite (u32_id sizeof_NS6SharedMemory), Z.eqb_refl in * by done.
  replace (id =? 0) with false in * by lia. cbn in Hs1, Hbody.
  pose proof (attach_refines (clients s) id (swrap 32 (trailer_pid t))
    (proj1 (rd_consistent _ Hs))) as Hatt.
  destruct (ns6_device_client_registry_attach _ _ _) as [ok c]. destruct Hatt as [Hwf Habs].
  unfold map_attach in Habs. replace (id =? 0) with false in Habs by lia. rewrite Hnew in Habs.
  rewrite (proj2 (Nat.ltb_lt _ _) (rd_room _ Hs)) in Habs. injection Habs as -> Habs.
  cbn [negb fst snd app omap list_omap body_of] in Hs1, Hbody. subst s1. specialize (Hbody _ eq_refl).
  eexists. split; [|split; [|split; [|split; [|split; [|split; [|split]]]]]].
  - unfold exchange_message. rewrite Ha, Hsend, Hrecv, !Z.eqb_refl. cbn [negb].
    replace (_ >? _) with false by lia. by rewrite Hbody.
  - done.
  - unfold hello_is_valid, ns6_device_protocol_version_supported. cbn.
    pose proof (rd_session _ Hs). pose proof (rd_entry _ Hs). pose proof (rd_range _ Hs).
    pose proof (rd_offset _ Hs). lia.
  - done.
  - done.
  - done.
  - done.
  - done.
Qed.

Lemma activation_is_served env s s' c pid active t port x :
  registry_wf (clients s) → (∀ p, process_exists env p = true) →
  abs (clients s) !! client_id c = Some (pid, active) → is_u64 (client_id c) →
  DeviceClient.session_id c ≠ 0 → is_u64 (DeviceClient.session_id c) →
  (∃ mem, memory s = Some mem ∧ active_id (session mem) = DeviceClient.session_id c) →
  let m := delivered NS6_DEVICE_MSG_SET_AUDIO_ACTIVE sizeof_NS6DeviceControlRequest
             (control_request c 1) port t in
  peer_allowed s m → transported env s s' m x →
  reply_size (DeviceClient.received x) <= sizeof_NS6DeviceControlReply →
  exchange_message x sizeof_NS6DeviceControlReply = Some (ControlBody KERN_SUCCESS) ∧
  ns6_device_service_audio_active s' = true.
Proof.
  intros Hwf Hall Hc Hid Hsid Hsid64 (mem & Hmem & Hact) m Hpeer
    (Hs1 & Ha & Hsend & Hrecv & Hbody) Hfit.
  cbn [service_round] in Hs1, Hbody. apply authorized_iff in Hpeer.
  destruct (sender_is_authorized m (coreaudiod_uid s)) as [ok peer].
  cbn [fst] in Hpeer. subst ok. cbn [negb] in *. rewrite reap_alive in Hs1, Hbody by done.
  subst m. cbn [msgh_id msgh_size delivered] in *.
  change (NS6_DEVICE_MSG_SET_AUDIO_ACTIVE =? NS6_DEVICE_MSG_HELLO) with false in Hs1, Hbody.
  change (NS6_DEVICE_MSG_SET_AUDIO_ACTIVE =? NS6_DEVICE_MSG_GET_STATE) with false in Hs1, Hbody.
  cbn [andb] in Hs1, Hbody. rewrite Z.geb_leb, Z.leb_refl in Hs1, Hbody.
  unfold handle_control in *. cbn [body delivered msgh_id] in *.
  unfold control_request in *. rewrite control_roundtrip in Hs1, Hbody by done.
  cbn [control_version control_value control_session_id control_client_id] in *.
  unfold current_session in *. rewrite Hmem in *. cbn [option_map] in *.
  unfold ns6_device_session_is_current in *. rewrite Hact, Z.eqb_refl in *.
  replace (DeviceClient.session_id c =? 0) with false in * by lia.
  rewrite (contains_refines (clients s)), Hc in Hs1, Hbody by done.
  rewrite bool_decide_eq_true_2 in Hs1, Hbody by by eexists.
  change (ns6_device_protocol_version_supported NS6_DEVICE_PROTOCOL_VERSION) with true in *.
  rewrite Z.eqb_refl in Hs1, Hbody. cbn [negb orb andb] in Hs1, Hbody.
  change (1 >? 1) with false in *. change (1 =? 0) with false in *. cbn [negb] in *.
  pose proof (set_active_refines (clients s) (client_id c) true Hwf) as Hset.
  destruct (ns6_device_client_registry_set_audio_active _ _ _) as [ok l]. destruct Hset as [Hl Habs].
  unfold map_set_active in Habs. rewrite Hc in Habs. injection Habs as -> Habs.
  pose proof (update_no_reply (set_clients s l)) as Hnr.
  unfold update_audio_active_from_clients in *. cbn [fst snd] in *. split.
  - unfold exchange_message. rewrite Ha, Hsend, Hrecv, !Z.eqb_refl. cbn [negb].
    replace (_ >? _) with false by lia. rewrite omap_app in Hbody.
    destruct (ns6_device_client_registry_any_audio_active _), (MachService.audio_active _);
      cbn in Hbody; specialize (Hbody _ eq_refl); congruence.
  - subst s'. cbn. change (existsb _ l) with (ns6_device_client_registry_any_audio_active l).
    apply any_active_refines; [done|]. exists (client_id c), pid. rewrite Habs.
    apply lookup_insert_eq.
Qed.

(** C27: end to end: against a running service with room, whose clients are alive, an attempt of an
    allowed process with a client id not in use, whose port is retained, whose hello the kernel
    transports and whose mapping shows the service's block, connects under the service's session;
    and a transported request to activate audio then succeeds and leaves the service active. *)
Theorem connected_client_activates_audio env s s1 c0 port e t :
  ready s → struct_sizes → (∀ pid, process_exists env pid = true) → port ≠ MACH_PORT_NULL →
  is_u64 (new_client_id e) → abs (clients s) !! new_client_id e = None →
  let h := delivered NS6_DEVICE_MSG_HELLO sizeof_NS6DeviceHelloRequest
             (hello_request (new_client_id e)) port t in
  peer_allowed s h → transported env s s1 h (hello e) →
  reply_size (DeviceClient.received (hello e)) <= sizeof_NS6DeviceHelloReply →
  retain_result e = KERN_SUCCESS → maps_block s e →
  ∃ c acts, ns6_device_client_connect_to_port c0 port e = (true, c, acts) ∧
    client_id c = new_client_id e ∧ DeviceClient.session_id c = MachService.session_id s ∧
    ∀ s2 x,
      transported env s1 s2 (delivered NS6_DEVICE_MSG_SET_AUDIO_ACTIVE sizeof_NS6DeviceControlRequest
                               (control_request c 1) port t) x →
      reply_size (DeviceClient.received x) <= sizeof_NS6DeviceControlReply →
      fst (ns6_device_client_set_audio_active c x true) = true ∧ ns6_device_service_audio_active s2 = true.
Proof.
  intros Hs Hsz Hall Hport Hid Hnew h Hph Hh Hfit1 Hretain [Hmap Hblock].
  destruct (hello_attaches env s s1 (new_client_id e) t port (hello e))
    as (r & Er & Ee & Ev & Esid & Hwf1 & Hm1 & Hu1 & Habs1); try done.
  { unfold new_client_id. destruct (_ =? 0) eqn:E; lia. }
  destruct (rd_memory _ Hs) as (mem & Hmem & Hact & Hver & Hsize). destruct (rd_session _ Hs) as [Hsid Hsid64].
  destruct (Hblock mem Hmem) as [Hmv Hms].
  unfold ns6_device_client_connect_to_port. replace (port =? MACH_PORT_NULL) with false by lia.
  destruct (ns6_device_client_disconnect c0 _) as [c1 acts1].
  rewrite Hretain, Er, Ee, Ev. unfold map_shared_memory. rewrite Hmap, Hmv, Hms, Hver, Hsize, !Z.eqb_refl. cbn [negb orb].
  do 2 eexists. split; [done|]. split; [done|]. split; [done|]. intros s2 x Hx Hfit2.
  edestruct (activation_is_served env s1 s2) as [Hrep Hactive]; [| | | | | | | |exact Hx|exact Hfit2|];
    cbn [client_id DeviceClient.session_id]; rewrite ?Esid; try done.
  - rewrite Habs1. apply lookup_insert_eq.
  - exists mem. by rewrite Hm1.
  - unfold peer_allowed in *. rewrite Hu1. exact Hph.
  - split; [|done]. unfold ns6_device_client_set_audio_active, send_control. cbn [connected service_port].
    replace (port =? MACH_PORT_NULL) with false by lia. cbn [negb orb fst]. rewrite Hrep. apply Z.eqb_refl.
Qed.
End theory.

(** ** A concrete connection *)

Definition demo_memory : NS6SharedMemory :=
  {| protocol_version := 5; struct_size := 393344;
     output := {| Transport.samples := []; tags := []; read_cursor := 0; high_water := 0;
                  initialized := false |};
     capture := {| CaptureRing.samples := []; head := 0; tail := 0 |};
     session := {| active_id := 9; callbacks_in_flight := 0 |};
     capture_requested := false; capture_last_demand_ns := 0 |}.

Definition demo_service : NS6DeviceService :=
  {| memory := Some demo_memory; receive_port := 1; memory_entry := 2; mapping_base := 0;
     MachService.mapping_size := 393344; memory_offset := 0; stopping := false;
     owner := {| claimed := true |}; clients := empty_registry; running := true;
     MachService.audio_active := false; startup_buffer_frames := 256;
     MachService.session_id := 9; coreaudiod_uid := 202; snapshot := zero_snapshot |}.

Definition all_alive : environment :=
  {| usb_is_ready := true; usb_request_restart := true; process_exists := λ _, true |}.

Definition coreaudiod : audit_trailer :=
  {| trailer_type := 0; trailer_size := 52; trailer_euid := 202; trailer_pid := 77 |}.

(** The exchange in which [s] answers [m]. *)
Definition served (s : NS6DeviceService) (m : message) : exchange :=
  {| port_allocate := 0; send_result := 0; receive_result := 0;
     DeviceClient.received :=
       {| reply_size := 0;
          reply_content := match omap body_of (snd (service_round all_alive s (Message m))) with
                           | [b] => b
                           | _ => OtherBody
                           end |} |}.

Definition demo_hello : message :=
  delivered NS6_DEVICE_MSG_HELLO 40 (hello_request 20) 3 coreaudiod.

Definition silent : exchange :=
  {| port_allocate := 0; send_result := 1; receive_result := 0;
     DeviceClient.received := {| reply_size := 0; reply_content := OtherBody |} |}.

Definition demo_environment : connect_environment :=
  {| release_old := silent; retain_result := 0; absolute_time := 5; client_pointer := 16;
     fetched_client_id := 1; hello := served demo_service demo_hello; map_result := 0;
     map_address := 4096; mapped_version := 5; mapped_struct_size := 393344;
     release_new := silent |}.

Definition demo_connect : bool * NS6DeviceClient * list action :=
  ns6_device_client_connect_to_port disconnected 3 demo_environment.

Definition demo_client : NS6DeviceClient := snd (fst demo_connect).

Definition demo_attached : NS6DeviceService :=
  fst (service_round all_alive demo_service (Message demo_hello)).

Definition demo_activate : message :=
  delivered NS6_DEVICE_MSG_SET_AUDIO_ACTIVE 48 (control_request demo_client 1) 3 coreaudiod.

Lemma demo_ready : ready demo_service.
Proof.
  constructor.
  - split; [apply empty_registry_wf|reflexivity].
  - by exists demo_memory.
  - cbn. unfold is_u64. lia.
  - cbn. lia.
  - cbn. lia.
  - cbn. lia.
  - rewrite size_abs by apply empty_registry_wf.
    change (length (live (clients demo_service))) with 0%nat. lia.
Qed.

Lemma demo_transported s m b :
  omap body_of (snd (service_round all_alive s (Message m))) = [b] →
  transported all_alive s (fst (service_round all_alive s (Message m))) m (served s m).
Proof. intros E. repeat split. intros b' E'. cbn [DeviceClient.received reply_content served]. rewrite E in *. by injection E'. Qed.

Lemma connected_client_activates_audio_witness :
  ∃ c acts, ns6_device_client_connect_to_port disconnected 3 demo_environment = (true, c, acts) ∧
    DeviceClient.session_id c = 9 ∧
    fst (ns6_device_client_set_audio_active c (served demo_attached demo_activate) true) = true ∧
    ns6_device_service_audio_active
      (fst (service_round all_alive demo_attached (Message demo_activate))) = true.
Proof.
  assert (is_u64 (new_client_id demo_environment)) as Hid by (vm_compute; split; congruence).
  destruct (connected_client_activates_audio all_alive demo_service demo_attached
    disconnected 3 demo_environment coreaudiod) as (c & acts & Hc & _ & Hsid & Hact).
  - exact demo_ready.
  - unfold struct_sizes, is_u32. cbn. lia.
  - done.
  - cbn. lia.
  - exact Hid.
  - reflexivity.
  - unfold peer_allowed. cbn. unfold UINT32_MAX. lia.
  - eapply demo_transported. reflexivity.
  - cbn. lia.
  - reflexivity.
  - split; [reflexivity|]. intros mem [= <-]. by split.
  - assert (c = demo_client) as -> by (unfold demo_client, demo_connect; by rewrite Hc).
    exists demo_client, acts. split; [exact Hc|]. split; [exact Hsid|]. apply Hact; [|cbn; lia].
    eapply demo_transported. reflexivity.
Defined.

Lemma connect_balances_resources_witness :
  total (right 3) (snd demo_connect) = 1 ∧ total mapping (snd demo_connect) = 1.
Proof.
  pose proof (connect_balances_resources disconnected 3 demo_environment) as Hthm.
  fold demo_connect in Hthm. destruct demo_connect as [[ok c'] acts] eqn:E. cbn [snd].
  destruct Hthm as (Hr & Hm & _).
  - cbn. lia.
  - repeat split; cbn; try done; lia.
  - rewrite Hr, Hm. vm_compute in E. injection E as _ <- _. done.
Defined.
