(* ===== verification/MidiParser.v ===== *)
(** * MIDI streams (NS6MIDIParser.h and the packet paths of NS6MIDI.c and
      NS6MIDIBridge.c)

    The controller cuts one MIDI byte stream into 42-byte USB reports padded with
    0xfd; the parser reassembles the channel messages.  In the other direction the
    bridge packs messages into payloads of at most 41 bytes and the driver pads
    them to reports.  The theorems show that both directions preserve the
    messages, however the stream is cut. *)

From stdpp Require Import base list numbers tactics.
From Stdlib Require Import ZArith Lia ZifyBool.
From S2P Require Import Prelude.

Record ns6_midi_parser := { message : list Z; used : Z; expected : Z }.

Definition IDLE : Z := 0xfd.

Definition ns6_midi_report_stream_length (length : Z) : Z := if length >? 41 then 41 else length.

(** The loop body up to a completed message: the parser after one byte and the
    message it completes, if any. *)
Definition parser_byte (p : ns6_midi_parser) (byte : Z) : ns6_midi_parser * option (list Z) :=
  if byte =? IDLE then (p, None)
  else if negb (Z.land byte 0x80 =? 0) then
    if (byte >=? 0x80) && (byte <=? 0xef) then
      ({| message := wr (message p) 0 byte; used := 1;
          expected := if (byte >=? 0xc0) && (byte <=? 0xdf) then 2 else 3 |}, None)
    else ({| message := message p; used := 0; expected := 0 |}, None)
  else if (expected p =? 0) || (used p >=? 3) then (p, None)
  else
    let m := wr (message p) (used p) byte in
    let n := used p + 1 in
    if n =? expected p
    then ({| message := m; used := 0; expected := 0 |}, Some (slice m 0 (expected p)))
    else ({| message := m; used := n; expected := expected p |}, None).

(** The loop of [ns6_midi_parser_feed]: a completed message that does not fit is
    dropped. *)
Fixpoint parser_loop (p : ns6_midi_parser) (input : list Z) (output : list Z) (written capacity : Z)
    : Z * ns6_midi_parser * list Z :=
  match input with
  | [] => (written, p, output)
  | byte :: input' =>
      let '(p', completed) := parser_byte p byte in
      match completed with
      | None => parser_loop p' input' output written capacity
      | Some m =>
          if written + Z.of_nat (length m) >? capacity
          then parser_loop p' input' output written capacity
          else parser_loop p' input' (memcpy output written m) (written + Z.of_nat (length m)) capacity
      end
  end.

Definition ns6_midi_parser_feed (parser : option ns6_midi_parser) (input : option (list Z))
    (length : Z) (output : option (list Z)) (capacity : Z)
    : Z * option ns6_midi_parser * option (list Z) :=
  match parser, input, output with
  | Some p, Some i, Some o =>
      let '(written, p', o') := parser_loop p (slice i 0 length) o 0 capacity in
      (written, Some p', Some o')
  | _, _, _ => (0, parser, output)
  end.

(** ** Handshake replies ([inspect_handshake_reply]) *)

Record handshake := {
  handshake_capture : bool;
  handshake_reply_seen : bool;
  handshake_sysex_active : bool;
  handshake_sysex : list Z
}.

Definition SYSEX_BYTES : Z := 64.
Definition reply_prefix : list Z := [0xf0; 0x00; 0x01; 0x3f; 0x00; 0x79; 0x51].

(** [handshake_sysex] holds the first [handshake_sysex_length] bytes. *)
Definition with_sysex (h : handshake) (active : bool) (bytes : list Z) : handshake :=
  {| handshake_capture := handshake_capture h; handshake_reply_seen := handshake_reply_seen h;
     handshake_sysex_active := active; handshake_sysex := bytes |}.

Definition starts_with (bytes prefix : list Z) : bool :=
  (length prefix <=? length bytes)%nat && bool_decide (take (length prefix) bytes = prefix).

Definition inspect_byte (h : handshake) (byte : Z) : handshake :=
  if byte =? IDLE then h
  else if byte =? 0xf0 then with_sysex h true [byte]
  else if negb (handshake_sysex_active h) then h
  else if Z.of_nat (length (handshake_sysex h)) <? SYSEX_BYTES then
    let bytes := handshake_sysex h ++ [byte] in
    if byte =? 0xf7 then
      {| handshake_capture := handshake_capture h;
         handshake_reply_seen := if starts_with bytes reply_prefix then true
                                 else handshake_reply_seen h;
         handshake_sysex_active := false; handshake_sysex := [] |}
    else if negb (Z.land byte 0x80 =? 0) then with_sysex h false []
    else with_sysex h true bytes
  else with_sysex h false [].

Definition inspect_handshake_reply (h : handshake) (data : list Z) (length : Z) : handshake :=
  if negb (handshake_capture h) then h else foldl inspect_byte h (slice data 0 length).

(** ** Input reports ([publish_packet]) *)

Definition MIDI_PACKET_BYTES : Z := 42.

(** The parser, the handshake state and the datagrams sent to the bridge. *)
Record input_state := {
  in_parser : ns6_midi_parser;
  in_handshake : handshake;
  in_datagrams : list (list Z)
}.

Definition publish_packet (s : input_state) (data : list Z) (length : Z) : input_state :=
  let messages := replicate (Z.to_nat (MIDI_PACKET_BYTES + 3)) 0 in
  let stream_length := ns6_midi_report_stream_length length in
  let h := inspect_handshake_reply (in_handshake s) data (u32 stream_length) in
  let '(n, p, out) := ns6_midi_parser_feed (Some (in_parser s)) (Some data) stream_length
                        (Some messages) (MIDI_PACKET_BYTES + 3) in
  {| in_parser := default (in_parser s) p; in_handshake := h;
     in_datagrams := if negb (n =? 0)
                     then in_datagrams s ++ [slice (default [] out) 0 n] else in_datagrams s |}.

Definition bytes_of (completed : option (list Z)) : list Z :=
  match completed with Some m => m | None => [] end.

(** ** The stream, without buffers: what the parser computes *)

Fixpoint parse (p : ns6_midi_parser) (input : list Z) : ns6_midi_parser * list Z :=
  match input with
  | [] => (p, [])
  | byte :: input' =>
      let '(p', completed) := parser_byte p byte in
      let '(p'', out) := parse p' input' in
      (p'', bytes_of completed ++ out)
  end.

Lemma parse_app p a b :
  parse p (a ++ b) =
  let '(p1, o1) := parse p a in let '(p2, o2) := parse p1 b in (p2, o1 ++ o2).
Proof.
  revert p. induction a as [|x a IH]; intros p; cbn [app parse].
  - by destruct (parse p b).
  - destruct (parser_byte p x) as [p' c]. rewrite IH.
    destruct (parse p' a) as [p1 o1]. destruct (parse p1 b) as [p2 o2]. by rewrite app_assoc.
Qed.

(** The parser never holds more than two bytes, and a whole message at most three. *)
Definition parser_wf (p : ns6_midi_parser) : Prop :=
  length (message p) = 3%nat ∧
  ((used p = 0 ∧ expected p = 0) ∨ (1 <= used p < expected p ∧ 2 <= expected p <= 3)).

Lemma parser_byte_wf p byte :
  parser_wf p →
  let '(p', c) := parser_byte p byte in
  parser_wf p' ∧ used p' + Z.of_nat (length (bytes_of c)) <= used p + 1.
Proof.
  intros [Hl Hu]. unfold parser_byte, parser_wf.
  destruct (byte =? IDLE); [cbn; lia|].
  destruct (negb _).
  - destruct (_ && _); cbn; rewrite ?length_wr; [|lia]. case_ifs; lia.
  - destruct (_ || _) eqn:E; [cbn; lia|].
    destruct (used p + 1 =? expected p) eqn:E2; cbn [message used expected bytes_of length].
    + rewrite length_slice by (rewrite ?length_wr; lia). rewrite length_wr. lia.
    + rewrite length_wr. lia.
Qed.

Lemma parse_length p input :
  parser_wf p →
  let '(p', out) := parse p input in
  parser_wf p' ∧ used p' + Z.of_nat (length out) <= used p + Z.of_nat (length input).
Proof.
  revert p. induction input as [|x input IH]; intros p Hp; cbn [parse]; [cbn; split; [done|lia]|].
  pose proof (parser_byte_wf p x Hp) as Hx. destruct (parser_byte p x) as [p' c].
  destruct Hx as [Hp' Hlen]. specialize (IH p' Hp'). destruct (parse p' input) as [p'' out].
  destruct IH as [Hp'' Hlen']. split; [done|]. rewrite length_app. cbn [length]. lia.
Qed.

(** Writing after what is already there. *)
Lemma memcpy_after (A B src : list Z) :
  (length src <= length B)%nat →
  memcpy (A ++ B) (Z.of_nat (length A)) src = (A ++ src) ++ drop (length src) B.
Proof.
  intros Hlen. unfold memcpy. rewrite Nat2Z.id.
  replace (length A) with (length A + 0)%nat by lia. rewrite list_inserts_app_r.
  rewrite <- (take_drop (length src) B) at 1.
  rewrite list_inserts_0_r by (rewrite length_take; lia). by rewrite app_assoc.
Qed.

(** With enough room the loop stores exactly the parsed bytes. *)
Lemma parser_loop_parse p input A B capacity :
  parser_wf p → Z.of_nat (length (A ++ B)) = capacity →
  used p + Z.of_nat (length A) + Z.of_nat (length input) <= capacity →
  let '(p', out) := parse p input in
  parser_loop p input (A ++ B) (Z.of_nat (length A)) capacity =
    (Z.of_nat (length (A ++ out)), p', A ++ out ++ drop (length out) B).
Proof.
  revert p A B. induction input as [|x input IH]; intros p A B Hp Hcap Hroom; cbn [parse parser_loop].
  - by rewrite app_nil_r, drop_0.
  - pose proof (parser_byte_wf p x Hp) as Hx. destruct (parser_byte p x) as [p' c].
    destruct Hx as [Hp' Hlen]. cbn [length] in Hroom.
    assert (0 <= used p') as Hu by (destruct Hp' as [_ Hp']; lia).
    destruct c as [m|]; cbn [bytes_of length] in *.
    + rewrite length_app in Hcap.
      replace (_ >? capacity) with false by lia.
      rewrite memcpy_after by lia. replace (Z.of_nat (length A) + Z.of_nat (length m))
        with (Z.of_nat (length (A ++ m))) by (rewrite length_app; lia).
      specialize (IH p' (A ++ m) (drop (length m) B) Hp').
      destruct (parse p' input) as [p'' out]. rewrite IH.
      * rewrite !length_app, drop_drop, <- !app_assoc. by rewrite Nat.add_assoc.
      * rewrite !length_app, length_drop. lia.
      * rewrite length_app. lia.
    + specialize (IH p' A B Hp' Hcap). destruct (parse p' input) as [p'' out]. by rewrite IH by lia.
Qed.

(** ** Channel messages *)

Definition channel_message (m : list Z) : Prop :=
  match m with
  | [s; d] => 0xc0 <= s <= 0xdf ∧ 0 <= d < 0x80
  | [s; d1; d2] => (0x80 <= s < 0xc0 ∨ 0xdf < s <= 0xef) ∧ 0 <= d1 < 0x80 ∧ 0 <= d2 < 0x80
  | _ => False
  end.

(** The bytes of a stream that are not padding. *)
Definition not_idle (b : Z) : bool := negb (b =? IDLE).
Definition payload (bs : list Z) : list Z := List.filter not_idle bs.

(** A property of all bytes, checked one by one. *)
Lemma byte_cases (P : Z → bool) :
  forallb P (map Z.of_nat (seq 0 256)) = true → ∀ b, 0 <= b < 256 → P b = true.
Proof.
  intros H b Hb. rewrite forallb_forall in H. apply H. apply in_map_iff.
  exists (Z.to_nat b). split; [lia|]. apply in_seq. lia.
Qed.

Lemma high_bit b : 0 <= b < 256 → (Z.land b 0x80 =? 0) = (b <? 0x80).
Proof.
  intros Hb. apply (byte_cases (λ b, Bool.eqb (Z.land b 0x80 =? 0) (b <? 0x80))) in Hb;
    [by apply eqb_prop|]. vm_compute. reflexivity.
Qed.

Lemma parse_payload p bs : parse p bs = parse p (payload bs).
Proof.
  revert p. induction bs as [|b bs IH]; intros p; [done|]. cbn [payload List.filter parse].
  fold (payload bs). unfold not_idle at 1. destruct (b =? IDLE) eqn:E; cbn [negb].
  - unfold parser_byte. rewrite E. rewrite IH. by destruct (parse p (payload bs)).
  - cbn [parse]. destruct (parser_byte p b) as [p' c]. by rewrite IH.
Qed.

Definition idle_parser (p : ns6_midi_parser) : Prop :=
  length (message p) = 3%nat ∧ used p = 0 ∧ expected p = 0.

Lemma status_byte p s :
  0x80 <= s <= 0xef →
  parser_byte p s = ({| message := wr (message p) 0 s; used := 1;
                        expected := if (s >=? 0xc0) && (s <=? 0xdf) then 2 else 3 |}, None).
Proof.
  intros Hs. unfold parser_byte, IDLE. replace (s =? 253) with false by lia.
  rewrite high_bit by lia. replace (s <? 128) with false by lia. cbn [negb].
  by replace ((s >=? 128) && (s <=? 239)) with true by lia.
Qed.

Lemma data_byte p d :
  0 <= d < 0x80 → 1 <= used p < expected p → expected p <= 3 →
  parser_byte p d =
    let m := wr (message p) (used p) d in
    if used p + 1 =? expected p
    then ({| message := m; used := 0; expected := 0 |}, Some (slice m 0 (expected p)))
    else ({| message := m; used := used p + 1; expected := expected p |}, None).
Proof.
  intros Hd Hu He. unfold parser_byte, IDLE. replace (d =? 253) with false by lia.
  rewrite high_bit by lia. replace (d <? 128) with true by lia. cbn [negb].
  by replace ((expected p =? 0) || (used p >=? 3)) with false by lia.
Qed.

Lemma parse_message p m :
  length (message p) = 3%nat → channel_message m →
  ∃ p', parse p m = (p', m) ∧ idle_parser p'.
Proof.
  intros Hp Hm. destruct p as [msg u e]. cbn in Hp.
  destruct msg as [|a [|b [|c []]]]; try done.
  destruct m as [|s [|d1 [|d2 []]]]; try done; cbn [channel_message] in Hm; cbn [parse].
  - destruct Hm as [Hs Hd]. rewrite status_byte by lia.
    replace ((s >=? 192) && (s <=? 223)) with true by lia.
    rewrite data_byte by (cbn; lia). cbn. by eexists.
  - destruct Hm as (Hs & Hd1 & Hd2). rewrite status_byte by lia.
    replace ((s >=? 192) && (s <=? 223)) with false by lia.
    rewrite data_byte by (cbn; lia). cbn -[parser_byte]. change (1 + 1 =? 3) with false.
    cbv iota. rewrite data_byte by (cbn; lia). cbn. by eexists.
Qed.

Lemma parse_messages ms p :
  length (message p) = 3%nat → Forall channel_message ms →
  ∃ p', parse p (concat ms) = (p', concat ms) ∧ length (message p') = 3%nat ∧
        (ms ≠ [] → idle_parser p').
Proof.
  intros Hp Hms. revert p Hp. induction Hms as [|m ms Hm Hms IH]; intros p Hp.
  - by exists p.
  - destruct (parse_message p m Hp Hm) as (p1 & E1 & H1).
    destruct (IH p1 (proj1 H1)) as (p2 & E2 & H2 & H3).
    exists p2. cbn [concat]. rewrite parse_app, E1, E2. split; [done|]. split; [done|]. intros _.
    destruct ms; [cbn in E2; by injection E2 as <-|]. by apply H3.
Qed.

(** ** Reports *)

(** The stream carried by a report of [length] bytes. *)
Definition stream_of (report : list Z) : list Z := take 41 report.

Lemma publish_packet_parse s report :
  parser_wf (in_parser s) → (length report <= 42)%nat →
  let '(p', out) := parse (in_parser s) (stream_of report) in
  in_parser (publish_packet s report (Z.of_nat (length report))) = p' ∧ parser_wf p' ∧
  in_datagrams (publish_packet s report (Z.of_nat (length report))) =
    in_datagrams s ++ (if (length out =? 0)%nat then [] else [out]) ∧ (length out <= 43)%nat.
Proof.
  intros Hp Hr. unfold publish_packet, ns6_midi_parser_feed.
  assert (Hsl : slice report 0 (ns6_midi_report_stream_length (Z.of_nat (length report))) =
                stream_of report).
  { unfold slice, stream_of, ns6_midi_report_stream_length. rewrite drop_0.
    destruct (Z.of_nat (length report) >? 41) eqn:E; [done|].
    rewrite !take_ge by lia. done. }
  rewrite Hsl. pose proof (parse_length (in_parser s) (stream_of report) Hp) as Hlen.
  assert (length (stream_of report) <= 41)%nat as H41 by (unfold stream_of; rewrite length_take; lia).
  assert (used (in_parser s) <= 2) as Hu by (destruct Hp as [_ Hp]; lia).
  pose proof (parser_loop_parse (in_parser s) (stream_of report) [] (replicate 45 0)
    (MIDI_PACKET_BYTES + 3) Hp eq_refl) as Hloop.
  destruct (parse (in_parser s) (stream_of report)) as [p' out]. destruct Hlen as [Hp' Hlen].
  assert (0 <= used p') by (destruct Hp' as [_ Hp'']; lia).
  cbn [app length] in Hloop. change (Z.to_nat (MIDI_PACKET_BYTES + 3)) with 45%nat.
  change (Z.of_nat 0) with 0 in Hloop. rewrite Hloop by (unfold MIDI_PACKET_BYTES; lia).
  cbn [in_parser in_datagrams default from_option id]. split; [done|]. split; [done|].
  split; [|lia]. destruct (length out =? 0)%nat eqn:E.
  - replace (Z.of_nat (length out) =? 0) with true by lia. cbn [negb]. by rewrite app_nil_r.
  - replace (Z.of_nat (length out) =? 0) with false by lia. cbn [negb]. do 2 f_equal.
    unfold slice. rewrite drop_0, Nat2Z.id. by rewrite take_app_length.
Qed.

Definition publish_all (s : input_state) (reports : list (list Z)) : input_state :=
  foldl (λ s r, publish_packet s r (Z.of_nat (length r))) s reports.

Lemma publish_all_parse reports s :
  parser_wf (in_parser s) → Forall (λ r, length r <= 42)%nat reports →
  let '(p', out) := parse (in_parser s) (concat (map stream_of reports)) in
  in_parser (publish_all s reports) = p' ∧
  ∃ ds, in_datagrams (publish_all s reports) = in_datagrams s ++ ds ∧ concat ds = out ∧
        Forall (λ d, 0 < length d <= 43)%nat ds.
Proof.
  intros Hp Hr. revert s Hp. induction Hr as [|r reports Hr Hrs IH]; intros s Hp.
  - cbn. split; [done|]. exists []. by rewrite app_nil_r.
  - pose proof (publish_packet_parse s r Hp Hr) as H1.
    cbn [map concat]. rewrite parse_app.
    destruct (parse (in_parser s) (stream_of r)) as [p1 o1]. destruct H1 as (E1 & Hp1 & Ed & Hl).
    cbn [publish_all foldl]. set (s1 := publish_packet s r _) in *.
    assert (parser_wf (in_parser s1)) as Hp1' by by rewrite E1.
    specialize (IH s1 Hp1'). rewrite E1 in IH.
    destruct (parse p1 (concat (map stream_of reports))) as [p2 o2].
    destruct IH as (E2 & ds & Hds & Hc & Hf). split; [exact E2|].
    exists ((if (length o1 =? 0)%nat then [] else [o1]) ++ ds).
    fold (publish_all s1 reports). rewrite Hds, Ed, <- app_assoc. split; [done|].
    rewrite concat_app, Hc. destruct (length o1 =? 0)%nat eqn:E.
    + assert (o1 = []) as -> by (apply nil_length_inv; lia). done.
    + cbn. rewrite app_nil_r. split; [done|]. constructor; [lia|done].
Qed.

(** Messages survive the cut into USB reports: if the reports, without
    their terminator bytes and padding, carry the bytes of some channel messages,
    then the datagrams forwarded to the bridge carry exactly these messages, in
    order and unbroken by the boundaries, and no datagram exceeds the buffer. *)
Theorem reports_reassemble reports ms s :
  parser_wf (in_parser s) → Forall (λ r, length r <= 42)%nat reports →
  Forall channel_message ms →
  payload (concat (map stream_of reports)) = concat ms →
  ∃ ds, in_datagrams (publish_all s reports) = in_datagrams s ++ ds ∧
        concat ds = concat ms ∧ Forall (λ d, 0 < length d <= 43)%nat ds.
Proof.
  intros Hp Hr Hms Hpay. pose proof (publish_all_parse reports s Hp Hr) as H.
  rewrite parse_payload, Hpay in H.
  destruct (parse_messages ms (in_parser s) (proj1 Hp) Hms) as (p' & E & _).
  rewrite E in H. destruct H as (_ & ds & H). by exists ds.
Qed.

(** Two messages over two reports, the second one broken by the boundary. *)
Definition demo_reports : list (list Z) :=
  [ [0x90; 60; 100] ++ replicate 36 IDLE ++ [0xb1; 0x3b] ++ [0xe0]; [0x01] ++ replicate 41 IDLE ].

Definition demo_input : input_state :=
  {| in_parser := {| message := [0; 0; 0]; used := 0; expected := 0 |};
     in_handshake := {| handshake_capture := false; handshake_reply_seen := false;
                        handshake_sysex_active := false; handshake_sysex := [] |};
     in_datagrams := [] |}.

Lemma reports_reassemble_witness :
  ∃ ds, in_datagrams (publish_all demo_input demo_reports) = ds ∧
        concat ds = [0x90; 60; 100; 0xb1; 0x3b; 0x01].
Proof.
  destruct (reports_reassemble demo_reports [[0x90; 60; 100]; [0xb1; 0x3b; 0x01]] demo_input)
    as (ds & Hds & Hc & _).
  - split; [done|]. left. done.
  - repeat constructor; cbn; lia.
  - repeat constructor; cbn; lia.
  - reflexivity.
  - exists ds. split; [exact Hds|exact Hc].
Defined.

(** ** Output: from the application to reports *)

Definition heartbeat_message : list Z := [0xf0; 0x7d; 0x4e; 0x53; 0x36; 0x48; 0xf7].

Definition is_heartbeat (data : list Z) : bool := bool_decide (data = heartbeat_message).

Definition midi_length (status : Z) : Z :=
  let class := Z.land status 0xf0 in
  if (class =? 0x80) || (class =? 0x90) || (class =? 0xa0) || (class =? 0xb0) || (class =? 0xe0)
  then 3
  else if (class =? 0xc0) || (class =? 0xd0) then 2 else 0.

(** The report being filled, the datagrams handed to [sendto] on the open socket (whether the system
    takes them is not recorded: the source only counts bytes for its log) and the number of heartbeats
    observed. *)
Record bridge := { report : list Z; sent : list (list Z); heartbeats : Z }.

Definition send_to_driver (b : bridge) (data : list Z) : bridge :=
  {| report := report b; sent := if (length data =? 0)%nat then sent b else sent b ++ [data];
     heartbeats := heartbeats b |}.

(** [send_to_driver(report, used); used = 0;]. *)
Definition flush (b : bridge) : bridge :=
  let b := send_to_driver b (report b) in
  {| report := []; sent := sent b; heartbeats := heartbeats b |}.

(** The inner loop over the bytes of one packet from the current offset; each
    round moves the offset, so the length of the data is enough fuel. *)
Fixpoint pack_packet (fuel : nat) (b : bridge) (data : list Z) : bridge :=
  match fuel, data with
  | S fuel', status :: rest =>
      if status =? 0xf0 then
        let b := flush b in
        if is_heartbeat data
        then {| report := report b; sent := sent b; heartbeats := heartbeats b + 1 |}
        else send_to_driver b (take 41 data)
      else
        let len := midi_length status in
        if (len =? 0) || (len >? Z.of_nat (length data)) then pack_packet fuel' b rest
        else
          let b := if Z.of_nat (length (report b)) + len >? 41 then flush b else b in
          pack_packet fuel' {| report := report b ++ take (Z.to_nat len) data; sent := sent b;
                               heartbeats := heartbeats b |} (drop (Z.to_nat len) data)
  | _, _ => b
  end.

Definition receive_from_application (b : bridge) (packets : list (list Z)) : bridge :=
  let b := {| report := []; sent := sent b; heartbeats := heartbeats b |} in
  let b := foldl (λ b p, pack_packet (length p) b p) b packets in
  send_to_driver b (report b).

(** The channel messages of a packet without system exclusive bytes. *)
Fixpoint messages_in (fuel : nat) (data : list Z) : list (list Z) :=
  match fuel, data with
  | S fuel', status :: rest =>
      let len := midi_length status in
      if (len =? 0) || (len >? Z.of_nat (length data)) then messages_in fuel' rest
      else take (Z.to_nat len) data :: messages_in fuel' (drop (Z.to_nat len) data)
  | _, _ => []
  end.

(** The datagrams and the open report, as groups of whole messages. *)
Record grouped (b : bridge) (base : list (list Z)) (gs : list (list (list Z)))
    (open : list (list Z)) : Prop := {
  g_sent : sent b = base ++ map (@concat Z) gs;
  g_report : report b = concat open;
  g_open : Forall (λ m, m ≠ []) open;
  g_bounds : Forall (λ d, 0 < length d <= 41)%nat (map (@concat Z) gs);
  g_room : (length (report b) <= 41)%nat
}.

Lemma concat_nil_inv (ms : list (list Z)) :
  Forall (λ m, m ≠ []) ms → length (concat ms) = 0%nat → ms = [].
Proof.
  intros [|m ms' Hm _] Hl; [done|]. destruct m; [done|]. cbn in Hl. lia.
Qed.

Lemma grouped_flush b base gs open :
  grouped b base gs open → ∃ gs', grouped (flush b) base gs' [] ∧ concat gs' = concat gs ++ open.
Proof.
  intros [Hs Hr Ho Hf Hl]. destruct (length (report b) =? 0)%nat eqn:E.
  - exists gs. assert (open = []) as -> by (apply concat_nil_inv; [done|]; rewrite <- Hr; lia).
    rewrite app_nil_r. split; [|done]. unfold flush, send_to_driver.
    rewrite E. constructor; cbn [sent report]; try done. cbn. lia.
  - exists (gs ++ [open]). rewrite concat_app. cbn [concat]. rewrite app_nil_r. split; [|done].
    unfold flush, send_to_driver. rewrite E. constructor; cbn [sent report]; try done.
    + by rewrite map_app, app_assoc, <- Hs, Hr.
    + rewrite map_app. apply Forall_app. split; [done|]. constructor; [|done].
      rewrite <- Hr. lia.
    + cbn. lia.
Qed.

Lemma midi_length_cases s : midi_length s = 0 ∨ midi_length s = 2 ∨ midi_length s = 3.
Proof. unfold midi_length. destruct (_ || _); [auto|]. destruct (_ || _); auto. Qed.

Lemma pack_packet_grouped fuel b base gs open data :
  Forall (λ x, x ≠ 0xf0) data → grouped b base gs open →
  ∃ gs' open', grouped (pack_packet fuel b data) base gs' open' ∧
    concat gs' ++ open' = concat gs ++ open ++ messages_in fuel data.
Proof.
  revert b gs open data. induction fuel as [|fuel IH]; intros b gs open data Hd Hg.
  { cbn. exists gs, open. by rewrite app_nil_r. }
  destruct data as [|status rest]; cbn [pack_packet messages_in].
  { exists gs, open. by rewrite app_nil_r. }
  apply Forall_cons_1 in Hd as [Hst Hrest]. replace (status =? 240) with false by lia.
  destruct (_ || _) eqn:Elen; [by apply IH|].
  set (len := midi_length status) in *. pose proof (midi_length_cases status) as Hlen.
  fold len in Hlen. set (m := take (Z.to_nat len) (status :: rest)).
  assert (length m = Z.to_nat len) as Hm by (subst m; rewrite length_take; lia).
  assert (∃ gs1 open1, concat gs1 ++ open1 = concat gs ++ open ∧
    grouped (if Z.of_nat (length (report b)) + len >? 41 then flush b else b) base gs1 open1 ∧
    (Z.of_nat (length (concat open1)) + len <= 41)) as (gs1 & open1 & Hc1 & Hg1 & Hroom).
  { destruct (_ >? 41) eqn:E.
    - destruct (grouped_flush _ _ _ _ Hg) as (gs1 & Hg1 & Hc1).
      exists gs1, []. rewrite app_nil_r. split; [done|]. split; [done|]. cbn. lia.
    - exists gs, open. split; [done|]. split; [done|]. rewrite <- (g_report _ _ _ _ Hg). lia. }
  set (b1 := if Z.of_nat (length (report b)) + len >? 41 then flush b else b) in *.
  destruct (IH {| report := report b1 ++ m; sent := sent b1; heartbeats := heartbeats b1 |}
    gs1 (open1 ++ [m]) (drop (Z.to_nat len) (status :: rest))) as (gs2 & open2 & Hg2 & Hc2).
  - apply Forall_drop. by constructor.
  - destruct Hg1 as [Hs Hr Ho Hf Hl]. constructor; cbn [sent report]; try done.
    + rewrite concat_app, Hr. cbn. by rewrite app_nil_r.
    + apply Forall_app. split; [done|]. constructor; [|done]. intros ->. cbn in Hm. lia.
    + rewrite length_app, Hr. lia.
  - exists gs2, open2. split; [exact Hg2|]. rewrite Hc2, <- !app_assoc.
    rewrite (app_assoc (concat gs1)), Hc1, <- app_assoc. done.
Qed.

Definition messages_of (packets : list (list Z)) : list (list Z) :=
  concat (map (λ p, messages_in (length p) p) packets).

Lemma pack_all_grouped packets b base gs open :
  Forall (Forall (λ x, x ≠ 0xf0)) packets → grouped b base gs open →
  ∃ gs' open', grouped (foldl (λ b p, pack_packet (length p) b p) b packets) base gs' open' ∧
    concat gs' ++ open' = concat gs ++ open ++ messages_of packets.
Proof.
  intros Hp. revert b gs open. induction Hp as [|p packets Hp Hps IH]; intros b gs open Hg.
  - exists gs, open. cbn. by rewrite app_nil_r.
  - destruct (pack_packet_grouped (length p) b base gs open p Hp Hg) as (gs1 & open1 & Hg1 & Hc1).
    destruct (IH _ gs1 open1 Hg1) as (gs2 & open2 & Hg2 & Hc2).
    exists gs2, open2. split; [exact Hg2|]. rewrite Hc2, (app_assoc (concat gs1)), Hc1.
    unfold messages_of. cbn [map concat]. by rewrite <- !app_assoc.
Qed.

Lemma bridge_packs packets b :
  Forall (Forall (λ x, x ≠ 0xf0)) packets →
  ∃ gs, sent (receive_from_application b packets) = sent b ++ map (@concat Z) gs ∧
    concat gs = messages_of packets ∧
    Forall (λ d, 0 < length d <= 41)%nat (map (@concat Z) gs).
Proof.
  intros Hp. unfold receive_from_application.
  destruct (pack_all_grouped packets {| report := []; sent := sent b; heartbeats := heartbeats b |}
    (sent b) [] [] Hp) as (gs & open & Hg & Hc).
  { constructor; cbn; try done; [by rewrite app_nil_r|lia]. }
  destruct (grouped_flush _ _ _ _ Hg) as (gs' & Hg' & Hc').
  exists gs'. destruct Hg' as [Hs _ _ Hf _]. split; [exact Hs|]. split; [|done].
  rewrite Hc', Hc. done.
Qed.

(** Packing for the driver neither splits, drops nor reorders messages: for
    packets without system exclusive data, the datagrams sent are groups of whole
    channel messages, of one to 41 bytes each, and the groups together are the
    messages of the packets in order. *)
Theorem bridge_packs_whole_messages packets b :
  Forall (Forall (λ x, x ≠ 0xf0)) packets →
  ∃ gs, sent (receive_from_application b packets) = sent b ++ map (@concat Z) gs ∧
    concat gs = messages_of packets ∧
    Forall (λ d, 0 < length d <= 41)%nat (map (@concat Z) gs).
Proof. apply bridge_packs. Qed.

Lemma bridge_packs_whole_messages_witness :
  ∃ gs, sent (receive_from_application {| report := []; sent := []; heartbeats := 0 |}
                [[0x90; 60; 100; 0xfe; 0xc0; 5]]) = map (@concat Z) gs ∧
        concat gs = [[0x90; 60; 100]; [0xc0; 5]].
Proof.
  destruct (bridge_packs_whole_messages [[0x90; 60; 100; 0xfe; 0xc0; 5]]
    {| report := []; sent := []; heartbeats := 0 |}) as (gs & H1 & H2 & _).
  - repeat constructor; lia.
  - exists gs. split; [exact H1|exact H2].
Defined.
