(* ===== verification/MidiQueue.v ===== *)
(** * The MIDI output queue (NS6MIDI.c) and the path from the application to the wire

    [enqueue] builds 42-byte reports in a ring of 1024 packets; the writing thread
    takes them out in order.  The ring refines a bounded FIFO that drops packets
    when full.  The last theorem follows messages from the application to the
    reports on the wire and back through the report parser. *)

From stdpp Require Import base list numbers tactics.
From Stdlib Require Import ZArith Lia ZifyBool.
From S2P Require Import Prelude MidiParser.

Definition MIDI_WRITE_QUEUE : Z := 1024.
Definition MIDI_OUTPUT_CONTROL : Z := 0xe0.

Record write_queue := { queue : list (list Z); head : Z; tail : Z }.

(** The report for a payload: padding, the payload, the control byte. *)
Definition packet_of (data : list Z) : list Z :=
  wr (memcpy (replicate (Z.to_nat MIDI_PACKET_BYTES) IDLE) 0 data) (MIDI_PACKET_BYTES - 1)
     MIDI_OUTPUT_CONTROL.

Definition enqueue (q : write_queue) (data : list Z) : write_queue :=
  let length := Z.of_nat (length data) in
  if (length =? 0) || (length >=? MIDI_PACKET_BYTES) then q
  else
    let next := (tail q + 1) mod MIDI_WRITE_QUEUE in
    if negb (next =? head q)
    then {| queue := wr (queue q) (tail q) (packet_of data); head := head q; tail := next |}
    else q.

(** The end of a round of [write_worker]: the next packet, unless the ring is empty. *)
Definition dequeue (q : write_queue) : option (list Z) * write_queue :=
  if head q =? tail q then (None, q)
  else (Some (rd (queue q) (head q)),
        {| queue := queue q; head := (head q + 1) mod MIDI_WRITE_QUEUE; tail := tail q |}).

Definition queued_output_packets (q : write_queue) : Z :=
  (tail q + MIDI_WRITE_QUEUE - head q) mod MIDI_WRITE_QUEUE.

(** The three messages the driver itself sends ([NS6MIDIHandshake.h]). *)
Definition NS6_MIDI_HOST_IDENTIFY : list Z :=
  [0xf0; 0x00; 0x01; 0x3f; 0x7f; 0x79; 0x50; 0x00; 0x10; 0x04; 0x01; 0x00; 0x00; 0x00;
   0x04; 0x04; 0x0e; 0x0f; 0x00; 0x00; 0x0e; 0x05; 0x0f; 0x04; 0x0c; 0x06; 0x0b; 0x0f;
   0x0d; 0x0c; 0xf7].
Definition NS6_MIDI_JOG_ENABLE : list Z :=
  [0xb1; 0x3b; 0x01; 0xb2; 0x3b; 0x01; 0xb3; 0x3b; 0x01; 0xb4; 0x3b; 0x01].
Definition NS6_MIDI_WAKE : list Z :=
  [0xf0; 0x00; 0x01; 0x3f; 0x7f; 0x79; 0x60; 0x00; 0x01; 0x49; 0x01; 0x00; 0x00; 0x00; 0x00; 0xf7].

(** ** The ring is a FIFO *)

(** [ps] are the packets waiting, oldest first. *)
Record queue_rel (q : write_queue) (ps : list (list Z)) : Prop := {
  q_length : length (queue q) = Z.to_nat MIDI_WRITE_QUEUE;
  q_head : 0 <= head q < MIDI_WRITE_QUEUE;
  q_tail : tail q = (head q + Z.of_nat (length ps)) mod MIDI_WRITE_QUEUE;
  q_room : Z.of_nat (length ps) < MIDI_WRITE_QUEUE;
  q_cells : ∀ i, (i < length ps)%nat →
      rd (queue q) ((head q + Z.of_nat i) mod MIDI_WRITE_QUEUE) = ps !!! i
}.

(** What the ring promises: at most 1023 waiting packets. *)
Definition fifo_push (ps : list (list Z)) (data : list Z) : list (list Z) :=
  if (0 <? length data)%nat && (length data <? 42)%nat && (length ps <? 1023)%nat
  then ps ++ [packet_of data] else ps.

Lemma enqueue_refines q ps data :
  queue_rel q ps → queue_rel (enqueue q data) (fifo_push ps data).
Proof.
  intros [Hl Hh Ht Hr Hc]. unfold enqueue, fifo_push, MIDI_WRITE_QUEUE, MIDI_PACKET_BYTES in *.
  destruct (_ || _) eqn:E1.
  { replace ((0 <? length data)%nat && (length data <? 42)%nat && (length ps <? 1023)%nat)
      with false by lia. by constructor. }
  replace ((0 <? length data)%nat && (length data <? 42)%nat) with true by lia.
  destruct ((tail q + 1) mod 1024 =? head q) eqn:E2; cbn [negb andb].
  { replace (length ps <? 1023)%nat with false by (Z.div_mod_to_equations; lia). by constructor. }
  replace (length ps <? 1023)%nat with true by (Z.div_mod_to_equations; lia).
  constructor; cbn [queue head tail]; unfold MIDI_WRITE_QUEUE.
  - by rewrite length_wr.
  - done.
  - rewrite length_app. cbn. Z.div_mod_to_equations; lia.
  - rewrite length_app. cbn. Z.div_mod_to_equations; lia.
  - intros i Hi. rewrite length_app in Hi. cbn in Hi. destruct (decide (i = length ps)) as [->|].
    + rewrite <- Ht, rd_wr_eq by (rewrite Hl; Z.div_mod_to_equations; lia).
      by rewrite list_lookup_total_middle.
    + rewrite rd_wr_ne by (Z.div_mod_to_equations; lia).
      rewrite lookup_total_app_l by lia. apply Hc. lia.
Qed.

Lemma dequeue_refines q ps :
  queue_rel q ps →
  match ps with
  | [] => dequeue q = (None, q)
  | p :: ps' => ∃ q', dequeue q = (Some p, q') ∧ queue_rel q' ps'
  end.
Proof.
  intros [Hl Hh Ht Hr Hc]. unfold dequeue, MIDI_WRITE_QUEUE in *. destruct ps as [|p ps'].
  - cbn in Ht. rewrite Z.add_0_r, Z.mod_small in Ht by lia.
    by replace (head q =? tail q) with true by lia.
  - cbn [length] in *. replace (head q =? tail q) with false by (Z.div_mod_to_equations; lia).
    eexists. split.
    + pose proof (Hc 0%nat ltac:(lia)) as H0. rewrite Z.add_0_r, Z.mod_small in H0 by lia.
      by rewrite H0.
    + constructor; cbn [queue head tail]; unfold MIDI_WRITE_QUEUE; try done.
      * Z.div_mod_to_equations; lia.
      * rewrite Ht. Z.div_mod_to_equations; lia.
      * lia.
      * intros i Hi. rewrite Zplus_mod_idemp_l. transitivity ((p :: ps') !!! S i); [|done].
        rewrite <- Hc by lia. do 2 f_equal. lia.
Qed.

Inductive queue_op := Push (data : list Z) | Pop.

Definition run_op (st : write_queue * list (list Z)) (o : queue_op) : write_queue * list (list Z) :=
  let '(q, out) := st in
  match o with
  | Push data => (enqueue q data, out)
  | Pop => let '(p, q') := dequeue q in
           (q', match p with Some p => out ++ [p] | None => out end)
  end.

Definition spec_op (st : list (list Z) * list (list Z)) (o : queue_op)
    : list (list Z) * list (list Z) :=
  let '(ps, out) := st in
  match o with
  | Push data => (fifo_push ps data, out)
  | Pop => match ps with [] => (ps, out) | p :: ps' => (ps', out ++ [p]) end
  end.

Definition empty_queue : write_queue :=
  {| queue := replicate (Z.to_nat MIDI_WRITE_QUEUE) []; head := 0; tail := 0 |}.

Lemma empty_queue_rel : queue_rel empty_queue [].
Proof.
  constructor; cbn [empty_queue queue head tail length]; unfold MIDI_WRITE_QUEUE; try lia.
  - apply length_replicate.
  - done.
Qed.

Lemma ops_refine os q ps out :
  queue_rel q ps →
  queue_rel (fst (foldl run_op (q, out) os)) (fst (foldl spec_op (ps, out) os)) ∧
  snd (foldl run_op (q, out) os) = snd (foldl spec_op (ps, out) os).
Proof.
  revert q ps out. induction os as [|o os IH]; intros q ps out Hq; cbn [foldl]; [done|].
  destruct o as [data|]; cbn [run_op spec_op].
  - apply IH. by apply enqueue_refines.
  - pose proof (dequeue_refines q ps Hq) as Hd. destruct ps as [|p ps'].
    + rewrite Hd. by apply IH.
    + destruct Hd as (q' & -> & Hq'). by apply IH.
Qed.

(** For every sequence of enqueues and dequeues, the packets that leave the
    ring are those that leave a FIFO holding at most 1023 packets, in which a
    payload of 1 to 41 bytes enters as one 42-byte report when there is room. *)
Theorem write_queue_is_fifo os :
  snd (foldl run_op (empty_queue, []) os) = snd (foldl spec_op ([], []) os) ∧
  (length (fst (foldl spec_op ([], []) os)) <= 1023)%nat ∧
  queued_output_packets (fst (foldl run_op (empty_queue, []) os)) =
    Z.of_nat (length (fst (foldl spec_op ([], []) os))).
Proof.
  destruct (ops_refine os empty_queue [] [] empty_queue_rel) as [[_ Hh Ht Hr _] Ho].
  split; [exact Ho|]. unfold MIDI_WRITE_QUEUE in *. split; [lia|].
  unfold queued_output_packets, MIDI_WRITE_QUEUE. rewrite Ht. Z.div_mod_to_equations; lia.
Qed.

(** ** From the application to the wire *)

Lemma packet_stream data :
  (length data <= 41)%nat →
  length (packet_of data) = 42%nat ∧ stream_of (packet_of data) = data ++ replicate (41 - length data) IDLE.
Proof.
  intros Hl. unfold packet_of, stream_of, memcpy, wr, MIDI_PACKET_BYTES.
  change (Z.to_nat 42) with 42%nat. change (Z.to_nat 0) with 0%nat.
  change (Z.to_nat (42 - 1)) with 41%nat.
  rewrite length_insert, length_inserts, length_replicate. split; [done|].
  rewrite take_insert_ge by lia.
  replace (replicate 42 IDLE) with (replicate (length data) IDLE ++ replicate (42 - length data) IDLE)
    by (rewrite <- replicate_add; f_equal; lia).
  rewrite list_inserts_0_r by (symmetry; apply length_replicate).
  rewrite take_app_ge by lia. f_equal. rewrite take_replicate. f_equal. lia.
Qed.

Lemma payload_app a b : payload (a ++ b) = payload a ++ payload b.
Proof. unfold payload. apply List.filter_app. Qed.

Lemma payload_idle n : payload (replicate n IDLE) = [].
Proof. induction n as [|n IH]; [done|]. cbn. exact IH. Qed.

Lemma payload_message m : channel_message m → payload m = m.
Proof.
  destruct m as [|a [|b [|c []]]]; try done; cbn [channel_message]; intros Hm;
    unfold payload; cbn [List.filter]; unfold not_idle, IDLE;
    repeat (replace (_ =? 253) with false by lia; cbn [negb]); done.
Qed.

Lemma payload_messages ms : Forall channel_message ms → payload (concat ms) = concat ms.
Proof.
  induction 1 as [|m ms Hm _ IH]; [done|]. cbn [concat].
  by rewrite payload_app, payload_message, IH.
Qed.

Lemma payload_reports gs :
  Forall (Forall channel_message) gs → Forall (λ d, length d <= 41)%nat (map (@concat Z) gs) →
  payload (concat (map stream_of (map packet_of (map (@concat Z) gs)))) = concat (concat gs).
Proof.
  intros Hc Hl. induction Hc as [|g gs Hg _ IH]; [done|]. cbn [map] in *.
  apply Forall_cons_1 in Hl as [Hl Hls]. cbn [concat].
  destruct (packet_stream _ Hl) as [_ Hs]. rewrite payload_app, Hs, payload_app, payload_idle.
  rewrite payload_messages, IH, concat_app by done. by rewrite app_nil_r.
Qed.

(** A packet that is a sequence of channel messages contains exactly these. *)
Lemma midi_length_message m s rest :
  channel_message m → m = s :: rest → midi_length s = Z.of_nat (length m).
Proof.
  intros Hm ->. assert (0 <= s < 256 ∧ 0x80 <= s <= 0xef) as [Hs1 Hs2]
    by (destruct rest as [|d1 [|d2 []]]; cbn in Hm; try done; lia).
  assert (Hlen : midi_length s = if (0xc0 <=? s) && (s <=? 0xdf) then 2 else 3).
  { clear -Hs2. assert (∀ b, 0 <= b < 256 →
      (if (0x80 <=? b) && (b <=? 0xef)
       then midi_length b =? (if (0xc0 <=? b) && (b <=? 0xdf) then 2 else 3) else true) = true) as Hall
      by (apply byte_cases; vm_compute; reflexivity).
    specialize (Hall s ltac:(lia)).
    replace ((128 <=? s) && (s <=? 239)) with true in Hall by lia. lia. }
  rewrite Hlen. destruct rest as [|d1 [|d2 []]]; cbn in Hm |- *; try done; case_ifs; lia.
Qed.

Lemma messages_in_concat ms fuel :
  Forall channel_message ms → (length (concat ms) <= fuel)%nat → messages_in fuel (concat ms) = ms.
Proof.
  intros Hms. revert fuel. induction Hms as [|m ms Hm Hms IH]; intros fuel Hf; [by destruct fuel|].
  cbn [concat] in *. rewrite length_app in Hf.
  destruct m as [|s rest]; [done|]. cbn [app length] in *.
  destruct fuel as [|fuel]; [lia|]. cbn [messages_in].
  rewrite (midi_length_message _ s rest Hm eq_refl). cbn [length].
  rewrite length_app.
  replace (_ || _) with false by lia. rewrite Nat2Z.id.
  change (s :: rest ++ concat ms) with ((s :: rest) ++ concat ms).
  change (S (length rest)) with (length (s :: rest)).
  rewrite take_app_length, drop_app_length. f_equal. apply IH. cbn. lia.
Qed.

Lemma message_no_sysex m : channel_message m → Forall (λ x, x ≠ 0xf0) m.
Proof.
  destruct m as [|a [|b [|c []]]]; try done; cbn; intros; repeat constructor; lia.
Qed.

(** The payloads enqueued by a sequence of operations. *)
Definition pushes (os : list queue_op) : list (list Z) :=
  omap (λ o, match o with Push data => Some data | Pop => None end) os.

(** No payload meets a full ring. *)
Definition never_full (os : list queue_op) : Prop :=
  ∀ os1 d os2, os = os1 ++ Push d :: os2 →
    queued_output_packets (fst (foldl run_op (empty_queue, []) os1)) < 1023.

(** A FIFO that is never full loses nothing. *)
Lemma spec_keeps_all os ps out :
  Forall (λ d, 0 < length d <= 41)%nat (pushes os) →
  (∀ os1 d os2, os = os1 ++ Push d :: os2 → (length (fst (foldl spec_op (ps, out) os1)) < 1023)%nat) →
  let r := foldl spec_op (ps, out) os in snd r ++ fst r = out ++ ps ++ map packet_of (pushes os).
Proof.
  revert ps out. induction os as [|o os IH]; intros ps out Hs Hr; cbn [foldl].
  { cbn. by rewrite app_nil_r. }
  assert (∀ os1 d os2, os = os1 ++ Push d :: os2 →
    (length (fst (foldl spec_op (spec_op (ps, out) o) os1)) < 1023)%nat) as Hr'.
  { intros os1 d os2 ->. by apply (Hr (o :: os1) d os2). }
  destruct o as [d|]; cbn [spec_op pushes omap list_omap] in *.
  - apply list.Forall_cons in Hs as [Hd Hs]. specialize (Hr [] d os eq_refl). cbn in Hr.
    unfold fifo_push in *. replace (_ && _ && _) with true in * by lia. cbv zeta. rewrite IH by done. cbn [map].
    by rewrite <- !app_assoc.
  - destruct ps as [|p ps]; cbv zeta; rewrite IH by done; [done|]. by rewrite <- !app_assoc.
Qed.

(** Likewise the ring, once it has been emptied. *)
Lemma queue_keeps_all os :
  Forall (λ d, 0 < length d <= 41)%nat (pushes os) → never_full os →
  queued_output_packets (fst (foldl run_op (empty_queue, []) os)) = 0 →
  snd (foldl run_op (empty_queue, []) os) = map packet_of (pushes os).
Proof.
  intros Hs Hn He. assert (∀ os, queued_output_packets (fst (foldl run_op (empty_queue, []) os)) =
    Z.of_nat (length (fst (foldl spec_op ([], []) os)))) as Hq.
  { intros os'. destruct (ops_refine os' empty_queue [] [] empty_queue_rel) as [[_ Hh Ht Hr _] _].
    unfold queued_output_packets, MIDI_WRITE_QUEUE in *. rewrite Ht. Z.div_mod_to_equations; lia. }
  destruct (ops_refine os empty_queue [] [] empty_queue_rel) as [_ ->].
  pose proof (spec_keeps_all os [] [] Hs) as H. rewrite Hq in He.
  destruct (foldl spec_op ([], []) os) as [ps out]. cbn [fst snd app] in *.
  destruct ps; [|cbn in He; lia]. rewrite app_nil_r in H. apply H. intros os1 d os2 E. specialize (Hn os1 d os2 E).
  rewrite Hq in Hn. lia.
Qed.

Lemma messages_of_concat packets :
  Forall (Forall channel_message) packets → messages_of (map (@concat Z) packets) = concat packets.
Proof.
  unfold messages_of. induction 1 as [|ms packets Hms _ IH]; [done|].
  cbn [map concat]. by rewrite messages_in_concat, IH.
Qed.

Lemma packets_no_sysex packets :
  Forall (Forall channel_message) packets → Forall (Forall (λ x, x ≠ 0xf0)) (map (@concat Z) packets).
Proof.
  induction 1 as [|ms packets Hms _ IH]; [constructor|]. cbn [map]. constructor; [|done].
  induction Hms as [|m ms Hm _ IHm]; [constructor|]. cbn [concat].
  apply Forall_app. split; [by apply message_no_sysex|done].
Qed.

Lemma Forall_concat_inv {A} (P : A → Prop) (gs : list (list A)) :
  Forall P (concat gs) → Forall (Forall P) gs.
Proof.
  induction gs as [|g gs IH]; intros H; constructor; cbn in H; apply Forall_app in H as [H1 H2];
    [done|by apply IH].
Qed.

(** C32: what the application sends is what the wire carries, for packets made of complete channel
    messages (no System Exclusive).  When the datagrams the bridge hands to its socket are enqueued in
    order, with dequeues in between, in a ring that starts empty, is never full at an enqueue and
    is empty at the end, the reports dequeued have 42 bytes each, and the driver's own
    input path ([publish_packet], with the report parser) reads the same messages back from them. *)
Theorem application_to_wire packets b os s :
  Forall (Forall channel_message) packets →
  sent (receive_from_application b (map (@concat Z) packets)) = sent b ++ pushes os →
  never_full os → queued_output_packets (fst (foldl run_op (empty_queue, []) os)) = 0 →
  parser_wf (in_parser s) →
  let reports := snd (foldl run_op (empty_queue, []) os) in
  Forall (λ r, length r = 42%nat) reports ∧
  ∃ ds, in_datagrams (publish_all s reports) = in_datagrams s ++ ds ∧ concat ds = concat (concat packets).
Proof.
  intros Hms Hos Hfull Hempty Hs reports.
  destruct (bridge_packs (map (@concat Z) packets) b (packets_no_sysex _ Hms))
    as (gs & Hsent & Hgs & Hlen).
  rewrite messages_of_concat in Hgs by done. rewrite Hsent in Hos. apply app_inv_head in Hos.
  assert (Forall (Forall channel_message) gs) as Hch
    by (apply Forall_concat_inv; rewrite Hgs; by apply Forall_concat).
  assert (Forall (λ d, length d <= 41)%nat (map (@concat Z) gs)) as H41
    by (revert Hlen; apply Forall_impl; lia).
  assert (reports = map packet_of (map (@concat Z) gs)) as ->.
  { unfold reports. rewrite queue_keeps_all, <- Hos; [done|by rewrite <- Hos|done|done]. }
  assert (Forall (λ r, length r = 42%nat) (map packet_of (map (@concat Z) gs))) as H42.
  { apply Forall_map. revert H41. apply Forall_impl. intros d Hd. apply packet_stream, Hd. }
  split; [done|]. pose proof (publish_all_parse (map packet_of (map (@concat Z) gs)) s Hs) as Hp.
  rewrite parse_payload, payload_reports in Hp by done.
  destruct (parse_messages (concat gs) (in_parser s)) as (p' & E & _); [by destruct Hs|by apply Forall_concat|].
  rewrite E in Hp. destruct Hp as (_ & ds & Hd & Hc & _); [revert H42; apply Forall_impl; lia|].
  exists ds. split; [done|]. by rewrite Hc, Hgs.
Qed.

(** Two packets; the first datagram, of the thirteen messages that fit, leaves the ring before the
    second enters. *)
Lemma application_to_wire_witness :
  let packets := [repeat [0x90; 60; 100] 13; [[0xc0; 5]; [0x80; 60; 0]]] in
  let os := [Push (concat (repeat [0x90; 60; 100] 13) ++ [0xc0; 5]); Pop; Push [0x80; 60; 0]; Pop; Pop] in
  length (snd (foldl run_op (empty_queue, []) os)) = 2%nat ∧
  ∃ ds, in_datagrams (publish_all demo_input (snd (foldl run_op (empty_queue, []) os))) = ds ∧
    concat ds = concat (repeat [0x90; 60; 100] 13) ++ [0xc0; 5; 0x80; 60; 0].
Proof.
  intros packets os. split; [vm_compute; reflexivity|].
  destruct (application_to_wire packets {| report := []; sent := []; heartbeats := 0 |} os demo_input)
    as (_ & ds & H1 & H2).
  - repeat constructor; cbn; lia.
  - vm_compute. reflexivity.
  - intros os1 d os2 E. unfold os in E. clear os.
    destruct os1 as [|o1 [|o2 [|o3 [|o4 [|o5 os1]]]]]; cbn in E; injection E as E;
      repeat match goal with H : _ = o1 |- _ => subst o1 | H : Push _ :: _ = _ |- _ => injection H as H
             | H : Pop :: _ = _ |- _ => injection H as H end; subst; try discriminate; try (vm_compute; reflexivity).
    by destruct os1.
  - vm_compute. reflexivity.
  - split; [done|]. by left.
  - exists ds. split; [exact H1|]. exact H2.
Defined.
