(* ===== verification/MidiRecovery.v ===== *)
(** * Policies of the MIDI input reads (NS6MIDIRecovery.h, NS6MIDIReadLifecycle.h,
      NS6MIDILease.h)

    The pure policy functions of the MIDI input: masks of read slots, the retry
    delays, the number of reads to keep submitted and the input lease, with the
    facts about masks that the read slots and the write worker use. *)

From stdpp Require Import base list numbers tactics.
From Stdlib Require Import ZArith Lia ZifyBool.
From S2P Require Import Prelude MidiParser.

(** ** Recovery policies *)

Definition NS6_MIDI_RECOVERY_SLOTS : Z := 4.

Inductive ns6_midi_error_class :=
  | NS6_MIDI_ERROR_OTHER
  | NS6_MIDI_ERROR_NOT_RESPONDING
  | NS6_MIDI_ERROR_PIPE_STALLED.

Definition ns6_midi_recovery_error_class (status not_responding_status pipe_stalled_status : Z)
    : ns6_midi_error_class :=
  if status =? not_responding_status then NS6_MIDI_ERROR_NOT_RESPONDING
  else if status =? pipe_stalled_status then NS6_MIDI_ERROR_PIPE_STALLED
  else NS6_MIDI_ERROR_OTHER.

Definition ns6_midi_recovery_withhold_not_responding (status not_responding_status : Z)
    (diagnostic_enabled : bool) : bool :=
  diagnostic_enabled && (status =? not_responding_status).

Definition ns6_midi_recovery_requires_pipe_clear (status pipe_stalled_status : Z) : bool :=
  status =? pipe_stalled_status.

Definition ns6_midi_recovery_should_reidentify
    (pipe_stall_recovered recovery_succeeded all_reads_resubmitted : bool) : bool :=
  pipe_stall_recovered && recovery_succeeded && all_reads_resubmitted.

Definition bit (slot : Z) : Z := Z.shiftl 1 slot.

Definition ns6_midi_in_flight_set (mask slot : Z) : Z :=
  if slot <? NS6_MIDI_RECOVERY_SLOTS then Z.lor mask (bit slot) else mask.

Definition ns6_midi_in_flight_clear (mask slot : Z) : Z :=
  if slot <? NS6_MIDI_RECOVERY_SLOTS then Z.ldiff mask (bit slot) else mask.

(** [while (mask) { mask &= mask - 1; ++count; }]: a mask of 32 bits is zero after
    at most 32 rounds. *)
Fixpoint count_loop (fuel : nat) (mask count : Z) : Z :=
  match fuel with
  | O => count
  | S fuel' => if mask =? 0 then count else count_loop fuel' (Z.land mask (mask - 1)) (count + 1)
  end.

Definition ns6_midi_in_flight_count (mask : Z) : Z := count_loop 32 mask 0.

Definition ns6_midi_in_flight_minimum (current observed : Z) : Z :=
  if observed <? current then observed else current.

Definition ns6_midi_recovery_elapsed_us (started_us finished_us : Z) : Z :=
  if finished_us >=? started_us then finished_us - started_us else 0.

Definition ns6_midi_recovery_log_due (now_ms last_log_ms interval_ms : Z) : bool :=
  (last_log_ms =? 0) || ((now_ms >=? last_log_ms) && (now_ms - last_log_ms >=? interval_ms)).

Definition ns6_midi_recovery_add (pending slot : Z) : Z :=
  if slot <? NS6_MIDI_RECOVERY_SLOTS then Z.lor pending (bit slot) else pending.

Definition ns6_midi_recovery_expand_pipe_stall (pending : Z) : Z :=
  if pending =? 0 then 0 else bit NS6_MIDI_RECOVERY_SLOTS - 1.

(** The mask taken and the mask left. *)
Definition ns6_midi_recovery_take (pending : Z) : Z * Z := (pending, 0).

Definition ns6_midi_recovery_ready (completed in_flight : Z) : Z := Z.ldiff completed in_flight.

Definition ns6_midi_recovery_backoff_ms (attempt : Z) : Z :=
  if attempt =? 0 then 0
  else if attempt >=? 6 then 1000
  else Z.shiftl 50 (attempt - 1).

Definition ns6_midi_recovery_retry_backoff_ms
    (consecutive_recovery_failures consecutive_clear_failures : Z) (clear_pending : bool) : Z :=
  let attempt :=
    if clear_pending then
      let submission_retry := if consecutive_recovery_failures >? 0
                              then consecutive_recovery_failures - 1 else 0 in
      if consecutive_clear_failures >? submission_retry
      then consecutive_clear_failures else submission_retry
    else consecutive_recovery_failures in
  ns6_midi_recovery_backoff_ms attempt.

(** ** Read lifecycle; the two read counts are build options. *)

Record ReadConfig := { IDLE_READ_COUNT : Z; INITIAL_READ_COUNT : Z }.

Definition default_reads : ReadConfig := {| IDLE_READ_COUNT := 0; INITIAL_READ_COUNT := 4 |}.

Definition NS6_MIDI_ACTIVE_READ_COUNT : Z := 4.

Inductive NS6MIDIReadAction :=
  | NS6_MIDI_READ_NOOP
  | NS6_MIDI_READ_QUIESCE
  | NS6_MIDI_READ_REARM.

Definition ns6_midi_read_action (session_running : bool) (target_count active_count : Z)
    : NS6MIDIReadAction :=
  if negb session_running || (target_count =? active_count) then NS6_MIDI_READ_NOOP
  else if target_count >? active_count then NS6_MIDI_READ_REARM else NS6_MIDI_READ_QUIESCE.

Definition ns6_midi_read_target_count (cfg : ReadConfig) (session_running audio_active : bool) : Z :=
  if negb session_running then 0
  else
    let count := if audio_active then NS6_MIDI_ACTIVE_READ_COUNT else IDLE_READ_COUNT cfg in
    if count >? NS6_MIDI_ACTIVE_READ_COUNT then NS6_MIDI_ACTIVE_READ_COUNT else count.

Definition ns6_midi_read_initial_count (cfg : ReadConfig) (session_running : bool) : Z :=
  if negb session_running then 0
  else if INITIAL_READ_COUNT cfg >? NS6_MIDI_ACTIVE_READ_COUNT
       then NS6_MIDI_ACTIVE_READ_COUNT else INITIAL_READ_COUNT cfg.

Definition ns6_midi_read_target_mask (target_count : Z) : Z :=
  if target_count >=? NS6_MIDI_ACTIVE_READ_COUNT then bit NS6_MIDI_ACTIVE_READ_COUNT - 1
  else if target_count =? 0 then 0 else bit target_count - 1.

Definition ns6_midi_read_missing_mask (target_count in_flight_mask : Z) : Z :=
  Z.ldiff (ns6_midi_read_target_mask target_count) in_flight_mask.

Definition ns6_midi_read_should_submit (session_running : bool) (target_count slot : Z)
    (recovery_active : bool) : bool :=
  session_running && (slot <? target_count) && negb recovery_active.

Definition ns6_midi_read_completion_should_continue (session_running : bool)
    (target_count slot : Z) (recovery_active : bool) : bool :=
  ns6_midi_read_should_submit session_running target_count slot recovery_active.

(** ** Leases *)

Definition NS6_MIDI_LEASE_MESSAGE_BYTES : Z := 5.
Definition NS6_MIDI_LEASE_TIMEOUT_MS : Z := 2000.

Definition ns6_midi_should_poll (enabled session_running : bool) : bool := enabled && session_running.

Definition ns6_midi_lease_expired (active : bool) (last_activity_ms now_ms timeout_ms : Z) : bool :=
  active && negb (last_activity_ms =? 0) && (now_ms >=? last_activity_ms) &&
  (now_ms - last_activity_ms >=? timeout_ms).

(** The flag, when the bytes are a lease message: ['N' 'S' '6' 'L'] and 0 or 1. *)
Definition ns6_midi_lease_decode (data : option (list Z)) : option bool :=
  match data with
  | None => None
  | Some d =>
      if negb (Z.of_nat (length d) =? NS6_MIDI_LEASE_MESSAGE_BYTES) ||
         negb (rd d 0 =? 78) || negb (rd d 1 =? 83) || negb (rd d 2 =? 54) ||
         negb (rd d 3 =? 76) || (rd d 4 >? 1) then None
      else Some (negb (rd d 4 =? 0))
  end.

(** ** Masks as sets of bits *)

Lemma bit_testbit (slot i : Z) : 0 ≤ slot → Z.testbit (bit slot) i = (i =? slot).
Proof.
  intros ?. unfold bit. rewrite Z.shiftl_1_l, Z.pow2_bits_eqb by lia. lia.
Qed.

Lemma bit_set_testbit (mask slot i : Z) :
  0 ≤ slot → Z.testbit (Z.lor mask (bit slot)) i = Z.testbit mask i || (i =? slot).
Proof. intros. by rewrite Z.lor_spec, bit_testbit. Qed.

Lemma bit_clear_testbit (mask slot i : Z) :
  0 ≤ slot → Z.testbit (Z.ldiff mask (bit slot)) i = Z.testbit mask i && negb (i =? slot).
Proof. intros. by rewrite Z.ldiff_spec, bit_testbit. Qed.

Lemma bit_test (mask slot : Z) :
  0 ≤ slot → (Z.land mask (bit slot) =? 0) = negb (Z.testbit mask slot).
Proof.
  intros ?. destruct (Z.testbit mask slot) eqn:Ht; cbn.
  - apply Z.eqb_neq. intros E. assert (Z.testbit (Z.land mask (bit slot)) slot = true) as Hb.
    { rewrite Z.land_spec, bit_testbit, Ht by lia. cbn. lia. }
    rewrite E, Z.bits_0 in Hb. done.
  - apply Z.eqb_eq. apply Z.bits_inj'. intros i _. rewrite Z.land_spec, bit_testbit, Z.bits_0 by lia.
    destruct (i =? slot) eqn:Ei; [|by destruct (Z.testbit mask i)].
    assert (i = slot) as -> by lia. by rewrite Ht.
Qed.

(** The mask of the first [n] slots. *)
Lemma ones_testbit (n i : Z) : 0 ≤ n → 0 ≤ i → Z.testbit (bit n - 1) i = (i <? n).
Proof.
  intros. unfold bit. rewrite Z.shiftl_1_l. rewrite Z.sub_1_r, <- Z.ones_equiv.
  destruct (i <? n) eqn:E; [apply Z.ones_spec_low | apply Z.ones_spec_high]; lia.
Qed.

Lemma target_mask_testbit (n i : Z) :
  0 ≤ n ≤ 4 → 0 ≤ i → Z.testbit (ns6_midi_read_target_mask n) i = (i <? n).
Proof.
  intros. unfold ns6_midi_read_target_mask, NS6_MIDI_ACTIVE_READ_COUNT.
  destruct (n >=? 4) eqn:E; [assert (n = 4) as -> by lia; apply ones_testbit; lia|].
  destruct (n =? 0) eqn:E0; [rewrite Z.bits_0; lia | apply ones_testbit; lia].
Qed.

Lemma missing_mask_testbit (n mask i : Z) :
  0 ≤ n ≤ 4 → 0 ≤ i →
  Z.testbit (ns6_midi_read_missing_mask n mask) i = (i <? n) && negb (Z.testbit mask i).
Proof.
  intros. unfold ns6_midi_read_missing_mask. by rewrite Z.ldiff_spec, target_mask_testbit.
Qed.

(** ** Counting the bits of a mask

    Each round of the counting loop clears the lowest bit that is set. *)

Fixpoint pop (p : positive) : nat :=
  match p with xH => 1 | xO q => pop q | xI q => S (pop q) end.

Definition popZ (m : Z) : nat := match m with Zpos p => pop p | _ => O end.

Lemma popZ_double (m : Z) : popZ (2 * m) = popZ m.
Proof. by destruct m. Qed.

Lemma popZ_succ_double (m : Z) : 0 ≤ m → popZ (2 * m + 1) = S (popZ m).
Proof. by destruct m. Qed.

Lemma land_double_pred (m : Z) :
  Z.land (2 * m) (2 * m - 1) = 2 * Z.land m (m - 1).
Proof.
  apply Z.bits_inj'. intros i Hi. destruct (Z.eq_dec i 0) as [->|].
  - rewrite Z.land_spec, !Z.testbit_even_0. done.
  - replace i with (Z.succ (i - 1)) by lia.
    replace (2 * m - 1) with (2 * (m - 1) + 1) by lia.
    rewrite Z.land_spec, Z.testbit_even_succ, Z.testbit_odd_succ, Z.testbit_even_succ, Z.land_spec by lia.
    done.
Qed.

Lemma land_pred_odd (m : Z) : Z.land (2 * m + 1) (2 * m) = 2 * m.
Proof.
  apply Z.bits_inj'. intros i Hi. destruct (Z.eq_dec i 0) as [->|].
  - rewrite Z.land_spec, Z.testbit_even_0. by destruct (Z.testbit _ 0).
  - replace i with (Z.succ (i - 1)) by lia.
    rewrite Z.land_spec, Z.testbit_odd_succ, Z.testbit_even_succ by lia. apply andb_diag.
Qed.

Lemma land_pred_pop (p : positive) :
  0 ≤ Z.land (Zpos p) (Zpos p - 1) ∧ S (popZ (Z.land (Zpos p) (Zpos p - 1))) = pop p.
Proof.
  induction p as [q _|q [IH1 IH2]|]; [| |done].
  - replace (Zpos q~1) with (2 * Zpos q + 1) by lia.
    replace (2 * Zpos q + 1 - 1) with (2 * Zpos q) by lia. rewrite land_pred_odd, popZ_double.
    split; [lia|]. done.
  - replace (Zpos q~0) with (2 * Zpos q) by lia. rewrite land_double_pred, popZ_double.
    split; [lia|]. done.
Qed.

Lemma count_loop_pop (fuel : nat) (mask count : Z) :
  0 ≤ mask → (popZ mask ≤ fuel)%nat → count_loop fuel mask count = count + Z.of_nat (popZ mask).
Proof.
  revert mask count. induction fuel as [|fuel IH]; intros mask count Hm Hf; cbn [count_loop].
  - lia.
  - destruct (mask =? 0) eqn:E; [assert (mask = 0) as -> by lia; cbn; lia|].
    destruct mask as [|p|]; [lia| |lia]. destruct (land_pred_pop p) as [H1 H2].
    cbn [popZ] in *. rewrite IH by lia. lia.
Qed.

(** The set bits below [n], in order. *)
Definition bits_below (n : nat) (mask : Z) : list Z :=
  filter (λ i, Z.testbit mask i = true) (seqZ 0 (Z.of_nat n)).

Lemma bits_below_elem (n : nat) (mask i : Z) :
  i ∈ bits_below n mask ↔ Z.testbit mask i = true ∧ 0 ≤ i < Z.of_nat n.
Proof. unfold bits_below. rewrite list_elem_of_filter, elem_of_seqZ. naive_solver lia. Qed.

Lemma bits_below_NoDup (n : nat) (mask : Z) : NoDup (bits_below n mask).
Proof. apply list.NoDup_filter, NoDup_seqZ. Qed.

Lemma length_filter_fmap (f : Z → Z) (P Q : Z → bool) (l : list Z) :
  (∀ i, i ∈ l → P (f i) = Q i) →
  length (filter (λ i, P i = true) (f <$> l)) = length (filter (λ i, Q i = true) l).
Proof.
  induction l as [|x l IH]; intros HE; [done|]. cbn [fmap list_fmap].
  rewrite !filter_cons. pose proof (HE x ltac:(by left)) as Hx. rewrite Hx.
  assert (∀ i, i ∈ l → P (f i) = Q i) as HE' by (intros; apply HE; by right).
  specialize (IH HE'). destruct (Q x); (destruct (decide _) as [?|?]; [|try done]); cbn [length]; auto; done.
Qed.

Lemma bits_below_length (n : nat) (mask : Z) :
  0 ≤ mask < 2 ^ Z.of_nat n → length (bits_below n mask) = popZ mask.
Proof.
  revert mask. induction n as [|n IH]; intros mask Hm.
  { change (2 ^ Z.of_nat 0) with 1 in Hm. by assert (mask = 0) as -> by lia. }
  rewrite Nat2Z.inj_succ, Z.pow_succ_r in Hm by lia.
  unfold bits_below. rewrite Nat2Z.inj_succ.
  assert (mask = 2 * (mask / 2) + mask mod 2) as E by (apply Z.div_mod; lia).
  assert (0 ≤ mask / 2 < 2 ^ Z.of_nat n) as Hh by (split; [apply Z.div_pos|apply Z.div_lt_upper_bound]; lia).
  rewrite seqZ_cons, <- (fmap_add_seqZ 1 0) by lia.
  replace (Z.pred (Z.succ (Z.of_nat n))) with (Z.of_nat n) by lia.
  rewrite filter_cons. specialize (IH _ Hh). unfold bits_below in IH.
  assert (length (filter (λ i, Z.testbit mask i = true) (Z.add 1 <$> seqZ 0 (Z.of_nat n))) = popZ (mask / 2))
    as HL.
  { rewrite <- IH. apply (length_filter_fmap (Z.add 1) (Z.testbit mask)). intros i Hi.
    apply elem_of_seqZ in Hi. rewrite Z.div2_bits by lia. f_equal. lia. }
  rewrite Zmod_odd in E.
  destruct (decide (Z.testbit mask 0 = true)) as [Ho|Ho]; rewrite Z.bit0_odd in Ho.
  - rewrite Ho in E. cbn [length]. rewrite HL. rewrite E at 2. by rewrite popZ_succ_double by lia.
  - apply not_true_is_false in Ho. rewrite Ho, Z.add_0_r in E. rewrite HL.
    rewrite E at 2. by rewrite popZ_double.
Qed.

Lemma popZ_le (mask : Z) : 0 ≤ mask < 2 ^ 32 → (popZ mask ≤ 32)%nat.
Proof.
  intros H. rewrite <- (bits_below_length 32) by (change (Z.of_nat 32) with 32; lia).
  etrans; [apply length_filter|]. rewrite length_seqZ. lia.
Qed.

Lemma in_flight_count_bits (mask : Z) :
  0 ≤ mask < 2 ^ 32 → ns6_midi_in_flight_count mask = Z.of_nat (length (bits_below 32 mask)).
Proof.
  intros H. unfold ns6_midi_in_flight_count. rewrite count_loop_pop by (try apply popZ_le; lia).
  rewrite bits_below_length by (change (Z.of_nat 32) with 32; lia). lia.
Qed.
