(* ===== verification/MidiReads.v ===== *)
(** * MIDI input read slots (the asynchronous reads of NS6MIDI.c)

    Four read slots are kept submitted on the input endpoint.  Slots are named by
    their index, a call sees one clock value [t] in microseconds, and [usb_holds]
    lists the slots whose buffer the USB stack holds: [ReadPipeAsync] adds one and
    a completion removes it.  The second half splits the calls at their
    atomic operations, so that submissions and completions of several threads
    interleave. *)

From stdpp Require Import base list numbers tactics relations.
From Stdlib Require Import ZArith Lia ZifyBool.
From S2P Require Import Prelude MidiParser MidiRecovery.

(** IOKit's status codes. *)
Class IOKitABI := {
  kIOReturnSuccess : Z;
  kIOReturnNotResponding : Z;
  kIOUSBPipeStalled : Z
}.

(** ** The state the reads share *)

Record read_state := {
  running : bool;
  read_target_count : Z;
  input_pipe_recovery_active : bool;
  input_polling : bool;
  read_in_flight_mask : Z;
  read_in_flight_minimum_count : Z;
  read_in_flight_minimum_tracking : bool;
  pending_read_recovery_mask : Z;
  pending_read_clear_mask : Z;
  read_slot_out_of_flight_since_ms : list Z;
  read_recovery_requested_us : list Z;
  input_error_counts : list Z;
  last_input_error_log_ms : Z;
  input : input_state;
  usb_holds : list Z
}.

Definition set_mask (m : Z) (s : read_state) : read_state :=
  Build_read_state (running s) (read_target_count s) (input_pipe_recovery_active s)
    (input_polling s) m (read_in_flight_minimum_count s) (read_in_flight_minimum_tracking s)
    (pending_read_recovery_mask s) (pending_read_clear_mask s)
    (read_slot_out_of_flight_since_ms s) (read_recovery_requested_us s) (input_error_counts s)
    (last_input_error_log_ms s) (input s) (usb_holds s).

Definition set_minimum (n : Z) (s : read_state) : read_state :=
  Build_read_state (running s) (read_target_count s) (input_pipe_recovery_active s)
    (input_polling s) (read_in_flight_mask s) n (read_in_flight_minimum_tracking s)
    (pending_read_recovery_mask s) (pending_read_clear_mask s)
    (read_slot_out_of_flight_since_ms s) (read_recovery_requested_us s) (input_error_counts s)
    (last_input_error_log_ms s) (input s) (usb_holds s).

Definition set_pending (recovery clear : Z) (s : read_state) : read_state :=
  Build_read_state (running s) (read_target_count s) (input_pipe_recovery_active s)
    (input_polling s) (read_in_flight_mask s) (read_in_flight_minimum_count s)
    (read_in_flight_minimum_tracking s) recovery clear
    (read_slot_out_of_flight_since_ms s) (read_recovery_requested_us s) (input_error_counts s)
    (last_input_error_log_ms s) (input s) (usb_holds s).

Definition set_times (since requested : list Z) (s : read_state) : read_state :=
  Build_read_state (running s) (read_target_count s) (input_pipe_recovery_active s)
    (input_polling s) (read_in_flight_mask s) (read_in_flight_minimum_count s)
    (read_in_flight_minimum_tracking s) (pending_read_recovery_mask s)
    (pending_read_clear_mask s) since requested (input_error_counts s)
    (last_input_error_log_ms s) (input s) (usb_holds s).

Definition set_errors (counts : list Z) (last : Z) (s : read_state) : read_state :=
  Build_read_state (running s) (read_target_count s) (input_pipe_recovery_active s)
    (input_polling s) (read_in_flight_mask s) (read_in_flight_minimum_count s)
    (read_in_flight_minimum_tracking s) (pending_read_recovery_mask s)
    (pending_read_clear_mask s) (read_slot_out_of_flight_since_ms s)
    (read_recovery_requested_us s) counts last (input s) (usb_holds s).

Definition set_input (i : input_state) (s : read_state) : read_state :=
  Build_read_state (running s) (read_target_count s) (input_pipe_recovery_active s)
    (input_polling s) (read_in_flight_mask s) (read_in_flight_minimum_count s)
    (read_in_flight_minimum_tracking s) (pending_read_recovery_mask s)
    (pending_read_clear_mask s) (read_slot_out_of_flight_since_ms s)
    (read_recovery_requested_us s) (input_error_counts s) (last_input_error_log_ms s) i
    (usb_holds s).

Definition set_usb_holds (l : list Z) (s : read_state) : read_state :=
  Build_read_state (running s) (read_target_count s) (input_pipe_recovery_active s)
    (input_polling s) (read_in_flight_mask s) (read_in_flight_minimum_count s)
    (read_in_flight_minimum_tracking s) (pending_read_recovery_mask s)
    (pending_read_clear_mask s) (read_slot_out_of_flight_since_ms s)
    (read_recovery_requested_us s) (input_error_counts s) (last_input_error_log_ms s)
    (input s) l.

Definition set_recovery_active (b : bool) (s : read_state) : read_state :=
  Build_read_state (running s) (read_target_count s) b
    (input_polling s) (read_in_flight_mask s) (read_in_flight_minimum_count s)
    (read_in_flight_minimum_tracking s) (pending_read_recovery_mask s)
    (pending_read_clear_mask s) (read_slot_out_of_flight_since_ms s)
    (read_recovery_requested_us s) (input_error_counts s) (last_input_error_log_ms s)
    (input s) (usb_holds s).

Definition set_target (b : bool) (target : Z) (s : read_state) : read_state :=
  Build_read_state b target (input_pipe_recovery_active s)
    (input_polling s) (read_in_flight_mask s) (read_in_flight_minimum_count s)
    (read_in_flight_minimum_tracking s) (pending_read_recovery_mask s)
    (pending_read_clear_mask s) (read_slot_out_of_flight_since_ms s)
    (read_recovery_requested_us s) (input_error_counts s) (last_input_error_log_ms s)
    (input s) (usb_holds s).

(** ** Operations *)

Definition MIDI_READ_SLOTS : Z := NS6_MIDI_RECOVERY_SLOTS.

Definition read_slot_bit (index : Z) : Z :=
  if (index >=? 0) && (index <? MIDI_READ_SLOTS) then Z.shiftl 1 index else 0.

Definition track_read_in_flight_minimum (s : read_state) : read_state :=
  if negb (read_in_flight_minimum_tracking s) then s
  else
    let observed := ns6_midi_in_flight_count (read_in_flight_mask s) in
    let current := read_in_flight_minimum_count s in
    if observed <? current then set_minimum (ns6_midi_in_flight_minimum current observed) s else s.

(** Only the first mark is kept. *)
Definition mark_read_slot_out_of_flight (index t : Z) (s : read_state) : read_state :=
  if index >=? MIDI_READ_SLOTS then s
  else if rd (read_slot_out_of_flight_since_ms s) index =? 0
  then set_times (wr (read_slot_out_of_flight_since_ms s) index (t / 1000))
         (read_recovery_requested_us s) s
  else s.

Definition error_class_index (c : ns6_midi_error_class) : Z :=
  match c with
  | NS6_MIDI_ERROR_OTHER => 0
  | NS6_MIDI_ERROR_NOT_RESPONDING => 1
  | NS6_MIDI_ERROR_PIPE_STALLED => 2
  end.

Section slots.
Context `{IOKitABI}.
(** [NS6_MIDI_DIAGNOSTIC_NO_RETRY_NOT_RESPONDING] *)
Variable diagnostic : bool.

Definition schedule_read_recovery (index status t : Z) (s : read_state) : read_state :=
  if negb (running s) then s
  else if (index <? 0) || (index >=? MIDI_READ_SLOTS) then s
  else if ns6_midi_recovery_withhold_not_responding (u32 status) (u32 kIOReturnNotResponding)
            diagnostic then s
  else
    let clear_stall := ns6_midi_recovery_requires_pipe_clear (u32 status) (u32 kIOUSBPipeStalled) in
    let s := set_times (read_slot_out_of_flight_since_ms s)
               (wr (read_recovery_requested_us s) index t) s in
    set_pending (ns6_midi_recovery_add (pending_read_recovery_mask s) index)
      (if clear_stall then Z.lor (pending_read_clear_mask s) (bit index)
       else pending_read_clear_mask s) s.

(** The counters behind the error log: three classes per slot, and the time of
    the last line. *)
Definition log_input_error (result index t : Z) (s : read_state) : read_state :=
  let error_class := ns6_midi_recovery_error_class (u32 result) (u32 kIOReturnNotResponding)
                       (u32 kIOUSBPipeStalled) in
  if (index <? 0) || (index >=? MIDI_READ_SLOTS) then s
  else
    let cell := 3 * index + error_class_index error_class in
    let counts := wr (input_error_counts s) cell (u64 (rd (input_error_counts s) cell + 1)) in
    let now := t / 1000 in
    let last := last_input_error_log_ms s in
    set_errors counts (if ns6_midi_recovery_log_due now last 5000 then now else last) s.

(** [result] is what [ReadPipeAsync] returns. *)
Definition submit_read (index result t : Z) (s : read_state) : bool * read_state :=
  if negb (ns6_midi_read_should_submit (running s) (read_target_count s)
             (if index >=? 0 then index else MIDI_READ_SLOTS) (input_pipe_recovery_active s))
  then (false, s)
  else
    let bit := read_slot_bit index in
    let previous := read_in_flight_mask s in
    let s := set_mask (Z.lor previous bit) s in
    if negb (Z.land previous bit =? 0) then (false, s)
    else
      let s := track_read_in_flight_minimum s in
      if result =? kIOReturnSuccess then
        let s := set_usb_holds (index :: usb_holds s) s in
        (true, set_times (wr (read_slot_out_of_flight_since_ms s) index 0)
                 (read_recovery_requested_us s) s)
      else
        let s := set_mask (Z.ldiff (read_in_flight_mask s) bit) s in
        let s := track_read_in_flight_minimum s in
        let s := mark_read_slot_out_of_flight index t s in
        let s := log_input_error result index t s in
        (false, schedule_read_recovery index result t s).

(** A completion of the slot: the USB stack gives the buffer back with [status]
    and the [data] received; [result] is what a resubmission returns. *)
Definition read_complete (index status : Z) (data : list Z) (result t : Z) (s : read_state)
    : read_state :=
  let bit := read_slot_bit index in
  let s := set_usb_holds (List.filter (λ i, negb (i =? index)) (usb_holds s)) s in
  let s := set_mask (Z.ldiff (read_in_flight_mask s) bit) s in
  let s := track_read_in_flight_minimum s in
  if negb (ns6_midi_read_completion_should_continue (running s) (read_target_count s) index
             (input_pipe_recovery_active s)) then s
  else if status =? kIOReturnSuccess then
    let length := Z.of_nat (length data) in
    let length := if length >? MIDI_PACKET_BYTES then MIDI_PACKET_BYTES else length in
    let s := set_input (publish_packet (input s) data length) s in
    if running s && input_polling s then snd (submit_read index result t s) else s
  else if running s then
    let s := mark_read_slot_out_of_flight index t s in
    let s := log_input_error status index t s in
    schedule_read_recovery index status t s
  else if running s && input_polling s then snd (submit_read index result t s) else s.
End slots.

(** ** The calls split at their atomic operations

    A slot is claimed by the fetch-or of a submission, then handed to the USB
    stack or refused by it; a completed or refused slot is given up by the
    fetch-and that clears its bit. *)

Record slots := { mask : Z; claimed : list Z; held : list Z; finishing : list Z }.

Inductive slot_step : slots → slots → Prop :=
  | step_claim m i c h f :
      0 ≤ i < MIDI_READ_SLOTS → Z.land m (read_slot_bit i) = 0 →
      slot_step {| mask := m; claimed := c; held := h; finishing := f |}
        {| mask := Z.lor m (read_slot_bit i); claimed := i :: c; held := h; finishing := f |}
  | step_duplicate m i c h f :
      0 ≤ i < MIDI_READ_SLOTS → Z.land m (read_slot_bit i) ≠ 0 →
      slot_step {| mask := m; claimed := c; held := h; finishing := f |}
        {| mask := Z.lor m (read_slot_bit i); claimed := c; held := h; finishing := f |}
  | step_accepted m i c1 c2 h f :
      slot_step {| mask := m; claimed := c1 ++ i :: c2; held := h; finishing := f |}
        {| mask := m; claimed := c1 ++ c2; held := i :: h; finishing := f |}
  | step_refused m i c1 c2 h f :
      slot_step {| mask := m; claimed := c1 ++ i :: c2; held := h; finishing := f |}
        {| mask := m; claimed := c1 ++ c2; held := h; finishing := i :: f |}
  | step_completed m i c h1 h2 f :
      slot_step {| mask := m; claimed := c; held := h1 ++ i :: h2; finishing := f |}
        {| mask := m; claimed := c; held := h1 ++ h2; finishing := i :: f |}
  | step_clear m i c h f1 f2 :
      slot_step {| mask := m; claimed := c; held := h; finishing := f1 ++ i :: f2 |}
        {| mask := Z.ldiff m (read_slot_bit i); claimed := c; held := h; finishing := f1 ++ f2 |}.

Definition no_slots : slots := {| mask := 0; claimed := []; held := []; finishing := [] |}.

Definition holders (c : slots) : list Z := claimed c ++ held c ++ finishing c.

(** Every bit of the mask has exactly one holder. *)
Record slots_ok (c : slots) : Prop := {
  so_range : ∀ i, i ∈ holders c → 0 ≤ i < MIDI_READ_SLOTS;
  so_nodup : NoDup (holders c);
  so_bits : ∀ i, Z.testbit (mask c) i = true ↔ i ∈ holders c
}.

Lemma read_slot_bit_in (i : Z) : 0 ≤ i < MIDI_READ_SLOTS → read_slot_bit i = bit i.
Proof.
  intros Hi. unfold read_slot_bit. by replace ((i >=? 0) && (i <? MIDI_READ_SLOTS)) with true by lia.
Qed.

Lemma slots_ok_start : slots_ok no_slots.
Proof.
  split; cbn.
  - intros i Hi. by apply not_elem_of_nil in Hi.
  - constructor.
  - intros i. rewrite Z.bits_0. split; [done|]. intros Hi. by apply not_elem_of_nil in Hi.
Qed.

Lemma slots_ok_perm (c c' : slots) :
  mask c' = mask c → holders c' ≡ₚ holders c → slots_ok c → slots_ok c'.
Proof.
  intros Em Ep [H1 H2 H3]. split.
  - intros i. rewrite Ep. apply H1.
  - by rewrite Ep.
  - intros i. rewrite Em, Ep. apply H3.
Qed.

Lemma slots_ok_claim (c c' : slots) (i : Z) :
  0 ≤ i < MIDI_READ_SLOTS → Z.testbit (mask c) i = false →
  mask c' = Z.lor (mask c) (bit i) → holders c' ≡ₚ i :: holders c →
  slots_ok c → slots_ok c'.
Proof.
  intros Hi Hb Em Ep [H1 H2 H3]. split.
  - intros j. rewrite Ep, elem_of_cons. intros [->|?]; auto.
  - rewrite Ep. constructor; [|done]. rewrite <- H3, Hb. done.
  - intros j. rewrite Em, Ep, elem_of_cons, bit_set_testbit, <- H3 by lia.
    rewrite orb_true_iff, Z.eqb_eq. tauto.
Qed.

Lemma slots_ok_clear (c c' : slots) (i : Z) :
  mask c' = Z.ldiff (mask c) (read_slot_bit i) → holders c ≡ₚ i :: holders c' →
  slots_ok c → slots_ok c'.
Proof.
  intros Em Ep [H1 H2 H3].
  assert (0 ≤ i < MIDI_READ_SLOTS) as Hi by (apply H1; rewrite Ep; by left).
  rewrite read_slot_bit_in in Em by done. rewrite Ep in H2. apply NoDup_cons in H2 as [Hn H2].
  split; [|done|].
  - intros j Hj. apply H1. rewrite Ep. by right.
  - intros j. rewrite Em, bit_clear_testbit by lia. specialize (H3 j).
    rewrite Ep, elem_of_cons in H3. rewrite andb_true_iff, negb_true_iff, Z.eqb_neq, H3.
    split; [tauto|]. intros Hj. split; [by right|]. by intros ->.
Qed.

Lemma slots_ok_step (c c' : slots) : slot_step c c' → slots_ok c → slots_ok c'.
Proof.
  intros Hs Hok. destruct Hs as [m i c h f Hi Hm|m i c h f Hi Hm| | | |].
  - rewrite read_slot_bit_in in Hm |- * by exact Hi.
    refine (slots_ok_claim _ _ i Hi _ _ _ Hok); [|reflexivity|reflexivity].
    cbn [mask]. apply negb_true_iff. rewrite <- bit_test by lia. lia.
  - refine (slots_ok_perm _ _ _ _ Hok); [|reflexivity]; cbn [mask].
    rewrite read_slot_bit_in in Hm |- * by exact Hi.
    apply Z.bits_inj'. intros j _. rewrite bit_set_testbit by lia.
    destruct (j =? i) eqn:E; [|by rewrite orb_false_r]. assert (j = i) as -> by lia.
    rewrite orb_true_r. pose proof (bit_test m i ltac:(lia)) as Hb.
    destruct (Z.testbit m i); [done|]. cbn in Hb. lia.
  - refine (slots_ok_perm _ _ _ _ Hok); [reflexivity|]. unfold holders; cbn. solve_Permutation.
  - refine (slots_ok_perm _ _ _ _ Hok); [reflexivity|]. unfold holders; cbn. solve_Permutation.
  - refine (slots_ok_perm _ _ _ _ Hok); [reflexivity|]. unfold holders; cbn. solve_Permutation.
  - refine (slots_ok_clear _ _ i _ _ Hok); [reflexivity|]. unfold holders; cbn. solve_Permutation.
Qed.

Lemma slots_ok_run (c c' : slots) : rtc slot_step c c' → slots_ok c → slots_ok c'.
Proof. induction 1; eauto using slots_ok_step. Qed.

(** The bits of the mask are its holders, so the count of the log is their number. *)
Lemma slots_ok_count (c : slots) :
  slots_ok c → 0 ≤ mask c → ns6_midi_in_flight_count (mask c) = Z.of_nat (length (holders c)).
Proof.
  intros [H1 H2 H3] Hm.
  assert (mask c < 2 ^ 32) as Hlt.
  { destruct (Z.eq_dec (mask c) 0) as [->|]; [done|].
    assert (Z.log2 (mask c) < MIDI_READ_SLOTS) as Hl.
    { apply H1, H3, Z.bit_log2. lia. }
    apply Z.log2_lt_pow2; [lia|]. unfold MIDI_READ_SLOTS, NS6_MIDI_RECOVERY_SLOTS in Hl. lia. }
  rewrite in_flight_count_bits by lia. f_equal. apply Permutation_length.
  apply NoDup_Permutation; [apply bits_below_NoDup|done|]. intros i.
  rewrite bits_below_elem, H3. split; [tauto|]. intros Hi. split; [done|].
  specialize (H1 i Hi). unfold MIDI_READ_SLOTS, NS6_MIDI_RECOVERY_SLOTS in H1. lia.
Qed.

Lemma mask_nonneg_run (c c' : slots) : rtc slot_step c c' → 0 ≤ mask c → 0 ≤ mask c'.
Proof.
  induction 1 as [|c1 c2 c3 Hs _ IH]; [done|]. intros Hm. apply IH.
  assert (∀ i, 0 ≤ read_slot_bit i) as Hb.
  { intros i. unfold read_slot_bit. destruct (_ && _); [apply Z.shiftl_nonneg|]; lia. }
  destruct Hs; cbn [mask] in *; try done.
  - apply Z.lor_nonneg; auto.
  - apply Z.lor_nonneg; auto.
  - apply Z.ldiff_nonneg; auto.
Qed.

(** However submissions and completions of the input reads interleave, a slot's
    buffer is never handed to the USB stack twice: the bits of
    [read_in_flight_mask] are exactly the slots that are being submitted, held by the
    USB stack or being given up, each of them once, and the reads in flight the log
    reports are their number. *)
Theorem one_holder_per_slot (c : slots) :
  rtc slot_step no_slots c →
  NoDup (claimed c ++ held c ++ finishing c) ∧
  (∀ i, Z.testbit (mask c) i = true ↔ i ∈ claimed c ++ held c ++ finishing c) ∧
  ns6_midi_in_flight_count (mask c) =
    Z.of_nat (length (claimed c ++ held c ++ finishing c)).
Proof.
  intros Hr. pose proof (slots_ok_run _ _ Hr slots_ok_start) as Hok.
  split; [apply Hok|]. split; [apply Hok|].
  apply (slots_ok_count c Hok). by apply (mask_nonneg_run _ _ Hr).
Qed.

Lemma one_holder_per_slot_witness :
  rtc slot_step no_slots {| mask := 5; claimed := [0]; held := [2]; finishing := [] |} ∧
  ns6_midi_in_flight_count 5 = 2.
Proof.
  assert (rtc slot_step no_slots {| mask := 5; claimed := [0]; held := [2]; finishing := [] |}) as H.
  { eapply rtc_l; [apply (step_claim 0 2 [] [] []); [vm_compute; split; congruence|reflexivity]|].
    eapply rtc_l; [apply (step_accepted _ 2 [] [] [] [])|].
    eapply rtc_l; [apply (step_claim _ 0 [] [2] []); [vm_compute; split; congruence|reflexivity]|].
    apply rtc_refl. }
  split; [exact H|]. destruct (one_holder_per_slot _ H) as (_ & _ & E). exact E.
Defined.

(** ** The calls are runs of those steps *)

Definition slots_of (s : read_state) : slots :=
  {| mask := read_in_flight_mask s; claimed := []; held := usb_holds s; finishing := [] |}.

Lemma slots_of_track (s : read_state) : slots_of (track_read_in_flight_minimum s) = slots_of s.
Proof. unfold track_read_in_flight_minimum. by repeat case_match. Qed.

Lemma slots_of_mark (i t : Z) (s : read_state) :
  slots_of (mark_read_slot_out_of_flight i t s) = slots_of s.
Proof. unfold mark_read_slot_out_of_flight. by repeat case_match. Qed.

Section calls.
Context `{IOKitABI} (diagnostic : bool).

Lemma slots_of_log (r i t : Z) (s : read_state) : slots_of (log_input_error r i t s) = slots_of s.
Proof. unfold log_input_error. by case_match. Qed.

Lemma slots_of_schedule (i r t : Z) (s : read_state) :
  slots_of (schedule_read_recovery diagnostic i r t s) = slots_of s.
Proof. unfold schedule_read_recovery. by repeat case_match. Qed.

Lemma slots_of_mask (s : read_state) : mask (slots_of s) = read_in_flight_mask s.
Proof. done. Qed.

Lemma slots_of_holds (s : read_state) : held (slots_of s) = usb_holds s.
Proof. done. Qed.

Lemma submit_is_a_run (i result t : Z) (s : read_state) :
  0 ≤ i < MIDI_READ_SLOTS →
  rtc slot_step (slots_of s) (slots_of (submit_read diagnostic i result t s).2).
Proof.
  intros Hi. unfold submit_read. case_match; [apply rtc_refl|].
  destruct (Z.land (read_in_flight_mask s) (read_slot_bit i) =? 0) eqn:E; cbn [negb];
    [apply Z.eqb_eq in E | apply Z.eqb_neq in E].
  2: { apply rtc_once, (step_duplicate _ i); [exact Hi|exact E]. }
  eapply rtc_l; [apply (step_claim _ i); [exact Hi|exact E]|].
  set (s1 := track_read_in_flight_minimum (set_mask _ s)).
  assert (slots_of s1 = slots_of (set_mask (Z.lor (read_in_flight_mask s) (read_slot_bit i)) s)) as E1
    by apply slots_of_track.
  pose proof (f_equal mask E1) as Em. pose proof (f_equal held E1) as Eh. cbn in Em, Eh.
  destruct (result =? kIOReturnSuccess); cbn [snd].
  - apply rtc_once. unfold slots_of. cbn. rewrite Em, Eh. apply (step_accepted _ i [] []).
  - rewrite slots_of_schedule, slots_of_log, slots_of_mark, slots_of_track.
    eapply rtc_l; [apply (step_refused _ i [] [])|]. apply rtc_once.
    unfold slots_of. cbn. rewrite Em, Eh. apply (step_clear _ i _ _ [] []).
Qed.

Lemma filter_remove (i : Z) (l1 l2 : list Z) :
  i ∉ l1 ++ l2 → List.filter (λ j, negb (j =? i)) (l1 ++ i :: l2) = l1 ++ l2.
Proof.
  intros Hn. rewrite List.filter_app. cbn [List.filter]. rewrite Z.eqb_refl. cbn [negb].
  assert (∀ l, i ∉ l → List.filter (λ j, negb (j =? i)) l = l) as Hid.
  { induction l as [|x l IH]; intros Hl; [done|].
    apply not_elem_of_cons in Hl as [Hx Hl].
    cbn [List.filter]. replace (x =? i) with false by lia. cbn [negb]. f_equal. exact (IH Hl). }
  rewrite elem_of_app in Hn. rewrite !Hid; tauto.
Qed.

Lemma complete_is_a_run (i status : Z) (data : list Z) (result t : Z) (s : read_state) :
  0 ≤ i < MIDI_READ_SLOTS → NoDup (usb_holds s) → i ∈ usb_holds s →
  rtc slot_step (slots_of s) (slots_of (read_complete diagnostic i status data result t s)).
Proof.
  intros Hi Hn Hin. apply list_elem_of_split in Hin as (l1 & l2 & E).
  assert (i ∉ l1 ++ l2) as Hni.
  { rewrite E in Hn. rewrite <- Permutation_middle in Hn. by apply NoDup_cons in Hn as [? _]. }
  unfold read_complete. set (s1 := track_read_in_flight_minimum _).
  assert (slots_of s1 = {| mask := Z.ldiff (read_in_flight_mask s) (read_slot_bit i);
            claimed := []; held := l1 ++ l2; finishing := [] |}) as E1.
  { unfold s1. rewrite slots_of_track. unfold slots_of. cbn. by rewrite E, filter_remove. }
  assert (rtc slot_step (slots_of s) (slots_of s1)) as Hr.
  { rewrite E1. unfold slots_of. rewrite E.
    eapply rtc_l; [apply step_completed|]. apply rtc_once. apply (step_clear _ i _ _ [] []). }
  case_match; [exact Hr|]. case_match; [case_match|case_match; [|case_match]].
  - etrans; [exact Hr|]. etrans; [|by apply submit_is_a_run]. apply rtc_refl.
  - exact Hr.
  - by rewrite slots_of_schedule, slots_of_log, slots_of_mark.
  - etrans; [exact Hr|]. by apply submit_is_a_run.
  - exact Hr.
Qed.
End calls.

(** Submitting a read slot and completing one the USB stack holds change the
    in-flight mask and the buffers the USB stack holds exactly as a run of the atomic
    steps does, whatever [ReadPipeAsync] returns and whatever the status and the
    bytes received, and so keep one holder per slot. *)
Theorem read_calls_are_slot_runs `{IOKitABI} (diagnostic : bool) (i status : Z) (data : list Z)
    (result t : Z) (s : read_state) :
  0 ≤ i < MIDI_READ_SLOTS → slots_ok (slots_of s) →
  let submitted := (submit_read diagnostic i result t s).2 in
  let completed := read_complete diagnostic i status data result t s in
  rtc slot_step (slots_of s) (slots_of submitted) ∧ slots_ok (slots_of submitted) ∧
  (i ∈ usb_holds s →
   rtc slot_step (slots_of s) (slots_of completed) ∧ slots_ok (slots_of completed)).
Proof.
  intros Hi Hok submitted completed.
  assert (rtc slot_step (slots_of s) (slots_of submitted)) as H1 by by apply submit_is_a_run.
  split; [exact H1|]. split; [by eapply slots_ok_run|]. intros Hin.
  assert (NoDup (usb_holds s)) as Hn.
  { pose proof (so_nodup _ Hok) as Hn. unfold holders in Hn. cbn in Hn. by rewrite app_nil_r in Hn. }
  assert (rtc slot_step (slots_of s) (slots_of completed)) as H2 by by apply complete_is_a_run.
  split; [exact H2|]. by eapply slots_ok_run.
Qed.

Definition example_iokit : IOKitABI :=
  {| kIOReturnSuccess := 0; kIOReturnNotResponding := 3758097133; kIOUSBPipeStalled := 3758112847 |}.

Definition example_reads : read_state :=
  {| running := true; read_target_count := 4; input_pipe_recovery_active := false;
     input_polling := true; read_in_flight_mask := 0; read_in_flight_minimum_count := 4;
     read_in_flight_minimum_tracking := false; pending_read_recovery_mask := 0;
     pending_read_clear_mask := 0; read_slot_out_of_flight_since_ms := [0; 0; 0; 0];
     read_recovery_requested_us := [0; 0; 0; 0]; input_error_counts := replicate 12 0;
     last_input_error_log_ms := 0; input := demo_input; usb_holds := [] |}.

Lemma read_calls_are_slot_runs_witness :
  slots_ok (slots_of example_reads) ∧
  slots_ok (slots_of (@submit_read example_iokit false 1 0 7000 example_reads).2) ∧
  slots_of (@submit_read example_iokit false 1 0 7000 example_reads).2 =
    {| mask := 2; claimed := []; held := [1]; finishing := [] |}.
Proof.
  assert (slots_ok (slots_of example_reads)) as H by exact slots_ok_start.
  split; [exact H|]. split; [|reflexivity].
  assert (0 ≤ 1 < MIDI_READ_SLOTS) as Hi by (vm_compute; split; congruence).
  exact (proj1 (proj2 (@read_calls_are_slot_runs example_iokit false 1 0 [] 0 7000 example_reads Hi H))).
Defined.
