(* ===== verification/MidiWorker.v ===== *)
(** * The MIDI writing thread (write_worker of NS6MIDI.c)

    One round of [write_worker] is a function of the state and of what IOKit
    answers during the round.  Completions of reads run on another thread: they are
    delivered between rounds and at the points where a round sleeps or waits.  A
    round that would sleep on the condition variable is [Waiting] and one that is
    still waiting for reads to complete is [Draining].  The lemmas show that rounds
    and completions keep every read slot the session wants in flight or queued for
    recovery; MidiSession draws the conclusions. *)

From stdpp Require Import base list numbers tactics.
From Stdlib Require Import ZArith Lia ZifyBool.
From S2P Require Import Prelude MidiParser MidiQueue MidiRecovery MidiReads.

(** A completed read: slot, status, bytes, the answer to its resubmission, time. *)
Record completion := {
  c_index : Z; c_status : Z; c_data : list Z; c_result : Z; c_time : Z
}.

(** What IOKit and the clock answer during a round. *)
Record answers := {
  abort_result : Z;
  clear_result : Z;
  read_results : list Z;
  write_result : Z;
  output_clear_result : Z;
  rewrite_result : Z;
  during_backoff : list completion;
  during_drain : list completion;
  time_us : Z
}.

(** [slept_ms] records the retry delays and [wire] the calls of [WritePipe]. *)
Record worker := {
  reads : read_state;
  packets : write_queue;
  input_read_depth : Z;
  consecutive_recovery_failures : Z;
  consecutive_clear_failures : Z;
  handshake_requested : bool;
  slept_ms : list Z;
  wire : list (list Z * Z)
}.

Inductive outcome := Waiting | Stopped (w : worker) | Continue (w : worker) | Draining.

Definition with_reads (s : read_state) (w : worker) : worker :=
  {| reads := s; packets := packets w; input_read_depth := input_read_depth w;
     consecutive_recovery_failures := consecutive_recovery_failures w;
     consecutive_clear_failures := consecutive_clear_failures w;
     handshake_requested := handshake_requested w; slept_ms := slept_ms w; wire := wire w |}.

Definition with_depth (d : Z) (s : read_state) (w : worker) : worker :=
  {| reads := s; packets := packets w; input_read_depth := d;
     consecutive_recovery_failures := consecutive_recovery_failures w;
     consecutive_clear_failures := consecutive_clear_failures w;
     handshake_requested := handshake_requested w; slept_ms := slept_ms w; wire := wire w |}.

(** A failure counter, which stops at six. *)
Definition next_failures (ok : bool) (n : Z) : Z := if ok then 0 else if n <? 6 then n + 1 else 6.

Section worker.
Context `{IOKitABI}.
Variable diagnostic : bool.
(** The variable [in_flight_read_mask] of lines 394 and 396, which no file declares. *)
Variable in_flight_read_mask : read_state → Z.

Definition complete (c : completion) (s : read_state) : read_state :=
  read_complete diagnostic (c_index c) (c_status c) (c_data c) (c_result c) (c_time c) s.

Definition deliver (cs : list completion) (s : read_state) : read_state :=
  fold_left (λ s c, complete c s) cs s.

(** [wait_for_input_reads_to_drain]: completions arrive until no read is in flight
    or the session stops; [None] while it still waits. *)
Fixpoint wait_for_input_reads_to_drain (cs : list completion) (s : read_state)
    : option (bool * read_state) :=
  if negb (running s) || (read_in_flight_mask s =? 0) then Some (read_in_flight_mask s =? 0, s)
  else match cs with
       | [] => None
       | c :: cs' => wait_for_input_reads_to_drain cs' (complete c s)
       end.

(** Submits the slots in turn; true when every submission succeeded. *)
Fixpoint submit_slots (a : answers) (js : list Z) (s : read_state) : bool * read_state :=
  match js with
  | [] => (true, s)
  | i :: js' =>
      let r := submit_read diagnostic i (rd (read_results a) i) (time_us a) s in
      let r' := submit_slots a js' (snd r) in
      (fst r && fst r', snd r')
  end.

Definition slots_in (mask count : Z) : list Z :=
  List.filter (λ i, negb (Z.land mask (bit i) =? 0)) (seqZ 0 count).

Definition recover_stalled_pipe (result : Z) (s : read_state) : bool :=
  running s && (result =? kIOReturnSuccess).

(** Fewer reads are wanted: abort, drain, and submit the smaller number. *)
Definition quiesce (a : answers) (w : worker) : outcome :=
  let s := set_recovery_active true (reads w) in
  let waited := if abort_result a =? kIOReturnSuccess
                then wait_for_input_reads_to_drain (during_drain a) s else Some (false, s) in
  match waited with
  | None => Draining
  | Some (true, s) =>
      let s := set_recovery_active false (set_pending 0 0 s) in
      let depth := read_target_count s in
      Continue (with_depth depth (snd (submit_slots a (seqZ 0 depth) s)) w)
  | Some (false, s) =>
      let target := read_target_count s in
      if negb (target =? 0) then
        let s := set_recovery_active false s in
        let missing := ns6_midi_read_missing_mask target (read_in_flight_mask s) in
        Continue (with_depth target (snd (submit_slots a (slots_in missing target) s)) w)
      else Continue (with_reads s w)
  end.

(** More reads are wanted: submit the missing ones. *)
Definition rearm (a : answers) (w : worker) : outcome :=
  let s := set_recovery_active false (reads w) in
  let depth := read_target_count s in
  let missing := ns6_midi_read_missing_mask depth (read_in_flight_mask s) in
  Continue (with_depth depth (snd (submit_slots a (slots_in missing depth) s)) w).

(** The endpoint-wide part of a recovery: whether the stall was cleared, the
    slots to submit, the slots whose stall is still to be cleared and the state. *)
Definition clear_endpoint (a : answers) (depth recovery_mask clear_mask : Z) (s : read_state)
    : option (bool * Z * Z * read_state) :=
  let all_slots := Z.land (ns6_midi_recovery_expand_pipe_stall recovery_mask)
                     (ns6_midi_read_target_mask depth) in
  if abort_result a =? kIOReturnSuccess then
    match wait_for_input_reads_to_drain (during_drain a) s with
    | None => None
    | Some (drained, s) =>
        let recovered := drained && running s && recover_stalled_pipe (clear_result a) s in
        let s := if drained then set_recovery_active false (set_pending 0 0 s) else s in
        if recovered then Some (true, all_slots, clear_mask, s)
        else if read_in_flight_mask s =? 0 then Some (false, all_slots, all_slots, s)
        else Some (false, recovery_mask, clear_mask, s)
    end
  else Some (false, recovery_mask, clear_mask, s).

(** Submission of the recovered slots, or their return to the queue. *)
Definition resubmit (a : answers) (recovered : bool) (recovery_mask clear_mask : Z)
    (s : read_state) : bool * read_state :=
  if recovered then
    let r :=
      if negb (Z.land clear_mask recovery_mask =? 0) then
        let mask := ns6_midi_recovery_ready
                      (Z.lor recovery_mask (pending_read_recovery_mask s)) (in_flight_read_mask s) in
        (mask, set_pending 0 (Z.ldiff (pending_read_clear_mask s) mask) s)
      else (recovery_mask, s) in
    submit_slots a (slots_in (fst r) MIDI_READ_SLOTS) (snd r)
  else
    (false,
     if running s
     then set_pending (Z.lor (pending_read_recovery_mask s) recovery_mask)
            (Z.lor (pending_read_clear_mask s) (Z.land clear_mask recovery_mask)) s
     else s).

Definition recover (a : answers) (recovery_mask clear_mask : Z) (w : worker) : outcome :=
  let clear_pending := negb (Z.land clear_mask recovery_mask =? 0) in
  let s := if clear_pending then set_recovery_active true (reads w) else reads w in
  let delay_ms := ns6_midi_recovery_retry_backoff_ms (consecutive_recovery_failures w)
                    (consecutive_clear_failures w) clear_pending in
  let s := deliver (during_backoff a) s in
  let cleared := if clear_pending
                 then clear_endpoint a (input_read_depth w) recovery_mask clear_mask s
                 else Some (true, recovery_mask, clear_mask, s) in
  match cleared with
  | None => Draining
  | Some (recovered, recovery_mask, clear_mask, s) =>
      let clear_failures := if clear_pending
                            then next_failures recovered (consecutive_clear_failures w)
                            else consecutive_clear_failures w in
      let r := resubmit a recovered recovery_mask clear_mask s in
      let all_submitted := fst r in
      Continue
        {| reads := snd r; packets := packets w; input_read_depth := input_read_depth w;
           consecutive_recovery_failures :=
             next_failures all_submitted (consecutive_recovery_failures w);
           consecutive_clear_failures := clear_failures;
           handshake_requested :=
             if ns6_midi_recovery_should_reidentify clear_pending recovered all_submitted
             then true else handshake_requested w;
           slept_ms := slept_ms w ++ (if delay_ms =? 0 then [] else [delay_ms]); wire := wire w |}
  end.

(** The next packet goes to the output pipe, once more after a cleared stall. *)
Definition write_packet (a : answers) (w : worker) : worker :=
  match dequeue (packets w) with
  | (None, _) => w
  | (Some packet, q) =>
      let again := (write_result a =? kIOUSBPipeStalled) &&
                   recover_stalled_pipe (output_clear_result a) (reads w) in
      {| reads := reads w; packets := q; input_read_depth := input_read_depth w;
         consecutive_recovery_failures := consecutive_recovery_failures w;
         consecutive_clear_failures := consecutive_clear_failures w;
         handshake_requested := handshake_requested w; slept_ms := slept_ms w;
         wire := wire w ++ (packet, write_result a) ::
                   (if again then [(packet, rewrite_result a)] else []) |}
  end.

(** One round of the loop of [write_worker]. *)
Definition worker_round (a : answers) (w : worker) : outcome :=
  let s := reads w in
  let empty := head (packets w) =? tail (packets w) in
  let action := ns6_midi_read_action (running s) (read_target_count s) (input_read_depth w) in
  match empty, running s, action with
  | true, false, _ => Stopped (with_reads (set_pending 0 0 s) w)
  | _, _, NS6_MIDI_READ_QUIESCE => quiesce a w
  | _, _, NS6_MIDI_READ_REARM => rearm a w
  | _, _, NS6_MIDI_READ_NOOP =>
      if empty && (pending_read_recovery_mask s =? 0) then Waiting
      else
        let recovery_mask := if running s then pending_read_recovery_mask s else 0 in
        let clear_mask := if running s then pending_read_clear_mask s else 0 in
        let w := if running s then with_reads (set_pending 0 0 s) w else w in
        if negb (recovery_mask =? 0) then recover a recovery_mask clear_mask w
        else Continue (write_packet a w)
  end.
End worker.

(** ** No read slot is lost *)

Definition covered (s : read_state) (i : Z) : Prop :=
  Z.testbit (read_in_flight_mask s) i = true ∨ Z.testbit (pending_read_recovery_mask s) i = true.

(** A later state of the same session: nothing below [d] is uncovered, and the
    pending masks only grow. *)
Record advances (d : Z) (s s' : read_state) : Prop := {
  ad_running : running s' = running s;
  ad_target : read_target_count s' = read_target_count s;
  ad_active : input_pipe_recovery_active s' = input_pipe_recovery_active s;
  ad_polling : input_polling s' = input_polling s;
  ad_covered : ∀ i, 0 ≤ i < d → covered s i → covered s' i
}.

Lemma advances_refl d s : advances d s s.
Proof. by split. Qed.

Lemma advances_trans d s1 s2 s3 : advances d s1 s2 → advances d s2 s3 → advances d s1 s3.
Proof. intros [] []. split; try congruence. auto. Qed.

Section kept.
Context `{IOKitABI}.

(** What submission and completion leave alone apart from masks and masks pending. *)
Definition same_session (s s' : read_state) : Prop :=
  running s' = running s ∧ read_target_count s' = read_target_count s ∧
  input_pipe_recovery_active s' = input_pipe_recovery_active s ∧ input_polling s' = input_polling s.

Lemma track_frame s :
  same_session s (track_read_in_flight_minimum s) ∧
  read_in_flight_mask (track_read_in_flight_minimum s) = read_in_flight_mask s ∧
  pending_read_recovery_mask (track_read_in_flight_minimum s) = pending_read_recovery_mask s.
Proof. unfold track_read_in_flight_minimum, same_session. by repeat case_match. Qed.

Lemma mark_frame i t s :
  same_session s (mark_read_slot_out_of_flight i t s) ∧
  read_in_flight_mask (mark_read_slot_out_of_flight i t s) = read_in_flight_mask s ∧
  pending_read_recovery_mask (mark_read_slot_out_of_flight i t s) = pending_read_recovery_mask s.
Proof. unfold mark_read_slot_out_of_flight, same_session. by repeat case_match. Qed.

Lemma log_frame r i t s :
  same_session s (log_input_error r i t s) ∧
  read_in_flight_mask (log_input_error r i t s) = read_in_flight_mask s ∧
  pending_read_recovery_mask (log_input_error r i t s) = pending_read_recovery_mask s.
Proof. unfold log_input_error, same_session. by repeat case_match. Qed.

(** Scheduling covers the slot, in a running session that retries every error. *)
Lemma schedule_covers i r t s :
  0 ≤ i < MIDI_READ_SLOTS → running s = true →
  let s' := schedule_read_recovery false i r t s in
  same_session s s' ∧ read_in_flight_mask s' = read_in_flight_mask s ∧
  pending_read_recovery_mask s' = Z.lor (pending_read_recovery_mask s) (bit i).
Proof.
  intros Hi Hr s'. subst s'. unfold schedule_read_recovery, same_session. rewrite Hr. cbn [negb].
  replace ((i <? 0) || (i >=? MIDI_READ_SLOTS)) with false by lia. cbn.
  unfold ns6_midi_recovery_add. unfold MIDI_READ_SLOTS in Hi.
  replace (i <? NS6_MIDI_RECOVERY_SLOTS) with true by lia. done.
Qed.

(** After the last frames of a failed submission or completion. *)
Lemma failure_covers i r t s :
  0 ≤ i < MIDI_READ_SLOTS → running s = true →
  let s' := schedule_read_recovery false i r t
              (log_input_error r i t (mark_read_slot_out_of_flight i t s)) in
  same_session s s' ∧ read_in_flight_mask s' = read_in_flight_mask s ∧
  pending_read_recovery_mask s' = Z.lor (pending_read_recovery_mask s) (bit i).
Proof.
  intros Hi Hr. destruct (mark_frame i t s) as ((M1 & M2 & M3 & M4) & M5 & M6).
  set (s1 := mark_read_slot_out_of_flight i t s) in *.
  destruct (log_frame r i t s1) as ((L1 & L2 & L3 & L4) & L5 & L6).
  set (s2 := log_input_error r i t s1) in *.
  destruct (schedule_covers i r t s2 Hi ltac:(congruence)) as ((S1 & S2 & S3 & S4) & S5 & S6).
  cbv zeta. unfold same_session. repeat split; congruence.
Qed.

Lemma submit_covers i r t s d :
  0 ≤ i < MIDI_READ_SLOTS → running s = true → input_pipe_recovery_active s = false →
  i < read_target_count s →
  let s' := (submit_read false i r t s).2 in advances d s s' ∧ covered s' i.
Proof.
  intros Hi Hr Ha Ht. assert (0 ≤ i) as Hi0 by lia. cbv zeta. unfold submit_read.
  replace (i >=? 0) with true by lia. unfold ns6_midi_read_should_submit. rewrite Hr, Ha.
  replace (i <? read_target_count s) with true by lia. cbn [negb andb].
  rewrite read_slot_bit_in by exact Hi.
  assert (∀ m j, Z.testbit (Z.lor m (bit i)) j = Z.testbit m j || (j =? i)) as Hlor
    by (intros; apply bit_set_testbit; lia).
  destruct (Z.land (read_in_flight_mask s) (bit i) =? 0) eqn:E; cbn [negb].
  2: { split; [split; try done|left; cbn; rewrite Hlor; lia].
       intros j _ [Hj|Hj]; [left; cbn; rewrite Hlor, Hj|right]; done. }
  set (s1 := track_read_in_flight_minimum _).
  destruct (track_frame (set_mask (Z.lor (read_in_flight_mask s) (bit i)) s))
    as ((T1 & T2 & T3 & T4) & T5 & T6). fold s1 in T1, T2, T3, T4, T5, T6.
  clearbody s1. cbn in T1, T2, T3, T4, T5, T6.
  destruct (r =? kIOReturnSuccess); cbn [snd].
  - split; [split; cbn; try congruence|left; cbn; by rewrite T5, Hlor, Z.eqb_refl, orb_true_r].
    intros j _ [Hj|Hj]; [left; cbn; rewrite T5, Hlor, Hj|right; cbn; rewrite T6]; done.
  - set (s2 := set_mask (Z.ldiff (read_in_flight_mask s1) (bit i)) s1).
    destruct (track_frame s2) as ((R1 & R2 & R3 & R4) & R5 & R6).
    cbn in R1, R2, R3, R4, R5, R6.
    destruct (failure_covers i r t (track_read_in_flight_minimum s2) Hi) as ((F1 & F2 & F3 & F4) & F5 & F6).
    { congruence. }
    set (s3 := track_read_in_flight_minimum s2) in *. clearbody s3.
    set (s4 := schedule_read_recovery _ _ _ _ _) in *. clearbody s4 s2.
    split; [split; try congruence|right; by rewrite F6, Hlor, Z.eqb_refl, orb_true_r].
    clear -Hlor Hi0 E T5 T6 R5 R6 F5 F6. rewrite bit_test in E by exact Hi0.
    intros j _ [Hj|Hj].
    + left. rewrite F5, R5, bit_clear_testbit, T5, Hlor by exact Hi0.
      destruct (Z.eqb_spec j i) as [->|]; [|by rewrite Hj].
      by rewrite Hj in E.
    + right. by rewrite F6, R6, Hlor, T6, Hj.
Qed.

(** While the endpoint recovers, a completion only gives its slot up. *)
Lemma complete_during_recovery (c : completion) s :
  input_pipe_recovery_active s = true →
  let s' := complete false c s in
  same_session s s' ∧ pending_read_recovery_mask s' = pending_read_recovery_mask s ∧
  pending_read_clear_mask s' = pending_read_clear_mask s.
Proof.
  intros Ha. cbv zeta. unfold complete, read_complete.
  set (s1 := track_read_in_flight_minimum _).
  assert (same_session s s1 ∧ pending_read_recovery_mask s1 = pending_read_recovery_mask s ∧
          pending_read_clear_mask s1 = pending_read_clear_mask s) as Hs.
  { unfold s1, track_read_in_flight_minimum, same_session. by repeat case_match. }
  clearbody s1. destruct Hs as ((S1 & S2 & S3 & S4) & S5 & S6).
  unfold ns6_midi_read_completion_should_continue, ns6_midi_read_should_submit.
  rewrite S3, Ha, andb_false_r. cbn [negb]. unfold same_session. repeat split; congruence.
Qed.

Lemma complete_covers (c : completion) s :
  0 ≤ c_index c < MIDI_READ_SLOTS → running s = true → input_polling s = true →
  input_pipe_recovery_active s = false →
  advances (read_target_count s) s (complete false c s).
Proof.
  intros Hi Hr Hp Ha. unfold complete, read_complete.
  set (s1 := track_read_in_flight_minimum _).
  assert (same_session s s1 ∧
    read_in_flight_mask s1 = Z.ldiff (read_in_flight_mask s) (bit (c_index c)) ∧
    pending_read_recovery_mask s1 = pending_read_recovery_mask s) as Hs.
  { unfold s1, track_read_in_flight_minimum, same_session. rewrite read_slot_bit_in by exact Hi.
    by repeat case_match. }
  clearbody s1. destruct Hs as ((S1 & S2 & S3 & S4) & S5 & S6).
  assert (∀ j, j ≠ c_index c → covered s j → covered s1 j) as Hother.
  { intros j Hj [Hc|Hc]; [left|right; by rewrite S6]. rewrite S5, bit_clear_testbit by apply Hi.
    rewrite Hc. cbn. apply negb_true_iff, Z.eqb_neq, Hj. }
  assert (∀ s2, advances (read_target_count s) s1 s2 →
    (c_index c < read_target_count s → covered s2 (c_index c)) →
    advances (read_target_count s) s s2) as Hfin.
  { intros s2 [A1 A2 A3 A4 A5] Hc. split; try congruence. intros j Hj Hcj.
    destruct (Z.eq_dec j (c_index c)) as [->|Hne]; [apply Hc, Hj|]. apply A5; [exact Hj|]. by apply Hother. }
  unfold ns6_midi_read_completion_should_continue, ns6_midi_read_should_submit.
  rewrite S1, S2, S3, Hr, Ha. cbn [andb negb]. rewrite andb_true_r.
  destruct (Z.ltb_spec (c_index c) (read_target_count s)) as [Hlt|Hge]; cbn [negb].
  2: { apply Hfin; [apply advances_refl|]. intros Hlt. lia. }
  destruct (c_status c =? kIOReturnSuccess).
  - cbn. rewrite S1, S4, Hr, Hp. cbn [andb]. set (s2 := set_input _ s1).
    destruct (submit_covers (c_index c) (c_result c) (c_time c) s2 (read_target_count s) Hi)
      as [H1 H2]; [cbn; congruence | cbn; congruence | cbn; congruence|].
    apply Hfin; [|done]. destruct H1. by split.
  - destruct (failure_covers (c_index c) (c_status c) (c_time c) s1 Hi ltac:(congruence))
      as ((F1 & F2 & F3 & F4) & F5 & F6).
    apply Hfin.
    + split; try congruence. intros j _ [Hj|Hj]; [left; by rewrite F5|right].
      rewrite F6, bit_set_testbit, Hj by apply Hi. done.
    + intros _. right. rewrite F6, bit_set_testbit, Z.eqb_refl by apply Hi. apply orb_true_r.
Qed.

Definition slots_valid (cs : list completion) : Prop :=
  Forall (λ c, 0 ≤ c_index c < MIDI_READ_SLOTS) cs.

Lemma deliver_covers (cs : list completion) s :
  slots_valid cs → running s = true → input_polling s = true →
  input_pipe_recovery_active s = false →
  advances (read_target_count s) s (deliver false cs s).
Proof.
  intros Hv. revert s. induction Hv as [|c cs Hc _ IH]; intros s Hr Hp Ha; [apply advances_refl|].
  cbn. pose proof (complete_covers c s Hc Hr Hp Ha) as HA.
  pose proof HA as [A1 A2 A3 A4 _]. eapply advances_trans; [exact HA|]. rewrite <- A2.
  apply IH; congruence.
Qed.

Lemma deliver_during_recovery (cs : list completion) s :
  input_pipe_recovery_active s = true →
  let s' := deliver false cs s in
  same_session s s' ∧ pending_read_recovery_mask s' = pending_read_recovery_mask s ∧
  pending_read_clear_mask s' = pending_read_clear_mask s.
Proof.
  revert s. induction cs as [|c cs IH]; intros s Ha; [by cbn|]. cbn.
  destruct (complete_during_recovery c s Ha) as ((C1 & C2 & C3 & C4) & C5 & C6).
  rewrite Ha in C3. destruct (IH _ C3) as ((D1 & D2 & D3 & D4) & D5 & D6).
  cbv zeta. unfold same_session. unfold deliver in *. repeat split; congruence.
Qed.

(** The wait ends with no read in flight, in a session that keeps running. *)
Lemma drain_result (cs : list completion) s b s' :
  running s = true → input_pipe_recovery_active s = true →
  wait_for_input_reads_to_drain false cs s = Some (b, s') →
  same_session s s' ∧ b = true ∧ read_in_flight_mask s' = 0.
Proof.
  revert s. induction cs as [|c cs IH]; intros s Hr Ha; cbn; rewrite Hr; cbn [negb orb];
    destruct (read_in_flight_mask s =? 0) eqn:E; intros Hw; try (injection Hw as <- <-).
  - split; [by split|]. split; [done|]. by apply Z.eqb_eq.
  - done.
  - split; [by split|]. split; [done|]. by apply Z.eqb_eq.
  - destruct (complete_during_recovery c s Ha) as ((C1 & C2 & C3 & C4) & _).
    destruct (IH (complete false c s)) as ((D1 & D2 & D3 & D4) & ? & ?); [congruence|congruence|exact Hw|].
    split; [|done]. unfold same_session. repeat split; congruence.
Qed.

(** A slot the session does not want is not submitted. *)
Lemma submit_refused i r t s :
  0 ≤ i → read_target_count s ≤ i → (submit_read false i r t s).2 = s.
Proof.
  intros Hi Ht. unfold submit_read, ns6_midi_read_should_submit.
  replace (i >=? 0) with true by lia. replace (i <? read_target_count s) with false by lia.
  by rewrite andb_false_r.
Qed.

(** Submitting a list of slots covers each of them the session wants. *)
Lemma submit_slots_cover (a : answers) (js : list Z) s :
  Forall (λ i, 0 ≤ i < MIDI_READ_SLOTS) js →
  running s = true → input_pipe_recovery_active s = false →
  let s' := (submit_slots false a js s).2 in
  advances (read_target_count s) s s' ∧
  (∀ i, i ∈ js → i < read_target_count s → covered s' i).
Proof.
  intros Hv. revert s. induction Hv as [|j js Hj Hv IH]; intros s Hr Ha; cbn.
  { split; [apply advances_refl|]. intros i Hi. by apply not_elem_of_nil in Hi. }
  assert (advances (read_target_count s) s
            (submit_read false j (rd (read_results a) j) (time_us a) s).2 ∧
          (j < read_target_count s →
           covered (submit_read false j (rd (read_results a) j) (time_us a) s).2 j)) as [HA Hc].
  { destruct (Z.lt_ge_cases j (read_target_count s)) as [Ht|Ht].
    - destruct (submit_covers j (rd (read_results a) j) (time_us a) s (read_target_count s) Hj Hr Ha Ht).
      done.
    - rewrite submit_refused by lia. split; [apply advances_refl|]. lia. }
  set (s1 := (submit_read false j (rd (read_results a) j) (time_us a) s).2) in *. clearbody s1.
  pose proof HA as [A1 A2 A3 A4 A5].
  destruct (IH s1 ltac:(congruence) ltac:(congruence)) as [HB Hcs]. rewrite A2 in HB, Hcs.
  split; [by eapply advances_trans|]. intros i [->|Hi]%elem_of_cons Ht; [|by apply Hcs].
  apply HB; [|by apply Hc]. split; [apply Hj|exact Ht].
Qed.

Lemma slots_in_elem (mask n i : Z) :
  i ∈ slots_in mask n ↔ Z.testbit mask i = true ∧ 0 ≤ i < n.
Proof.
  unfold slots_in. rewrite list_elem_of_In, List.filter_In, <- list_elem_of_In, elem_of_seqZ.
  split; [intros [Hi Hb]|intros [Hb Hi]]; rewrite bit_test in * by lia.
  - split; [|lia]. by destruct (Z.testbit mask i).
  - split; [lia|]. by rewrite Hb.
Qed.

Lemma slots_in_valid (mask : Z) :
  Forall (λ i, 0 ≤ i < MIDI_READ_SLOTS) (slots_in mask MIDI_READ_SLOTS).
Proof. apply list.Forall_forall. intros i Hi. by apply slots_in_elem in Hi as [_ Hi]. Qed.
End kept.

(** ** The worker keeps every wanted slot *)

Section recovery.
Context `{IOKitABI}.
Variable in_flight_read_mask : read_state → Z.
Hypothesis in_flight_reads : ∀ s i,
  Z.testbit (in_flight_read_mask s) i = true → Z.testbit (read_in_flight_mask s) i = true.

(** The session wants [d] reads and the worker knows it; while the endpoint
    recovers its recovery is pending, and otherwise every wanted slot is in flight
    or pending. *)
Record kept (d : Z) (w : worker) : Prop := {
  k_depth : 0 ≤ d ≤ 4 ∧ input_read_depth w = d;
  k_running : running (reads w) = true;
  k_target : read_target_count (reads w) = d;
  k_polling : input_polling (reads w) = true;
  k_recovering : input_pipe_recovery_active (reads w) = true →
    Z.land (pending_read_clear_mask (reads w)) (pending_read_recovery_mask (reads w)) ≠ 0;
  k_covered : input_pipe_recovery_active (reads w) = false →
    ∀ i, 0 ≤ i < d → covered (reads w) i
}.

Lemma kept_complete d w c :
  0 ≤ c_index c < MIDI_READ_SLOTS → kept d w → kept d (with_reads (complete false c (reads w)) w).
Proof.
  intros Hc [Kd Kr Kt Kp Ka Kc]. destruct (input_pipe_recovery_active (reads w)) eqn:Ha.
  - destruct (complete_during_recovery c (reads w) Ha) as ((C1 & C2 & C3 & C4) & C5 & C6).
    split; cbn; try congruence. intros _. rewrite C5, C6. by apply Ka.
  - destruct (complete_covers c (reads w) Hc Kr Kp Ha) as [A1 A2 A3 A4 A5].
    split; cbn; try congruence. intros _ i Hi. apply A5; [lia|]. by apply Kc.
Qed.

(** All wanted slots, from a nonempty recovery mask. *)
Lemma all_slots_testbit d R i :
  0 ≤ d ≤ 4 → R ≠ 0 → 0 ≤ i →
  Z.testbit (Z.land (ns6_midi_recovery_expand_pipe_stall R) (ns6_midi_read_target_mask d)) i =
  (i <? d).
Proof.
  intros Hd HR Hi. rewrite Z.land_spec, target_mask_testbit by lia.
  unfold ns6_midi_recovery_expand_pipe_stall. replace (R =? 0) with false by lia.
  rewrite ones_testbit by (unfold NS6_MIDI_RECOVERY_SLOTS; lia). unfold NS6_MIDI_RECOVERY_SLOTS. lia.
Qed.

(** What [resubmit] needs to leave the session covered: the slots to submit and the
    covered ones are all the wanted ones. *)
Lemma resubmit_recovered a R C s d :
  0 ≤ d ≤ 4 → running s = true → input_pipe_recovery_active s = false →
  read_target_count s = d →
  (∀ i, 0 ≤ i < d → Z.testbit R i = true ∨ covered s i) →
  let s' := (resubmit false in_flight_read_mask a true R C s).2 in
  same_session s s' ∧ ∀ i, 0 ≤ i < d → covered s' i.
Proof.
  intros Hd Hr Ha Ht HR. cbv zeta. unfold resubmit.
  set (r := if negb (Z.land C R =? 0) then _ else _).
  assert (same_session s r.2 ∧
          (∀ i, 0 ≤ i < d → Z.testbit r.1 i = true ∨ covered r.2 i)) as [(S1 & S2 & S3 & S4) Hr1].
  { unfold r. destruct (negb (Z.land C R =? 0)); [|done]. split; [done|]. intros i Hi. cbn.
    unfold ns6_midi_recovery_ready. rewrite Z.ldiff_spec, Z.lor_spec.
    destruct (Z.testbit (in_flight_read_mask s) i) eqn:Ei; [right; left; exact (in_flight_reads s i Ei)|].
    rewrite andb_true_r. destruct (HR i Hi) as [->|[Hm|Hm]]; [by left|right; by left|].
    left. rewrite Hm. apply orb_true_r. }
  clearbody r.
  destruct (submit_slots_cover a (slots_in r.1 MIDI_READ_SLOTS) r.2 (slots_in_valid _)
              ltac:(congruence) ltac:(congruence)) as [[A1 A2 A3 A4 A5] Hcs].
  split; [unfold same_session; repeat split; congruence|]. rewrite S2, Ht in A5, Hcs.
  intros i Hi. destruct (Hr1 i Hi) as [Hb|Hc]; [|by apply A5].
  apply Hcs; [|apply Hi]. apply slots_in_elem. split; [exact Hb|].
  clear -Hi Hd. unfold MIDI_READ_SLOTS, NS6_MIDI_RECOVERY_SLOTS. lia.
Qed.

(** An endpoint-wide recovery ends covered, or still pending with its slots back in
    the queue. *)
Lemma clear_endpoint_kept a d R C s rec R' C' s1 :
  0 ≤ d ≤ 4 → R ≠ 0 → Z.land C R ≠ 0 → running s = true →
  input_pipe_recovery_active s = true → read_target_count s = d →
  clear_endpoint false a d R C s = Some (rec, R', C', s1) →
  let s' := (resubmit false in_flight_read_mask a rec R' C' s1).2 in
  running s' = true ∧ read_target_count s' = d ∧ input_polling s' = input_polling s ∧
  (input_pipe_recovery_active s' = true →
   Z.land (pending_read_clear_mask s') (pending_read_recovery_mask s') ≠ 0) ∧
  (input_pipe_recovery_active s' = false → ∀ i, 0 ≤ i < d → covered s' i).
Proof.
  intros Hd HR HC Hr Ha Ht Hce. unfold clear_endpoint in Hce.
  destruct (abort_result a =? kIOReturnSuccess).
  2: { injection Hce as <- <- <- <-. cbn. rewrite Hr. cbn. split; [done|]. split; [done|].
       split; [done|]. split; [|congruence]. intros _ E. apply HC.
       apply Z.bits_inj'. intros i Hi. rewrite Z.bits_0.
       assert (Z.testbit (Z.land (Z.lor (pending_read_clear_mask s) (Z.land C R))
                 (Z.lor (pending_read_recovery_mask s) R)) i = false) as Hb by by rewrite E, Z.bits_0.
       rewrite Z.land_spec, !Z.lor_spec, Z.land_spec in Hb. rewrite Z.land_spec.
       destruct (Z.testbit C i), (Z.testbit R i); try done. by rewrite !orb_true_r in Hb. }
  destruct (wait_for_input_reads_to_drain false (during_drain a) s) as [[b s2]|] eqn:Ew; [|done].
  apply drain_result in Ew as ((D1 & D2 & D3 & D4) & -> & Dm); [|done..].
  rewrite D1, Hr in Hce. cbn [andb read_in_flight_mask set_recovery_active set_pending] in Hce.
  rewrite Dm in Hce. cbn [Z.eqb] in Hce.
  pose proof (λ i, all_slots_testbit d R i Hd HR) as Hall.
  destruct (recover_stalled_pipe (clear_result a) s2).
  - injection Hce as <- <- <- <-.
    destruct (resubmit_recovered a (Z.land (ns6_midi_recovery_expand_pipe_stall R)
                (ns6_midi_read_target_mask d)) C (set_recovery_active false (set_pending 0 0 s2)) d Hd)
      as [(S1 & S2 & S3 & S4) Hc];
      [cbn; congruence|done|cbn; congruence|intros i [Hi Hlt]; left; rewrite (Hall i Hi); by apply Z.ltb_lt|].
    cbv zeta. rewrite S1, S2, S3, S4. cbn. repeat split; try congruence. intros _. exact Hc.
  - injection Hce as <- <- <- <-. cbn [resubmit snd].
    set (s3 := set_recovery_active false (set_pending 0 0 s2)).
    assert (running s3 = true) as E3 by (cbn; congruence). rewrite E3.
    repeat split; try (cbn; congruence). intros _ i [Hi Hlt]. right.
    change (Z.testbit (Z.lor 0 (Z.land (ns6_midi_recovery_expand_pipe_stall R)
              (ns6_midi_read_target_mask d))) i = true).
    rewrite Z.lor_0_l, (Hall i Hi). by apply Z.ltb_lt.
Qed.

Lemma recover_kept a d R C w w' :
  slots_valid (during_backoff a) → R ≠ 0 →
  0 ≤ d ≤ 4 → input_read_depth w = d → running (reads w) = true →
  read_target_count (reads w) = d → input_polling (reads w) = true →
  (input_pipe_recovery_active (reads w) = true → Z.land C R ≠ 0) →
  (input_pipe_recovery_active (reads w) = false →
   ∀ i, 0 ≤ i < d → Z.testbit R i = true ∨ covered (reads w) i) →
  recover false in_flight_read_mask a R C w = Continue w' → kept d w'.
Proof.
  intros Hv HR Hd Hdep Hr Ht Hp Hact Hcov. unfold recover.
  destruct (Z.eqb_spec (Z.land C R) 0) as [E|E]; cbn [negb].
  - assert (input_pipe_recovery_active (reads w) = false) as Ha
      by (destruct (input_pipe_recovery_active (reads w)); [by destruct (Hact eq_refl)|done]).
    destruct (deliver_covers (during_backoff a) (reads w) Hv Hr Hp Ha) as [A1 A2 A3 A4 A5].
    rewrite Ht in A5.
    destruct (resubmit_recovered a R C (deliver false (during_backoff a) (reads w)) d Hd)
      as [(S1 & S2 & S3 & S4) Hc]; [congruence..| |].
    { intros i Hi. destruct (Hcov Ha i Hi); [by left|right]. by apply A5. }
    set (r := resubmit _ _ _ _ _ _ _) in *. clearbody r. intros [= <-].
    split; cbn; [by split|congruence|congruence|congruence|congruence|intros _; exact Hc].
  - destruct (deliver_during_recovery (during_backoff a) (set_recovery_active true (reads w)) eq_refl)
      as ((D1 & D2 & D3 & D4) & _). cbn in D1, D2, D3, D4.
    set (s := deliver false (during_backoff a) (set_recovery_active true (reads w))) in *. clearbody s.
    destruct (clear_endpoint false a (input_read_depth w) R C s) as [[[[rec R'] C'] s1]|] eqn:Ec; [|done].
    rewrite Hdep in Ec.
    destruct (clear_endpoint_kept a d R C s rec R' C' s1 Hd HR E ltac:(congruence) D3
                ltac:(congruence) Ec) as (K1 & K2 & K3 & K4 & K5).
    set (r := resubmit _ _ _ _ _ _ _) in *. clearbody r. intros [= <-].
    split; cbn; [by split|exact K1|exact K2|congruence|exact K4|exact K5].
Qed.

Lemma kept_round a d w w' :
  slots_valid (during_backoff a) → kept d w →
  worker_round false in_flight_read_mask a w = Continue w' → kept d w'.
Proof.
  intros Hv [[Kd Kdep] Kr Kt Kp Ka Kc]. unfold worker_round, ns6_midi_read_action.
  rewrite Kr, Kt, Kdep, Z.eqb_refl. cbn [negb orb].
  destruct (head (packets w) =? tail (packets w)); cbn [andb].
  all: destruct (Z.eqb_spec (pending_read_recovery_mask (reads w)) 0) as [E|E]; cbn [negb].
  - done.
  - apply recover_kept; try done. cbn. intros Ha i Hi. destruct (Kc Ha i Hi) as [Hm|Hm]; [|by left].
    right. by left.
  - intros [= <-].
    assert (reads (write_packet a (with_reads (set_pending 0 0 (reads w)) w)) =
            set_pending 0 0 (reads w) ∧
            input_read_depth (write_packet a (with_reads (set_pending 0 0 (reads w)) w)) =
            input_read_depth w) as [E1 E2].
    { unfold write_packet. by destruct (dequeue _) as [[]]. }
    split; rewrite ?E1, ?E2; cbn; try done.
    + intros Ha. destruct (Ka Ha). rewrite E. apply Z.land_0_r.
    + intros Ha i Hi. destruct (Kc Ha i Hi) as [Hm|Hm]; [by left|]. by rewrite E, Z.bits_0 in Hm.
  - apply recover_kept; try done. cbn. intros Ha i Hi. destruct (Kc Ha i Hi) as [Hm|Hm]; [|by left].
    right. by left.
Qed.

(** A worker that sleeps has every wanted read in flight. *)
Lemma kept_waiting a d w :
  kept d w → worker_round false in_flight_read_mask a w = Waiting →
  ∀ i, 0 ≤ i < d → Z.testbit (read_in_flight_mask (reads w)) i = true.
Proof.
  intros [[Kd Kdep] Kr Kt Kp Ka Kc]. unfold worker_round, ns6_midi_read_action.
  rewrite Kr, Kt, Kdep, Z.eqb_refl. cbn [negb orb].
  assert (∀ R C w1, recover false in_flight_read_mask a R C w1 ≠ Waiting) as Hn.
  { intros R C w1. unfold recover. by destruct (if negb _ then _ else _) as [[[[]]]|]. }
  destruct (Z.eqb_spec (pending_read_recovery_mask (reads w)) 0) as [E|E].
  2: { rewrite andb_false_r. cbn. destruct (_ =? _); intros Hw; by apply Hn in Hw. }
  destruct (head (packets w) =? tail (packets w)); [|done]. intros _ i Hi.
  destruct (input_pipe_recovery_active (reads w)).
  - destruct (Ka eq_refl). rewrite E. apply Z.land_0_r.
  - destruct (Kc eq_refl i Hi) as [Hm|Hm]; [done|]. by rewrite E, Z.bits_0 in Hm.
Qed.
End recovery.
