(* ===== verification/MidiSession.v ===== *)
(** * The MIDI session (ns6_midi_start, ns6_midi_set_audio_active,
      ns6_midi_handshake and ns6_midi_stop of NS6MIDI.c)

    Starting a session finds the pipes, opens the sockets, starts the threads and
    submits the first reads; the handshake sends three messages and watches the
    input for the device's reply.  What IOKit and the system answer is an argument. *)

From stdpp Require Import base list numbers tactics.
From Stdlib Require Import ZArith Lia ZifyBool.
From S2P Require Import Prelude MidiParser MidiQueue MidiRecovery MidiReads MidiWorker.

(** Directions and transfer types of [IOKit/usb/USB.h]. *)
Class USBABI := { kUSBIn : Z; kUSBOut : Z; kUSBBulk : Z }.

(** What [GetPipeProperties] tells of a pipe. *)
Record pipe_properties := { p_direction : Z; p_number : Z; p_type : Z }.

Record session := {
  thread : worker;
  usb : bool;
  input_pipe : Z;
  output_pipe : Z;
  audio_client_active : bool;
  writer_started : bool;
  receiver_started : bool;
  sockets_open : bool
}.

(** What the system answers while a session starts; the properties of a pipe may be
    unreadable. *)
Record start_answers := {
  new_usb : bool;
  run_loop : bool;
  endpoints : option (list (option pipe_properties));
  clear_input_result : Z;
  clear_output_result : Z;
  open_sockets : bool;
  create_writer : bool;
  create_receiver : bool;
  start_io : answers
}.

Section find.
Context `{USBABI}.

(** The loop of [find_pipes] from pipe [pipe] on: the last match of each kind wins. *)
Fixpoint find_loop (pipe : Z) (ps : list (option pipe_properties)) (input output : Z) : Z * Z :=
  match ps with
  | [] => (input, output)
  | None :: ps' => find_loop (pipe + 1) ps' input output
  | Some p :: ps' =>
      find_loop (pipe + 1) ps'
        (if (p_direction p =? kUSBIn) && (p_number p =? 3) && (p_type p =? kUSBBulk)
         then pipe else input)
        (if (p_direction p =? kUSBOut) && (p_number p =? 4) && (p_type p =? kUSBBulk)
         then pipe else output)
  end.

(** The two pipes and whether both were found; they were zero before. *)
Definition find_pipes (endpoints : option (list (option pipe_properties))) : bool * Z * Z :=
  match endpoints with
  | None => (false, 0, 0)
  | Some ps => let '(i, o) := find_loop 1 ps 0 0 in (negb (i =? 0) && negb (o =? 0), i, o)
  end.
End find.

Definition zero_parser : ns6_midi_parser := {| message := [0; 0; 0]; used := 0; expected := 0 |}.

Section session.
Context `{IOKitABI, USBABI}.
Variables (cfg : ReadConfig) (diagnostic midi_input_enabled : bool).

(** [ns6_midi_stop]: the flags, then the threads are joined and the sockets closed. *)
Definition ns6_midi_stop (m : session) : session :=
  let w := thread m in
  let s := reads w in
  let w' := {| reads := set_target false 0 s; packets := packets w;
               input_read_depth := input_read_depth w;
               consecutive_recovery_failures := consecutive_recovery_failures w;
               consecutive_clear_failures := consecutive_clear_failures w;
               handshake_requested := false; slept_ms := slept_ms w; wire := wire w |} in
  if negb (running s) && negb (writer_started m) && negb (receiver_started m)
  then {| thread := w'; usb := false; input_pipe := input_pipe m; output_pipe := output_pipe m;
          audio_client_active := false; writer_started := writer_started m;
          receiver_started := receiver_started m; sockets_open := false |}
  else {| thread := w'; usb := false; input_pipe := 0; output_pipe := 0;
          audio_client_active := false; writer_started := false; receiver_started := false;
          sockets_open := false |}.

(** The state of the reads before the first submission; [running] is set last. *)
Definition fresh_reads (s : read_state) (polling : bool) : read_state :=
  {| running := true; read_target_count := ns6_midi_read_initial_count cfg true;
     input_pipe_recovery_active := false; input_polling := polling;
     read_in_flight_mask := 0; read_in_flight_minimum_count := MIDI_READ_SLOTS;
     read_in_flight_minimum_tracking := false; pending_read_recovery_mask := 0;
     pending_read_clear_mask := 0; read_slot_out_of_flight_since_ms := replicate 4 0;
     read_recovery_requested_us := read_recovery_requested_us s;
     input_error_counts := input_error_counts s; last_input_error_log_ms := 0;
     input := {| in_parser := zero_parser; in_handshake := in_handshake (input s);
                 in_datagrams := in_datagrams (input s) |};
     usb_holds := usb_holds s |}.

(** The variables [ns6_midi_start] resets before its first check can fail. *)
Definition reset_session (m : session) (polling : bool) : session :=
  let w := thread m in
  {| thread := {| reads := set_target false (ns6_midi_read_initial_count cfg true)
                             (fresh_reads (reads w) polling);
                  packets := {| queue := queue (packets w); head := 0; tail := 0 |};
                  input_read_depth := INITIAL_READ_COUNT cfg;
                  consecutive_recovery_failures := 0; consecutive_clear_failures := 0;
                  handshake_requested := false; slept_ms := slept_ms w; wire := wire w |};
     usb := true; input_pipe := 0; output_pipe := 0;
     audio_client_active := INITIAL_READ_COUNT cfg >=? NS6_MIDI_ACTIVE_READ_COUNT;
     writer_started := false; receiver_started := false; sockets_open := sockets_open m |}.

Definition without_usb (m : session) (i o : Z) : session :=
  {| thread := thread m; usb := false; input_pipe := i; output_pipe := o;
     audio_client_active := audio_client_active m; writer_started := writer_started m;
     receiver_started := receiver_started m; sockets_open := false |}.

(** The first reads of a session and the start of the minimum of reads in flight. *)
Definition start_reads (a : answers) (s : read_state) : read_state :=
  let initial_reads := ns6_midi_read_initial_count cfg true in
  let s := snd (submit_slots diagnostic a (seqZ 0 initial_reads) s) in
  let s := set_minimum (ns6_midi_in_flight_count (read_in_flight_mask s)) s in
  track_read_in_flight_minimum
    {| running := running s; read_target_count := read_target_count s;
       input_pipe_recovery_active := input_pipe_recovery_active s;
       input_polling := input_polling s; read_in_flight_mask := read_in_flight_mask s;
       read_in_flight_minimum_count := read_in_flight_minimum_count s;
       read_in_flight_minimum_tracking := true;
       pending_read_recovery_mask := pending_read_recovery_mask s;
       pending_read_clear_mask := pending_read_clear_mask s;
       read_slot_out_of_flight_since_ms := read_slot_out_of_flight_since_ms s;
       read_recovery_requested_us := read_recovery_requested_us s;
       input_error_counts := input_error_counts s;
       last_input_error_log_ms := last_input_error_log_ms s; input := input s;
       usb_holds := usb_holds s |}.

Definition ns6_midi_start (a : start_answers) (m : session) : bool * session :=
  if running (reads (thread m)) then (true, m)
  else if negb (new_usb a) || negb (run_loop a) then (false, m)
  else
    let m0 := reset_session m (input_polling (reads (thread m))) in
    let '(found, i, o) := find_pipes (endpoints a) in
    if negb found
       || (midi_input_enabled && negb (clear_input_result a =? kIOReturnSuccess))
       || negb (clear_output_result a =? kIOReturnSuccess) || negb (open_sockets a)
    then (false, without_usb m0 i o)
    else if negb (create_writer a)
    then (false, without_usb (reset_session m midi_input_enabled) i o)
    else
      let s := fresh_reads (reads (thread m)) midi_input_enabled in
      let m1 := {| thread := with_reads s (thread m0); usb := true; input_pipe := i;
                   output_pipe := o; audio_client_active := audio_client_active m0;
                   writer_started := true; receiver_started := false; sockets_open := true |} in
      if negb midi_input_enabled then (true, m1)
      else if negb (create_receiver a) then (false, ns6_midi_stop m1)
      else (true, {| thread := with_reads (start_reads (start_io a) s) (thread m1); usb := true;
                     input_pipe := i; output_pipe := o;
                     audio_client_active := audio_client_active m1; writer_started := true;
                     receiver_started := true; sockets_open := true |}).

Definition ns6_midi_set_audio_active (active : bool) (m : session) : session :=
  if negb midi_input_enabled then m
  else
    let w := thread m in
    let s := reads w in
    {| thread := with_reads (set_target (running s)
                   (ns6_midi_read_target_count cfg (running s) active) s) w;
       usb := usb m; input_pipe := input_pipe m; output_pipe := output_pipe m;
       audio_client_active := active; writer_started := writer_started m;
       receiver_started := receiver_started m; sockets_open := sockets_open m |}.

(** The exchange of the request flag: true once per request. *)
Definition ns6_midi_take_handshake_request (w : worker) : bool * worker :=
  (handshake_requested w,
   {| reads := reads w; packets := packets w; input_read_depth := input_read_depth w;
      consecutive_recovery_failures := consecutive_recovery_failures w;
      consecutive_clear_failures := consecutive_clear_failures w; handshake_requested := false;
      slept_ms := slept_ms w; wire := wire w |}).

Definition set_handshake (h : handshake) (s : read_state) : read_state :=
  set_input {| in_parser := in_parser (input s); in_handshake := h;
               in_datagrams := in_datagrams (input s) |} s.

(** The packets of the queue and the reads during the handshake: [replies] complete
    before the wait for the reply ends and [gap] during the official pause. *)
Definition ns6_midi_handshake (loop : bool) (replies gap : list completion)
    (q : write_queue) (s : read_state) : bool * write_queue * read_state :=
  if negb (running s) || negb loop then (false, q, s)
  else
    let s := set_handshake {| handshake_capture := true; handshake_reply_seen := false;
                              handshake_sysex_active := false; handshake_sysex := [] |} s in
    let q := enqueue q NS6_MIDI_HOST_IDENTIFY in
    let s := deliver diagnostic replies s in
    let received := handshake_reply_seen (in_handshake (input s)) in
    let s := deliver diagnostic gap s in
    let q := enqueue q NS6_MIDI_JOG_ENABLE in
    let q := enqueue q NS6_MIDI_WAKE in
    let h := in_handshake (input s) in
    (received, q,
     set_handshake {| handshake_capture := false; handshake_reply_seen := handshake_reply_seen h;
                      handshake_sysex_active := false; handshake_sysex := handshake_sysex h |} s).
End session.

(** ** Events of a running session *)

Inductive session_event :=
  | Round (a : answers)
  | Completed (c : completion)
  | Queued (data : list Z).

Definition event_valid (e : session_event) : Prop :=
  match e with
  | Round a => slots_valid (during_backoff a)
  | Completed c => 0 ≤ c_index c < MIDI_READ_SLOTS
  | Queued _ => True
  end.

Section events.
Context `{IOKitABI}.
Variable diagnostic : bool.
Variable in_flight_read_mask : read_state → Z.

(** [None] when the round does not come back: it stops or still drains. *)
Definition run_event (e : session_event) (w : worker) : option worker :=
  match e with
  | Round a => match worker_round diagnostic in_flight_read_mask a w with
               | Continue w' => Some w'
               | Waiting => Some w
               | Stopped _ | Draining => None
               end
  | Completed c => Some (with_reads (complete diagnostic c (reads w)) w)
  | Queued data =>
      Some {| reads := reads w; packets := enqueue (packets w) data;
              input_read_depth := input_read_depth w;
              consecutive_recovery_failures := consecutive_recovery_failures w;
              consecutive_clear_failures := consecutive_clear_failures w;
              handshake_requested := handshake_requested w; slept_ms := slept_ms w;
              wire := wire w |}
  end.

Fixpoint run_events (es : list session_event) (w : worker) : option worker :=
  match es with
  | [] => Some w
  | e :: es' => match run_event e w with Some w' => run_events es' w' | None => None end
  end.
End events.

Section theory.
Context `{IOKitABI, USBABI}.
Variable in_flight_read_mask : read_state → Z.
Hypothesis in_flight_reads : ∀ s i,
  Z.testbit (in_flight_read_mask s) i = true → Z.testbit (read_in_flight_mask s) i = true.

Lemma kept_event d e w w' :
  event_valid e → kept d w → run_event false in_flight_read_mask e w = Some w' → kept d w'.
Proof.
  intros Hv Hk. destruct e as [a|c|data]; cbn.
  - destruct (worker_round false in_flight_read_mask a w) eqn:E; [|done| |done]; intros [= <-]; [done|].
    by eapply kept_round.
  - intros [= <-]. by apply kept_complete.
  - intros [= <-]. destruct Hk. by split.
Qed.

Lemma kept_events d es w w' :
  Forall event_valid es → kept d w → run_events false in_flight_read_mask es w = Some w' →
  kept d w'.
Proof.
  intros Hv. revert w. induction Hv as [|e es He _ IH]; intros w Hk; cbn; [by intros [= <-]|].
  destruct (run_event false in_flight_read_mask e w) as [w1|] eqn:E; [|done].
  apply IH. by eapply kept_event.
Qed.

(** A session that starts with MIDI input has every initial read covered. *)
Lemma start_kept cfg a m m' :
  0 ≤ INITIAL_READ_COUNT cfg ≤ 4 → running (reads (thread m)) = false →
  ns6_midi_start cfg false true a m = (true, m') →
  kept (INITIAL_READ_COUNT cfg) (thread m').
Proof.
  intros Hc Hr. unfold ns6_midi_start. rewrite Hr.
  destruct (_ || _); [done|]. destruct (find_pipes (endpoints a)) as [[found i] o].
  destruct (_ || _); [done|]. destruct (negb (create_writer a)); [done|]. cbn [negb].
  destruct (negb (create_receiver a)); [done|]. intros [= <-].
  assert (ns6_midi_read_initial_count cfg true = INITIAL_READ_COUNT cfg) as Ei.
  { unfold ns6_midi_read_initial_count, NS6_MIDI_ACTIVE_READ_COUNT. cbn [negb].
    by replace (INITIAL_READ_COUNT cfg >? 4) with false by lia. }
  unfold start_reads. set (s0 := fresh_reads _ _ _).
  destruct (submit_slots_cover (start_io a) (seqZ 0 (ns6_midi_read_initial_count cfg true)) s0)
    as [[A1 A2 A3 A4 A5] Hcs]; [|done|done|].
  { apply list.Forall_forall. intros j Hj%elem_of_seqZ. rewrite Ei in Hj.
    unfold MIDI_READ_SLOTS, NS6_MIDI_RECOVERY_SLOTS. lia. }
  set (s1 := (submit_slots _ _ _ s0).2) in *. clearbody s1. cbn in A1, A3, A4.
  change (read_target_count s0) with (ns6_midi_read_initial_count cfg true) in A2.
  set (s2 := Build_read_state _ _ _ _ _ _ _ _ _ _ _ _ _ _ _).
  destruct (track_frame s2) as ((T1 & T2 & T3 & T4) & T5 & T6). 
  set (s3 := track_read_in_flight_minimum s2) in *. clearbody s3.
  change (running s2) with (running s1) in T1.
  change (read_target_count s2) with (read_target_count s1) in T2.
  change (input_pipe_recovery_active s2) with (input_pipe_recovery_active s1) in T3.
  change (input_polling s2) with (input_polling s1) in T4.
  change (read_in_flight_mask s2) with (read_in_flight_mask s1) in T5.
  change (pending_read_recovery_mask s2) with (pending_read_recovery_mask s1) in T6. clear s2.
  split; cbn; [by split|congruence|congruence|congruence|congruence|].
  intros _ j Hj. unfold covered. rewrite T5, T6. apply Hcs; [|].
  - apply elem_of_seqZ. rewrite Ei. lia.
  - change (read_target_count s0) with (ns6_midi_read_initial_count cfg true). rewrite Ei. apply Hj.
Qed.
End theory.

(** C33: While a session keeps the number of reads it started with, no input read
    is ever lost: after any interleaving of completions (successful or failed),
    queued packets and rounds of the writing thread, whatever IOKit answers, each of the
    initial read slots is in flight, or queued for recovery, or covered by a queued recovery
    of the whole endpoint; and the thread only sleeps when all of them are in flight. *)
Theorem no_read_is_lost `{IOKitABI, USBABI} (in_flight_read_mask : read_state → Z)
    (cfg : ReadConfig) (a : start_answers) (m m' : session) (es : list session_event) (w : worker) :
  (∀ s i, Z.testbit (in_flight_read_mask s) i = true → Z.testbit (read_in_flight_mask s) i = true) →
  0 ≤ INITIAL_READ_COUNT cfg ≤ 4 → running (reads (thread m)) = false →
  ns6_midi_start cfg false true a m = (true, m') →
  Forall event_valid es → run_events false in_flight_read_mask es (thread m') = Some w →
  (∀ i, 0 ≤ i < INITIAL_READ_COUNT cfg →
     Z.testbit (read_in_flight_mask (reads w)) i = true ∨
     Z.testbit (pending_read_recovery_mask (reads w)) i = true ∨
     Z.land (pending_read_clear_mask (reads w)) (pending_read_recovery_mask (reads w)) ≠ 0) ∧
  (∀ b, worker_round false in_flight_read_mask b w = Waiting →
     ∀ i, 0 ≤ i < INITIAL_READ_COUNT cfg → Z.testbit (read_in_flight_mask (reads w)) i = true).
Proof.
  intros Hm Hc Hr Hs Hv Hrun.
  assert (kept (INITIAL_READ_COUNT cfg) w) as Hk.
  { eapply kept_events; [exact Hm|exact Hv| |exact Hrun]. by eapply start_kept. }
  split; [|intros b Hw; by eapply kept_waiting].
  intros i Hi. destruct Hk as [_ _ _ _ Ka Kc].
  destruct (input_pipe_recovery_active (reads w)); [right; right; by apply Ka|].
  destruct (Kc eq_refl i Hi); [by left|right; by left].
Qed.

(** ** A concrete session *)

Definition example_usb : USBABI := {| kUSBIn := 1; kUSBOut := 0; kUSBBulk := 2 |}.

Definition idle_session : session :=
  {| thread := {| reads := set_target false 0 example_reads; packets := empty_queue;
                  input_read_depth := 0; consecutive_recovery_failures := 0;
                  consecutive_clear_failures := 0; handshake_requested := false; slept_ms := [];
                  wire := [] |};
     usb := false; input_pipe := 0; output_pipe := 0; audio_client_active := false;
     writer_started := false; receiver_started := false; sockets_open := false |}.

(** IOKit answers everything with success, except the aborts. *)
Definition failing_aborts : answers :=
  {| abort_result := 1; clear_result := 0; read_results := [0; 0; 0; 0]; write_result := 0;
     output_clear_result := 0; rewrite_result := 0; during_backoff := []; during_drain := [];
     time_us := 1000000 |}.

Definition example_start : start_answers :=
  {| new_usb := true; run_loop := true;
     endpoints := Some [Some {| p_direction := 1; p_number := 3; p_type := 2 |}; None;
                        Some {| p_direction := 0; p_number := 4; p_type := 2 |}];
     clear_input_result := 0; clear_output_result := 0; open_sockets := true;
     create_writer := true; create_receiver := true; start_io := failing_aborts |}.

Definition example_session : session :=
  snd (@ns6_midi_start example_iokit example_usb default_reads false true example_start idle_session).

Definition completed (i status : Z) : completion :=
  {| c_index := i; c_status := status; c_data := replicate 42 IDLE; c_result := 0; c_time := 2000000 |}.

(** A stalled slot, its recovery by the thread, whose abort fails, and a retry. *)
Definition stall_events : list session_event :=
  [Completed (completed 2 3758112847); Round failing_aborts; Completed (completed 0 0);
   Round {| abort_result := 0; clear_result := 0; read_results := [0; 0; 0; 0]; write_result := 0;
            output_clear_result := 0; rewrite_result := 0; during_backoff := [];
            during_drain := [completed 3 9; completed 1 9]; time_us := 3000000 |}].

Lemma no_read_is_lost_witness :
  ∃ w, @run_events example_iokit false read_in_flight_mask stall_events (thread example_session) = Some w ∧
    read_in_flight_mask (reads w) = 15 ∧ handshake_requested w = true ∧ slept_ms w = [50] ∧
    ∀ i, 0 ≤ i < 4 →
      Z.testbit (read_in_flight_mask (reads w)) i = true ∨
      Z.testbit (pending_read_recovery_mask (reads w)) i = true ∨
      Z.land (pending_read_clear_mask (reads w)) (pending_read_recovery_mask (reads w)) ≠ 0.
Proof.
  eexists. split; [vm_compute; reflexivity|]. split; [reflexivity|].
  split; [reflexivity|]. split; [reflexivity|].
  refine (proj1 (@no_read_is_lost example_iokit example_usb read_in_flight_mask default_reads
    example_start idle_session example_session stall_events _ _ _ _ _ _ _)).
  - intros s i Hi. exact Hi.
  - vm_compute. split; congruence.
  - reflexivity.
  - vm_compute. reflexivity.
  - repeat constructor; vm_compute; congruence.
  - vm_compute. reflexivity.
Defined.

(** C34: Switching audio off and on again can lose input reads for good.  If a read
    completes in between, its slot is neither resubmitted nor queued, and the
    writing thread, which finds the number of reads it wants unchanged, sleeps.  If
    the abort of the reads fails in between, the recovery flag stays set: every read
    that completes afterwards is dropped, until none is in flight and the thread
    still sleeps, with audio active and four reads wanted. *)
Theorem audio_toggle_loses_reads (b : answers) :
  let set_active active m :=
    ns6_midi_set_audio_active default_reads true active m in
  let complete i w := with_reads (@MidiWorker.complete example_iokit false (completed i 0) (reads w)) w in
  let round a w := @worker_round example_iokit false read_in_flight_mask a w in
  let on w := thread (set_active true {| thread := w; usb := true; input_pipe := 1; output_pipe := 3;
                audio_client_active := false; writer_started := true; receiver_started := true;
                sockets_open := true |}) in
  let w0 := thread example_session in
  let off := thread (set_active false example_session) in
  let lost := on (complete 0 off) in
  (read_in_flight_mask (reads w0) = 15 ∧ read_target_count (reads w0) = 4) ∧
  (read_target_count (reads lost) = 4 ∧ read_in_flight_mask (reads lost) = 14 ∧
   round b lost = Waiting) ∧
  (∃ w1, round failing_aborts off = Continue w1 ∧
     let dead := complete 3 (complete 2 (complete 1 (complete 0 (on w1)))) in
     read_target_count (reads dead) = 4 ∧ read_in_flight_mask (reads dead) = 0 ∧
     round b dead = Waiting).
Proof.
  cbv zeta. split; [split; vm_compute; reflexivity|].
  split; [split; [vm_compute; reflexivity|split; vm_compute; reflexivity]|].
  eexists. split; [vm_compute; reflexivity|].
  split; [vm_compute; reflexivity|]. split; vm_compute; reflexivity.
Qed.

(** ** The handshake *)

Section handshake.
Context `{IOKitABI}.

Lemma submit_input d i r t s : input (submit_read d i r t s).2 = input s.
Proof.
  unfold submit_read. destruct (negb (ns6_midi_read_should_submit _ _ _ _)); [done|].
  destruct (negb (Z.land _ _ =? 0)); [done|].
  assert (∀ s0, input (track_read_in_flight_minimum s0) = input s0) as Ht.
  { intros s0. unfold track_read_in_flight_minimum. by repeat case_match. }
  assert (∀ x y z s0, input (schedule_read_recovery d x y z s0) = input s0) as Hs
    by (intros; unfold schedule_read_recovery; by repeat case_match).
  assert (∀ x y z s0, input (log_input_error x y z s0) = input s0) as Hl
    by (intros; unfold log_input_error; by repeat case_match).
  assert (∀ x y s0, input (mark_read_slot_out_of_flight x y s0) = input s0) as Hm
    by (intros; unfold mark_read_slot_out_of_flight; by repeat case_match).
  destruct (r =? kIOReturnSuccess); cbn [snd].
  - change (input (set_times ?a ?b (set_usb_holds ?l ?x))) with (input x). by rewrite Ht.
  - rewrite Hs, Hl, Hm, Ht. change (input (set_mask ?a ?x)) with (input x). by rewrite Ht.
Qed.

(** A report that arrives while reads are wanted is published. *)
Lemma complete_publishes (c : completion) s :
  running s = true → input_pipe_recovery_active s = false →
  c_index c < read_target_count s → c_status c = kIOReturnSuccess →
  length (c_data c) = 42%nat →
  input (complete false c s) = publish_packet (input s) (c_data c) 42.
Proof.
  intros Hr Ha Hi Hc Hl. unfold complete, read_complete.
  set (s1 := track_read_in_flight_minimum _).
  assert (same_session s s1 ∧ input s1 = input s) as [(S1 & S2 & S3 & S4) S5].
  { unfold s1, track_read_in_flight_minimum, same_session. by repeat case_match. }
  clearbody s1.
  unfold ns6_midi_read_completion_should_continue, ns6_midi_read_should_submit.
  rewrite S1, S2, S3, Hr, Ha, Hc, Z.eqb_refl, Hl. apply Z.ltb_lt in Hi as ->. cbn [negb andb].
  change (if Z.of_nat 42 >? MIDI_PACKET_BYTES then MIDI_PACKET_BYTES else Z.of_nat 42) with 42.
  case_match; [rewrite submit_input|]; change (input (set_input ?i ?x)) with i; by rewrite S5.
Qed.

Definition accepted (s : read_state) (c : completion) : Prop :=
  0 ≤ c_index c < read_target_count s ∧ c_status c = kIOReturnSuccess ∧ length (c_data c) = 42%nat.

Lemma deliver_publishes (cs : list completion) s :
  running s = true → input_pipe_recovery_active s = false → input_polling s = true →
  read_target_count s ≤ 4 → Forall (accepted s) cs →
  input (deliver false cs s) = publish_all (input s) (c_data <$> cs).
Proof.
  revert s. induction cs as [|c cs IH]; intros s Hr Ha Hp Ht Hcs; [done|].
  pose proof (Forall_cons_1 _ _ _ Hcs) as [Hc Hcs']. destruct Hc as (Hi & Hst & Hl).
  destruct (complete_covers c s) as [A1 A2 A3 A4 _]; [|done..|].
  { unfold MIDI_READ_SLOTS, NS6_MIDI_RECOVERY_SLOTS. lia. }
  change (deliver false (c :: cs) s) with (deliver false cs (complete false c s)).
  assert (Forall (accepted (complete false c s)) cs) as Hacc.
  { revert Hcs'. apply Forall_impl. intros c' (? & ? & ?). split; [by rewrite A2|done]. }
  rewrite IH; [|by rewrite A1|by rewrite A3|by rewrite A4|by rewrite A2|exact Hacc].
  rewrite complete_publishes by (done || lia). cbn. by rewrite Hl.
Qed.

(** What the handshake sees of the reports. *)
Lemma publish_handshake i (r : list Z) :
  length r = 42%nat → handshake_capture (in_handshake i) = true →
  in_handshake (publish_packet i r 42) = foldl inspect_byte (in_handshake i) (take 41 r).
Proof.
  intros Hl Hc. unfold publish_packet. destruct (ns6_midi_parser_feed _ _ _ _ _) as [[n p] out].
  cbn [in_handshake]. unfold inspect_handshake_reply. by rewrite Hc.
Qed.

Lemma inspect_capture h bs :
  handshake_capture (foldl inspect_byte h bs) = handshake_capture h.
Proof.
  revert h. induction bs as [|b bs IH]; intros h; [done|]. cbn. rewrite IH.
  unfold inspect_byte. by repeat case_match.
Qed.

Lemma publish_all_handshake (rs : list (list Z)) i :
  Forall (λ r, length r = 42%nat) rs → handshake_capture (in_handshake i) = true →
  in_handshake (publish_all i rs) =
  foldl inspect_byte (in_handshake i) (concat (take 41 <$> rs)).
Proof.
  intros Hl. revert i. induction Hl as [|r rs Hr _ IH]; intros i Hc; [done|].
  cbn. rewrite Hr. change (Z.of_nat 42) with 42.
  pose proof (publish_handshake i r Hr Hc) as E. unfold publish_all in IH.
  rewrite IH by (rewrite E, inspect_capture; done). by rewrite E, foldl_app.
Qed.

Lemma inspect_payload h bs : foldl inspect_byte h bs = foldl inspect_byte h (payload bs).
Proof.
  revert h. induction bs as [|b bs IH]; intros h; [done|]. cbn [payload List.filter foldl].
  fold (payload bs). unfold not_idle at 1. destruct (b =? IDLE) eqn:E; cbn [negb foldl]; [|apply IH].
  unfold inspect_byte at 2. rewrite E. apply IH.
Qed.

(** Data bytes are collected while they fit. *)
Lemma inspect_data h bs :
  Forall (λ b, 0 ≤ b < 128) bs → handshake_sysex_active h = true →
  (length (handshake_sysex h) + length bs ≤ 64)%nat →
  foldl inspect_byte h bs = with_sysex h true (handshake_sysex h ++ bs).
Proof.
  intros Hb. revert h. induction Hb as [|b bs Hb _ IH]; intros h Ha Hl.
  { cbn. rewrite app_nil_r. destruct h. cbn in *. by subst. }
  cbn in Hl |- *. assert (inspect_byte h b = with_sysex h true (handshake_sysex h ++ [b])) as ->.
  { unfold inspect_byte, IDLE, SYSEX_BYTES. rewrite Ha.
    replace (b =? 253) with false by lia. replace (b =? 0xf0) with false by lia.
    replace (b =? 0xf7) with false by lia. cbn [negb].
    replace (Z.of_nat (length (handshake_sysex h)) <? 64) with true by lia.
    replace (Z.land b 0x80 =? 0) with true; [done|]. symmetry. apply Z.eqb_eq.
    change 0x80 with (Z.shiftl 1 7). apply Z.bits_inj'. intros n Hn.
    rewrite Z.land_spec, Z.shiftl_1_l, Z.pow2_bits_eqb, Z.bits_0 by lia.
    destruct (Z.eqb_spec 7 n) as [<-|]; [|by rewrite andb_false_r].
    rewrite andb_true_r. apply Z.bits_above_log2; [lia|].
    destruct (Z.eq_dec b 0) as [->|]; [done|]. apply Z.log2_lt_pow2; lia. }
  rewrite IH; cbn [handshake_sysex with_sysex handshake_sysex_active].
  - by rewrite <- app_assoc.
  - done.
  - rewrite length_app. cbn. lia.
Qed.

Lemma inspect_seen h bs :
  handshake_reply_seen h = true → handshake_reply_seen (foldl inspect_byte h bs) = true.
Proof.
  revert h. induction bs as [|b bs IH]; intros h Hh; [done|]. cbn. apply IH.
  unfold inspect_byte. by repeat case_match.
Qed.

(** A whole reply is recognised, whatever came before it. *)
Lemma inspect_reply h body :
  Forall (λ b, 0 ≤ b < 128) body → (length body ≤ 56)%nat →
  handshake_reply_seen (foldl inspect_byte h (reply_prefix ++ body ++ [0xf7])) = true.
Proof.
  intros Hb Hl. change reply_prefix with ([0xf0] ++ [0x00; 0x01; 0x3f; 0x00; 0x79; 0x51]).
  rewrite <- app_assoc, foldl_app. cbn [foldl]. change (inspect_byte h 240) with (with_sysex h true [0xf0]).
  rewrite app_assoc, foldl_app,
    (inspect_data (with_sysex h true [0xf0]) ([0x00; 0x01; 0x3f; 0x00; 0x79; 0x51] ++ body)).
  - cbn [handshake_sysex with_sysex foldl]. unfold inspect_byte. cbn [handshake_sysex with_sysex].
    change (0xf7 =? IDLE) with false. change (0xf7 =? 0xf0) with false.
    cbn [handshake_sysex_active with_sysex negb].
    replace (Z.of_nat _ <? SYSEX_BYTES) with true
      by (unfold SYSEX_BYTES; cbn [length app]; rewrite ?length_app; cbn [length]; lia).
    change (0xf7 =? 0xf7) with true. cbn [handshake_reply_seen].
    replace (starts_with _ _) with true; [done|]. symmetry. unfold starts_with.
    apply andb_true_iff. split; [|by apply bool_decide_eq_true].
    apply Nat.leb_le. unfold reply_prefix. cbn [length app]. rewrite ?length_app. cbn [length]. lia.
  - apply Forall_app. split; [repeat constructor; lia|exact Hb].
  - done.
  - cbn. lia.
Qed.
End handshake.

(** The handshake sends host-identify, jog-enable and wake in this order to a
    queue with room, and it reports the device's reply whenever the reports that
    arrive before the deadline contain it: a SysEx of at most 64 bytes with the
    device's prefix, split over reports in any way, with idle bytes anywhere and any
    other bytes before and after. *)
Theorem handshake_sees_reply `{IOKitABI} (replies gap : list completion) (q : write_queue)
    (ps : list (list Z)) (s : read_state) (pre body post : list Z) :
  running s = true → input_pipe_recovery_active s = false → input_polling s = true →
  read_target_count s ≤ 4 → Forall (accepted s) replies →
  payload (concat ((take 41 ∘ c_data) <$> replies)) =
    pre ++ (reply_prefix ++ body ++ [0xf7]) ++ post →
  Forall (λ b, 0 ≤ b < 128) body → (length body ≤ 56)%nat →
  queue_rel q ps → (length ps ≤ 1020)%nat →
  let '(received, q', s') := ns6_midi_handshake false true replies gap q s in
  received = true ∧
  queue_rel q' (ps ++ [packet_of NS6_MIDI_HOST_IDENTIFY; packet_of NS6_MIDI_JOG_ENABLE;
                       packet_of NS6_MIDI_WAKE]).
Proof.
  intros Hr Ha Hp Ht Hacc Hpay Hb Hl Hq Hlen. unfold ns6_midi_handshake. rewrite Hr. cbn [negb orb].
  set (h0 := Build_handshake true false false []). set (s0 := set_handshake h0 s). split.
  - rewrite deliver_publishes by (try done). rewrite publish_all_handshake by
      (first [done | apply Forall_fmap; revert Hacc; apply Forall_impl; intros c (_ & _ & ?); done]).
    change (in_handshake (input s0)) with h0.
    rewrite inspect_payload, <- list_fmap_compose, Hpay, app_assoc, foldl_app.
    apply inspect_seen. rewrite foldl_app. by apply inspect_reply.
  - assert (∀ q ps d, queue_rel q ps → (length ps ≤ 1022)%nat → (0 < length d < 42)%nat →
      queue_rel (enqueue q d) (ps ++ [packet_of d])) as Henq.
    { intros q1 ps1 d H1 H2 H3. pose proof (enqueue_refines q1 ps1 d H1) as H4. unfold fifo_push in H4.
      by replace ((0 <? length d)%nat && (length d <? 42)%nat && (length ps1 <? 1023)%nat)
        with true in H4 by lia. }
    change [packet_of NS6_MIDI_HOST_IDENTIFY; packet_of NS6_MIDI_JOG_ENABLE; packet_of NS6_MIDI_WAKE]
      with ([packet_of NS6_MIDI_HOST_IDENTIFY] ++ [packet_of NS6_MIDI_JOG_ENABLE] ++ [packet_of NS6_MIDI_WAKE]).
    rewrite !app_assoc.
    apply Henq; [apply Henq; [apply Henq; [exact Hq|lia|cbn; lia]|..]|..]; rewrite ?length_app; cbn; lia.
Qed.

(** The reply of the witness, cut in the middle by a report boundary. *)
Definition reply_reports : list completion :=
  [ {| c_index := 0; c_status := 0; c_result := 0; c_time := 0;
       c_data := replicate 37 IDLE ++ [0xf0; 0x00; 0x01; 0x3f; 0xe0] |};
    {| c_index := 3; c_status := 0; c_result := 0; c_time := 0;
       c_data := [0x00; 0x79; IDLE; 0x51; 0x05; 0xf7] ++ replicate 36 IDLE |} ].

Lemma handshake_sees_reply_witness :
  payload (concat ((take 41 ∘ c_data) <$> reply_reports)) = reply_prefix ++ [0x05] ++ [0xf7] ∧
  fst (fst (@ns6_midi_handshake example_iokit false true reply_reports [] empty_queue example_reads)) = true.
Proof.
  split; [vm_compute; reflexivity|].
  pose proof (@handshake_sees_reply example_iokit reply_reports [] empty_queue [] example_reads
    [] [0x05] []) as Hw.
  destruct (@ns6_midi_handshake example_iokit false true reply_reports [] empty_queue example_reads)
    as [[received q'] s'].
  apply Hw; [reflexivity|reflexivity|reflexivity|vm_compute; congruence| |vm_compute; reflexivity
    | |cbn; lia|exact empty_queue_rel|cbn; lia].
  - repeat constructor; vm_compute; congruence.
  - repeat constructor; lia.
Defined.
