(* ===== verification/Policies.v ===== *)
(** * Small policies and helpers of the driver

    The header-only decisions the USB worker and the HAL plug-in consult
    (NS6ActiveFlow.h, NS6AudioPrefill.h, NS6AudioTransportPolicy.h,
    NS6BufferFrameSize.h, NS6BulkINIdlePolicy.h, NS6ConnectionPolicy.h,
    NS6FeedbackReadGate.h, NS6FeedbackTelemetry.h, NS6FirmwareVersion.c,
    NS6IOClientAccounting.h, NS6SampleTimeline.h, NS6USBConfig.h,
    NS6USBEndpoint.h, NS6USBFrameTimestamps.h, NS6USBRealtime.h), with the
    arithmetic theorems they need. *)

From stdpp Require Import base list numbers tactics.
From Stdlib Require Import ZArith Lia ZifyBool.
From S2P Require Import Prelude MidiSession.

(** ** The last output callback ([NS6ActiveFlow.h]) *)

Record NS6ActiveFlow := { flow_frames : Z; flow_client_id : Z; last_callback_tick : Z }.

Record NS6ActiveFlowSnapshot := { snap_frames : Z; snap_client_id : Z }.

Definition ns6_active_flow_should_rearm (flow : NS6ActiveFlowSnapshot)
    (queued_frames minimum_queued_frames : Z) : bool :=
  (snap_frames flow =? 0) && (queued_frames >? 0) && (queued_frames <? minimum_queued_frames).

Definition ns6_active_flow_record (frames client_id tick : Z) : NS6ActiveFlow :=
  {| flow_frames := frames; flow_client_id := client_id; last_callback_tick := tick |}.

Definition ns6_active_flow_clear : NS6ActiveFlow :=
  {| flow_frames := 0; flow_client_id := 0; last_callback_tick := 0 |}.

Definition ns6_active_flow_snapshot (flow : NS6ActiveFlow) (now max_age_ticks : Z)
    : NS6ActiveFlowSnapshot :=
  let last := last_callback_tick flow in
  if negb (last =? 0) && (now >=? last) && (now - last <? max_age_ticks)
  then {| snap_frames := flow_frames flow; snap_client_id := flow_client_id flow |}
  else {| snap_frames := 0; snap_client_id := 0 |}.

(** ** Decisions *)

Definition ns6_audio_startup_prefill_frames (configured_frames minimum_frames queue_target_frames : Z)
    : Z :=
  let threshold := configured_frames in
  let threshold := if threshold <? minimum_frames then minimum_frames else threshold in
  if threshold <? queue_target_frames then queue_target_frames else threshold.

Inductive NS6AudioTransportAction := NS6_AUDIO_TRANSPORT_KEEP | NS6_AUDIO_TRANSPORT_START.

Definition ns6_audio_transport_action (transport_open : bool) (active_clients : Z)
    : NS6AudioTransportAction :=
  if negb (active_clients =? 0) && negb transport_open
  then NS6_AUDIO_TRANSPORT_START else NS6_AUDIO_TRANSPORT_KEEP.

Definition ns6_buffer_frame_size_request_valid (frames minimum maximum : Z) : bool :=
  negb (frames =? 0) && negb (minimum =? 0) && (minimum <=? maximum) &&
  (frames >=? minimum) && (frames <=? maximum).

(** [keep_idle] is [NS6_KEEP_WAVEFORM_DRAIN_IDLE]. *)
Definition ns6_bulk_in_reads_should_run (keep_idle midi_session_active capture_requested : bool)
    : bool :=
  keep_idle || negb midi_session_active || capture_requested.

Definition ns6_connection_should_defer_disconnect (physically_connected : bool)
    (active_clients : Z) : bool :=
  negb physically_connected && (active_clients >? 0).

Definition ns6_feedback_read_should_submit (running in_flight : bool) : bool :=
  running && negb in_flight.

Definition ns6_feedback_elapsed_ms (now_ms since_ms : Z) : option Z :=
  if (since_ms =? 0) || (now_ms <? since_ms) then None else Some (now_ms - since_ms).

Definition ns6_is_waveform_endpoint `{USBABI} (direction number type : Z) : bool :=
  (direction =? kUSBIn) && (number =? 6) && (type =? kUSBBulk).

Definition ns6_should_run_waveform_drain (midi_session_active capture_requested : bool) : bool :=
  negb midi_session_active || capture_requested.

(** [NS6_MIDI_ENABLED], [NS6_FEEDBACK_READER_ENABLED], [NS6_USB_OUTPUT_SLOT_COUNT]. *)
Record USBConfig := {
  MIDI_ENABLED : Z;
  FEEDBACK_READER_ENABLED : Z;
  OUTPUT_SLOT_COUNT : Z
}.

Definition default_usb : USBConfig :=
  {| MIDI_ENABLED := 1; FEEDBACK_READER_ENABLED := 1; OUTPUT_SLOT_COUNT := 8 |}.

Definition ns6_usb_midi_input_enabled (cfg : USBConfig) : bool := negb (MIDI_ENABLED cfg =? 0).
Definition ns6_usb_feedback_reader_enabled (cfg : USBConfig) : bool :=
  negb (FEEDBACK_READER_ENABLED cfg =? 0).
Definition ns6_usb_output_slot_count (cfg : USBConfig) : Z := OUTPUT_SLOT_COUNT cfg.

(** ** Firmware version ([NS6FirmwareVersion.c])

    Texts are lists of character codes without the terminating zero. *)

(** [%u] for a number below 1000. *)
Definition decimal (n : Z) : list Z :=
  if n <? 10 then [48 + n]
  else if n <? 100 then [48 + n / 10; 48 + n mod 10]
  else [48 + n / 100; 48 + n / 10 mod 10; 48 + n mod 10].

(** ["%u.%u.%u (K1)"] *)
Definition version_text (major minor patch : Z) : list Z :=
  decimal major ++ [46] ++ decimal minor ++ [46] ++ decimal patch ++ [32; 40; 75; 49; 41].

(** The result and the text left in the output. *)
Definition ns6_firmware_version_decode (response : option (list Z)) (length_ : Z)
    : bool * list Z :=
  match response with
  | None => (false, [])
  | Some r =>
      if (length_ <? 3) || (length_ >? 8) || negb (rd r 0 =? 0x31) || (rd r 1 =? 0) ||
         (rd r 2 >? 99) then (false, [])
      else
        let text := version_text (rd r 1) (rd r 2 / 10) (rd r 2 mod 10) in
        if Z.of_nat (length text) >=? 32 then (false, []) else (true, text)
  end.

(** ** Client accounting ([NS6IOClientAccounting.h]); counters are [unsigned]. *)

Definition ns6_io_client_needs_service_activation (active_starts : Z) : bool := active_starts =? 0.

(** The client's starts and the active starts. *)
Definition ns6_io_client_account_start (client_starts active_starts : Z) : Z * Z :=
  (client_starts +₃₂ 1, active_starts +₃₂ 1).

Definition ns6_io_client_account_untracked_start (untracked_starts active_starts : Z) : Z * Z :=
  (untracked_starts +₃₂ 1, active_starts +₃₂ 1).

(** The starts removed, then the two counters. *)
Definition ns6_io_client_account_remove (client_starts active_starts : Z) : Z * Z * Z :=
  let removed := client_starts in
  (removed, 0, if active_starts >=? removed then active_starts - removed else 0).

(** Whether the stop matched a start, then the three counters; [client_starts] is
    [None] for a client that is not tracked. *)
Definition ns6_io_client_account_stop (client_starts : option Z) (untracked_starts active_starts : Z)
    : bool * option Z * Z * Z :=
  if active_starts =? 0 then (false, client_starts, untracked_starts, active_starts)
  else
    match client_starts with
    | Some c =>
        if negb (c =? 0) then (true, Some (c - 1), untracked_starts, active_starts - 1)
        else if negb (untracked_starts =? 0)
        then (true, Some c, untracked_starts - 1, active_starts - 1)
        else (false, Some c, untracked_starts, active_starts)
    | None =>
        if negb (untracked_starts =? 0)
        then (true, None, untracked_starts - 1, active_starts - 1)
        else (false, None, untracked_starts, active_starts)
    end.

(** ** Timelines *)

Definition ns6_sample_time_from_nanos (nanoseconds sample_rate : Z) : option Z :=
  if sample_rate =? 0 then None
  else
    let nanos_per_second := 1000000000 in
    let seconds := nanoseconds / nanos_per_second in
    let remainder := nanoseconds mod nanos_per_second in
    let fractional_frames := (remainder *₆₄ sample_rate) / nanos_per_second in
    if seconds >? (UINT64_MAX - fractional_frames) / sample_rate then None
    else Some (seconds *₆₄ sample_rate +₆₄ fractional_frames).

(** Ticks of a duration, rounded up, computed in 128 bits. *)
Definition ns6_usb_realtime_duration_ticks (duration_ns numer denom : Z) : Z :=
  if (numer =? 0) || (denom =? 0) then 0
  else
    let ticks := (duration_ns * denom + numer - 1) / numer in
    if ticks >? UINT64_MAX then UINT64_MAX else ticks.

Definition ns6_usb_realtime_deadline (start duration_ticks : Z) : Z :=
  if duration_ticks >? UINT64_MAX - start then UINT64_MAX else start + duration_ticks.

(** ** Timestamps of isochronous frames *)

(** The fields of an [IOUSBLowLatencyIsocFrame] the driver uses. *)
Record isoc_frame := {
  frReqCount : Z;
  frActCount : Z;
  frStatus : Z;
  frTimeStamp_hi : Z;
  frTimeStamp_lo : Z
}.

#[export] Instance isoc_frame_inhabited : Inhabited isoc_frame := populate (Build_isoc_frame 0 0 0 0 0).

Record NS6USBFrameTimestampRange := { valid_frames : Z; oldest_ticks : Z; newest_ticks : Z }.

Definition ns6_usb_frame_timestamp_callback_lag_ticks (range : NS6USBFrameTimestampRange)
    (callback_ticks : Z) : option Z :=
  if (valid_frames range =? 0) || (callback_ticks <? newest_ticks range) then None
  else Some (callback_ticks - newest_ticks range).

Definition frame_timestamp (f : isoc_frame) : Z :=
  Z.lor (Z.shiftl (frTimeStamp_hi f) 32) (frTimeStamp_lo f).

Definition extend_range (range : NS6USBFrameTimestampRange) (f : isoc_frame)
    : NS6USBFrameTimestampRange :=
  let timestamp := frame_timestamp f in
  if timestamp =? 0 then range
  else
    {| valid_frames := valid_frames range +₃₂ 1;
       oldest_ticks := if (valid_frames range =? 0) || (timestamp <? oldest_ticks range)
                       then timestamp else oldest_ticks range;
       newest_ticks := if (valid_frames range =? 0) || (timestamp >? newest_ticks range)
                       then timestamp else newest_ticks range |}.

Definition ns6_usb_frame_timestamp_range (frames : option (list isoc_frame))
    : NS6USBFrameTimestampRange :=
  let range := {| valid_frames := 0; oldest_ticks := 0; newest_ticks := 0 |} in
  match frames with None => range | Some fs => foldl extend_range range fs end.

(** ** Facts *)

(** The nanosecond clock is turned into a sample position without intermediate
    overflow: for every 64-bit time and 32-bit rate the result is exactly the whole
    number of samples that fit, and the conversion is refused exactly when the rate is
    zero or that number does not fit 64 bits. *)
Theorem sample_time_is_exact (nanoseconds sample_rate : Z) :
  is_u64 nanoseconds → is_u32 sample_rate →
  ns6_sample_time_from_nanos nanoseconds sample_rate =
    if (sample_rate =? 0) || (nanoseconds * sample_rate / 1000000000 >? UINT64_MAX) then None
    else Some (nanoseconds * sample_rate / 1000000000).
Proof.
  unfold is_u64, is_u32. intros Hn Hr. unfold ns6_sample_time_from_nanos.
  destruct (Z.eqb_spec sample_rate 0) as [|Hz]; [done|]. cbn [orb].
  set (s := nanoseconds / 1000000000). set (r := nanoseconds mod 1000000000).
  assert (nanoseconds = 1000000000 * s + r ∧ 0 ≤ r < 1000000000 ∧ 0 ≤ s) as (En & Hr1 & Hs).
  { subst s r. Z.div_mod_to_equations. lia. }
  assert (0 ≤ r * sample_rate < 18446744073709551616) as Hm by nia.
  rewrite (u64_id (r * sample_rate)) by exact Hm.
  set (f := r * sample_rate / 1000000000).
  assert (nanoseconds * sample_rate / 1000000000 = s * sample_rate + f) as ->.
  { subst f. rewrite En, Z.mul_add_distr_r, Z.add_comm.
    replace (1000000000 * s * sample_rate) with (s * sample_rate * 1000000000) by ring.
    rewrite Z.div_add by lia. lia. }
  assert (0 ≤ f < 4294967296) as Hf.
  { subst f. split; [apply Z.div_pos; lia|apply Z.div_lt_upper_bound; nia]. }
  unfold UINT64_MAX in *.
  assert ((s >? (18446744073709551615 - f) / sample_rate) =
          (s * sample_rate + f >? 18446744073709551615)) as ->.
  { assert (s ≤ (18446744073709551615 - f) / sample_rate ↔ s * sample_rate ≤ 18446744073709551615 - f).
    { split; intros H1; [|apply Z.div_le_lower_bound; nia].
      pose proof (Z.mul_div_le (18446744073709551615 - f) sample_rate ltac:(lia)). nia. }
    destruct (Z.gtb_spec s ((18446744073709551615 - f) / sample_rate)),
      (Z.gtb_spec (s * sample_rate + f) 18446744073709551615); lia. }
  destruct (Z.gtb_spec (s * sample_rate + f) 18446744073709551615); [done|]. f_equal.
  assert (0 ≤ s * sample_rate) by nia.
  rewrite (u64_id (s * sample_rate)) by (unfold is_u64; lia). apply u64_id. unfold is_u64. lia.
Qed.

Lemma sample_time_is_exact_witness :
  ns6_sample_time_from_nanos 86400000000001 44100 = Some 3810240000 ∧
  ns6_sample_time_from_nanos UINT64_MAX UINT32_MAX = None.
Proof.
  split.
  - rewrite (sample_time_is_exact 86400000000001 44100); [reflexivity| |];
      vm_compute; split; congruence.
  - rewrite (sample_time_is_exact UINT64_MAX UINT32_MAX); [reflexivity| |];
      vm_compute; split; congruence.
Defined.

(** ** The work interval of the realtime thread ([NS6USBRealtime.h]) *)

(** [interval] says whether the handle is there. *)
Record NS6USBRealtimeInterval := { interval : bool; joined : bool; interval_active : bool }.

Inductive interval_call := Created | Joined | Left | Released | Started | Finished.

#[export] Instance interval_call_eq_dec : EqDecision interval_call.
Proof. solve_decision. Defined.

Definition no_interval : NS6USBRealtimeInterval :=
  {| interval := false; joined := false; interval_active := false |}.

(** Each operation gives its result, the state and the calls made; the arguments are what the
    system answers. *)
Definition ns6_usb_realtime_interval_init (created : bool) (join_result : Z)
    : bool * NS6USBRealtimeInterval * list interval_call :=
  if negb created then (false, no_interval, [])
  else if negb (join_result =? 0) then (false, no_interval, [Created; Released])
  else (true, {| interval := true; joined := true; interval_active := false |}, [Created; Joined]).

Definition ns6_usb_realtime_interval_begin (start_result start deadline : Z)
    (s : NS6USBRealtimeInterval) : Z * NS6USBRealtimeInterval * list interval_call :=
  if negb (interval s) || negb (joined s) || interval_active s || (deadline <=? start)
  then (-1, s, [])
  else if start_result =? 0
  then (start_result, {| interval := interval s; joined := joined s; interval_active := true |}, [Started])
  else (start_result, s, []).

Definition ns6_usb_realtime_interval_finish (finish_result : Z) (s : NS6USBRealtimeInterval)
    : Z * NS6USBRealtimeInterval * list interval_call :=
  if negb (interval s) || negb (joined s) || negb (interval_active s) then (-1, s, [])
  else (finish_result, {| interval := interval s; joined := joined s; interval_active := false |}, [Finished]).

Definition ns6_usb_realtime_interval_destroy (finish_result : Z) (s : NS6USBRealtimeInterval)
    : NS6USBRealtimeInterval * list interval_call :=
  let '(_, s, calls) := if interval_active s then ns6_usb_realtime_interval_finish finish_result s
                        else (0, s, []) in
  (no_interval, calls ++ (if joined s && interval s then [Left] else []) ++
                (if interval s then [Released] else [])).

Inductive interval_op := Begin (result start deadline : Z) | Finish (result : Z).

Definition interval_step (st : NS6USBRealtimeInterval * list interval_call) (o : interval_op)
    : NS6USBRealtimeInterval * list interval_call :=
  let '(_, s, calls) := match o with
                        | Begin r start deadline => ns6_usb_realtime_interval_begin r start deadline st.1
                        | Finish r => ns6_usb_realtime_interval_finish r st.1
                        end in
  (s, st.2 ++ calls).

Definition count_calls (c : interval_call) (calls : list interval_call) : Z :=
  Z.of_nat (length (filter (λ d, d = c) calls)).

Definition interval_life (created : bool) (join_result finish_result : Z) (ops : list interval_op)
    : list interval_call :=
  let '(_, s, calls) := ns6_usb_realtime_interval_init created join_result in
  let '(s, calls) := foldl interval_step (s, calls) ops in
  calls ++ (ns6_usb_realtime_interval_destroy finish_result s).2.

Lemma count_calls_app c l k : count_calls c (l ++ k) = count_calls c l + count_calls c k.
Proof. unfold count_calls. rewrite list.filter_app, length_app. lia. Qed.

Lemma count_calls_cons c d e l : count_calls c (d :: e :: l) = count_calls c [d] + count_calls c (e :: l).
Proof. apply (count_calls_app c [d]). Qed.

(** Counts in a list that is written out. *)
Ltac count_few :=
  repeat match goal with
  | |- context [count_calls ?c []] => change (count_calls c []) with 0
  | |- context [count_calls ?c [?d]] =>
      let n := eval vm_compute in (count_calls c [d]) in change (count_calls c [d]) with n
  end; cbn.

(** The calls so far match the state. *)
Definition interval_rel (s : NS6USBRealtimeInterval) (calls : list interval_call) : Prop :=
  count_calls Created calls = count_calls Released calls + Z.b2z (interval s) ∧
  count_calls Joined calls = count_calls Left calls + Z.b2z (joined s) ∧
  count_calls Started calls = count_calls Finished calls + Z.b2z (interval_active s) ∧
  joined s = interval s ∧ (interval_active s = true → joined s = true).

Lemma interval_step_rel o s calls :
  interval_rel s calls → interval_rel (interval_step (s, calls) o).1 (interval_step (s, calls) o).2.
Proof.
  unfold interval_rel, interval_step.
  destruct o as [r start deadline|r]; cbn [fst snd]; unfold ns6_usb_realtime_interval_begin,
    ns6_usb_realtime_interval_finish; destruct s as [[] [] []]; cbn; intros (? & ? & ? & ? & ?);
    try discriminate; try (destruct (deadline <=? start)); try (destruct (r =? 0)); cbn;
    rewrite ?count_calls_app; count_few; repeat split; try done; lia.
Qed.

(** Whatever is begun and finished in between, destroying an interval balances its life: a
    created interval is released, a joined one left and a started one finished, each once. *)
Theorem interval_life_balances created join_result finish_result ops :
  let calls := interval_life created join_result finish_result ops in
  count_calls Created calls = count_calls Released calls ∧
  count_calls Joined calls = count_calls Left calls ∧
  count_calls Started calls = count_calls Finished calls.
Proof.
  cbv zeta. unfold interval_life.
  assert (let '(_, s, calls) := ns6_usb_realtime_interval_init created join_result in
          interval_rel s calls) as Hi.
  { unfold ns6_usb_realtime_interval_init. destruct (negb created); [by repeat split|].
    destruct (negb _); by repeat split. }
  destruct (ns6_usb_realtime_interval_init created join_result) as [[ok s] calls]. clear ok.
  revert s calls Hi. induction ops as [|o ops IH]; intros s calls Hi; cbn [foldl].
  - unfold interval_rel in Hi. unfold ns6_usb_realtime_interval_destroy, ns6_usb_realtime_interval_finish.
    destruct s as [[] [] []]; cbn in *; rewrite !count_calls_app, ?count_calls_cons; count_few; destruct Hi as (? & ? & ? & ? & Hc);
      try discriminate; try (specialize (Hc eq_refl)); try discriminate; lia.
  - pose proof (interval_step_rel o s calls Hi) as H. destruct (interval_step (s, calls) o) as [s' calls'].
    by apply IH.
Qed.
