(* ===== verification/Timing.v ===== *)
(** * Statistics of callbacks (NS6USBTiming.c, NS6IOMetrics.c)

    Counters of intervals and durations, taken and cleared by a periodic log.
    Every counter is an atomic of its own; the functions are modelled as they act
    alone, and [update_min]/[update_max] are the fixed points of their
    compare-and-swap loops. *)

From stdpp Require Import base list numbers tactics.
From Stdlib Require Import ZArith Lia ZifyBool.
From S2P Require Import Prelude.

(** ** Intervals of USB callbacks *)

Record NS6USBTiming := {
  last_ns : Z;
  intervals : Z;
  total_ns : Z;
  min_ns : Z;
  max_ns : Z
}.

Record NS6USBTimingSnapshot := {
  snap_intervals : Z;
  snap_total_ns : Z;
  snap_min_ns : Z;
  snap_max_ns : Z
}.

Definition ns6_usb_timing_init : NS6USBTiming :=
  {| last_ns := 0; intervals := 0; total_ns := 0; min_ns := UINT64_MAX; max_ns := 0 |}.

Definition update_min (value candidate : Z) : Z := if candidate <? value then candidate else value.
Definition update_max (value candidate : Z) : Z := if candidate >? value then candidate else value.

Definition add_interval (t : NS6USBTiming) (last interval : Z) : NS6USBTiming :=
  {| last_ns := last; intervals := intervals t +₆₄ 1; total_ns := total_ns t +₆₄ interval;
     min_ns := update_min (min_ns t) interval; max_ns := update_max (max_ns t) interval |}.

Definition ns6_usb_timing_record (t : NS6USBTiming) (timestamp_ns : Z) : NS6USBTiming :=
  if timestamp_ns =? 0 then t
  else
    let previous := last_ns t in
    if (previous =? 0) || (timestamp_ns <=? previous)
    then {| last_ns := timestamp_ns; intervals := intervals t; total_ns := total_ns t;
            min_ns := min_ns t; max_ns := max_ns t |}
    else add_interval t timestamp_ns (timestamp_ns - previous).

Definition ns6_usb_timing_record_duration (t : NS6USBTiming) (duration_ns : Z) : NS6USBTiming :=
  add_interval t (last_ns t) duration_ns.

Definition ns6_usb_timing_take_snapshot (t : NS6USBTiming)
    : bool * NS6USBTimingSnapshot * NS6USBTiming :=
  (negb (intervals t =? 0),
   {| snap_intervals := intervals t; snap_total_ns := total_ns t; snap_min_ns := min_ns t;
      snap_max_ns := max_ns t |},
   {| last_ns := last_ns t; intervals := 0; total_ns := 0; min_ns := UINT64_MAX; max_ns := 0 |}).

Definition ns6_usb_timing_is_callback_gap (interval_ns : Z) : bool := interval_ns >=? 20000000.
Definition ns6_usb_timing_is_slow_submit (duration_ns : Z) : bool := duration_ns >=? 5000000.

(** ** What a snapshot reports *)

Inductive timing_event :=
  | Timestamp (ns : Z)
  | Duration (ns : Z)
  | Snapshot.

Definition event_ok (e : timing_event) : Prop :=
  match e with Timestamp n | Duration n => is_u64 n | Snapshot => True end.

Definition timing_step (st : NS6USBTiming * list NS6USBTimingSnapshot) (e : timing_event)
    : NS6USBTiming * list NS6USBTimingSnapshot :=
  match e with
  | Timestamp n => (ns6_usb_timing_record (fst st) n, snd st)
  | Duration n => (ns6_usb_timing_record_duration (fst st) n, snd st)
  | Snapshot => let '(_, snap, t) := ns6_usb_timing_take_snapshot (fst st) in (t, snd st ++ [snap])
  end.

(** The specification: the durations since the last snapshot, the last timestamp
    and the durations of each snapshot. *)
Record timing_log := { pending : list Z; previous_ns : Z; taken : list (list Z) }.

Definition log_step (l : timing_log) (e : timing_event) : timing_log :=
  match e with
  | Timestamp n =>
      if n =? 0 then l
      else if (previous_ns l =? 0) || (n <=? previous_ns l)
      then {| pending := pending l; previous_ns := n; taken := taken l |}
      else {| pending := pending l ++ [n - previous_ns l]; previous_ns := n; taken := taken l |}
  | Duration n => {| pending := pending l ++ [n]; previous_ns := previous_ns l; taken := taken l |}
  | Snapshot => {| pending := []; previous_ns := previous_ns l; taken := taken l ++ [pending l] |}
  end.

Definition sum (l : list Z) : Z := foldr Z.add 0 l.

(** Count, sum, minimum and maximum of a list of durations. *)
Definition summary (ds : list Z) : NS6USBTimingSnapshot :=
  {| snap_intervals := u64 (Z.of_nat (length ds)); snap_total_ns := u64 (sum ds);
     snap_min_ns := foldr Z.min UINT64_MAX ds; snap_max_ns := foldr Z.max 0 ds |}.

Lemma foldr_snoc {A} (f : A → A → A) (e : A) (l : list A) x :
  (∀ a b c, f a (f b c) = f (f a b) c) → (∀ a b, f a b = f b a) →
  foldr f e (l ++ [x]) = f (foldr f e l) x.
Proof.
  intros Ha Hc. induction l as [|y l IH]; [apply Hc|]. cbn. by rewrite IH, Ha.
Qed.

Lemma sum_snoc l x : sum (l ++ [x]) = sum l + x.
Proof. apply foldr_snoc; intros; lia. Qed.

Lemma summary_snoc ds n :
  summary (ds ++ [n]) =
  {| snap_intervals := snap_intervals (summary ds) +₆₄ 1;
     snap_total_ns := snap_total_ns (summary ds) +₆₄ n;
     snap_min_ns := update_min (snap_min_ns (summary ds)) n;
     snap_max_ns := update_max (snap_max_ns (summary ds)) n |}.
Proof.
  unfold summary. cbn [snap_intervals snap_total_ns snap_min_ns snap_max_ns]. f_equal.
  - rewrite length_app. cbn. unfold u64. rewrite Zplus_mod_idemp_l. f_equal. lia.
  - rewrite sum_snoc. unfold u64. by rewrite Zplus_mod_idemp_l.
  - rewrite foldr_snoc by (intros; lia). unfold update_min. by destruct (Z.ltb_spec n (foldr Z.min UINT64_MAX ds)); lia.
  - rewrite foldr_snoc by (intros; lia). unfold update_max. by destruct (Z.gtb_spec n (foldr Z.max 0 ds)); lia.
Qed.

Definition timing_rel (t : NS6USBTiming) (l : timing_log) : Prop :=
  last_ns t = previous_ns l ∧
  {| snap_intervals := intervals t; snap_total_ns := total_ns t; snap_min_ns := min_ns t;
     snap_max_ns := max_ns t |} = summary (pending l).

Lemma add_interval_rel t l last n :
  timing_rel t l →
  timing_rel (add_interval t last n)
    {| pending := pending l ++ [n]; previous_ns := last; taken := taken l |}.
Proof.
  intros [H1 H2]. split; [done|]. cbn [pending]. rewrite summary_snoc, <- H2. done.
Qed.

Lemma timing_step_rel t l snaps e :
  timing_rel t l → snaps = summary <$> taken l →
  let '(t', snaps') := timing_step (t, snaps) e in
  timing_rel t' (log_step l e) ∧ snaps' = summary <$> taken (log_step l e).
Proof.
  intros Hr Hs. pose proof Hr as [Hl Hp]. destruct e as [n|n|]; cbn.
  - unfold ns6_usb_timing_record. rewrite Hl.
    destruct (n =? 0); [done|]. destruct (_ || _); [done|]. split; [|done]. by apply add_interval_rel.
  - split; [|done]. rewrite <- Hl. by apply add_interval_rel.
  - split; [by split|]. rewrite fmap_app, Hs. cbn. by rewrite <- Hp.
Qed.

(** Each snapshot of the USB timing reports exactly the callbacks since the
    previous one: for any sequence of timestamps, durations and snapshots the
    snapshots are the count, sum (modulo 2^64), minimum and maximum of the durations
    recorded in between, where a timestamp records the time since the previous one
    when the clock moved forward. *)
Theorem snapshots_partition_durations (es : list timing_event) :
  snd (foldl timing_step (ns6_usb_timing_init, []) es) =
  summary <$> taken (foldl log_step {| pending := []; previous_ns := 0; taken := [] |} es).
Proof.
  assert (∀ t snaps l, timing_rel t l → snaps = summary <$> taken l →
    snd (foldl timing_step (t, snaps) es) = summary <$> taken (foldl log_step l es)) as H.
  { induction es as [|e es IH]; intros t snaps l Hr Hs; [done|]. cbn [foldl].
    pose proof (timing_step_rel t l snaps e Hr Hs) as Hstep.
    destruct (timing_step (t, snaps) e) as [t' snaps']. destruct Hstep. by apply IH. }
  apply H; [|done]. by split.
Qed.

(** ** Metrics of CoreAudio clients *)

Definition NS6_IO_METRICS_MAX_CLIENTS : Z := 32.

Record NS6IOClientMetrics := {
  client_key : Z;
  calls : Z;
  frames : Z;
  last_cycle : Z;
  last_output_sample_time : Z;
  last_output_frames : Z;
  output_sample_time_valid : bool;
  duplicate_cycles : Z;
  skipped_cycles : Z;
  last_callback_start_ns : Z;
  interval_count : Z;
  interval_total_ns : Z;
  max_interval_ns : Z;
  max_callback_ns : Z;
  deadline_misses : Z
}.

Definition zero_metrics : NS6IOClientMetrics :=
  Build_NS6IOClientMetrics 0 0 0 0 0 0 false 0 0 0 0 0 0 0 0.

#[export] Instance metrics_inhabited : Inhabited NS6IOClientMetrics := populate zero_metrics.

Definition ns6_io_metrics_init : list NS6IOClientMetrics :=
  replicate (Z.to_nat NS6_IO_METRICS_MAX_CLIENTS) zero_metrics.

Definition set_key (k : Z) (m : NS6IOClientMetrics) : NS6IOClientMetrics :=
  Build_NS6IOClientMetrics k (calls m) (frames m) (last_cycle m) (last_output_sample_time m)
    (last_output_frames m) (output_sample_time_valid m) (duplicate_cycles m) (skipped_cycles m)
    (last_callback_start_ns m) (interval_count m) (interval_total_ns m) (max_interval_ns m)
    (max_callback_ns m) (deadline_misses m).

(** [client_slot] and an update of the slot found: the first slot of the client or
    the first free one, which it claims; [None] when there is neither. *)
Fixpoint update_slot (key : Z) (f : NS6IOClientMetrics → NS6IOClientMetrics)
    (ms : list NS6IOClientMetrics) : option (list NS6IOClientMetrics) :=
  match ms with
  | [] => None
  | m :: ms' =>
      if client_key m =? key then Some (f m :: ms')
      else if client_key m =? 0 then Some (f (set_key key m) :: ms')
      else match update_slot key f ms' with Some r => Some (m :: r) | None => None end
  end.

Definition client_slot (ms : list NS6IOClientMetrics) (client_id : Z)
    (f : NS6IOClientMetrics → NS6IOClientMetrics) : list NS6IOClientMetrics :=
  default ms (update_slot (client_id + 1) f ms).

(** The cycle counters of a call. *)
Definition count_call (call_frames cycle : Z) (m : NS6IOClientMetrics) : NS6IOClientMetrics :=
  let previous := last_cycle m in
  Build_NS6IOClientMetrics (client_key m) (calls m +₆₄ 1) (frames m +₆₄ call_frames) cycle
    (last_output_sample_time m) (last_output_frames m) (output_sample_time_valid m)
    (if negb (cycle =? 0) && (previous =? cycle) then duplicate_cycles m +₆₄ 1
     else duplicate_cycles m)
    (if negb (cycle =? 0) && negb (previous =? 0) && (cycle >? previous +₆₄ 1) &&
        (cycle -₆₄ previous <? 1024)
     then skipped_cycles m +₆₄ (cycle -₆₄ previous -₆₄ 1) else skipped_cycles m)
    (last_callback_start_ns m) (interval_count m) (interval_total_ns m) (max_interval_ns m)
    (max_callback_ns m) (deadline_misses m).

(** The interval and deadline counters of a timed call. *)
Definition count_times (start_ns callback_ns deadline_ns : Z) (m : NS6IOClientMetrics)
    : NS6IOClientMetrics :=
  let previous := last_callback_start_ns m in
  let forward := negb (start_ns =? 0) && negb (previous =? 0) && (start_ns >? previous) in
  Build_NS6IOClientMetrics (client_key m) (calls m) (frames m) (last_cycle m)
    (last_output_sample_time m) (last_output_frames m) (output_sample_time_valid m)
    (duplicate_cycles m) (skipped_cycles m) start_ns
    (if forward then interval_count m +₆₄ 1 else interval_count m)
    (if forward then interval_total_ns m +₆₄ (start_ns - previous) else interval_total_ns m)
    (if forward then update_max (max_interval_ns m) (start_ns - previous) else max_interval_ns m)
    (update_max (max_callback_ns m) callback_ns)
    (if negb (deadline_ns =? 0) && (callback_ns >? deadline_ns) then deadline_misses m +₆₄ 1
     else deadline_misses m).

Definition set_output (sample_time call_frames : Z) (valid : bool) (m : NS6IOClientMetrics)
    : NS6IOClientMetrics :=
  Build_NS6IOClientMetrics (client_key m) (calls m) (frames m) (last_cycle m) sample_time
    call_frames valid (duplicate_cycles m) (skipped_cycles m) (last_callback_start_ns m)
    (interval_count m) (interval_total_ns m) (max_interval_ns m) (max_callback_ns m)
    (deadline_misses m).

Definition ns6_io_metrics_record (ms : list NS6IOClientMetrics) (client_id call_frames cycle : Z)
    : list NS6IOClientMetrics :=
  client_slot ms client_id (count_call call_frames cycle).

Definition ns6_io_metrics_record_timed (ms : list NS6IOClientMetrics)
    (client_id call_frames cycle start_ns callback_ns deadline_ns : Z) : list NS6IOClientMetrics :=
  client_slot ms client_id
    (λ m, count_times start_ns callback_ns deadline_ns (count_call call_frames cycle m)).

Definition ns6_io_metrics_record_output_timed (ms : list NS6IOClientMetrics)
    (client_id call_frames cycle output_sample_time : Z) (valid : bool)
    (start_ns callback_ns deadline_ns : Z) : list NS6IOClientMetrics :=
  client_slot
    (ns6_io_metrics_record_timed ms client_id call_frames cycle start_ns callback_ns deadline_ns)
    client_id (set_output output_sample_time call_frames valid).

Record NS6IOMetricsSnapshot := {
  ms_client_id : Z;
  ms_metrics : NS6IOClientMetrics
}.

Definition clear_window (m : NS6IOClientMetrics) : NS6IOClientMetrics :=
  Build_NS6IOClientMetrics (client_key m) 0 0 (last_cycle m) (last_output_sample_time m)
    (last_output_frames m) (output_sample_time_valid m) 0 0 (last_callback_start_ns m) 0 0 0 0 0.

(** The snapshots taken, at most [capacity], and the metrics left. *)
Fixpoint ns6_io_metrics_take_snapshot (ms : list NS6IOClientMetrics) (capacity : nat)
    : list NS6IOMetricsSnapshot * list NS6IOClientMetrics :=
  match ms, capacity with
  | [], _ => ([], [])
  | _, O => ([], ms)
  | m :: ms', S capacity' =>
      if client_key m =? 0 then
        let r := ns6_io_metrics_take_snapshot ms' capacity in (fst r, m :: snd r)
      else
        let r := ns6_io_metrics_take_snapshot ms' capacity' in
        ({| ms_client_id := u32 (client_key m - 1); ms_metrics := m |} :: fst r,
         clear_window m :: snd r)
  end.
