(* ===== verification/Rounding.v ===== *)
(** * Bounds on rounded sums

    The resampler accumulates its phase in a [double].  This file shows that
    rounding never carries a sum past a power of two that bounds it exactly, that a
    phase minus its integer part stays a fraction, and that a clamped rate is
    below two, so that positions derived from a phase are small integers. *)

From stdpp Require Import base list numbers tactics.
From Stdlib Require Import ZArith Lia ZifyBool.
From S2P Require Import Prelude Float.

(** [x] is a non-negative number of at most [2 ^ k]. *)
Definition below (k : Z) (x : spec_float) : Prop :=
  match x with
  | S754_zero _ => True
  | S754_finite false m e => e <= k ∧ Zpos m <= 2 ^ (k - e)
  | _ => False
  end.

(** The mantissa has at most 53 bits. *)
Definition narrow (x : spec_float) : Prop :=
  match x with S754_finite _ m _ => Zpos m < 2 ^ 53 | _ => True end.

Lemma below_mono j k x : j <= k → below j x → below k x.
Proof.
  intros Hjk. destruct x as [| | |[] m e]; cbn; try done. intros [He Hm]. split; [lia|].
  etrans; [exact Hm|]. apply Z.pow_le_mono_r; lia.
Qed.

(** ** Shifting right *)

Lemma shr_1_m mrs : 0 <= shr_m mrs → shr_m (shr_1 mrs) = shr_m mrs / 2.
Proof.
  destruct mrs as [m r s]. cbn. intros Hm. destruct m as [|[p|p|]|]; try done; cbn.
  - change (Zpos p~1) with (2 * Zpos p + 1). rewrite Z.mul_comm, Z.div_add_l by lia.
    change (1 / 2) with 0. lia.
  - change (Zpos p~0) with (2 * Zpos p). rewrite Z.mul_comm, Z.div_mul; lia.
Qed.

Lemma iter_shr_1 n mrs :
  0 <= shr_m mrs → shr_m (Pos.iter shr_1 mrs n) = shr_m mrs / 2 ^ Zpos n.
Proof.
  intros Hm. revert n. apply (Pos.peano_ind (λ n, shr_m (Pos.iter shr_1 mrs n) = shr_m mrs / 2 ^ Zpos n)).
  - by apply shr_1_m.
  - intros n IH. rewrite Pos.iter_succ, shr_1_m, IH, Pos2Z.inj_succ, Z.pow_succ_r by
      (try rewrite IH; try apply Z.div_pos; lia).
    rewrite Z.div_div by lia. f_equal. lia.
Qed.

Lemma shr_m_div m e n :
  0 <= m → 0 <= n →
  shr_m (fst (shr (Build_shr_record m false false) e n)) = m / 2 ^ n ∧
  snd (shr (Build_shr_record m false false) e n) = e + n.
Proof.
  intros Hm Hn. destruct n as [|n|]; [| |lia]; cbn.
  - rewrite Z.div_1_r. split; [done|lia].
  - rewrite iter_pos_iter, iter_shr_1 by done. done.
Qed.

Section bound.
Context {prec emax : Z} `{F : Format prec emax}.
Variable k : Z.
Hypothesis k_range : 3 - emax - prec <= k < emax - 1.

Lemma digits_le m e :
  0 < m → e <= k → m <= 2 ^ (k - e) → Zdigits2 m <= k - e + 1.
Proof.
  intros Hm He Hb. destruct m as [|p|]; [lia| |lia]. cbn [Zdigits2]. rewrite digits2_log2.
  assert (Z.log2 (Zpos p) <= k - e); [|lia].
  transitivity (Z.log2 (2 ^ (k - e))); [by apply Z.log2_le_mono|]. rewrite Z.log2_pow2; lia.
Qed.

(** One shift to the format keeps the bound, and is exact when it reaches it. *)
Lemma shr_fexp_bound m e :
  0 <= m → e <= k → m <= 2 ^ (k - e) →
  let r := shr_fexp prec emax m e loc_Exact in
  e <= snd r <= Z.max e (Z.max (k + 1 - prec) (3 - emax - prec)) ∧ snd r <= k ∧
  0 <= shr_m (fst r) <= 2 ^ (k - snd r) ∧
  (shr_m (fst r) = 2 ^ (k - snd r) → loc_of_shr_record (fst r) = loc_Exact).
Proof.
  intros Hm He Hb. cbv zeta. unfold shr_fexp. cbn [shr_record_of_loc].
  pose proof prec_gt_1. set (n := fexp prec emax (Zdigits2 m + e) - e).
  assert (n <= Z.max 0 (Z.max (k + 1 - prec) (3 - emax - prec) - e)) as Hn.
  { subst n. unfold fexp, emin. destruct (Z.eq_dec m 0) as [->|]; [cbn; lia|].
    pose proof (digits_le m e ltac:(lia) He Hb). lia. }
  clearbody n. destruct (Z.le_gt_cases n 0) as [Hn0|Hn0].
  { assert (shr (Build_shr_record m false false) e n = (Build_shr_record m false false, e)) as ->
      by (by destruct n; try lia). cbn. repeat split; lia. }
  destruct (shr_m_div m e n Hm ltac:(lia)) as [E1 E2]. rewrite E2.
  assert (0 < 2 ^ n) as Hp by (apply Z.pow_pos_nonneg; lia).
  assert (2 ^ (k - e) = 2 ^ (k - (e + n)) * 2 ^ n) as Epow.
  { rewrite <- Z.pow_add_r by lia. f_equal. lia. }
  assert (m / 2 ^ n * 2 ^ n <= m) as Hdiv by (rewrite Z.mul_comm; apply Z.mul_div_le; lia).
  split; [lia|]. split; [lia|]. rewrite E1. split.
  - split; [by apply Z.div_pos|]. rewrite Epow in Hb. nia.
  - intros Heq. assert (m = 2 ^ (k - (e + n)) * 2 ^ n) as ->; [rewrite Heq in Hdiv; lia|].
    assert (0 < 2 ^ (k - (e + n))) as Hpos by (apply Z.pow_pos_nonneg; lia).
    destruct (2 ^ (k - (e + n))) as [|p|]; [lia| |lia]. rewrite shr_exact by lia. done.
Qed.

Lemma round_aux_below m e :
  0 <= m → e <= Z.max (k + 1 - prec) (3 - emax - prec) → e <= k → m <= 2 ^ (k - e) →
  below k (binary_round_aux prec emax false m e loc_Exact).
Proof.
  intros Hm He Hek Hb. pose proof prec_gt_1. pose proof prec_lt_emax. unfold binary_round_aux.
  pose proof (shr_fexp_bound m e Hm Hek Hb) as H1. cbv zeta in H1.
  destruct (shr_fexp prec emax m e loc_Exact) as [mrs1 e1]. cbn [fst snd] in H1.
  destruct H1 as (Hr1 & Hk1 & [Hm1 Hb1] & Hx1).
  set (m2 := round_nearest_even (shr_m mrs1) (loc_of_shr_record mrs1)).
  assert (0 <= m2 <= 2 ^ (k - e1)) as [Hm2 Hb2].
  { subst m2. destruct (Z.eq_dec (shr_m mrs1) (2 ^ (k - e1))) as [E|E].
    - rewrite (Hx1 E). cbn. lia.
    - unfold round_nearest_even. destruct (loc_of_shr_record mrs1) as [|[]]; try lia.
      destruct (Z.even _); lia. }
  pose proof (shr_fexp_bound m2 e1 Hm2 Hk1 Hb2) as H3. cbv zeta in H3.
  destruct (shr_fexp prec emax m2 e1 loc_Exact) as [mrs2 e2]. cbn [fst snd] in H3.
  destruct H3 as (Hr2 & Hk2 & [Hm3 Hb3] & _).
  destruct (shr_m mrs2) as [|p|]; [done| |lia].
  replace (e2 <=? emax - prec) with true by lia. cbn. split; [lia|exact Hb3].
Qed.

Lemma round_below (p : positive) e :
  e <= k → Zpos p <= 2 ^ (k - e) → below k (binary_round prec emax false p e).
Proof.
  intros He Hb. pose proof prec_gt_1. unfold binary_round.
  set (e' := fexp prec emax (Zpos (digits2_pos p) + e)).
  assert (e' <= Z.max (k + 1 - prec) (3 - emax - prec)) as He'.
  { subst e'. unfold fexp, emin. pose proof (digits_le (Zpos p) e ltac:(lia) He Hb) as Hd.
    cbn [Zdigits2] in Hd. lia. }
  destruct (Z.le_gt_cases e e') as [Hle|Hgt].
  - rewrite shl_align_ge by lia. apply round_aux_below; lia.
  - destruct (shl_align_lt p e e' ltac:(lia)) as [E1 E2].
    destruct (shl_align p e e') as [mz ez]. cbn [fst snd] in E1, E2. subst ez.
    apply round_aux_below; [lia|lia|lia|]. rewrite E2.
    replace (k - e') with (k - e + (e - e')) by lia. rewrite Z.pow_add_r by lia.
    apply Z.mul_le_mono_nonneg_r; [apply Z.pow_nonneg; lia|exact Hb].
Qed.

Lemma normalize_below m e b :
  0 <= m → e <= k → m <= 2 ^ (k - e) → below k (binary_normalize prec emax m e b).
Proof. intros Hm He Hb. destruct m as [|p|]; [done|by apply round_below|lia]. Qed.
End bound.

(** ** Sums and fractions of doubles *)

Lemma align_eq m e e' :
  e' <= e → Zpos (fst (shl_align m e e')) = Zpos m * 2 ^ (e - e').
Proof.
  intros He. destruct (Z.eq_dec e e') as [->|].
  - rewrite shl_align_ge, Z.sub_diag by lia. cbn [fst]. lia.
  - apply shl_align_lt. lia.
Qed.

Lemma aligned_below k m e e' :
  e' <= e → e <= k → Zpos m <= 2 ^ (k - e) → Zpos m * 2 ^ (e - e') <= 2 ^ (k - e').
Proof.
  intros H1 H2 Hb. replace (k - e') with (k - e + (e - e')) by lia. rewrite Z.pow_add_r by lia.
  apply Z.mul_le_mono_nonneg_r; [apply Z.pow_nonneg; lia|exact Hb].
Qed.

Lemma d_add_below k x y :
  -1074 <= k < 1022 → below k x → below k y → below (k + 1) (d_add x y).
Proof.
  intros Hk Hx Hy. unfold d_add. destruct x as [sx| | |[] mx ex]; try done;
    destruct y as [sy| | |[] my ey]; try done; cbn [SFadd].
  - by destruct sx, sy.
  - by apply (below_mono k); [lia|].
  - by apply (below_mono k); [lia|].
  - destruct Hx as [Hx1 Hx2], Hy as [Hy1 Hy2].
    set (ez := Z.min ex ey). cbn [cond_Zopp]. rewrite !align_eq by lia.
    pose proof (aligned_below k mx ex ez ltac:(lia) Hx1 Hx2).
    pose proof (aligned_below k my ey ez ltac:(lia) Hy1 Hy2).
    assert (0 < 2 ^ (ex - ez)) by (apply Z.pow_pos_nonneg; lia).
    assert (0 < 2 ^ (ey - ez)) by (apply Z.pow_pos_nonneg; lia).
    apply normalize_below; [lia|nia|lia|].
    replace (k + 1 - ez) with (Z.succ (k - ez)) by lia. rewrite Z.pow_succ_r by lia. lia.
Qed.

Lemma trunc_below k x : 0 <= k → below k x → 0 <= sf_trunc x <= 2 ^ k.
Proof.
  intros Hk. destruct x as [| | |[] m e]; cbn; try done; [lia|]. intros [He Hm].
  destruct (Z.geb_spec e 0).
  - split; [apply Z.mul_nonneg_nonneg; [lia|apply Z.pow_nonneg; lia]|].
    replace k with (k - e + e) by lia. rewrite Z.pow_add_r by lia.
    apply Z.mul_le_mono_nonneg_r; [apply Z.pow_nonneg; lia|exact Hm].
  - assert (0 < 2 ^ (- e)) by (apply Z.pow_pos_nonneg; lia).
    split; [apply Z.div_pos; lia|]. apply Z.div_le_upper_bound; [lia|].
    rewrite <- Z.pow_add_r by lia. by replace (- e + k) with (k - e) by lia.
Qed.

(** The integer part tells the bound. *)
Lemma below_of_trunc j k x :
  0 <= k → below j x → sf_trunc x < 2 ^ k → below k x.
Proof.
  intros Hk. destruct x as [| | |[] m e]; cbn; try done. intros [He Hm].
  destruct (Z.geb_spec e 0) as [H0|H0]; intros Ht.
  - assert (0 < 2 ^ e) by (apply Z.pow_pos_nonneg; lia).
    assert (e < k) as Hek by (apply (Z.pow_lt_mono_r_iff 2); nia).
    split; [lia|]. apply (Z.mul_le_mono_pos_r _ _ (2 ^ e)); [lia|].
    rewrite <- Z.pow_add_r by lia. replace (k - e + e) with k by lia. lia.
  - assert (0 < 2 ^ (- e)) as Hp by (apply Z.pow_pos_nonneg; lia).
    split; [lia|]. pose proof (Z.mul_succ_div_gt (Zpos m) (2 ^ (- e)) Hp) as Hg.
    replace (k - e) with (- e + k) by lia. rewrite Z.pow_add_r by lia. nia.
Qed.

(** A phase minus its integer part is a fraction. *)
Lemma fraction_below k x :
  0 <= k <= 50 → below k x → below 0 (d_sub x (d_of_Z (sf_trunc x))).
Proof.
  intros Hk Hx. pose proof (trunc_below k x ltac:(lia) Hx) as Ht.
  assert (2 ^ k < 2 ^ 53) as Hk53 by (apply Z.pow_lt_mono_r; lia).
  destruct x as [s| | |[] m e]; try done; [by destruct s|].
  set (w := sf_trunc (S754_finite false m e)) in *.
  assert (w = if e >=? 0 then Zpos m * 2 ^ e else Zpos m / 2 ^ (- e)) as Ew by done.
  destruct (Z.eq_dec w 0) as [E0|E0].
  { rewrite E0. change (d_of_Z 0) with (S754_zero false). cbn [d_sub SFsub].
    apply (below_of_trunc k); [lia|exact Hx|]. fold w. rewrite E0. done. }
  assert (∃ m0 k0, d_of_Z w = S754_finite false m0 (- k0) ∧ 0 <= k0 ∧ Zpos m0 = w * 2 ^ k0)
    as (m0 & k0 & E1 & Hk0 & Em0).
  { destruct w as [|p|]; [lia| |lia].
    destruct (@round_pos_shape 53 1024 binary64 p ltac:(lia)) as (m0 & k0 & Hs & _ & H0 & Hm).
    exists m0, k0. split; [apply (Hs false)|done]. }
  rewrite E1. unfold d_sub. cbn [SFsub cond_Zopp]. set (ez := Z.min e (- k0)).
  rewrite !align_eq by lia. rewrite Em0.
  assert (w * 2 ^ k0 * 2 ^ (- k0 - ez) = w * 2 ^ (- ez)) as ->.
  { rewrite <- Z.mul_assoc, <- Z.pow_add_r by lia. do 2 f_equal. lia. }
  assert (0 <= Zpos m * 2 ^ (e - ez) - w * 2 ^ (- ez) <= 2 ^ (- ez)) as [H1 H2].
  { rewrite Ew. destruct (Z.geb_spec e 0) as [He|He].
    - assert (Zpos m * 2 ^ e * 2 ^ (- ez) = Zpos m * 2 ^ (e - ez)) as Eq.
      { rewrite <- Z.mul_assoc, <- Z.pow_add_r by lia. f_equal. }
      rewrite Eq. pose proof (Z.pow_nonneg 2 (- ez)). lia.
    - assert (2 ^ (- ez) = 2 ^ (- e) * 2 ^ (e - ez)) as ->
        by (rewrite <- Z.pow_add_r by lia; f_equal; lia).
      assert (0 < 2 ^ (e - ez)) by (apply Z.pow_pos_nonneg; lia).
      assert (0 < 2 ^ (- e)) as Hp by (apply Z.pow_pos_nonneg; lia).
      pose proof (Z.mul_div_le (Zpos m) (2 ^ (- e)) Hp).
      pose proof (Z.mul_succ_div_gt (Zpos m) (2 ^ (- e)) Hp). nia. }
  apply normalize_below; [lia|exact H1|lia|exact H2].
Qed.

(** Rounded results are narrow. *)
Lemma shr_m_shift mrs e n :
  0 <= shr_m mrs → shr_m (fst (shr mrs e n)) = shr_m mrs / 2 ^ Z.max 0 n.
Proof.
  intros Hm. destruct n as [|n|n]; cbn [shr fst]; [by rewrite Z.div_1_r| |by rewrite Z.div_1_r].
  by rewrite iter_pos_iter, iter_shr_1.
Qed.

Lemma round_aux_narrow s m e l :
  0 <= m → narrow (binary_round_aux 53 1024 s m e l).
Proof.
  intros Hm. unfold binary_round_aux.
  pose proof (shr_m_shift (shr_record_of_loc m l) e (fexp 53 1024 (Zdigits2 m + e) - e)) as H1.
  unfold shr_fexp at 1. destruct (shr (shr_record_of_loc m l) e _) as [mrs1 e1]. cbn [fst] in H1.
  assert (shr_m (shr_record_of_loc m l) = m) as El by (by destruct l as [|[]]).
  rewrite El in H1. assert (0 <= shr_m mrs1) as Hm1.
  { rewrite H1 by done. apply Z.div_pos; [done|apply Z.pow_pos_nonneg; lia]. }
  set (m2 := round_nearest_even (shr_m mrs1) (loc_of_shr_record mrs1)).
  assert (0 <= m2) as Hm2.
  { subst m2. unfold round_nearest_even. destruct (loc_of_shr_record mrs1) as [|[]]; try lia.
    destruct (Z.even _); lia. }
  clearbody m2. unfold shr_fexp. cbn [shr_record_of_loc].
  set (n := fexp 53 1024 (Zdigits2 m2 + e1) - e1).
  assert (Zdigits2 m2 - 53 <= n) as Hn by (subst n; unfold fexp; lia). clearbody n.
  pose proof (shr_m_shift (Build_shr_record m2 false false) e1 n Hm2) as H2.
  destruct (shr (Build_shr_record m2 false false) e1 n) as [mrs2 e2]. cbn [fst shr_m] in H2.
  destruct (shr_m mrs2) as [|p|]; [done| |done]. case_match; [|done]. cbn [narrow].
  rewrite H2. apply Z.div_lt_upper_bound; [apply Z.pow_pos_nonneg; lia|].
  rewrite <- Z.pow_add_r by lia. destruct m2 as [|q|]; [apply Z.pow_pos_nonneg; lia| |lia].
  cbn [Zdigits2] in Hn. rewrite digits2_log2 in Hn. apply Z.log2_lt_pow2; lia.
Qed.

Lemma d_mul_narrow x y : narrow (d_mul x y).
Proof.
  unfold d_mul. destruct x, y; try done. cbn [SFmul]. apply round_aux_narrow. lia.
Qed.

(** A clamped rate times the frames of a packet. *)
Lemma d_mul_small_below n rate : 0 <= n <= 6 → below 1 rate → below 4 (d_mul (d_of_Z n) rate).
Proof.
  intros Hn Hr.
  assert (n = 0 ∨ ∃ m e, d_of_Z n = S754_finite false m e ∧ e <= -50 ∧ Zpos m <= 2 ^ (3 - e)) as H.
  { assert (n = 0 ∨ n = 1 ∨ n = 2 ∨ n = 3 ∨ n = 4 ∨ n = 5 ∨ n = 6) as Hc by lia.
    destruct Hc as [->|[->|[->|[->|[->|[->| ->]]]]]]; [by left|right..];
      (do 2 eexists; split; [vm_compute; reflexivity|]; split; vm_compute; congruence). }
  destruct H as [->|(m & e & -> & He & Hm)].
  - change (d_of_Z 0) with (S754_zero false). destruct rate as [[]| | |[] m e]; done.
  - destruct rate as [s| | |[] m' e']; try done. destruct Hr as [He' Hm'].
    unfold d_mul. cbn [SFmul xorb]. apply round_aux_below; try lia.
    rewrite Pos2Z.inj_mul. replace (4 - (e + e')) with ((3 - e) + (1 - e')) by lia.
    rewrite Z.pow_add_r by lia. apply Z.mul_le_mono_nonneg; lia.
Qed.
