(* ===== verification/TransportResample.v ===== *)
(** * Reading the ring at any rate

    The USB worker reads at a rate near one.  The specification resamples the
    queue of frames: output frame [k] interpolates between the two frames around
    phase [k], and the phases are the rounded partial sums of the rate.  Reading
    the ring is exactly that, and the ring keeps the frames after the integer part
    of the last phase. *)

From stdpp Require Import base list numbers tactics.
From Stdlib Require Import ZArith Lia ZifyBool.
From S2P Require Import Prelude Float Rounding Pcm Transport TransportQueue.

(** ** The specification *)

Fixpoint resample (q : list (list Z)) (rate : spec_float) (n : nat) (phase : spec_float)
    : list (list Z) * spec_float * NS6TransportStopReason :=
  match n with
  | O => ([], phase, NS6_TRANSPORT_STOP_NONE)
  | S n' =>
      let whole := sf_trunc phase in
      let fraction := d_sub phase (d_of_Z whole) in
      let second := if d_lt (S754_zero false) fraction then whole + 1 else whole in
      match q !! Z.to_nat whole, q !! Z.to_nat second with
      | Some a, Some b =>
          let r := resample q rate n' (d_add phase rate) in
          (interpolate_frame a b fraction :: r.1.1, r.1.2, r.2)
      | _, _ => ([], phase, NS6_TRANSPORT_STOP_EMPTY)
      end
  end.

(** ** Rates *)

Lemma clamp_rate_below rate : narrow rate → below 1 (clamp_rate rate).
Proof.
  intros Hn. unfold clamp_rate.
  assert (below 1 (d_of_Z 1)) as H1 by (vm_compute; split; congruence).
  destruct (sf_isfinite rate) eqn:Ef; cbn [negb orb]; [|exact H1].
  destruct (d_lt rate (d_lit 1 2)) eqn:El; cbn [orb]; [exact H1|].
  destruct (d_lt (d_lit 3 2) rate) eqn:Eh; [exact H1|].
  destruct rate as [s| | |s m e]; try done.
  destruct s; [done|].
  change (d_lit 3 2) with (S754_finite false 6755399441055744 (-52)) in Eh.
  unfold d_lt, SFltb in Eh. cbn [SFcompare] in Eh. cbn [below narrow] in *.
  assert (e <= -52) as He.
  { destruct (Z.compare_spec (-52) e); [lia|done|lia]. }
  split; [lia|]. transitivity (2 ^ 53); [lia|]. apply Z.pow_le_mono_r; lia.
Qed.

(** Writing one frame after [produced] others. *)
Lemma memcpy_frame (out : list Z) produced f :
  0 <= produced → length f = 12%nat → (12 * S (Z.to_nat produced) <= length out)%nat →
  take (12 * S (Z.to_nat produced)) (memcpy out (produced * USB_FRAME_BYTES) f) =
    take (12 * Z.to_nat produced) out ++ f ∧
  ∀ k, drop (12 * S (Z.to_nat produced) + 12 * k) (memcpy out (produced * USB_FRAME_BYTES) f) =
    drop (12 * S (Z.to_nat produced) + 12 * k) out.
Proof.
  intros Hp Hf Hlen. set (A := take (12 * Z.to_nat produced) out).
  assert (length A = 12 * Z.to_nat produced)%nat as HA by (subst A; rewrite length_take; lia).
  replace (memcpy out (produced * USB_FRAME_BYTES) f) with
    ((A ++ f) ++ drop (12 * S (Z.to_nat produced)) out).
  2: { rewrite <- (take_drop (12 * Z.to_nat produced) out) at 2. fold A.
       rewrite memcpy_app by (rewrite ?length_drop; unfold USB_FRAME_BYTES; lia).
       rewrite drop_drop, Hf. do 2 f_equal. lia. }
  split.
  - rewrite take_app_le by (rewrite length_app; lia). apply take_ge. rewrite length_app. lia.
  - intros k. rewrite drop_app_ge by (rewrite length_app; lia).
    rewrite length_app, HA, Hf, drop_drop. f_equal. lia.
Qed.

(** ** The loop *)

Section loop.
Context (s : NS6TransportShared) (q : list (list Z)) (rate : spec_float).
Hypothesis Hq : queue_rel s q.
Hypothesis Hinit : initialized s = true.
Hypothesis Hrate : below 1 rate.
(** Positions are far from the end of the 64-bit range. *)
Hypothesis Hroom : Z.max (high_water s) (read_cursor s) + 65536 <= UINT64_MAX.

Lemma position_eq w : 0 <= w <= 65536 → u64 (read_cursor s + w) = read_cursor s + w.
Proof.
  intros Hw. apply u64_id. destruct (qr_wf _ _ Hq) as [_ _ _ [? ?] _].
  unfold UINT64_MAX, is_u64 in *. lia.
Qed.

(** Where the loop stops and where it goes on. *)
Lemma end_reached w :
  0 <= w → (read_cursor s + w >=? high_water s) = negb (w <? Z.of_nat (length q)).
Proof.
  intros Hw. destruct (qr_bounds _ _ Hq Hinit) as [E|[-> E]].
  - rewrite E. lia.
  - cbn. lia.
Qed.

Lemma lookup_queue i :
  0 <= i < Z.of_nat (length q) →
  q !! Z.to_nat i = Some (frame_at s (read_cursor s + i)) ∧
  tag_at s (read_cursor s + i) = read_cursor s + i.
Proof. intros Hi. split; [by apply (qr_frames _ _ Hq)|by apply (qr_tags _ _ Hq)]. Qed.

(** Stopping leaves the output as it is. *)
Lemma stop_eq (produced : Z) (phase : spec_float) (out : list Z) (stop : NS6TransportStopReason) :
  below 15 phase →
  (produced, phase, out, stop) =
    (produced + Z.of_nat 0, phase,
     take (12 * Z.to_nat produced) out ++ [] ++ drop (12 * (Z.to_nat produced + 0)) out, stop) ∧
  below 15 phase.
Proof. intros Hb. by rewrite Z.add_0_r, Nat.add_0_r, app_nil_l, take_drop. Qed.

Lemma dequeue_loop_resamples n produced phase out :
  below 15 phase → 0 <= produced →
  (12 * (Z.to_nat produced + n) <= length out)%nat →
  let r := resample q rate n phase in
  dequeue_loop s (read_cursor s) (high_water s) rate n produced phase out =
    (produced + Z.of_nat (length r.1.1), r.1.2,
     take (12 * Z.to_nat produced) out ++ concat r.1.1 ++
       drop (12 * (Z.to_nat produced + length r.1.1)) out, r.2) ∧
  below 15 r.1.2.
Proof.
  revert produced phase out. induction n as [|n IH]; intros produced phase out Hb Hp Hlen; cbv zeta.
  { cbn [resample dequeue_loop fst snd length concat]. by apply stop_eq. }
  pose proof (trunc_below 15 phase ltac:(lia) Hb) as Ht. change (2 ^ 15) with 32768 in Ht.
  cbn [resample dequeue_loop].
  set (w := sf_trunc phase) in *. rewrite (u64_id w) by (unfold is_u64; lia).
  set (fr := d_sub phase (d_of_Z w)).
  rewrite (position_eq w) by lia.
  set (j := if d_lt (S754_zero false) fr then w + 1 else w).
  assert (0 <= j <= 65536 ∧ w <= j) as [Hj Hwj] by (subst j; destruct (d_lt _ fr); lia).
  assert (u64 (read_cursor s + w + (if d_lt (S754_zero false) fr then 1 else 0)) = read_cursor s + j) as ->.
  { rewrite <- (position_eq j) by lia. f_equal. subst j. destruct (d_lt _ fr); lia. }
  rewrite (end_reached j) by lia.
  destruct (Z.ltb_spec j (Z.of_nat (length q))) as [Hlt|Hge]; cbn [negb].
  2: { assert (q !! Z.to_nat j = None) as -> by (apply lookup_ge_None; lia).
       destruct (q !! Z.to_nat w); cbn [fst snd length concat]; by apply stop_eq. }
  destruct (lookup_queue w ltac:(lia)) as [-> Tw]. destruct (lookup_queue j ltac:(lia)) as [-> Tj].
  pose proof (qr_fits _ _ Hq) as Hfit. unfold RING in Hfit.
  assert (u64 (read_cursor s + j - read_cursor s) = j) as ->
    by (replace (read_cursor s + j - read_cursor s) with j by lia; apply u64_id; unfold is_u64; lia).
  replace (j >=? RING) with false by (unfold RING; lia).
  assert (tags_match s (read_cursor s + w) (read_cursor s + j) = true) as ->.
  { unfold tags_match. by rewrite Tw, Tj, !Z.eqb_refl. }
  cbn [negb].
  set (f := interpolate_frame (frame_at s (read_cursor s + w)) (frame_at s (read_cursor s + j)) fr).
  assert (length f = 12%nat) as Hf by apply is_frame_pack.
  assert (below 15 (d_add phase rate)) as Hnext.
  { apply (d_add_below 14); [lia| |apply (below_mono 1); [lia|exact Hrate]].
    apply (below_of_trunc 15); [lia|exact Hb|]. fold w. change (2 ^ 14) with 16384. lia. }
  destruct (IH (produced + 1) (d_add phase rate) (memcpy out (produced * USB_FRAME_BYTES) f) Hnext)
    as [E Hbr]; [lia|rewrite length_memcpy; lia|].
  split; [|exact Hbr]. rewrite E. clear E IH. cbn [fst snd length concat].
  set (r := resample q rate n (d_add phase rate)) in *. clearbody r f.
  f_equal. f_equal; [f_equal; lia|].
  replace (Z.to_nat (produced + 1)) with (S (Z.to_nat produced)) by lia.
  destruct (memcpy_frame out produced f Hp Hf ltac:(lia)) as [-> Hd].
  rewrite <- !app_assoc. f_equal. f_equal. f_equal.
  transitivity (drop (12 * S (Z.to_nat produced) + 12 * length r.1.1)
                  (memcpy out (produced * USB_FRAME_BYTES) f)); [f_equal; lia|].
  rewrite Hd. f_equal. lia.
Qed.
(** Moving the cursor past the end empties the queue. *)
Lemma queue_rel_skip c :
  0 <= c <= 32768 → queue_rel (set_read_cursor s (read_cursor s + c)) (drop (Z.to_nat c) q).
Proof.
  intros Hc. destruct (decide (c <= Z.of_nat (length q))) as [Hle|Hgt].
  { replace c with (Z.of_nat (Z.to_nat c)) at 1 by lia. apply queue_rel_drop; [done|done|lia]. }
  rewrite drop_ge by lia.
  destruct Hq as [[? ? ? Hcur Hh] Hfit Hun Hb Ht Hf]. specialize (Hb Hinit).
  unfold is_u64, UINT64_MAX in *. split; cbn [length]; try (intros; lia); try done.
  - split; cbn; unfold is_u64; try done. lia.
  - intros _. right. split; [done|]. cbn. destruct Hb as [Hb|[-> Hb]]; lia.
Qed.
End loop.

(** ** The whole read *)

Lemma dequeue_resamples s q r out n rate :
  queue_rel s q → initialized s = true → below 0 (read_fraction r) → narrow rate → 0 < n →
  (12 * Z.to_nat n <= length out)%nat →
  Z.max (high_water s) (read_cursor s) + 65536 <= UINT64_MAX →
  let '(fs, phase, stop) := resample q (clamp_rate rate) (Z.to_nat n) (read_fraction r) in
  let s' := set_read_cursor s (read_cursor s + sf_trunc phase) in
  let r' := {| read_fraction := d_sub phase (d_of_Z (sf_trunc phase)) |} in
  ns6_transport_dequeue_resampled_shared_diagnostic (Some s) (Some r) (Some out) n rate
    = {| dq_produced := Z.of_nat (length fs); dq_shared := Some s'; dq_reader := Some r';
         dq_output := Some (concat fs ++ drop (12 * length fs) out); dq_stop := stop |} ∧
  queue_rel s' (drop (Z.to_nat (sf_trunc phase)) q) ∧ below 0 (read_fraction r') ∧
  0 <= sf_trunc phase <= 32768.
Proof.
  intros Hq Hi Hr Hn Hpos Hlen Hroom.
  pose proof (dequeue_loop_resamples s q (clamp_rate rate) Hq Hi (clamp_rate_below _ Hn) Hroom
    (Z.to_nat n) 0 (read_fraction r) out (below_mono 0 15 _ ltac:(lia) Hr) ltac:(lia) ltac:(lia))
    as [E Hb].
  destruct (resample q (clamp_rate rate) (Z.to_nat n) (read_fraction r)) as [[fs phase] stop].
  cbn [fst snd] in *. pose proof (trunc_below 15 phase ltac:(lia) Hb) as Ht.
  change (2 ^ 15) with 32768 in Ht.
  split; [|split; [by apply queue_rel_skip|split; [|exact Ht]]].
  - unfold ns6_transport_dequeue_resampled_shared_diagnostic. rewrite Hi.
    replace (n =? 0) with false by lia. cbn [negb orb]. rewrite E, Z.add_0_l, !Nat.add_0_l.
    rewrite (u64_id (sf_trunc phase)) by (unfold is_u64; lia).
    by rewrite (position_eq s q Hq Hi Hroom) by lia.
  - by apply (fraction_below 15).
Qed.

(** Whole and fractional parts of the phases that a read of [n] frames visits stay
    below [2 ^ (n + 1)], so a queue longer than that serves it completely. *)
Lemma resample_complete q rate n k phase :
  below k phase → 1 <= k → k + Z.of_nat n <= 1000 → below 1 rate →
  2 ^ (k + Z.of_nat n) < Z.of_nat (length q) →
  let '(fs, phase', stop) := resample q rate n phase in
  length fs = n ∧ below (k + Z.of_nat n) phase' ∧ stop = NS6_TRANSPORT_STOP_NONE.
Proof.
  revert k phase. induction n as [|n IH]; intros k phase Hb Hk Hmax Hr Hlen.
  { cbn [resample]. by rewrite Z.add_0_r. }
  cbn [resample]. pose proof (trunc_below k phase ltac:(lia) Hb) as Ht.
  assert (2 ^ (k + 1) <= 2 ^ (k + Z.of_nat (S n))) by (apply Z.pow_le_mono_r; lia).
  assert (2 ^ (k + 1) = 2 * 2 ^ k) as E2 by (rewrite Z.pow_add_r, Z.pow_1_r by lia; lia).
  assert (1 <= 2 ^ k) by (apply (Z.pow_le_mono_r 2 0); lia).
  set (fr := d_sub phase (d_of_Z (sf_trunc phase))).
  destruct (lookup_lt_is_Some_2 q (Z.to_nat (sf_trunc phase)) ltac:(lia)) as [a ->].
  destruct (lookup_lt_is_Some_2 q (Z.to_nat (if d_lt (S754_zero false) fr then sf_trunc phase + 1
    else sf_trunc phase)) ltac:(destruct (d_lt (S754_zero false) fr); lia)) as [b ->].
  assert (below (k + 1) (d_add phase rate)) as Hnext.
  { apply (d_add_below k); [lia|exact Hb|]. apply (below_mono 1); [lia|exact Hr]. }
  specialize (IH (k + 1) (d_add phase rate) Hnext ltac:(lia) ltac:(lia) Hr).
  replace (k + 1 + Z.of_nat n) with (k + Z.of_nat (S n)) in IH by lia. specialize (IH Hlen).
  destruct (resample q rate n (d_add phase rate)) as [[fs p] st]. cbn [fst snd length] in *.
  destruct IH as (-> & ? & ?). done.
Qed.

(** C36: reading the ring at any rate is resampling of the queue it represents.  For a
    ring that represents the queue [q], any finite or non-finite rate of at most 53
    significant bits and a fractional phase of at most one, the read stops where the
    specification [resample] stops and for the same reason, writes exactly its
    interpolated frames at the start of the output buffer and nothing else, leaves the
    ring representing [q] without the frames before the integer part of the last phase,
    and leaves a fractional phase of at most one again. *)
Theorem resample_refines_queue s q r out n rate :
  queue_rel s q → initialized s = true → below 0 (read_fraction r) → narrow rate → 0 < n →
  (12 * Z.to_nat n <= length out)%nat →
  Z.max (high_water s) (read_cursor s) + 65536 <= UINT64_MAX →
  let '(fs, phase, stop) := resample q (clamp_rate rate) (Z.to_nat n) (read_fraction r) in
  ∃ s' r',
    ns6_transport_dequeue_resampled_shared_diagnostic (Some s) (Some r) (Some out) n rate
      = {| dq_produced := Z.of_nat (length fs); dq_shared := Some s'; dq_reader := Some r';
           dq_output := Some (concat fs ++ drop (12 * length fs) out); dq_stop := stop |} ∧
    queue_rel s' (drop (Z.to_nat (sf_trunc phase)) q) ∧
    read_fraction r' = d_sub phase (d_of_Z (sf_trunc phase)) ∧ below 0 (read_fraction r').
Proof.
  intros Hq Hi Hr Hn Hpos Hlen Hroom.
  pose proof (dequeue_resamples s q r out n rate Hq Hi Hr Hn Hpos Hlen Hroom) as H.
  destruct (resample q (clamp_rate rate) (Z.to_nat n) (read_fraction r)) as [[fs phase] stop].
  cbv zeta in H. destruct H as (E & Hq' & Hf & _).
  eexists _, _. split; [exact E|]. by split.
Qed.

(** One frame in the ring, a read of two frames at rate 1.25: one frame comes out. *)
Lemma resample_refines_queue_witness :
  ∃ s' r',
    ns6_transport_dequeue_resampled_shared_diagnostic (Some one_frame_ring)
      (Some {| read_fraction := S754_zero false |}) (Some (replicate 24 0)) 2 (d_lit 5 4)
    = {| dq_produced := 1; dq_shared := Some s'; dq_reader := Some r';
         dq_output := Some (one_frame ++ replicate 12 0);
         dq_stop := NS6_TRANSPORT_STOP_EMPTY |} ∧
    queue_rel s' [] ∧ read_fraction r' = d_lit 1 4 ∧ below 0 (read_fraction r').
Proof.
  refine (resample_refines_queue one_frame_ring [one_frame] {| read_fraction := S754_zero false |}
    (replicate 24 0) 2 (d_lit 5 4) one_frame_ring_rel eq_refl I _ _ _ _).
  - vm_compute. reflexivity.
  - lia.
  - cbn. lia.
  - vm_compute. discriminate.
Defined.
