(* ===== verification/UsbOutput.v ===== *)
(** * The isochronous output of the USB worker (NS6USB.c, NS6Transport.c)

    A transfer is 32 packets of one microframe.  [fill] prepares one from the
    clock's cadence and the transport ring, [submit] hands it to the interface,
    [complete] is the interface's callback.  The static variables of NS6USB.c that
    these functions share are the record [usb_output]; clock readings and the
    results of the interface are arguments.  Log lines are left out, the variables
    that limit them are kept. *)

From stdpp Require Import base list numbers tactics.
From Stdlib Require Import ZArith Lia ZifyBool.
From S2P Require Import Prelude Float Pcm Transport ClockControl MidiReads Policies Timing.

(** ** The ring in use ([active_shared], [active_reader])

    The process-local pair, or the pair bound by the service. *)

Definition ring_pair : Type := NS6TransportShared * NS6TransportReader.

Record transport_state := { default_pair : ring_pair; bound_pair : option ring_pair }.

Definition active (t : transport_state) : ring_pair := default (default_pair t) (bound_pair t).

Definition set_active (t : transport_state) (p : ring_pair) : transport_state :=
  match bound_pair t with
  | Some _ => {| default_pair := default_pair t; bound_pair := Some p |}
  | None => {| default_pair := p; bound_pair := None |}
  end.

Definition ns6_transport_bind_shared (t : transport_state) (shared : option NS6TransportShared)
    (reader : option NS6TransportReader) : transport_state :=
  match shared, reader with
  | Some s, Some r => {| default_pair := default_pair t; bound_pair := Some (s, r) |}
  | _, _ => {| default_pair := default_pair t; bound_pair := None |}
  end.

Definition ns6_transport_reset (t : transport_state) : transport_state :=
  set_active t (ns6_transport_reset_shared (active t).1, {| read_fraction := S754_zero false |}).

Definition ns6_transport_discard (t : transport_state) : transport_state :=
  let '(s, r) := ns6_transport_discard_shared (active t).1 (Some (active t).2) in
  set_active t (s, default (active t).2 r).

Definition ns6_transport_enqueue_at `{CoreAudioABI} (t : transport_state)
    (input : option (list Z)) (sample_time count : Z)
    (format : option AudioStreamBasicDescription) : bool * transport_state :=
  let '(ok, s) := ns6_transport_enqueue_at_shared (Some (active t).1) input sample_time count format in
  (ok, set_active t (default (active t).1 s, (active t).2)).

Definition ns6_transport_enqueue `{CoreAudioABI} (t : transport_state) (input : option (list Z))
    (count : Z) (format : option AudioStreamBasicDescription) : bool * transport_state :=
  let '(ok, s) := ns6_transport_enqueue_shared (Some (active t).1) input count format in
  (ok, set_active t (default (active t).1 s, (active t).2)).

Definition ns6_transport_available (t : transport_state) : Z :=
  ns6_transport_available_shared (Some (active t).1).

(** The frames produced, why the read stopped, the output and the state. *)
Definition finish_dequeue (t : transport_state) (output : list Z) (r : dequeue_result)
    : Z * NS6TransportStopReason * list Z * transport_state :=
  (dq_produced r, dq_stop r, default output (dq_output r),
   set_active t (default (active t).1 (dq_shared r), default (active t).2 (dq_reader r))).

Definition ns6_transport_dequeue (t : transport_state) (output : list Z) (capacity : Z)
    : Z * NS6TransportStopReason * list Z * transport_state :=
  finish_dequeue t output
    (ns6_transport_dequeue_shared (Some (active t).1) (Some (active t).2) (Some output) capacity).

Definition ns6_transport_dequeue_resampled (t : transport_state) (output : list Z)
    (output_frames : Z) (step : spec_float) : Z * NS6TransportStopReason * list Z * transport_state :=
  finish_dequeue t output
    (ns6_transport_dequeue_resampled_shared (Some (active t).1) (Some (active t).2) (Some output)
       output_frames step).

Definition ns6_transport_dequeue_resampled_diagnostic (t : transport_state) (output : list Z)
    (output_frames : Z) (step : spec_float) : Z * NS6TransportStopReason * list Z * transport_state :=
  finish_dequeue t output
    (ns6_transport_dequeue_resampled_shared_diagnostic (Some (active t).1) (Some (active t).2)
       (Some output) output_frames step).

Definition ns6_transport_advance_resampled (t : transport_state) (output_frames : Z)
    (step : spec_float) : Z * transport_state :=
  let '(consumed, s, r) := ns6_transport_advance_resampled_shared (Some (active t).1)
                             (Some (active t).2) output_frames step in
  (consumed, set_active t (default (active t).1 s, default (active t).2 r)).

Definition ns6_transport_advance (t : transport_state) (frames : Z) : Z * transport_state :=
  let '(consumed, s) := ns6_transport_advance_shared (Some (active t).1) frames in
  (consumed, set_active t (default (active t).1 s, (active t).2)).

(** ** Constants and state *)

Definition PACKETS : Z := 32.
Definition MAX_PACKET : Z := 156.
Definition FRAME_BYTES : Z := 12.
Definition NS6_STARTUP_MIN_PREFILL_FRAMES : Z := 1024.

(** One output transfer; the buffers are allocated by [initialize]. *)
Record slot := {
  slot_frames : list isoc_frame;
  data : list Z;
  consecutive_errors : Z;
  callback_ns : Z;
  last_prefill_ns : Z;
  last_fill_ns : Z;
  last_fill_cpu_ns : Z;
  last_submit_ns : Z;
  last_submit_cpu_ns : Z
}.

(** What feedback and output share about the clock. *)
Record clock_state := {
  clock_control : NS6ClockControl;
  feedback_last_valid_ms : Z;
  feedback_stale_resets : Z;
  feedback_stale_reset_started_ms : Z
}.

Record underruns := {
  underrun_frames : Z;
  underrun_events : Z;
  underrun_max_burst : Z;
  last_underrun_log_ms : Z
}.

Record recovery_sample := { last_recovery_sample : list Z; have_last_recovery_sample : bool }.

(** The gate in front of the ring. *)
Record gate_state := {
  output_paused : bool;
  awaiting_audio_prefill : bool;
  standby_prime_pending : bool;
  startup_buffer_frames : Z
}.

Record usb_output := {
  transport : transport_state;
  clock : clock_state;
  gate : gate_state;
  recovery : recovery_sample;
  underrun : underruns;
  output_pcm_peak : list Z;
  output_pcm_nonzero_frames : Z
}.

Definition set_transport (t : transport_state) (u : usb_output) : usb_output :=
  {| transport := t; clock := clock u; gate := gate u; recovery := recovery u;
     underrun := underrun u; output_pcm_peak := output_pcm_peak u;
     output_pcm_nonzero_frames := output_pcm_nonzero_frames u |}.

Definition set_clock (c : clock_state) (u : usb_output) : usb_output :=
  {| transport := transport u; clock := c; gate := gate u; recovery := recovery u;
     underrun := underrun u; output_pcm_peak := output_pcm_peak u;
     output_pcm_nonzero_frames := output_pcm_nonzero_frames u |}.

(** The gate, and the recovery sample forgotten, as every branch before the ring does. *)
Definition set_gate (g : gate_state) (u : usb_output) : usb_output :=
  {| transport := transport u; clock := clock u; gate := g;
     recovery := {| last_recovery_sample := last_recovery_sample (recovery u);
                    have_last_recovery_sample := false |};
     underrun := underrun u; output_pcm_peak := output_pcm_peak u;
     output_pcm_nonzero_frames := output_pcm_nonzero_frames u |}.

Definition set_recovery (r : recovery_sample) (u : usb_output) : usb_output :=
  {| transport := transport u; clock := clock u; gate := gate u; recovery := r;
     underrun := underrun u; output_pcm_peak := output_pcm_peak u;
     output_pcm_nonzero_frames := output_pcm_nonzero_frames u |}.

Definition set_underrun (n : underruns) (u : usb_output) : usb_output :=
  {| transport := transport u; clock := clock u; gate := gate u; recovery := recovery u;
     underrun := n; output_pcm_peak := output_pcm_peak u;
     output_pcm_nonzero_frames := output_pcm_nonzero_frames u |}.

Definition awaiting (b : bool) (g : gate_state) : gate_state :=
  {| output_paused := output_paused g; awaiting_audio_prefill := b;
     standby_prime_pending := standby_prime_pending g;
     startup_buffer_frames := startup_buffer_frames g |}.

(** The log limiter: whether to log, and the time of the last line. *)
Definition should_log_once_per_second (last_log now : Z) : bool * Z :=
  if now -₆₄ last_log >=? 1000 then (true, now) else (false, last_log).

(** ** Filling one packet *)

Section fill.
Context (cfg : ClockConfig).
(** [NS6_IDLE_PCM_KEEPALIVE] *)
Context (idle_keepalive : bool).

(** Reports older than two seconds are forgotten. *)
Definition reset_stale_feedback (now_ms : Z) (c : clock_state) : clock_state :=
  let last_feedback := feedback_last_valid_ms c in
  if ns6_clock_control_is_locked (Some (clock_control c)) && negb (last_feedback =? 0) then
    match ns6_feedback_elapsed_ms now_ms last_feedback with
    | Some feedback_age_ms =>
        if feedback_age_ms >? 2000 then
          {| clock_control := ns6_clock_control_reset_feedback (clock_control c);
             feedback_last_valid_ms := 0;
             feedback_stale_resets := feedback_stale_resets c +₆₄ 1;
             feedback_stale_reset_started_ms := now_ms |}
        else c
    | None => c
    end
  else c.

(** Every eighth packet asks the clock for the next millisecond. *)
Definition schedule_packet (packet : Z) (ms : list Z) (c : clock_state) : list Z * clock_state :=
  if packet mod 8 =? 0 then
    let '(ms, control) := ns6_clock_control_next_millisecond cfg (clock_control c) in
    (ms, {| clock_control := control; feedback_last_valid_ms := feedback_last_valid_ms c;
            feedback_stale_resets := feedback_stale_resets c;
            feedback_stale_reset_started_ms := feedback_stale_reset_started_ms c |})
  else (ms, c).

(** A paused output with nothing queued. *)
Definition idle_packet (frames : Z) (out : list Z) (u : usb_output) : list Z * usb_output :=
  let g := gate u in
  let prime := negb (frames =? 0) && standby_prime_pending g in
  let pending := if idle_keepalive || (frames =? 0) then standby_prime_pending g else false in
  (ns6_fill_idle_pcm out 0 frames (idle_keepalive || prime),
   set_gate {| output_paused := output_paused g; awaiting_audio_prefill := true;
               standby_prime_pending := pending;
               startup_buffer_frames := startup_buffer_frames g |} u).

Definition count_underrun (missing log_ms : Z) (n : underruns) : underruns :=
  {| underrun_frames := underrun_frames n +₆₄ missing;
     underrun_events := underrun_events n +₆₄ 1;
     underrun_max_burst := update_max (underrun_max_burst n) missing;
     last_underrun_log_ms := (should_log_once_per_second (last_underrun_log_ms n) log_ms).2 |}.

(** The last frame received, channel by channel. *)
Definition remember (out : list Z) (received : Z) (r : recovery_sample) : recovery_sample :=
  if received =? 0 then r
  else
    let last := (received - 1) * FRAME_BYTES in
    {| last_recovery_sample := map (λ channel, unpack_pcm24 out (last + channel * 3)) [0; 1; 2; 3];
       have_last_recovery_sample := true |}.

(** One frame of the fade: the remembered samples scaled and truncated. *)
Definition fade_frame (samples : list Z) (frame missing : Z) : list Z :=
  concat (map (λ v, pack_pcm24 (sf_trunc (d_mul (d_of_Z v)
                      (ns6_audio_recovery_underrun_gain frame missing)))) samples).

Definition fade (out : list Z) (received missing : Z) (samples : list Z) : list Z :=
  for_loop (Z.to_nat missing) 0
    (λ frame o, memcpy o ((received + frame) * FRAME_BYTES) (fade_frame samples frame missing)) out.

(** Reading the ring; a shortfall is counted, skipped in the ring and faded. *)
Definition play_packet (frames log_ms : Z) (out : list Z) (u : usb_output)
    : list Z * usb_output :=
  let available := ns6_transport_available (transport u) in
  let source_step := ns6_clock_control_source_frames_per_output_frame cfg
                       (Some (clock_control (clock u))) available in
  let '(received, _, out, t) :=
    ns6_transport_dequeue_resampled_diagnostic (transport u) out frames source_step in
  let u := set_transport t u in
  let '(out, u) :=
    if received <? frames then
      let missing := frames - received in
      (memcpy out (received * FRAME_BYTES) (replicate (Z.to_nat (missing * FRAME_BYTES)) 0),
       set_transport (ns6_transport_advance_resampled (transport u) missing source_step).2
         (set_underrun (count_underrun missing log_ms (underrun u)) u))
    else (out, u) in
  let u := set_recovery (remember out received (recovery u)) u in
  if (received <? frames) && have_last_recovery_sample (recovery u) then
    (fade out received (frames - received) (last_recovery_sample (recovery u)),
     set_recovery {| last_recovery_sample := last_recovery_sample (recovery u);
                     have_last_recovery_sample := false |} u)
  else (out, u).

(** Three ways to fill a packet: idle, waiting for the prefill, playing. *)
Definition fill_packet (frames log_ms : Z) (out : list Z) (u : usb_output) : list Z * usb_output :=
  if output_paused (gate u) && (ns6_transport_available (transport u) =? 0)
  then idle_packet frames out u
  else if awaiting_audio_prefill (gate u) then
    let startup_frames := ns6_audio_startup_prefill_frames (startup_buffer_frames (gate u))
                            NS6_STARTUP_MIN_PREFILL_FRAMES (cfg_queue_target cfg) in
    if ns6_transport_available (transport u) <? startup_frames
    then (memcpy out 0 (replicate (Z.to_nat (frames * FRAME_BYTES)) 0), set_gate (gate u) u)
    else play_packet frames log_ms out (set_gate (awaiting false (gate u)) u)
  else play_packet frames log_ms out u.

(** ** Filling a transfer *)

Record fill_state := {
  f_usb : usb_output;
  f_data : list Z;
  f_offset : Z;
  f_ms : list Z;
  f_frames : list isoc_frame
}.

(** [stale_ms] and [log_ms] are the readings of the clock for a packet. *)
Definition fill_step (stale_ms log_ms : Z → Z) (packet : Z) (f : fill_state) : fill_state :=
  let c := reset_stale_feedback (stale_ms packet) (clock (f_usb f)) in
  let '(ms, c) := schedule_packet packet (f_ms f) c in
  let frames := rd ms (packet mod 8) in
  let old := rd (f_frames f) packet in
  let entry := {| frReqCount := u16 (frames * FRAME_BYTES); frActCount := 0; frStatus := 0;
                  frTimeStamp_hi := frTimeStamp_hi old; frTimeStamp_lo := frTimeStamp_lo old |} in
  let off := Z.to_nat (f_offset f) in
  let '(out, u) := fill_packet frames (log_ms packet) (drop off (f_data f)) (set_clock c (f_usb f)) in
  {| f_usb := u; f_data := take off (f_data f) ++ out;
     f_offset := f_offset f + frames * FRAME_BYTES; f_ms := ms;
     f_frames := wr (f_frames f) packet entry |}.

Definition requested_frames (fs : list isoc_frame) : Z :=
  for_loop (Z.to_nat PACKETS) 0 (λ p n, n +₃₂ frReqCount (rd fs p) / FRAME_BYTES) 0.

Definition measure_level (bytes : list Z) (frames : Z) (u : usb_output) : usb_output :=
  let level := ns6_pcm24_measure bytes frames in
  {| transport := transport u; clock := clock u; gate := gate u; recovery := recovery u;
     underrun := underrun u;
     output_pcm_peak := zip_with update_max (output_pcm_peak u) (peak level);
     output_pcm_nonzero_frames := output_pcm_nonzero_frames u +₆₄ nonzero_frames level |}.

Definition set_buffers (fs : list isoc_frame) (bytes : list Z) (s : slot) : slot :=
  {| slot_frames := fs; data := bytes; consecutive_errors := consecutive_errors s;
     callback_ns := callback_ns s; last_prefill_ns := last_prefill_ns s;
     last_fill_ns := last_fill_ns s; last_fill_cpu_ns := last_fill_cpu_ns s;
     last_submit_ns := last_submit_ns s; last_submit_cpu_ns := last_submit_cpu_ns s |}.

(** [millisecond_frames] is set by the first packet, so its initial value is not used. *)
Definition fill_loop (stale_ms log_ms : Z → Z) (s : slot) (u : usb_output) : fill_state :=
  for_loop (Z.to_nat PACKETS) 0 (fill_step stale_ms log_ms)
    {| f_usb := u; f_data := data s; f_offset := 0; f_ms := []; f_frames := slot_frames s |}.

Definition fill (stale_ms log_ms : Z → Z) (s : slot) (u : usb_output) : slot * usb_output :=
  let f := fill_loop stale_ms log_ms s u in
  (set_buffers (f_frames f) (f_data f) s,
   measure_level (f_data f) (requested_frames (f_frames f)) (f_usb f)).
End fill.

(** ** Submitting and completing transfers *)

Record isoc_counters := {
  completed_transfers : Z;
  isoc_transfer_errors : Z;
  isoc_packet_errors : Z;
  isoc_short_packets : Z;
  isoc_short_bytes : Z;
  isoc_60_byte_packets : Z;
  isoc_72_byte_packets : Z;
  isoc_other_size_packets : Z;
  last_packet_log_ms : Z;
  last_packet_status : Z
}.

Record usb_timings := {
  completion_interval : NS6USBTiming;
  completion_dispatch_lag : NS6USBTiming;
  feedback_completion_interval : NS6USBTiming;
  feedback_completion_dispatch_lag : NS6USBTiming;
  callback_pre_fill : NS6USBTiming;
  fill_duration : NS6USBTiming;
  fill_cpu : NS6USBTiming;
  callback_submit : NS6USBTiming;
  submit_api : NS6USBTiming;
  submit_api_cpu : NS6USBTiming
}.

(** [timebase] is the numerator and denominator of [mach_timebase_info]. *)
Record out_worker := {
  running : bool;
  recovery_requested : bool;
  output : usb_output;
  slots : list slot;
  counters : isoc_counters;
  timings : usb_timings;
  timebase : Z * Z
}.

#[export] Instance slot_inhabited : Inhabited slot := populate (Build_slot [] [] 0 0 0 0 0 0 0).

Definition mach_ticks_to_ns (timebase : Z * Z) (ticks : Z) : Z :=
  let '(numer, denom) := timebase in
  if denom =? 0 then 0
  else ((ticks / denom) *₆₄ numer) +₆₄ ((ticks mod denom) *₆₄ numer) / denom.

Definition with_timings (f : usb_timings → usb_timings) (w : out_worker) : out_worker :=
  {| running := running w; recovery_requested := recovery_requested w; output := output w;
     slots := slots w; counters := counters w; timings := f (timings w);
     timebase := timebase w |}.

Definition with_counters (f : isoc_counters → isoc_counters) (w : out_worker) : out_worker :=
  {| running := running w; recovery_requested := recovery_requested w; output := output w;
     slots := slots w; counters := f (counters w); timings := timings w;
     timebase := timebase w |}.

Definition set_slot (i : Z) (s : slot) (w : out_worker) : out_worker :=
  {| running := running w; recovery_requested := recovery_requested w; output := output w;
     slots := wr (slots w) i s; counters := counters w; timings := timings w;
     timebase := timebase w |}.

Definition set_output (u : usb_output) (w : out_worker) : out_worker :=
  {| running := running w; recovery_requested := recovery_requested w; output := u;
     slots := slots w; counters := counters w; timings := timings w; timebase := timebase w |}.

(** The wake-up of the run loop has no state of its own. *)
Definition request_recovery (w : out_worker) : out_worker :=
  {| running := running w; recovery_requested := true; output := output w; slots := slots w;
     counters := counters w; timings := timings w; timebase := timebase w |}.

(** What the system answers during [submit]. *)
Record submit_answers := {
  fill_start : Z;
  fill_cpu_start : Z;
  stale_ms : Z → Z;
  log_ms : Z → Z;
  fill_end : Z;
  fill_cpu_end : Z;
  submit_start : Z;
  submit_cpu_start : Z;
  write_result : Z;
  submit_end : Z;
  submit_cpu_end : Z
}.

Definition elapsed (from to : Z) : Z := if to >=? from then to - from else 0.
Definition cpu_elapsed (from to : Z) : Z :=
  if negb (from =? 0) && (to >=? from) then to - from else 0.
Definition record_cpu (from to : Z) (t : NS6USBTiming) : NS6USBTiming :=
  if negb (from =? 0) && (to >=? from) then ns6_usb_timing_record_duration t (to - from) else t.

Definition submit_slot (a : submit_answers) (s : slot) : slot :=
  {| slot_frames := slot_frames s; data := data s; consecutive_errors := consecutive_errors s;
     callback_ns := 0;
     last_prefill_ns := if negb (callback_ns s =? 0) then elapsed (callback_ns s) (fill_start a) else 0;
     last_fill_ns := elapsed (fill_start a) (fill_end a);
     last_fill_cpu_ns := cpu_elapsed (fill_cpu_start a) (fill_cpu_end a);
     last_submit_ns := elapsed (submit_start a) (submit_end a);
     last_submit_cpu_ns := cpu_elapsed (submit_cpu_start a) (submit_cpu_end a) |}.

Definition submit_timings (a : submit_answers) (callback : Z) (t : usb_timings) : usb_timings :=
  {| completion_interval := completion_interval t;
     completion_dispatch_lag := completion_dispatch_lag t;
     feedback_completion_interval := feedback_completion_interval t;
     feedback_completion_dispatch_lag := feedback_completion_dispatch_lag t;
     callback_pre_fill :=
       if negb (callback =? 0)
       then ns6_usb_timing_record_duration (callback_pre_fill t) (fill_start a -₆₄ callback)
       else callback_pre_fill t;
     fill_duration := ns6_usb_timing_record_duration (fill_duration t) (fill_end a -₆₄ fill_start a);
     fill_cpu := record_cpu (fill_cpu_start a) (fill_cpu_end a) (fill_cpu t);
     callback_submit :=
       if negb (callback =? 0)
       then ns6_usb_timing_record_duration (callback_submit t) (fill_end a -₆₄ callback)
       else callback_submit t;
     submit_api := ns6_usb_timing_record_duration (submit_api t) (submit_end a -₆₄ submit_start a);
     submit_api_cpu := record_cpu (submit_cpu_start a) (submit_cpu_end a) (submit_api_cpu t) |}.

Section transfers.
Context `{IOKitABI}.
Context (cfg : ClockConfig) (idle_keepalive : bool).

(** The state, and the transfer handed to the interface if there is one. *)
Definition submit (a : submit_answers) (i : Z) (w : out_worker)
    : out_worker * option (list isoc_frame * list Z) :=
  if negb (running w) || recovery_requested w then (w, None)
  else
    let s := rd (slots w) i in
    let '(filled, u) := fill cfg idle_keepalive (stale_ms a) (log_ms a) s (output w) in
    let w := set_output u (set_slot i (submit_slot a filled) w) in
    let w := with_timings (submit_timings a (callback_ns s)) w in
    ((if write_result a =? kIOReturnSuccess then w else request_recovery w),
     Some (slot_frames filled, data filled)).

(** What [complete] counts about the packets of a transfer. *)
Record packet_counts := {
  short_bytes : Z;
  short_packets : Z;
  packet_errors : Z;
  packets_60 : Z;
  packets_72 : Z;
  packets_other_size : Z;
  packet_error_status : Z
}.

Definition count_packet (n : packet_counts) (f : isoc_frame) : packet_counts :=
  let req := frReqCount f in
  let failed := negb (frStatus f =? kIOReturnSuccess) in
  let is_short := negb failed && (frActCount f <? req) in
  {| short_bytes := if is_short then short_bytes n +₆₄ (req - frActCount f) else short_bytes n;
     short_packets := if is_short then short_packets n +₃₂ 1 else short_packets n;
     packet_errors := if failed then packet_errors n +₃₂ 1 else packet_errors n;
     packets_60 := if req =? 60 then packets_60 n +₃₂ 1 else packets_60 n;
     packets_72 := if negb (req =? 60) && (req =? 72) then packets_72 n +₃₂ 1 else packets_72 n;
     packets_other_size := if negb (req =? 60) && negb (req =? 72)
                           then packets_other_size n +₃₂ 1 else packets_other_size n;
     packet_error_status := if failed then frStatus f else packet_error_status n |}.

Definition count_packets (fs : list isoc_frame) : packet_counts :=
  foldl count_packet
    {| short_bytes := 0; short_packets := 0; packet_errors := 0; packets_60 := 0; packets_72 := 0;
       packets_other_size := 0; packet_error_status := kIOReturnSuccess |} fs.

(** The counters after a completed transfer; [errors_ms] and [short_ms] are the
    readings of the two log limiters. *)
Definition count_transfer (n : packet_counts) (errors_ms short_ms : Z) (c : isoc_counters)
    : isoc_counters :=
  let failed := negb (packet_errors n =? 0) in
  let is_short := negb (short_packets n =? 0) in
  let log := last_packet_log_ms c in
  let log := if failed then (should_log_once_per_second log errors_ms).2 else log in
  let log := if is_short then (should_log_once_per_second log short_ms).2 else log in
  {| completed_transfers := completed_transfers c +₆₄ 1;
     isoc_transfer_errors := isoc_transfer_errors c;
     isoc_packet_errors := if failed then isoc_packet_errors c +₆₄ packet_errors n
                           else isoc_packet_errors c;
     isoc_short_packets := if is_short then isoc_short_packets c +₆₄ short_packets n
                           else isoc_short_packets c;
     isoc_short_bytes := if is_short then isoc_short_bytes c +₆₄ short_bytes n
                         else isoc_short_bytes c;
     isoc_60_byte_packets := isoc_60_byte_packets c +₆₄ packets_60 n;
     isoc_72_byte_packets := isoc_72_byte_packets c +₆₄ packets_72 n;
     isoc_other_size_packets := isoc_other_size_packets c +₆₄ packets_other_size n;
     last_packet_log_ms := log;
     last_packet_status := if failed then packet_error_status n else last_packet_status c |}.

Definition count_transfer_error (c : isoc_counters) : isoc_counters :=
  {| completed_transfers := completed_transfers c;
     isoc_transfer_errors := isoc_transfer_errors c +₆₄ 1;
     isoc_packet_errors := isoc_packet_errors c; isoc_short_packets := isoc_short_packets c;
     isoc_short_bytes := isoc_short_bytes c; isoc_60_byte_packets := isoc_60_byte_packets c;
     isoc_72_byte_packets := isoc_72_byte_packets c;
     isoc_other_size_packets := isoc_other_size_packets c;
     last_packet_log_ms := last_packet_log_ms c; last_packet_status := last_packet_status c |}.

Definition snapshot_taken (t : NS6USBTiming) : NS6USBTiming := (ns6_usb_timing_take_snapshot t).2.

(** The health report of every 2500th transfer takes all snapshots and clears the levels. *)
Definition health_report (w : out_worker) : out_worker :=
  let u := output w in
  let w := set_output
    {| transport := transport u; clock := clock u; gate := gate u; recovery := recovery u;
       underrun := underrun u; output_pcm_peak := replicate 4 0; output_pcm_nonzero_frames := 0 |} w in
  with_timings
    (λ t, {| completion_interval := snapshot_taken (completion_interval t);
             completion_dispatch_lag := snapshot_taken (completion_dispatch_lag t);
             feedback_completion_interval := snapshot_taken (feedback_completion_interval t);
             feedback_completion_dispatch_lag := snapshot_taken (feedback_completion_dispatch_lag t);
             callback_pre_fill := snapshot_taken (callback_pre_fill t);
             fill_duration := snapshot_taken (fill_duration t);
             fill_cpu := snapshot_taken (fill_cpu t);
             callback_submit := snapshot_taken (callback_submit t);
             submit_api := snapshot_taken (submit_api t);
             submit_api_cpu := snapshot_taken (submit_api_cpu t) |}) w.

(** The duration [callback_ticks] lags behind the newest frame of a transfer. *)
Definition record_lag (timebase : Z * Z) (fs : list isoc_frame) (callback_ticks : Z)
    (t : NS6USBTiming) : NS6USBTiming :=
  match ns6_usb_frame_timestamp_callback_lag_ticks (ns6_usb_frame_timestamp_range (Some fs))
          callback_ticks with
  | Some lag => if negb (snd timebase =? 0)
                then ns6_usb_timing_record_duration t (mach_ticks_to_ns timebase lag) else t
  | None => t
  end.

Definition record_completion (ns : Z) (t : usb_timings) : usb_timings :=
  {| completion_interval := ns6_usb_timing_record (completion_interval t) ns;
     completion_dispatch_lag := completion_dispatch_lag t;
     feedback_completion_interval := feedback_completion_interval t;
     feedback_completion_dispatch_lag := feedback_completion_dispatch_lag t;
     callback_pre_fill := callback_pre_fill t; fill_duration := fill_duration t;
     fill_cpu := fill_cpu t; callback_submit := callback_submit t; submit_api := submit_api t;
     submit_api_cpu := submit_api_cpu t |}.

Definition record_dispatch_lag (timebase : Z * Z) (fs : list isoc_frame) (ticks : Z)
    (t : usb_timings) : usb_timings :=
  {| completion_interval := completion_interval t;
     completion_dispatch_lag := record_lag timebase fs ticks (completion_dispatch_lag t);
     feedback_completion_interval := feedback_completion_interval t;
     feedback_completion_dispatch_lag := feedback_completion_dispatch_lag t;
     callback_pre_fill := callback_pre_fill t; fill_duration := fill_duration t;
     fill_cpu := fill_cpu t; callback_submit := callback_submit t; submit_api := submit_api t;
     submit_api_cpu := submit_api_cpu t |}.

Definition called_back (ns errors : Z) (s : slot) : slot :=
  {| slot_frames := slot_frames s; data := data s; consecutive_errors := errors;
     callback_ns := ns; last_prefill_ns := last_prefill_ns s; last_fill_ns := last_fill_ns s;
     last_fill_cpu_ns := last_fill_cpu_ns s; last_submit_ns := last_submit_ns s;
     last_submit_cpu_ns := last_submit_cpu_ns s |}.

(** What the system answers during [complete]. *)
Record complete_answers := {
  callback_ticks : Z;
  now_ns : Z;
  errors_ms : Z;
  short_ms : Z;
  resubmit : submit_answers
}.

Definition complete (a : complete_answers) (i status : Z) (w : out_worker)
    : out_worker * option (list isoc_frame * list Z) :=
  if negb (running w) || recovery_requested w then (w, None)
  else
    let s := rd (slots w) i in
    let w := with_timings (record_completion (now_ns a)) w in
    if negb (status =? kIOReturnSuccess) then
      let errors := consecutive_errors s +₃₂ 1 in
      let w := with_counters count_transfer_error (set_slot i (called_back (now_ns a) errors s) w) in
      if errors >=? 3 then (request_recovery w, None) else submit (resubmit a) i w
    else
      let w := set_slot i (called_back (now_ns a) 0 s) w in
      let w := with_timings
                 (record_dispatch_lag (timebase w) (slot_frames s) (callback_ticks a)) w in
      let w := with_counters
                 (count_transfer (count_packets (slot_frames s)) (errors_ms a) (short_ms a)) w in
      let w := if completed_transfers (counters w) mod 2500 =? 0 then health_report w else w in
      submit (resubmit a) i w.
End transfers.
