(* ===== verification/UsbTheory.v ===== *)
(** * Theorems on the isochronous output

    Where a packet writes, what a transfer looks like, which bytes a playing
    packet carries, and when errors lead to recovery. *)

From stdpp Require Import base list numbers tactics.
From Stdlib Require Import ZArith Lia ZifyBool.
From S2P Require Import Prelude Float Rounding Pcm Transport TransportQueue TransportMix TransportResample.
From S2P Require Import ClockControl ClockTheory MidiReads Policies Timing UsbOutput.

(** ** Writes stay inside the packet *)

(** [out'] is [out] with its first [n] bytes replaced. *)
Definition within (n : nat) (out out' : list Z) : Prop :=
  length out' = length out ∧ drop n out' = drop n out.

Lemma within_refl n out : within n out out.
Proof. done. Qed.

Lemma within_trans n a b c : within n a b → within n b c → within n a c.
Proof. intros [H1 H2] [H3 H4]. split; congruence. Qed.

Lemma within_le m n a b : (m <= n)%nat → within m a b → within n a b.
Proof.
  intros Hmn [H1 H2]. split; [done|].
  replace n with (m + (n - m))%nat by lia. by rewrite <- !drop_drop, H2.
Qed.

Lemma within_memcpy n (out src : list Z) off :
  0 <= off → (Z.to_nat off + length src <= n)%nat → within n out (memcpy out off src).
Proof.
  intros Hoff Hn. split; [apply length_memcpy|]. apply list_eq. intros i. rewrite !lookup_drop.
  unfold memcpy. apply list_lookup_inserts_ge. lia.
Qed.

Lemma within_wr n (out : list Z) i v : 0 <= i → i < Z.of_nat n → within n out (wr out i v).
Proof.
  intros H0 Hi. split; [apply length_wr|]. apply list_eq. intros j. rewrite !lookup_drop.
  unfold wr. apply list_lookup_insert_ne. lia.
Qed.

Lemma within_for_loop n m i (body : Z → list Z → list Z) out :
  (∀ k o, i <= k < i + Z.of_nat m → within n o (body k o)) → within n out (for_loop m i body out).
Proof.
  intros Hb. apply (for_loop_ind (λ _ o, within n out o)); [apply within_refl|].
  intros k o Hk Ho. eapply within_trans; [exact Ho|by apply Hb].
Qed.

#[export] Hint Resolve within_refl : ns6.

Lemma idle_within frames out b :
  0 <= frames → within (Z.to_nat (12 * frames)) out (ns6_fill_idle_pcm out 0 frames b).
Proof.
  intros Hf. unfold ns6_fill_idle_pcm.
  assert (within (Z.to_nat (12 * frames)) out (memcpy out 0 (replicate (Z.to_nat (frames * 12)) 0))) as H
    by (apply within_memcpy; rewrite ?length_replicate; lia).
  destruct (negb b); [done|]. eapply within_trans; [exact H|].
  apply within_for_loop. intros k o Hk. apply within_for_loop. intros j o' Hj.
  apply within_wr; lia.
Qed.

Lemma dequeue_loop_within s cursor e rate n produced phase out :
  0 <= produced →
  let '(p, _, out', _) := dequeue_loop s cursor e rate n produced phase out in
  produced <= p <= produced + Z.of_nat n ∧ within (Z.to_nat (12 * (produced + Z.of_nat n))) out out'.
Proof.
  revert produced phase out. induction n as [|n IH]; intros produced phase out Hp; cbn [dequeue_loop].
  { split; [lia|apply within_refl]. }
  repeat (case_if; [split; [lia|apply within_refl]|]).
  match goal with |- context [dequeue_loop _ _ _ _ n (produced + 1) ?ph ?o] =>
    specialize (IH (produced + 1) ph o ltac:(lia));
    destruct (dequeue_loop s cursor e rate n (produced + 1) ph o) as [[[p ph'] out'] st] end.
  destruct IH as [Hb Hw]. split; [lia|].
  replace (produced + 1 + Z.of_nat n) with (produced + Z.of_nat (S n)) in Hw by lia.
  eapply within_trans; [|exact Hw]. apply within_memcpy; unfold USB_FRAME_BYTES; [lia|].
  unfold interpolate_frame. rewrite !length_app, !length_pack24. lia.
Qed.

Lemma dequeue_within t out frames step :
  0 <= frames →
  let '(received, _, out', _) := ns6_transport_dequeue_resampled_diagnostic t out frames step in
  0 <= received <= frames ∧ within (Z.to_nat (12 * frames)) out out'.
Proof.
  intros Hf. unfold ns6_transport_dequeue_resampled_diagnostic, finish_dequeue,
    ns6_transport_dequeue_resampled_shared_diagnostic.
  destruct (active t) as [s r]. cbn [fst snd].
  destruct (_ || _); cbn [dq_produced dq_output default]; [split; [lia|apply within_refl]|].
  pose proof (dequeue_loop_within s (read_cursor s) (high_water s) (clamp_rate step)
    (Z.to_nat frames) 0 (read_fraction r) out ltac:(lia)) as H.
  destruct (dequeue_loop s _ _ _ _ _ _ _) as [[[p ph] out'] st].
  cbn [dq_produced dq_output default]. rewrite Z.add_0_l, Z2Nat.id in H by lia. exact H.
Qed.

Lemma length_fade_frame samples frame missing :
  length (fade_frame samples frame missing) = (3 * length samples)%nat.
Proof.
  unfold fade_frame. induction samples as [|v l IH]; [done|].
  cbn [map concat]. rewrite length_app, IH. cbn [pack_pcm24 length]. lia.
Qed.

Lemma fade_within n out received missing samples :
  0 <= received → 0 <= missing → length samples = 4%nat → (12 * (received + missing) <= Z.of_nat n) →
  within n out (fade out received missing samples).
Proof.
  intros Hr Hm Hl Hn. apply within_for_loop. intros k o Hk.
  apply within_memcpy; unfold FRAME_BYTES; [lia|]. rewrite length_fade_frame. lia.
Qed.

Lemma length_remember out received r :
  length (last_recovery_sample r) = 4%nat → length (last_recovery_sample (remember out received r)) = 4%nat.
Proof. intros. unfold remember. by destruct (_ =? 0). Qed.

(** What every packet keeps about the state. *)
Record packet_frame (u u' : usb_output) : Prop := {
  pf_clock : clock u' = clock u;
  pf_recovery : length (last_recovery_sample (recovery u)) = 4%nat →
                length (last_recovery_sample (recovery u')) = 4%nat;
  pf_peak : output_pcm_peak u' = output_pcm_peak u;
  pf_paused : output_paused (gate u') = output_paused (gate u)
}.

Section packet.
Context (cfg : ClockConfig) (idle_keepalive : bool).

Lemma play_packet_within frames log out u :
  0 <= frames → length (last_recovery_sample (recovery u)) = 4%nat →
  let '(out', u') := play_packet cfg frames log out u in
  within (Z.to_nat (12 * frames)) out out' ∧ packet_frame u u'.
Proof.
  intros Hf Hl. unfold play_packet.
  set (step := ns6_clock_control_source_frames_per_output_frame cfg _ _).
  pose proof (dequeue_within (transport u) out frames step Hf) as Hd.
  destruct (ns6_transport_dequeue_resampled_diagnostic _ _ _ _) as [[[received st] out1] t].
  destruct Hd as [Hr Hw]. destruct (Z.ltb_spec received frames) as [Hlt|Hge]; cbn [andb].
  - set (out2 := memcpy out1 _ _).
    assert (within (Z.to_nat (12 * frames)) out out2) as Hw2.
    { eapply within_trans; [exact Hw|]. apply within_memcpy; unfold FRAME_BYTES; [lia|].
      rewrite length_replicate. lia. }
    cbn [set_recovery recovery set_transport set_underrun].
    pose proof (length_remember out2 received (recovery u) Hl) as Hl'.
    destruct (have_last_recovery_sample _).
    + split; [|constructor; cbn; done].
      eapply within_trans; [exact Hw2|]. apply fade_within; [lia|lia|exact Hl'|lia].
    + split; [exact Hw2|]. constructor; cbn; done.
  - split; [exact Hw|]. constructor; cbn; try done. intros _. by apply length_remember.
Qed.

Lemma fill_packet_within frames log out u :
  0 <= frames → length (last_recovery_sample (recovery u)) = 4%nat →
  let '(out', u') := fill_packet cfg idle_keepalive frames log out u in
  within (Z.to_nat (12 * frames)) out out' ∧ packet_frame u u'.
Proof.
  intros Hf Hl. unfold fill_packet.
  destruct (_ && _). { cbn. split; [by apply idle_within|]. by constructor. }
  destruct (awaiting_audio_prefill (gate u)); [|by apply play_packet_within].
  destruct (_ <? _).
  - split; [|by constructor]. apply within_memcpy; rewrite ?length_replicate; unfold FRAME_BYTES; lia.
  - pose proof (play_packet_within frames log out (set_gate (awaiting false (gate u)) u) Hf Hl) as H.
    destruct (play_packet _ _ _ _ _) as [out' u']. destruct H as [Hw [H1 H2 H3 H4]].
    split; [exact Hw|]. by constructor.
Qed.
End packet.

(** ** The layout of a transfer *)

(** A packet of five or six frames, with the device's fields cleared. *)
Definition packet_ok (f : isoc_frame) : Prop :=
  (frReqCount f = 60 ∨ frReqCount f = 72) ∧ frActCount f = 0 ∧ frStatus f = 0.

Definition good_ms (ms : list Z) : Prop := length ms = 8%nat ∧ Forall (λ p, 5 <= p <= 6) ms.

(** The frames scheduled for the rest of the current millisecond. *)
Definition rest (k : Z) (ms : list Z) : Z :=
  if k mod 8 =? 0 then 0 else sum_list (drop (Z.to_nat (k mod 8)) ms).

Section layout.
Context (cfg : ClockConfig) (idle_keepalive : bool) (stale log : Z → Z).
Context (s : slot) (u : usb_output).

(** No report grows stale while the transfer is filled. *)
Definition fresh : Prop := ∀ p, stale p <= feedback_last_valid_ms (clock u) + 2000.

Record fill_inv (k : Z) (f : fill_state) : Prop := {
  fi_data : length (f_data f) = length (data s);
  fi_clock : schedule_wf (clock_control (clock (f_usb f)));
  fi_recovery : length (last_recovery_sample (recovery (f_usb f))) = 4%nat;
  fi_ms : k mod 8 = 0 ∨ good_ms (f_ms f);
  fi_frames : length (f_frames f) = 32%nat;
  fi_packets : Forall packet_ok (take (Z.to_nat k) (f_frames f));
  fi_offset : f_offset f = sum_list (frReqCount <$> take (Z.to_nat k) (f_frames f));
  fi_range : 60 * k <= f_offset f <= 72 * k ∧ f_offset f mod 12 = 0;
  fi_drop : drop (Z.to_nat (f_offset f)) (f_data f) = drop (Z.to_nat (f_offset f)) (data s);
  fi_sent : fresh →
    feedback_last_valid_ms (clock (f_usb f)) = feedback_last_valid_ms (clock u) ∧
    sent_total (clock_control (clock (f_usb f))) =
      u64 (sent_total (clock_control (clock u)) + f_offset f / 12 + rest k (f_ms f))
}.

Lemma reset_stale_wf now c :
  schedule_wf (clock_control c) → schedule_wf (clock_control (reset_stale_feedback now c)).
Proof.
  intros Hc. unfold reset_stale_feedback. destruct (_ && _); [|done].
  destruct (ns6_feedback_elapsed_ms _ _); [|done]. destruct (_ >? 2000); [|done].
  apply (step_schedule cfg (clock_control c) ResetFeedback Hc).
Qed.

Lemma reset_stale_fresh now c :
  now <= feedback_last_valid_ms c + 2000 → reset_stale_feedback now c = c.
Proof.
  intros Hn. unfold reset_stale_feedback. destruct (_ && _); [|done].
  unfold ns6_feedback_elapsed_ms. destruct (_ || _); [done|].
  destruct (Z.gtb_spec (now - feedback_last_valid_ms c) 2000); [lia|done].
Qed.

Lemma rest_step k ms :
  0 <= k → k mod 8 ≠ 0 → good_ms ms → rest k ms = rd ms (k mod 8) + rest (k + 1) ms.
Proof.
  intros H0 Hk [Hl _]. pose proof (Z.mod_pos_bound k 8 ltac:(lia)) as Hb.
  unfold rest at 1. replace (k mod 8 =? 0) with false by lia.
  destruct (lookup_lt_is_Some_2 ms (Z.to_nat (k mod 8)) ltac:(lia)) as [x Hx].
  rewrite (drop_S _ _ _ Hx), sum_list_cons. unfold rd. rewrite (list_lookup_total_correct _ _ _ Hx).
  f_equal. unfold rest. destruct (Z.eqb_spec ((k + 1) mod 8) 0) as [E|E].
  - replace (k mod 8) with 7 by (Z.div_mod_to_equations; lia). by rewrite drop_ge by (rewrite Hl; lia).
  - do 2 f_equal. Z.div_mod_to_equations. lia.
Qed.

Lemma schedule_step k ms c :
  0 <= k → schedule_wf (clock_control c) → k mod 8 = 0 ∨ good_ms ms →
  let '(ms', c') := schedule_packet cfg k ms c in
  good_ms ms' ∧ schedule_wf (clock_control c') ∧
  feedback_last_valid_ms c' = feedback_last_valid_ms c ∧
  ∀ z, sent_total (clock_control c) = u64 (z + rest k ms) →
       sent_total (clock_control c') = u64 (z + rd ms' (k mod 8) + rest (k + 1) ms').
Proof.
  intros H0 Hc Hms. unfold schedule_packet. destruct (Z.eqb_spec (k mod 8) 0) as [E|E].
  - destruct (next_spec cfg _ Hc) as (ps & fr & a & b & r & q & -> & (Hl & Hp & Hs) & _ & Hwf & _).
    split; [by split|]. split; [exact Hwf|]. split; [done|]. intros z Hz.
    cbn [clock_control set_schedule sent_total]. rewrite Hz, <- Hs. unfold rest at 1.
    rewrite E. cbn [Z.eqb]. rewrite Z.add_0_r. unfold u64. rewrite Zplus_mod_idemp_l. f_equal.
    rewrite <- Z.add_assoc. f_equal. unfold rest.
    replace ((k + 1) mod 8) with 1 by (Z.div_mod_to_equations; lia).
    destruct ps as [|x ps]; [done|]. by rewrite sum_list_cons.
  - destruct Hms as [|Hms]; [done|]. split; [done|]. split; [done|]. split; [done|].
    intros z ->. rewrite (rest_step k ms H0 E Hms). f_equal. lia.
Qed.

Lemma take_wr_S (fs : list isoc_frame) k e :
  0 <= k < Z.of_nat (length fs) →
  take (Z.to_nat (k + 1)) (wr fs k e) = take (Z.to_nat k) fs ++ [e].
Proof.
  intros Hk. unfold wr. replace (Z.to_nat (k + 1)) with (S (Z.to_nat k)) by lia.
  rewrite (take_S_r _ _ e) by (apply list_lookup_insert_eq; lia).
  by rewrite take_insert_ge by lia.
Qed.

Lemma fill_step_inv k f :
  (2304 <= length (data s))%nat → 0 <= k < 32 → fill_inv k f →
  fill_inv (k + 1) (fill_step cfg idle_keepalive stale log k f).
Proof.
  intros Hlen Hk [Hd Hc Hr Hms Hf Hp Ho [Hrg Hmod] Hdrop Hsent]. unfold fill_step.
  set (c0 := reset_stale_feedback (stale k) (clock (f_usb f))).
  assert (schedule_wf (clock_control c0)) as Hc0 by by apply reset_stale_wf.
  pose proof (schedule_step k (f_ms f) c0 ltac:(lia) Hc0 Hms) as Hs.
  destruct (schedule_packet cfg k (f_ms f) c0) as [ms c1]. destruct Hs as (Hg & Hc1 & Hv & Hst).
  set (n := rd ms (k mod 8)) in *.
  assert (5 <= n <= 6) as Hn.
  { pose proof (Z.mod_pos_bound k 8 ltac:(lia)). destruct Hg as [Hgl Hgf].
    rewrite Forall_lookup in Hgf. apply (Hgf (Z.to_nat (k mod 8))).
    apply list_lookup_lookup_total_lt. lia. }
  set (off := Z.to_nat (f_offset f)).
  pose proof (fill_packet_within cfg idle_keepalive n (log k) (drop off (f_data f))
    (set_clock c1 (f_usb f)) ltac:(lia) Hr) as Hw.
  destruct (fill_packet _ _ _ _ _ _) as [out u']. destruct Hw as [[Hwl Hwd] [Ec Hrec _ _]].
  cbn [set_clock clock recovery] in *.
  assert (u16 (n * FRAME_BYTES) = n * 12) as Eu by (unfold u16, FRAME_BYTES; rewrite Z.mod_small; lia).
  rewrite Eu. unfold FRAME_BYTES. rewrite length_drop in Hwl.
  assert (length (take off (f_data f)) = off) as Ht by (rewrite length_take; lia).
  constructor; cbn [f_data f_usb f_ms f_frames f_offset].
  - rewrite length_app, Ht. lia.
  - by rewrite Ec.
  - by apply Hrec.
  - by right.
  - by rewrite length_wr.
  - rewrite take_wr_S by lia. apply Forall_app. split; [done|].
    constructor; [|constructor]. split; [cbn; lia|done].
  - rewrite take_wr_S by lia. rewrite fmap_app, sum_list_app, <- Ho. cbn. lia.
  - split; [lia|]. Z.div_mod_to_equations. lia.
  - rewrite drop_app_ge by lia. rewrite Ht.
    replace (Z.to_nat (f_offset f + n * 12) - off)%nat with (Z.to_nat (12 * n)) by lia.
    rewrite Hwd, drop_drop.
    replace (Z.to_nat (f_offset f + n * 12)) with (off + Z.to_nat (12 * n))%nat by lia.
    rewrite <- !drop_drop. unfold off. by rewrite Hdrop.
  - intros Hfr. destruct (Hsent Hfr) as [Hl Hse]. rewrite Ec.
    assert (c0 = clock (f_usb f)) as E0 by (apply reset_stale_fresh; rewrite Hl; apply Hfr).
    rewrite E0 in *. split; [by rewrite Hv|]. rewrite (Hst _ Hse). f_equal.
    rewrite Z.div_add by lia. lia.
Qed.

Lemma fill_loop_inv :
  schedule_wf (clock_control (clock u)) → is_u64 (sent_total (clock_control (clock u))) →
  length (last_recovery_sample (recovery u)) = 4%nat →
  length (slot_frames s) = 32%nat → (2304 <= length (data s))%nat →
  fill_inv 32 (fill_loop cfg idle_keepalive stale log s u).
Proof.
  intros Hc Hu Hr Hf Hd. apply (for_loop_ind fill_inv (Z.to_nat PACKETS) 0).
  - constructor; cbn [f_data f_usb f_ms f_frames f_offset]; try done; [by left|].
    intros _. split; [done|]. unfold rest. change (0 mod 8 =? 0) with true. change (0 / 12) with 0.
    rewrite !Z.add_0_r. symmetry. by apply u64_id.
  - intros k f Hk. apply fill_step_inv; [exact Hd|exact Hk].
Qed.
End layout.

(** What the invariant says of the finished transfer. *)
Lemma fill_inv_done stale s u f :
  length (data s) = Z.to_nat (PACKETS * MAX_PACKET) → fill_inv stale s u 32 f →
  let s' := set_buffers (f_frames f) (f_data f) s in
  let u' := measure_level (f_data f) (requested_frames (f_frames f)) (f_usb f) in
  let total := sum_list (frReqCount <$> slot_frames s') in
  length (slot_frames s') = Z.to_nat PACKETS ∧ Forall packet_ok (slot_frames s') ∧
  length (data s') = Z.to_nat (PACKETS * MAX_PACKET) ∧
  1920 <= total <= 2304 ∧
  drop (Z.to_nat total) (data s') = drop (Z.to_nat total) (data s) ∧
  schedule_wf (clock_control (clock u')) ∧
  length (last_recovery_sample (recovery u')) = 4%nat ∧
  (fresh stale u → sent_total (clock_control (clock u')) =
                   sent_total (clock_control (clock u)) +₆₄ total / 12).
Proof.
  intros Hd [Id Ic Ir _ If Ip Io [Irg _] Idr Is].
  cbn [set_buffers slot_frames data measure_level clock recovery].
  assert (take (Z.to_nat 32) (f_frames f) = f_frames f) as Et by (apply take_ge; rewrite If; lia).
  rewrite Et in Ip, Io. rewrite <- Io.
  split; [exact If|]. split; [exact Ip|]. split; [by rewrite Id|]. split; [lia|].
  split; [exact Idr|]. split; [exact Ic|]. split; [exact Ir|]. intros Hfr.
  destruct (Is Hfr) as [_ ->]. unfold rest. change (32 mod 8 =? 0) with true.
  by rewrite Z.add_0_r.
Qed.

(** Every transfer the worker prepares is well formed, whatever the gate, the ring,
    the clock readings and the compile-time switches are: it has 32 packets of 60 or 72
    bytes with cleared device fields, its buffer keeps its size, the bytes after the
    requested total are not written, the clock and the recovery sample stay well formed,
    and, when no report grows stale meanwhile, the clock's counter of sent frames grows by
    exactly the frames requested. *)
Theorem transfer_is_well_formed cfg idle_keepalive stale log s u :
  schedule_wf (clock_control (clock u)) → is_u64 (sent_total (clock_control (clock u))) →
  length (last_recovery_sample (recovery u)) = 4%nat →
  length (slot_frames s) = Z.to_nat PACKETS →
  length (data s) = Z.to_nat (PACKETS * MAX_PACKET) →
  let '(s', u') := fill cfg idle_keepalive stale log s u in
  let total := sum_list (frReqCount <$> slot_frames s') in
  length (slot_frames s') = Z.to_nat PACKETS ∧ Forall packet_ok (slot_frames s') ∧
  length (data s') = Z.to_nat (PACKETS * MAX_PACKET) ∧
  1920 <= total <= 2304 ∧
  drop (Z.to_nat total) (data s') = drop (Z.to_nat total) (data s) ∧
  schedule_wf (clock_control (clock u')) ∧
  length (last_recovery_sample (recovery u')) = 4%nat ∧
  (fresh stale u → sent_total (clock_control (clock u')) =
                   sent_total (clock_control (clock u)) +₆₄ total / 12).
Proof.
  intros Hc Hu Hr Hf Hd. unfold fill.
  assert (2304 <= length (data s))%nat as Hd' by (rewrite Hd; unfold PACKETS, MAX_PACKET; lia).
  pose proof (fill_loop_inv cfg idle_keepalive stale log s u Hc Hu Hr Hf Hd') as Hinv.
  revert Hinv. generalize (fill_loop cfg idle_keepalive stale log s u). intros f Hinv.
  exact (fill_inv_done stale s u f Hd Hinv).
Qed.

(** A paused output in front of an empty ring. *)
Definition silent_usb : usb_output :=
  {| transport := {| default_pair := (zero_ring, {| read_fraction := S754_zero false |});
                     bound_pair := None |};
     clock := {| clock_control := ns6_clock_control_init; feedback_last_valid_ms := 0;
                 feedback_stale_resets := 0; feedback_stale_reset_started_ms := 0 |};
     gate := {| output_paused := true; awaiting_audio_prefill := false;
                standby_prime_pending := true; startup_buffer_frames := 256 |};
     recovery := {| last_recovery_sample := [0; 0; 0; 0]; have_last_recovery_sample := false |};
     underrun := {| underrun_frames := 0; underrun_events := 0; underrun_max_burst := 0;
                    last_underrun_log_ms := 0 |};
     output_pcm_peak := [0; 0; 0; 0]; output_pcm_nonzero_frames := 0 |}.

Definition zero_slot : slot :=
  Build_slot (replicate 32 (Build_isoc_frame 0 0 0 0 0)) (replicate 4992 0) 0 0 0 0 0 0 0.

Lemma transfer_is_well_formed_witness :
  let '(s', u') := fill default_config false (λ _, 0) (λ _, 0) zero_slot silent_usb in
  let total := sum_list (frReqCount <$> slot_frames s') in
  length (slot_frames s') = Z.to_nat PACKETS ∧ Forall packet_ok (slot_frames s') ∧
  length (data s') = Z.to_nat (PACKETS * MAX_PACKET) ∧
  1920 <= total <= 2304 ∧
  drop (Z.to_nat total) (data s') = drop (Z.to_nat total) (data zero_slot) ∧
  schedule_wf (clock_control (clock u')) ∧
  length (last_recovery_sample (recovery u')) = 4%nat ∧
  (fresh (λ _, 0) silent_usb → sent_total (clock_control (clock u')) =
                               sent_total (clock_control (clock silent_usb)) +₆₄ total / 12).
Proof.
  apply transfer_is_well_formed;
    [apply schedule_wf_init|cbn; unfold is_u64; lia|reflexivity|reflexivity|reflexivity].
Defined.

(** ** What a playing packet carries *)

(** Consecutive blocks of twelve bytes. *)
Lemma fill_blocks m i (g : Z → list Z) base (A B : list Z) :
  (∀ k, length (g k) = 12%nat) → 0 <= base + i → Z.of_nat (length A) = 12 * (base + i) →
  (12 * m <= length B)%nat →
  for_loop m i (λ k o, memcpy o ((base + k) * 12) (g k)) (A ++ B) =
  A ++ concat (g <$> seqZ i (Z.of_nat m)) ++ drop (12 * m) B.
Proof.
  intros Hg. revert i A B. induction m as [|m IH]; intros i A B Hi HA HB; [done|].
  cbn [for_loop]. rewrite memcpy_app by (rewrite ?Hg; lia). rewrite Hg.
  rewrite IH by (rewrite ?length_app, ?length_drop, ?Hg; lia).
  rewrite (seqZ_cons i (Z.of_nat (S m))) by lia. cbn [fmap list_fmap concat].
  rewrite drop_drop, <- !app_assoc. do 3 f_equal; [|f_equal; lia].
  unfold Z.succ, Z.pred. do 3 f_equal. lia.
Qed.

(** The samples of the last frame of a packet. *)
Definition last_samples (fs : list (list Z)) (r : recovery_sample) : recovery_sample :=
  match list.last fs with
  | Some f => {| last_recovery_sample := map (λ channel, unpack_pcm24 f (channel * 3)) [0; 1; 2; 3];
                 have_last_recovery_sample := true |}
  | None => r
  end.

(** The bytes after the frames received: a fade from the last sample known, or silence. *)
Definition concealed (r : recovery_sample) (missing : Z) : list Z :=
  if have_last_recovery_sample r
  then concat ((λ j, fade_frame (last_recovery_sample r) j missing) <$> seqZ 0 missing)
  else replicate (Z.to_nat (missing * 12)) 0.

Lemma length_concat_audio (fs : list (list Z)) :
  Forall is_frame fs → length (concat fs) = (12 * length fs)%nat.
Proof.
  induction 1 as [|f fs [Hf _] _ IH]; [done|]. cbn [concat length]. rewrite length_app, IH, Hf. lia.
Qed.

Lemma rd_app_mid (A f B : list Z) i :
  0 <= i < Z.of_nat (length f) → rd (A ++ f ++ B) (Z.of_nat (length A) + i) = rd f i.
Proof.
  intros Hi. unfold rd. replace (Z.to_nat (Z.of_nat (length A) + i)) with (length A + Z.to_nat i)%nat by lia.
  rewrite lookup_total_app_r by lia. replace (length A + Z.to_nat i - length A)%nat with (Z.to_nat i) by lia.
  by rewrite lookup_total_app_l by lia.
Qed.

Lemma remember_frames fs B r :
  Forall is_frame fs → remember (concat fs ++ B) (Z.of_nat (length fs)) r = last_samples fs r.
Proof.
  intros Hf. unfold remember, last_samples. destruct fs as [|f fs] using rev_ind; [done|].
  apply Forall_app in Hf as [Hf Hl]. apply Forall_cons_1 in Hl as [[Hl _] _].
  rewrite list.last_snoc, length_app. cbn [length].
  replace (Z.of_nat (length fs + 1) =? 0) with false by lia.
  rewrite concat_app. cbn [concat]. rewrite app_nil_r, <- app_assoc.
  replace (Z.of_nat (length fs + 1) - 1) with (Z.of_nat (length fs)) by lia.
  assert (Z.of_nat (length fs) * FRAME_BYTES = Z.of_nat (length (concat fs))) as ->
    by (rewrite length_concat_audio by done; unfold FRAME_BYTES; lia).
  unfold unpack_pcm24. cbn [map].
  repeat rewrite <- (Z.add_assoc (Z.of_nat (length (concat fs)))).
  rewrite !rd_app_mid by (rewrite Hl; lia). done.
Qed.

Lemma fade_frames fs B missing samples :
  Forall is_frame fs → length samples = 4%nat → 0 <= missing → (12 * missing <= Z.of_nat (length B)) →
  fade (concat fs ++ B) (Z.of_nat (length fs)) missing samples =
  concat fs ++ concat ((λ j, fade_frame samples j missing) <$> seqZ 0 missing) ++
    drop (Z.to_nat (12 * missing)) B.
Proof.
  intros Hf Hs Hm HB. unfold fade, FRAME_BYTES.
  rewrite fill_blocks; [|intros; by rewrite length_fade_frame, Hs|lia| |lia].
  - rewrite Z2Nat.id by lia. do 3 f_equal. lia.
  - rewrite length_concat_audio by done. lia.
Qed.

Lemma resample_is_frames q rate n phase : Forall is_frame (resample q rate n phase).1.1.
Proof.
  revert phase. induction n as [|n IH]; intros phase; [constructor|]. cbn [resample].
  destruct (q !! _); [|constructor]. destruct (q !! _); [|constructor]. cbn [fst].
  constructor; [apply is_frame_pack|apply IH].
Qed.

Lemma length_resample q rate n phase : (length (resample q rate n phase).1.1 <= n)%nat.
Proof.
  revert phase. induction n as [|n IH]; intros phase; [done|]. cbn [resample].
  destruct (q !! _); [|cbn; lia]. destruct (q !! _); [|cbn; lia]. cbn [fst length].
  specialize (IH (d_add phase rate)). lia.
Qed.

Lemma source_step_narrow cfg c n :
  narrow (ns6_clock_control_source_frames_per_output_frame cfg c n).
Proof.
  unfold ns6_clock_control_source_frames_per_output_frame.
  destruct (d_lt _ (d_lit 995 1000)); [vm_compute; reflexivity|].
  destruct (d_lt (d_lit 1005 1000) _); [vm_compute; reflexivity|]. apply d_mul_narrow.
Qed.

Lemma active_set t p : active (set_active t p) = p.
Proof. unfold active, set_active. by destruct (bound_pair t). Qed.

Section playing.
Context (cfg : ClockConfig) (s : NS6TransportShared) (r : NS6TransportReader) (q : list (list Z)).
Hypothesis Hq : queue_rel s q.
Hypothesis Hinit : initialized s = true.
Hypothesis Hfrac : below 0 (read_fraction r).
Hypothesis Hroom : Z.max (high_water s) (read_cursor s) + 131072 <= UINT64_MAX.

(** The read as the entry point returns it. *)
Lemma dequeue_entry t out frames step :
  active t = (s, r) → narrow step → 0 < frames → (12 * frames <= Z.of_nat (length out)) →
  let '(fs, phase, stop) := resample q (clamp_rate step) (Z.to_nat frames) (read_fraction r) in
  let s' := set_read_cursor s (read_cursor s + sf_trunc phase) in
  let r' := {| read_fraction := d_sub phase (d_of_Z (sf_trunc phase)) |} in
  ns6_transport_dequeue_resampled_diagnostic t out frames step =
    (Z.of_nat (length fs), stop, concat fs ++ drop (12 * length fs) out, set_active t (s', r')) ∧
  queue_rel s' (drop (Z.to_nat (sf_trunc phase)) q) ∧ below 0 (read_fraction r') ∧
  0 <= sf_trunc phase <= 32768.
Proof.
  intros Ha Hn Hf Hlen.
  pose proof (dequeue_resamples s q r out frames step Hq Hinit Hfrac Hn Hf ltac:(lia) ltac:(lia)) as H.
  destruct (resample _ _ _ _) as [[fs phase] stop]. cbv zeta in *. destruct H as (E & H).
  split; [|exact H]. unfold ns6_transport_dequeue_resampled_diagnostic, finish_dequeue.
  rewrite Ha. cbn [fst snd]. by rewrite E.
Qed.

(** Skipping the frames that were missing. *)
Lemma advance_entry t (phase step : spec_float) missing :
  let s1 := set_read_cursor s (read_cursor s + sf_trunc phase) in
  let r1 := {| read_fraction := d_sub phase (d_of_Z (sf_trunc phase)) |} in
  active t = (s1, r1) → queue_rel s1 (drop (Z.to_nat (sf_trunc phase)) q) →
  below 0 (read_fraction r1) → 0 <= sf_trunc phase <= 32768 → 0 <= missing <= 6 →
  below 1 (clamp_rate step) →
  let skipped := sf_trunc (d_add (read_fraction r1) (d_mul (d_of_Z missing) (clamp_rate step))) in
  ∃ s' r', active (ns6_transport_advance_resampled t missing step).2 = (s', r') ∧
    queue_rel s' (drop (Z.to_nat (sf_trunc phase + skipped)) q) ∧ below 0 (read_fraction r').
Proof.
  intros s1 r1 Ha Hq1 Hr1 Hp Hm Hs skipped.
  set (phase2 := d_add (read_fraction r1) (d_mul (d_of_Z missing) (clamp_rate step))) in *.
  assert (below 5 phase2) as Hb.
  { apply (d_add_below 4); [lia|by apply (below_mono 0); [lia|]|by apply d_mul_small_below]. }
  pose proof (trunc_below 5 phase2 ltac:(lia) Hb) as Ht. fold skipped in Ht. change (2 ^ 5) with 32 in Ht.
  destruct (qr_wf _ _ Hq) as [_ _ _ [Hc0 _] _].
  assert (Z.max (high_water s1) (read_cursor s1) + 65536 <= UINT64_MAX) as Hroom1
    by (subst s1; cbn; lia).
  unfold ns6_transport_advance_resampled, ns6_transport_advance_resampled_shared.
  rewrite Ha. cbn [fst snd]. replace (initialized s1) with true by done. cbn [negb].
  fold phase2 skipped. rewrite (u64_id skipped) by (unfold is_u64; lia).
  cbn [default snd]. do 2 eexists. rewrite active_set. split; [reflexivity|].
  rewrite (position_eq s1 _ Hq1 Hinit Hroom1) by lia. split.
  - rewrite Z2Nat.inj_add, <- drop_drop by lia. apply (queue_rel_skip s1 _ Hq1 Hinit Hroom1). lia.
  - by apply (fraction_below 5).
Qed.
End playing.

(** The frames of the queue a packet uses up, skipped ones included. *)
Definition consumed (phase step : spec_float) (missing : Z) : Z :=
  let whole := sf_trunc phase in
  if missing =? 0 then whole
  else whole + sf_trunc (d_add (d_sub phase (d_of_Z whole)) (d_mul (d_of_Z missing) step)).

(** The bytes of a packet, [B] being the buffer behind the frames received. *)
Lemma conceal_bytes fs (B : list Z) frames rec u :
  Forall is_frame fs → (Z.of_nat (length fs) <= frames) →
  length (last_recovery_sample rec) = 4%nat →
  (12 * (frames - Z.of_nat (length fs)) <= Z.of_nat (length B)) →
  let n := Z.of_nat (length fs) in
  let missing := frames - n in
  let zeroed := if n <? frames
                then memcpy (concat fs ++ B) (n * FRAME_BYTES)
                       (replicate (Z.to_nat (missing * FRAME_BYTES)) 0)
                else concat fs ++ B in
  let kept := remember zeroed n rec in
  let '(out', u') :=
    if (n <? frames) && have_last_recovery_sample kept
    then (fade zeroed n missing (last_recovery_sample kept),
          set_recovery {| last_recovery_sample := last_recovery_sample kept;
                          have_last_recovery_sample := false |} (set_recovery kept u))
    else (zeroed, set_recovery kept u) in
  out' = concat fs ++ (if missing =? 0 then [] else concealed (last_samples fs rec) missing) ++
         drop (Z.to_nat (12 * missing)) B ∧
  transport u' = transport u ∧ clock u' = clock u ∧ gate u' = gate u ∧ underrun u' = underrun u.
Proof.
  intros Hf Hn Hl HB. cbv zeta. unfold FRAME_BYTES.
  destruct (Z.ltb_spec (Z.of_nat (length fs)) frames) as [Hlt|Hge]; cbn [andb].
  2: { replace (frames - Z.of_nat (length fs) =? 0) with true by lia.
       replace (Z.to_nat (12 * (frames - Z.of_nat (length fs)))) with 0%nat by lia. done. }
  set (missing := frames - Z.of_nat (length fs)) in *.
  replace (missing =? 0) with false by lia.
  assert (memcpy (concat fs ++ B) (Z.of_nat (length fs) * 12) (replicate (Z.to_nat (missing * 12)) 0) =
    concat fs ++ replicate (Z.to_nat (missing * 12)) 0 ++ drop (Z.to_nat (12 * missing)) B) as Ez.
  { rewrite memcpy_app; rewrite ?length_replicate, ?length_concat_audio by done; [|lia..].
    rewrite <- app_assoc. do 3 f_equal. lia. }
  rewrite Ez, remember_frames by done. unfold concealed.
  destruct (have_last_recovery_sample (last_samples fs rec)); [|done].
  split; [|done].
  assert (length (last_recovery_sample (last_samples fs rec)) = 4%nat) as Hl'
    by (unfold last_samples; by destruct (list.last fs)).
  rewrite fade_frames; [|done|done|lia|rewrite length_app, length_replicate, length_drop; lia].
  do 2 f_equal. rewrite drop_app_ge by (rewrite length_replicate; lia).
  rewrite length_replicate.
  replace (Z.to_nat (12 * missing) - Z.to_nat (missing * 12))%nat with 0%nat by lia. done.
Qed.

Lemma play_packet_plays cfg frames log out u s r q :
  active (transport u) = (s, r) → queue_rel s q → initialized s = true →
  below 0 (read_fraction r) → Z.max (high_water s) (read_cursor s) + 131072 <= UINT64_MAX →
  length (last_recovery_sample (recovery u)) = 4%nat →
  1 <= frames <= 6 → 12 * frames <= Z.of_nat (length out) →
  let step := clamp_rate (ns6_clock_control_source_frames_per_output_frame cfg
                (Some (clock_control (clock u))) (Z.of_nat (length q))) in
  let '(fs, phase, _) := resample q step (Z.to_nat frames) (read_fraction r) in
  let missing := frames - Z.of_nat (length fs) in
  let '(out', u') := play_packet cfg frames log out u in
  out' = concat fs ++ (if missing =? 0 then [] else concealed (last_samples fs (recovery u)) missing)
           ++ drop (Z.to_nat (12 * frames)) out ∧
  underrun u' = (if missing =? 0 then underrun u else count_underrun missing log (underrun u)) ∧
  clock u' = clock u ∧ gate u' = gate u ∧
  ∃ s' r', active (transport u') = (s', r') ∧
    queue_rel s' (drop (Z.to_nat (consumed phase step missing)) q) ∧ below 0 (read_fraction r').
Proof.
  intros Ha Hq Hi Hfr Hroom Hl Hf Hlen. cbv zeta. unfold play_packet.
  assert (ns6_transport_available (transport u) = Z.of_nat (length q)) as ->
    by (unfold ns6_transport_available; rewrite Ha; by apply available_of_queue).
  set (step := ns6_clock_control_source_frames_per_output_frame _ _ _).
  assert (narrow step) as Hn by apply source_step_narrow. clearbody step.
  pose proof (dequeue_entry s r q Hq Hi Hfr Hroom (transport u) out frames step Ha Hn ltac:(lia) Hlen) as Hd.
  pose proof (resample_is_frames q (clamp_rate step) (Z.to_nat frames) (read_fraction r)) as Hfs.
  pose proof (length_resample q (clamp_rate step) (Z.to_nat frames) (read_fraction r)) as Hle.
  destruct (resample _ _ _ _) as [[fs phase] stop]. cbv zeta in Hd. destruct Hd as (-> & Hq1 & Hr1 & Ht).
  cbn [fst] in Hfs, Hle. set (n := Z.of_nat (length fs)) in *.
  set (t1 := set_active (transport u) _). set (B := drop (12 * length fs) out).
  pose proof (conceal_bytes fs B frames (recovery u)
    (if n <? frames then
       set_transport (ns6_transport_advance_resampled t1 (frames - n) step).2
         (set_underrun (count_underrun (frames - n) log (underrun u)) (set_transport t1 u))
     else set_transport t1 u) Hfs ltac:(lia) Hl ltac:(subst B; rewrite length_drop; lia)) as Hb.
  cbv zeta in Hb. fold n in Hb. unfold consumed.
  assert (drop (Z.to_nat (12 * (frames - n))) B = drop (Z.to_nat (12 * frames)) out) as EB
    by (subst B; rewrite drop_drop; f_equal; lia).
  rewrite EB in Hb. clearbody B.
  destruct (Z.ltb_spec n frames) as [Hlt|Hge].
  - replace (frames - n =? 0) with false in * by lia.
    cbn [set_transport set_underrun recovery underrun transport] in *.
    destruct (advance_entry s q Hq Hi Hroom t1 phase step (frames - n) (active_set _ _) Hq1 Hr1 Ht
      ltac:(lia) (clamp_rate_below _ Hn)) as (s2 & r2 & E2 & Hq2 & Hr2).
    destruct (if _ && _ then _ else _) as [out' u']. destruct Hb as (E1 & Et & Ec & Eg & Eu).
    split; [exact E1|]. split; [exact Eu|]. split; [exact Ec|]. split; [exact Eg|].
    exists s2, r2. rewrite Et. done.
  - replace (frames - n =? 0) with true in * by lia. cbn [set_transport recovery andb] in *.
    destruct Hb as (E1 & Et & Ec & Eg & Eu).
    split; [exact E1|]. split; [exact Eu|]. split; [exact Ec|]. split; [exact Eg|].
    eexists _, _. rewrite Et. split; [apply active_set|]. done.
Qed.

(** A packet of an unpaused (or still draining) output plays the ring.  With a ring
    that represents [q] and a phase of at most one, a packet of at most six frames carries
    the frames of [q] resampled at the clock's step, followed, when they do not suffice, by
    a fade from the last sample known or by silence; nothing behind the packet is written.
    The shortfall is what the underrun counters grow by, the ring goes on with the frames
    not used up, and with more than 128 frames queued there is no shortfall. *)
Theorem packet_plays_queue cfg idle_keepalive frames log out u s r q :
  active (transport u) = (s, r) → queue_rel s q → initialized s = true →
  below 0 (read_fraction r) → Z.max (high_water s) (read_cursor s) + 131072 <= UINT64_MAX →
  awaiting_audio_prefill (gate u) = false → output_paused (gate u) = false ∨ q ≠ [] →
  length (last_recovery_sample (recovery u)) = 4%nat →
  1 <= frames <= 6 → 12 * frames <= Z.of_nat (length out) →
  let step := clamp_rate (ns6_clock_control_source_frames_per_output_frame cfg
                (Some (clock_control (clock u))) (Z.of_nat (length q))) in
  let '(fs, phase, _) := resample q step (Z.to_nat frames) (read_fraction r) in
  let missing := frames - Z.of_nat (length fs) in
  let '(out', u') := fill_packet cfg idle_keepalive frames log out u in
  (128 < Z.of_nat (length q) → missing = 0) ∧
  out' = concat fs ++ (if missing =? 0 then [] else concealed (last_samples fs (recovery u)) missing)
           ++ drop (Z.to_nat (12 * frames)) out ∧
  underrun u' = (if missing =? 0 then underrun u else count_underrun missing log (underrun u)) ∧
  clock u' = clock u ∧ gate u' = gate u ∧
  ∃ s' r', active (transport u') = (s', r') ∧
    queue_rel s' (drop (Z.to_nat (consumed phase step missing)) q) ∧ below 0 (read_fraction r').
Proof.
  intros Ha Hq Hi Hfr Hroom Hw Hp Hl Hf Hlen. cbv zeta. unfold fill_packet. rewrite Hw.
  assert (ns6_transport_available (transport u) = Z.of_nat (length q)) as Hav
    by (unfold ns6_transport_available; rewrite Ha; by apply available_of_queue).
  assert (output_paused (gate u) && (ns6_transport_available (transport u) =? 0) = false) as ->.
  { rewrite Hav. destruct Hp as [->|Hne]; [done|]. apply andb_false_iff. right.
    apply Z.eqb_neq. destruct q; [done|]. cbn. lia. }
  pose proof (play_packet_plays cfg frames log out u s r q Ha Hq Hi Hfr Hroom Hl Hf Hlen) as H.
  cbv zeta in H. set (step := clamp_rate _) in *.
  assert (below 1 step) as Hs by apply clamp_rate_below, source_step_narrow.
  assert (128 < Z.of_nat (length q) →
    length (resample q step (Z.to_nat frames) (read_fraction r)).1.1 = Z.to_nat frames) as Hfull.
  { intros H128. pose proof (resample_complete q step (Z.to_nat frames) 1 (read_fraction r)
      (below_mono 0 1 _ ltac:(lia) Hfr) ltac:(lia) ltac:(lia) Hs) as Hc.
    destruct (resample _ _ _ _) as [[fs ph] st]. apply Hc.
    apply Z.le_lt_trans with (2 ^ 7); [apply Z.pow_le_mono_r; lia|exact H128]. }
  destruct (resample _ _ _ _) as [[fs phase] stop]. cbn [fst] in Hfull.
  destruct (play_packet _ _ _ _ _) as [out' u']. split; [|exact H].
  intros H128. rewrite (Hfull H128). lia.
Qed.

(** One queued frame, a packet of five. *)
Definition playing_usb : usb_output :=
  set_transport {| default_pair := (one_frame_ring, {| read_fraction := S754_zero false |});
                   bound_pair := None |}
    (set_gate {| output_paused := false; awaiting_audio_prefill := false;
                 standby_prime_pending := false; startup_buffer_frames := 256 |} silent_usb).

Lemma packet_plays_queue_witness :
  let '(out', u') := fill_packet default_config false 5 7 (replicate 72 9) playing_usb in
  (128 < 1 → 4 = 0) ∧
  out' = one_frame ++ concealed {| last_recovery_sample := [197121; 394500; 591879; 789258];
                                   have_last_recovery_sample := true |} 4 ++ replicate 12 9 ∧
  underrun u' = count_underrun 4 7 (underrun playing_usb) ∧
  clock u' = clock playing_usb ∧ gate u' = gate playing_usb ∧
  ∃ s' r', active (transport u') = (s', r') ∧ queue_rel s' [] ∧ below 0 (read_fraction r').
Proof.
  pose proof (packet_plays_queue default_config false 5 7 (replicate 72 9) playing_usb one_frame_ring
    {| read_fraction := S754_zero false |} [one_frame] eq_refl one_frame_ring_rel eq_refl I
    ltac:(vm_compute; discriminate) eq_refl (or_introl eq_refl) eq_refl ltac:(lia)
    ltac:(cbn; lia)) as H.
  cbv zeta in H. set (step := clamp_rate _) in H.
  assert (resample [one_frame] step (Z.to_nat 5) (S754_zero false) =
    ([one_frame], step, NS6_TRANSPORT_STOP_EMPTY)) as E by (vm_compute; reflexivity).
  cbn [read_fraction] in H. rewrite E in H. clear E.
  replace (consumed step step (5 - Z.of_nat (length [one_frame]))) with 4 in H
    by (vm_compute; reflexivity).
  exact H.
Defined.

(** ** Errors and recovery *)

(** Three failures in a row. *)
Definition triple (l : list bool) : Prop := ∃ l1 l2, l = l1 ++ [true; true; true] ++ l2.

(** Failures at the head of a history, newest first. *)
Fixpoint lead (h : list bool) : nat :=
  match h with true :: h' => S (lead h') | _ => 0 end.

Lemma triple_cons b h : triple (b :: h) ↔ triple h ∨ (b = true ∧ (2 <= lead h)%nat).
Proof.
  split.
  - intros (l1 & l2 & E). destruct l1 as [|x l1]; cbn in E; simplify_eq.
    + right. split; [done|]. cbn. lia.
    + left. by exists l1, l2.
  - intros [(l1 & l2 & ->)|[-> Hl]]; [by exists (b :: l1), l2|].
    destruct h as [|[] [|[] h]]; cbn in Hl; try lia. by exists [], h.
Qed.

Lemma triple_rev l : triple (rev l) → triple l.
Proof.
  intros (l1 & l2 & E). exists (rev l2), (rev l1).
  rewrite <- (rev_involutive l), E, !rev_app_distr, <- app_assoc. done.
Qed.

Section recovery.
Context `{IOKitABI} (cfg : ClockConfig) (idle_keepalive : bool).

(** A completion: the slot, the status and the system's answers. *)
Record completion := { on_slot : Z; status : Z; answers : complete_answers }.

Definition failed (e : completion) : bool := negb (status e =? kIOReturnSuccess).

Definition handle (w : out_worker) (e : completion) : out_worker :=
  (complete cfg idle_keepalive (answers e) (on_slot e) (status e) w).1.

(** The failures of one slot, oldest first. *)
Definition outcomes (j : Z) (es : list completion) : list bool :=
  failed <$> filter (λ e, on_slot e = j) es.

Lemma fill_errors stale log s u :
  consecutive_errors (fill cfg idle_keepalive stale log s u).1 = consecutive_errors s.
Proof. unfold fill. cbn [fst set_buffers consecutive_errors]. reflexivity. Qed.

Lemma submit_ok a i w :
  running w = true → recovery_requested w = false → write_result a = kIOReturnSuccess →
  let w' := (submit cfg idle_keepalive a i w).1 in
  running w' = true ∧ recovery_requested w' = false ∧
  ∃ s', slots w' = wr (slots w) i s' ∧ consecutive_errors s' = consecutive_errors (rd (slots w) i).
Proof.
  intros Hr Hq Hw. unfold submit. rewrite Hr, Hq, Hw, Z.eqb_refl. cbn [negb orb].
  pose proof (fill_errors (stale_ms a) (log_ms a) (rd (slots w) i) (output w)) as E.
  destruct (fill _ _ _ _ _ _) as [filled u]. cbn [fst] in *.
  split; [exact Hr|]. split; [exact Hq|]. eexists. split; [reflexivity|]. exact E.
Qed.

(** What a completion does to a worker in normal operation. *)
Lemma handle_ok e w :
  running w = true → recovery_requested w = false →
  write_result (resubmit (answers e)) = kIOReturnSuccess →
  0 <= on_slot e < Z.of_nat (length (slots w)) →
  0 <= consecutive_errors (rd (slots w) (on_slot e)) < 3 →
  let errors := if failed e then consecutive_errors (rd (slots w) (on_slot e)) + 1 else 0 in
  let w' := handle w e in
  running w' = true ∧ recovery_requested w' = (errors >=? 3) ∧
  ∃ s', slots w' = wr (slots w) (on_slot e) s' ∧ consecutive_errors s' = errors.
Proof.
  intros Hr Hq Hw Hi Hc. cbv zeta. unfold handle, complete, failed. rewrite Hr, Hq. cbn [negb orb].
  set (i := on_slot e) in *. set (s := rd (slots w) i) in *.
  rewrite (u32_id (consecutive_errors s + 1)) by (unfold is_u32; lia).
  assert (∀ w1 n, running w1 = true → recovery_requested w1 = false →
    slots w1 = wr (slots w) i (called_back (now_ns (answers e)) n s) → 0 <= n < 3 →
    let w' := (submit cfg idle_keepalive (resubmit (answers e)) i w1).1 in
    running w' = true ∧ recovery_requested w' = (n >=? 3) ∧
    ∃ s', slots w' = wr (slots w) i s' ∧ consecutive_errors s' = n) as Hsub.
  { intros w1 n H1 H2 H3 H4.
    destruct (submit_ok (resubmit (answers e)) i w1 H1 H2 Hw) as (? & Hrec & s' & Es & Ec).
    split; [done|]. split; [rewrite Hrec; lia|]. exists s'. rewrite Es, Ec, H3. split.
    - unfold wr. by rewrite list_insert_insert_eq.
    - by rewrite rd_wr_eq by lia. }
  destruct (status e =? kIOReturnSuccess); cbn [negb].
  - apply Hsub; [..|lia]; unfold health_report; by destruct (_ =? 0).
  - destruct (Z.geb_spec (consecutive_errors s + 1) 3) as [Hge|Hlt].
    + cbn. split; [done|]. split; [done|]. eexists. split; [reflexivity|]. done.
    + pose proof (Hsub (with_counters count_transfer_error
        (set_slot i (called_back (now_ns (answers e)) (consecutive_errors s + 1) s)
          (with_timings (record_completion (now_ns (answers e))) w))) (consecutive_errors s + 1)
        Hr Hq eq_refl ltac:(lia)) as Hs.
      cbv zeta in Hs. replace (consecutive_errors s + 1 >=? 3) with false in Hs by lia. exact Hs.
Qed.

Lemma handle_stopped e w :
  recovery_requested w = true → recovery_requested (handle w e) = true.
Proof. intros Hq. unfold handle, complete. rewrite Hq, orb_true_r. done. Qed.

Definition worker_inv (n : Z) (h : Z → list bool) (w : out_worker) : Prop :=
  (recovery_requested w = true ∧ ∃ j, 0 <= j < n ∧ triple (h j)) ∨
  (running w = true ∧ recovery_requested w = false ∧ Z.of_nat (length (slots w)) = n ∧
   ∀ j, 0 <= j < n → consecutive_errors (rd (slots w) j) = Z.of_nat (lead (h j)) ∧
     (lead (h j) < 3)%nat ∧ ¬ triple (h j)).

Lemma handle_inv n h e w :
  write_result (resubmit (answers e)) = kIOReturnSuccess → 0 <= on_slot e < n →
  worker_inv n h w →
  worker_inv n (λ j, if decide (on_slot e = j) then failed e :: h j else h j) (handle w e).
Proof.
  intros Hw Hi [[Hq (j & Hj & Ht)]|(Hr & Hq & Hl & Hc)].
  { left. split; [by apply handle_stopped|]. exists j. split; [done|].
    destruct (decide _); [|done]. apply triple_cons. by left. }
  set (i := on_slot e) in *. destruct (Hc i Hi) as (Ei & Hlead & Hnt).
  destruct (handle_ok e w Hr Hq Hw ltac:(lia)) as (Hr' & Hq' & s' & Es & Ec); [fold i; lia|].
  fold i in Es, Ec, Hq'. rewrite Ei in Ec, Hq'.
  destruct (decide (failed e = true ∧ lead (h i) = 2%nat)) as [[Hf H2]|Hno].
  { left. rewrite Hf in Hq'. split; [rewrite Hq'; lia|]. exists i. split; [done|].
    rewrite decide_True by done. apply triple_cons. right. split; [done|lia]. }
  right. split; [done|]. split.
  { rewrite Hq'. destruct (failed e); [|done].
    destruct (Z.geb_spec (Z.of_nat (lead (h i)) + 1) 3); [|done]. exfalso. apply Hno. split; [done|lia]. }
  split; [by rewrite Es, length_wr|]. intros j Hj. rewrite Es. destruct (decide (i = j)) as [<-|Hne].
  - rewrite rd_wr_eq by lia. rewrite Ec, triple_cons.
    destruct (failed e); cbn [lead]; (split; [lia|]); (split; [lia|]); intros [?|[? ?]]; (done || lia).
  - rewrite rd_wr_ne by lia. by apply Hc.
Qed.
Lemma worker_inv_ext n h h' w : (∀ j, h j = h' j) → worker_inv n h w → worker_inv n h' w.
Proof.
  intros E [[Hq (j & Hj & Ht)]|(Hr & Hq & Hl & Hc)].
  - left. split; [done|]. exists j. by rewrite <- E.
  - right. do 3 (split; [done|]). intros j. rewrite <- E. apply Hc.
Qed.

Lemma outcomes_snoc j es e :
  rev (outcomes j (es ++ [e])) =
  if decide (on_slot e = j) then failed e :: rev (outcomes j es) else rev (outcomes j es).
Proof.
  unfold outcomes. rewrite list.filter_app, fmap_app, rev_app_distr.
  destruct (decide (on_slot e = j)).
  - by rewrite filter_cons_True.
  - by rewrite filter_cons_False.
Qed.

Lemma run_inv es w :
  let n := Z.of_nat (length (slots w)) in
  running w = true → recovery_requested w = false →
  Forall (λ s, consecutive_errors s = 0) (slots w) →
  Forall (λ e, write_result (resubmit (answers e)) = kIOReturnSuccess ∧ 0 <= on_slot e < n) es →
  worker_inv n (λ j, rev (outcomes j es)) (foldl handle w es).
Proof.
  intros n Hr Hq H0. induction es as [|e es IH] using rev_ind; intros Hes.
  - right. do 3 (split; [done|]). intros j Hj. split; [|split; [cbn; lia|]].
    + rewrite Forall_lookup in H0. apply (H0 (Z.to_nat j)). apply list_lookup_lookup_total_lt.
      subst n. cbn [foldl] in *. lia.
    + intros ([|] & l2 & E); done.
  - apply Forall_app in Hes as [Hes He]. apply Forall_cons_1 in He as [[Hw Hi] _].
    rewrite foldl_app. cbn [foldl].
    eapply worker_inv_ext; [|by apply handle_inv; [..|apply IH]].
    intros j. symmetry. apply outcomes_snoc.
Qed.

(** C37: the worker asks for recovery exactly when some transfer slot failed three times
    in a row.  For any interleaving of completions of all slots, with every resubmission
    accepted, recovery is requested if and only if the outcomes of one slot contain three
    consecutive failures: one success clears the count of its slot, and failures of
    different slots do not add up. *)
Theorem recovery_after_three_errors es w :
  let n := Z.of_nat (length (slots w)) in
  running w = true → recovery_requested w = false →
  Forall (λ s, consecutive_errors s = 0) (slots w) →
  Forall (λ e, write_result (resubmit (answers e)) = kIOReturnSuccess ∧ 0 <= on_slot e < n) es →
  recovery_requested (foldl handle w es) = true ↔ ∃ j, 0 <= j < n ∧ triple (outcomes j es).
Proof.
  intros n Hr Hq H0 Hes. pose proof (run_inv es w Hr Hq H0 Hes) as Hinv. cbv zeta in Hinv.
  set (w' := foldl handle w es) in *. clearbody w'. split.
  - intros Hq'. destruct Hinv as [[_ (j & Hj & Ht)]|(_ & Hf & _)]; [|congruence].
    exists j. split; [done|]. by apply triple_rev.
  - intros (j & Hj & Ht). destruct Hinv as [[Hq' _]|(_ & _ & _ & Hc)]; [done|].
    exfalso. apply (Hc j Hj). apply triple_rev. by rewrite rev_involutive.
Qed.
End recovery.

(** Eight slots; the first fails, works, then fails three times. *)
Definition idle_counters : isoc_counters := Build_isoc_counters 0 0 0 0 0 0 0 0 0 0.
Definition idle_timings : usb_timings :=
  let t := ns6_usb_timing_init in Build_usb_timings t t t t t t t t t t.
Definition ready_worker : out_worker :=
  {| running := true; recovery_requested := false; output := silent_usb;
     slots := replicate 8 zero_slot; counters := idle_counters; timings := idle_timings;
     timebase := (1, 1) |}.
Definition quiet_answers : complete_answers :=
  {| callback_ticks := 1; now_ns := 1; errors_ms := 0; short_ms := 0;
     resubmit := Build_submit_answers 1 1 (λ _, 0) (λ _, 0) 2 2 3 3 0 4 4 |}.
Definition ends_with (code : Z) : completion :=
  {| on_slot := 0; status := code; answers := quiet_answers |}.

Lemma recovery_after_three_errors_witness :
  recovery_requested (foldl (@handle example_iokit default_config false) ready_worker
    [ends_with 1; ends_with 0; ends_with 1; ends_with 1; ends_with 1]) = true.
Proof.
  apply (@recovery_after_three_errors example_iokit default_config false).
  - reflexivity.
  - reflexivity.
  - apply Forall_replicate. reflexivity.
  - repeat constructor; cbn; lia.
  - exists 0. split; [cbn; lia|]. exists [true; false], []. reflexivity.
Defined.
