(* ===== verification/UsbCapture.v ===== *)
(** * Bulk-IN reads of the USB worker (NS6USB.c)

    Endpoint 0x86 carries captured audio.  Three reads are kept in flight; a
    generation counter separates capture sessions.  The record [capture] holds the
    static variables of this part; clock readings and the results of the interface
    are arguments. *)

From stdpp Require Import base list numbers tactics.
From Stdlib Require Import ZArith Lia ZifyBool.
From S2P Require Import Prelude Float Pcm CaptureRing MidiReads MidiSession Policies.

(** [IOReturn] codes the reads return themselves. *)
Class BulkABI := { kIOReturnNotReady : Z; kIOReturnBusy : Z }.

Definition WAVEFORM_READ_SLOTS : Z := 3.
Definition WAVEFORM_READ_BYTES : Z := 10240.

Record waveform_slot := { w_data : list Z; in_flight : bool; generation : Z }.

#[export] Instance waveform_slot_inhabited : Inhabited waveform_slot :=
  populate {| w_data := []; in_flight := false; generation := 0 |}.

(** The ring and the two demand variables of the shared memory, when it is bound. *)
Record shared_capture := {
  sc_ring : NS6CaptureRing;
  sc_requested : bool;
  sc_last_demand_ns : Z
}.

Record capture := {
  waveform : list waveform_slot;
  local_capture_ring : NS6CaptureRing;
  shared : option shared_capture;
  auxiliary_interface : bool;
  waveform_pipe : Z;
  waveform_drain_running : bool;
  waveform_generation : Z;
  capture_active : bool;
  capture_last_demand_ns : Z;
  capture_frames_decoded : Z;
  capture_ring_drops : Z;
  waveform_completions : Z;
  waveform_errors : Z;
  waveform_last_log_ms : Z
}.

(** ** Field updates *)

Definition set_waveform (ws : list waveform_slot) (c : capture) : capture :=
  Build_capture ws (local_capture_ring c) (shared c) (auxiliary_interface c) (waveform_pipe c)
    (waveform_drain_running c) (waveform_generation c) (capture_active c)
    (capture_last_demand_ns c) (capture_frames_decoded c) (capture_ring_drops c)
    (waveform_completions c) (waveform_errors c) (waveform_last_log_ms c).

Definition set_pipe (pipe : Z) (c : capture) : capture :=
  Build_capture (waveform c) (local_capture_ring c) (shared c) (auxiliary_interface c) pipe
    (waveform_drain_running c) (waveform_generation c) (capture_active c)
    (capture_last_demand_ns c) (capture_frames_decoded c) (capture_ring_drops c)
    (waveform_completions c) (waveform_errors c) (waveform_last_log_ms c).

Definition set_drain (running : bool) (c : capture) : capture :=
  Build_capture (waveform c) (local_capture_ring c) (shared c) (auxiliary_interface c)
    (waveform_pipe c) running (waveform_generation c) (capture_active c)
    (capture_last_demand_ns c) (capture_frames_decoded c) (capture_ring_drops c)
    (waveform_completions c) (waveform_errors c) (waveform_last_log_ms c).

(** [atomic_fetch_add_explicit(&waveform_generation,1,...)] *)
Definition bump_generation (c : capture) : capture :=
  Build_capture (waveform c) (local_capture_ring c) (shared c) (auxiliary_interface c)
    (waveform_pipe c) (waveform_drain_running c) (waveform_generation c +₃₂ 1) (capture_active c)
    (capture_last_demand_ns c) (capture_frames_decoded c) (capture_ring_drops c)
    (waveform_completions c) (waveform_errors c) (waveform_last_log_ms c).

(** The ring in use ([capture_ring]) replaced. *)
Definition set_ring (r : NS6CaptureRing) (c : capture) : capture :=
  Build_capture (waveform c)
    (match shared c with Some _ => local_capture_ring c | None => r end)
    (option_map (λ s, {| sc_ring := r; sc_requested := sc_requested s;
                         sc_last_demand_ns := sc_last_demand_ns s |}) (shared c))
    (auxiliary_interface c) (waveform_pipe c)
    (waveform_drain_running c) (waveform_generation c) (capture_active c)
    (capture_last_demand_ns c) (capture_frames_decoded c) (capture_ring_drops c)
    (waveform_completions c) (waveform_errors c) (waveform_last_log_ms c).

Definition set_demand (active : bool) (last_demand : Z) (sh : option shared_capture) (c : capture)
    : capture :=
  Build_capture (waveform c) (local_capture_ring c) sh (auxiliary_interface c)
    (waveform_pipe c) (waveform_drain_running c) (waveform_generation c) active
    last_demand (capture_frames_decoded c) (capture_ring_drops c)
    (waveform_completions c) (waveform_errors c) (waveform_last_log_ms c).

Definition set_counters (decoded drops completions errors log : Z) (c : capture) : capture :=
  Build_capture (waveform c) (local_capture_ring c) (shared c) (auxiliary_interface c)
    (waveform_pipe c) (waveform_drain_running c) (waveform_generation c) (capture_active c)
    (capture_last_demand_ns c) decoded drops completions errors log.

Definition capture_ring (c : capture) : NS6CaptureRing :=
  match shared c with Some s => sc_ring s | None => local_capture_ring c end.

(** The demand as the worker reads it: the shared variables when they are bound. *)
Definition last_demand (c : capture) : Z :=
  match shared c with Some s => sc_last_demand_ns s | None => capture_last_demand_ns c end.

Definition requested (c : capture) : bool :=
  match shared c with Some s => sc_requested s | None => capture_active c end.

Definition demand_over (s : shared_capture) : shared_capture :=
  {| sc_ring := sc_ring s; sc_requested := false; sc_last_demand_ns := 0 |}.

Section capture.
Context `{ABI : IOKitABI, BABI : BulkABI, UABI : USBABI}.

(** ** The endpoint *)

(** The first pipe with the endpoint; [pipe] is the number of the first entry. *)
Fixpoint find_waveform_pipe (pipe : Z) (pipes : list (option pipe_properties)) : Z :=
  match pipes with
  | [] => 0
  | Some p :: rest =>
      if ns6_is_waveform_endpoint (p_direction p) (p_number p) (p_type p) then pipe
      else find_waveform_pipe (pipe + 1) rest
  | None :: rest => find_waveform_pipe (pipe + 1) rest
  end.

(** [pipes] is [None] when the number of endpoints cannot be read; the result of
    clearing the pipe is only logged. *)
Definition prepare_waveform_drain (pipes : option (list (option pipe_properties))) (c : capture)
    : bool * capture :=
  if negb (auxiliary_interface c) then (false, c)
  else match pipes with
       | None => (false, c)
       | Some ps => let pipe := find_waveform_pipe 1 ps in (negb (pipe =? 0), set_pipe pipe c)
       end.

(** ** One read *)

(** The results of the first read, of clearing a stall and of the second read. *)
Record read_results := { first_read : Z; clear_stall : Z; second_read : Z }.

Definition submit_waveform_read (r : read_results) (i : Z) (c : capture) : Z * capture :=
  if negb (auxiliary_interface c) || (waveform_pipe c =? 0) || negb (waveform_drain_running c)
  then (kIOReturnNotReady, c)
  else
    let s := rd (waveform c) i in
    if in_flight s then (kIOReturnBusy, c)
    else
      let result := first_read r in
      let result := if (result =? kIOUSBPipeStalled) && waveform_drain_running c
                    then if clear_stall r =? kIOReturnSuccess then second_read r else result
                    else result in
      (result,
       set_waveform (wr (waveform c) i
         {| w_data := w_data s; in_flight := result =? kIOReturnSuccess;
            generation := waveform_generation c |}) c).

Definition count_error (c : capture) : capture :=
  set_counters (capture_frames_decoded c) (capture_ring_drops c) (waveform_completions c)
    (waveform_errors c +₆₄ 1) (waveform_last_log_ms c) c.

(** The log limiter as [should_log_once_per_second] leaves it. *)
Definition limit_log (now_ms : Z) (c : capture) : capture :=
  set_counters (capture_frames_decoded c) (capture_ring_drops c) (waveform_completions c)
    (waveform_errors c)
    (if now_ms -₆₄ waveform_last_log_ms c >=? 1000 then now_ms else waveform_last_log_ms c) c.

(** What the system answers during a completion; the read itself left [read_data] in
    the slot's buffer. *)
Record completion_answers := {
  monotonic_ns : Z;
  failed_log_ms : Z;
  failed_clear : Z;
  clear_log_ms : Z;
  again : read_results;
  again_log_ms : Z
}.

Definition DEMAND_NS : Z := 250000000.

(** Decoding a block and storing it in the ring. *)
Definition store_block (i bytes : Z) (c : capture) : capture :=
  let capacity := WAVEFORM_READ_BYTES / NS6_CAPTURE_SOURCE_STRIDE in
  let decoded := replicate (Z.to_nat (capacity * NS6_CAPTURE_CHANNELS)) (S754_zero false) in
  let '(frames, out) := ns6_capture_decode_block (Some (w_data (rd (waveform c) i))) (u32 bytes)
                          (Some decoded) capacity in
  let '(accepted, ring) := ns6_capture_ring_write (capture_ring c) out frames in
  set_counters (capture_frames_decoded c +₆₄ frames)
    (if accepted <? frames then capture_ring_drops c +₆₄ (frames - accepted)
     else capture_ring_drops c)
    (waveform_completions c) (waveform_errors c) (waveform_last_log_ms c) (set_ring ring c).

Definition end_demand (c : capture) : capture :=
  set_demand false (capture_last_demand_ns c)
    (option_map (λ s, {| sc_ring := sc_ring s; sc_requested := false;
                         sc_last_demand_ns := sc_last_demand_ns s |}) (shared c)) c.

Definition completed_ok (i bytes now completion_generation : Z) (c : capture) : capture :=
  let c := set_counters (capture_frames_decoded c) (capture_ring_drops c)
             (waveform_completions c +₆₄ 1) (waveform_errors c) (waveform_last_log_ms c) c in
  if requested c && negb (last_demand c =? 0) && (now -₆₄ last_demand c <? DEMAND_NS) &&
     waveform_drain_running c && (completion_generation =? waveform_generation c)
  then store_block i bytes c
  else if negb (last_demand c =? 0) && (now -₆₄ last_demand c >=? DEMAND_NS) then end_demand c
  else c.

Definition completed_error (a : completion_answers) (status : Z) (c : capture) : capture :=
  let c := limit_log (failed_log_ms a) (count_error c) in
  if (status =? kIOUSBPipeStalled) && waveform_drain_running c then
    if negb (failed_clear a =? kIOReturnSuccess) then limit_log (clear_log_ms a) c else c
  else c.

Definition land (i : Z) (c : capture) : capture :=
  let s := rd (waveform c) i in
  set_waveform (wr (waveform c) i
    {| w_data := w_data s; in_flight := false; generation := generation s |}) c.

Definition waveform_read_complete (a : completion_answers) (i status bytes : Z) (c : capture)
    : capture :=
  let completion_generation := generation (rd (waveform c) i) in
  let c := land i c in
  if negb (waveform_drain_running c) then c
  else if negb (completion_generation =? waveform_generation c)
  then snd (submit_waveform_read (again a) i c)
  else
    let c := if status =? kIOReturnSuccess
             then completed_ok i bytes (monotonic_ns a) completion_generation c
             else completed_error a status c in
    let '(result, c) := submit_waveform_read (again a) i c in
    if result =? kIOReturnSuccess then c else limit_log (again_log_ms a) (count_error c).

(** ** Sessions *)

Definition start_waveform_drain (results : Z → read_results) (c : capture) : capture :=
  if waveform_pipe c =? 0 then c
  else
    for_loop (Z.to_nat WAVEFORM_READ_SLOTS) 0
      (λ i c, let '(result, c) := submit_waveform_read (results i) i c in
              if result =? kIOReturnSuccess then c else count_error c)
      (set_drain true (bump_generation c)).

(** Aborting the pipe has no state of its own here: the reads complete later. *)
Definition stop_waveform_drain (c : capture) : capture :=
  set_demand false 0 (option_map demand_over (shared c)) (bump_generation (set_drain false c)).

Definition ns6_usb_reset_capture_session (c : capture) : capture :=
  bump_generation (set_demand false 0 (option_map demand_over (shared c)) c).

(** [now] is the clock reading; the output buffer is [None] for a null pointer. *)
Definition ns6_usb_capture_read (output : option (list spec_float)) (frames now : Z) (c : capture)
    : Z * option (list spec_float) * capture :=
  match output with
  | None => (0, None, c)
  | Some _ =>
      if frames =? 0 then (0, output, c)
      else
        let was_active := capture_active c in
        let c := set_demand true now (shared c) c in
        let c := if negb was_active then set_ring (ns6_capture_ring_clear (capture_ring c)) c else c in
        let '(n, ring, out) := ns6_capture_ring_read (capture_ring c) output frames in
        (n, out, set_ring ring c)
  end.

(** The three pointers are given together or the local variables are restored. *)
Definition ns6_usb_bind_shared_capture (ring : option NS6CaptureRing) (req : option bool)
    (demand : option Z) (c : capture) : capture :=
  set_demand (capture_active c) (capture_last_demand_ns c)
    (match ring, req, demand with
     | Some r, Some q, Some d => Some {| sc_ring := r; sc_requested := q; sc_last_demand_ns := d |}
     | _, _, _ => None
     end) c.
End capture.

(** ** Sessions are separated

    What may happen between the submission of a read and its completion. *)

Inductive capture_event :=
  | Completed (i status bytes : Z) (data : list Z) (a : completion_answers)
  | DrainStarted (results : Z → read_results)
  | DrainStopped
  | SessionReset
  | CaptureRead (output : option (list spec_float)) (frames now : Z)
  | SharedBound (ring : option NS6CaptureRing) (req : option bool) (demand : option Z).

Section sessions.
Context `{ABI : IOKitABI, BABI : BulkABI, UABI : USBABI}.

(** The device fills the buffer of a slot before the completion runs. *)
Definition deliver (i : Z) (bs : list Z) (c : capture) : capture :=
  let s := rd (waveform c) i in
  set_waveform (wr (waveform c) i
    {| w_data := bs; in_flight := in_flight s; generation := generation s |}) c.

Definition capture_step (c : capture) (e : capture_event) : capture :=
  match e with
  | Completed i status bytes bs a => waveform_read_complete a i status bytes (deliver i bs c)
  | DrainStarted results => start_waveform_drain results c
  | DrainStopped => stop_waveform_drain c
  | SessionReset => ns6_usb_reset_capture_session c
  | CaptureRead output frames now => snd (ns6_usb_capture_read output frames now c)
  | SharedBound ring req demand => ns6_usb_bind_shared_capture ring req demand c
  end.

(** The session changes in a sequence of events; [pipe] is the pipe in use. *)
Definition bumps (pipe : Z) (e : capture_event) : Z :=
  match e with
  | DrainStarted _ => if pipe =? 0 then 0 else 1
  | DrainStopped | SessionReset => 1
  | _ => 0
  end.

Definition session_changes (pipe : Z) (es : list capture_event) : Z :=
  foldr (λ e n, bumps pipe e + n) 0 es.

(** [c'] follows [c] with [n] session changes and slot [i] still waiting. *)
Record follows (i n : Z) (c c' : capture) : Prop := {
  fo_length : length (waveform c') = length (waveform c);
  fo_pipe : waveform_pipe c' = waveform_pipe c;
  fo_generation : waveform_generation c' = u32 (waveform_generation c + n);
  fo_slot : in_flight (rd (waveform c) i) = true →
    in_flight (rd (waveform c') i) = true ∧
    generation (rd (waveform c') i) = generation (rd (waveform c) i)
}.

Lemma follows_trans i n m a b c : follows i n a b → follows i m b c → follows i (n + m) a c.
Proof.
  intros [L1 P1 G1 S1] [L2 P2 G2 S2]. split; [congruence|congruence| |].
  - rewrite G2, G1. unfold u32. rewrite Zplus_mod_idemp_l. f_equal. lia.
  - intros Hf. destruct (S1 Hf) as [Hf1 E1]. destruct (S2 Hf1) as [Hf2 E2]. split; [done|congruence].
Qed.

(** An update that keeps slots, pipe and generation. *)
Lemma follows_refl_slots i c c' :
  is_u32 (waveform_generation c) → waveform c' = waveform c → waveform_pipe c' = waveform_pipe c →
  waveform_generation c' = waveform_generation c → follows i 0 c c'.
Proof.
  intros Hg Ew Ep Eg. split; [by rewrite Ew|done| |by rewrite Ew].
  rewrite Eg, Z.add_0_r. by rewrite u32_id.
Qed.

(** A change of another slot. *)
Lemma follows_wr i j s c :
  is_u32 (waveform_generation c) → 0 <= i → 0 <= j → i ≠ j →
  follows i 0 c (set_waveform (wr (waveform c) j s) c).
Proof.
  intros Hg Hi Hj Hne. split; cbn; [apply length_wr|done|by rewrite Z.add_0_r, u32_id|].
  by rewrite rd_wr_ne by lia.
Qed.

(** Submitting never touches a slot that is waiting. *)
Lemma submit_follows i j r c :
  is_u32 (waveform_generation c) → 0 <= i → 0 <= j → follows i 0 c (submit_waveform_read r j c).2.
Proof.
  intros Hg Hi Hj. unfold submit_waveform_read.
  destruct (_ || _ || _); [by apply follows_refl_slots|].
  destruct (in_flight (rd (waveform c) j)) eqn:Ef; [by apply follows_refl_slots|]. cbn [snd].
  destruct (decide (i = j)) as [->|Hne]; [|by apply follows_wr].
  split; cbn; [apply length_wr|done|by rewrite Z.add_0_r, u32_id|congruence].
Qed.

Lemma generation_u32 i n c c' : follows i n c c' → is_u32 (waveform_generation c').
Proof. intros [_ _ -> _]. apply u32_range. Qed.

Lemma completed_ok_same i bytes now g c :
  waveform (completed_ok i bytes now g c) = waveform c ∧
  waveform_pipe (completed_ok i bytes now g c) = waveform_pipe c ∧
  waveform_generation (completed_ok i bytes now g c) = waveform_generation c.
Proof.
  unfold completed_ok. destruct (_ && _ && _ && _ && _).
  - unfold store_block. destruct (ns6_capture_decode_block _ _ _ _) as [frames out].
    by destruct (ns6_capture_ring_write _ _ _).
  - by destruct (_ && _).
Qed.

Lemma completed_error_same a st c :
  waveform (completed_error a st c) = waveform c ∧
  waveform_pipe (completed_error a st c) = waveform_pipe c ∧
  waveform_generation (completed_error a st c) = waveform_generation c.
Proof. unfold completed_error. destruct (_ && _); [|done]. by destruct (negb _). Qed.

Lemma complete_follows i j st bytes a c :
  is_u32 (waveform_generation c) → 0 <= i → 0 <= j → i ≠ j →
  follows i 0 c (waveform_read_complete a j st bytes c).
Proof.
  intros Hg Hi Hj Hne. unfold waveform_read_complete, land.
  set (g := generation (rd (waveform c) j)). set (c1 := set_waveform _ c).
  assert (follows i 0 c c1) as H1 by by apply follows_wr.
  assert (is_u32 (waveform_generation c1)) as Hg1 by done. clearbody c1 g.
  destruct (negb (waveform_drain_running c1)); [done|].
  destruct (negb (g =? waveform_generation c1)).
  { change 0 with (0 + 0). eapply follows_trans; [exact H1|by apply submit_follows]. }
  set (c2 := if st =? kIOReturnSuccess then _ else _).
  assert (follows i 0 c1 c2) as H2.
  { subst c2. destruct (st =? kIOReturnSuccess).
    - destruct (completed_ok_same j bytes (monotonic_ns a) g c1) as (? & ? & ?). by apply follows_refl_slots.
    - destruct (completed_error_same a st c1) as (? & ? & ?). by apply follows_refl_slots. }
  pose proof (generation_u32 _ _ _ _ H2) as Hg2. clearbody c2.
  pose proof (submit_follows i j (again a) c2 Hg2 Hi Hj) as H3.
  destruct (submit_waveform_read (again a) j c2) as [res c3]. cbn [snd] in H3.
  pose proof (generation_u32 _ _ _ _ H3) as Hg3.
  assert (follows i 0 c c3) as H4.
  { change 0 with (0 + 0 + 0). eapply follows_trans; [|exact H3]. by eapply follows_trans. }
  destruct (res =? kIOReturnSuccess); [done|].
  change 0 with (0 + 0). eapply follows_trans; [exact H4|by apply follows_refl_slots].
Qed.

Lemma drain_follows i results n k c c' :
  0 <= i → 0 <= k → is_u32 (waveform_generation c') → follows i n c c' →
  follows i n c (for_loop (Z.to_nat WAVEFORM_READ_SLOTS) k
    (λ i c, let '(result, c) := submit_waveform_read (results i) i c in
            if result =? kIOReturnSuccess then c else count_error c) c').
Proof.
  intros Hi Hk Hg Hf. apply (for_loop_ind (λ _ c', follows i n c c')); [done|].
  intros j c2 Hj H2. pose proof (generation_u32 _ _ _ _ H2) as Hg2.
  pose proof (submit_follows i j (results j) c2 Hg2 Hi ltac:(lia)) as H3.
  destruct (submit_waveform_read (results j) j c2) as [res c3]. cbn [snd] in H3.
  pose proof (generation_u32 _ _ _ _ H3) as Hg3.
  replace n with (n + 0) by lia. eapply follows_trans; [exact H2|].
  destruct (res =? kIOReturnSuccess); [done|]. change 0 with (0 + 0).
  eapply follows_trans; [exact H3|by apply follows_refl_slots].
Qed.

Lemma bump_follows i c c' :
  waveform c' = waveform c → waveform_pipe c' = waveform_pipe c →
  waveform_generation c' = waveform_generation c +₃₂ 1 → follows i 1 c c'.
Proof. intros Ew Ep Eg. split; [by rewrite Ew|done|done|by rewrite Ew]. Qed.

(** The event is not the completion of slot [i]. *)
Definition spares (i : Z) (e : capture_event) : Prop :=
  match e with Completed j _ _ _ _ => 0 <= j ∧ j ≠ i | _ => True end.

Lemma step_follows i e c :
  0 <= i → is_u32 (waveform_generation c) → spares i e →
  follows i (bumps (waveform_pipe c) e) c (capture_step c e).
Proof.
  intros Hi Hg Hs. destruct e as [j st bytes bs a|results| | |output frames now|ring req demand];
    cbn [bumps capture_step].
  - destruct Hs as [Hj Hne]. change 0 with (0 + 0).
    eapply follows_trans; [apply (follows_wr i j); done|]. by apply complete_follows.
  - unfold start_waveform_drain. destruct (waveform_pipe c =? 0); [by apply follows_refl_slots|].
    apply drain_follows; [done|lia|apply u32_range|by apply bump_follows].
  - by apply bump_follows.
  - by apply bump_follows.
  - unfold ns6_usb_capture_read. destruct output as [out|]; [|by apply follows_refl_slots].
    destruct (frames =? 0); [by apply follows_refl_slots|].
    destruct (ns6_capture_ring_read _ _ _) as [[n r] o]. cbn [snd].
    destruct (negb (capture_active c)); by apply follows_refl_slots.
  - by apply follows_refl_slots.
Qed.

Lemma run_follows i es c :
  0 <= i → is_u32 (waveform_generation c) → Forall (spares i) es →
  follows i (session_changes (waveform_pipe c) es) c (foldl capture_step c es).
Proof.
  intros Hi Hg Hes. revert c Hg. induction Hes as [|e es He Hes IH]; intros c Hg; cbn [foldl].
  - by apply follows_refl_slots.
  - pose proof (step_follows i e c Hi Hg He) as H1.
    cbn [session_changes foldr]. eapply follows_trans; [exact H1|].
    pose proof (IH _ (generation_u32 _ _ _ _ H1)) as H2. by rewrite (fo_pipe _ _ _ _ H1) in H2.
Qed.
(** What a submission leaves alone. *)
Lemma submit_keeps r i c :
  let c' := (submit_waveform_read r i c).2 in
  capture_ring c' = capture_ring c ∧ capture_frames_decoded c' = capture_frames_decoded c ∧
  capture_ring_drops c' = capture_ring_drops c ∧ requested c' = requested c.
Proof.
  unfold submit_waveform_read. destruct (_ || _ || _); [done|]. by destruct (in_flight _).
Qed.

Lemma capture_ring_set r c : capture_ring (set_ring r c) = r.
Proof. unfold capture_ring, set_ring. cbn. by destruct (shared c). Qed.

(** The end of a completion: the read is submitted again. *)
Lemma resubmit_keeps a i c :
  let c' := (let '(result, c) := submit_waveform_read (again a) i c in
             if result =? kIOReturnSuccess then c else limit_log (again_log_ms a) (count_error c)) in
  capture_ring c' = capture_ring c ∧ capture_frames_decoded c' = capture_frames_decoded c ∧
  capture_ring_drops c' = capture_ring_drops c.
Proof.
  pose proof (submit_keeps (again a) i c) as Hs. cbv zeta in *.
  destruct (submit_waveform_read (again a) i c) as [res c3]. cbn [snd] in Hs.
  destruct Hs as (? & ? & ? & _). by destruct (res =? kIOReturnSuccess).
Qed.

Lemma deliver_generation i bs c :
  0 <= i < Z.of_nat (length (waveform c)) →
  generation (rd (waveform (deliver i bs c)) i) = generation (rd (waveform c) i).
Proof. intros Hi. unfold deliver. cbn [set_waveform waveform]. by rewrite rd_wr_eq by lia. Qed.

Definition count_completion (c : capture) : capture :=
  set_counters (capture_frames_decoded c) (capture_ring_drops c) (waveform_completions c +₆₄ 1)
    (waveform_errors c) (waveform_last_log_ms c) c.

(** A successful read of the current session that is in demand. *)
Lemma completed_ok_stores i bytes bs now g c :
  g = waveform_generation c → waveform_drain_running c = true → requested c = true →
  last_demand c ≠ 0 → now -₆₄ last_demand c < DEMAND_NS →
  completed_ok i bytes now g (land i (deliver i bs c)) =
  store_block i bytes (count_completion (land i (deliver i bs c))).
Proof.
  intros -> Hr Hq Hd Hn. unfold completed_ok. fold (count_completion (land i (deliver i bs c))).
  set (c3 := count_completion _).
  change (requested c3) with (requested c). change (last_demand c3) with (last_demand c).
  change (waveform_drain_running c3) with (waveform_drain_running c).
  change (waveform_generation c3) with (waveform_generation c).
  by rewrite Hq, Hr, Z.eqb_refl, (proj2 (Z.eqb_neq _ _) Hd), (proj2 (Z.ltb_lt _ _) Hn).
Qed.

Lemma delivered_data i bs c :
  0 <= i < Z.of_nat (length (waveform c)) →
  w_data (rd (waveform (count_completion (land i (deliver i bs c)))) i) = bs.
Proof.
  intros Hi. cbn [count_completion set_counters land deliver set_waveform waveform].
  by rewrite !rd_wr_eq by (rewrite ?length_wr; lia).
Qed.

(** Captured audio never crosses a session.  A read submitted in one capture session
    and completed after the session changed (drain stopped or started, session reset) fewer
    than 2^32 times, with any completions of other reads, capture reads and bindings in
    between, leaves the ring, the counters and the demand as they are, whatever the device
    delivered; completed in the session it was submitted in, while capture is in demand, its
    decoded frames are appended to the ring and those that do not fit are counted. *)
Theorem captured_audio_stays_in_its_session i es st bytes bs a c :
  0 <= i < Z.of_nat (length (waveform c)) → is_u32 (waveform_generation c) →
  in_flight (rd (waveform c) i) = true →
  generation (rd (waveform c) i) = waveform_generation c →
  Forall (spares i) es →
  let n := session_changes (waveform_pipe c) es in
  let c1 := foldl capture_step c es in
  let c2 := capture_step c1 (Completed i st bytes bs a) in
  (0 < n < 4294967296 →
   capture_ring c2 = capture_ring c1 ∧ requested c2 = requested c1 ∧
   capture_frames_decoded c2 = capture_frames_decoded c1 ∧
   capture_ring_drops c2 = capture_ring_drops c1) ∧
  (n = 0 → waveform_drain_running c1 = true → st = kIOReturnSuccess → requested c1 = true →
   last_demand c1 ≠ 0 → monotonic_ns a -₆₄ last_demand c1 < DEMAND_NS →
   let '(frames, out) := ns6_capture_decode_block (Some bs) (u32 bytes)
                           (Some (replicate 320 (S754_zero false))) 160 in
   let '(accepted, ring) := ns6_capture_ring_write (capture_ring c1) out frames in
   capture_ring c2 = ring ∧
   capture_frames_decoded c2 = capture_frames_decoded c1 +₆₄ frames ∧
   capture_ring_drops c2 = (if accepted <? frames
                            then capture_ring_drops c1 +₆₄ (frames - accepted)
                            else capture_ring_drops c1)).
Proof.
  intros Hi Hg Hf Eg Hes n c1 c2.
  destruct (run_follows i es c ltac:(lia) Hg Hes) as [Hl Hp Hgen Hslot].
  fold n c1 in Hl, Hp, Hgen, Hslot. destruct (Hslot Hf) as [Hf1 Hg1]. clear Hslot.
  assert (generation (rd (waveform (deliver i bs c1)) i) = waveform_generation c) as Hd
    by (rewrite deliver_generation by lia; congruence).
  subst c2. cbn [capture_step]. unfold waveform_read_complete. rewrite Hd.
  change (waveform_generation (land i (deliver i bs c1))) with (waveform_generation c1).
  change (waveform_drain_running (land i (deliver i bs c1))) with (waveform_drain_running c1).
  split.
  - intros Hn. destruct (negb (waveform_drain_running c1)); [done|].
    assert (negb (waveform_generation c =? waveform_generation c1) = true) as ->.
    { rewrite Hgen. apply negb_true_iff, Z.eqb_neq. unfold is_u32, u32 in *.
      Z.div_mod_to_equations. lia. }
    destruct (submit_keeps (again a) i (land i (deliver i bs c1))) as (E1 & E2 & E3 & E4).
    rewrite E1, E2, E3, E4. done.
  - intros H0 Hr -> Hq Hdem Hnow. rewrite Hr. cbn [negb].
    assert (waveform_generation c1 = waveform_generation c) as Eg1
      by (rewrite Hgen, H0, Z.add_0_r; by apply u32_id).
    rewrite Eg1, !Z.eqb_refl. cbn [negb].
    destruct (resubmit_keeps a i (completed_ok i bytes (monotonic_ns a) (waveform_generation c)
      (land i (deliver i bs c1)))) as (E1 & E2 & E3). cbv zeta in E1, E2, E3.
    rewrite E1, E2, E3, (completed_ok_stores i bytes bs) by (done || lia).
    unfold store_block. rewrite delivered_data by lia.
    change (WAVEFORM_READ_BYTES / NS6_CAPTURE_SOURCE_STRIDE) with 160.
    change (Z.to_nat (160 * NS6_CAPTURE_CHANNELS)) with 320%nat.
    change (capture_ring (count_completion _)) with (capture_ring c1).
    destruct (ns6_capture_decode_block _ _ _ _) as [frames out].
    destruct (ns6_capture_ring_write _ _ _) as [accepted ring].
    split; [apply capture_ring_set|]. done.
Qed.
End sessions.

(** Three slots, the first waiting; a block of one frame arrives. *)
Definition example_bulk : BulkABI := {| kIOReturnNotReady := 3758097112; kIOReturnBusy := 3758097109 |}.
Definition example_usb : USBABI := {| kUSBIn := 1; kUSBOut := 0; kUSBBulk := 2 |}.
Definition waiting_capture : capture :=
  {| waveform := [ {| w_data := []; in_flight := true; generation := 7 |};
                   {| w_data := []; in_flight := false; generation := 0 |};
                   {| w_data := []; in_flight := false; generation := 0 |} ];
     local_capture_ring := empty_ring; shared := None; auxiliary_interface := true;
     waveform_pipe := 2; waveform_drain_running := true; waveform_generation := 7;
     capture_active := true; capture_last_demand_ns := 1000; capture_frames_decoded := 0;
     capture_ring_drops := 0; waveform_completions := 0; waveform_errors := 0;
     waveform_last_log_ms := 0 |}.
Definition quick_answers : completion_answers :=
  Build_completion_answers 2000 0 0 0 {| first_read := 0; clear_stall := 0; second_read := 0 |} 0.

Lemma captured_audio_stays_in_its_session_witness :
  (let c1 := @capture_step example_iokit example_bulk waiting_capture SessionReset in
   let c2 := @capture_step example_iokit example_bulk c1 (Completed 0 0 64 (replicate 64 1) quick_answers) in
   capture_ring c2 = empty_ring ∧ capture_frames_decoded c2 = 0) ∧
  (let c2 := @capture_step example_iokit example_bulk waiting_capture
               (Completed 0 0 64 (replicate 64 1) quick_answers) in
   head (capture_ring c2) = 1 ∧ capture_frames_decoded c2 = 1).
Proof.
  split.
  - destruct (@captured_audio_stays_in_its_session example_iokit example_bulk 0 [SessionReset] 0 64
      (replicate 64 1) quick_answers waiting_capture) as [H _];
      [cbn; lia|unfold is_u32; cbn; lia|done|done|repeat constructor|].
    destruct (H ltac:(cbn; lia)) as (E1 & _ & E2 & _). split; [exact E1|exact E2].
  - destruct (@captured_audio_stays_in_its_session example_iokit example_bulk 0 [] 0 64
      (replicate 64 1) quick_answers waiting_capture) as [_ H];
      [cbn; lia|unfold is_u32; cbn; lia|done|done|constructor|].
    assert (head (capture_ring (@capture_step example_iokit example_bulk waiting_capture
      (Completed 0 0 64 (replicate 64 1) quick_answers))) = 1) as E1; [|split; [exact E1|]].
    + destruct (H eq_refl eq_refl eq_refl eq_refl ltac:(cbn; lia) ltac:(vm_compute; congruence)) as (E1 & _).
      cbn [foldl] in E1. rewrite E1. reflexivity.
    + destruct (H eq_refl eq_refl eq_refl eq_refl ltac:(cbn; lia) ltac:(vm_compute; congruence)) as (_ & E2 & _).
      cbn [foldl] in E2. rewrite E2. reflexivity.
Defined.
