(* ===== verification/UsbFeedback.v ===== *)
(** * Clock feedback and firmware version (NS6USB.c)

    The controller reports the frames it consumed per millisecond on an
    isochronous IN endpoint.  [feedback_complete] feeds the valid reports to the
    clock and counts every packet; [feedback_submit] keeps two transfers in flight. *)

From stdpp Require Import base list numbers tactics.
From Stdlib Require Import ZArith Lia ZifyBool.
From S2P Require Import Prelude ClockControl ClockTheory MidiReads MidiSession Policies Timing UsbOutput.

(** [kUSBIsoc] of the USB headers. *)
Class IsocABI := { kUSBIsoc : Z }.

Definition FEEDBACK_PACKETS : Z := 32.
Definition FEEDBACK_MAX_PACKET : Z := 64.
Definition FEEDBACK_SLOT_COUNT : Z := 2.

(** ** State *)

(** A transfer; [None] before the buffers are allocated. *)
Record feedback_slot := { fb_frames : option (list isoc_frame); fb_data : option (list Z) }.

#[export] Instance feedback_slot_inhabited : Inhabited feedback_slot :=
  populate {| fb_frames := None; fb_data := None |}.

Record feedback_counts := {
  feedback_samples : Z;
  feedback_44_frames : Z;
  feedback_45_frames : Z;
  feedback_other_values : Z;
  feedback_short_packets : Z;
  feedback_out_of_range_values : Z;
  feedback_lock_events : Z;
  feedback_packet_errors : Z
}.

(** The log limiters, and the counters as last logged. *)
Record feedback_logs := {
  feedback_last_log_ms : Z;
  feedback_short_log_ms : Z;
  feedback_invalid_log_ms : Z;
  feedback_transport_log_ms : Z;
  logged : feedback_counts;
  logged_stale_resets : Z
}.

Record feedback_state := {
  reader_running : bool;
  fb_slots : list feedback_slot;
  feedback_in_flight : list bool;
  feedback_pipe : Z;
  feedback_packet_bytes : Z;
  fb_auxiliary : bool;
  feedback_last_sample : list Z;
  fb_counts : feedback_counts;
  fb_logs : feedback_logs;
  fb_clock : clock_state;
  fb_interval : NS6USBTiming;
  fb_lag : NS6USBTiming;
  fb_timebase : Z * Z
}.

Definition set_reports (sample : list Z) (n : feedback_counts) (l : feedback_logs) (c : clock_state)
    (s : feedback_state) : feedback_state :=
  Build_feedback_state (reader_running s) (fb_slots s) (feedback_in_flight s) (feedback_pipe s)
    (feedback_packet_bytes s) (fb_auxiliary s) sample n l c (fb_interval s) (fb_lag s) (fb_timebase s).

Definition set_fb_slots (slots : list feedback_slot) (inflight : list bool) (pipe bytes : Z)
    (s : feedback_state) : feedback_state :=
  Build_feedback_state (reader_running s) slots inflight pipe bytes (fb_auxiliary s)
    (feedback_last_sample s) (fb_counts s) (fb_logs s) (fb_clock s) (fb_interval s) (fb_lag s)
    (fb_timebase s).

Definition set_in_flight (i : Z) (b : bool) (s : feedback_state) : feedback_state :=
  set_fb_slots (fb_slots s) (wr (feedback_in_flight s) i b) (feedback_pipe s)
    (feedback_packet_bytes s) s.

Definition set_fb_timings (interval lag : NS6USBTiming) (s : feedback_state) : feedback_state :=
  Build_feedback_state (reader_running s) (fb_slots s) (feedback_in_flight s) (feedback_pipe s)
    (feedback_packet_bytes s) (fb_auxiliary s) (feedback_last_sample s) (fb_counts s) (fb_logs s)
    (fb_clock s) interval lag (fb_timebase s).

Definition add_error (n : feedback_counts) : feedback_counts :=
  Build_feedback_counts (feedback_samples n) (feedback_44_frames n) (feedback_45_frames n)
    (feedback_other_values n) (feedback_short_packets n) (feedback_out_of_range_values n)
    (feedback_lock_events n) (feedback_packet_errors n +₆₄ 1).

Definition add_short (n : feedback_counts) : feedback_counts :=
  Build_feedback_counts (feedback_samples n) (feedback_44_frames n) (feedback_45_frames n)
    (feedback_other_values n) (feedback_short_packets n +₆₄ 1) (feedback_out_of_range_values n)
    (feedback_lock_events n) (feedback_packet_errors n).

(** A report of [value] frames, and whether it locked the clock. *)
Definition add_report (value : Z) (locked_now : bool) (n : feedback_counts) : feedback_counts :=
  Build_feedback_counts (feedback_samples n +₆₄ 1)
    (if value =? 44 then feedback_44_frames n +₆₄ 1 else feedback_44_frames n)
    (if negb (value =? 44) && (value =? 45) then feedback_45_frames n +₆₄ 1 else feedback_45_frames n)
    (if negb (value =? 44) && negb (value =? 45) then feedback_other_values n +₆₄ 1
     else feedback_other_values n)
    (feedback_short_packets n)
    (if ns6_clock_control_feedback_value_is_valid value then feedback_out_of_range_values n
     else feedback_out_of_range_values n +₆₄ 1)
    (if locked_now then feedback_lock_events n +₆₄ 1 else feedback_lock_events n)
    (feedback_packet_errors n).

Definition limit (now last : Z) : Z := (should_log_once_per_second last now).2.

Definition limit_transport (now : Z) (l : feedback_logs) : feedback_logs :=
  Build_feedback_logs (feedback_last_log_ms l) (feedback_short_log_ms l) (feedback_invalid_log_ms l)
    (limit now (feedback_transport_log_ms l)) (logged l) (logged_stale_resets l).

Definition limit_short (now : Z) (l : feedback_logs) : feedback_logs :=
  Build_feedback_logs (feedback_last_log_ms l) (limit now (feedback_short_log_ms l))
    (feedback_invalid_log_ms l) (feedback_transport_log_ms l) (logged l) (logged_stale_resets l).

Definition limit_invalid (now : Z) (l : feedback_logs) : feedback_logs :=
  Build_feedback_logs (feedback_last_log_ms l) (feedback_short_log_ms l)
    (limit now (feedback_invalid_log_ms l)) (feedback_transport_log_ms l) (logged l)
    (logged_stale_resets l).

Section feedback.
Context `{ABI : IOKitABI, UABI : USBABI, SABI : IsocABI}.
Context (cfg : ClockConfig) (usb_cfg : USBConfig).

(** ** Finding the endpoint *)

(** The first isochronous IN pipe number 1 and its packet size; [maxima] are the
    packet sizes [GetPipeProperties] gives along with the properties. *)
Fixpoint find_feedback_pipe (pipe : Z) (pipes : list (option (pipe_properties * Z)))
    : option (Z * Z) :=
  match pipes with
  | [] => None
  | Some (p, maximum) :: rest =>
      if negb (p_direction p =? kUSBIn) || negb (p_number p =? 1) || negb (p_type p =? kUSBIsoc)
      then find_feedback_pipe (pipe + 1) rest
      else Some (pipe, Z.land maximum 2047)
  | None :: rest => find_feedback_pipe (pipe + 1) rest
  end.

(** [allocate i] are the two buffers of slot [i], or [None] when an allocation fails. *)
Definition prepare_feedback_reader (pipes : option (list (option (pipe_properties * Z))))
    (allocate : Z → option (list isoc_frame * list Z)) (s : feedback_state) : feedback_state :=
  if negb (ns6_usb_feedback_reader_enabled usb_cfg) || negb (fb_auxiliary s) then s
  else match pipes with
  | None => s
  | Some ps =>
      match find_feedback_pipe 1 ps with
      | None => s
      | Some (pipe, bytes) =>
          let bytes := if bytes >? FEEDBACK_MAX_PACKET then FEEDBACK_MAX_PACKET else bytes in
          if bytes <? 3 then set_fb_slots (fb_slots s) (feedback_in_flight s) 0 0 s
          else match allocate 0, allocate 1 with
               | Some (f0, d0), Some (f1, d1) =>
                   set_fb_slots [ {| fb_frames := Some f0; fb_data := Some d0 |};
                                  {| fb_frames := Some f1; fb_data := Some d1 |} ]
                     (feedback_in_flight s) pipe bytes s
               | _, _ =>
                   set_fb_slots (replicate 2 {| fb_frames := None; fb_data := None |})
                     (feedback_in_flight s) 0 0 s
               end
      end
  end.

(** ** Submitting *)

Definition clear_request (bytes : Z) (f : isoc_frame) : isoc_frame :=
  {| frReqCount := bytes; frActCount := 0; frStatus := 0;
     frTimeStamp_hi := frTimeStamp_hi f; frTimeStamp_lo := frTimeStamp_lo f |}.

(** The state, and whether a read was handed to the interface. *)
Definition feedback_submit (read_result log_ms i : Z) (s : feedback_state) : feedback_state * bool :=
  let slot := rd (fb_slots s) i in
  match fb_data slot, fb_frames slot with
  | Some _, Some frames =>
      if (feedback_pipe s =? 0) || (i >=? FEEDBACK_SLOT_COUNT) then (s, false)
      else if negb (ns6_feedback_read_should_submit (reader_running s) (rd (feedback_in_flight s) i))
      then (s, false)
      else
        let s := set_in_flight i true s in
        let s := set_fb_slots
          (wr (fb_slots s) i {| fb_frames := Some (clear_request (feedback_packet_bytes s) <$> frames);
                                fb_data := fb_data slot |})
          (feedback_in_flight s) (feedback_pipe s) (feedback_packet_bytes s) s in
        if read_result =? kIOReturnSuccess then (s, true)
        else
          let s := set_in_flight i false s in
          (set_reports (feedback_last_sample s) (add_error (fb_counts s))
             (limit_transport log_ms (fb_logs s)) (fb_clock s) s, true)
  | _, _ => (s, false)
  end.

(** ** Completing *)

(** Stage one of a report: the clock, and whether this report locked it. *)
Definition observe_report (now_ms value : Z) (c : clock_state) : clock_state * bool :=
  let was_locked := ns6_clock_control_is_locked (Some (clock_control c)) in
  let valid := ns6_clock_control_feedback_value_is_valid value in
  let control := if valid then ns6_clock_control_observe cfg (clock_control c) value
                 else clock_control c in
  let locked_now := negb was_locked && ns6_clock_control_is_locked (Some control) in
  ({| clock_control := control;
      feedback_last_valid_ms := if valid then now_ms else feedback_last_valid_ms c;
      feedback_stale_resets := feedback_stale_resets c;
      feedback_stale_reset_started_ms := if locked_now then 0
                                         else feedback_stale_reset_started_ms c |}, locked_now).

(** One packet; [now_ms] and [log_ms] are the clock readings, [packet] its bytes. *)
Definition feedback_packet (now_ms log_ms : Z) (f : isoc_frame) (packet : list Z)
    (s : feedback_state) : feedback_state :=
  if negb (frStatus f =? kIOReturnSuccess) then
    set_reports (feedback_last_sample s) (add_error (fb_counts s))
      (limit_transport log_ms (fb_logs s)) (fb_clock s) s
  else if frActCount f <? 3 then
    set_reports (feedback_last_sample s) (add_short (fb_counts s))
      (limit_short log_ms (fb_logs s)) (fb_clock s) s
  else
    let value := rd packet 0 in
    let '(clock, locked_now) := observe_report now_ms value (fb_clock s) in
    set_reports [rd packet 0; rd packet 1; rd packet 2] (add_report value locked_now (fb_counts s))
      (if ns6_clock_control_feedback_value_is_valid value then fb_logs s
       else limit_invalid log_ms (fb_logs s))
      clock s.

(** The report of every second remembers the counters it printed. *)
Definition periodic_log (now_ms : Z) (s : feedback_state) : feedback_state :=
  let l := fb_logs s in
  let '(due, last) := should_log_once_per_second (feedback_last_log_ms l) now_ms in
  let n := fb_counts s in
  set_reports (feedback_last_sample s) n
    (Build_feedback_logs last (feedback_short_log_ms l) (feedback_invalid_log_ms l)
       (feedback_transport_log_ms l) (if due then n else logged l)
       (if due then feedback_stale_resets (fb_clock s) else logged_stale_resets l))
    (fb_clock s) s.

(** What the system answers during a completion. *)
Record feedback_answers := {
  fb_ticks : Z;
  fb_ns : Z;
  fb_now_ms : Z → Z;
  fb_log_ms : Z → Z;
  fb_error_ms : Z;
  fb_periodic_ms : Z;
  fb_read_result : Z;
  fb_submit_ms : Z
}.

Definition feedback_packets (a : feedback_answers) (frames : list isoc_frame) (bytes : list Z)
    (s : feedback_state) : feedback_state :=
  for_loop (Z.to_nat FEEDBACK_PACKETS) 0
    (λ p s, feedback_packet (fb_now_ms a p) (fb_log_ms a p) (rd frames p)
              (drop (Z.to_nat (p * feedback_packet_bytes s)) bytes) s) s.

Definition feedback_complete (a : feedback_answers) (i status : Z) (s : feedback_state)
    : feedback_state * bool :=
  let slot := rd (fb_slots s) i in
  let frames := default [] (fb_frames slot) in
  let s := set_fb_timings (ns6_usb_timing_record (fb_interval s) (fb_ns a))
             (record_lag (fb_timebase s) frames (fb_ticks a) (fb_lag s)) s in
  let s := if i <? FEEDBACK_SLOT_COUNT then set_in_flight i false s else s in
  if negb (reader_running s) then (s, false)
  else if negb (status =? kIOReturnSuccess) then
    feedback_submit (fb_read_result a) (fb_submit_ms a) i
      (set_reports (feedback_last_sample s) (add_error (fb_counts s))
         (limit_transport (fb_error_ms a) (fb_logs s)) (fb_clock s) s)
  else
    let s := feedback_packets a frames (default [] (fb_data slot)) s in
    feedback_submit (fb_read_result a) (fb_submit_ms a) i (periodic_log (fb_periodic_ms a) s).
End feedback.

(** ** Firmware version *)

Record firmware_state := { firmware_response_bits : Z; firmware_response_valid : bool }.

Section firmware.
Context `{ABI : IOKitABI}.

(** The control request's result, the bytes it returned and their number. *)
Definition read_firmware_version (result : Z) (response : list Z) (returned : Z)
    (f : firmware_state) : firmware_state :=
  let invalid := {| firmware_response_bits := firmware_response_bits f;
                    firmware_response_valid := false |} in
  if negb (result =? kIOReturnSuccess) || (returned <? 3) || (returned >? 8) then invalid
  else if negb (ns6_firmware_version_decode (Some response) returned).1 then invalid
  else {| firmware_response_bits :=
            Z.lor (Z.lor (rd response 0) (Z.shiftl (rd response 1) 8)) (Z.shiftl (rd response 2) 16);
          firmware_response_valid := true |}.

Definition ns6_usb_get_firmware_version (f : firmware_state) : bool * list Z :=
  if negb (firmware_response_valid f) then (false, [])
  else
    let packed := firmware_response_bits f in
    ns6_firmware_version_decode
      (Some [u8 packed; u8 (Z.shiftr packed 8); u8 (Z.shiftr packed 16); 0; 0; 0; 0; 0]) 8.
End firmware.

(** ** Every packet is accounted for *)

Section accounting.
Context `{ABI : IOKitABI} (cfg : ClockConfig).

Definition fb_packet : Type := isoc_frame * list Z.

Definition is_failed (p : fb_packet) : bool := negb (frStatus p.1 =? kIOReturnSuccess).
Definition is_short (p : fb_packet) : bool := negb (is_failed p) && (frActCount p.1 <? 3).

(** The reports of a transfer: the first bytes of its usable packets. *)
Definition report (p : fb_packet) : option Z :=
  if is_failed p || is_short p then None else Some (rd p.2 0).
Definition reports (ps : list fb_packet) : list Z := omap report ps.

Definition count {A} (f : A → bool) (l : list A) : Z := Z.of_nat (length (filter f l)).

Definition packets_of (frames : list isoc_frame) (size : Z) (bytes : list Z) : list fb_packet :=
  (λ p, (rd frames p, drop (Z.to_nat (p * size)) bytes)) <$> seqZ 0 FEEDBACK_PACKETS.

Lemma count_snoc {A} (f : A → bool) l x : count f (l ++ [x]) = count f l + Z.b2z (f x).
Proof.
  unfold count. rewrite list.filter_app, length_app. destruct (f x) eqn:E.
  - rewrite list.filter_cons_True by (by rewrite E). cbn. lia.
  - rewrite list.filter_cons_False by (rewrite E; auto). cbn. lia.
Qed.

Lemma count_app {A} (f : A → bool) l k : count f (l ++ k) = count f l + count f k.
Proof. unfold count. rewrite list.filter_app, length_app. lia. Qed.

Definition valid_value (v : Z) : bool := ns6_clock_control_feedback_value_is_valid v.

(** What a list of packets adds to the counters; [locked] says whether the clock was
    locked before. *)
Definition tally (locked : bool) (ps : list fb_packet) (n : feedback_counts) : feedback_counts :=
  let vs := reports ps in
  {| feedback_samples := u64 (feedback_samples n + Z.of_nat (length vs));
     feedback_44_frames := u64 (feedback_44_frames n + count (λ v, v =? 44) vs);
     feedback_45_frames := u64 (feedback_45_frames n + count (λ v, v =? 45) vs);
     feedback_other_values :=
       u64 (feedback_other_values n + count (λ v, negb (v =? 44) && negb (v =? 45)) vs);
     feedback_short_packets := u64 (feedback_short_packets n + count is_short ps);
     feedback_out_of_range_values :=
       u64 (feedback_out_of_range_values n + count (λ v, negb (valid_value v)) vs);
     feedback_lock_events :=
       u64 (feedback_lock_events n + Z.b2z (negb locked && (0 <? count valid_value vs)));
     feedback_packet_errors := u64 (feedback_packet_errors n + count is_failed ps) |}.

(** Every packet is a failure, short or a report. *)
Lemma packets_partition ps :
  count is_failed ps + count is_short ps + Z.of_nat (length (reports ps)) = Z.of_nat (length ps).
Proof.
  induction ps as [|p ps IH] using rev_ind; [done|].
  rewrite !count_snoc, length_app. unfold reports in *. rewrite omap_app, length_app.
  cbn [omap list_omap length]. unfold report at 2.
  assert (is_failed p = true → is_short p = false) as Hx by (unfold is_short; by intros ->).
  destruct (is_failed p), (is_short p); cbn; try (discriminate (Hx eq_refl)); lia.
Qed.

(** The clock after a list of reports. *)
Definition observe_all (c : NS6ClockControl) (vs : list Z) : NS6ClockControl :=
  foldl (ns6_clock_control_observe cfg) c vs.

Lemma observe_locked c v :
  locked (ns6_clock_control_observe cfg c v) = locked c || valid_value v.
Proof.
  unfold ns6_clock_control_observe, valid_value.
  destruct (ns6_clock_control_feedback_value_is_valid v); cbn [negb]; [|by rewrite orb_false_r].
  rewrite orb_true_r. destruct (_ =? NS6_FEEDBACK_WINDOW); destruct (_ && _);
    try destruct (pattern_push _ _ _ _) as [[? ?] ?]; done.
Qed.

Lemma observe_invalid c v : valid_value v = false → ns6_clock_control_observe cfg c v = c.
Proof. unfold ns6_clock_control_observe, valid_value. by intros ->. Qed.

Lemma locked_all c vs : locked (observe_all c vs) = locked c || (0 <? count valid_value vs).
Proof.
  induction vs as [|v vs IH] using rev_ind; [by rewrite orb_false_r|].
  unfold observe_all in *. rewrite foldl_app. cbn [foldl]. rewrite observe_locked, IH, count_snoc.
  assert (0 <= count valid_value vs) by (unfold count; lia).
  destruct (locked c), (valid_value v); cbn [orb Z.b2z]; rewrite ?orb_true_r, ?orb_false_r, ?Z.add_0_r;
    [done..| |done]. symmetry. apply Z.ltb_lt. lia.
Qed.

Lemma u64_acc a b c : u64 (a + b) +₆₄ c = u64 (a + (b + c)).
Proof. unfold u64. rewrite Zplus_mod_idemp_l. f_equal. lia. Qed.

(** Counters and clock after the packets [ps], from counters [n] and clock [c]. *)
Definition counted (n : feedback_counts) (c : NS6ClockControl) (ps : list fb_packet)
    (s : feedback_state) : Prop :=
  fb_counts s = tally (locked c) ps n ∧ clock_control (fb_clock s) = observe_all c (reports ps).

Lemma reports_snoc ps p : reports (ps ++ [p]) = reports ps ++ option_list (report p).
Proof. unfold reports. rewrite omap_app. cbn. by destruct (report p). Qed.

(** A report's effect on the counters. *)
Lemma tally_report c ps n p v :
  is_failed p = false → is_short p = false → report p = Some v →
  let before := locked c || (0 <? count valid_value (reports ps)) in
  add_report v (negb before && valid_value v) (tally (locked c) ps n) = tally (locked c) (ps ++ [p]) n.
Proof.
  intros Hf Hs Hr. cbv zeta. unfold tally, add_report. rewrite reports_snoc, Hr.
  change (option_list (Some v)) with [v].
  cbn [feedback_samples feedback_44_frames feedback_45_frames feedback_other_values
    feedback_short_packets feedback_out_of_range_values feedback_lock_events feedback_packet_errors].
  rewrite !count_snoc, Hf, Hs, length_app, Nat2Z.inj_add. cbn [Z.b2z length].
  rewrite !Z.add_0_r, !u64_acc. fold (valid_value v).
  assert (0 <= count valid_value (reports ps)) as H0 by (unfold count; lia).
  f_equal.
  - destruct (v =? 44); cbn [Z.b2z]; by rewrite ?Z.add_0_r.
  - destruct (Z.eqb_spec v 44) as [->|]; cbn [negb andb]; [by rewrite Z.add_0_r|].
    destruct (v =? 45); cbn [Z.b2z]; by rewrite ?Z.add_0_r.
  - destruct (v =? 44), (v =? 45); cbn [negb andb Z.b2z]; by rewrite ?Z.add_0_r.
  - destruct (valid_value v); cbn [negb Z.b2z]; by rewrite ?Z.add_0_r.
  - set (k := count valid_value (reports ps)) in *. clearbody k.
    destruct (locked c); cbn [negb orb andb]; [done|].
    destruct (valid_value v); cbn [Z.b2z]; rewrite ?Z.add_0_r, ?andb_false_r, ?andb_true_r; [|done].
    rewrite (proj2 (Z.ltb_lt 0 (k + 1)) ltac:(lia)).
    by destruct (Z.ltb_spec 0 k).
Qed.

Lemma packet_counted now log n c ps p s :
  counted n c ps s → counted n c (ps ++ [p]) (feedback_packet cfg now log p.1 p.2 s).
Proof.
  intros [Hn Hc]. unfold feedback_packet. fold (is_failed p).
  destruct (is_failed p) eqn:Hf.
  { assert (report p = None) as Hr by (unfold report; by rewrite Hf).
    assert (is_short p = false) as Hs by (unfold is_short; by rewrite Hf).
    split; cbn [set_reports fb_counts fb_clock]; [|by rewrite reports_snoc, Hr, app_nil_r].
    rewrite Hn. unfold tally, add_error. rewrite reports_snoc, Hr, app_nil_r, !count_snoc, Hf, Hs.
    cbn. by rewrite Z.add_0_r, u64_acc. }
  destruct (frActCount p.1 <? 3) eqn:Ha.
  { assert (is_short p = true) as Hs by (unfold is_short; by rewrite Hf, Ha).
    assert (report p = None) as Hr by (unfold report; by rewrite Hs, orb_true_r).
    split; cbn [set_reports fb_counts fb_clock]; [|by rewrite reports_snoc, Hr, app_nil_r].
    rewrite Hn. unfold tally, add_short. rewrite reports_snoc, Hr, app_nil_r, !count_snoc, Hf, Hs.
    cbn. by rewrite Z.add_0_r, u64_acc. }
  assert (is_short p = false) as Hs by (unfold is_short; by rewrite Hf, Ha).
  assert (report p = Some (rd p.2 0)) as Hr by (unfold report; by rewrite Hf, Hs).
  set (v := rd p.2 0) in *. cbn [observe_report].
  set (control := if ns6_clock_control_feedback_value_is_valid v then _ else _).
  assert (control = ns6_clock_control_observe cfg (clock_control (fb_clock s)) v) as Econtrol.
  { subst control. fold (valid_value v). destruct (valid_value v) eqn:Ev; [done|].
    by rewrite observe_invalid. }
  split; cbn [set_reports fb_counts fb_clock clock_control].
  - rewrite <- (tally_report c ps n p v Hf Hs Hr), Hn. f_equal.
    cbn [ns6_clock_control_is_locked from_option]. rewrite Econtrol, observe_locked, Hc, locked_all.
    destruct (locked c || _); [done|]. by destruct (valid_value v).
  - rewrite reports_snoc, Hr. change (option_list (Some v)) with [v].
    unfold observe_all. rewrite foldl_app. cbn [foldl].
    rewrite Econtrol, Hc. done.
Qed.
(** All counters hold 64-bit values. *)
Definition counts_ok (n : feedback_counts) : Prop :=
  Forall is_u64 [feedback_samples n; feedback_44_frames n; feedback_45_frames n;
    feedback_other_values n; feedback_short_packets n; feedback_out_of_range_values n;
    feedback_lock_events n; feedback_packet_errors n].

Lemma tally_nil b n : counts_ok n → tally b [] n = n.
Proof.
  intros Hn. unfold counts_ok in Hn.
  repeat (apply Forall_cons_1 in Hn as [? Hn]). unfold tally. cbn.
  rewrite andb_false_r. cbn. rewrite !Z.add_0_r, !u64_id by done. by destruct n.
Qed.

Definition loop_rest (s s' : feedback_state) : Prop :=
  reader_running s' = reader_running s ∧ fb_slots s' = fb_slots s ∧
  feedback_in_flight s' = feedback_in_flight s ∧ feedback_pipe s' = feedback_pipe s ∧
  feedback_packet_bytes s' = feedback_packet_bytes s.

Lemma feedback_packet_rest now log f b s : loop_rest s (feedback_packet cfg now log f b s).
Proof.
  unfold feedback_packet. destruct (negb _); [done|]. destruct (_ <? 3); [done|].
  by destruct (observe_report _ _ _ _).
Qed.

Lemma packets_take frames size bytes k :
  0 <= k < 32 →
  take (Z.to_nat (k + 1)) (packets_of frames size bytes) =
  take (Z.to_nat k) (packets_of frames size bytes) ++ [(rd frames k, drop (Z.to_nat (k * size)) bytes)].
Proof.
  intros Hk. replace (Z.to_nat (k + 1)) with (S (Z.to_nat k)) by lia. apply take_S_r.
  unfold packets_of. rewrite list_lookup_fmap, lookup_seqZ_lt by (unfold FEEDBACK_PACKETS; lia).
  replace (0 + Z.of_nat (Z.to_nat k)) with k by lia. reflexivity.
Qed.

Lemma feedback_packets_counted a frames bytes s :
  counts_ok (fb_counts s) →
  let ps := packets_of frames (feedback_packet_bytes s) bytes in
  let s' := feedback_packets cfg a frames bytes s in
  counted (fb_counts s) (clock_control (fb_clock s)) ps s' ∧ loop_rest s s'.
Proof.
  intros Hn ps s'.
  assert (counted (fb_counts s) (clock_control (fb_clock s)) (take (Z.to_nat 32) ps) s' ∧
    loop_rest s s') as H.
  { apply (for_loop_ind (λ k s', counted (fb_counts s) (clock_control (fb_clock s))
      (take (Z.to_nat k) ps) s' ∧ loop_rest s s') (Z.to_nat FEEDBACK_PACKETS) 0).
    - split; [|done]. split; [by rewrite tally_nil|done].
    - intros k s1 Hk [Hc (R1 & R2 & R3 & R4 & R5)]. unfold ps.
      rewrite packets_take by (unfold FEEDBACK_PACKETS in Hk; lia). rewrite R5. split.
      + by apply (packet_counted _ _ _ _ _ (rd frames k, _)).
      + destruct (feedback_packet_rest (fb_now_ms a k) (fb_log_ms a k) (rd frames k)
          (drop (Z.to_nat (k * feedback_packet_bytes s)) bytes) s1) as (? & ? & ? & ? & ?).
        repeat split; congruence. }
  rewrite take_ge in H; [exact H|]. unfold ps, packets_of. rewrite length_fmap, length_seqZ. done.
Qed.

(** Submitting an idle slot, with the read accepted. *)
Lemma feedback_submit_ok log i s :
  reader_running s = true → feedback_pipe s ≠ 0 → 0 <= i < FEEDBACK_SLOT_COUNT →
  rd (feedback_in_flight s) i = false →
  (∃ f b, rd (fb_slots s) i = {| fb_frames := Some f; fb_data := Some b |}) →
  Z.of_nat (length (feedback_in_flight s)) = FEEDBACK_SLOT_COUNT →
  let r := feedback_submit kIOReturnSuccess log i s in
  r.2 = true ∧ rd (feedback_in_flight r.1) i = true ∧ fb_counts r.1 = fb_counts s ∧
  fb_clock r.1 = fb_clock s.
Proof.
  intros Hr Hp Hi Hf (f & b & Es) Hl. cbv zeta. unfold feedback_submit. rewrite Es. cbn [fb_data fb_frames].
  rewrite (proj2 (Z.eqb_neq _ _) Hp). replace (i >=? FEEDBACK_SLOT_COUNT) with false by lia.
  rewrite Hr, Hf, Z.eqb_refl. cbn. split; [done|]. split; [|done].
  apply rd_wr_eq. lia.
Qed.

(** A completed feedback transfer accounts for each of its 32 packets exactly once:
    as a transport error, as a short packet or as a report.  The counters grow by these
    numbers and by the reports of 44, of 45 and of other values; the clock has observed the
    reports in order; a lock event is counted exactly when the clock was unlocked and a
    valid report came in; and the transfer is submitted again. *)
Theorem feedback_transfer_accounts a i s frames bytes :
  reader_running s = true → feedback_pipe s ≠ 0 → 0 <= i < FEEDBACK_SLOT_COUNT →
  Z.of_nat (length (feedback_in_flight s)) = FEEDBACK_SLOT_COUNT →
  rd (fb_slots s) i = {| fb_frames := Some frames; fb_data := Some bytes |} →
  counts_ok (fb_counts s) → fb_read_result a = kIOReturnSuccess →
  let ps := packets_of frames (feedback_packet_bytes s) bytes in
  let '(s', submitted) := feedback_complete cfg a i kIOReturnSuccess s in
  fb_counts s' = tally (locked (clock_control (fb_clock s))) ps (fb_counts s) ∧
  count is_failed ps + count is_short ps + Z.of_nat (length (reports ps)) = FEEDBACK_PACKETS ∧
  clock_control (fb_clock s') = observe_all (clock_control (fb_clock s)) (reports ps) ∧
  submitted = true ∧ rd (feedback_in_flight s') i = true.
Proof.
  intros Hr Hp Hi Hl Es Hn Ha ps. unfold feedback_complete. cbv zeta. rewrite Es, Ha. cbn [fb_frames fb_data default from_option id].
  replace (i <? FEEDBACK_SLOT_COUNT) with true by lia.
  set (s1 := set_in_flight i false (set_fb_timings _ _ s)).
  change (reader_running s1) with (reader_running s). rewrite Hr, Z.eqb_refl. cbn [negb].
  destruct (feedback_packets_counted a frames bytes s1 Hn) as [[Hc Hk] (R1 & R2 & R3 & R4 & R5)].
  change (feedback_packet_bytes s1) with (feedback_packet_bytes s) in Hc, Hk. fold ps in Hc, Hk.
  set (s2 := feedback_packets cfg a frames bytes s1) in *. clearbody s2.
  set (s3 := periodic_log (fb_periodic_ms a) s2).
  assert (fb_counts s3 = fb_counts s2 ∧ fb_clock s3 = fb_clock s2 ∧ loop_rest s2 s3) as (E1 & E2 & E3).
  { subst s3. unfold periodic_log. by destruct (should_log_once_per_second _ _). }
  destruct E3 as (Q1 & Q2 & Q3 & Q4 & Q5). clearbody s3.
  destruct (feedback_submit_ok (fb_submit_ms a) i s3) as (F1 & F2 & F3 & F4).
  { by rewrite Q1, R1. }
  { by rewrite Q4, R4. }
  { done. }
  { rewrite Q3, R3. unfold s1. cbn. apply rd_wr_eq. lia. }
  { exists frames, bytes. by rewrite Q2, R2. }
  { rewrite Q3, R3. unfold s1. cbn. by rewrite length_wr. }
  destruct (feedback_submit _ _ _ _) as [s4 sub]. cbn [fst snd] in *.
  split; [by rewrite F3, E1, Hc|]. split.
  { rewrite packets_partition. unfold ps, packets_of. rewrite length_fmap, length_seqZ. done. }
  split; [by rewrite F4, E2, Hk|]. done.
Qed.
End accounting.

(** Two transfers; the first reports 44 once, an invalid 7 once, fails once and is short
    for the rest. *)
Definition example_counts : feedback_counts := Build_feedback_counts 0 0 0 0 0 0 0 0.
Definition example_frames : list isoc_frame :=
  Build_isoc_frame 3 3 0 0 0 :: Build_isoc_frame 3 3 0 0 0 :: Build_isoc_frame 3 3 5 0 0 ::
  replicate 29 (Build_isoc_frame 3 0 0 0 0).
Definition example_feedback : feedback_state :=
  {| reader_running := true;
     fb_slots := [ {| fb_frames := Some example_frames; fb_data := Some ([44; 0; 0; 7] ++ replicate 92 0) |};
                   {| fb_frames := Some []; fb_data := Some [] |} ];
     feedback_in_flight := [true; true]; feedback_pipe := 1; feedback_packet_bytes := 3;
     fb_auxiliary := true; feedback_last_sample := [0; 0; 0]; fb_counts := example_counts;
     fb_logs := Build_feedback_logs 0 0 0 0 example_counts 0;
     fb_clock := {| clock_control := ns6_clock_control_init; feedback_last_valid_ms := 0;
                    feedback_stale_resets := 0; feedback_stale_reset_started_ms := 0 |};
     fb_interval := ns6_usb_timing_init; fb_lag := ns6_usb_timing_init; fb_timebase := (1, 1) |}.
Definition example_answers : feedback_answers :=
  Build_feedback_answers 0 0 (λ p, 100 + p) (λ p, 100 + p) 0 0 0 0.

Lemma feedback_transfer_accounts_witness :
  let '(s', submitted) := @feedback_complete example_iokit default_config example_answers 0 0 example_feedback in
  fb_counts s' = Build_feedback_counts 2 1 0 1 29 1 1 1 ∧ submitted = true.
Proof.
  pose proof (@feedback_transfer_accounts example_iokit default_config example_answers 0
    example_feedback example_frames ([44; 0; 0; 7] ++ replicate 92 0) eq_refl
    ltac:(discriminate) ltac:(split; reflexivity || lia) eq_refl eq_refl
    ltac:(unfold counts_ok, is_u64; repeat constructor; cbn; lia) eq_refl) as H.
  cbv zeta in H. change (@kIOReturnSuccess example_iokit) with 0 in H.
  destruct (feedback_complete _ _ _ _ _) as [s' sub]. destruct H as (E & _ & _ & -> & _).
  split; [|done]. rewrite E. vm_compute. reflexivity.
Defined.
