(* ===== verification/UsbLifecycle.v ===== *)
(** * Life of the USB worker (NS6USB.c)

    [initialize] opens the two interfaces of the controller, its event sources and
    buffers; [cleanup] gives them back; [worker] repeats both with the session in
    between; [ns6_usb_start], [ns6_usb_stop] and [ns6_usb_request_restart] are
    called from outside.  The model keeps, beside the static variables, a ledger of
    the system objects that are outstanding. *)

From stdpp Require Import base list numbers tactics.
From Stdlib Require Import ZArith Lia ZifyBool.
From S2P Require Import Prelude Float Pcm Transport CaptureRing ClockControl ClockTheory MidiReads.
From S2P Require Import MidiSession Policies Timing UsbOutput UsbCapture UsbFeedback.

(** ** Resources *)

Inductive handle := Absent | Held | Opened.

#[export] Instance handle_eq_dec : EqDecision handle.
Proof. solve_decision. Defined.

(** Objects obtained from the system and not yet given back: interface references,
    exclusive opens, event sources, references of the run loop, low-latency buffers. *)
Record ledger := {
  references : Z;
  opens : Z;
  sources : Z;
  run_loops : Z;
  buffers : Z
}.

(** The data and frame-list buffers of a transfer slot. *)
Definition buffer_pair : Type := bool * bool.

Record resources := {
  interface : handle;
  auxiliary : handle;
  source : bool;
  feedback_source : bool;
  run_loop : bool;
  slot_buffers : list buffer_pair;
  feedback_buffers : list buffer_pair;
  r_feedback_pipe : Z;
  r_feedback_packet_bytes : Z;
  r_waveform_pipe : Z;
  system : ledger
}.

Definition no_buffers (n : Z) : list buffer_pair := replicate (Z.to_nat n) (false, false).

Definition empty_ledger : ledger :=
  {| references := 0; opens := 0; sources := 0; run_loops := 0; buffers := 0 |}.

Section lifecycle.
Context `{ABI : IOKitABI, UABI : USBABI, SABI : IsocABI}.
Context (usb_cfg : USBConfig).

Definition released : resources :=
  {| interface := Absent; auxiliary := Absent; source := false; feedback_source := false;
     run_loop := false; slot_buffers := no_buffers (ns6_usb_output_slot_count usb_cfg);
     feedback_buffers := no_buffers FEEDBACK_SLOT_COUNT; r_feedback_pipe := 0;
     r_feedback_packet_bytes := 0; r_waveform_pipe := 0; system := empty_ledger |}.

(** ** Steps that acquire *)

Definition charge (refs ops srcs loops bufs : Z) (l : ledger) : ledger :=
  {| references := references l + refs; opens := opens l + ops; sources := sources l + srcs;
     run_loops := run_loops l + loops; buffers := buffers l + bufs |}.

Definition with_interface (h : handle) (refs ops : Z) (r : resources) : resources :=
  {| interface := h; auxiliary := auxiliary r; source := source r;
     feedback_source := feedback_source r; run_loop := run_loop r; slot_buffers := slot_buffers r;
     feedback_buffers := feedback_buffers r; r_feedback_pipe := r_feedback_pipe r;
     r_feedback_packet_bytes := r_feedback_packet_bytes r; r_waveform_pipe := r_waveform_pipe r;
     system := charge refs ops 0 0 0 (system r) |}.

Definition with_auxiliary (h : handle) (refs ops : Z) (r : resources) : resources :=
  {| interface := interface r; auxiliary := h; source := source r;
     feedback_source := feedback_source r; run_loop := run_loop r; slot_buffers := slot_buffers r;
     feedback_buffers := feedback_buffers r; r_feedback_pipe := r_feedback_pipe r;
     r_feedback_packet_bytes := r_feedback_packet_bytes r; r_waveform_pipe := r_waveform_pipe r;
     system := charge refs ops 0 0 0 (system r) |}.

Definition with_waveform_pipe (pipe : Z) (r : resources) : resources :=
  {| interface := interface r; auxiliary := auxiliary r; source := source r;
     feedback_source := feedback_source r; run_loop := run_loop r; slot_buffers := slot_buffers r;
     feedback_buffers := feedback_buffers r; r_feedback_pipe := r_feedback_pipe r;
     r_feedback_packet_bytes := r_feedback_packet_bytes r; r_waveform_pipe := pipe;
     system := system r |}.

Definition with_loops (src fsrc loop : bool) (srcs loops : Z) (r : resources) : resources :=
  {| interface := interface r; auxiliary := auxiliary r; source := src; feedback_source := fsrc;
     run_loop := loop; slot_buffers := slot_buffers r; feedback_buffers := feedback_buffers r;
     r_feedback_pipe := r_feedback_pipe r; r_feedback_packet_bytes := r_feedback_packet_bytes r;
     r_waveform_pipe := r_waveform_pipe r; system := charge 0 0 srcs loops 0 (system r) |}.

Definition with_slots (bs : list buffer_pair) (bufs : Z) (r : resources) : resources :=
  {| interface := interface r; auxiliary := auxiliary r; source := source r;
     feedback_source := feedback_source r; run_loop := run_loop r; slot_buffers := bs;
     feedback_buffers := feedback_buffers r; r_feedback_pipe := r_feedback_pipe r;
     r_feedback_packet_bytes := r_feedback_packet_bytes r; r_waveform_pipe := r_waveform_pipe r;
     system := charge 0 0 0 0 bufs (system r) |}.

Definition with_feedback (bs : list buffer_pair) (pipe bytes bufs : Z) (r : resources) : resources :=
  {| interface := interface r; auxiliary := auxiliary r; source := source r;
     feedback_source := feedback_source r; run_loop := run_loop r; slot_buffers := slot_buffers r;
     feedback_buffers := bs; r_feedback_pipe := pipe; r_feedback_packet_bytes := bytes;
     r_waveform_pipe := r_waveform_pipe r; system := charge 0 0 0 0 bufs (system r) |}.

(** ** [initialize] *)

(** What the system answers; a result is an [IOReturn], [created] says whether the call
    left a source. *)
Record initialize_answers := {
  found_0 : bool;
  open_0 : Z;
  found_1 : bool;
  open_1 : Z;
  alternate_1 : Z;
  waveform_pipes : option (list (option pipe_properties));
  source_result : Z;
  source_created : bool;
  feedback_source_result : Z;
  feedback_source_created : bool;
  alternate_0 : Z;
  capability_result : Z;
  capability_length : Z;
  capability_details : Z;
  clock_134 : Z;
  clock_2 : Z;
  read_mode : Z;
  set_mode : Z;
  feedback_pipes : option (list (option (pipe_properties * Z)));
  feedback_data : Z → Z;
  feedback_list : Z → Z;
  slot_data : Z → Z;
  slot_list : Z → Z
}.

Definition ok (result : Z) : bool := result =? kIOReturnSuccess.

(** Allocating the two buffers of each slot in order, until a call fails: the flags, the
    number of buffers and whether all calls succeeded. *)
Fixpoint allocate (n : nat) (i : Z) (data list_ : Z → Z) : list buffer_pair * Z * bool :=
  match n with
  | O => ([], 0, true)
  | S n' =>
      if negb (ok (data i)) then ((false, false) :: replicate n' (false, false), 0, false)
      else if negb (ok (list_ i)) then ((true, false) :: replicate n' (false, false), 1, false)
      else let '(bs, count, all) := allocate n' (i + 1) data list_ in
           ((true, true) :: bs, count + 2, all)
  end.

(** The buffers a list of slots holds. *)
Definition allocated (bs : list buffer_pair) : Z :=
  foldr (λ b n, Z.b2z b.1 + Z.b2z b.2 + n) 0 bs.

(** The optional reader: a failed allocation is undone at once. *)
Definition initialize_feedback (a : initialize_answers) (r : resources) : resources :=
  if negb (ns6_usb_feedback_reader_enabled usb_cfg) then r
  else match auxiliary r, feedback_pipes a with
  | Absent, _ | _, None => r
  | _, Some ps =>
      match find_feedback_pipe 1 ps with
      | None => r
      | Some (pipe, bytes) =>
          let bytes := if bytes >? FEEDBACK_MAX_PACKET then FEEDBACK_MAX_PACKET else bytes in
          if bytes <? 3 then with_feedback (feedback_buffers r) 0 0 0 r
          else
            let '(bs, count, all) :=
              allocate (Z.to_nat FEEDBACK_SLOT_COUNT) 0 (feedback_data a) (feedback_list a) in
            if (all : bool) then with_feedback bs pipe bytes count r
            else with_feedback (no_buffers FEEDBACK_SLOT_COUNT) 0 0 (- allocated bs)
                   (with_feedback bs pipe bytes count r)
      end
  end.

Definition initialize_slots (a : initialize_answers) (r : resources) : bool * resources :=
  let '(bs, count, all) :=
    allocate (Z.to_nat (ns6_usb_output_slot_count usb_cfg)) 0 (slot_data a) (slot_list a) in
  (all, with_slots bs count r).

(** The control requests in order; each must succeed. *)
Definition requests (a : initialize_answers) : bool :=
  ok (alternate_0 a) && ok (capability_result a) &&
  ((capability_length a =? 0) || ok (capability_details a)) &&
  ok (clock_134 a) && ok (clock_2 a) && ok (read_mode a) && ok (set_mode a).

(** From the event sources on. *)
Definition initialize_session (a : initialize_answers) (r : resources) : bool * resources :=
  let r := with_loops (ok (source_result a) && source_created a) (feedback_source r) (run_loop r)
             (if ok (source_result a) && source_created a then 1 else 0) 0 r in
  if negb (ok (source_result a)) || negb (source_created a) then (false, r)
  else
    let r := with_loops (source r) (feedback_source r) true 0 1 r in
    let created := ok (feedback_source_result a) && feedback_source_created a in
    let r := with_loops (source r) created (run_loop r) (if created then 1 else 0) 0 r in
    if negb created then (false, r)
    else if negb (requests a) then (false, r)
    else initialize_slots a (initialize_feedback a r).

Definition initialize (a : initialize_answers) (r : resources) : bool * resources :=
  if negb (found_0 a) then (false, r)
  else
    let r := with_interface Held 1 0 r in
    if negb (ok (open_0 a)) then (false, r)
    else
      let r := with_interface Opened 0 1 r in
      if negb (found_1 a) then (false, r)
      else
        let r := with_auxiliary Held 1 0 r in
        if negb (ok (open_1 a)) then (false, r)
        else
          let r := with_auxiliary Opened 0 1 r in
          if negb (ok (alternate_1 a)) then (false, r)
          else
            let r := match waveform_pipes a with
                     | Some ps => with_waveform_pipe (find_waveform_pipe 1 ps) r
                     | None => r
                     end in
            initialize_session a r.

(** ** [cleanup] *)

(** Buffers are destroyed through the interface they were created with. *)
Definition release_feedback (r : resources) : resources :=
  with_feedback (no_buffers FEEDBACK_SLOT_COUNT) 0 0
    (match auxiliary r with Absent => 0 | _ => - allocated (feedback_buffers r) end) r.

Definition release_slots (r : resources) : resources :=
  with_slots (no_buffers (ns6_usb_output_slot_count usb_cfg))
    (match interface r with Absent => 0 | _ => - allocated (slot_buffers r) end) r.

Definition release_sources (r : resources) : resources :=
  with_loops false false false (- (Z.b2z (source r) + Z.b2z (feedback_source r)))
    (- Z.b2z (run_loop r)) r.

(** Closing an interface that is not open changes nothing. *)
Definition close_handle (h : handle) : Z * Z :=
  match h with Absent => (0, 0) | Held => (-1, 0) | Opened => (-1, -1) end.

(** [AbortPipe] and the last turn of the run loop let the transfers in flight complete; what
    their completions do is the subject of UsbWorker.v. *)
Definition cleanup (r : resources) : resources :=
  let r := release_sources (release_slots (with_waveform_pipe 0 (release_feedback r))) in
  let '(refs1, opens1) := close_handle (auxiliary r) in
  let r := with_auxiliary Absent refs1 opens1 r in
  let '(refs0, opens0) := close_handle (interface r) in
  with_interface Absent refs0 opens0 r.

(** ** The worker thread *)

(** The variables other threads see, and the resources of the worker. *)
Record driver := {
  thread_created : bool;
  initialized : bool;
  d_running : bool;
  d_recovery_requested : bool;
  d_output_paused : bool;
  res : resources
}.

Definition set_driver (created init run rec : bool) (r : resources) (d : driver) : driver :=
  {| thread_created := created; initialized := init; d_running := run; d_recovery_requested := rec;
     d_output_paused := d_output_paused d; res := r |}.

(** What one turn of the loop meets: the answers of the system, and whether the worker was
    told to stop before it retries a failed setup, or during the session; a session that
    was not stopped ends with a request for recovery, a stopped one may also have one. *)
Record round_answers := {
  setup : initialize_answers;
  stopped_in_setup : bool;
  stopped_in_session : bool;
  recovering : bool
}.

(** The state while the session runs, with [initialized] published. *)
Definition in_session (a : round_answers) (d : driver) : driver :=
  let '(ready, r) := initialize (setup a) (res d) in
  set_driver (thread_created d) ready (d_running d) false r d.

(** One turn; the first result says whether the loop goes on. *)
Definition worker_round (first_attempt : bool) (a : round_answers) (d : driver) : bool * driver :=
  let '(ready, r) := initialize (setup a) (res d) in
  if first_attempt && negb ready then
    (false, set_driver (thread_created d) false false false (cleanup r) d)
  else if negb ready then
    (true, set_driver (thread_created d) false (d_running d && negb (stopped_in_setup a)) false
             (cleanup r) d)
  else
    (true, set_driver (thread_created d) false (d_running d && negb (stopped_in_session a))
             (recovering a || negb (stopped_in_session a)) (cleanup r) d).

Fixpoint worker (first_attempt : bool) (rounds : list round_answers) (d : driver) : driver :=
  match rounds with
  | [] => d
  | a :: rest =>
      if d_running d then
        let '(go, d') := worker_round first_attempt a d in
        if (go : bool) then worker false rest d' else d'
      else d
  end.

(** ** Calls from outside

    [created] is the result of [pthread_create], [first] the first turn of the worker, which
    [ns6_usb_start] waits for. *)

Definition ns6_usb_start (created : bool) (first : round_answers) (d : driver) : bool * driver :=
  if thread_created d then (initialized d, d)
  else
    let d := {| thread_created := false; initialized := false; d_running := true;
                d_recovery_requested := false; d_output_paused := true; res := res d |} in
    if negb created then
      (false, set_driver false false false (d_recovery_requested d) (res d) d)
    else
      let d := set_driver true false true (d_recovery_requested d) (res d) d in
      let d' := in_session first d in
      if initialized d' then (true, d')
      else let '(_, d'') := worker_round true first d in
           (false, set_driver false false (d_running d'') (d_recovery_requested d'') (res d'') d'').

Definition ns6_usb_request_restart (created : bool) (first : round_answers) (d : driver)
    : bool * driver :=
  if negb (thread_created d) then ns6_usb_start created first d
  else (true, {| thread_created := true; initialized := false; d_running := d_running d;
                 d_recovery_requested := true; d_output_paused := true; res := res d |}).

Definition ns6_usb_is_ready (d : driver) : bool :=
  thread_created d && initialized d && d_running d.

(** The join waits for the worker, which leaves its session and cleans up. *)
Definition ns6_usb_stop (d : driver) : driver :=
  if negb (thread_created d) then d
  else {| thread_created := false; initialized := false; d_running := false;
          d_recovery_requested := d_recovery_requested d; d_output_paused := true;
          res := cleanup (res d) |}.
End lifecycle.

(** ** Pausing *)

Definition ns6_usb_set_paused (paused recovering : bool) (g : gate_state) : gate_state :=
  if negb paused && recovering then g
  else {| output_paused := paused;
          awaiting_audio_prefill := if negb paused && output_paused g then true
                                    else awaiting_audio_prefill g;
          standby_prime_pending := standby_prime_pending g;
          startup_buffer_frames := startup_buffer_frames g |}.

Definition ns6_usb_set_startup_buffer_frames (frames : Z) (g : gate_state) : gate_state :=
  {| output_paused := output_paused g; awaiting_audio_prefill := awaiting_audio_prefill g;
     standby_prime_pending := standby_prime_pending g; startup_buffer_frames := frames |}.

(** ** What a start resets *)

Definition start_counters `{IOKitABI} : isoc_counters :=
  {| completed_transfers := 0; isoc_transfer_errors := 0; isoc_packet_errors := 0;
     isoc_short_packets := 0; isoc_short_bytes := 0; isoc_60_byte_packets := 0;
     isoc_72_byte_packets := 0; isoc_other_size_packets := 0; last_packet_log_ms := 0;
     last_packet_status := kIOReturnSuccess |}.

Definition start_timings : usb_timings :=
  let t := ns6_usb_timing_init in Build_usb_timings t t t t t t t t t t.

(** The output: counters, clock, gate and ring; the recovery sample and the level stay. *)
Definition start_output `{IOKitABI} (base : Z * Z) (w : out_worker) : out_worker :=
  let u := output w in
  {| running := true; recovery_requested := false;
     output :=
       {| transport := ns6_transport_reset (transport u);
          clock := {| clock_control := ns6_clock_control_init; feedback_last_valid_ms := 0;
                      feedback_stale_resets := 0; feedback_stale_reset_started_ms := 0 |};
          gate := {| output_paused := true;
                     awaiting_audio_prefill := awaiting_audio_prefill (gate u);
                     standby_prime_pending := true;
                     startup_buffer_frames := startup_buffer_frames (gate u) |};
          recovery := recovery u;
          underrun := {| underrun_frames := 0; underrun_events := 0; underrun_max_burst := 0;
                         last_underrun_log_ms := 0 |};
          output_pcm_peak := output_pcm_peak u;
          output_pcm_nonzero_frames := output_pcm_nonzero_frames u |};
     slots := slots w; counters := start_counters; timings := start_timings; timebase := base |}.

(** The capture side; a bound ring belongs to the shared memory and is left alone. *)
Definition start_capture (c : capture) : capture :=
  let c := match shared c with
           | None => set_ring (ns6_capture_ring_init (capture_ring c)) c
           | Some _ => c
           end in
  set_counters 0 0 (waveform_completions c) (waveform_errors c) (waveform_last_log_ms c)
    (set_drain false (set_demand false 0 (shared c) c)).

(** ** The worker's poll of the capture demand *)

Inductive drain_action := DrainKeep | DrainStart | DrainStop.

(** [now] is the clock reading; [keep_idle] is [NS6_KEEP_WAVEFORM_DRAIN_IDLE]. *)
Definition capture_requested_now (now : Z) (c : capture) : bool :=
  requested c && negb (last_demand c =? 0) && (now -₆₄ last_demand c <? DEMAND_NS).

Definition drain_decision (keep_idle midi_session_active : bool) (now : Z) (c : capture)
    : drain_action :=
  let capture_requested := capture_requested_now now c in
  let should_run := ns6_bulk_in_reads_should_run keep_idle midi_session_active capture_requested in
  let running := waveform_drain_running c in
  if capture_requested && negb running then DrainStart
  else if negb should_run && running then DrainStop
  else if should_run && negb running then DrainStart
  else DrainKeep.

Definition poll_capture `{IOKitABI, BulkABI} (keep_idle midi_session_active : bool) (now : Z)
    (results : Z → read_results) (c : capture) : capture :=
  match drain_decision keep_idle midi_session_active now c with
  | DrainStart => start_waveform_drain results c
  | DrainStop => stop_waveform_drain c
  | DrainKeep => c
  end.

(** ** Nothing leaks *)

Section leaks.
Context `{ABI : IOKitABI, UABI : USBABI, SABI : IsocABI}.
Context (usb_cfg : USBConfig).

(** The ledger agrees with the variables. *)
Record balanced (r : resources) : Prop := {
  b_references : references (system r) + fst (close_handle (interface r)) +
                 fst (close_handle (auxiliary r)) = 0;
  b_opens : opens (system r) + snd (close_handle (interface r)) +
            snd (close_handle (auxiliary r)) = 0;
  b_sources : sources (system r) = Z.b2z (source r) + Z.b2z (feedback_source r);
  b_loops : run_loops (system r) = Z.b2z (run_loop r);
  b_buffers : buffers (system r) = allocated (slot_buffers r) + allocated (feedback_buffers r);
  b_slots : interface r = Absent → allocated (slot_buffers r) = 0;
  b_feedback : auxiliary r = Absent → allocated (feedback_buffers r) = 0
}.

Lemma allocated_none n : allocated (replicate n (false, false)) = 0.
Proof. unfold allocated. induction n as [|n IH]; [done|]. cbn [replicate foldr]. rewrite IH. done. Qed.

Lemma allocate_spec n i data list_ :
  let '(bs, count, all) := allocate n i data list_ in
  allocated bs = count ∧ (all = true → bs = replicate n (true, true)).
Proof.
  revert i. induction n as [|n IH]; intros i; cbn [allocate]; [done|].
  destruct (negb (ok (data i))).
  { split; [|done]. unfold allocated. cbn [foldr]. fold (allocated (replicate n (false, false))).
    by rewrite allocated_none. }
  destruct (negb (ok (list_ i))).
  { split; [|done]. unfold allocated. cbn [foldr]. fold (allocated (replicate n (false, false))).
    by rewrite allocated_none. }
  specialize (IH (i + 1)). destruct (allocate n (i + 1) data list_) as [[bs count] all].
  destruct IH as [H1 H2]. split.
  - unfold allocated in *. cbn [foldr]. rewrite H1. cbn. lia.
  - intros Ha. cbn. f_equal. by apply H2.
Qed.

Lemma balanced_released : balanced (released usb_cfg).
Proof. split; cbn; unfold no_buffers; rewrite ?allocated_none; done. Qed.

(** Cleaning up a balanced state gives everything back. *)
Lemma cleanup_balanced r : balanced r → cleanup usb_cfg r = released usb_cfg.
Proof.
  destruct r as [hi ha src fsrc loop sb fb fp fpb wp [refs ops srcs loops bufs]].
  intros [H1 H2 H3 H4 H5 H6 H7].
  cbn [interface auxiliary source feedback_source run_loop slot_buffers feedback_buffers system
    references opens sources run_loops buffers] in *.
  set (A := allocated sb) in *. set (B := allocated fb) in *.
  destruct hi, ha; cbn in H1, H2; try specialize (H6 eq_refl); try specialize (H7 eq_refl);
    cbv [cleanup release_sources release_slots release_feedback with_waveform_pipe with_interface
      with_auxiliary with_loops with_slots with_feedback charge close_handle released empty_ledger
      interface auxiliary source feedback_source run_loop slot_buffers feedback_buffers r_feedback_pipe
      r_feedback_packet_bytes r_waveform_pipe system references opens sources run_loops buffers];
    fold A; fold B; f_equal; f_equal;
    clearbody A B; clear -H1 H2 H3 H4 H5 H6 H7; lia.
Qed.

(** Everything a session needs. *)
Definition complete_session (r : resources) : Prop :=
  interface r = Opened ∧ auxiliary r = Opened ∧ source r = true ∧ feedback_source r = true ∧
  run_loop r = true ∧
  slot_buffers r = replicate (Z.to_nat (ns6_usb_output_slot_count usb_cfg)) (true, true).

(** Each step that acquires or releases keeps the ledger right. *)
Ltac fields :=
  cbn [with_interface with_auxiliary with_loops with_slots with_feedback interface auxiliary slot_buffers
    feedback_buffers system charge references opens sources run_loops buffers source feedback_source run_loop].

Lemma balanced_interface h refs ops r :
  balanced r → h ≠ Absent → refs = fst (close_handle (interface r)) - fst (close_handle h) →
  ops = snd (close_handle (interface r)) - snd (close_handle h) →
  balanced (with_interface h refs ops r).
Proof.
  intros [H1 H2 H3 H4 H5 H6 H7] Hh -> ->.
  split; fields; [clear -H1; lia|clear -H2; lia|clear -H3; lia|clear -H4; lia|clear -H5; lia|done|done].
Qed.

Lemma balanced_auxiliary h refs ops r :
  balanced r → h ≠ Absent → refs = fst (close_handle (auxiliary r)) - fst (close_handle h) →
  ops = snd (close_handle (auxiliary r)) - snd (close_handle h) →
  balanced (with_auxiliary h refs ops r).
Proof.
  intros [H1 H2 H3 H4 H5 H6 H7] Hh -> ->.
  split; fields; [clear -H1; lia|clear -H2; lia|clear -H3; lia|clear -H4; lia|clear -H5; lia|done|done].
Qed.

Lemma balanced_pipe pipe r : balanced r → balanced (with_waveform_pipe pipe r).
Proof. intros [H1 H2 H3 H4 H5 H6 H7]. by split. Qed.

Lemma balanced_loops src fsrc loop srcs loops r :
  balanced r →
  srcs = Z.b2z src + Z.b2z fsrc - (Z.b2z (source r) + Z.b2z (feedback_source r)) →
  loops = Z.b2z loop - Z.b2z (run_loop r) →
  balanced (with_loops src fsrc loop srcs loops r).
Proof.
  intros [H1 H2 H3 H4 H5 H6 H7] -> ->.
  split; fields; [clear -H1; lia|clear -H2; lia|clear -H3; lia|clear -H4; lia|clear -H5; lia|done|done].
Qed.

Lemma balanced_slots bs n r :
  balanced r → interface r ≠ Absent → n = allocated bs - allocated (slot_buffers r) →
  balanced (with_slots bs n r).
Proof.
  intros [H1 H2 H3 H4 H5 H6 H7] Hi ->.
  split; fields; [clear -H1; lia|clear -H2; lia|clear -H3; lia|clear -H4; lia|clear -H5; lia|done|done].
Qed.

Lemma balanced_feedback bs pipe bytes n r :
  balanced r → auxiliary r ≠ Absent → n = allocated bs - allocated (feedback_buffers r) →
  balanced (with_feedback bs pipe bytes n r).
Proof.
  intros [H1 H2 H3 H4 H5 H6 H7] Hi ->.
  split; fields; [clear -H1; lia|clear -H2; lia|clear -H3; lia|clear -H4; lia|clear -H5; lia|done|done].
Qed.

Lemma initialize_feedback_balanced a r :
  balanced r → interface r = Opened → auxiliary r = Opened → allocated (feedback_buffers r) = 0 →
  let r' := initialize_feedback usb_cfg a r in
  balanced r' ∧ interface r' = Opened ∧ auxiliary r' = Opened ∧ source r' = source r ∧
  feedback_source r' = feedback_source r ∧ run_loop r' = run_loop r ∧ slot_buffers r' = slot_buffers r.
Proof.
  intros Hb Hi Ha H0. cbv zeta. unfold initialize_feedback.
  destruct (negb _); [done|]. rewrite Ha. destruct (feedback_pipes a) as [ps|]; [|done].
  destruct (find_feedback_pipe 1 ps) as [[pipe bytes]|]; [|done].
  assert (auxiliary r ≠ Absent) as Hne by congruence.
  set (n := if bytes >? FEEDBACK_MAX_PACKET then _ else _). destruct (n <? 3).
  { split; [|done]. apply balanced_feedback; [done|done|lia]. }
  pose proof (allocate_spec (Z.to_nat FEEDBACK_SLOT_COUNT) 0 (feedback_data a) (feedback_list a)) as Hs.
  destruct (allocate _ 0 _ _) as [[bs count] all]. destruct Hs as [Hs _].
  assert (balanced (with_feedback bs pipe n count r)) as Hb' by (apply balanced_feedback; [done|done|lia]).
  destruct all; (split; [|done]); [exact Hb'|].
  apply balanced_feedback; [exact Hb'|done|]. unfold no_buffers. rewrite allocated_none.
  cbn [with_feedback feedback_buffers]. lia.
Qed.

Lemma initialize_session_balanced a r :
  balanced r → interface r = Opened → auxiliary r = Opened → source r = false →
  feedback_source r = false → run_loop r = false → allocated (slot_buffers r) = 0 →
  allocated (feedback_buffers r) = 0 →
  let '(ready, r') := initialize_session usb_cfg a r in
  balanced r' ∧ (ready = true → complete_session r').
Proof.
  intros Hb Hi Ha Hs Hf Hl H0 H1. unfold initialize_session.
  set (created := ok (source_result a) && source_created a).
  set (r1 := with_loops created _ _ _ _ r).
  assert (balanced r1) as Hb1.
  { apply balanced_loops; [done| |lia]. rewrite Hs, Hf. destruct created; done. }
  replace (negb (ok (source_result a)) || negb (source_created a)) with (negb created)
    by (subst created; by destruct (ok _), (source_created a)).
  destruct created; cbn [negb]; [|done].
  set (r2 := with_loops (source r1) _ true 0 1 r1).
  assert (balanced r2) as Hb2 by (apply balanced_loops; [done|cbn; by destruct (feedback_source r)|cbn; by rewrite Hl]).
  set (created := ok (feedback_source_result a) && _).
  set (r3 := with_loops (source r2) created _ _ 0 r2).
  assert (balanced r3) as Hb3.
  { apply balanced_loops; [done| |lia]. cbn. rewrite Hf. destruct created; done. }
  destruct created; cbn [negb]; [|done].
  destruct (negb (requests a)); [done|].
  destruct (initialize_feedback_balanced a r3 Hb3 Hi Ha H1) as (Hb4 & Hi4 & Ha4 & Es & Ef & El & Ebs).
  set (r4 := initialize_feedback usb_cfg a r3) in *. clearbody r4. unfold initialize_slots.
  pose proof (allocate_spec (Z.to_nat (ns6_usb_output_slot_count usb_cfg)) 0 (slot_data a) (slot_list a)) as Hal.
  destruct (allocate _ 0 _ _) as [[bs count] all]. destruct Hal as [Hc Hall]. split.
  - apply balanced_slots; [done|congruence|]. rewrite Ebs.
    replace (allocated (slot_buffers r3)) with 0 by done. lia.
  - intros ->. unfold complete_session. cbn. rewrite Hi4, Ha4, Es, Ef, El. cbn.
    repeat split; try done. by apply Hall.
Qed.

Lemma initialize_balanced a :
  let '(ready, r) := initialize usb_cfg a (released usb_cfg) in
  balanced r ∧ (ready = true → complete_session r).
Proof.
  pose proof balanced_released as Hb. unfold initialize.
  destruct (found_0 a); cbn [negb]; [|done].
  set (r1 := with_interface Held 1 0 _). assert (balanced r1) as Hb1 by by apply balanced_interface.
  destruct (ok (open_0 a)); cbn [negb]; [|done].
  set (r2 := with_interface Opened 0 1 r1). assert (balanced r2) as Hb2 by by apply balanced_interface.
  destruct (found_1 a); cbn [negb]; [|done].
  set (r3 := with_auxiliary Held 1 0 r2). assert (balanced r3) as Hb3 by by apply balanced_auxiliary.
  destruct (ok (open_1 a)); cbn [negb]; [|done].
  set (r4 := with_auxiliary Opened 0 1 r3). assert (balanced r4) as Hb4 by by apply balanced_auxiliary.
  destruct (ok (alternate_1 a)); cbn [negb]; [|done].
  assert (∀ r, balanced r → interface r = Opened → auxiliary r = Opened → source r = false →
    feedback_source r = false → run_loop r = false → slot_buffers r = slot_buffers r4 →
    feedback_buffers r = feedback_buffers r4 →
    let '(ready, r') := initialize_session usb_cfg a r in
    balanced r' ∧ (ready = true → complete_session r')) as Hrest.
  { intros r ? ? ? ? ? ? Es Ef. apply initialize_session_balanced; try done;
      [rewrite Es|rewrite Ef]; apply allocated_none. }
  destruct (waveform_pipes a) as [ps|]; apply Hrest; try done. by apply balanced_pipe.
Qed.

Lemma worker_round_released first a d :
  res d = released usb_cfg →
  let '(_, d') := worker_round usb_cfg first a d in
  res d' = released usb_cfg ∧ initialized d' = false.
Proof.
  intros Hr. unfold worker_round. rewrite Hr. pose proof (initialize_balanced (setup a)) as H.
  destruct (initialize usb_cfg (setup a) (released usb_cfg)) as [ready r]. destruct H as [Hb _].
  destruct (first && negb ready); [|destruct (negb ready)]; (split; [by apply cleanup_balanced|done]).
Qed.

(** C38: the worker gives back everything it acquired, wherever setup fails and however many
    times it recovers.  From a state with nothing acquired, every sequence of turns (setup
    answers, stops, recoveries) leaves no interface reference or open, event source, run-loop
    reference or buffer outstanding and [initialized] false; and while a session is published
    as initialized, both interfaces are open and all sources and transfer buffers exist. *)
Theorem worker_releases_everything rounds first d :
  res d = released usb_cfg → initialized d = false →
  let d' := worker usb_cfg first rounds d in
  (res d' = released usb_cfg ∧ initialized d' = false) ∧
  ∀ a, initialized (in_session usb_cfg a d') = true →
       complete_session (res (in_session usb_cfg a d')).
Proof.
  intros Hr Hi. cbv zeta.
  assert (res (worker usb_cfg first rounds d) = released usb_cfg ∧
          initialized (worker usb_cfg first rounds d) = false) as H.
  { revert first d Hr Hi. induction rounds as [|a rounds IH]; intros first d Hr Hi; [done|].
    cbn [worker]. destruct (d_running d); [|done].
    pose proof (worker_round_released first a d Hr) as Hw.
    destruct (worker_round usb_cfg first a d) as [go d']. destruct Hw as [Hr' Hi'].
    destruct go; [by apply IH|done]. }
  split; [exact H|]. destruct H as [Hr' _]. intros a. unfold in_session. rewrite Hr'.
  pose proof (initialize_balanced (setup a)) as Hb.
  destruct (initialize usb_cfg (setup a) (released usb_cfg)) as [ready r]. apply Hb.
Qed.
End leaks.

(** A session that recovers, a setup that fails at the second interface, a session that is
    stopped. *)
Definition example_isoc : IsocABI := {| kUSBIsoc := 1 |}.

Definition example_setup (second_open : Z) : initialize_answers :=
  {| found_0 := true; open_0 := 0; found_1 := true; open_1 := second_open; alternate_1 := 0;
     waveform_pipes := None; source_result := 0; source_created := true;
     feedback_source_result := 0; feedback_source_created := true; alternate_0 := 0;
     capability_result := 0; capability_length := 8; capability_details := 0; clock_134 := 0;
     clock_2 := 0; read_mode := 0; set_mode := 0;
     feedback_pipes := Some [Some ({| p_direction := 1; p_number := 1; p_type := 1 |}, 64)];
     feedback_data := λ _, 0; feedback_list := λ i, i; slot_data := λ _, 0; slot_list := λ _, 0 |}.

Definition example_rounds : list round_answers :=
  [ {| setup := example_setup 0; stopped_in_setup := false; stopped_in_session := false;
       recovering := true |};
    {| setup := example_setup 5; stopped_in_setup := false; stopped_in_session := false;
       recovering := true |};
    {| setup := example_setup 0; stopped_in_setup := false; stopped_in_session := true;
       recovering := false |} ].

Definition example_driver : driver :=
  {| thread_created := true; initialized := false; d_running := true;
     d_recovery_requested := false; d_output_paused := true; res := released default_usb |}.

Lemma worker_releases_everything_witness :
  let d' := @worker example_iokit example_usb example_isoc default_usb true example_rounds example_driver in
  (res d' = released default_usb ∧ d_running d' = false) ∧
  let s := @in_session example_iokit example_usb example_isoc default_usb
             {| setup := example_setup 0; stopped_in_setup := false; stopped_in_session := false;
                recovering := true |} d' in
  complete_session default_usb (res s).
Proof.
  destruct (@worker_releases_everything example_iokit example_usb example_isoc default_usb
    example_rounds true example_driver eq_refl eq_refl) as [[E _] H].
  split; [split; [exact E|vm_compute; reflexivity]|]. apply H. vm_compute. reflexivity.
Defined.
