(* ===== verification/Hal.v ===== *)
(** * The CoreAudio plug-in (NS6HAL.c)

    The callbacks CoreAudio's host makes: clients come and go, start and stop I/O,
    set buffer sizes; a monitor thread keeps the connection to the device service.
    The static variables are the record [hal]; every callback below runs under
    [stream_lock] where the source takes it, so the functions are its bodies.  IPC
    goes through the definitions of DeviceClient.v; the answers of the system are
    arguments. *)

From stdpp Require Import base list numbers tactics.
From Stdlib Require Import ZArith Lia ZifyBool.
From S2P Require Import Prelude Float Pcm Transport HALMapping SharedMemory DeviceClient MidiSession.
From S2P Require Import Policies Timing.

(** The result codes the callbacks return. *)
Inductive OSStatus :=
  | NoErr
  | BadObjectError
  | NotRunningError
  | UnspecifiedError
  | IllegalOperationError
  | BadPropertySizeError
  | UnknownPropertyError
  | UnsupportedOperationError
  | HostError (status : Z).

#[export] Instance os_status_eq_dec : EqDecision OSStatus.
Proof. solve_decision. Defined.

Definition PLUGIN_ID : Z := 1.
Definition DEVICE_ID : Z := 2.
Definition STREAM_ID : Z := 3.
Definition INPUT_STREAM_ID : Z := 4.
Definition NS6_TRACKED_CLIENTS : Z := 128.
Definition supported_buffer_frames : list Z := [49; 128; 192; 256; 512; 1024].

Record NS6TrackedClient := {
  tc_client_id : Z;
  tc_pid : Z;
  tc_bundle_id : list Z;
  tc_starts : Z;
  tc_order : Z;
  tc_used : bool
}.

Definition no_client : NS6TrackedClient := Build_NS6TrackedClient 0 0 [] 0 0 false.

#[export] Instance tracked_client_inhabited : Inhabited NS6TrackedClient := populate no_client.

(** Clients and their accepted starts. *)
Record client_table := {
  tracked_clients : list NS6TrackedClient;
  client_order : Z;
  io_clients : Z;
  untracked_io_starts : Z
}.

(** The connection to the service. *)
Record connection := {
  device_client : NS6DeviceClient;
  callback_mapping : NS6HALMapping;
  service_ready : bool;
  service_superseded : bool
}.

Record buffer_settings := {
  buffer_frames : Z;
  driver_buffer_frames : Z;
  buffer_restart_pending : bool;
  buffer_restart_state : Z
}.

Record hal := {
  clients : client_table;
  conn : connection;
  settings : buffer_settings;
  active_flow : NS6ActiveFlow;
  host : bool;
  device_present : bool;
  anchor_host_time : Z;
  seed : Z;
  timebase : Z * Z;
  enqueue_failures : Z;
  last_enqueue_log_ms : Z;
  metrics : list NS6IOClientMetrics
}.

(** ** Field updates *)

Definition set_clients (t : client_table) (h : hal) : hal :=
  Build_hal t (conn h) (settings h) (active_flow h) (host h) (device_present h)
    (anchor_host_time h) (seed h) (timebase h) (enqueue_failures h) (last_enqueue_log_ms h) (metrics h).

Definition set_conn (c : connection) (h : hal) : hal :=
  Build_hal (clients h) c (settings h) (active_flow h) (host h) (device_present h)
    (anchor_host_time h) (seed h) (timebase h) (enqueue_failures h) (last_enqueue_log_ms h) (metrics h).

Definition set_settings (s : buffer_settings) (h : hal) : hal :=
  Build_hal (clients h) (conn h) s (active_flow h) (host h) (device_present h)
    (anchor_host_time h) (seed h) (timebase h) (enqueue_failures h) (last_enqueue_log_ms h) (metrics h).

Definition set_flow (f : NS6ActiveFlow) (h : hal) : hal :=
  Build_hal (clients h) (conn h) (settings h) f (host h) (device_present h)
    (anchor_host_time h) (seed h) (timebase h) (enqueue_failures h) (last_enqueue_log_ms h) (metrics h).

Definition set_present (b : bool) (h : hal) : hal :=
  Build_hal (clients h) (conn h) (settings h) (active_flow h) (host h) b
    (anchor_host_time h) (seed h) (timebase h) (enqueue_failures h) (last_enqueue_log_ms h) (metrics h).

Definition set_timeline (anchor new_seed : Z) (h : hal) : hal :=
  Build_hal (clients h) (conn h) (settings h) (active_flow h) (host h) (device_present h)
    anchor new_seed (timebase h) (enqueue_failures h) (last_enqueue_log_ms h) (metrics h).

Definition set_failures (failures log : Z) (ms : list NS6IOClientMetrics) (h : hal) : hal :=
  Build_hal (clients h) (conn h) (settings h) (active_flow h) (host h) (device_present h)
    (anchor_host_time h) (seed h) (timebase h) failures log ms.

(** ** Presence of the device *)

(** [first] and [second] are two looks at the registry; the second is taken after a
    settling delay.  The result says whether the host was told. *)
Definition publish_connection_state (first second : bool) (h : hal) : hal * bool :=
  let active_clients := io_clients (clients h) in
  if ns6_connection_should_defer_disconnect first active_clients then (h, false)
  else
    let settle := negb first && device_present h in
    let connected := if settle then second else first in
    if settle && ns6_connection_should_defer_disconnect connected active_clients then (h, false)
    else (set_present connected h,
          negb (eqb (device_present h) connected) && host h).

(** ** The mapping callbacks use *)

(** [ns6_hal_mapping_withdraw] as it returns, once the readers have left. *)
Definition withdraw (m : NS6HALMapping) : NS6HALMapping := set_memory m 0.

Definition publish_device_mapping_locked (c : connection) : connection :=
  let m := withdraw (callback_mapping c) in
  match connected (device_client c), shared_memory (device_client c) with
  | true, Some p =>
      {| device_client := device_client c;
         callback_mapping := ns6_hal_mapping_publish m p (DeviceClient.session_id (device_client c));
         service_ready := true; service_superseded := service_superseded c |}
  | _, _ =>
      {| device_client := device_client c; callback_mapping := m; service_ready := false;
         service_superseded := service_superseded c |}
  end.

(** The monitor logs and clears the metrics of every client. *)
Definition log_io_metrics (ms : list NS6IOClientMetrics) : list NS6IOClientMetrics :=
  (ns6_io_metrics_take_snapshot ms (Z.to_nat NS6_IO_METRICS_MAX_CLIENTS)).2.

Section hal.
Context `{MABI : MachABI}.

(** The exchanges of one round of the monitor. *)
Record monitor_answers := {
  m_state : exchange;
  m_reactivate : exchange;
  m_look_up : Z * Z;
  m_port_type : Z;
  m_connect : connect_environment;
  m_startup : exchange;
  m_activate : exchange;
  m_release_old : exchange;
  m_release_new : exchange
}.

Definition superseded (c : connection) : connection :=
  {| device_client := device_client c; callback_mapping := withdraw (callback_mapping c);
     service_ready := false; service_superseded := true |}.

Definition not_superseded (c : connection) : connection :=
  {| device_client := device_client c; callback_mapping := callback_mapping c;
     service_ready := service_ready c; service_superseded := false |}.

Definition with_client (d : NS6DeviceClient) (c : connection) : connection :=
  {| device_client := d; callback_mapping := callback_mapping c;
     service_ready := service_ready c; service_superseded := service_superseded c |}.

(** A new connection that knows the startup buffer and whether audio is active. *)
Definition connect_replacement (a : monitor_answers) (frames : Z) (active : bool)
    : bool * NS6DeviceClient * list action :=
  let '(connected1, replacement, acts1) :=
    ns6_device_client_connect disconnected (m_look_up a) (m_port_type a) (m_connect a) in
  if negb connected1 then (false, replacement, acts1)
  else
    let '(connected2, acts2) := ns6_device_client_set_startup_buffer replacement (m_startup a) frames in
    if negb connected2 then (false, replacement, acts1 ++ acts2)
    else
      let '(connected3, acts3) := ns6_device_client_set_audio_active replacement (m_activate a) active in
      (connected3, replacement, acts1 ++ acts2 ++ acts3).

(** One round of the monitor: the connection and the calls made. *)
Definition monitor_round (a : monitor_answers) (frames clients_now : Z) (c : connection)
    : connection * list action :=
  let active := clients_now >? 0 in
  let '(state_result, acts) :=
    if connected (device_client c) then
      let '(r, _, acts) := ns6_device_client_get_state_result (device_client c) (m_state a) in (r, acts)
    else (NS6_DEVICE_CLIENT_STATE_UNAVAILABLE, []) in
  match state_result with
  | NS6_DEVICE_CLIENT_STATE_REPLACED => (superseded c, acts)
  | NS6_DEVICE_CLIENT_STATE_READY =>
      let c := not_superseded c in
      if service_ready c then (c, acts)
      else
        let '(activated, acts') :=
          ns6_device_client_set_audio_active (device_client c) (m_reactivate a) active in
        ((if (activated : bool) then publish_device_mapping_locked c else c), acts ++ acts')
  | NS6_DEVICE_CLIENT_STATE_UNAVAILABLE =>
      let '(ok, replacement, acts') := connect_replacement a frames active in
      if (ok : bool) then
        let previous := device_client c in
        let c := not_superseded (publish_device_mapping_locked (with_client replacement c)) in
        (c, acts ++ acts' ++ (ns6_device_client_disconnect previous (m_release_old a)).2)
      else
        let acts'' := (ns6_device_client_disconnect replacement (m_release_new a)).2 in
        let '(d, acts3) := if connected (device_client c)
                           then ns6_device_client_disconnect (device_client c) (m_release_old a)
                           else (device_client c, []) in
        ({| device_client := d; callback_mapping := withdraw (callback_mapping c);
            service_ready := false; service_superseded := service_superseded c |},
         acts ++ acts' ++ acts'' ++ acts3)
  end.

Definition device_service_monitor (a : monitor_answers) (h : hal) : hal * list action :=
  let h := set_failures (enqueue_failures h) (last_enqueue_log_ms h) (log_io_metrics (metrics h)) h in
  let '(c, acts) := monitor_round a (driver_buffer_frames (settings h)) (io_clients (clients h)) (conn h) in
  (set_conn c h, acts).

(** ** Clients *)

Definition is_client (id : Z) (c : NS6TrackedClient) : bool := tc_used c && (tc_client_id c =? id).

Fixpoint find_index (p : NS6TrackedClient → bool) (cs : list NS6TrackedClient) (i : Z) : option Z :=
  match cs with
  | [] => None
  | c :: cs' => if p c then Some i else find_index p cs' (i + 1)
  end.

Definition find_client_locked (id : Z) (cs : list NS6TrackedClient) : option Z :=
  find_index (is_client id) cs 0.

(** What [AudioServerPlugInClientInfo] tells; the bundle id is cut to the array. *)
Record client_info := { ci_client_id : Z; ci_pid : Z; ci_bundle_id : option (list Z) }.

(** ["unknown"] *)
Definition unknown_bundle : list Z := [117; 110; 107; 110; 111; 119; 110].

Definition put_client (info : client_info) (old : NS6TrackedClient) : NS6TrackedClient :=
  {| tc_client_id := ci_client_id info; tc_pid := ci_pid info;
     tc_bundle_id := take 255 (default unknown_bundle (ci_bundle_id info));
     tc_starts := tc_starts old; tc_order := tc_order old; tc_used := true |}.

Definition set_tracked (cs : list NS6TrackedClient) (t : client_table) : client_table :=
  {| tracked_clients := cs; client_order := client_order t; io_clients := io_clients t;
     untracked_io_starts := untracked_io_starts t |}.

Definition add_client (object : Z) (info : option client_info) (h : hal) : OSStatus * hal :=
  match info with
  | None => (NoErr, h)
  | Some i =>
      if negb (object =? DEVICE_ID) then (NoErr, h)
      else
        let t := clients h in
        let cs := tracked_clients t in
        match find_client_locked (ci_client_id i) cs with
        | Some n => (NoErr, set_clients (set_tracked (wr cs n (put_client i (rd cs n))) t) h)
        | None =>
            match find_index (λ c, negb (tc_used c)) cs 0 with
            | Some n => (NoErr, set_clients (set_tracked (wr cs n (put_client i no_client)) t) h)
            | None => (NoErr, h)
            end
        end
  end.

(** What an operation that makes the plug-in idle asks for afterwards: the message to the
    service and the two looks at the registry. *)
Record idle_answers := { i_deactivate : exchange; i_first : bool; i_second : bool }.

(** The last client is gone: forget the flow, tell the service, look at the device. *)
Definition become_idle (a : idle_answers) (h : hal) : hal * list action :=
  let h := set_flow ns6_active_flow_clear h in
  let '(_, acts) := ns6_device_client_set_audio_active (device_client (conn h)) (i_deactivate a) false in
  ((publish_connection_state (i_first a) (i_second a) h).1, acts).

Definition remove_client (a : idle_answers) (object : Z) (info : option client_info) (h : hal)
    : OSStatus * hal * list action :=
  match info with
  | None => (NoErr, h, [])
  | Some i =>
      if negb (object =? DEVICE_ID) then (NoErr, h, [])
      else
        let t := clients h in
        match find_client_locked (ci_client_id i) (tracked_clients t) with
        | None => (NoErr, h, [])
        | Some n =>
            let slot := rd (tracked_clients t) n in
            let '(released_starts, _, active) :=
              ns6_io_client_account_remove (tc_starts slot) (io_clients t) in
            let t' := {| tracked_clients := wr (tracked_clients t) n no_client;
                         client_order := client_order t;
                         io_clients := if released_starts =? 0 then io_clients t else active;
                         untracked_io_starts := untracked_io_starts t |} in
            let h := set_clients t' h in
            if negb (released_starts =? 0) && (active =? 0)
            then let '(h, acts) := become_idle a h in (NoErr, h, acts)
            else (NoErr, h, [])
        end
  end.

(** ** Starting and stopping I/O *)

Definition ns6_zero_timestamp_keep_anchor (anchor current : Z) : Z :=
  if negb (anchor =? 0) then anchor else current.

(** The exchanges and clock readings of [start_io]; [queued] is what the ring of the
    mapped memory holds. *)
Record start_answers := {
  s_activate : exchange;
  s_pause : exchange;
  s_resume : exchange;
  s_now : Z;
  s_queued : Z;
  s_anchor : Z
}.

(** A flow that went stale with few frames queued is started over. *)
Definition needs_reprime (a : start_answers) (h : hal) : bool :=
  let '(numer, denom) := timebase h in
  match shared_memory (device_client (conn h)) with
  | None => false
  | Some _ =>
      negb (numer =? 0) &&
      ns6_active_flow_should_rearm
        (ns6_active_flow_snapshot (active_flow h) (s_now a) ((100000000 *₆₄ denom) / numer))
        (s_queued a) 1024
  end.

(** Whether the service plays for the new client, and the calls made. *)
Definition activate (a : start_answers) (h : hal) : bool * list action :=
  let d := device_client (conn h) in
  if negb (service_ready (conn h) && connected d) then (false, [])
  else if ns6_io_client_needs_service_activation (io_clients (clients h)) then
    ns6_device_client_set_audio_active d (s_activate a) true
  else if needs_reprime a h then
    let '(paused, acts1) := ns6_device_client_set_audio_active d (s_pause a) false in
    if (paused : bool) then
      let '(resumed, acts2) := ns6_device_client_set_audio_active d (s_resume a) true in
      (resumed, acts1 ++ acts2)
    else (false, acts1)
  else (true, []).

Definition count_start (id : Z) (t : client_table) : client_table :=
  match find_client_locked id (tracked_clients t) with
  | Some n =>
      let c := rd (tracked_clients t) n in
      let '(starts, active) := ns6_io_client_account_start (tc_starts c) (io_clients t) in
      let order := client_order t +₆₄ 1 in
      {| tracked_clients := wr (tracked_clients t) n
           {| tc_client_id := tc_client_id c; tc_pid := tc_pid c; tc_bundle_id := tc_bundle_id c;
              tc_starts := starts; tc_order := order; tc_used := tc_used c |};
         client_order := order; io_clients := active;
         untracked_io_starts := untracked_io_starts t |}
  | None =>
      let '(untracked, active) :=
        ns6_io_client_account_untracked_start (untracked_io_starts t) (io_clients t) in
      {| tracked_clients := tracked_clients t; client_order := client_order t;
         io_clients := active; untracked_io_starts := untracked |}
  end.

Definition start_io (a : start_answers) (object id : Z) (h : hal) : OSStatus * hal * list action :=
  if negb (object =? DEVICE_ID) then (BadObjectError, h, [])
  else if negb (device_present h) then (NotRunningError, h, [])
  else
    let '(activated, acts) := activate a h in
    if negb activated then (UnspecifiedError, h, acts)
    else
      let clients_before := io_clients (clients h) in
      let h := set_clients (count_start id (clients h)) h in
      let h :=
        if clients_before =? 0 then
          set_failures 0 0 (metrics h)
            (set_timeline (ns6_zero_timestamp_keep_anchor (anchor_host_time h) (s_anchor a))
               (if anchor_host_time h =? 0 then seed h +₃₂ 1 else seed h) h)
        else h in
      (NoErr, h, acts).

(** The client whose start a stop takes back, if it is tracked. *)
Definition count_stop (id : Z) (t : client_table) : bool * client_table :=
  let found := find_client_locked id (tracked_clients t) in
  let starts := (λ n, tc_starts (rd (tracked_clients t) n)) <$> found in
  let '(matched, starts', untracked, active) :=
    ns6_io_client_account_stop starts (untracked_io_starts t) (io_clients t) in
  (matched,
   {| tracked_clients :=
        match found, starts' with
        | Some n, Some k =>
            let c := rd (tracked_clients t) n in
            wr (tracked_clients t) n
              {| tc_client_id := tc_client_id c; tc_pid := tc_pid c; tc_bundle_id := tc_bundle_id c;
                 tc_starts := k; tc_order := tc_order c; tc_used := tc_used c |}
        | _, _ => tracked_clients t
        end;
      client_order := client_order t;
      io_clients := if (matched : bool) then active else io_clients t;
      untracked_io_starts := untracked |}).

Definition stop_io (a : idle_answers) (object id : Z) (h : hal) : OSStatus * hal * list action :=
  if negb (object =? DEVICE_ID) then (BadObjectError, h, [])
  else
    let '(matched, t) := count_stop id (clients h) in
    let h := set_clients t h in
    if (matched : bool) && (io_clients t =? 0)
    then let '(h, acts) := become_idle a h in (NoErr, h, acts)
    else (NoErr, h, []).
(** ** Initialization *)

Definition supported_buffer_size (frames : Z) : bool := existsb (Z.eqb frames) supported_buffer_frames.

(** What the system answers; [stored] is the number found in the host's storage. *)
Record initialize_answers := {
  n_stored : option Z;
  n_timebase : Z * Z;
  n_connected : bool;
  n_look_up : Z * Z;
  n_port_type : Z;
  n_connect : connect_environment;
  n_startup : exchange;
  n_release : exchange
}.

Definition restored_frames (a : initialize_answers) (h : hal) : Z :=
  match n_stored a with
  | Some frames => if (frames >? 0) && supported_buffer_size (u32 frames) then u32 frames
                   else driver_buffer_frames (settings h)
  | None => driver_buffer_frames (settings h)
  end.

(** Starting the two monitor threads has no state here; [value] says whether the caller
    passed this driver. *)
Definition initialize (a : initialize_answers) (value : bool) (h : hal)
    : OSStatus * hal * list action :=
  if negb value then (BadObjectError, h, [])
  else
    let frames := restored_frames a h in
    let s := {| buffer_frames := buffer_frames (settings h); driver_buffer_frames := frames;
                buffer_restart_pending := buffer_restart_pending (settings h);
                buffer_restart_state := buffer_restart_state (settings h) |} in
    let d0 := device_client (conn h) in
    let d0 := {| service_port := MACH_PORT_NULL; mapping_address := mapping_address d0;
                 mapping_size := mapping_size d0; shared_memory := shared_memory d0;
                 DeviceClient.session_id := DeviceClient.session_id d0; client_id := client_id d0;
                 connected := connected d0 |} in
    let '(connected1, d, acts1) :=
      ns6_device_client_connect d0 (n_look_up a) (n_port_type a) (n_connect a) in
    let '(connected2, acts2) :=
      if (connected1 : bool) then ns6_device_client_set_startup_buffer d (n_startup a) frames
      else (false, []) in
    let base := {| device_client := d; callback_mapping := ns6_hal_mapping_init;
                   service_ready := service_ready (conn h);
                   service_superseded := service_superseded (conn h) |} in
    let '(c, acts3) :=
      if (connected2 : bool) then (publish_device_mapping_locked base, [])
      else let '(d', acts) := ns6_device_client_disconnect d (n_release a) in
           (with_client d' base, acts) in
    (NoErr,
     Build_hal (clients h) c s (active_flow h) true (n_connected a) (anchor_host_time h) (seed h)
       (n_timebase a) (enqueue_failures h) (last_enqueue_log_ms h) (metrics h),
     acts1 ++ acts2 ++ acts3).

(** ** Buffer sizes *)

(** The selectors the plug-in distinguishes; [kAudioStreamPropertyLatency] and
    [kAudioDevicePropertyLatency] are the same code. *)
Inductive selector :=
  | BaseClass | ObjectClass | Owner | Name | Manufacturer | OwnedObjects | DeviceList
  | ResourceBundle | CustomPropertyInfoList | DeviceUID | ModelUID | TransportType | ClockDomain
  | DeviceIsAlive | DeviceIsRunning | CanBeDefaultDevice | CanBeDefaultSystemDevice | Latency
  | Streams | ControlList | SafetyOffset | NominalSampleRate | AvailableNominalSampleRates
  | IsHidden | PreferredChannelsForStereo | BufferFrameSize | BufferFrameSizeRange
  | StreamConfiguration | ZeroTimeStampPeriod | RelatedDevices
  | DriverBuffer | BufferRestart | ActiveIOFrames | ActiveClient | FirmwareVersion
  | IsActive | Direction | TerminalType | StartingChannel | VirtualFormat | PhysicalFormat
  | AvailableVirtualFormats | AvailablePhysicalFormats
  | OtherSelector.

Inductive scope := GlobalScope | InputScope | OutputScope | OtherScope.

#[export] Instance scope_eq_dec : EqDecision scope.
Proof. solve_decision. Defined.

Record property_address := { a_selector : selector; a_scope : scope; a_main_element : bool }.

(** The value given: a [UInt32], a string (its integer value; [None] for a null string), or
    data of another size or none at all. *)
Inductive property_value :=
  | UInt32Value (v : Z)
  | StringValue (v : option Z)
  | BadValue.

(** Whether the host can store, the result of storing, and the message to the service. *)
Record set_answers := { p_can_store : bool; p_store : Z; p_startup : exchange }.

Definition set_frame_size (frames : Z) (h : hal) : OSStatus * hal :=
  if negb (ns6_buffer_frame_size_request_valid frames (rd supported_buffer_frames 0)
             (rd supported_buffer_frames 5))
  then (IllegalOperationError, h)
  else (NoErr,
        set_settings {| buffer_frames := frames;
                        driver_buffer_frames := driver_buffer_frames (settings h);
                        buffer_restart_pending := buffer_restart_pending (settings h);
                        buffer_restart_state := buffer_restart_state (settings h) |} h).

Definition set_driver_buffer (a : set_answers) (value : Z) (h : hal)
    : OSStatus * hal * list action :=
  let s := settings h in
  if (value <? 0) || negb (supported_buffer_size value) then (IllegalOperationError, h, [])
  else if buffer_restart_pending s then (IllegalOperationError, h, [])
  else if negb (host h) || negb (p_can_store a) then (UnspecifiedError, h, [])
  else if negb (p_store a =? 0) then (HostError (p_store a), h, [])
  else
    let '(applied, acts) :=
      if service_ready (conn h)
      then ns6_device_client_set_startup_buffer (device_client (conn h)) (p_startup a) value
      else (false, []) in
    ((if (applied : bool) then NoErr else NotRunningError),
     set_settings {| buffer_frames := buffer_frames s;
                     driver_buffer_frames := if (applied : bool) then value else driver_buffer_frames s;
                     buffer_restart_pending := false;
                     buffer_restart_state := if (applied : bool) then 4 else 3 |} h,
     acts).

Definition set_property (a : set_answers) (object : Z) (address : option property_address)
    (value : property_value) (h : hal) : OSStatus * hal * list action :=
  match address with
  | None => (UnsupportedOperationError, h, [])
  | Some ad =>
      if negb (object =? DEVICE_ID) then (UnsupportedOperationError, h, [])
      else match a_selector ad with
      | BufferFrameSize =>
          if negb (bool_decide (a_scope ad = GlobalScope) || bool_decide (a_scope ad = OutputScope))
             || negb (a_main_element ad)
          then (BadPropertySizeError, h, [])
          else match value with
               | UInt32Value frames => let '(r, h) := set_frame_size frames h in (r, h, [])
               | _ => (BadPropertySizeError, h, [])
               end
      | DriverBuffer =>
          if negb (bool_decide (a_scope ad = GlobalScope)) || negb (a_main_element ad)
          then (BadPropertySizeError, h, [])
          else match value with
               | StringValue (Some v) => set_driver_buffer a v h
               | StringValue None => (IllegalOperationError, h, [])
               | _ => (BadPropertySizeError, h, [])
               end
      | _ => (UnsupportedOperationError, h, [])
      end
  end.

(** ** Cycles *)

Inductive io_operation := WriteMix | ReadInput | OtherOperation.

(** Both output pointers are given; the operation is always done in place. *)
Definition will_do (operation : io_operation) : bool :=
  match operation with WriteMix | ReadInput => true | OtherOperation => false end.

Definition begin_io (object id : Z) (operation : io_operation) (frames now : Z) (h : hal) : hal :=
  match operation with
  | WriteMix => if (object =? DEVICE_ID) && negb (frames =? 0)
                then set_flow (ns6_active_flow_record frames id now) h else h
  | _ => h
  end.

Definition end_io (h : hal) : OSStatus * hal := (NoErr, h).
End hal.
