(* ===== verification/HalTheory.v ===== *)
(** * Clients of the plug-in are counted exactly

    [io_clients] decides when the service plays, when the device may disappear and
    when the clock is anchored.  For every sequence of callbacks it is the number of
    starts that were accepted and not yet taken back. *)

From stdpp Require Import base list numbers tactics.
From Stdlib Require Import ZArith Lia ZifyBool.
From S2P Require Import Prelude HALMapping SharedMemory ServiceTheory DeviceClient Policies Timing Hal.

(** ** Sums over the table *)

Definition sum_starts (cs : list NS6TrackedClient) : Z := foldr (λ c n, tc_starts c + n) 0 cs.

(** The starts accepted and not taken back. *)
Definition outstanding (t : client_table) : Z := sum_starts (tracked_clients t) + untracked_io_starts t.

Lemma sum_starts_wr cs n c :
  0 <= n < Z.of_nat (length cs) →
  sum_starts (wr cs n c) = sum_starts cs - tc_starts (rd cs n) + tc_starts c.
Proof.
  intros Hn. unfold rd, wr. assert (Z.to_nat n < length cs)%nat as Hl by lia. clear Hn.
  revert Hl. generalize (Z.to_nat n). intros k. revert k.
  induction cs as [|x cs IH]; intros [|k] Hk; cbn [length] in Hk; try lia.
  - change ((x :: cs) !!! 0%nat) with x.
    change (sum_starts (x :: cs)) with (tc_starts x + sum_starts cs).
    change (sum_starts (<[0%nat := c]> (x :: cs))) with (tc_starts c + sum_starts cs). lia.
  - change ((x :: cs) !!! S k) with (cs !!! k).
    change (sum_starts (<[S k := c]> (x :: cs))) with (tc_starts x + sum_starts (<[k := c]> cs)).
    rewrite IH by lia. change (sum_starts (x :: cs)) with (tc_starts x + sum_starts cs). lia.
Qed.

Lemma find_index_spec p cs i n :
  find_index p cs i = Some n →
  i <= n < i + Z.of_nat (length cs) ∧ p (rd cs (n - i)) = true.
Proof.
  revert i. induction cs as [|c cs IH]; intros i; cbn [find_index]; [done|].
  destruct (p c) eqn:E.
  - intros [= <-]. rewrite Z.sub_diag. cbn. split; [lia|exact E].
  - intros H. destruct (IH _ H) as [Hr Hp]. split; [cbn; lia|].
    replace (rd (c :: cs) (n - i)) with (rd cs (n - (i + 1))); [done|].
    unfold rd. replace (Z.to_nat (n - i)) with (S (Z.to_nat (n - (i + 1)))) by lia. done.
Qed.

(** ** The invariant *)

Record table_ok (bound : Z) (t : client_table) : Prop := {
  t_length : length (tracked_clients t) = Z.to_nat NS6_TRACKED_CLIENTS;
  t_starts : Forall (λ c, 0 <= tc_starts c ∧ (tc_used c = false → tc_starts c = 0)) (tracked_clients t);
  t_untracked : 0 <= untracked_io_starts t;
  t_count : io_clients t = outstanding t;
  t_bound : outstanding t <= bound
}.

Lemma sum_starts_nonneg cs : Forall (λ c, 0 <= tc_starts c) cs → 0 <= sum_starts cs.
Proof.
  induction 1 as [|x cs Hx _ IH]; [done|].
  change (sum_starts (x :: cs)) with (tc_starts x + sum_starts cs). lia.
Qed.

Lemma starts_le_sum cs n :
  Forall (λ c, 0 <= tc_starts c) cs → 0 <= n < Z.of_nat (length cs) →
  0 <= tc_starts (rd cs n) <= sum_starts cs.
Proof.
  intros Hf Hn. unfold rd. assert (Z.to_nat n < length cs)%nat as Hl by lia. clear Hn.
  revert Hl. generalize (Z.to_nat n). intros k. revert k.
  induction Hf as [|x cs Hx Hf IH]; intros [|k] Hk; cbn [length] in Hk; try lia.
  - change ((x :: cs) !!! 0%nat) with x. pose proof (sum_starts_nonneg cs Hf).
    change (sum_starts (x :: cs)) with (tc_starts x + sum_starts cs). lia.
  - change ((x :: cs) !!! S k) with (cs !!! k). specialize (IH k ltac:(lia)).
    change (sum_starts (x :: cs)) with (tc_starts x + sum_starts cs). lia.
Qed.

Section table.
Context (bound : Z) (t : client_table).
Hypothesis Hok : table_ok bound t.

Lemma all_nonneg : Forall (λ c, 0 <= tc_starts c) (tracked_clients t).
Proof. generalize (t_starts _ _ Hok). apply Forall_impl. by intros c [? _]. Qed.

Lemma outstanding_nonneg : 0 <= outstanding t.
Proof.
  pose proof (sum_starts_nonneg _ all_nonneg). pose proof (t_untracked _ _ Hok).
  unfold outstanding. lia.
Qed.

Lemma found_range p n :
  find_index p (tracked_clients t) 0 = Some n →
  0 <= n < Z.of_nat (length (tracked_clients t)) ∧ p (rd (tracked_clients t) n) = true.
Proof. intros H. apply find_index_spec in H. by rewrite Z.sub_0_r, Z.add_0_l in H. Qed.

(** Replacing a slot whose starts change by [d] along with the two counters. *)
Lemma table_ok_wr bound' n c order active untracked :
  0 <= n < Z.of_nat (length (tracked_clients t)) →
  0 <= tc_starts c → (tc_used c = false → tc_starts c = 0) → 0 <= untracked →
  active = outstanding t - tc_starts (rd (tracked_clients t) n) + tc_starts c
           - untracked_io_starts t + untracked →
  active <= bound' →
  table_ok bound' {| tracked_clients := wr (tracked_clients t) n c; client_order := order;
                     io_clients := active; untracked_io_starts := untracked |}.
Proof.
  intros Hn H0 Hu Hun -> Hb. destruct Hok as [Hl Hs Hut Hc Hbd].
  assert (outstanding {| tracked_clients := wr (tracked_clients t) n c; client_order := order;
    io_clients := 0; untracked_io_starts := untracked |} =
    outstanding t - tc_starts (rd (tracked_clients t) n) + tc_starts c
           - untracked_io_starts t + untracked) as E.
  { unfold outstanding. cbn [tracked_clients untracked_io_starts]. rewrite sum_starts_wr by lia. lia. }
  split; cbn [tracked_clients untracked_io_starts io_clients].
  - by rewrite length_wr.
  - unfold wr. apply Forall_insert; [exact Hs|by split].
  - exact Hun.
  - rewrite <- E. reflexivity.
  - unfold outstanding in *. cbn [tracked_clients untracked_io_starts] in *. lia.
Qed.

(** Only the untracked starts change. *)
Lemma table_ok_untracked bound' order active untracked :
  0 <= untracked → active = outstanding t - untracked_io_starts t + untracked → active <= bound' →
  table_ok bound' {| tracked_clients := tracked_clients t; client_order := order;
                     io_clients := active; untracked_io_starts := untracked |}.
Proof.
  intros Hun -> Hb. destruct Hok as [Hl Hs Hut Hc Hbd].
  split; cbn [tracked_clients untracked_io_starts io_clients]; try done;
    unfold outstanding in *; cbn [tracked_clients untracked_io_starts]; lia.
Qed.
End table.

Lemma table_ok_le b b' t : b <= b' → table_ok b t → table_ok b' t.
Proof. intros Hb [H1 H2 H3 H4 H5]. split; try done. lia. Qed.

(** ** Callbacks *)

Lemma count_start_ok bound id t :
  table_ok bound t → bound < UINT32_MAX → table_ok (bound + 1) (count_start id t).
Proof.
  intros Hok Hb. pose proof (outstanding_nonneg _ _ Hok) as H0. unfold UINT32_MAX in Hb.
  pose proof (t_count _ _ Hok) as Hc. pose proof (t_bound _ _ Hok) as Hbd.
  pose proof (t_untracked _ _ Hok) as Hun. pose proof (all_nonneg _ _ Hok) as Hall.
  unfold count_start. destruct (find_client_locked id (tracked_clients t)) as [n|] eqn:E.
  - destruct (found_range t _ _ E) as [Hn Hp].
    pose proof (starts_le_sum _ n Hall Hn) as Hst.
    assert (tc_used (rd (tracked_clients t) n) = true) as Hu
      by (unfold is_client in Hp; by destruct (tc_used _)).
    cbn [ns6_io_client_account_start].
    rewrite !u32_id by (unfold is_u32, outstanding in *; lia).
    apply (table_ok_wr bound t Hok); cbn [tc_starts tc_used]; [done|lia|congruence|done|lia|lia].
  - cbn [ns6_io_client_account_untracked_start].
    pose proof (sum_starts_nonneg _ Hall).
    rewrite !u32_id by (unfold is_u32, outstanding in *; lia).
    apply (table_ok_untracked bound t Hok); lia.
Qed.

(** A stop takes back a start of the client, or an untracked one, or nothing. *)
Definition has_start (id : Z) (t : client_table) : bool :=
  match find_client_locked id (tracked_clients t) with
  | Some n => negb (tc_starts (rd (tracked_clients t) n) =? 0) || negb (untracked_io_starts t =? 0)
  | None => negb (untracked_io_starts t =? 0)
  end.

Lemma count_stop_ok bound id t :
  table_ok bound t →
  let '(matched, t') := count_stop id t in
  table_ok bound t' ∧ matched = has_start id t ∧
  io_clients t' = io_clients t - Z.b2z matched.
Proof.
  intros Hok. pose proof (outstanding_nonneg _ _ Hok) as H0.
  pose proof (t_count _ _ Hok) as Hc. pose proof (t_bound _ _ Hok) as Hbd.
  pose proof (t_untracked _ _ Hok) as Hun. pose proof (all_nonneg _ _ Hok) as Hall.
  pose proof (sum_starts_nonneg _ Hall) as Hsum.
  unfold count_stop, has_start, ns6_io_client_account_stop.
  destruct (find_client_locked id (tracked_clients t)) as [n|] eqn:E; cbn [fmap option_fmap option_map].
  - destruct (found_range t _ _ E) as [Hn Hp].
    pose proof (starts_le_sum _ n Hall Hn) as Hst.
    assert (tc_used (rd (tracked_clients t) n) = true) as Hu
      by (unfold is_client in Hp; by destruct (tc_used _)).
    set (k := tc_starts (rd (tracked_clients t) n)) in *.
    assert (∀ k' active untracked, 0 <= k' → 0 <= untracked →
      active = outstanding t - k + k' - untracked_io_starts t + untracked → active <= bound →
      table_ok bound {| tracked_clients := wr (tracked_clients t) n
        {| tc_client_id := tc_client_id (rd (tracked_clients t) n);
           tc_pid := tc_pid (rd (tracked_clients t) n);
           tc_bundle_id := tc_bundle_id (rd (tracked_clients t) n); tc_starts := k';
           tc_order := tc_order (rd (tracked_clients t) n);
           tc_used := tc_used (rd (tracked_clients t) n) |};
        client_order := client_order t; io_clients := active;
        untracked_io_starts := untracked |}) as Hwr.
    { intros k' active untracked ? ? -> ?. apply (table_ok_wr bound t Hok); cbn [tc_starts tc_used];
        [done|done|congruence|done|done|done]. }
    destruct (Z.eqb_spec (io_clients t) 0) as [Ez|Ez].
    { assert (k = 0 ∧ untracked_io_starts t = 0) as [Ek Eu] by (unfold outstanding in *; lia).
      rewrite Ek, Eu. cbn. split; [|split; [done|lia]]. apply Hwr; lia. }
    destruct (Z.eqb_spec k 0) as [Ek|Ek]; cbn [negb orb].
    + destruct (Z.eqb_spec (untracked_io_starts t) 0) as [Eu|Eu]; cbn.
      * split; [|split; [done|lia]]. apply Hwr; lia.
      * split; [|split; [done|lia]]. apply Hwr; lia.
    + cbn. split; [|split; [done|lia]]. apply Hwr; lia.
  - destruct (Z.eqb_spec (io_clients t) 0) as [Ez|Ez].
    { assert (untracked_io_starts t = 0) as Eu by (unfold outstanding in *; lia).
      rewrite Eu. cbn. split; [|split; [done|lia]].
      apply (table_ok_untracked bound t Hok); lia. }
    destruct (Z.eqb_spec (untracked_io_starts t) 0) as [Eu|Eu]; cbn;
      (split; [|split; [done|lia]]); apply (table_ok_untracked bound t Hok); lia.
Qed.

(** ** Runs of the plug-in *)

Section runs.
Context `{MABI : MachABI}.

Inductive hal_event :=
  | AddClient (object : Z) (info : option client_info)
  | RemoveClient (a : idle_answers) (object : Z) (info : option client_info)
  | StartIO (a : start_answers) (object id : Z)
  | StopIO (a : idle_answers) (object id : Z)
  | SetProperty (a : set_answers) (object : Z) (address : option property_address)
      (value : property_value)
  | BeginIO (object id : Z) (operation : io_operation) (frames now : Z)
  | MonitorRound (a : monitor_answers)
  | UsbChanged (first second : bool).

Definition hal_step (h : hal) (e : hal_event) : hal :=
  match e with
  | AddClient object info => (add_client object info h).2
  | RemoveClient a object info => (remove_client a object info h).1.2
  | StartIO a object id => (start_io a object id h).1.2
  | StopIO a object id => (stop_io a object id h).1.2
  | SetProperty a object address value => (set_property a object address value h).1.2
  | BeginIO object id operation frames now => begin_io object id operation frames now h
  | MonitorRound a => (device_service_monitor a h).1
  | UsbChanged first second => (publish_connection_state first second h).1
  end.

Lemma publish_clients f s h : clients (publish_connection_state f s h).1 = clients h.
Proof.
  unfold publish_connection_state. destruct (ns6_connection_should_defer_disconnect f _); [done|].
  by destruct (_ && ns6_connection_should_defer_disconnect _ _).
Qed.

Lemma idle_clients a h : clients (become_idle a h).1 = clients h.
Proof.
  unfold become_idle. destruct (ns6_device_client_set_audio_active _ _ _) as [r acts].
  cbn [fst]. by rewrite publish_clients.
Qed.

Lemma add_client_ok b object info h :
  table_ok b (clients h) → table_ok b (clients (add_client object info h).2).
Proof.
  intros Hok. unfold add_client. destruct info as [i|]; [|done]. destruct (negb _); [done|].
  pose proof (outstanding_nonneg _ _ Hok) as H0. pose proof (t_bound _ _ Hok) as Hb.
  pose proof (t_count _ _ Hok) as Hc. pose proof (t_untracked _ _ Hok) as Hun.
  destruct (find_client_locked _ _) as [n|] eqn:E.
  { destruct (found_range _ _ _ E) as [Hn _].
    pose proof (starts_le_sum _ n (all_nonneg _ _ Hok) Hn).
    apply (table_ok_wr b _ Hok); cbn [put_client tc_starts tc_used]; (done || lia). }
  destruct (find_index (λ c, negb (tc_used c)) _ 0) as [n|] eqn:E2; [|done].
  destruct (found_range _ _ _ E2) as [Hn Hu].
  assert (tc_starts (rd (tracked_clients (clients h)) n) = 0) as Hz.
  { pose proof (t_starts _ _ Hok) as Hs. rewrite Forall_lookup in Hs.
    apply (Hs (Z.to_nat n)); [apply list_lookup_lookup_total_lt; lia|]. by apply negb_true_iff. }
  apply (table_ok_wr b _ Hok); cbn [put_client no_client tc_starts tc_used]; (done || lia).
Qed.

Lemma remove_client_ok b a object info h :
  table_ok b (clients h) → table_ok b (clients (remove_client a object info h).1.2).
Proof.
  intros Hok. unfold remove_client. destruct info as [i|]; [|done]. destruct (negb _); [done|].
  pose proof (outstanding_nonneg _ _ Hok) as H0. pose proof (t_bound _ _ Hok) as Hb.
  pose proof (t_count _ _ Hok) as Hc. pose proof (t_untracked _ _ Hok) as Hun.
  destruct (find_client_locked _ _) as [n|] eqn:E; [|done].
  destruct (found_range _ _ _ E) as [Hn _].
  pose proof (starts_le_sum _ n (all_nonneg _ _ Hok) Hn) as Hst.
  cbn [ns6_io_client_account_remove]. set (k := tc_starts _) in *.
  assert (io_clients (clients h) >=? k = true) as -> by (unfold outstanding in *; lia).
  match goal with |- context [set_clients ?t' h] => set (t := t') end.
  assert (table_ok b t) as Ht.
  { apply (table_ok_wr b _ Hok); cbn [no_client tc_starts]; fold k; try (done || lia);
      destruct (Z.eqb_spec k 0); lia. }
  destruct (negb (k =? 0) && _); [|exact Ht].
  pose proof (idle_clients a (set_clients t h)) as Hi.
  destruct (become_idle a (set_clients t h)) as [h' acts]. cbn [fst snd] in *. by rewrite Hi.
Qed.

Lemma start_io_ok b a object id h :
  table_ok b (clients h) → b < UINT32_MAX → table_ok (b + 1) (clients (start_io a object id h).1.2).
Proof.
  intros Hok Hb. assert (table_ok (b + 1) (clients h)) as Hle by (eapply table_ok_le; [|done]; lia).
  unfold start_io. destruct (negb _); [done|]. destruct (negb (device_present h)); [done|].
  destruct (activate a h) as [activated acts]. destruct (negb activated); [done|].
  pose proof (count_start_ok b id _ Hok Hb). by destruct (io_clients (clients h) =? 0).
Qed.

Lemma stop_io_ok b a object id h :
  table_ok b (clients h) →
  table_ok b (clients (stop_io a object id h).1.2) ∧
  (object = DEVICE_ID → io_clients (clients (stop_io a object id h).1.2) =
                        io_clients (clients h) - Z.b2z (has_start id (clients h))).
Proof.
  intros Hok. unfold stop_io. destruct (Z.eqb_spec object DEVICE_ID) as [Eo|Eo]; cbn [negb]; [|done].
  pose proof (count_stop_ok b id _ Hok) as Hs.
  destruct (count_stop id (clients h)) as [matched t]. destruct Hs as (Ht & <- & Hc).
  destruct (_ && (io_clients t =? 0)); [|done].
  pose proof (idle_clients a (set_clients t h)) as Hi.
  destruct (become_idle a (set_clients t h)) as [h' acts]. cbn [fst snd] in *. by rewrite Hi.
Qed.

Lemma set_property_clients a object address value h :
  clients (set_property a object address value h).1.2 = clients h.
Proof.
  unfold set_property. destruct address as [ad|]; [|done]. destruct (negb _); [done|].
  destruct (a_selector ad); try done.
  - destruct (_ || _); [done|]. destruct value as [frames|v|]; try done.
    unfold set_frame_size. by destruct (negb _).
  - destruct (_ || _); [done|]. destruct value as [frames|[v|]|]; try done.
    unfold set_driver_buffer. destruct (_ || _); [done|].
    destruct (buffer_restart_pending _); [done|]. destruct (_ || _); [done|].
    destruct (negb (p_store a =? 0)); [done|].
    by destruct (if service_ready (conn h) then _ else _) as [applied acts].
Qed.

Lemma hal_step_ok b e h :
  table_ok b (clients h) → b < UINT32_MAX → table_ok (b + 1) (clients (hal_step h e)).
Proof.
  intros Hok Hb. assert (∀ t, table_ok b t → table_ok (b + 1) t) as Hle
    by (intros t; apply table_ok_le; lia).
  destruct e; cbn [hal_step].
  - by apply Hle, add_client_ok.
  - by apply Hle, remove_client_ok.
  - by apply start_io_ok.
  - by apply Hle, stop_io_ok.
  - rewrite set_property_clients. by apply Hle.
  - unfold begin_io. destruct operation; try by apply Hle. destruct (_ && _); by apply Hle.
  - unfold device_service_monitor. destruct (monitor_round _ _ _ _). by apply Hle.
  - rewrite publish_clients. by apply Hle.
Qed.

Definition empty_table : client_table :=
  {| tracked_clients := replicate (Z.to_nat NS6_TRACKED_CLIENTS) no_client; client_order := 0;
     io_clients := 0; untracked_io_starts := 0 |}.

Lemma empty_table_ok : table_ok 0 empty_table.
Proof.
  split; [done| |done|done|done]. apply Forall_replicate. done.
Qed.

Lemma hal_run_ok es h :
  clients h = empty_table → Z.of_nat (length es) <= UINT32_MAX →
  table_ok (Z.of_nat (length es)) (clients (foldl hal_step h es)).
Proof.
  intros He. induction es as [|e es IH] using rev_ind; intros Hl.
  - cbn [foldl]. rewrite He. apply empty_table_ok.
  - rewrite length_app in *. cbn [length] in *. rewrite foldl_app. cbn [foldl].
    replace (Z.of_nat (length es + 1)) with (Z.of_nat (length es) + 1) by lia.
    apply hal_step_ok; [apply IH; lia|lia].
Qed.

(** The count of active I/O clients is exact.  After any sequence of callbacks (clients
    added and removed, I/O started and stopped, properties set, monitor rounds, USB changes)
    of at most 2^32 - 1 events, it is the number of accepted starts not yet taken back,
    tracked and untracked; stopping takes back one start of the client, or one untracked
    start, and an unmatched stop changes nothing. *)
Theorem io_clients_count_outstanding_starts es h :
  clients h = empty_table → Z.of_nat (length es) <= UINT32_MAX →
  let h' := foldl hal_step h es in
  io_clients (clients h') = outstanding (clients h') ∧
  0 <= io_clients (clients h') <= Z.of_nat (length es) ∧
  ∀ a id, io_clients (clients (stop_io a DEVICE_ID id h').1.2) =
          io_clients (clients h') - Z.b2z (has_start id (clients h')).
Proof.
  intros He Hl h'. pose proof (hal_run_ok es h He Hl) as Hok. fold h' in Hok.
  pose proof (outstanding_nonneg _ _ Hok) as H0. pose proof (t_bound _ _ Hok) as Hb.
  rewrite (t_count _ _ Hok). split; [done|]. split; [lia|]. intros a id.
  destruct (stop_io_ok _ a DEVICE_ID id h' Hok) as [_ H]. rewrite (H eq_refl), (t_count _ _ Hok). done.
Qed.
End runs.

(** A connected plug-in; client 7 is added and starts twice, client 9 starts unannounced,
    client 7 stops. *)
Definition granted : exchange :=
  {| port_allocate := 0; send_result := 0; receive_result := 0;
     DeviceClient.received := {| reply_size := 0; reply_content := ControlBody 0 |} |}.

Definition example_hal : hal :=
  {| clients := empty_table;
     conn := {| device_client := {| service_port := 3; mapping_address := 4096; mapping_size := 4096;
                                    shared_memory := Some 4096; DeviceClient.session_id := 11;
                                    client_id := 5; connected := true |};
                callback_mapping := ns6_hal_mapping_publish ns6_hal_mapping_init 4096 11;
                service_ready := true; service_superseded := false |};
     settings := {| buffer_frames := 256; driver_buffer_frames := 256;
                    buffer_restart_pending := false; buffer_restart_state := 0 |};
     active_flow := ns6_active_flow_clear; host := true; device_present := true;
     anchor_host_time := 0; seed := 1; timebase := (1, 1); enqueue_failures := 0;
     last_enqueue_log_ms := 0; metrics := ns6_io_metrics_init |}.

Definition starting : start_answers :=
  {| s_activate := granted; s_pause := granted; s_resume := granted; s_now := 1; s_queued := 0;
     s_anchor := 1 |}.
Definition going_idle : idle_answers := {| i_deactivate := granted; i_first := true; i_second := true |}.

Definition example_events : list hal_event :=
  [AddClient 2 (Some {| ci_client_id := 7; ci_pid := 100; ci_bundle_id := None |});
   StartIO starting 2 7; StartIO starting 2 7; StartIO starting 2 9; StopIO going_idle 2 7].

Lemma io_clients_count_outstanding_starts_witness :
  let h' := foldl hal_step example_hal example_events in
  io_clients (clients h') = 2 ∧
  io_clients (clients (stop_io going_idle DEVICE_ID 8 h').1.2) = 1.
Proof.
  destruct (io_clients_count_outstanding_starts example_events example_hal eq_refl
    ltac:(vm_compute; discriminate)) as (E & _ & H).
  split; [rewrite E; vm_compute; reflexivity|]. rewrite H. vm_compute. reflexivity.
Defined.
