(* ===== verification/HalIO.v ===== *)
(** * I/O cycles of the plug-in (NS6HAL.c, [do_io])

    The real-time callback: captured audio is read from, and the mix written to, the
    memory the service shares.  A callback holds a lease of the mapping and a place
    in the session while it touches the memory; the theorem below is that it gives
    both back on every path. *)

From stdpp Require Import base list numbers tactics.
From Stdlib Require Import ZArith Lia ZifyBool.
From S2P Require Import Prelude Float Pcm Transport TransportQueue CaptureRing DeviceSession HALMapping.
From S2P Require Import SharedMemory ServiceTheory DeviceClient Policies Timing Hal HalTheory.

(** ** The memory of the lease *)

Definition set_session (s : NS6DeviceSession) (m : NS6SharedMemory) : NS6SharedMemory :=
  {| protocol_version := protocol_version m; struct_size := struct_size m; output := output m;
     capture := capture m; session := s; capture_requested := capture_requested m;
     capture_last_demand_ns := capture_last_demand_ns m |}.

Definition set_capture (r : NS6CaptureRing) (requested : bool) (demand : Z) (m : NS6SharedMemory)
    : NS6SharedMemory :=
  {| protocol_version := protocol_version m; struct_size := struct_size m; output := output m;
     capture := r; session := session m; capture_requested := requested;
     capture_last_demand_ns := demand |}.

Definition set_ring (r : NS6TransportShared) (m : NS6SharedMemory) : NS6SharedMemory :=
  {| protocol_version := protocol_version m; struct_size := struct_size m; output := r;
     capture := capture m; session := session m; capture_requested := capture_requested m;
     capture_last_demand_ns := capture_last_demand_ns m |}.

Definition set_mapping (mp : NS6HALMapping) (h : hal) : hal :=
  set_conn {| device_client := device_client (conn h); callback_mapping := mp;
              service_ready := service_ready (conn h);
              service_superseded := service_superseded (conn h) |} h.

(** [atomic_exchange(&capture_requested, true)] and the clear of a ring nobody read. *)
Definition demand_capture (now : Z) (m : NS6SharedMemory) : NS6SharedMemory :=
  set_capture (if capture_requested m then capture m else ns6_capture_ring_clear (capture m))
    true now m.

(** ** Timestamps of a cycle *)

(** What the cycle info tells: the output sample time, whether its flag is set, and the
    cycle counter. *)
Record cycle_info := { c_time_valid : bool; c_sample_time : spec_float; c_cycle : Z }.

Definition output_time (i : option cycle_info) : Z * bool :=
  match i with
  | Some c =>
      if c_time_valid c && sf_isfinite (c_sample_time c) &&
         SFleb (S754_zero false) (c_sample_time c) && d_lt (c_sample_time c) (d_of_Z UINT64_MAX)
      then (sf_trunc (c_sample_time c), true) else (0, false)
  | None => (0, false)
  end.

(** The clock readings of a callback. *)
Record io_answers := { tick : Z; start_ns : Z; end_ns : Z; capture_ns : Z; log_tick : Z }.

Section io.
Context `{CABI : CoreAudioABI}.
(** [stream_format]: four interleaved floats. *)
Context (stream_format : AudioStreamBasicDescription).

(** [(double)now*numer/denom/1e6] *)
Definition milliseconds_of (h : hal) (ticks : Z) : spec_float :=
  let '(numer, denom) := timebase h in
  d_div (d_div (d_mul (d_of_Z ticks) (d_of_Z numer)) (d_of_Z denom)) (d_of_Z 1000000).

(** A rejected buffer is counted; the log limiter moves after the first. *)
Definition count_failure (a : io_answers) (h : hal) : hal :=
  let failures := enqueue_failures h +₃₂ 1 in
  let now_ms := milliseconds_of h (log_tick a) in
  let previous := last_enqueue_log_ms h in
  set_failures failures
    (if negb (failures =? 1) && SFleb (d_of_Z 1000) (d_sub now_ms (d_of_Z previous))
     then u64 (sf_trunc now_ms) else previous)
    (metrics h) h.

Definition record_metrics (a : io_answers) (id frames : Z) (i : option cycle_info) (h : hal) : hal :=
  let '(sample_time, valid) := output_time i in
  let callback_ns := if end_ns a >=? start_ns a then end_ns a - start_ns a else 0 in
  let deadline_ns := if frames =? 0 then 0 else (frames *₆₄ 1000000000) / 44100 in
  set_failures (enqueue_failures h) (last_enqueue_log_ms h)
    (ns6_io_metrics_record_output_timed (metrics h) id frames (from_option c_cycle 0 i) sample_time
       valid (start_ns a) callback_ns deadline_ns) h.

(** [memset(main_buffer, 0, frames * 2 * sizeof(float))] *)
Definition silence (frames : Z) (buffer : option (list spec_float)) : option (list spec_float) :=
  if frames =? 0 then buffer
  else (λ b, memcpy b 0 (replicate (Z.to_nat (frames * 2)) (S754_zero false))) <$> buffer.

(** Taking the lease and the place in the session; [None] leaves everything as it was. *)
Definition enter (h : hal) (m : NS6SharedMemory) : option (hal * NS6SharedMemory) :=
  let '(lease, mp) := ns6_hal_mapping_acquire (callback_mapping (conn h)) in
  match lease with
  | None => None
  | Some l =>
      let '(inside, s) := ns6_device_session_io_begin (Some (session m)) (lease_session_id l) in
      if (inside : bool) then Some (set_mapping mp h, set_session (default (session m) s) m) else None
  end.

(** What a refused entry leaves: the lease and the place are given back at once. *)
Definition refused (h : hal) (m : NS6SharedMemory) : hal * NS6SharedMemory :=
  let '(lease, mp) := ns6_hal_mapping_acquire (callback_mapping (conn h)) in
  match lease with
  | None => (set_mapping mp h, m)
  | Some l =>
      let '(_, s) := ns6_device_session_io_begin (Some (session m)) (lease_session_id l) in
      (set_mapping (ns6_hal_mapping_release mp) h, set_session (default (session m) s) m)
  end.

Definition leave (h : hal) (m : NS6SharedMemory) : hal * NS6SharedMemory :=
  (set_mapping (ns6_hal_mapping_release (callback_mapping (conn h))) h,
   set_session (default (session m) (ns6_device_session_io_end (Some (session m)))) m).

(** Reading captured audio; the buffer is null or holds two floats per frame. *)
Definition read_input (a : io_answers) (frames : Z) (buffer : option (list spec_float))
    (h : hal) (m : NS6SharedMemory) : OSStatus * hal * NS6SharedMemory * option (list spec_float) :=
  if negb (frames =? 0) && (match buffer with None => true | Some _ => false end)
  then (IllegalOperationError, h, m, buffer)
  else match enter h m with
  | None => let '(h, m) := refused h m in (NoErr, h, m, silence frames buffer)
  | Some (h, m) =>
      let m := demand_capture (capture_ns a) m in
      let '(_, ring, out) := ns6_capture_ring_read (capture m) buffer frames in
      let '(h, m) := leave h (set_capture ring (capture_requested m) (capture_last_demand_ns m) m) in
      (NoErr, h, m, out)
  end.

(** Writing the mix. *)
Definition write_mix (a : io_answers) (id frames : Z) (i : option cycle_info)
    (buffer : option (list Z)) (h : hal) (m : NS6SharedMemory) : OSStatus * hal * NS6SharedMemory :=
  match enter h m with
  | None => let '(h, m) := refused h m in (NoErr, h, m)
  | Some (h, m) =>
      let h := set_flow (ns6_active_flow_record frames id (tick a)) h in
      let '(accepted, ring) :=
        ns6_transport_enqueue_shared (Some (output m)) buffer frames (Some stream_format) in
      let m := set_ring (default (output m) ring) m in
      let h := record_metrics a id frames i h in
      let h := if (accepted : bool) then h else count_failure a h in
      let '(h, m) := leave h m in (NoErr, h, m)
  end.

(** [floats] is the buffer of an input cycle, [bytes] that of an output cycle. *)
Definition do_io (a : io_answers) (object stream id : Z) (operation : io_operation) (frames : Z)
    (i : option cycle_info) (floats : option (list spec_float)) (bytes : option (list Z))
    (h : hal) (m : NS6SharedMemory) : OSStatus * hal * NS6SharedMemory * option (list spec_float) :=
  if negb (object =? DEVICE_ID) then (BadObjectError, h, m, floats)
  else if stream =? INPUT_STREAM_ID then
    match operation with
    | ReadInput => read_input a frames floats h m
    | _ => (IllegalOperationError, h, m, floats)
    end
  else if negb (stream =? STREAM_ID) then (BadObjectError, h, m, floats)
  else match operation with
       | WriteMix => let '(r, h, m) := write_mix a id frames i bytes h m in (r, h, m, floats)
       | _ => (NoErr, h, m, floats)
       end.
End io.

(** ** Every path gives back what it took *)

(** Whether a callback may touch the memory: a mapping is published and its session is the
    one the service runs. *)
Definition admitted (h : hal) (m : NS6SharedMemory) : bool :=
  let mp := callback_mapping (conn h) in
  negb (memory mp =? 0) && negb (HALMapping.session_id mp =? 0) && (active_id (session m) =? HALMapping.session_id mp).

(** Counters are values of their C type. *)
Definition counters_ok (h : hal) (m : NS6SharedMemory) : Prop :=
  is_u32 (readers (callback_mapping (conn h))) ∧ is_u32 (callbacks_in_flight (session m)).

Lemma u32_back n : is_u32 n → u32 (u32 (n + 1) + -1) = n.
Proof.
  intros Hn. unfold is_u32, u32 in *. rewrite Zplus_mod_idemp_l.
  replace (n + 1 + -1) with n by lia. by apply Z.mod_small.
Qed.

Lemma add_readers_back mp : is_u32 (readers mp) → add_readers (add_readers mp 1) (-1) = mp.
Proof. intros H. destruct mp as [p s r]. unfold add_readers. cbn in *. by rewrite u32_back. Qed.

Lemma add_in_flight_back s :
  is_u32 (callbacks_in_flight s) → add_in_flight (add_in_flight s 1) (-1) = s.
Proof. intros H. destruct s as [i n]. unfold add_in_flight. cbn in *. by rewrite u32_back. Qed.

Lemma set_mapping_same h : set_mapping (callback_mapping (conn h)) h = h.
Proof. unfold set_mapping. destruct h as [? [? ? ? ?]]. done. Qed.

Lemma set_session_same m : set_session (session m) m = m.
Proof. by destruct m. Qed.

(** A refused entry leaves no trace. *)
Lemma refused_unchanged h m : counters_ok h m → admitted h m = false → refused h m = (h, m).
Proof.
  intros [Hr Hs] Ha. unfold refused, ns6_hal_mapping_acquire, admitted in *.
  set (mp := callback_mapping (conn h)) in *.
  change (memory (add_readers mp 1)) with (memory mp).
  destruct (Z.eqb_spec (memory mp) 0) as [E|E]; cbn [negb andb] in Ha.
  { rewrite add_readers_back by done. unfold mp. by rewrite set_mapping_same. }
  unfold ns6_device_session_io_begin. cbn [lease_session_id].
  change (HALMapping.session_id (add_readers mp 1)) with (HALMapping.session_id mp).
  unfold ns6_hal_mapping_release. rewrite add_readers_back by done.
  replace (set_mapping mp h) with h by (symmetry; apply set_mapping_same).
  destruct (Z.eqb_spec (HALMapping.session_id mp) 0) as [E0|E0].
  { cbn. by rewrite set_session_same. }
  cbn [negb andb] in Ha.
  unfold ns6_device_session_is_current. cbn [add_in_flight active_id].
  rewrite Ha, andb_false_r. cbn [default from_option id]. rewrite add_in_flight_back by done.
  by rewrite set_session_same.
Qed.

Lemma enter_refused h m : admitted h m = false → enter h m = None.
Proof.
  unfold enter, ns6_hal_mapping_acquire, admitted. set (mp := callback_mapping (conn h)).
  change (memory (add_readers mp 1)) with (memory mp). intros Ha.
  destruct (memory mp =? 0); cbn [negb andb] in Ha; [done|].
  unfold ns6_device_session_io_begin, ns6_device_session_is_current. cbn [lease_session_id].
  change (HALMapping.session_id (add_readers mp 1)) with (HALMapping.session_id mp).
  destruct (HALMapping.session_id mp =? 0); cbn [negb andb] in *; [done|].
  cbn [add_in_flight active_id]. by rewrite Ha.
Qed.

(** The state inside: one reader and one callback more. *)
Definition inside_hal (h : hal) : hal := set_mapping (add_readers (callback_mapping (conn h)) 1) h.
Definition inside_memory (m : NS6SharedMemory) : NS6SharedMemory :=
  set_session (add_in_flight (session m) 1) m.

Lemma enter_admitted h m :
  admitted h m = true → enter h m = Some (inside_hal h, inside_memory m).
Proof.
  unfold enter, ns6_hal_mapping_acquire, admitted. set (mp := callback_mapping (conn h)).
  change (memory (add_readers mp 1)) with (memory mp). intros Ha.
  destruct (memory mp =? 0); cbn [negb andb] in Ha; [done|].
  unfold ns6_device_session_io_begin, ns6_device_session_is_current. cbn [lease_session_id].
  change (HALMapping.session_id (add_readers mp 1)) with (HALMapping.session_id mp).
  destruct (HALMapping.session_id mp =? 0); cbn [negb andb] in *; [done|].
  cbn [add_in_flight active_id]. by rewrite Ha.
Qed.

(** Leaving undoes entering, whatever happened to the rest of the state. *)
Lemma leave_inside h m h' m' :
  counters_ok h m → callback_mapping (conn h') = callback_mapping (conn (inside_hal h)) →
  session m' = session (inside_memory m) →
  callback_mapping (conn (leave h' m').1) = callback_mapping (conn h) ∧
  session (leave h' m').2 = session m.
Proof.
  intros [Hr Hs] Eh Em. unfold leave. cbn [fst snd set_mapping set_conn conn callback_mapping set_session
    session ns6_device_session_io_end option_map default from_option id].
  rewrite Eh, Em. cbn [inside_hal set_mapping set_conn conn callback_mapping inside_memory set_session
    session].
  unfold ns6_hal_mapping_release. split; [by apply add_readers_back|by apply add_in_flight_back].
Qed.

Section gives_back.
Context `{CABI : CoreAudioABI} (stream_format : AudioStreamBasicDescription).

Lemma record_metrics_keeps a id frames i h :
  conn (record_metrics a id frames i h) = conn h ∧ clients (record_metrics a id frames i h) = clients h ∧
  enqueue_failures (record_metrics a id frames i h) = enqueue_failures h.
Proof. unfold record_metrics. by destruct (output_time i). Qed.

Lemma count_failure_keeps a h :
  conn (count_failure a h) = conn h ∧ clients (count_failure a h) = clients h ∧
  enqueue_failures (count_failure a h) = enqueue_failures h +₃₂ 1.
Proof. done. Qed.

Lemma write_mix_spec a id frames i buffer h m :
  counters_ok h m →
  let '(r, h', m') := write_mix stream_format a id frames i buffer h m in
  r = NoErr ∧ callback_mapping (conn h') = callback_mapping (conn h) ∧ session m' = session m ∧
  clients h' = clients h ∧ capture m' = capture m ∧
  (admitted h m = false → h' = h ∧ m' = m) ∧
  (admitted h m = true →
   let '(accepted, ring) := ns6_transport_enqueue_shared (Some (output m)) buffer frames
                              (Some stream_format) in
   output m' = default (output m) ring ∧
   enqueue_failures h' = if (accepted : bool) then enqueue_failures h
                         else enqueue_failures h +₃₂ 1).
Proof.
  intros Hok. unfold write_mix. destruct (admitted h m) eqn:Ha.
  - rewrite (enter_admitted h m Ha).
    change (output (inside_memory m)) with (output m).
    destruct (ns6_transport_enqueue_shared _ _ _ _) as [accepted ring].
    set (h1 := set_flow _ (inside_hal h)).
    destruct (record_metrics_keeps a id frames i h1) as (Ec & El & Ef).
    set (h2 := record_metrics a id frames i h1) in *. clearbody h2.
    set (h3 := if accepted then h2 else count_failure a h2).
    assert (conn h3 = conn (inside_hal h) ∧ clients h3 = clients h ∧
      enqueue_failures h3 = if accepted then enqueue_failures h else enqueue_failures h +₃₂ 1)
      as (Ec3 & El3 & Ef3).
    { subst h3. destruct accepted; cbn [count_failure set_failures conn clients enqueue_failures];
        rewrite Ec, El, Ef; done. }
    clearbody h3. set (m1 := set_ring _ _).
    destruct (leave_inside h m h3 m1 Hok) as [E1 E2]; [by rewrite Ec3|done|].
    split; [done|]. split; [exact E1|]. split; [exact E2|]. split; [exact El3|]. split; [done|].
    split; [done|]. intros _. split; [done|exact Ef3].
  - rewrite (enter_refused h m Ha), (refused_unchanged h m Hok Ha). done.
Qed.

Lemma read_input_spec a frames buffer h m :
  counters_ok h m →
  let '(r, h', m', out) := read_input a frames buffer h m in
  callback_mapping (conn h') = callback_mapping (conn h) ∧ session m' = session m ∧
  clients h' = clients h ∧ output m' = output m ∧
  (r ≠ NoErr → h' = h ∧ m' = m ∧ out = buffer) ∧
  (admitted h m = false → h' = h ∧ m' = m ∧ (r = NoErr → out = silence frames buffer)).
Proof.
  intros Hok. unfold read_input. destruct (_ && _); [done|]. destruct (admitted h m) eqn:Ha.
  - rewrite (enter_admitted h m Ha).
    destruct (ns6_capture_ring_read _ _ _) as [[n ring] out].
    match goal with |- context [leave ?h1 ?m1] =>
      destruct (leave_inside h m h1 m1 Hok eq_refl eq_refl) as [E1 E2] end.
    split; [exact E1|]. split; [exact E2|]. done.
  - rewrite (enter_refused h m Ha), (refused_unchanged h m Hok Ha). done.
Qed.
(** An I/O cycle gives back its lease and its place in the session on every path:
    wrong objects and operations, null buffers, no mapping, a session that is not current,
    a full ring, success.  After it the mapping and the session are exactly as before and the
    client table is untouched; a cycle that reports an error changed nothing at all; a cycle
    that is not admitted leaves the shared memory alone and delivers silence on input; an
    admitted mix is appended to the ring as the ring's own operation does, and a rejected
    buffer is counted and still reported as success. *)
Theorem do_io_gives_back a object stream id operation frames i floats bytes h m :
  counters_ok h m →
  let '(r, h', m', out) := do_io stream_format a object stream id operation frames i floats bytes h m in
  callback_mapping (conn h') = callback_mapping (conn h) ∧ session m' = session m ∧
  clients h' = clients h ∧
  (r ≠ NoErr → h' = h ∧ m' = m ∧ out = floats) ∧
  (admitted h m = false → m' = m) ∧
  (admitted h m = false → object = DEVICE_ID → stream = INPUT_STREAM_ID → operation = ReadInput →
   r = NoErr → out = silence frames floats) ∧
  (admitted h m = true → object = DEVICE_ID → stream = STREAM_ID → operation = WriteMix →
   let '(accepted, ring) := ns6_transport_enqueue_shared (Some (output m)) bytes frames
                              (Some stream_format) in
   r = NoErr ∧ output m' = default (output m) ring ∧
   enqueue_failures h' = if (accepted : bool) then enqueue_failures h
                         else enqueue_failures h +₃₂ 1).
Proof.
  intros Hok. unfold do_io.
  destruct (Z.eqb_spec object DEVICE_ID) as [Eo|Eo]; cbn [negb]; [|by repeat split].
  destruct (Z.eqb_spec stream INPUT_STREAM_ID) as [Es|Es].
  { assert (stream ≠ STREAM_ID) as Hne by (subst; discriminate).
    destruct operation; [by repeat split| |by repeat split].
    pose proof (read_input_spec a frames floats h m Hok) as H.
    destruct (read_input a frames floats h m) as [[[r h'] m'] out].
    destruct H as (H1 & H2 & H3 & _ & H5 & H6).
    do 4 (split; [done|]). split; [intros Ha; by apply H6|].
    split; [intros Ha _ _ _; by apply H6|]. done. }
  destruct (Z.eqb_spec stream STREAM_ID) as [Es'|Es']; cbn [negb]; [|by repeat split].
  destruct operation; [|by repeat split..].
  pose proof (write_mix_spec a id frames i bytes h m Hok) as H.
  destruct (write_mix stream_format a id frames i bytes h m) as [[r h'] m'].
  destruct H as (-> & H1 & H2 & H3 & _ & H5 & H6).
  do 4 (split; [done|]). split; [intros Ha; by apply H5|]. split; [done|].
  intros Ha _ _ _. specialize (H6 Ha). destruct (ns6_transport_enqueue_shared _ _ _ _). by split.
Qed.
End gives_back.

(** A mix of one frame into an empty ring, and a read with a session that is over. *)
Definition example_memory (id : Z) : NS6SharedMemory :=
  {| protocol_version := 5; struct_size := 393344; output := zero_ring; capture := empty_ring;
     session := {| active_id := id; callbacks_in_flight := 2 |}; capture_requested := false;
     capture_last_demand_ns := 0 |}.

Definition quick_io : io_answers :=
  {| tick := 5; start_ns := 10; end_ns := 20; capture_ns := 30; log_tick := 40 |}.

Lemma do_io_gives_back_witness :
  (let '(r, h', m', _) := @do_io float_abi float4 quick_io 2 3 7 WriteMix 1 None None
                            (Some (replicate 16 0)) example_hal (example_memory 11) in
   session m' = session (example_memory 11) ∧ r = NoErr ∧
   high_water (output m') = 1 ∧ enqueue_failures h' = 0) ∧
  (let '(r, h', m', out) := @do_io float_abi float4 quick_io 2 4 7 ReadInput 1 None
                              (Some [d_of_Z 1; d_of_Z 1]) None example_hal (example_memory 12) in
   m' = example_memory 12).
Proof.
  split.
  - pose proof (@do_io_gives_back float_abi float4 quick_io 2 3 7 WriteMix 1 None None
      (Some (replicate 16 0)) example_hal (example_memory 11)
      ltac:(split; vm_compute; split; congruence)) as H.
    destruct (do_io _ _ _ _ _ _ _ _ _ _ _ _) as [[[r h'] m'] out].
    destruct H as (_ & E & _ & _ & _ & _ & H). specialize (H eq_refl eq_refl eq_refl eq_refl).
    assert ((@ns6_transport_enqueue_shared float_abi (Some (output (example_memory 11)))
      (Some (replicate 16 0)) 1 (Some float4)).1 = true) as Ea by (vm_compute; reflexivity).
    assert (option_map high_water (@ns6_transport_enqueue_shared float_abi
      (Some (output (example_memory 11))) (Some (replicate 16 0)) 1 (Some float4)).2 = Some 1) as Er
      by (vm_compute; reflexivity).
    destruct (ns6_transport_enqueue_shared _ _ _ _) as [accepted ring]. cbn [fst snd] in Ea, Er.
    destruct H as (-> & Eo & Ef). rewrite Ea in Ef. split; [exact E|]. split; [done|].
    split; [|exact Ef]. rewrite Eo. destruct ring; cbn in *; congruence.
  - pose proof (@do_io_gives_back float_abi float4 quick_io 2 4 7 ReadInput 1 None
      (Some [d_of_Z 1; d_of_Z 1]) None example_hal (example_memory 12)
      ltac:(split; vm_compute; split; congruence)) as H.
    destruct (do_io _ _ _ _ _ _ _ _ _ _ _ _) as [[[r h'] m'] out].
    destruct H as (_ & _ & _ & _ & H & _). apply H. reflexivity.
Defined.
