(* ===== verification/UsbWorker.v ===== *)
(** * The USB worker as a whole (NS6USB.c)

    The parts of the driver modelled one by one (output, feedback, capture, lifecycle,
    firmware query) run on one thread and share variables: the flags [running] and
    [recovery_requested], the clock, the statistics.  This file puts them together: setting
    a session up, its start, the polling loop, the callbacks and the cleanup, and the calls
    other threads make.

    Each part keeps its own copy of what it shares; [after_output], [after_feedback] and
    [after_driver] pass a change on to the other copies, and [coherent] says that the copies
    agree.  The theorems: every operation keeps the copies in agreement, so that what is
    proved about a part holds in the whole; and what the last turn of the run loop in
    [cleanup] leaves in flight when the buffers are destroyed. *)

From stdpp Require Import base list numbers tactics.
From Stdlib Require Import ZArith Lia ZifyBool.
From S2P Require Import Prelude Float Pcm Transport ClockControl CaptureRing.
From S2P Require Import MidiRecovery MidiReads MidiSession.
From S2P Require Import Policies Timing UsbOutput UsbTheory UsbCapture UsbFeedback UsbLifecycle.

Record usb := {
  drv : driver;
  out : out_worker;
  fb : feedback_state;
  cap : capture;
  fw : firmware_state
}.

(** ** Shared variables *)

Definition set_clock_of (c : clock_state) (w : out_worker) : out_worker :=
  UsbOutput.set_output (set_clock c (output w)) w.

Definition set_feedback_timings (interval lag : NS6USBTiming) (t : usb_timings) : usb_timings :=
  {| completion_interval := completion_interval t;
     completion_dispatch_lag := completion_dispatch_lag t;
     feedback_completion_interval := interval; feedback_completion_dispatch_lag := lag;
     callback_pre_fill := callback_pre_fill t; fill_duration := fill_duration t;
     fill_cpu := fill_cpu t; callback_submit := callback_submit t; submit_api := submit_api t;
     submit_api_cpu := submit_api_cpu t |}.

Definition set_flags (run rec : bool) (w : out_worker) : out_worker :=
  {| running := run; recovery_requested := rec; output := output w; slots := slots w;
     counters := counters w; timings := timings w; timebase := timebase w |}.

Definition set_paused_flag (p : bool) (w : out_worker) : out_worker :=
  let u := output w in
  UsbOutput.set_output
    {| transport := transport u; clock := clock u;
       gate := {| output_paused := p; awaiting_audio_prefill := awaiting_audio_prefill (gate u);
                  standby_prime_pending := standby_prime_pending (gate u);
                  startup_buffer_frames := startup_buffer_frames (gate u) |};
       recovery := recovery u; underrun := underrun u; output_pcm_peak := output_pcm_peak u;
       output_pcm_nonzero_frames := output_pcm_nonzero_frames u |} w.

Definition set_reader_running (run : bool) (s : feedback_state) : feedback_state :=
  {| reader_running := run; fb_slots := fb_slots s; feedback_in_flight := feedback_in_flight s;
     feedback_pipe := feedback_pipe s; feedback_packet_bytes := feedback_packet_bytes s;
     fb_auxiliary := fb_auxiliary s; feedback_last_sample := feedback_last_sample s;
     fb_counts := fb_counts s; fb_logs := fb_logs s; fb_clock := fb_clock s;
     fb_interval := fb_interval s; fb_lag := fb_lag s; fb_timebase := fb_timebase s |}.

Definition set_driver_flags (rec paused : bool) (d : driver) : driver :=
  {| thread_created := thread_created d; initialized := initialized d; d_running := d_running d;
     d_recovery_requested := rec; d_output_paused := paused; res := res d |}.

(** A callback of the output side ran. *)
Definition after_output (w : out_worker) (u : usb) : usb :=
  {| drv := set_driver_flags (recovery_requested w) (output_paused (gate (output w))) (drv u);
     out := w;
     fb := set_fb_timings (feedback_completion_interval (timings w))
             (feedback_completion_dispatch_lag (timings w))
             (set_reports (feedback_last_sample (fb u)) (fb_counts (fb u)) (fb_logs (fb u))
                (clock (output w)) (fb u));
     cap := cap u; fw := fw u |}.

(** A callback of the feedback side ran. *)
Definition after_feedback (s : feedback_state) (u : usb) : usb :=
  {| drv := drv u;
     out := with_timings (set_feedback_timings (fb_interval s) (fb_lag s))
              (set_clock_of (fb_clock s) (out u));
     fb := s; cap := cap u; fw := fw u |}.

(** The flags of the worker changed. *)
Definition after_driver (d : driver) (u : usb) : usb :=
  {| drv := d;
     out := set_paused_flag (d_output_paused d) (set_flags (d_running d) (d_recovery_requested d) (out u));
     fb := set_reader_running (d_running d) (fb u); cap := cap u; fw := fw u |}.

Definition set_cap (c : capture) (u : usb) : usb :=
  {| drv := drv u; out := out u; fb := fb u; cap := c; fw := fw u |}.

(** The copies agree. *)
Record coherent (u : usb) : Prop := {
  c_running : running (out u) = d_running (drv u);
  c_reader : reader_running (fb u) = d_running (drv u);
  c_recovery : recovery_requested (out u) = d_recovery_requested (drv u);
  c_paused : output_paused (gate (output (out u))) = d_output_paused (drv u);
  c_clock : fb_clock (fb u) = clock (output (out u));
  c_interval : fb_interval (fb u) = feedback_completion_interval (timings (out u));
  c_lag : fb_lag (fb u) = feedback_completion_dispatch_lag (timings (out u));
  c_timebase : fb_timebase (fb u) = timebase (out u)
}.

Section worker.
Context `{ABI : IOKitABI, BABI : BulkABI, UABI : USBABI, SABI : IsocABI}.
Context (cfg : ClockConfig) (idle_keepalive keep_idle : bool) (usb_cfg : USBConfig).

(** ** Callbacks of the run loop *)

Definition on_complete (a : complete_answers) (i status : Z) (u : usb) : usb :=
  after_output (UsbOutput.complete cfg idle_keepalive a i status (out u)).1 u.

Definition on_feedback_complete (a : feedback_answers) (i status : Z) (u : usb) : usb :=
  after_feedback (feedback_complete cfg a i status (fb u)).1 u.

Definition on_waveform_complete (a : completion_answers) (i status bytes : Z) (u : usb) : usb :=
  set_cap (waveform_read_complete a i status bytes (cap u)) u.

(** ** Setting a session up *)

(** What the system answers: the calls of [initialize], the buffers as created, the firmware
    query (result, bytes, number of bytes), the first submissions, whether MIDI started. *)
Record session_answers := {
  s_setup : UsbLifecycle.initialize_answers;
  s_slot : Z → list isoc_frame * list Z;
  s_feedback : Z → list isoc_frame * list Z;
  s_firmware : Z * list Z * Z;
  s_submit : Z → submit_answers;
  s_feedback_read : Z → Z * Z;
  s_midi : bool;
  s_drain : Z → read_results
}.

(** How far [initialize] comes: to the endpoint of the capture, to the control requests, to
    the firmware query, to the feedback reader. *)
Definition reaches_waveform (a : UsbLifecycle.initialize_answers) : bool :=
  found_0 a && ok (open_0 a) && found_1 a && ok (open_1 a) && ok (alternate_1 a).

Definition reaches_requests (a : UsbLifecycle.initialize_answers) : bool :=
  reaches_waveform a && ok (source_result a) && source_created a &&
  ok (feedback_source_result a) && feedback_source_created a.

Definition reaches_firmware (a : UsbLifecycle.initialize_answers) : bool :=
  reaches_requests a && ok (alternate_0 a) && ok (capability_result a) &&
  ((capability_length a =? 0) || ok (capability_details a)).

Definition reaches_feedback (a : UsbLifecycle.initialize_answers) : bool :=
  reaches_requests a && requests a.

Definition set_auxiliary (b : bool) (c : capture) : capture :=
  {| waveform := waveform c; local_capture_ring := local_capture_ring c; shared := shared c;
     auxiliary_interface := b; waveform_pipe := waveform_pipe c;
     waveform_drain_running := waveform_drain_running c;
     waveform_generation := waveform_generation c; capture_active := capture_active c;
     capture_last_demand_ns := capture_last_demand_ns c;
     capture_frames_decoded := capture_frames_decoded c;
     capture_ring_drops := capture_ring_drops c; waveform_completions := waveform_completions c;
     waveform_errors := waveform_errors c; waveform_last_log_ms := waveform_last_log_ms c |}.

Definition set_fb_auxiliary (b : bool) (s : feedback_state) : feedback_state :=
  {| reader_running := reader_running s; fb_slots := fb_slots s;
     feedback_in_flight := feedback_in_flight s; feedback_pipe := feedback_pipe s;
     feedback_packet_bytes := feedback_packet_bytes s; fb_auxiliary := b;
     feedback_last_sample := feedback_last_sample s; fb_counts := fb_counts s;
     fb_logs := fb_logs s; fb_clock := fb_clock s; fb_interval := fb_interval s;
     fb_lag := fb_lag s; fb_timebase := fb_timebase s |}.

Definition set_slots (ss : list slot) (w : out_worker) : out_worker :=
  {| running := running w; recovery_requested := recovery_requested w; output := output w;
     slots := ss; counters := counters w; timings := timings w; timebase := timebase w |}.

(** A slot as [initialize] finds it, zeroed, with its new buffers. *)
Definition new_slot (b : list isoc_frame * list Z) : slot := Build_slot b.1 b.2 0 0 0 0 0 0 0.

Definition indices (n : Z) : list Z := seqZ 0 n.

Definition feedback_buffers_of (a : session_answers) (i : Z) : option (list isoc_frame * list Z) :=
  if ok (feedback_data (s_setup a) i) && ok (feedback_list (s_setup a) i)
  then Some (s_feedback a i) else None.

(** The top of the worker's loop: [recovery_requested] is cleared and [initialize] runs. *)
Definition set_up (a : session_answers) (u : usb) : bool * usb :=
  let d := drv u in
  let i := s_setup a in
  let '(ready, r) := UsbLifecycle.initialize usb_cfg i (res d) in
  let d := {| thread_created := thread_created d; initialized := initialized d;
              d_running := d_running d; d_recovery_requested := false;
              d_output_paused := d_output_paused d; res := r |} in
  let u := after_driver d u in
  let c := set_auxiliary (found_0 i && ok (open_0 i) && found_1 i) (cap u) in
  let c := if reaches_waveform i then (prepare_waveform_drain (waveform_pipes i) c).2 else c in
  let f := set_fb_auxiliary (found_0 i && ok (open_0 i) && found_1 i) (fb u) in
  let f := if reaches_feedback i
           then prepare_feedback_reader usb_cfg (feedback_pipes i) (feedback_buffers_of a) f else f in
  let w := if (ready : bool)
           then set_slots (map (λ n, new_slot (s_slot a n)) (indices (ns6_usb_output_slot_count usb_cfg)))
                  (out u)
           else out u in
  let '(result, response, returned) := s_firmware a in
  (ready,
   {| drv := drv u; out := w; fb := f; cap := c;
      fw := if reaches_firmware i then read_firmware_version result response returned (fw u)
            else fw u |}).

(** ** A session *)

Definition submit_all (answers : Z → submit_answers) (u : usb) : usb :=
  foldl (λ u i, after_output (submit cfg idle_keepalive (answers i) i (out u)).1 u) u
    (indices (ns6_usb_output_slot_count usb_cfg)).

Definition submit_feedback (answers : Z → Z * Z) (u : usb) : usb :=
  foldl (λ u i, after_feedback (feedback_submit (answers i).1 (answers i).2 i (fb u)).1 u) u
    (indices FEEDBACK_SLOT_COUNT).

(** Counters, first transfers, MIDI; without MIDI the drain runs. *)
Definition start_session (a : session_answers) (u : usb) : usb :=
  let c := cap u in
  let u := set_cap (set_counters (capture_frames_decoded c) (capture_ring_drops c) 0 0 0 c) u in
  let u := submit_feedback (s_feedback_read a) (submit_all (s_submit a) u) in
  if ns6_should_run_waveform_drain (s_midi a) false
  then set_cap (start_waveform_drain (s_drain a) (cap u)) u else u.

(** One turn of the polling loop, after the callbacks of the run loop; replaying the MIDI
    handshake is [ns6_midi_handshake] of MidiSession.v. *)
Definition poll (midi_session_active : bool) (now : Z) (results : Z → read_results)
    (answers : Z → Z * Z) (u : usb) : usb :=
  let u := set_cap (poll_capture keep_idle midi_session_active now results (cap u)) u in
  if d_running (drv u) then submit_feedback answers u else u.

(** ** Cleanup *)

(** Everything up to the last turn of the run loop: the drain stops, the pipes are aborted. *)
Definition abort (u : usb) : usb := set_cap (set_drain false (cap u)) u.

(** The buffers, pipes and interfaces are given back. *)
Definition release (u : usb) : usb :=
  let d := drv u in
  {| drv := {| thread_created := thread_created d; initialized := initialized d;
               d_running := d_running d; d_recovery_requested := d_recovery_requested d;
               d_output_paused := d_output_paused d; res := cleanup usb_cfg (res d) |};
     out := set_slots (map (λ _, inhabitant) (indices (ns6_usb_output_slot_count usb_cfg))) (out u);
     fb := set_fb_auxiliary false
             (set_fb_slots (replicate 2 {| fb_frames := None; fb_data := None |}) [false; false] 0 0
                (fb u));
     cap := set_auxiliary false (set_pipe 0 (cap u));
     fw := fw u |}.

(** What the run loop can deliver. *)
Inductive callback :=
  | Completed (a : complete_answers) (i status : Z)
  | FeedbackCompleted (a : feedback_answers) (i status : Z)
  | WaveformCompleted (a : completion_answers) (i status bytes : Z).

Definition deliver_callback (u : usb) (c : callback) : usb :=
  match c with
  | Completed a i status => on_complete a i status u
  | FeedbackCompleted a i status => on_feedback_complete a i status u
  | WaveformCompleted a i status bytes => on_waveform_complete a i status bytes u
  end.

(** [initialized] is withdrawn, the pipes are aborted, the callbacks [cs] arrive in the last
    turn of the run loop, and everything is given back. *)
Definition not_initialized (u : usb) : usb :=
  let d := drv u in
  {| drv := {| thread_created := thread_created d; initialized := false; d_running := d_running d;
               d_recovery_requested := d_recovery_requested d;
               d_output_paused := d_output_paused d; res := res d |};
     out := out u; fb := fb u; cap := cap u; fw := fw u |}.

Definition before_release (cs : list callback) (u : usb) : usb :=
  foldl deliver_callback (abort (not_initialized u)) cs.

Definition end_session (cs : list callback) (u : usb) : usb := release (before_release cs u).

(** ** Calls of other threads *)

Definition zero_feedback_counts : feedback_counts := Build_feedback_counts 0 0 0 0 0 0 0 0.

(** The feedback part of what [ns6_usb_start] resets. *)
Definition start_feedback (base : Z * Z) (s : feedback_state) : feedback_state :=
  {| reader_running := true; fb_slots := fb_slots s; feedback_in_flight := [false; false];
     feedback_pipe := feedback_pipe s; feedback_packet_bytes := feedback_packet_bytes s;
     fb_auxiliary := fb_auxiliary s; feedback_last_sample := [0; 0; 0];
     fb_counts := zero_feedback_counts;
     fb_logs := Build_feedback_logs 0 0 0 0 zero_feedback_counts 0;
     fb_clock := {| clock_control := ns6_clock_control_init; feedback_last_valid_ms := 0;
                    feedback_stale_resets := 0; feedback_stale_reset_started_ms := 0 |};
     fb_interval := ns6_usb_timing_init; fb_lag := ns6_usb_timing_init; fb_timebase := base |}.

Definition with_driver (created init run rec paused : bool) (u : usb) : usb :=
  after_driver {| thread_created := created; initialized := init; d_running := run;
                  d_recovery_requested := rec; d_output_paused := paused; res := res (drv u) |} u.

(** The variables a start resets, with the timebase it reads. *)
Definition start_variables (base : Z * Z) (u : usb) : usb :=
  with_driver false false true false true
    {| drv := drv u; out := start_output base (out u); fb := start_feedback base (fb u);
       cap := start_capture (cap u); fw := fw u |}.

(** [created] is the result of [pthread_create]; the call waits until the worker has set up
    its first session or given up.  A worker that gave up cleans up and is joined. *)
Definition usb_start (created : bool) (base : Z * Z) (a : session_answers) (cs : list callback)
    (u : usb) : bool * usb :=
  if thread_created (drv u) then (initialized (drv u), u)
  else
    let u := start_variables base u in
    let d := drv u in
    if negb created then (false, with_driver false false false (d_recovery_requested d) (d_output_paused d) u)
    else
      let '(ready, u) := set_up a u in
      let d := drv u in
      if (ready : bool) then (true, with_driver true true (d_running d) (d_recovery_requested d) (d_output_paused d) u)
      else
        let u := end_session cs
          (with_driver true false false (d_recovery_requested d) (d_output_paused d) u) in
        let d := drv u in
        (false, with_driver false false (d_running d) (d_recovery_requested d) (d_output_paused d) u).

Definition usb_request_restart (created : bool) (base : Z * Z) (a : session_answers)
    (cs : list callback) (u : usb) : bool * usb :=
  if negb (thread_created (drv u)) then usb_start created base a cs u
  else (true, with_driver true false (d_running (drv u)) true true u).

Definition usb_is_ready (u : usb) : bool := ns6_usb_is_ready (drv u).

(** The worker leaves its loop, cleans up and is joined. *)
Definition usb_stop (cs : list callback) (u : usb) : usb :=
  let d := drv u in
  if negb (thread_created d) then u
  else
    let u := end_session cs (with_driver true (initialized d) false (d_recovery_requested d) true u) in
    let d := drv u in
    with_driver false false (d_running d) (d_recovery_requested d) (d_output_paused d) u.

Definition set_gate_of (g : gate_state) (u : usb) : usb :=
  let o := output (out u) in
  after_output
    (UsbOutput.set_output
       {| transport := transport o; clock := clock o; gate := g; recovery := recovery o;
          underrun := underrun o; output_pcm_peak := output_pcm_peak o;
          output_pcm_nonzero_frames := output_pcm_nonzero_frames o |} (out u)) u.

Definition usb_set_paused (paused : bool) (u : usb) : usb :=
  set_gate_of (ns6_usb_set_paused paused (d_recovery_requested (drv u)) (gate (output (out u)))) u.

Definition usb_set_startup_buffer_frames (frames : Z) (u : usb) : usb :=
  set_gate_of (ns6_usb_set_startup_buffer_frames frames (gate (output (out u)))) u.

(** ** The worker's loop

    After a session ended with recovery requested, the next one is set up; a setup that fails
    is cleaned up and tried again.  Both leave [initialized] as the worker publishes it. *)
Definition next_session (a : session_answers) (cs : list callback) (u : usb) : usb :=
  if negb (d_running (drv u)) then u
  else
    let '(ready, u) := set_up a u in
    let d := drv u in
    let u := with_driver (thread_created d) ready (d_running d) (d_recovery_requested d)
               (d_output_paused d) u in
    if (ready : bool) then start_session a u else end_session cs u.

(** What can happen to the driver: calls of other threads, and the worker's own steps. *)
Inductive usb_event :=
  | Start (created : bool) (base : Z * Z) (a : session_answers) (cs : list callback)
  | Restart (created : bool) (base : Z * Z) (a : session_answers) (cs : list callback)
  | Stop (cs : list callback)
  | SetPaused (paused : bool)
  | SetStartupBuffer (frames : Z)
  | CaptureRead (buffer : option (list spec_float)) (frames now : Z)
  | ResetCapture
  | BeginSession (a : session_answers)
  | Deliver (c : callback)
  | Poll (midi : bool) (now : Z) (results : Z → read_results) (answers : Z → Z * Z)
  | EndSession (cs : list callback)
  | NextSession (a : session_answers) (cs : list callback).

Definition usb_step (u : usb) (e : usb_event) : usb :=
  match e with
  | Start created base a cs => (usb_start created base a cs u).2
  | Restart created base a cs => (usb_request_restart created base a cs u).2
  | Stop cs => usb_stop cs u
  | SetPaused paused => usb_set_paused paused u
  | SetStartupBuffer frames => usb_set_startup_buffer_frames frames u
  | CaptureRead buffer frames now => set_cap (ns6_usb_capture_read buffer frames now (cap u)).2 u
  | ResetCapture => set_cap (ns6_usb_reset_capture_session (cap u)) u
  | BeginSession a => start_session a u
  | Deliver c => deliver_callback u c
  | Poll midi now results answers => poll midi now results answers u
  | EndSession cs => end_session cs u
  | NextSession a cs => next_session a cs u
  end.

(** ** The copies stay in agreement *)

Lemma submit_flags a i w :
  let w' := (submit cfg idle_keepalive a i w).1 in
  running w' = running w ∧ timebase w' = timebase w.
Proof.
  cbv zeta. unfold submit. destruct (_ || _); [done|].
  destruct (fill _ _ _ _ _ _) as [filled u']. cbn [fst]. by destruct (_ =? _).
Qed.

Lemma complete_flags a i status w :
  let w' := (UsbOutput.complete cfg idle_keepalive a i status w).1 in
  running w' = running w ∧ timebase w' = timebase w.
Proof.
  cbv zeta. unfold UsbOutput.complete. destruct (_ || _); [done|].
  destruct (negb (status =? _)).
  { destruct (_ >=? 3); [done|].
    match goal with |- context [submit _ _ ?a ?i ?v] => destruct (submit_flags a i v) as [-> ->] end. done. }
  match goal with |- context [if ?b then health_report ?w else _] => destruct b end;
    match goal with |- context [submit _ _ ?a ?i ?v] => destruct (submit_flags a i v) as [-> ->] end; done.
Qed.

Lemma feedback_submit_flags r l i s :
  let s' := (feedback_submit r l i s).1 in
  reader_running s' = reader_running s ∧ fb_timebase s' = fb_timebase s.
Proof.
  cbv zeta. unfold feedback_submit.
  destruct (fb_data (rd (fb_slots s) i)), (fb_frames (rd (fb_slots s) i)); try done.
  destruct (_ || _); [done|]. destruct (negb _); [done|]. by destruct (_ =? _).
Qed.

Lemma feedback_packets_flags a frames bytes s :
  let s' := feedback_packets cfg a frames bytes s in
  reader_running s' = reader_running s ∧ fb_timebase s' = fb_timebase s.
Proof.
  apply (for_loop_ind (λ _ s', reader_running s' = reader_running s ∧ fb_timebase s' = fb_timebase s));
    [done|]. intros k s1 _ [<- <-]. unfold feedback_packet. destruct (negb _); [done|].
  destruct (_ <? 3); [done|]. by destruct (observe_report _ _ _ _).
Qed.

Lemma feedback_complete_flags a i status s :
  let s' := (feedback_complete cfg a i status s).1 in
  reader_running s' = reader_running s ∧ fb_timebase s' = fb_timebase s.
Proof.
  cbv zeta. unfold feedback_complete. set (s1 := if i <? _ then _ else _).
  assert (reader_running s1 = reader_running s ∧ fb_timebase s1 = fb_timebase s) as [E1 E2].
  { unfold s1. by destruct (i <? _). }
  clearbody s1. destruct (negb (reader_running s1)); [done|]. destruct (negb _).
  { match goal with |- context [feedback_submit ?r ?l ?i ?v] =>
      destruct (feedback_submit_flags r l i v) as [-> ->] end. done. }
  pose proof (feedback_packets_flags a (default [] (fb_frames (rd (fb_slots s) i)))
    (default [] (fb_data (rd (fb_slots s) i))) s1) as [F1 F2].
  set (s2 := feedback_packets _ _ _ _ _) in *. clearbody s2.
  assert (reader_running (periodic_log (fb_periodic_ms a) s2) = reader_running s2 ∧
          fb_timebase (periodic_log (fb_periodic_ms a) s2) = fb_timebase s2) as [G1 G2].
  { unfold periodic_log. by destruct (should_log_once_per_second _ _). }
  destruct (feedback_submit_flags (fb_read_result a) (fb_submit_ms a) i (periodic_log (fb_periodic_ms a) s2))
    as [-> ->]. split; congruence.
Qed.

Lemma coherent_after_output w u :
  coherent u → running w = running (out u) → timebase w = timebase (out u) →
  coherent (after_output w u).
Proof. intros [] Hr Ht. split; cbn; congruence. Qed.

Lemma coherent_after_feedback s u :
  coherent u → reader_running s = reader_running (fb u) → fb_timebase s = fb_timebase (fb u) →
  coherent (after_feedback s u).
Proof. intros [] Hr Ht. split; cbn; congruence. Qed.

Lemma coherent_after_driver d u : coherent u → coherent (after_driver d u).
Proof. intros []. by split. Qed.

Lemma coherent_set_cap c u : coherent u → coherent (set_cap c u).
Proof. intros []. by split. Qed.

Lemma coherent_callback c u : coherent u → coherent (deliver_callback u c).
Proof.
  intros Hc. destruct c as [a i st|a i st|a i st bytes]; cbn [deliver_callback].
  - destruct (complete_flags a i st (out u)) as [? ?]. by apply coherent_after_output.
  - destruct (feedback_complete_flags a i st (fb u)) as [? ?]. by apply coherent_after_feedback.
  - by apply coherent_set_cap.
Qed.

Lemma coherent_submit_all answers u : coherent u → coherent (submit_all answers u).
Proof.
  unfold submit_all. generalize (indices (ns6_usb_output_slot_count usb_cfg)).
  intros l. revert u. induction l as [|i l IH]; intros u Hc; [done|]. cbn [foldl]. apply IH.
  destruct (submit_flags (answers i) i (out u)) as [? ?]. by apply coherent_after_output.
Qed.

Lemma coherent_submit_feedback answers u : coherent u → coherent (submit_feedback answers u).
Proof.
  unfold submit_feedback. generalize (indices FEEDBACK_SLOT_COUNT).
  intros l. revert u. induction l as [|i l IH]; intros u Hc; [done|]. cbn [foldl]. apply IH.
  destruct (feedback_submit_flags (answers i).1 (answers i).2 i (fb u)) as [? ?].
  by apply coherent_after_feedback.
Qed.

Lemma prepare_feedback_flags pipes alloc s :
  let s' := prepare_feedback_reader usb_cfg pipes alloc s in
  reader_running s' = reader_running s ∧ fb_timebase s' = fb_timebase s ∧ fb_clock s' = fb_clock s ∧
  fb_interval s' = fb_interval s ∧ fb_lag s' = fb_lag s.
Proof.
  cbv zeta. unfold prepare_feedback_reader. destruct (_ || _); [done|].
  destruct pipes as [ps|]; [|done]. destruct (find_feedback_pipe 1 ps) as [[pipe bytes]|]; [|done].
  destruct (_ <? 3); [done|]. destruct (alloc 0) as [[]|], (alloc 1) as [[]|]; done.
Qed.

Lemma coherent_set_up a u : coherent u → coherent (set_up a u).2.
Proof.
  intros Hc. unfold set_up. destruct (UsbLifecycle.initialize _ _ _) as [ready r].
  set (d := {| thread_created := _; initialized := _; d_running := _; d_recovery_requested := _;
               d_output_paused := _; res := r |}).
  pose proof (coherent_after_driver d u Hc) as []. destruct (s_firmware a) as [[result response] n].
  cbn [snd]. set (f := set_fb_auxiliary _ _).
  assert (let f' := if reaches_feedback (s_setup a)
                    then prepare_feedback_reader usb_cfg (feedback_pipes (s_setup a)) (feedback_buffers_of a) f
                    else f in
    reader_running f' = reader_running f ∧ fb_timebase f' = fb_timebase f ∧ fb_clock f' = fb_clock f ∧
    fb_interval f' = fb_interval f ∧ fb_lag f' = fb_lag f) as (E1 & E2 & E3 & E4 & E5).
  { cbv zeta. destruct (reaches_feedback _); [apply prepare_feedback_flags|done]. }
  destruct ready; split; cbn [drv out fb]; rewrite ?E1, ?E2, ?E3, ?E4, ?E5; done.
Qed.

Lemma coherent_start_session a u : coherent u → coherent (start_session a u).
Proof.
  intros Hc. unfold start_session.
  assert (∀ v, coherent v → coherent (if ns6_should_run_waveform_drain (s_midi a) false
    then set_cap (start_waveform_drain (s_drain a) (cap v)) v else v)) as H.
  { intros v Hv. destruct (ns6_should_run_waveform_drain _ _); [by apply coherent_set_cap|done]. }
  apply H, coherent_submit_feedback, coherent_submit_all. by apply coherent_set_cap.
Qed.

Lemma coherent_poll midi now results answers u : coherent u → coherent (poll midi now results answers u).
Proof.
  intros Hc. unfold poll. set (v := set_cap _ _). assert (coherent v) as Hv by by apply coherent_set_cap.
  destruct (d_running (drv v)); [by apply coherent_submit_feedback|done].
Qed.

Lemma coherent_before_release cs u : coherent u → coherent (before_release cs u).
Proof.
  intros Hc. unfold before_release.
  assert (coherent (abort (not_initialized u))) as Ha.
  { apply coherent_set_cap. destruct Hc. by split. }
  revert Ha. generalize (abort (not_initialized u)). induction cs as [|c cs IH]; intros v Hv; [done|].
  cbn [foldl]. by apply IH, coherent_callback.
Qed.

Lemma coherent_end_session cs u : coherent u → coherent (end_session cs u).
Proof. intros Hc%(coherent_before_release cs). destruct Hc. by split. Qed.

Lemma coherent_with_driver created init run rec paused u :
  coherent u → coherent (with_driver created init run rec paused u).
Proof. apply coherent_after_driver. Qed.

Lemma coherent_start_variables base u : coherent (start_variables base u).
Proof. by split. Qed.

Lemma coherent_usb_start created base a cs u : coherent u → coherent (usb_start created base a cs u).2.
Proof.
  intros Hc. unfold usb_start. destruct (thread_created (drv u)); [done|].
  pose proof (coherent_start_variables base u) as Hs. set (v := start_variables base u) in *.
  clearbody v. cbv zeta. destruct (negb created); [by apply coherent_with_driver|].
  pose proof (coherent_set_up a v Hs) as Hu. destruct (set_up a v) as [ready w]. cbn [snd] in Hu.
  destruct ready; [by apply coherent_with_driver|]. cbn [snd].
  by apply coherent_with_driver, coherent_end_session, coherent_with_driver.
Qed.

Lemma coherent_set_gate g u : coherent u → coherent (set_gate_of g u).
Proof. intros Hc. by apply coherent_after_output. Qed.

Lemma coherent_next_session a cs u : coherent u → coherent (next_session a cs u).
Proof.
  intros Hc. unfold next_session. destruct (negb _); [done|].
  pose proof (coherent_set_up a u Hc) as Hu. destruct (set_up a u) as [ready w]. cbn [snd] in Hu.
  destruct ready; [apply coherent_start_session|apply coherent_end_session];
    by apply coherent_with_driver.
Qed.

#[local] Hint Resolve coherent_usb_start coherent_end_session coherent_with_driver coherent_set_gate
  coherent_set_cap coherent_start_session coherent_callback coherent_poll coherent_next_session : ns6.

(** Every operation keeps the copies of the shared variables in agreement. *)
Theorem usb_step_coherent e u : coherent u → coherent (usb_step u e).
Proof.
  intros Hc. destruct e; cbn [usb_step]; auto with ns6.
  - unfold usb_request_restart. destruct (negb _); cbn [snd]; auto with ns6.
  - unfold usb_stop. destruct (negb _); auto with ns6.
  - unfold usb_set_paused. auto with ns6.
  - unfold usb_set_startup_buffer_frames. auto with ns6.
Qed.

(** ** What is in flight when the buffers are destroyed *)

Definition feedback_busy (u : usb) (i : Z) : bool := rd (feedback_in_flight (fb u)) i.
Definition waveform_busy (u : usb) (i : Z) : bool := in_flight (rd (waveform (cap u)) i).

Definition lands_feedback (i : Z) (c : callback) : bool :=
  match c with FeedbackCompleted _ j _ => j =? i | _ => false end.
Definition lands_waveform (i : Z) (c : callback) : bool :=
  match c with WaveformCompleted _ j _ _ => j =? i | _ => false end.

(** A callback names an existing slot. *)
Definition names_slot (c : callback) : Prop :=
  match c with
  | Completed _ i _ => 0 <= i
  | FeedbackCompleted _ i _ => 0 <= i < FEEDBACK_SLOT_COUNT
  | WaveformCompleted _ i _ _ => 0 <= i < WAVEFORM_READ_SLOTS
  end.

(** The arrays have their sizes. *)
Definition sized (u : usb) : Prop :=
  Z.of_nat (length (feedback_in_flight (fb u))) = FEEDBACK_SLOT_COUNT ∧
  Z.of_nat (length (waveform (cap u))) = WAVEFORM_READ_SLOTS.

(** With the worker stopped and the drain off, a completion only takes its read out of
    flight. *)
Lemma stopped_callback c u :
  reader_running (fb u) = false → waveform_drain_running (cap u) = false → sized u → names_slot c →
  let u' := deliver_callback u c in
  reader_running (fb u') = false ∧ waveform_drain_running (cap u') = false ∧ sized u' ∧
  running (out u') = running (out u) ∧
  (∀ i, 0 <= i → feedback_busy u' i = feedback_busy u i && negb (lands_feedback i c)) ∧
  (∀ i, 0 <= i → waveform_busy u' i = waveform_busy u i && negb (lands_waveform i c)).
Proof.
  intros Hr Hd [Hf Hw] Hn. cbv zeta. unfold feedback_busy, waveform_busy.
  destruct c as [a j st|a j st|a j st bytes]; cbn [deliver_callback lands_feedback lands_waveform names_slot] in *.
  - destruct (complete_flags a j st (out u)) as [Er _]. repeat split; try done; intros; by rewrite andb_true_r.
  - unfold on_feedback_complete, feedback_complete. replace (j <? FEEDBACK_SLOT_COUNT) with true by lia.
    cbn [set_in_flight set_fb_slots set_fb_timings reader_running]. rewrite Hr. cbn [negb fst].
    repeat split; try done; cbn; [by rewrite length_wr|..]; intros i Hi; [|by rewrite andb_true_r].
    destruct (Z.eqb_spec j i) as [->|]; [rewrite rd_wr_eq by lia; by rewrite andb_false_r|].
    rewrite rd_wr_ne by lia. by rewrite andb_true_r.
  - unfold on_waveform_complete, waveform_read_complete. cbn [land set_waveform waveform_drain_running].
    rewrite Hd. cbn [negb]. repeat split; try done; cbn; [by rewrite length_wr|..]; intros i Hi;
      [by rewrite andb_true_r|].
    destruct (Z.eqb_spec j i) as [->|]; [rewrite rd_wr_eq by lia; cbn; by rewrite andb_false_r|].
    rewrite rd_wr_ne by lia. by rewrite andb_true_r.
Qed.

Lemma stopped_callbacks cs u :
  reader_running (fb u) = false → waveform_drain_running (cap u) = false → sized u →
  Forall names_slot cs →
  let u' := foldl deliver_callback u cs in
  running (out u') = running (out u) ∧
  (∀ i, 0 <= i → feedback_busy u' i = feedback_busy u i && negb (existsb (lands_feedback i) cs)) ∧
  (∀ i, 0 <= i → waveform_busy u' i = waveform_busy u i && negb (existsb (lands_waveform i) cs)).
Proof.
  intros Hr Hd Hs Hn. revert u Hr Hd Hs. induction Hn as [|c cs Hc _ IH]; intros u Hr Hd Hs.
  { cbn. split; [done|]. split; intros; by rewrite andb_true_r. }
  cbn [foldl existsb]. destruct (stopped_callback c u Hr Hd Hs Hc) as (Hr' & Hd' & Hs' & E0 & E1 & E2).
  destruct (IH _ Hr' Hd' Hs') as (F0 & F1 & F2). split; [congruence|].
  split; intros i Hi; [rewrite F1, E1 by done|rewrite F2, E2 by done];
    rewrite negb_orb, andb_assoc; done.
Qed.

End worker.

(** A driver with both feedback reads and one capture read in flight, stopped or recovering. *)
Definition leaving_usb (run : bool) : usb :=
  after_driver
    {| thread_created := true; initialized := true; d_running := run; d_recovery_requested := true;
       d_output_paused := true; res := released default_usb |}
    {| drv := example_driver; out := ready_worker; fb := example_feedback; cap := waiting_capture;
       fw := {| firmware_response_bits := 0; firmware_response_valid := false |} |}.

Lemma leaving_usb_coherent run : coherent (leaving_usb run) ∧ sized (leaving_usb run).
Proof. split; by split. Qed.

(** The reads complete as aborted, with the status 1 here. *)
Definition aborted_reads : list callback :=
  [FeedbackCompleted example_answers 1 1; WaveformCompleted quick_answers 0 1 0;
   FeedbackCompleted example_answers 0 1].

