(* ===== verification/HalProperties.v ===== *)
(** * Properties and timestamps of the plug-in (NS6HAL.c, NS6ZeroTimestamp.h)

    The tables CoreAudio reads: which properties an object has ([has_property]), how large
    they are ([property_size]), whether they can be set ([is_settable]) and what they hold
    ([get_property]), the zero timestamps, and the reference count of the plug-in.  The
    theorems say that the tables agree with each other, and that a buffer size that was set
    is the one read back. *)

From stdpp Require Import base list numbers tactics strings pretty.
From Stdlib Require Import ZArith Lia ZifyBool.
From S2P Require Import Prelude Float Pcm Transport SharedMemory DeviceClient MidiSession.
From S2P Require Import Policies Timing Hal.

(** Class and type codes, and the sizes of the structures whose layout the headers of the
    system give. *)
Class PropertyABI := {
  kAudioObjectClassID : Z;
  kAudioPlugInClassID : Z;
  kAudioDeviceClassID : Z;
  kAudioStreamClassID : Z;
  kAudioObjectUnknown : Z;
  kAudioDeviceTransportTypeUSB : Z;
  kAudioStreamTerminalTypeLine : Z;
  kAudioFormatLinearPCM : Z;
  stream_format_flags : Z;
  custom_property_string : Z;
  custom_property_none : Z;
  sizeof_CFStringRef : Z;
  sizeof_AudioValueRange : Z;
  sizeof_CustomPropertyInfo : Z;
  sizeof_one_buffer_list : Z;
  sizeof_AudioStreamBasicDescription : Z;
  sizeof_AudioStreamRangedDescription : Z
}.

(** ** Values *)

(** Codes of the characters of a C string. *)
Definition text (s : string) : list Z :=
  map (λ c, Z.of_N (Ascii.N_of_ascii c)) (String.list_ascii_of_string s).

(** All fields of a stream description. *)
Record stream_description := {
  mSampleRate : spec_float;
  mFormatID : Z;
  sd_flags : Z;
  mBytesPerPacket : Z;
  mFramesPerPacket : Z;
  sd_bytes_per_frame : Z;
  sd_channels : Z;
  sd_bits : Z;
  mReserved : Z
}.

(** What a read stores in the caller's buffer. *)
Inductive property_data :=
  | CFString (s : list Z)
  | NullString
  | UInt32s (vs : list Z)
  | Float64 (v : spec_float)
  | ValueRange (minimum maximum : spec_float)
  | CustomPropertyInfos (infos : list (Z * Z * Z))
  | OneBufferList (channels : Z)
  | StreamDescription (d : stream_description)
  | RangedDescription (d : stream_description) (minimum maximum : spec_float).

Section properties.
Context `{PABI : PropertyABI, MABI : MachABI}.

Definition SAMPLE_RATE : spec_float := d_of_Z 44100.

Definition stream_format : stream_description :=
  {| mSampleRate := SAMPLE_RATE; mFormatID := kAudioFormatLinearPCM; sd_flags := stream_format_flags;
     mBytesPerPacket := 16; mFramesPerPacket := 1; sd_bytes_per_frame := 16; sd_channels := 4;
     sd_bits := 32; mReserved := 0 |}.

Definition input_stream_format : stream_description :=
  {| mSampleRate := SAMPLE_RATE; mFormatID := kAudioFormatLinearPCM; sd_flags := stream_format_flags;
     mBytesPerPacket := 8; mFramesPerPacket := 1; sd_bytes_per_frame := 8; sd_channels := 2;
     sd_bits := 32; mReserved := 0 |}.

(** 'ns6b', 'ns6r', 'ns6f', 'ns6c', 'ns6v' *)
Definition custom_property_info : list (Z * Z * Z) :=
  map (λ code, (code, custom_property_string, custom_property_none))
    [0x6e733662; 0x6e733672; 0x6e733666; 0x6e733663; 0x6e733676].

(** Bytes a value takes. *)
Definition size_of (d : property_data) : Z :=
  match d with
  | CFString _ | NullString => sizeof_CFStringRef
  | UInt32s vs => 4 * Z.of_nat (length vs)
  | Float64 _ => 8
  | ValueRange _ _ => sizeof_AudioValueRange
  | CustomPropertyInfos infos => Z.of_nat (length infos) * sizeof_CustomPropertyInfo
  | OneBufferList _ => sizeof_one_buffer_list
  | StreamDescription _ => sizeof_AudioStreamBasicDescription
  | RangedDescription _ _ _ => sizeof_AudioStreamRangedDescription
  end.

(** ** The tables *)

Definition valid_object (object : Z) : bool :=
  (object =? PLUGIN_ID) || (object =? DEVICE_ID) || (object =? STREAM_ID) ||
  (object =? INPUT_STREAM_ID).

Definition has_property (object : Z) (address : option property_address) : bool :=
  match address with
  | None => false
  | Some a =>
      if negb (valid_object object) then false
      else match a_selector a with
      | BaseClass | ObjectClass | Owner | Name => true
      | sel =>
          if object =? PLUGIN_ID then
            match sel with
            | Manufacturer | OwnedObjects | DeviceList | ResourceBundle => true
            | _ => false
            end
          else if object =? DEVICE_ID then
            match sel with
            | Manufacturer | OwnedObjects | CustomPropertyInfoList | DeviceUID | ModelUID
            | TransportType | ClockDomain | DeviceIsAlive | DeviceIsRunning | CanBeDefaultDevice
            | CanBeDefaultSystemDevice | Latency | Streams | ControlList | SafetyOffset
            | NominalSampleRate | AvailableNominalSampleRates | IsHidden
            | PreferredChannelsForStereo | BufferFrameSize | BufferFrameSizeRange
            | StreamConfiguration | ZeroTimeStampPeriod | DriverBuffer | BufferRestart
            | ActiveIOFrames | ActiveClient | FirmwareVersion => true
            | _ => false
            end
          else
            match sel with
            | IsActive | Direction | TerminalType | StartingChannel | Latency | VirtualFormat
            | PhysicalFormat | AvailableVirtualFormats | AvailablePhysicalFormats => true
            | _ => false
            end
      end
  end.

(** The result and the answer stored; [out] says whether a place to store it is given. *)
Definition is_settable (object : Z) (address : option property_address) (out : bool)
    : OSStatus * option bool :=
  if negb out then (IllegalOperationError, None)
  else match address with
  | Some a =>
      if negb (has_property object address) then (UnknownPropertyError, None)
      else (NoErr, Some ((object =? DEVICE_ID) &&
                         match a_selector a with
                         | DriverBuffer | BufferFrameSize => true
                         | _ => false
                         end))
  | None => (UnknownPropertyError, None)
  end.

Definition stream_count (a : property_address) : Z :=
  match a_scope a with InputScope | OutputScope => 1 | _ => 2 end.

Definition channels_for_scope (a : property_address) : Z :=
  match a_scope a with InputScope => 2 | _ => 4 end.

Definition format_for_stream (stream : Z) : stream_description :=
  if stream =? INPUT_STREAM_ID then input_stream_format else stream_format.

(** Of the variables only the presence of the device matters; no size is stored on error. *)
Definition property_size (present : bool) (object : Z) (address : option property_address)
    (out : bool) : OSStatus * option Z :=
  if negb out then (IllegalOperationError, None)
  else match address with
  | None => (UnknownPropertyError, None)
  | Some a =>
      if negb (has_property object address) then (UnknownPropertyError, None)
      else (NoErr, Some
        match a_selector a with
        | Name | Manufacturer | DeviceUID | ModelUID | ResourceBundle => sizeof_CFStringRef
        | CustomPropertyInfoList =>
            if object =? DEVICE_ID
            then Z.of_nat (length custom_property_info) * sizeof_CustomPropertyInfo else 0
        | DriverBuffer => sizeof_CFStringRef
        | BufferRestart | ActiveIOFrames | ActiveClient | FirmwareVersion => sizeof_CFStringRef
        | OwnedObjects =>
            if (object =? PLUGIN_ID) && negb present then 0
            else if object =? PLUGIN_ID then 4
            else if object =? DEVICE_ID then 2 * 4 else 0
        | DeviceList => if present then 4 else 0
        | RelatedDevices => 4
        | Streams => stream_count a * 4
        | ControlList => 0
        | NominalSampleRate => 8
        | AvailableNominalSampleRates | BufferFrameSizeRange => sizeof_AudioValueRange
        | PreferredChannelsForStereo => 2 * 4
        | StreamConfiguration => sizeof_one_buffer_list
        | VirtualFormat | PhysicalFormat => sizeof_AudioStreamBasicDescription
        | AvailableVirtualFormats | AvailablePhysicalFormats => sizeof_AudioStreamRangedDescription
        | _ => 4
        end)
  end.

Definition string_property (object : Z) (sel : selector) : list Z :=
  match sel with
  | Manufacturer => text "Numark / community driver"
  | DeviceUID => text "io.github.maurojuniorr.numark-ns6.device"
  | ModelUID => text "io.github.maurojuniorr.numark-ns6.original"
  | ResourceBundle => []
  | _ =>
      if object =? PLUGIN_ID then text "Numark NS6 Plug-In"
      else if object =? DEVICE_ID then text "Numark NS6"
      else if object =? INPUT_STREAM_ID then text "Numark NS6 Input"
      else text "Numark NS6 Output"
  end.

(** ** Reading a property *)

(** How often the two buffer properties were read. *)
Record read_logs := { buffer_size_read_log_count : Z; buffer_range_read_log_count : Z }.

(** The clock, the service's state and whether CoreFoundation could make the string. *)
Record get_answers := { g_now : Z; g_state : exchange; g_string : bool }.

(** The flow of the last two seconds. *)
Definition recent_flow (a : get_answers) (h : hal) : NS6ActiveFlowSnapshot :=
  let '(numer, denom) := timebase h in
  ns6_active_flow_snapshot (active_flow h) (g_now a) (u64 (2000000000 * denom) / numer).

Definition restart_text (state : Z) : list Z :=
  if state =? 1 then text "restarting"
  else if state =? 2 then text "restarted"
  else if state =? 3 then text "failed"
  else if state =? 4 then text "applied"
  else text "idle".

(** ["%d|%s"] of the client whose flow is recent. *)
Definition active_client_text (a : get_answers) (h : hal) : list Z :=
  let flow := recent_flow a h in
  let cs := tracked_clients (clients h) in
  let found := if negb (snap_frames flow =? 0) then find_client_locked (snap_client_id flow) cs
               else None in
  let '(pid, bundle) := match found with
                        | Some n => (tc_pid (rd cs n), tc_bundle_id (rd cs n))
                        | None => (0, [])
                        end in
  text (pretty pid) ++ text "|" ++ bundle.

(** The bytes of a C string in an array. *)
Fixpoint c_string (bytes : list Z) : list Z :=
  match bytes with
  | [] => []
  | b :: rest => if b =? 0 then [] else b :: c_string rest
  end.

Definition firmware_text (a : get_answers) (h : hal) : list Z :=
  let '(result, snapshot, _) :=
    ns6_device_client_get_state_result (device_client (conn h)) (g_state a) in
  match result, snapshot with
  | NS6_DEVICE_CLIENT_STATE_READY, Some v =>
      let firmware := c_string (firmware_version v) in
      if negb (SharedMemory.connected v =? 0) && negb (bool_decide (firmware = [])) then firmware
      else text "Unavailable"
  | _, _ => text "Unavailable"
  end.

(** A new string, stored even when it could not be made. *)
Definition made (a : get_answers) (s : list Z) : OSStatus * option property_data :=
  if g_string a then (NoErr, Some (CFString s)) else (UnspecifiedError, Some NullString).

(** The properties that are one 32-bit number. *)
Definition number_property (object : Z) (sel : selector) (h : hal) : Z :=
  match sel with
  | TransportType => kAudioDeviceTransportTypeUSB
  | DeviceIsAlive => if device_present h then 1 else 0
  | CanBeDefaultDevice | CanBeDefaultSystemDevice | IsActive => 1
  | DeviceIsRunning => if io_clients (clients h) =? 0 then 0 else 1
  | BufferFrameSize => buffer_frames (settings h)
  | ZeroTimeStampPeriod => 16384
  | Direction => if object =? INPUT_STREAM_ID then 1 else 0
  | TerminalType => kAudioStreamTerminalTypeLine
  | StartingChannel => 1
  | _ => 0
  end.

(** What is stored for a property the object has. *)
Definition property_value_of (a : get_answers) (object : Z) (ad : property_address) (h : hal)
    : OSStatus * option property_data :=
  let rate := SAMPLE_RATE in
  let store d := (NoErr, Some d) in
  match a_selector ad with
  | Name | Manufacturer | DeviceUID | ModelUID | ResourceBundle =>
      store (CFString (string_property object (a_selector ad)))
  | CustomPropertyInfoList =>
      if object =? DEVICE_ID then store (CustomPropertyInfos custom_property_info) else (NoErr, None)
  | DriverBuffer => made a (text (pretty (driver_buffer_frames (settings h))))
  | BufferRestart => made a (restart_text (buffer_restart_state (settings h)))
  | ActiveIOFrames => made a (text (pretty (snap_frames (recent_flow a h))))
  | FirmwareVersion => made a (firmware_text a h)
  | ActiveClient => made a (active_client_text a h)
  | BaseClass => store (UInt32s [kAudioObjectClassID])
  | ObjectClass => store (UInt32s [if object =? PLUGIN_ID then kAudioPlugInClassID
                                   else if object =? DEVICE_ID then kAudioDeviceClassID
                                   else kAudioStreamClassID])
  | Owner => store (UInt32s [if (object =? STREAM_ID) || (object =? INPUT_STREAM_ID) then DEVICE_ID
                             else kAudioObjectUnknown])
  | OwnedObjects =>
      if object =? PLUGIN_ID then store (UInt32s [DEVICE_ID])
      else if object =? DEVICE_ID then store (UInt32s [STREAM_ID; INPUT_STREAM_ID])
      else (NoErr, None)
  | DeviceList => if device_present h then store (UInt32s [DEVICE_ID]) else (NoErr, None)
  | RelatedDevices => store (UInt32s [DEVICE_ID])
  | Streams =>
      store (UInt32s (match a_scope ad with
                      | InputScope => [INPUT_STREAM_ID]
                      | OutputScope => [STREAM_ID]
                      | _ => [INPUT_STREAM_ID; STREAM_ID]
                      end))
  | NominalSampleRate => store (Float64 rate)
  | AvailableNominalSampleRates => store (ValueRange rate rate)
  | BufferFrameSizeRange => store (ValueRange (d_of_Z (rd supported_buffer_frames 0))
                                              (d_of_Z (rd supported_buffer_frames 5)))
  | PreferredChannelsForStereo => store (UInt32s [1; 2])
  | StreamConfiguration => store (OneBufferList (channels_for_scope ad))
  | VirtualFormat | PhysicalFormat => store (StreamDescription (format_for_stream object))
  | AvailableVirtualFormats | AvailablePhysicalFormats =>
      let f := format_for_stream object in
      store (RangedDescription f (mSampleRate f) (mSampleRate f))
  | sel => store (UInt32s [number_property object sel h])
  end.

Definition count_read (sel : selector) (l : read_logs) : read_logs :=
  match sel with
  | BufferFrameSize =>
      {| buffer_size_read_log_count := buffer_size_read_log_count l +₃₂ 1;
         buffer_range_read_log_count := buffer_range_read_log_count l |}
  | BufferFrameSizeRange =>
      {| buffer_size_read_log_count := buffer_size_read_log_count l;
         buffer_range_read_log_count := buffer_range_read_log_count l +₃₂ 1 |}
  | _ => l
  end.

(** The message a read sends to the service. *)
Definition read_actions (a : get_answers) (sel : selector) (h : hal) : list action :=
  match sel with
  | FirmwareVersion =>
      (ns6_device_client_get_state_result (device_client (conn h)) (g_state a)).2
  | _ => []
  end.

Record get_result := {
  status : OSStatus;
  output_size : option Z;
  stored : option property_data;
  logs : read_logs;
  messages : list action
}.

(** The result, the size reported, the value stored; [output] says whether a buffer is
    given.  No lock is held: [sized] is the presence of the device as [property_size] loads it, and
    [h] the variables as the value is made from them, which for the device list loads the presence
    again. *)
Definition get_property (a : get_answers) (object : Z) (address : option property_address)
    (input_size : Z) (output : bool) (sized : bool) (h : hal) (l : read_logs) : get_result :=
  match property_size sized object address true, address with
  | (NoErr, Some needed), Some ad =>
      if input_size <? needed then Build_get_result BadPropertySizeError None None l []
      else if needed =? 0 then Build_get_result NoErr (Some needed) None l []
      else if negb output then Build_get_result IllegalOperationError (Some needed) None l []
      else
        let '(status, d) := property_value_of a object ad h in
        Build_get_result status (Some needed) d (count_read (a_selector ad) l)
          (read_actions a (a_selector ad) h)
  | (status, _), _ => Build_get_result status None None l []
  end.

(** ** The tables agree *)

(** Every selector, object and outcome of the string. *)
Ltac every_case ad :=
  let sel := fresh "sel" in let sc := fresh "sc" in
  destruct ad as [sel sc ?]; destruct sel; cbn -[Z.mul Z.add text]; try reflexivity;
  repeat match goal with
  | |- context [g_string ?a] => destruct (g_string a); try reflexivity
  | |- context [if ?b then _ else _] => destruct b; try reflexivity
  | |- context [match sc with _ => _ end] => destruct sc; try reflexivity
  end.

Lemma property_size_cases present object ad :
  property_size present object (Some ad) true =
  if has_property object (Some ad)
  then (NoErr, (property_size present object (Some ad) true).2)
  else (UnknownPropertyError, None).
Proof. unfold property_size. cbn [negb]. by destruct (has_property object (Some ad)). Qed.

(** What is stored takes the bytes announced, a null pointer when making the string failed; the device
    list stores nothing when the device has gone since its size was taken. *)
Lemma value_size a object ad sized h needed :
  property_size sized object (Some ad) true = (NoErr, Some needed) → needed ≠ 0 →
  match property_value_of a object ad h with
  | (NoErr, Some v) => size_of v = needed
  | (NoErr, None) => a_selector ad = DeviceList ∧ sized = true ∧ device_present h = false
  | (status, d) => status = UnspecifiedError ∧ g_string a = false ∧ d = Some NullString ∧ size_of NullString = needed
  end.
Proof.
  unfold property_size. cbn [negb]. destruct (has_property object (Some ad)); [|done]. cbn [negb].
  intros [= <-]. unfold property_value_of, made.
  every_case ad; try done; by destruct (device_present h), sized.
Qed.

(** C28: reading a property honours its announced size, on every object and for every selector.
    A property the object does not have is unknown to both calls.  For one it has, a buffer
    that is too small is refused and nothing stored; otherwise the announced size is
    reported, and a value of exactly that size is stored, except that nothing is stored when the size is
    zero, when no buffer was given, and when the device list is read while the device goes away between
    the two loads of its presence (the call then still succeeds).  When CoreFoundation cannot make the
    string the call fails and stores a null pointer, of the announced size too. *)
Theorem property_reads_match_sizes a object address input_size output sized h l :
  let r := get_property a object address input_size output sized h l in
  if has_property object address then
    ∃ needed, property_size sized object address true = (NoErr, Some needed) ∧
      if input_size <? needed then
        status r = BadPropertySizeError ∧ output_size r = None ∧ stored r = None
      else
        output_size r = Some needed ∧
        (status r = NoErr →
           if needed =? 0 then stored r = None
           else (∃ v, stored r = Some v ∧ size_of v = needed) ∨
                (∃ sc main, address = Some (Build_property_address DeviceList sc main)) ∧
                sized = true ∧ device_present h = false ∧ stored r = None) ∧
        (status r ≠ NoErr →
           output = false ∧ stored r = None ∨
           output = true ∧ g_string a = false ∧ stored r = Some NullString ∧ size_of NullString = needed)
  else
    property_size sized object address true = (UnknownPropertyError, None) ∧
    r = Build_get_result UnknownPropertyError None None l [].
Proof.
  intros r. subst r. destruct address as [ad|]; [|done].
  pose proof (value_size a object ad sized h) as Hv. unfold get_property. rewrite property_size_cases.
  destruct (has_property object (Some ad)) eqn:Hh; [|done].
  assert (∃ n, property_size sized object (Some ad) true = (NoErr, Some n)) as [n Hn].
  { unfold property_size. cbn [negb]. rewrite Hh. by eexists. }
  specialize (Hv n Hn). rewrite Hn. cbn [snd]. exists n. split; [done|].
  destruct (input_size <? n); [done|]. destruct (Z.eqb_spec n 0) as [|Hz]; [done|].
  destruct output; cbn [negb]; [|by split; [|split; [|intros _; left]]].
  specialize (Hv Hz). destruct (property_value_of a object ad h) as [st d]. cbn.
  split; [done|]. destruct st; try (destruct Hv as (? & ? & ? & ?); split; [done|intros _; by right]).
  split; [intros _|done]. destruct d as [v|]; [left; by exists v|right]. destruct Hv as (Hs & -> & ->).
  destruct ad as [sel sc main]. cbn in Hs. subst sel. split; [by do 2 eexists|done].
Qed.

(** The device list of a device that goes away during the read: the call succeeds and announces one
    object, and the buffer keeps what it held. *)
Example device_list_stores_nothing a sc main h l :
  device_present h = false →
  let r := get_property a PLUGIN_ID (Some (Build_property_address DeviceList sc main)) 4 true true h l in
  status r = NoErr ∧ output_size r = Some 4 ∧ stored r = None.
Proof. intros Hp. cbn. by rewrite Hp. Qed.

(** A property is reported as settable exactly when [set_property] does not refuse it as
    unsupported, whatever is set. *)
Theorem settable_iff_accepted object ad a value h :
  has_property object (Some ad) = true →
  is_settable object (Some ad) true =
    (NoErr, Some (negb (bool_decide ((set_property a object (Some ad) value h).1.1 =
                                     UnsupportedOperationError)))).
Proof.
  intros Hh. unfold is_settable. cbn [negb]. rewrite Hh. do 2 f_equal.
  unfold set_property. destruct (object =? DEVICE_ID); cbn [negb andb]; [|done].
  destruct (a_selector ad); try done.
  - destruct (_ || _); [done|]. destruct value as [frames|v|]; try done.
    unfold set_frame_size. by destruct (ns6_buffer_frame_size_request_valid _ _ _).
  - destruct (_ || _); [done|]. destruct value as [frames|[v|]|]; try done.
    unfold set_driver_buffer. destruct (_ || _); [done|].
    destruct (buffer_restart_pending _); [done|]. destruct (_ || _); [done|].
    destruct (p_store a =? 0); [|done].
    by destruct (if service_ready (conn h) then _ else _) as [[] acts].
Qed.

(** ** What was set is read back *)

Definition device_property (sel : selector) (sc : scope) (main : bool) : option property_address :=
  Some {| a_selector := sel; a_scope := sc; a_main_element := main |}.

(** A buffer frame size the plug-in accepted lies in the range it announces and is read back
    in every scope and on every element. *)
Theorem frame_size_is_read_back a g sc sc' main main' value sized h h' acts l :
  set_property a DEVICE_ID (device_property BufferFrameSize sc main) (UInt32Value value) h
    = (NoErr, h', acts) →
  49 <= value <= 1024 ∧
  stored (get_property g DEVICE_ID (device_property BufferFrameSize sc' main') 4 true sized h' l)
    = Some (UInt32s [value]).
Proof.
  cbn [set_property device_property a_selector a_scope a_main_element]. rewrite Z.eqb_refl.
  cbn [negb]. destruct (_ || _); [done|]. unfold set_frame_size.
  destruct (ns6_buffer_frame_size_request_valid _ _ _) eqn:Hv; cbn [negb]; [|done].
  intros [= <- _]. split; [|done].
  unfold ns6_buffer_frame_size_request_valid in Hv.
  change (rd supported_buffer_frames 0) with 49 in Hv.
  change (rd supported_buffer_frames 5) with 1024 in Hv. lia.
Qed.

Lemma stored_string g sel sc main sized h l :
  0 < sizeof_CFStringRef → In sel [DriverBuffer; BufferRestart] →
  stored (get_property g DEVICE_ID (device_property sel sc main) sizeof_CFStringRef true sized h l) =
  (property_value_of g DEVICE_ID (Build_property_address sel sc main) h).2.
Proof.
  intros Hs [<-|[<-|[]]]; unfold get_property, property_size;
    cbn [negb device_property a_selector]; change (has_property _ _) with true; cbn [negb];
    rewrite Z.ltb_irrefl; destruct (Z.eqb_spec sizeof_CFStringRef 0); [lia| |lia|];
    by destruct (property_value_of _ _ _ _).
Qed.

(** A startup buffer the plug-in accepted is one of the supported sizes, its decimal text is
    read back, and the restart property says that it was applied. *)
Theorem startup_buffer_is_read_back a g sc main value sized h h' acts l :
  0 < sizeof_CFStringRef → g_string g = true →
  set_property a DEVICE_ID (device_property DriverBuffer GlobalScope true) (StringValue (Some value)) h
    = (NoErr, h', acts) →
  let read sel := stored (get_property g DEVICE_ID (device_property sel sc main)
                            sizeof_CFStringRef true sized h' l) in
  In value supported_buffer_frames ∧
  read DriverBuffer = Some (CFString (text (pretty value))) ∧
  read BufferRestart = Some (CFString (text "applied")).
Proof.
  intros Hs Hg. cbn [set_property device_property a_selector a_scope a_main_element].
  rewrite Z.eqb_refl. rewrite (bool_decide_eq_true_2 (GlobalScope = GlobalScope)) by done.
  cbn [negb orb]. unfold set_driver_buffer.
  destruct ((value <? 0) || negb (supported_buffer_size value)) eqn:Hv; [done|].
  destruct (buffer_restart_pending _); [done|].
  destruct (negb (host h) || negb (p_can_store a)); [done|].
  destruct (negb (p_store a =? 0)); [done|].
  destruct (if service_ready (conn h) then _ else _) as [[] acts2]; [|done].
  intros [= <- _]. split; [|split].
  - apply orb_false_elim in Hv as [_ Hv]. apply negb_false_iff in Hv.
    by apply existsb_exists in Hv as (x & Hin & ->%Z.eqb_eq).
  - rewrite stored_string by (cbn; auto). unfold property_value_of, made. cbn [a_selector]. by rewrite Hg.
  - rewrite stored_string by (cbn; auto). unfold property_value_of, made. cbn [a_selector]. by rewrite Hg.
Qed.
End properties.

(** ** Zero timestamps

    The driver is built for arm64, where [long double] is [double]. *)

Definition NS6_ZERO_TIMESTAMP_PERIOD : Z := 16384.

Record NS6ZeroTimestamp := { sample_time : Z; host_time : Z }.

Definition ns6_zero_timestamp_calculate (anchor_host_time current_host_time : Z)
    (timebase_numer timebase_denom : Z) (sample_rate : spec_float) : NS6ZeroTimestamp :=
  if (current_host_time <? anchor_host_time) || (timebase_numer =? 0) || (timebase_denom =? 0) ||
     SFleb sample_rate (S754_zero false)
  then {| sample_time := 0; host_time := anchor_host_time |}
  else
    let elapsed_ticks := d_of_Z (current_host_time - anchor_host_time) in
    let elapsed_ns := d_div (d_mul elapsed_ticks (d_of_Z timebase_numer)) (d_of_Z timebase_denom) in
    let frame := u64 (sf_trunc (d_div (d_mul elapsed_ns sample_rate) (d_of_Z 1000000000))) in
    let frame := frame - frame mod NS6_ZERO_TIMESTAMP_PERIOD in
    let host_delta :=
      d_div (d_mul (d_div (d_mul (d_of_Z frame) (d_of_Z 1000000000)) sample_rate)
                   (d_of_Z timebase_denom))
            (d_of_Z timebase_numer) in
    {| sample_time := frame; host_time := anchor_host_time +₆₄ u64 (sf_trunc host_delta) |}.

(** [pointers] says whether all three output pointers are given; [now] is the clock. *)
Definition zero_timestamp (object : Z) (pointers : bool) (now : Z) (h : hal)
    : OSStatus * option (NS6ZeroTimestamp * Z) :=
  if negb (object =? DEVICE_ID) || negb pointers then (IllegalOperationError, None)
  else (NoErr, Some (ns6_zero_timestamp_calculate (anchor_host_time h) now
                       (timebase h).1 (timebase h).2 SAMPLE_RATE, seed h)).

(** Every zero timestamp lies on the announced period and not before the anchor's frame. *)
Theorem zero_timestamps_on_period anchor now numer denom rate :
  let t := ns6_zero_timestamp_calculate anchor now numer denom rate in
  sample_time t mod NS6_ZERO_TIMESTAMP_PERIOD = 0 ∧ is_u64 (sample_time t).
Proof.
  cbv zeta. unfold ns6_zero_timestamp_calculate.
  destruct (_ || _ || _ || _); [done|]. cbn [sample_time].
  set (f := sf_trunc _). clearbody f. unfold NS6_ZERO_TIMESTAMP_PERIOD. width_lia.
Qed.

(** Two seconds after the anchor, at one tick per nanosecond and at the 24 MHz clock of the
    machine. *)
Example zero_timestamp_after_two_seconds :
  sample_time (ns6_zero_timestamp_calculate 1000000 2001000000 1 1 SAMPLE_RATE) = 81920 ∧
  sample_time (ns6_zero_timestamp_calculate 24000 48024000 125 3 SAMPLE_RATE) = 81920.
Proof. by vm_compute. Qed.

(** ** References and configuration changes *)

(** [value] says whether the caller passed this driver; the results are the counts returned. *)
Definition add_ref (value : bool) (references : Z) : Z * Z :=
  if value then (references +₃₂ 1, references +₃₂ 1) else (0, references).

Definition release_ref (value : bool) (references : Z) : Z * Z :=
  if value && negb (references =? 0) then (references -₃₂ 1, references -₃₂ 1) else (0, references).

(** [known] says whether the interface asked for is one of the two the plug-in has. *)
Definition query_interface (value out known : bool) (references : Z) : bool * Z :=
  if negb value || negb out then (false, references)
  else if known then (true, references +₃₂ 1) else (false, references).

Definition perform_change (object : Z) : OSStatus :=
  if object =? DEVICE_ID then NoErr else BadObjectError.

Definition abort_change (object : Z) : OSStatus :=
  if object =? DEVICE_ID then NoErr else BadObjectError.

Definition create_device : OSStatus := UnsupportedOperationError.
Definition destroy_device : OSStatus := UnsupportedOperationError.

(** A reference that was handed out is taken back by one release. *)
Lemma references_balance references :
  0 <= references < UINT32_MAX →
  release_ref true (query_interface true true true references).2 = (references, references).
Proof.
  intros H. unfold release_ref, query_interface. cbn [negb orb snd andb].
  assert (E : references +₃₂ 1 = references + 1) by width_lia. rewrite E.
  destruct (Z.eqb_spec (references + 1) 0); [lia|]. cbn [negb].
  assert (references + 1 -₃₂ 1 = references) as -> by width_lia. done.
Qed.
