(* ===== verification/ServiceLoop.v ===== *)
(** * The helper process (NS6MIDIBridge.c built as the device service)

    [main] publishes the shared memory, starts the USB driver and, once a second, looks
    whether the driver is ready; meanwhile the receiving thread answers clients
    (MachService.v) and the worker runs its sessions (UsbWorker.v).  This file puts the three
    together and proves what a round of maintenance achieves, that clients are told the
    readiness last seen, and that the process gives its memory back on every path.

    The shared block is one object; the service, the bound output ring and the bound capture
    variables each hold the part they use. *)

From stdpp Require Import base list numbers tactics.
From Stdlib Require Import ZArith Lia ZifyBool.
From S2P Require Import Prelude Float Pcm Transport TransportQueue ClockControl CaptureRing DeviceSession Registry.
From S2P Require Import SharedMemory MachService ServiceTheory MidiRecovery MidiReads MidiSession.
From S2P Require Import Policies Timing UsbOutput UsbTheory UsbCapture UsbFeedback UsbLifecycle UsbWorker.

Record helper := {
  shared_memory : option NS6SharedMemory;
  shared_memory_address : Z;
  shared_memory_allocation_size : Z;
  transport_reader : NS6TransportReader;
  next_usb_retry_ms : Z;
  usb_state_known : bool;
  last_reported_usb_ready : bool;
  device : usb;
  service : NS6DeviceService;
  (** blocks allocated and not given back *)
  blocks : Z
}.

Definition set_device (u : usb) (h : helper) : helper :=
  {| shared_memory := shared_memory h; shared_memory_address := shared_memory_address h;
     shared_memory_allocation_size := shared_memory_allocation_size h;
     transport_reader := transport_reader h; next_usb_retry_ms := next_usb_retry_ms h;
     usb_state_known := usb_state_known h; last_reported_usb_ready := last_reported_usb_ready h;
     device := u; service := service h; blocks := blocks h |}.

Definition set_service (s : NS6DeviceService) (h : helper) : helper :=
  {| shared_memory := shared_memory h; shared_memory_address := shared_memory_address h;
     shared_memory_allocation_size := shared_memory_allocation_size h;
     transport_reader := transport_reader h; next_usb_retry_ms := next_usb_retry_ms h;
     usb_state_known := usb_state_known h; last_reported_usb_ready := last_reported_usb_ready h;
     device := device h; service := s; blocks := blocks h |}.

Definition set_block (m : option NS6SharedMemory) (address size n : Z) (h : helper) : helper :=
  {| shared_memory := m; shared_memory_address := address; shared_memory_allocation_size := size;
     transport_reader := transport_reader h; next_usb_retry_ms := next_usb_retry_ms h;
     usb_state_known := usb_state_known h; last_reported_usb_ready := last_reported_usb_ready h;
     device := device h; service := service h; blocks := n |}.

Definition set_report (retry : Z) (known ready : bool) (h : helper) : helper :=
  {| shared_memory := shared_memory h; shared_memory_address := shared_memory_address h;
     shared_memory_allocation_size := shared_memory_allocation_size h;
     transport_reader := transport_reader h; next_usb_retry_ms := retry; usb_state_known := known;
     last_reported_usb_ready := ready; device := device h; service := service h;
     blocks := blocks h |}.

(** ** Binding the driver to the block *)

Definition bind_transport (s : option NS6TransportShared) (r : option NS6TransportReader) (u : usb)
    : usb :=
  let o := output (out u) in
  {| drv := drv u;
     out := UsbOutput.set_output (set_transport (ns6_transport_bind_shared (transport o) s r) o) (out u);
     fb := fb u; cap := cap u; fw := fw u |}.

Definition bind_capture (ring : option NS6CaptureRing) (req : option bool) (demand : option Z)
    (u : usb) : usb := set_cap (ns6_usb_bind_shared_capture ring req demand (cap u)) u.

Definition unbind (u : usb) : usb := bind_capture None None None (bind_transport None None u).

Section helper.
Context `{ABI : IOKitABI, BABI : BulkABI, UABI : USBABI, SABI : IsocABI, MABI : MachABI}.
Context (cfg : ClockConfig) (idle_keepalive keep_idle : bool) (usb_cfg : USBConfig).

(** What a start of the driver meets. *)
Record usb_answers := {
  u_created : bool;
  u_base : Z * Z;
  u_session : session_answers;
  u_callbacks : list callback
}.

Definition start_usb (a : usb_answers) (u : usb) : bool * usb :=
  usb_start cfg idle_keepalive usb_cfg (u_created a) (u_base a) (u_session a) (u_callbacks a) u.

(** ** The operations *)

Definition update_device_service_state (ready : bool) (h : helper) : helper :=
  let firmware := if ready then (ns6_usb_get_firmware_version (fw (device h))).2 else [] in
  let h := set_service (ns6_device_service_update_device_state (service h) ready ready (Some firmware)) h in
  if negb (usb_state_known h) || negb (eqb ready (last_reported_usb_ready h))
  then set_report (next_usb_retry_ms h) true ready h else h.

(** The address allocated, if any, the page size, the block as [memset] leaves it, whether
    its atomics are lock free. *)
Record start_environment := {
  e_allocate : option Z;
  e_page : Z;
  e_zeroed : NS6SharedMemory;
  e_lock_free : bool;
  e_publish : publish_environment;
  e_usb : usb_answers
}.

Definition drop_block (h : helper) : helper := set_block None 0 0 (blocks h - 1) h.

Definition start_device_service (e : start_environment) (h : helper) : bool * helper :=
  let size := Z.ldiff (u64 (sizeof_NS6SharedMemory + e_page e - 1)) (e_page e - 1) in
  match e_allocate e with
  | None => (false, set_block (shared_memory h) (shared_memory_address h) size (blocks h) h)
  | Some address =>
      let m := ns6_shared_memory_init (e_zeroed e) in
      let h := set_block (Some m) address size (blocks h + 1) h in
      if negb (e_lock_free e) then (false, drop_block h)
      else
        let h := set_device
          (bind_capture (Some (SharedMemory.capture m)) (Some (SharedMemory.capture_requested m))
             (Some (SharedMemory.capture_last_demand_ns m))
             (bind_transport (Some (SharedMemory.output m)) (Some (transport_reader h)) (device h))) h in
        let '(published, s, m') :=
          ns6_device_service_publish (e_publish e) (service h) (Some m) address in
        let h := set_block m' address size (blocks h) (set_service s h) in
        if negb published then (false, drop_block (set_device (unbind (device h)) h))
        else
          let '(ready, u) := start_usb (e_usb e) (device h) in
          let u := if (ready : bool)
                   then usb_set_paused (negb (ns6_device_service_audio_active (service h))) u else u in
          (true, update_device_service_state ready (set_report 0 false false (set_device u h)))
  end.

(** One round of maintenance; [now] is the clock. *)
Definition maintain_device_service (now : Z) (a : usb_answers) (h : helper) : helper :=
  if UsbWorker.usb_is_ready (device h) then
    let h := set_device (usb_set_paused (negb (ns6_device_service_audio_active (service h))) (device h)) h in
    if negb (usb_state_known h) || negb (last_reported_usb_ready h)
    then update_device_service_state true h else h
  else
    let h := if usb_state_known h && last_reported_usb_ready h
             then update_device_service_state false h else h in
    if now <? next_usb_retry_ms h then h
    else
      let h := set_report (now +₆₄ 2000) (usb_state_known h) (last_reported_usb_ready h) h in
      let '(ready, u) := start_usb a (device h) in
      let u := if (ready : bool) then usb_set_paused true u else u in
      update_device_service_state ready (set_device u h).

(** ** The other threads *)

(** The calls a handler makes into the driver. *)
Definition apply_call (a : usb_answers) (u : usb) (c : call) : usb :=
  match c with
  | UsbSetPaused paused => usb_set_paused paused u
  | UsbSetStartupBuffer frames => usb_set_startup_buffer_frames frames u
  | UsbRequestRestart =>
      (UsbWorker.usb_request_restart cfg idle_keepalive usb_cfg (u_created a) (u_base a)
         (u_session a) (u_callbacks a) u).2
  | ReplyHello _ _ | ReplyControl _ _ | ReplyState _ _ _ => u
  end.

(** One round of the receiving thread; [alive] tells which processes exist. *)
Definition on_receive (alive : Z → bool) (a : usb_answers) (r : received) (h : helper) : helper :=
  let env := {| MachService.usb_is_ready := UsbWorker.usb_is_ready (device h);
                MachService.usb_request_restart :=
                  (UsbWorker.usb_request_restart cfg idle_keepalive usb_cfg (u_created a) (u_base a)
                     (u_session a) (u_callbacks a) (device h)).1;
                process_exists := alive |} in
  let '(s, calls) := service_round env (service h) r in
  set_service s (set_device (foldl (apply_call a) (device h) calls) h).

Inductive helper_event :=
  | Received (alive : Z → bool) (a : usb_answers) (r : received)
  | Maintained (now : Z) (a : usb_answers)
  | WorkerStep (c : usb_event).

(** The worker's own steps; starting and stopping are the helper's. *)
Definition of_worker (e : usb_event) : bool :=
  match e with
  | BeginSession _ | Deliver _ | Poll _ _ _ _ | EndSession _ | NextSession _ _ => true
  | _ => false
  end.

Definition helper_step (h : helper) (e : helper_event) : helper :=
  match e with
  | Received alive a r => on_receive alive a r h
  | Maintained now a => maintain_device_service now a h
  | WorkerStep c => if of_worker c
                    then set_device (usb_step cfg idle_keepalive keep_idle usb_cfg (device h) c) h else h
  end.

(** [main]: the exit code and the state at the end; [events] happen until the signal, [cs]
    are the callbacks of the last cleanup. *)
Definition main (e : start_environment) (events : list helper_event) (cs : list callback) (h : helper)
    : Z * helper :=
  let '(started, h) := start_device_service e h in
  if negb started then (1, h)
  else
    let h := foldl helper_step h events in
    let h := update_device_service_state false
               (set_device (usb_stop cfg idle_keepalive usb_cfg cs (device h)) h) in
    let h := set_device (unbind (device h)) h in
    let h := set_service (ns6_device_service_stop (service h)) h in
    (0, if shared_memory_address h =? 0 then h
        else set_block (shared_memory h) (shared_memory_address h) (shared_memory_allocation_size h)
               (blocks h - 1) h).

(** ** What clients are told

    The snapshot the service answers with is the readiness last reported. *)
Definition reported (h : helper) : Prop :=
  usb_state_known h = true ∧
  connected (snapshot (service h)) = Z.b2z (last_reported_usb_ready h) ∧
  transport_ready (snapshot (service h)) = Z.b2z (last_reported_usb_ready h).

Lemma control_snapshot env s m : snapshot (handle_control env s m).1 = snapshot s.
Proof.
  unfold handle_control, update_audio_active_from_clients. destruct (negb _); [done|].
  destruct (_ || _); [done|]. destruct (_ =? _).
  { destruct (_ >? 1); [done|]. by destruct (ns6_device_client_registry_set_audio_active _ _ _). }
  destruct (_ =? _).
  { destruct (ns6_device_client_registry_detach _ _) as [[] c]; done. }
  destruct (_ =? _); [|done]. destruct (negb _); [done|]. by destruct (_ || _).
Qed.

Lemma reap_snapshot env s : snapshot (reap_dead_clients env s).1 = snapshot s.
Proof.
  unfold reap_dead_clients, update_audio_active_from_clients.
  destruct (for_loop _ _ _ _) as [c []]; done.
Qed.

(** No request changes what is reported. *)
Lemma round_snapshot env s r : snapshot (service_round env s r).1 = snapshot s.
Proof.
  destruct r as [result|m]; cbn [service_round].
  { destruct (_ =? _); [apply reap_snapshot|done]. }
  destruct (sender_is_authorized _ _) as [[] pid]; cbn [negb]; [|done].
  pose proof (reap_snapshot env s) as Hr. destruct (reap_dead_clients env s) as [s1 reaped].
  cbn [fst] in Hr. rewrite <-Hr.
  match goal with |- context [if ?b then handle_hello ?x ?y ?z else ?t] => set (p := if b then handle_hello x y z else t) end.
  assert (snapshot p.1 = snapshot s1) as Hp.
  { subst p. destruct (_ && _).
    { unfold handle_hello. destruct (_ || _ || _); [done|].
      destruct (ns6_device_client_registry_attach _ _ _) as [[] c]; done. }
    destruct (_ && _); [done|]. destruct (_ >=? _); [apply control_snapshot|done]. }
  destruct p as [s2 calls]. exact Hp.
Qed.

Lemma update_reported ready h :
  let h' := update_device_service_state ready h in
  reported h' ∧ last_reported_usb_ready h' = ready ∧ device h' = device h ∧
  next_usb_retry_ms h' = next_usb_retry_ms h ∧ audio_active (service h') = audio_active (service h) ∧
  blocks h' = blocks h ∧ shared_memory_address h' = shared_memory_address h.
Proof.
  cbv zeta. unfold update_device_service_state, reported. cbn.
  destruct (usb_state_known h) eqn:Hk; cbn [negb orb]; [|done].
  destruct (eqb ready (last_reported_usb_ready h)) eqn:He; cbn [negb]; [|done].
  apply eqb_prop in He. cbn. rewrite Hk, <-He. done.
Qed.

(** What the driver is bound to has no part in the agreement of its variables. *)
Lemma coherent_unbind u : coherent u → coherent (unbind u).
Proof. intros []. by split. Qed.

Lemma coherent_bind s r ring req demand u :
  coherent u → coherent (bind_capture ring req demand (bind_transport s r u)).
Proof. intros []. by split. Qed.

Lemma coherent_paused paused u : coherent u → coherent (usb_set_paused paused u).
Proof. apply coherent_set_gate. Qed.

Lemma coherent_calls a calls u :
  coherent u → coherent (foldl (apply_call a) u calls).
Proof.
  revert u. induction calls as [|c calls IH]; intros u Hc; [done|]. cbn [foldl]. apply IH.
  destruct c; cbn [apply_call]; try done.
  - by apply coherent_paused.
  - by apply coherent_set_gate.
  - by apply (usb_step_coherent cfg idle_keepalive keep_idle usb_cfg
      (Restart (u_created a) (u_base a) (u_session a) (u_callbacks a))).
Qed.

(** ** A round of maintenance *)

Definition paused (h : helper) : bool := output_paused (gate (UsbOutput.output (out (device h)))).

(** Pausing takes effect unless playing is asked for while the driver recovers. *)
Lemma set_paused_takes p u :
  (p = false → d_recovery_requested (drv u) = false) →
  output_paused (gate (UsbOutput.output (out (usb_set_paused p u)))) = p.
Proof.
  intros H. unfold usb_set_paused, set_gate_of, ns6_usb_set_paused. cbn.
  destruct p; cbn [negb andb]; [done|]. by rewrite H.
Qed.

(** What a round does, by the readiness of the driver and the clock. *)
Definition maintains (now : Z) (a : usb_answers) (h h' : helper) : Prop :=
  if UsbWorker.usb_is_ready (device h) then
    last_reported_usb_ready h' = true ∧ next_usb_retry_ms h' = next_usb_retry_ms h ∧
    ((audio_active (service h) = true → d_recovery_requested (drv (device h)) = false) →
     paused h' = negb (audio_active (service h)))
  else if now <? next_usb_retry_ms h then
    last_reported_usb_ready h' = false ∧ device h' = device h
  else
    next_usb_retry_ms h' = now +₆₄ 2000 ∧
    last_reported_usb_ready h' = (start_usb a (device h)).1 ∧
    ((start_usb a (device h)).1 = true → paused h' = true).

Lemma start_usb_coherent a u : coherent u → coherent (start_usb a u).2.
Proof. apply coherent_usb_start. Qed.

Lemma maintain_round now a h :
  reported h → let h' := maintain_device_service now a h in reported h' ∧ maintains now a h h'.
Proof.
  intros Hr. cbv zeta. unfold maintain_device_service, maintains.
  destruct (UsbWorker.usb_is_ready (device h)) eqn:Hu.
  - set (v := set_device _ h).
    assert (paused v = negb (audio_active (service h)) ∨
      ¬ (audio_active (service h) = true → d_recovery_requested (drv (device h)) = false)) as Hp.
    { destruct (audio_active (service h)) eqn:Ha, (d_recovery_requested (drv (device h))) eqn:Hd;
        try (right; intros H; by specialize (H eq_refl)); left; unfold v, paused, ns6_device_service_audio_active;
        cbn [set_device device]; rewrite Ha; apply set_paused_takes; done. }
    destruct Hr as (Hk & Hr). replace (usb_state_known v) with true by (by rewrite <-Hk). cbn [negb orb].
    destruct (last_reported_usb_ready v) eqn:El; cbn [negb].
    + split; [by split|]. split; [done|]. split; [done|]. intros H. by destruct Hp.
    + destruct (update_reported true v) as (H1 & H2 & H3 & H4 & _).
      split; [done|]. split; [done|]. split; [by rewrite H4|]. intros H. unfold paused. rewrite H3. by destruct Hp.
  - set (v := if usb_state_known h && _ then _ else _).
    assert (reported v ∧ last_reported_usb_ready v = false ∧ device v = device h ∧
      next_usb_retry_ms v = next_usb_retry_ms h) as (H1 & H2 & H3 & H4).
    { subst v. destruct Hr as (Hk & Hr). rewrite Hk. cbn [andb].
      destruct (last_reported_usb_ready h) eqn:El.
      - by destruct (update_reported false h) as (? & ? & ? & ? & _).
      - split; [split; [done|by rewrite El]|done]. }
    clearbody v. rewrite H4. destruct (now <? next_usb_retry_ms h); [done|]. cbn [set_report device].
    rewrite H3. destruct (start_usb a (device h)) as [ready u].
    match goal with |- context [update_device_service_state ready ?w] =>
      destruct (update_reported ready w) as (R1 & R2 & R3 & R4 & _) end.
    split; [done|]. split; [by rewrite R4|]. split; [done|]. intros Ht. cbn [fst] in Ht. subst ready.
    unfold paused. rewrite R3. apply set_paused_takes. done.
Qed.

(** ** Runs of the process *)

Lemma update_coherent ready h : coherent (device h) → coherent (device (update_device_service_state ready h)).
Proof. by destruct (update_reported ready h) as (_ & _ & -> & _). Qed.

Lemma maintain_coherent now a h :
  coherent (device h) → coherent (device (maintain_device_service now a h)).
Proof.
  intros Hc. unfold maintain_device_service. destruct (UsbWorker.usb_is_ready _).
  - set (v := set_device _ h). assert (coherent (device v)) by by apply coherent_paused.
    destruct (_ || _); [by apply update_coherent|done].
  - set (v := if _ && _ then _ else _). assert (coherent (device v)) as Hv.
    { subst v. destruct (_ && _); [by apply update_coherent|done]. }
    clearbody v. destruct (_ <? _); [done|]. cbn [set_report device].
    pose proof (start_usb_coherent a (device v) Hv) as Hs. destruct (start_usb a (device v)) as [[] u];
      apply update_coherent; [by apply coherent_paused|done].
Qed.

Lemma helper_step_ok e h :
  reported h → coherent (device h) → let h' := helper_step h e in reported h' ∧ coherent (device h').
Proof.
  intros Hr Hc. destruct e as [alive a r|now a|c]; cbn [helper_step].
  - unfold on_receive. match goal with |- context [service_round ?env ?s ?r] =>
      pose proof (round_snapshot env s r) as Hs; destruct (service_round env s r) as [s' calls] end.
    cbn [fst] in Hs. split; [|by apply coherent_calls].
    destruct Hr as (? & ? & ?). unfold reported. cbn. by rewrite Hs.
  - split; [by apply maintain_round|by apply maintain_coherent].
  - destruct (of_worker c); [|done]. split; [done|]. by apply usb_step_coherent.
Qed.

Lemma start_service_ok e h :
  coherent (device h) →
  let '(started, h1) := start_device_service e h in
  coherent (device h1) ∧ (started = true → reported h1).
Proof.
  intros Hc. unfold start_device_service. destruct (e_allocate e) as [address|]; [|done].
  destruct (negb (e_lock_free e)); [done|]. cbv zeta.
  destruct (ns6_device_service_publish _ _ _ _) as [[published s] m'].
  destruct (negb published).
  { split; [|done]. cbn. by apply coherent_unbind, coherent_bind. }
  match goal with |- context [start_usb ?a ?u] =>
    assert (coherent u) as Hb by (cbn; by apply coherent_bind);
    pose proof (start_usb_coherent a u Hb) as Hs; destruct (start_usb a u) as [ready v] end.
  cbn [snd] in Hs. split; [|intros _; apply update_reported].
  apply update_coherent. cbn. destruct ready; [by apply coherent_paused|done].
Qed.

(** C35: the helper keeps its clients informed and the output in step with them.  Once it has
    started, after any interleaving of client requests, worker steps and maintenance rounds, each
    taken as one step (no lock covers a round, so a request during it is outside the theorem), the readiness clients are told is the one last seen.  A round of maintenance that finds
    the driver ready reports it and pauses the output exactly when no client is active (except
    that it does not unpause a driver that is asked to recover); one that finds it not ready
    reports that and, not more often than every two seconds, tries to start it, paused. *)
Theorem helper_is_maintained e events h now a :
  coherent (device h) →
  let '(started, h1) := start_device_service e h in
  started = true →
  let h2 := foldl helper_step h1 events in
  let h3 := maintain_device_service now a h2 in
  reported h2 ∧ reported h3 ∧ maintains now a h2 h3.
Proof.
  intros Hc. pose proof (start_service_ok e h Hc) as Hs.
  destruct (start_device_service e h) as [started h1]. destruct Hs as [Hc1 Hr1]. intros Ht. cbv zeta.
  assert (reported (foldl helper_step h1 events) ∧ coherent (device (foldl helper_step h1 events)))
    as [Hr2 _].
  { specialize (Hr1 Ht). clear Ht. revert h1 Hc1 Hr1.
    induction events as [|x events IH]; intros h1 Hc1 Hr1; [done|]. cbn [foldl].
    destruct (helper_step_ok x h1 Hr1 Hc1). by apply IH. }
  split; [done|]. by apply maintain_round.
Qed.

(** ** Leaving *)

(** The block and its address. *)
Definition block_of (h : helper) : Z * Z := (blocks h, shared_memory_address h).

Lemma update_block ready h : block_of (update_device_service_state ready h) = block_of h.
Proof. unfold block_of. by destruct (update_reported ready h) as (_ & _ & _ & _ & _ & -> & ->). Qed.

Lemma maintain_block now a h : block_of (maintain_device_service now a h) = block_of h.
Proof.
  unfold maintain_device_service. destruct (UsbWorker.usb_is_ready _).
  - destruct (_ || _); [by rewrite update_block|done].
  - set (v := if _ && _ then _ else _). assert (block_of v = block_of h) as Hv.
    { subst v. destruct (_ && _); [by rewrite update_block|done]. }
    clearbody v. destruct (_ <? _); [done|]. destruct (start_usb a _) as [ready u].
    by rewrite update_block.
Qed.

Lemma helper_step_block e h : block_of (helper_step h e) = block_of h.
Proof.
  destruct e as [alive a r|now a|c]; cbn [helper_step].
  - unfold on_receive. by destruct (service_round _ _ _).
  - apply maintain_block.
  - by destruct (of_worker c).
Qed.

Lemma steps_block events h : block_of (foldl helper_step h events) = block_of h.
Proof.
  revert h. induction events as [|e events IH]; intros h; [done|]. cbn [foldl].
  by rewrite IH, helper_step_block.
Qed.

Lemma start_service_block e h :
  let '(started, h1) := start_device_service e h in
  if (started : bool) then blocks h1 = blocks h + 1 ∧ e_allocate e = Some (shared_memory_address h1)
  else blocks h1 = blocks h.
Proof.
  unfold start_device_service. destruct (e_allocate e) as [address|]; [|done].
  destruct (negb (e_lock_free e)); [cbn; lia|]. cbv zeta.
  destruct (ns6_device_service_publish _ _ _ _) as [[published s] m'].
  destruct (negb published); [cbn; lia|]. destruct (start_usb _ _) as [ready v].
  match goal with |- context [update_device_service_state ready ?w] =>
    destruct (update_reported ready w) as (_ & _ & _ & _ & _ & -> & ->) end. done.
Qed.

(** The process gives its block of memory back, whether it could start or not; when it ran, it
    ends with the worker joined, the driver on its own ring and variables, and the service
    closed. *)
Theorem main_gives_back e events cs h :
  (∀ address, e_allocate e = Some address → address ≠ 0) →
  let '(code, h') := main e events cs h in
  blocks h' = blocks h ∧
  (code = 0 → thread_created (drv (device h')) = false ∧ MachService.running (service h') = false ∧
     bound_pair (transport (UsbOutput.output (out (device h')))) = None ∧ shared (cap (device h')) = None).
Proof.
  intros Ha. unfold main. pose proof (start_service_block e h) as Hb.
  destruct (start_device_service e h) as [[] h1]; cbn [negb]; [|done]. destruct Hb as [Hb He].
  pose proof (steps_block events h1) as Hs. set (h2 := foldl helper_step h1 events) in *. clearbody h2.
  set (h3 := update_device_service_state false _).
  assert (block_of h3 = block_of h1) as H3 by (unfold h3; by rewrite update_block, <-Hs).
  assert (thread_created (drv (device h3)) = false) as Ht.
  { unfold h3. match goal with |- context [update_device_service_state false ?w] =>
      destruct (update_reported false w) as (_ & _ & -> & _) end.
    cbn. unfold usb_stop. by destruct (thread_created (drv (device h2))) eqn:E. }
  clearbody h3. cbv zeta. cbn [set_service set_device shared_memory_address].
  injection H3 as E1 E2. rewrite E2, (proj2 (Z.eqb_neq _ _) (Ha _ He)).
  assert (MachService.running (ns6_device_service_stop (service h3)) = false) as Hr.
  { unfold ns6_device_service_stop. by destruct (MachService.running (service h3)) eqn:E. }
  split; [cbn; lia|]. intros _. split; [exact Ht|]. split; [exact Hr|done].
Qed.
End helper.

(** A process that starts with the device attached, and a round of maintenance after it. *)
Definition example_session : session_answers :=
  {| s_setup := example_setup 0; s_slot := λ _, ([], []); s_feedback := λ _, ([], []);
     s_firmware := (0, [0x31; 1; 23; 0; 0; 0; 0; 0], 8);
     s_submit := λ _, Build_submit_answers 1 1 (λ _, 0) (λ _, 0) 2 2 3 3 0 4 4;
     s_feedback_read := λ _, (0, 0); s_midi := true;
     s_drain := λ _, {| first_read := 0; clear_stall := 0; second_read := 0 |} |}.

Definition example_usb_answers : usb_answers :=
  {| u_created := true; u_base := (1, 1); u_session := example_session; u_callbacks := [] |}.

Definition example_start : start_environment :=
  {| e_allocate := Some 65536; e_page := 16384;
     e_zeroed := {| protocol_version := 0; struct_size := 0; SharedMemory.output := zero_ring;
                    SharedMemory.capture := empty_ring;
                    SharedMemory.session := ns6_device_session_init;
                    SharedMemory.capture_requested := false;
                    SharedMemory.capture_last_demand_ns := 0 |};
     e_lock_free := true;
     e_publish := {| coreaudiod_account := Some 202; vm_page_size := 16384;
                     make_memory_entry := (0, 409600, 7); check_in := (0, 8);
                     mach_absolute_time := 1; in_flight_loads := λ _, 0; pthread_create := 0 |};
     e_usb := example_usb_answers |}.

Definition new_helper : helper :=
  {| shared_memory := None; shared_memory_address := 0; shared_memory_allocation_size := 0;
     transport_reader := {| read_fraction := S754_zero false |}; next_usb_retry_ms := 0;
     usb_state_known := false; last_reported_usb_ready := false;
     device := @usb_stop example_iokit example_bulk default_config false default_usb [] (leaving_usb false);
     service := {| memory := None; receive_port := 0; memory_entry := 0; mapping_base := 0;
                   mapping_size := 0; memory_offset := 0; stopping := false;
                   owner := ns6_device_owner_init; clients := replicate 8 free_lease;
                   MachService.running := false; MachService.audio_active := false;
                   MachService.startup_buffer_frames := 256; session_id := 0; coreaudiod_uid := 0;
                   snapshot := zero_snapshot |};
     blocks := 0 |}.

Lemma helper_is_maintained_witness :
  let '(started, h1) := @start_device_service example_iokit example_bulk example_usb example_isoc
      darwin_abi default_config false default_usb example_start new_helper in
  started = true ∧
  let h2 := @maintain_device_service example_iokit example_bulk example_usb example_isoc
      default_config false default_usb 5000 example_usb_answers h1 in
  connected (snapshot (service h2)) = 1 ∧ paused h2 = true.
Proof.
  assert (coherent (device new_helper)) as Hc.
  { apply (@usb_step_coherent example_iokit example_bulk example_usb example_isoc default_config false
      false default_usb (Stop [])). apply leaving_usb_coherent. }
  pose proof (@helper_is_maintained example_iokit example_bulk example_usb example_isoc darwin_abi
    default_config false false default_usb example_start [] new_helper 5000 example_usb_answers Hc) as H.
  assert ((@start_device_service example_iokit example_bulk example_usb example_isoc
    darwin_abi default_config false default_usb example_start new_helper).1 = true) as Hs
    by (vm_compute; reflexivity).
  assert (UsbWorker.usb_is_ready (device (@start_device_service example_iokit example_bulk example_usb
    example_isoc darwin_abi default_config false default_usb example_start new_helper).2) = true) as Hu
    by (vm_compute; reflexivity).
  assert (MachService.audio_active (service (@start_device_service example_iokit example_bulk example_usb
    example_isoc darwin_abi default_config false default_usb example_start new_helper).2) = false) as Ha
    by (vm_compute; reflexivity).
  destruct (start_device_service _ _ _ _ _) as [started h1]. cbn [fst snd] in *. split; [exact Hs|].
  destruct (H Hs) as (_ & (_ & Hr & _) & Hm). cbn [foldl] in Hm, Hr. unfold maintains in Hm.
  rewrite Hu in Hm. destruct Hm as (Hl & _ & Hp). cbv zeta. split.
  - rewrite Hr, Hl. reflexivity.
  - rewrite Hp by (intros E; rewrite Ha in E; discriminate E). by rewrite Ha.
Defined.
