(* ===== verification/OutRing.v ===== *)
(** * The ring between CoreAudio and the USB workers (numark-ns6/audio-out/AudioOutputRing.cpp)

    One producer appends frames, one consumer takes them, at the nominal rate or
    resampled.  The two indices run modulo 2^32 and are reduced modulo the capacity
    to find a slot.  An operation loads the index of the other side once; the
    definitions take that value as an argument [seen], so that the same code serves
    the call (which sees the current index) and the interleavings of the two threads
    below (where the index may have moved since). *)

From stdpp Require Import base list numbers tactics.
From Stdlib Require Import ZArith Znumtheory Lia ZifyBool.
From S2P Require Import Prelude Float Rounding.

(** ** State *)

Record AudioOutputRing := {
  capacityFrames_ : Z;
  channels_ : Z;
  samples_ : list spec_float;
  writeFrame_ : Z;
  readFrame_ : Z;
  readFraction_ : spec_float
}.

#[export] Instance eta_ring : Eta AudioOutputRing := λ g,
  Build_AudioOutputRing (capacityFrames_ g) (channels_ g) (samples_ g) (writeFrame_ g)
    (readFrame_ g) (readFraction_ g).

#[export] Instance spec_float_inhabited : Inhabited spec_float := populate (S754_zero false).

Definition SIZE_MAX : Z := UINT64_MAX.

(** The constructor; [None] is the exception. *)
Definition AudioOutputRing_new (capacityFrames channels : Z) : option AudioOutputRing :=
  if (capacityFrames =? 0) || (capacityFrames >? UINT32_MAX / 2) || (channels =? 0)
     || (channels >? SIZE_MAX / capacityFrames)
  then None
  else Some {| capacityFrames_ := capacityFrames; channels_ := channels;
               samples_ := replicate (Z.to_nat (capacityFrames * channels)) (S754_zero false);
               writeFrame_ := 0; readFrame_ := 0; readFraction_ := S754_zero false |}.

(** ** Writing *)

(** The two copies of [write]: up to the end of the buffer, then from its start. *)
Definition copy_in (g : AudioOutputRing) (interleaved : list spec_float) (count : Z)
    : list spec_float :=
  let offset := writeFrame_ g mod capacityFrames_ g in
  let firstFrames := Z.min count (capacityFrames_ g -₃₂ offset) in
  let firstSamples := firstFrames * channels_ g in
  let s := memcpy (samples_ g) (offset * channels_ g) (slice interleaved 0 firstSamples) in
  let remainingFrames := count -₃₂ firstFrames in
  if negb (remainingFrames =? 0)
  then memcpy s 0 (slice interleaved firstSamples (remainingFrames * channels_ g))
  else s.

(** How many frames fit, given the read index that was loaded. *)
Definition write_count (g : AudioOutputRing) (seen frames : Z) : Z :=
  let used := writeFrame_ g -₃₂ seen in
  Z.min frames (capacityFrames_ g -₃₂ used).

Definition publish_write (g : AudioOutputRing) (count : Z) : AudioOutputRing :=
  g <| writeFrame_ := writeFrame_ g +₃₂ count |>.

Definition AudioOutputRing_write (interleaved : option (list spec_float)) (frames : Z)
    (g : AudioOutputRing) : Z * AudioOutputRing :=
  match interleaved with
  | None => (0, g)
  | Some data =>
      if frames =? 0 then (0, g)
      else let count := write_count g (readFrame_ g) frames in
           (count, publish_write (g <| samples_ := copy_in g data count |>) count)
  end.

(** ** Reading at the nominal rate *)

Definition copy_out (g : AudioOutputRing) (interleaved : list spec_float) (count : Z)
    : list spec_float :=
  let offset := readFrame_ g mod capacityFrames_ g in
  let firstFrames := Z.min count (capacityFrames_ g -₃₂ offset) in
  let firstSamples := firstFrames * channels_ g in
  let out := memcpy interleaved 0 (slice (samples_ g) (offset * channels_ g) firstSamples) in
  let remainingFrames := count -₃₂ firstFrames in
  if negb (remainingFrames =? 0)
  then memcpy out firstSamples (slice (samples_ g) 0 (remainingFrames * channels_ g))
  else out.

Definition read_count (g : AudioOutputRing) (seen frames : Z) : Z :=
  Z.min frames (seen -₃₂ readFrame_ g).

Definition publish_read (g : AudioOutputRing) (count : Z) : AudioOutputRing :=
  g <| readFrame_ := readFrame_ g +₃₂ count |>.

(** Results: the frames read, the output buffer, the ring. *)
Definition AudioOutputRing_read (interleaved : option (list spec_float)) (frames : Z)
    (g : AudioOutputRing) : Z * option (list spec_float) * AudioOutputRing :=
  match interleaved with
  | None => (0, None, g)
  | Some out =>
      if frames =? 0 then (0, Some out, g)
      else let count := read_count g (writeFrame_ g) frames in
           (count, Some (copy_out g out count), publish_read g count)
  end.

Definition AudioOutputRing_availableFrames (g : AudioOutputRing) : Z :=
  Z.min (writeFrame_ g -₃₂ readFrame_ g) (capacityFrames_ g).

(** ** Reading at another rate *)

(** [static_cast<float>] of a [double]. *)
Definition f32_of_d (x : spec_float) : spec_float :=
  match x with
  | S754_finite s m e => binary_round 24 128 s m e
  | _ => x
  end.

Definition f32_add : spec_float → spec_float → spec_float := SFadd 24 128.
Definition f32_sub : spec_float → spec_float → spec_float := SFsub 24 128.

(** Rates outside [0.5, 1.5] are taken as one. *)
Definition valid_step (sourceStep : spec_float) : spec_float :=
  if negb (sf_isfinite sourceStep) || d_lt sourceStep (d_lit 1 2) || d_lt (d_lit 3 2) sourceStep
  then d_of_Z 1 else sourceStep.

Definition interpolate (first second fraction : spec_float) : spec_float :=
  f32_add first (f32_mul (f32_of_d fraction) (f32_sub second first)).

(** The inner loop over the channels of one output frame. *)
Definition blend_frame (g : AudioOutputRing) (firstSlot secondSlot produced : Z)
    (fraction : spec_float) (out : list spec_float) : list spec_float :=
  for_loop (Z.to_nat (channels_ g)) 0
    (λ channel out,
       let first := rd (samples_ g) (firstSlot * channels_ g + channel) in
       let second := rd (samples_ g) (secondSlot * channels_ g + channel) in
       wr out (produced * channels_ g + channel) (interpolate first second fraction))
    out.

(** The loop over output frames, [frames - produced] turns at most. *)
Fixpoint resample_loop (g : AudioOutputRing) (available : Z) (sourceStep : spec_float) (n : nat)
    (produced : Z) (phase : spec_float) (out : list spec_float)
    : Z * spec_float * list spec_float :=
  match n with
  | O => (produced, phase, out)
  | S n' =>
      let firstOffset := sf_trunc phase in
      let fraction := d_sub phase (d_of_Z firstOffset) in
      if firstOffset >=? available then (produced, phase, out)
      else
        let secondOffset := firstOffset +
          (if d_lt (S754_zero false) fraction && (firstOffset + 1 <? available) then 1 else 0) in
        let firstSlot := (readFrame_ g +₃₂ firstOffset) mod capacityFrames_ g in
        let secondSlot := (readFrame_ g +₃₂ secondOffset) mod capacityFrames_ g in
        resample_loop g available sourceStep n' (produced + 1) (d_add phase sourceStep)
          (blend_frame g firstSlot secondSlot produced fraction out)
  end.

(** [std::floor] of a phase; phases are not negative. *)
Definition d_floor (x : spec_float) : spec_float := d_of_Z (sf_trunc x).

(** The phase a read or a skip ends with is split into frames consumed and fraction. *)
Definition consume (g : AudioOutputRing) (available : Z) (phase : spec_float) : AudioOutputRing :=
  let consumed := Z.min (sf_trunc phase) available in
  g <| readFraction_ := d_sub phase (d_floor phase) |> <| readFrame_ := readFrame_ g +₃₂ consumed |>.

Definition AudioOutputRing_readResampled (interleaved : option (list spec_float)) (frames : Z)
    (sourceStep : spec_float) (g : AudioOutputRing)
    : Z * option (list spec_float) * AudioOutputRing :=
  match interleaved with
  | None =>
      if negb (frames =? 0) then (0, None, g)
      else (0, None, consume g (AudioOutputRing_availableFrames g) (readFraction_ g))
  | Some out =>
      let available := AudioOutputRing_availableFrames g in
      let '(produced, phase, out') :=
        resample_loop g available (valid_step sourceStep) (Z.to_nat frames) 0 (readFraction_ g) out in
      (produced, Some out', consume g available phase)
  end.

Definition AudioOutputRing_advanceResampled (frames : Z) (sourceStep : spec_float)
    (g : AudioOutputRing) : AudioOutputRing :=
  let phase := d_add (readFraction_ g) (d_mul (d_of_Z frames) (valid_step sourceStep)) in
  consume g (AudioOutputRing_availableFrames g) phase.
