(* ===== verification/OutRingTheory.v ===== *)
(** * The audio ring is a lock-free FIFO

    The producer and the consumer interleave at their loads, copies and stores.  In
    every interleaving the frames taken are the frames accepted, in order, as long as
    the capacity divides 2^32; otherwise a wrap of the indices repeats frames. *)

From stdpp Require Import base list numbers tactics.
From Stdlib Require Import ZArith Znumtheory Lia ZifyBool.
From S2P Require Import Prelude Float Rounding OutRing.

(** ** Frames *)

Notation frame := (list spec_float) (only parsing).

(** The frame in a slot, and the first [n] frames of an interleaved buffer. *)
Definition frame_in (g : AudioOutputRing) (slot : Z) : frame :=
  slice (samples_ g) (slot * channels_ g) (channels_ g).

Definition frames_of (channels n : Z) (data : list spec_float) : list frame :=
  map (λ i, slice data (i * channels) channels) (seqZ 0 n).

Lemma length_frames ch n data : length (frames_of ch n data) = Z.to_nat n.
Proof. unfold frames_of. by rewrite length_map, length_seqZ. Qed.

Lemma lookup_frames ch n data i :
  0 <= i < n → frames_of ch n data !! Z.to_nat i = Some (slice data (i * ch) ch).
Proof.
  intros Hi. unfold frames_of. rewrite list_lookup_fmap, lookup_seqZ_lt by lia. cbn. do 3 f_equal; lia.
Qed.

(** The dimensions of a ring whose capacity divides the range of the indices. *)
Record ring_ok (g : AudioOutputRing) : Prop := {
  ok_capacity : 0 < capacityFrames_ g <= 2 ^ 30;
  ok_divides : (capacityFrames_ g | 4294967296);
  ok_channels : 0 < channels_ g;
  ok_samples : Z.of_nat (length (samples_ g)) = capacityFrames_ g * channels_ g
}.

Lemma slot_u32 g p : ring_ok g → u32 p mod capacityFrames_ g = p mod capacityFrames_ g.
Proof.
  intros [[? _] Hd _ _]. unfold u32. symmetry. apply Zmod_div_mod; [lia|lia|done].
Qed.

(** A slot index from a position close to the start of the copy. *)
Lemma slot_after g p j :
  ring_ok g → 0 <= j <= capacityFrames_ g →
  (p + j) mod capacityFrames_ g =
    (if p mod capacityFrames_ g + j <? capacityFrames_ g then p mod capacityFrames_ g + j
     else p mod capacityFrames_ g + j - capacityFrames_ g).
Proof.
  intros [[Hc _] _ _ _] Hj. pose proof (Z.mod_pos_bound p (capacityFrames_ g) Hc) as Hp.
  rewrite <- Z.add_mod_idemp_l by lia. set (o := p mod capacityFrames_ g) in *.
  destruct (Z.ltb_spec (o + j) (capacityFrames_ g)); [by rewrite Z.mod_small by lia|].
  replace (o + j) with (o + j - capacityFrames_ g + 1 * capacityFrames_ g) at 1 by lia.
  rewrite Z.mod_add by lia. apply Z.mod_small. lia.
Qed.

Lemma u32_diff a b : 0 <= a - b < 4294967296 → u32 (u32 a - u32 b) = a - b.
Proof.
  intros H. unfold u32. rewrite <- Zminus_mod. by apply Z.mod_small.
Qed.

Lemma u32_sum a b : u32 (u32 a + b) = u32 (a + b).
Proof. unfold u32. by rewrite Zplus_mod_idemp_l. Qed.

(** ** The copies *)

Section copies.
Context (g : AudioOutputRing).
Hypothesis ok : ring_ok g.

Local Notation cap := (capacityFrames_ g).
Local Notation ch := (channels_ g).

Lemma frame_bounds slot : 0 <= slot < cap → 0 <= slot * ch ∧ slot * ch + ch <= cap * ch.
Proof. destruct ok. nia. Qed.

(** Copying in fills the slots of the new positions and leaves the older ones alone. *)
Lemma copy_in_frames W count data :
  writeFrame_ g = u32 W → 0 <= count <= cap → count * ch <= Z.of_nat (length data) →
  let g' := g <| samples_ := copy_in g data count |> in
  ring_ok g' ∧
  (∀ j, 0 <= j < count → frame_in g' ((W + j) mod cap) = slice data (j * ch) ch) ∧
  (∀ p, W + count - cap <= p < W → frame_in g' (p mod cap) = frame_in g (p mod cap)).
Proof.
  intros HW Hc Hlen. destruct ok as [Hcap Hdiv Hch Hs]. cbv zeta.
  set (o := W mod cap). pose proof (Z.mod_pos_bound W cap ltac:(lia)) as Ho. fold o in Ho.
  set (k := Z.min count (cap - o)).
  assert (copy_in g data count =
    if negb (count - k =? 0)
    then memcpy (memcpy (samples_ g) (o * ch) (slice data 0 (k * ch))) 0 (slice data (k * ch) ((count - k) * ch))
    else memcpy (samples_ g) (o * ch) (slice data 0 (k * ch))) as E.
  { unfold copy_in. rewrite HW, slot_u32 by done. fold o.
    rewrite (u32_id (cap - o)) by (unfold is_u32; lia). fold k.
    by rewrite (u32_id (count - k)) by (unfold is_u32; lia). }
  assert (Z.of_nat (length (slice data 0 (k * ch))) = k * ch) as L1.
  { rewrite length_slice by nia. lia. }
  assert (Z.of_nat (length (slice data (k * ch) ((count - k) * ch))) = (count - k) * ch) as L2.
  { rewrite length_slice by nia. nia. }
  rewrite E. clear E.
  assert (∀ a b, a <= b → a * ch <= b * ch) as mono by (intros; apply Z.mul_le_mono_nonneg_r; lia).
  pose proof (mono 0 o ltac:(lia)). pose proof (mono 0 k ltac:(lia)). pose proof (mono k count ltac:(lia)).
  pose proof (mono (o + k) cap ltac:(lia)).
  split; [|split].
  - split; cbn; try done. case_if; by rewrite ?length_memcpy.
  - intros j Hj. rewrite slot_after by (done || lia). fold o. unfold frame_in. cbn.
    pose proof (mono 0 j ltac:(lia)).
    destruct (Z.ltb_spec (o + j) cap).
    + pose proof (mono (j + 1) k ltac:(lia)).
      assert (slice (memcpy (samples_ g) (o * ch) (slice data 0 (k * ch))) ((o + j) * ch) ch =
              slice data (j * ch) ch) as E1.
      { replace ((o + j) * ch) with (o * ch + j * ch) by lia.
        rewrite slice_memcpy_in, slice_slice by lia. f_equal. }
      case_if; [|exact E1]. pose proof (mono (count - k) o ltac:(lia)).
      rewrite slice_memcpy_ne; [exact E1|lia..].
    + pose proof (mono (j + 1) count ltac:(lia)). pose proof (mono k j ltac:(lia)).
      replace (negb (count - k =? 0)) with true by lia.
      replace ((o + j - cap) * ch) with (0 + (j - k) * ch) by (replace k with (cap - o) by lia; lia).
      pose proof (mono (count - k) cap ltac:(lia)).
      rewrite slice_memcpy_in, slice_slice by (rewrite ?length_memcpy; lia). f_equal. lia.
  - intros p Hp. unfold frame_in. cbn. set (s := p mod cap).
    pose proof (Z.mod_pos_bound p cap ltac:(lia)) as Hsb. fold s in Hsb.
    assert (s = (if o + (p - W) <? 0 then o + (p - W) + cap else o + (p - W))) as Es.
    { subst s o. replace p with (W + (p - W + cap) + (-1) * cap) at 1 by lia.
      rewrite Z.mod_add by lia. rewrite (slot_after g W (p - W + cap)) by (done || lia).
      destruct (Z.ltb_spec (W mod cap + (p - W + cap)) cap), (Z.ltb_spec (W mod cap + (p - W)) 0); lia. }
    pose proof (mono 0 s ltac:(lia)).
    assert (s + 1 <= o ∨ o + k <= s) as Hout by (destruct (Z.ltb_spec (o + (p - W)) 0); lia).
    assert (slice (memcpy (samples_ g) (o * ch) (slice data 0 (k * ch))) (s * ch) ch =
            slice (samples_ g) (s * ch) ch) as E1.
    { apply slice_memcpy_ne; try lia. rewrite L1.
      destruct Hout as [Hout|Hout]; apply mono in Hout; lia. }
    case_if; [|exact E1]. rewrite slice_memcpy_ne; [exact E1|lia..|]. rewrite L2.
    assert (count - k <= s) as Hs2 by (destruct (Z.ltb_spec (o + (p - W)) 0); lia).
    apply mono in Hs2. lia.
Qed.

(** Copying out fills the front of the buffer with the frames in order. *)
Lemma copy_out_frames R count out :
  readFrame_ g = u32 R → 0 <= count <= cap → count * ch <= Z.of_nat (length out) →
  let out' := copy_out g out count in
  length out' = length out ∧
  (∀ j, 0 <= j < count → slice out' (j * ch) ch = frame_in g ((R + j) mod cap)) ∧
  (∀ off n, count * ch <= off → 0 <= n → slice out' off n = slice out off n).
Proof.
  intros HR Hc Hlen. destruct ok as [Hcap Hdiv Hch Hs]. cbv zeta.
  set (o := R mod cap). pose proof (Z.mod_pos_bound R cap ltac:(lia)) as Ho. fold o in Ho.
  set (k := Z.min count (cap - o)).
  assert (copy_out g out count =
    if negb (count - k =? 0)
    then memcpy (memcpy out 0 (slice (samples_ g) (o * ch) (k * ch))) (k * ch)
           (slice (samples_ g) 0 ((count - k) * ch))
    else memcpy out 0 (slice (samples_ g) (o * ch) (k * ch))) as E.
  { unfold copy_out. rewrite HR, slot_u32 by done. fold o.
    rewrite (u32_id (cap - o)) by (unfold is_u32; lia). fold k.
    by rewrite (u32_id (count - k)) by (unfold is_u32; lia). }
  rewrite E. clear E.
  assert (∀ a b, a <= b → a * ch <= b * ch) as mono by (intros; apply Z.mul_le_mono_nonneg_r; lia).
  pose proof (mono 0 o ltac:(lia)). pose proof (mono 0 k ltac:(lia)). pose proof (mono k count ltac:(lia)).
  pose proof (mono (o + k) cap ltac:(lia)). pose proof (mono (count - k) cap ltac:(lia)).
  assert (Z.of_nat (length (slice (samples_ g) (o * ch) (k * ch))) = k * ch) as L1.
  { rewrite length_slice by lia. lia. }
  assert (Z.of_nat (length (slice (samples_ g) 0 ((count - k) * ch))) = (count - k) * ch) as L2.
  { rewrite length_slice by lia. lia. }
  split; [|split].
  - case_if; by rewrite ?length_memcpy.
  - intros j Hj. rewrite slot_after by (done || lia). fold o. unfold frame_in.
    pose proof (mono 0 j ltac:(lia)).
    destruct (Z.ltb_spec (o + j) cap).
    + pose proof (mono (j + 1) k ltac:(lia)).
      assert (slice (memcpy out 0 (slice (samples_ g) (o * ch) (k * ch))) (j * ch) ch =
              slice (samples_ g) ((o + j) * ch) ch) as E1.
      { replace (j * ch) with (0 + j * ch) at 1 by lia.
        rewrite slice_memcpy_in, slice_slice by lia. f_equal. lia. }
      case_if; [|exact E1]. rewrite slice_memcpy_ne; [exact E1|lia..].
    + pose proof (mono (j + 1) count ltac:(lia)). pose proof (mono k j ltac:(lia)).
      replace (negb (count - k =? 0)) with true by lia.
      replace (j * ch) with (k * ch + (j - k) * ch) by lia.
      rewrite slice_memcpy_in, slice_slice by (rewrite ?length_memcpy; lia). f_equal.
      replace k with (cap - o) by lia. lia.
  - intros off n Hoff Hn. case_if.
    + rewrite slice_memcpy_ne, slice_memcpy_ne by lia. done.
    + rewrite slice_memcpy_ne by lia. done.
Qed.
End copies.

(** ** The two threads *)

Inductive producer :=
  | PIdle
  | PLoaded (seen : Z)
  | PCopied (fs : list frame).

Inductive consumer :=
  | CIdle
  | CLoaded (seen : Z)
  | CCopied (fs : list frame).

(** [accepted] and [taken] are the frames whose write and read are complete. *)
Record threads := {
  ring : AudioOutputRing;
  producing : producer;
  consuming : consumer;
  accepted : list frame;
  taken : list frame
}.

#[export] Instance eta_threads : Eta threads := λ t,
  Build_threads (ring t) (producing t) (consuming t) (accepted t) (taken t).

(** [write] is the steps load, copy and publish of the producer, [read] those of the consumer;
    the arguments are chosen by the callers. *)
Inductive ring_step : threads → threads → Prop :=
  | write_load t :
      producing t = PIdle →
      ring_step t (t <| producing := PLoaded (readFrame_ (ring t)) |>)
  | write_copy t seen data frames :
      producing t = PLoaded seen → 0 < frames →
      frames * channels_ (ring t) <= Z.of_nat (length data) →
      let count := write_count (ring t) seen frames in
      ring_step t (t <| ring ::= λ g, g <| samples_ := copy_in g data count |> |>
                     <| producing := PCopied (frames_of (channels_ (ring t)) count data) |>)
  | write_publish t fs :
      producing t = PCopied fs →
      ring_step t (t <| ring ::= λ g, publish_write g (Z.of_nat (length fs)) |>
                     <| producing := PIdle |> <| accepted ::= λ l, l ++ fs |>)
  | read_load t :
      consuming t = CIdle →
      ring_step t (t <| consuming := CLoaded (writeFrame_ (ring t)) |>)
  | read_copy t seen out frames :
      consuming t = CLoaded seen → 0 < frames →
      frames * channels_ (ring t) <= Z.of_nat (length out) →
      let count := read_count (ring t) seen frames in
      ring_step t (t <| consuming := CCopied (frames_of (channels_ (ring t)) count
                                               (copy_out (ring t) out count)) |>)
  | read_publish t fs :
      consuming t = CCopied fs →
      ring_step t (t <| ring ::= λ g, publish_read g (Z.of_nat (length fs)) |>
                     <| consuming := CIdle |> <| taken ::= λ l, l ++ fs |>).

(** ** The invariant

    [R] and [W] count frames without wrap-around. *)

Record fifo (t : threads) : Prop := {
  f_ok : ring_ok (ring t);
  f_read : readFrame_ (ring t) = u32 (Z.of_nat (length (taken t)));
  f_write : writeFrame_ (ring t) = u32 (Z.of_nat (length (accepted t)));
  f_prefix : taken t = take (length (taken t)) (accepted t);
  f_room : Z.of_nat (length (accepted t)) - Z.of_nat (length (taken t)) <= capacityFrames_ (ring t);
  f_frames : ∀ p : nat, (length (taken t) <= p < length (accepted t))%nat →
    accepted t !! p = Some (frame_in (ring t) (Z.of_nat p mod capacityFrames_ (ring t)));
  f_producing : match producing t with
    | PIdle => True
    | PLoaded seen => ∃ r, seen = u32 r ∧ r <= Z.of_nat (length (taken t)) ∧
        Z.of_nat (length (accepted t)) - r <= capacityFrames_ (ring t)
    | PCopied fs =>
        Z.of_nat (length (accepted t)) + Z.of_nat (length fs) - Z.of_nat (length (taken t))
          <= capacityFrames_ (ring t) ∧
        ∀ j : nat, (j < length fs)%nat →
          fs !! j = Some (frame_in (ring t)
            (Z.of_nat (length (accepted t) + j) mod capacityFrames_ (ring t)))
    end;
  f_consuming : match consuming t with
    | CIdle => True
    | CLoaded seen => ∃ w, seen = u32 w ∧
        Z.of_nat (length (taken t)) <= w <= Z.of_nat (length (accepted t))
    | CCopied fs => (length (taken t) + length fs <= length (accepted t))%nat ∧
        fs = take (length fs) (drop (length (taken t)) (accepted t))
    end
}.

Lemma prefix_le t : fifo t → (length (taken t) <= length (accepted t))%nat.
Proof. intros H. rewrite (f_prefix _ H), length_take. lia. Qed.

Lemma fifo_write_copy t seen data frames :
  fifo t → producing t = PLoaded seen → 0 < frames →
  frames * channels_ (ring t) <= Z.of_nat (length data) →
  let count := write_count (ring t) seen frames in
  fifo (t <| ring ::= λ g, g <| samples_ := copy_in g data count |> |>
          <| producing := PCopied (frames_of (channels_ (ring t)) count data) |>).
Proof.
  intros H Hp Hn Hlen count. pose proof (prefix_le t H) as Hle.
  destruct H as [Hok Hr Hw Hpre Hroom Hfr Hprod Hcons]. rewrite Hp in Hprod.
  destruct Hprod as (r & -> & Hr1 & Hr2). pose proof (ok_capacity _ Hok) as Hcap.
  assert (count = Z.min frames (capacityFrames_ (ring t) - (Z.of_nat (length (accepted t)) - r))) as Ec.
  { unfold count, write_count. rewrite Hw, u32_diff by lia. f_equal. apply u32_id. unfold is_u32. lia. }
  assert (count * channels_ (ring t) <= Z.of_nat (length data)) as Hlen'.
  { pose proof (ok_channels _ Hok). nia. }
  destruct (copy_in_frames (ring t) Hok _ count data Hw ltac:(lia) Hlen') as (Hok' & Hnew & Hold).
  cbn in Hok', Hnew, Hold.
  split; cbn; try done.
  - intros p Hlp. rewrite Hfr by done. f_equal. symmetry. apply Hold. lia.
  - rewrite length_frames. split; [lia|]. intros j Hj.
    replace j with (Z.to_nat (Z.of_nat j)) at 1 by lia. rewrite lookup_frames by lia.
    f_equal. rewrite <- Hnew by lia. f_equal. f_equal. lia.
Qed.

Lemma fifo_write_publish t fs :
  fifo t → producing t = PCopied fs →
  fifo (t <| ring ::= λ g, publish_write g (Z.of_nat (length fs)) |>
          <| producing := PIdle |> <| accepted ::= λ l, l ++ fs |>).
Proof.
  intros H Hp. pose proof (prefix_le t H) as Hle.
  destruct H as [Hok Hr Hw Hpre Hroom Hfr Hprod Hcons]. rewrite Hp in Hprod. destruct Hprod as [Hb Hfs].
  split; cbn; rewrite ?length_app; try done.
  - by destruct Hok.
  - rewrite Hw, u32_sum. f_equal. lia.
  - rewrite take_app_le by lia. exact Hpre.
  - lia.
  - intros p Hlp. destruct (decide (p < length (accepted t))%nat) as [Hlt|Hge].
    + rewrite lookup_app_l by done. apply (Hfr p). lia.
    + rewrite lookup_app_r, Hfs by lia. do 3 f_equal. lia.
  - destruct (consuming t) as [|seen|ds]; [done| |].
    + destruct Hcons as (w & -> & ?). exists w. split; [done|lia].
    + destruct Hcons as [? Eds]. split; [lia|]. rewrite Eds at 1.
      rewrite drop_app_le, take_app_le by (rewrite ?length_drop; lia). done.
Qed.

Lemma fifo_read_copy t seen out frames :
  fifo t → consuming t = CLoaded seen → 0 < frames →
  frames * channels_ (ring t) <= Z.of_nat (length out) →
  let count := read_count (ring t) seen frames in
  fifo (t <| consuming := CCopied (frames_of (channels_ (ring t)) count
                                    (copy_out (ring t) out count)) |>).
Proof.
  intros H Hc Hn Hlen count. pose proof (prefix_le t H) as Hle. pose proof H as H'.
  destruct H as [Hok Hr Hw Hpre Hroom Hfr Hprod Hcons]. rewrite Hc in Hcons.
  destruct Hcons as (w & -> & Hw1 & Hw2). pose proof (ok_capacity _ Hok) as Hcap.
  assert (count = Z.min frames (w - Z.of_nat (length (taken t)))) as Ec.
  { unfold count, read_count. by rewrite Hr, u32_diff by lia. }
  assert (count * channels_ (ring t) <= Z.of_nat (length out)) as Hlen'.
  { pose proof (ok_channels _ Hok). nia. }
  destruct (copy_out_frames (ring t) Hok _ count out Hr ltac:(lia) Hlen') as (_ & Hcopy & _).
  split; cbn; try apply H'. rewrite length_frames. split; [lia|].
  apply list_eq. intros j. destruct (decide (j < Z.to_nat count)%nat) as [Hj|Hj].
  - rewrite lookup_take_lt, lookup_drop by lia. rewrite Hfr by lia.
    replace j with (Z.to_nat (Z.of_nat j)) at 1 by lia.
    rewrite lookup_frames, Hcopy by lia. do 3 f_equal. lia.
  - rewrite lookup_take_ge by lia. apply lookup_ge_None. rewrite length_frames. lia.
Qed.

Lemma fifo_read_publish t fs :
  fifo t → consuming t = CCopied fs →
  fifo (t <| ring ::= λ g, publish_read g (Z.of_nat (length fs)) |>
          <| consuming := CIdle |> <| taken ::= λ l, l ++ fs |>).
Proof.
  intros H Hc. destruct H as [Hok Hr Hw Hpre Hroom Hfr Hprod Hcons].
  rewrite Hc in Hcons. destruct Hcons as [Hle Efs].
  split; cbn; rewrite ?length_app; try done.
  - by destruct Hok.
  - rewrite Hr, u32_sum. f_equal. lia.
  - rewrite Efs at 1. rewrite Hpre at 1. rewrite take_take_drop. done.
  - lia.
  - intros p Hlp. apply Hfr. lia.
  - destruct (producing t) as [|seen|ds]; [done| |].
    + destruct Hprod as (r & -> & ? & ?). exists r. split; [done|lia].
    + destruct Hprod as [? Hds]. split; [lia|done].
Qed.

Lemma fifo_step t t' : fifo t → ring_step t t' → fifo t'.
Proof.
  intros H Hs. pose proof (prefix_le t H) as Hle. destruct Hs.
  - destruct H as [Hok Hr Hw Hpre Hroom Hfr Hprod Hcons]. split; cbn; try done.
    eexists. split; [exact Hr|]. lia.
  - by apply fifo_write_copy.
  - by apply fifo_write_publish.
  - destruct H as [Hok Hr Hw Hpre Hroom Hfr Hprod Hcons]. split; cbn; try done.
    eexists. split; [exact Hw|]. lia.
  - by apply fifo_read_copy.
  - by apply fifo_read_publish.
Qed.

Definition fresh (g : AudioOutputRing) : threads :=
  {| ring := g; producing := PIdle; consuming := CIdle; accepted := []; taken := [] |}.

Lemma new_ok cap ch g :
  AudioOutputRing_new cap ch = Some g → (cap | 4294967296) → 0 <= cap → 0 <= ch →
  ring_ok g ∧ capacityFrames_ g = cap ∧ channels_ g = ch ∧ readFrame_ g = 0 ∧ writeFrame_ g = 0 ∧
  readFraction_ g = S754_zero false.
Proof.
  unfold AudioOutputRing_new. intros Hn Hd Hc Hch. case_match eqn:E; [done|]. simplify_eq.
  change (UINT32_MAX / 2) with 2147483647 in E.
  split; [|done]. split; cbn; [|done|lia|rewrite length_replicate; nia].
  split; [lia|]. destruct Hd as [k Hk].
  destruct (Z.le_gt_cases k 2) as [|Hk3]; [assert (k = 0 ∨ k = 1 ∨ k = 2 ∨ k < 0) as Hcase by lia; nia|].
  destruct (Z.eq_dec k 3) as [->|]; [|nia].
  assert (4294967296 mod 3 = 0) as Hm by (rewrite Hk, Z.mul_comm; apply Z.mod_mul; lia). done.
Qed.

Lemma fifo_fresh g : ring_ok g → readFrame_ g = 0 → writeFrame_ g = 0 → fifo (fresh g).
Proof.
  intros Hok Hr Hw. pose proof (ok_capacity _ Hok). split; cbn; try done; try lia.
Qed.

(** ** Calls are runs of their thread *)

Lemma write_is_run t data frames :
  fifo t → producing t = PIdle → 0 < frames →
  frames * channels_ (ring t) <= Z.of_nat (length data) →
  let '(count, g') := AudioOutputRing_write (Some data) frames (ring t) in
  count = Z.min frames (capacityFrames_ (ring t) -
            (Z.of_nat (length (accepted t)) - Z.of_nat (length (taken t)))) ∧
  steps ring_step t (t <| ring := g' |>
                       <| accepted ::= λ l, l ++ frames_of (channels_ (ring t)) count data |>).
Proof.
  intros H Hp Hn Hlen. pose proof (prefix_le t H) as Hle. unfold AudioOutputRing_write.
  replace (frames =? 0) with false by lia.
  pose proof (ok_capacity _ (f_ok _ H)). pose proof (f_room _ H).
  assert (write_count (ring t) (readFrame_ (ring t)) frames =
    Z.min frames (capacityFrames_ (ring t) -
      (Z.of_nat (length (accepted t)) - Z.of_nat (length (taken t))))) as Ec.
  { unfold write_count. rewrite (f_write _ H), (f_read _ H), u32_diff by lia. f_equal.
    apply u32_id. unfold is_u32. lia. }
  split; [exact Ec|].
  eapply steps_cons; [by apply write_load|]. eapply steps_cons.
  { by apply (write_copy _ (readFrame_ (ring t)) data frames). }
  eapply steps_cons; [by apply write_publish|]. cbn.
  rewrite length_frames, Z2Nat.id by lia. destruct t as [g p c a k]. cbn in *. subst p. apply steps_refl.
Qed.

Lemma read_is_run t out frames :
  fifo t → consuming t = CIdle → 0 < frames →
  frames * channels_ (ring t) <= Z.of_nat (length out) →
  let '(count, out', g') := AudioOutputRing_read (Some out) frames (ring t) in
  count = Z.min frames (Z.of_nat (length (accepted t)) - Z.of_nat (length (taken t))) ∧
  steps ring_step t (t <| ring := g' |>
    <| taken ::= λ l, l ++ frames_of (channels_ (ring t)) count (default [] out') |>).
Proof.
  intros H Hc Hn Hlen. pose proof (prefix_le t H) as Hle. unfold AudioOutputRing_read.
  replace (frames =? 0) with false by lia.
  pose proof (ok_capacity _ (f_ok _ H)). pose proof (f_room _ H).
  assert (read_count (ring t) (writeFrame_ (ring t)) frames =
    Z.min frames (Z.of_nat (length (accepted t)) - Z.of_nat (length (taken t)))) as Ec.
  { unfold read_count. by rewrite (f_write _ H), (f_read _ H), u32_diff by lia. }
  split; [exact Ec|].
  eapply steps_cons; [by apply read_load|]. eapply steps_cons.
  { by apply (read_copy _ (writeFrame_ (ring t)) out frames). }
  eapply steps_cons; [by apply read_publish|]. cbn.
  rewrite length_frames, Z2Nat.id by lia. destruct t as [g p c a k]. cbn in *. subst c. apply steps_refl.
Qed.

Lemma available_queued t :
  fifo t →
  AudioOutputRing_availableFrames (ring t) =
    Z.of_nat (length (accepted t)) - Z.of_nat (length (taken t)).
Proof.
  intros H. pose proof (prefix_le t H). pose proof (ok_capacity _ (f_ok _ H)). pose proof (f_room _ H).
  unfold AudioOutputRing_availableFrames. rewrite (f_write _ H), (f_read _ H), u32_diff by lia. lia.
Qed.

Lemma dimensions_step t t' :
  ring_step t t' → capacityFrames_ (ring t') = capacityFrames_ (ring t) ∧
                   channels_ (ring t') = channels_ (ring t).
Proof. by destruct 1. Qed.

Lemma dimensions_steps t t' :
  steps ring_step t t' → capacityFrames_ (ring t') = capacityFrames_ (ring t) ∧
                         channels_ (ring t') = channels_ (ring t).
Proof.
  induction 1 as [|? ? ? Hs _ IH]; [done|]. apply dimensions_step in Hs. intuition congruence.
Qed.

(** C3: the audio ring of a capacity that divides 2^32 is a FIFO between one producer and one
    consumer.  In every interleaving of their loads, copies and stores, also after the indices wrapped,
    the frames taken are a prefix of the frames accepted, at most the capacity is queued, and
    [availableFrames] is the number queued.  A call of [write] accepts as many frames as there is room
    for, a call of [read] takes as many as are queued, and both are runs of these steps. *)
Theorem ring_is_fifo cap ch g t :
  AudioOutputRing_new cap ch = Some g → (cap | 4294967296) → 0 <= cap → 0 <= ch →
  steps ring_step (fresh g) t →
  let queued := Z.of_nat (length (accepted t)) - Z.of_nat (length (taken t)) in
  taken t = take (length (taken t)) (accepted t) ∧ 0 <= queued <= cap ∧
  AudioOutputRing_availableFrames (ring t) = queued ∧
  (∀ data frames, producing t = PIdle → 0 < frames → frames * ch <= Z.of_nat (length data) →
    let '(count, g') := AudioOutputRing_write (Some data) frames (ring t) in
    count = Z.min frames (cap - queued) ∧
    steps ring_step t (t <| ring := g' |> <| accepted ::= λ l, l ++ frames_of ch count data |>)) ∧
  (∀ out frames, consuming t = CIdle → 0 < frames → frames * ch <= Z.of_nat (length out) →
    let '(count, out', g') := AudioOutputRing_read (Some out) frames (ring t) in
    count = Z.min frames queued ∧
    steps ring_step t (t <| ring := g' |>
                         <| taken ::= λ l, l ++ frames_of ch count (default [] out') |>)).
Proof.
  intros Hnew Hd Hc Hch Hst. destruct (new_ok cap ch g Hnew Hd Hc Hch) as (Hok & E1 & E2 & Hr & Hw & _).
  assert (fifo t) as H.
  { eapply (steps_invariant ring_step fifo); [by apply fifo_step| |done]. by apply fifo_fresh. }
  destruct (dimensions_steps _ _ Hst) as [E3 E4]. cbn in E3, E4. rewrite E1 in E3. rewrite E2 in E4.
  pose proof (prefix_le t H). pose proof (f_room _ H). cbv zeta. rewrite <- E3, <- E4.
  split; [apply (f_prefix _ H)|]. split; [lia|]. split; [by apply available_queued|].
  split; intros; [by apply write_is_run|by apply read_is_run].
Qed.

(** A capacity that does not divide 2^32 is accepted by the constructor, but when the indices wrap a
    frame is read twice and another is lost: three frames written just before the wrap. *)
Definition wrapping_ring : AudioOutputRing :=
  {| capacityFrames_ := 3; channels_ := 1; samples_ := replicate 3 (S754_zero false);
     writeFrame_ := 4294967294; readFrame_ := 4294967294; readFraction_ := S754_zero false |}.

Lemma ring_is_fifo_witness :
  let a := [S754_zero false; f32_of_Z 1] in let b := [f32_of_Z 2; f32_of_Z 3] in
  ∃ g t, AudioOutputRing_new 2 2 = Some g ∧ steps ring_step (fresh g) t ∧ accepted t = [a; b] ∧
    AudioOutputRing_availableFrames (ring t) = 2.
Proof.
  intros a b. set (g := default wrapping_ring (AudioOutputRing_new 2 2)).
  assert (2 | 4294967296) as Hd by by exists 2147483648.
  assert (AudioOutputRing_new 2 2 = Some g) as En by done.
  destruct (ring_is_fifo 2 2 g (fresh g) En Hd ltac:(lia) ltac:(lia) ltac:(constructor)) as (_ & _ & _ & Hw & _).
  specialize (Hw (a ++ b ++ a) 3 eq_refl ltac:(lia) ltac:(by vm_compute)).
  destruct (AudioOutputRing_write (Some (a ++ b ++ a)) 3 (ring (fresh g))) as [count g'] eqn:Ew.
  destruct Hw as [Hc Hrun]. change (Z.min 3 _) with 2 in Hc. subst count.
  eexists g, _. split; [done|]. split; [exact Hrun|]. split; [by vm_compute|].
  by destruct (ring_is_fifo 2 2 g _ En Hd ltac:(lia) ltac:(lia) Hrun) as (_ & _ & -> & _).
Defined.

Definition read_one (g : AudioOutputRing) : option (list spec_float) * AudioOutputRing :=
  let '(_, out, g') := AudioOutputRing_read (Some [S754_zero false]) 1 g in (out, g').

Theorem odd_capacity_repeats_frames :
  AudioOutputRing_new 3 1 ≠ None ∧
  let a := f32_of_Z 1 in let b := f32_of_Z 2 in let c := f32_of_Z 3 in
  let '(count, g0) := AudioOutputRing_write (Some [a; b; c]) 3 wrapping_ring in
  let '(x, g1) := read_one g0 in let '(y, g2) := read_one g1 in let '(z, _) := read_one g2 in
  count = 3 ∧ x = Some [a] ∧ y = Some [b] ∧ z = Some [b].
Proof. vm_compute. split; [done|done]. Qed.
