(* ===== verification/OutRingResample.v ===== *)
(** * Resampled reading of the audio ring

    The specification resamples a queue of frames linearly; reading the ring at any
    rate is that, and the ring keeps the frames after the integer part of the phase. *)

From stdpp Require Import base list numbers tactics.
From Stdlib Require Import ZArith Znumtheory Lia ZifyBool.
From S2P Require Import Prelude Float Rounding Transport TransportResample OutRing OutRingTheory.

(** ** The specification *)

Definition blend (a b : frame) (fraction : spec_float) : frame :=
  zip_with (λ x y, interpolate x y fraction) a b.

(** Past the last frame the interpolation holds it; a phase past the end stops. *)
Fixpoint resample_queue (q : list frame) (step : spec_float) (n : nat) (phase : spec_float)
    : list frame * spec_float :=
  match n with
  | O => ([], phase)
  | S n' =>
      let whole := sf_trunc phase in
      let fraction := d_sub phase (d_of_Z whole) in
      match q !! Z.to_nat whole with
      | None => ([], phase)
      | Some a =>
          let b := if d_lt (S754_zero false) fraction then default a (q !! Z.to_nat (whole + 1)) else a in
          let r := resample_queue q step n' (d_add phase step) in
          (blend a b fraction :: r.1, r.2)
      end
  end.

(** The ring holds the queue. *)
Record ring_rel (g : AudioOutputRing) (q : list frame) : Prop := {
  r_ok : ring_ok g;
  r_read : is_u32 (readFrame_ g);
  r_write : is_u32 (writeFrame_ g);
  r_length : u32 (writeFrame_ g - readFrame_ g) = Z.of_nat (length q);
  r_fits : Z.of_nat (length q) <= capacityFrames_ g;
  r_frames : ∀ i, 0 <= i < Z.of_nat (length q) →
    q !! Z.to_nat i = Some (frame_in g (u32 (readFrame_ g + i) mod capacityFrames_ g));
  r_fraction : below 0 (readFraction_ g)
}.

(** The interleavings of OutRingTheory.v reach only such rings. *)
Lemma fifo_ring_rel t :
  fifo t → below 0 (readFraction_ (ring t)) →
  ring_rel (ring t) (drop (length (taken t)) (accepted t)).
Proof.
  intros H Hb. pose proof (prefix_le t H). pose proof (f_room _ H).
  pose proof (ok_capacity _ (f_ok _ H)). split; rewrite ?length_drop; try done.
  - apply (f_ok _ H).
  - rewrite (f_read _ H). apply u32_range.
  - rewrite (f_write _ H). apply u32_range.
  - rewrite (f_write _ H), (f_read _ H), u32_diff by lia. lia.
  - lia.
  - intros i Hi. rewrite lookup_drop, (f_frames _ H) by lia.
    rewrite (slot_u32 _ _ (f_ok _ H)), (f_read _ H). f_equal. f_equal.
    rewrite <- Z.add_mod_idemp_l, (slot_u32 _ _ (f_ok _ H)), Z.add_mod_idemp_l by lia.
    f_equal. lia.
Qed.

(** ** One output frame *)

(** Writing neighbours one by one is a copy. *)
Lemma for_loop_wr {A} `{Inhabited A} (n : nat) (base : Z) (f : Z → A) (out : list A) :
  0 <= base →
  for_loop n 0 (λ i o, wr o (base + i) (f i)) out = memcpy out base (map f (seqZ 0 (Z.of_nat n))).
Proof.
  intros Hb. induction n as [|n IH]; [done|]. rewrite for_loop_snoc, IH.
  rewrite seqZ_S. rewrite map_app. cbn [map]. unfold wr, memcpy.
  set (l := map f (seqZ 0 (Z.of_nat n))).
  assert (length l = n) as Hl by (subst l; rewrite length_map, length_seqZ; lia).
  apply list_eq. intros i. rewrite Z.add_0_l.
  destruct (decide (length out <= i)%nat) as [Ho|Ho].
  { rewrite !lookup_ge_None_2 by (rewrite ?length_insert, ?length_inserts; lia). done. }
  destruct (decide (i = Z.to_nat (base + Z.of_nat n))) as [->|Hi].
  - rewrite list_lookup_insert_eq by (rewrite length_inserts; lia).
    rewrite list_lookup_inserts by (rewrite ?length_app; cbn; lia).
    rewrite lookup_app_r by lia. replace (_ - _ - _)%nat with 0%nat by lia. done.
  - rewrite list_lookup_insert_ne by lia.
    destruct (decide (i < Z.to_nat base)%nat); [by rewrite !list_lookup_inserts_lt by lia|].
    destruct (decide (i < Z.to_nat base + n)%nat).
    + rewrite !list_lookup_inserts by (rewrite ?length_app; lia). rewrite lookup_app_l by lia. done.
    + rewrite !list_lookup_inserts_ge by (rewrite ?length_app; cbn; lia). done.
Qed.

Lemma length_frame_in g slot :
  ring_ok g → 0 <= slot < capacityFrames_ g → length (frame_in g slot) = Z.to_nat (channels_ g).
Proof.
  intros Hok Hs. pose proof (frame_bounds g Hok slot Hs). destruct Hok. unfold frame_in.
  apply length_slice; lia.
Qed.

Lemma blend_frame_eq g i j produced fraction out :
  ring_ok g → 0 <= i < capacityFrames_ g → 0 <= j < capacityFrames_ g → 0 <= produced →
  blend_frame g i j produced fraction out =
    memcpy out (produced * channels_ g) (blend (frame_in g i) (frame_in g j) fraction).
Proof.
  intros Hok Hi Hj Hp. pose proof (ok_channels _ Hok) as Hch. unfold blend_frame.
  rewrite (for_loop_wr (Z.to_nat (channels_ g)) (produced * channels_ g)
    (λ channel, interpolate (rd (samples_ g) (i * channels_ g + channel))
                            (rd (samples_ g) (j * channels_ g + channel)) fraction)) by nia.
  f_equal. pose proof (frame_bounds g Hok i Hi). pose proof (frame_bounds g Hok j Hj).
  pose proof (ok_samples _ Hok) as Hs. apply list_eq. intros k. unfold blend.
  rewrite lookup_zip_with. unfold frame_in, slice.
  destruct (decide (k < Z.to_nat (channels_ g))%nat) as [Hk|Hk].
  - rewrite list_lookup_fmap, lookup_seqZ_lt by lia. cbn.
    rewrite !lookup_take_lt, !lookup_drop by lia. unfold rd.
    rewrite !list_lookup_lookup_total_lt by lia. cbn. do 2 f_equal; f_equal; lia.
  - rewrite !lookup_take_ge by lia. cbn. apply lookup_ge_None. rewrite length_map, length_seqZ. lia.
Qed.

(** One frame after [produced] others. *)
Lemma memcpy_next (out : list spec_float) (ch produced : Z) (f : frame) :
  0 < ch → 0 <= produced → length f = Z.to_nat ch → (produced + 1) * ch <= Z.of_nat (length out) →
  let out' := memcpy out (produced * ch) f in
  take (Z.to_nat ((produced + 1) * ch)) out' = take (Z.to_nat (produced * ch)) out ++ f ∧
  ∀ k, (Z.to_nat ((produced + 1) * ch) <= k)%nat → drop k out' = drop k out.
Proof.
  intros Hch Hp Hf Hlen. cbv zeta. unfold memcpy. split.
  - apply list_eq. intros i. destruct (decide (i < Z.to_nat ((produced + 1) * ch))%nat) as [Hi|Hi].
    + rewrite lookup_take_lt by done. destruct (decide (i < Z.to_nat (produced * ch))%nat).
      * rewrite list_lookup_inserts_lt by done.
        rewrite lookup_app_l, lookup_take_lt by (rewrite ?length_take; lia). done.
      * rewrite list_lookup_inserts by lia. rewrite lookup_app_r by (rewrite length_take; lia).
        f_equal. rewrite length_take. lia.
    + rewrite lookup_take_ge by lia. symmetry. apply lookup_ge_None. rewrite length_app, length_take. lia.
  - intros k Hk. apply list_eq. intros i. rewrite !lookup_drop. apply list_lookup_inserts_ge. lia.
Qed.

(** ** The loop *)

Section loop.
Context (g : AudioOutputRing) (q : list frame) (step : spec_float).
Hypothesis Hrel : ring_rel g q.
Hypothesis Hstep : below 1 step.

Local Notation ch := (channels_ g).

Lemma available_length : AudioOutputRing_availableFrames g = Z.of_nat (length q).
Proof.
  unfold AudioOutputRing_availableFrames. rewrite (r_length _ _ Hrel). pose proof (r_fits _ _ Hrel). lia.
Qed.

Lemma resample_loop_spec n produced phase out :
  below 31 phase → 0 <= produced → (produced + Z.of_nat n) * ch <= Z.of_nat (length out) →
  let r := resample_queue q step n phase in
  resample_loop g (Z.of_nat (length q)) step n produced phase out =
    (produced + Z.of_nat (length r.1), r.2,
     take (Z.to_nat (produced * ch)) out ++ concat r.1 ++
       drop (Z.to_nat ((produced + Z.of_nat (length r.1)) * ch)) out) ∧
  below 31 r.2.
Proof.
  pose proof (r_ok _ _ Hrel) as Hok. pose proof (ok_capacity _ Hok) as Hcap.
  pose proof (ok_channels _ Hok) as Hch. pose proof (r_fits _ _ Hrel) as Hfit.
  revert produced phase out. induction n as [|n IH]; intros produced phase out Hb Hp Hlen; cbv zeta.
  { cbn. by rewrite Z.add_0_r, take_drop. }
  pose proof (trunc_below 31 phase ltac:(lia) Hb) as Ht.
  cbn [resample_queue resample_loop]. set (w := sf_trunc phase) in *.
  destruct (Z.geb_spec w (Z.of_nat (length q))) as [Hge|Hlt].
  { rewrite (lookup_ge_None_2 q (Z.to_nat w)) by lia. cbn. by rewrite Z.add_0_r, take_drop. }
  set (fr := d_sub phase (d_of_Z w)).
  pose proof (r_frames _ _ Hrel w ltac:(lia)) as Ea. rewrite Ea.
  set (j := w + (if d_lt (S754_zero false) fr && (w + 1 <? Z.of_nat (length q)) then 1 else 0)).
  set (i1 := u32 (readFrame_ g + w) mod capacityFrames_ g).
  set (i2 := u32 (readFrame_ g + j) mod capacityFrames_ g).
  set (b := if d_lt (S754_zero false) fr
            then default (frame_in g i1) (q !! Z.to_nat (w + 1)) else frame_in g i1).
  assert (0 <= i1 < capacityFrames_ g ∧ 0 <= i2 < capacityFrames_ g) as [Hi1 Hi2]
    by (split; apply Z.mod_pos_bound; lia).
  assert (frame_in g i2 = b) as Eb.
  { subst b i2 j. destruct (d_lt (S754_zero false) fr); cbn [andb]; [|by rewrite Z.add_0_r].
    destruct (Z.ltb_spec (w + 1) (Z.of_nat (length q))).
    - rewrite (r_frames _ _ Hrel (w + 1)) by lia. done.
    - rewrite (lookup_ge_None_2 q) by lia. by rewrite Z.add_0_r. }
  rewrite (blend_frame_eq g i1 i2 produced fr out Hok Hi1 Hi2 Hp), Eb.
  set (f := blend (frame_in g i1) b fr).
  assert (length f = Z.to_nat ch) as Hf.
  { subst f. unfold blend. rewrite length_zip_with, <- Eb, !length_frame_in by done. lia. }
  assert (below 31 (d_add phase step)) as Hnext.
  { apply (d_add_below 30); [lia| |apply (below_mono 1); [lia|done]].
    apply (below_of_trunc 31); [lia|done|]. fold w. lia. }
  destruct (memcpy_next out ch produced f Hch Hp Hf ltac:(nia)) as [Etake Edrop].
  destruct (IH (produced + 1) (d_add phase step) (memcpy out (produced * ch) f) Hnext) as [E Hbr];
    [lia|rewrite length_memcpy; nia|].
  split; [|exact Hbr]. rewrite E. cbn [fst snd length concat].
  set (r := resample_queue q step n (d_add phase step)) in *. clearbody r f. clear E IH.
  rewrite Etake, Edrop by nia. rewrite <- !app_assoc. f_equal; [f_equal; lia|].
  do 3 f_equal. f_equal. lia.
Qed.

(** Consuming past the end empties the queue. *)
Lemma consume_rel phase :
  below 31 phase →
  ring_rel (consume g (Z.of_nat (length q)) phase) (drop (Z.to_nat (sf_trunc phase)) q).
Proof.
  intros Hb. pose proof (trunc_below 31 phase ltac:(lia) Hb) as Ht. change (2 ^ 31) with 2147483648 in Ht.
  pose proof Hrel as Hrel'. destruct Hrel' as [Hok Hr Hwr Hl Hfit Hfr Hfrac].
  pose proof (ok_capacity _ Hok) as Hcap. set (c := Z.min (sf_trunc phase) (Z.of_nat (length q))).
  assert (0 <= c <= Z.of_nat (length q)) as Hc by lia.
  assert (length (drop (Z.to_nat (sf_trunc phase)) q) = Z.to_nat (Z.of_nat (length q) - c)) as Ed
    by (rewrite length_drop; lia).
  unfold consume. fold c. split; cbn -[u32]; rewrite ?Ed.
  - by destruct Hok.
  - apply u32_range.
  - done.
  - unfold u32 in *. rewrite Zminus_mod_idemp_r.
    replace (writeFrame_ g - (readFrame_ g + c)) with (writeFrame_ g - readFrame_ g - c) by lia.
    rewrite <- Zminus_mod_idemp_l, Hl. rewrite Z.mod_small by lia. lia.
  - lia.
  - intros i Hi. assert (c = sf_trunc phase) as Ec by lia. rewrite lookup_drop.
    replace (Z.to_nat (sf_trunc phase) + Z.to_nat i)%nat with (Z.to_nat (c + i)) by lia.
    rewrite Hfr by lia. unfold frame_in. cbn -[u32].
    replace (u32 (u32 (readFrame_ g + c) + i)) with (u32 (readFrame_ g + (c + i))); [done|].
    rewrite u32_sum. f_equal. lia.
  - by apply (fraction_below 31).
Qed.
End loop.

Lemma valid_step_below step : narrow step → below 1 (valid_step step).
Proof. exact (clamp_rate_below step). Qed.

(** ** Calls on a ring that holds a queue *)

(** A ring that holds a queue is one that the interleavings reach. *)
Lemma ring_rel_fifo g q :
  ring_rel g q →
  ∃ t, fifo t ∧ ring t = g ∧ producing t = PIdle ∧ consuming t = CIdle ∧
       drop (length (taken t)) (accepted t) = q.
Proof.
  intros [Hok Hr Hw Hl Hfit Hfr Hfrac]. set (old := replicate (Z.to_nat (readFrame_ g)) ([] : frame)).
  unfold is_u32 in *. pose proof (ok_capacity _ Hok).
  exists {| ring := g; producing := PIdle; consuming := CIdle; accepted := old ++ q; taken := old |}.
  split; [|split; [done|split; [done|split; [done|cbn [taken accepted]; by rewrite drop_app_length]]]].
  assert (length old = Z.to_nat (readFrame_ g)) as Eo by apply length_replicate.
  split; cbn [ring taken accepted producing consuming]; try done.
  - rewrite Eo, Z2Nat.id by lia. unfold u32. rewrite Z.mod_small; lia.
  - rewrite length_app, Eo. unfold u32 in *. rewrite Nat2Z.inj_add, Z2Nat.id by lia.
    rewrite <- Hl, Zplus_mod_idemp_r. replace (readFrame_ g + (writeFrame_ g - readFrame_ g)) with (writeFrame_ g) by lia.
    rewrite Z.mod_small; lia.
  - by rewrite take_app_length.
  - rewrite length_app. lia.
  - intros p Hp. rewrite length_app in Hp. rewrite lookup_app_r by lia. specialize (Hfr (Z.of_nat (p - length old)) ltac:(lia)).
    rewrite Nat2Z.id in Hfr. rewrite Hfr, (slot_u32 g) by done. do 3 f_equal. lia.
Qed.

(** [write] appends what there is room for. *)
Lemma write_rel g q data frames :
  ring_rel g q → 0 < frames → frames * channels_ g <= Z.of_nat (length data) →
  let '(count, g') := AudioOutputRing_write (Some data) frames g in
  count = Z.min frames (capacityFrames_ g - Z.of_nat (length q)) ∧
  ring_rel g' (q ++ frames_of (channels_ g) count data) ∧
  capacityFrames_ g' = capacityFrames_ g ∧ channels_ g' = channels_ g.
Proof.
  intros Hg Hn Hlen. destruct (ring_rel_fifo g q Hg) as (t & Ht & <- & Hp & Hc & <-).
  pose proof (write_is_run t data frames Ht Hp Hn Hlen) as Hrun. pose proof (prefix_le t Ht) as Hle.
  assert (readFraction_ (AudioOutputRing_write (Some data) frames (ring t)).2 = readFraction_ (ring t)) as Ef
    by (unfold AudioOutputRing_write; by destruct (frames =? 0)).
  destruct (AudioOutputRing_write (Some data) frames (ring t)) as [count g']. cbn [snd] in Ef.
  destruct Hrun as [Ec Hs]. rewrite length_drop. split; [rewrite Ec; lia|].
  pose proof (dimensions_steps _ _ Hs) as Hd. cbn in Hd.
  assert (fifo (t <| ring := g' |> <| accepted ::= λ l, l ++ frames_of (channels_ (ring t)) count data |>)) as Hf.
  { eapply (steps_invariant ring_step fifo); [by apply fifo_step|exact Ht|exact Hs]. }
  apply fifo_ring_rel in Hf; [|cbn; rewrite Ef; apply (r_fraction _ _ Hg)]. cbn in Hf.
  rewrite drop_app_le in Hf by done. done.
Qed.

(** A new ring holds nothing. *)
Lemma ring_new_rel cap ch g :
  AudioOutputRing_new cap ch = Some g → (cap | 4294967296) → 0 <= cap → 0 <= ch →
  ring_rel g [] ∧ capacityFrames_ g = cap ∧ channels_ g = ch.
Proof.
  intros Hn Hd Hc Hch. destruct (new_ok cap ch g Hn Hd Hc Hch) as (Hok & E1 & E2 & E3 & E4 & E5).
  pose proof (ok_capacity _ Hok). split; [|done]. split; rewrite ?E3, ?E4, ?E5; try done; cbn; lia.
Qed.

(** Reading from a ring that holds a queue. *)
Lemma read_resampled_gen g q out frames step :
  ring_rel g q → narrow step → 0 <= frames → frames * channels_ g <= Z.of_nat (length out) →
  let '(fs, phase) := resample_queue q (valid_step step) (Z.to_nat frames) (readFraction_ g) in
  let '(produced, out', g') := AudioOutputRing_readResampled (Some out) frames step g in
  produced = Z.of_nat (length fs) ∧
  out' = Some (concat fs ++ drop (Z.to_nat (produced * channels_ g)) out) ∧
  ring_rel g' (drop (Z.to_nat (sf_trunc phase)) q) ∧
  capacityFrames_ g' = capacityFrames_ g ∧ channels_ g' = channels_ g ∧
  readFraction_ g' = d_sub phase (d_of_Z (sf_trunc phase)).
Proof.
  intros Hrel Hn Hf Hlen.
  destruct (resample_loop_spec g q (valid_step step) Hrel (valid_step_below step Hn) (Z.to_nat frames) 0
    (readFraction_ g) out) as [E Hb]; [|lia|lia|].
  { apply (below_mono 0); [lia|apply (r_fraction _ _ Hrel)]. }
  unfold AudioOutputRing_readResampled. rewrite (available_length g q Hrel).
  destruct (resample_queue q (valid_step step) (Z.to_nat frames) (readFraction_ g)) as [fs phase].
  cbn [fst snd] in E, Hb. rewrite E. split; [lia|]. split; [done|].
  split; [by apply consume_rel|done].
Qed.

(** Reading [frames] frames at any rate from a ring that holds [q] yields the frames that
    linear resampling of [q] yields, in the front of the caller's buffer and nothing else changed; the
    ring then holds the frames of [q] after the whole part of the last phase, and keeps its fraction. *)
Theorem read_resampled_refines_queue g q out frames step :
  ring_rel g q → narrow step → 0 <= frames → frames * channels_ g <= Z.of_nat (length out) →
  let '(fs, phase) := resample_queue q (valid_step step) (Z.to_nat frames) (readFraction_ g) in
  let '(produced, out', g') := AudioOutputRing_readResampled (Some out) frames step g in
  produced = Z.of_nat (length fs) ∧
  out' = Some (concat fs ++ drop (Z.to_nat (produced * channels_ g)) out) ∧
  ring_rel g' (drop (Z.to_nat (sf_trunc phase)) q) ∧
  readFraction_ g' = d_sub phase (d_of_Z (sf_trunc phase)).
Proof.
  intros Hrel Hn Hf Hlen. pose proof (read_resampled_gen g q out frames step Hrel Hn Hf Hlen) as H.
  destruct (resample_queue q _ _ _) as [fs phase], (AudioOutputRing_readResampled _ _ _ _) as [[produced out'] g'].
  intuition.
Qed.

(** A ring of 4 frames of one channel that holds the frames 0, 2 and 4, read at half the rate. *)
Definition three_frames : AudioOutputRing :=
  {| capacityFrames_ := 4; channels_ := 1; samples_ := map f32_of_Z [0; 2; 4; 0];
     writeFrame_ := 3; readFrame_ := 0; readFraction_ := S754_zero false |}.

Lemma three_frames_rel : ring_rel three_frames (map (λ n, [f32_of_Z n]) [0; 2; 4]).
Proof.
  destruct (AudioOutputRing_new 4 1) as [g|] eqn:E; [|done].
  destruct (ring_new_rel 4 1 g E ltac:(by exists 1073741824) ltac:(lia) ltac:(lia)) as (Hr & _ & _).
  injection E as <-. pose proof (write_rel _ _ (map f32_of_Z [0; 2; 4]) 3 Hr ltac:(lia) ltac:(by vm_compute)) as Hw.
  revert Hw. rewrite surjective_pairing at 1. intros (_ & Hw & _). exact Hw.
Qed.

Lemma read_resampled_refines_queue_witness :
  (AudioOutputRing_readResampled (Some (replicate 3 (S754_zero false))) 3 (d_lit 1 2) three_frames).1 =
    (3, Some (map f32_of_Z [0; 1; 2])).
Proof.
  pose proof (read_resampled_refines_queue three_frames _ (replicate 3 (S754_zero false)) 3 (d_lit 1 2)
    three_frames_rel ltac:(by vm_compute) ltac:(lia) ltac:(by vm_compute)) as H.
  revert H. destruct (resample_queue _ _ _ _) as [fs phase] eqn:E. vm_compute in E. injection E as <- <-.
  destruct (AudioOutputRing_readResampled _ _ _ _) as [[produced out'] g']. intros (-> & -> & _). by vm_compute.
Defined.

(** ** Skipping *)

Lemma d_mul_below n j step :
  0 <= n < 2 ^ j → 0 <= j <= 40 → below 1 step → below (j + 1) (d_mul (d_of_Z n) step).
Proof.
  intros Hn Hj Hs. destruct n as [|p|]; [| |lia].
  { change (d_of_Z 0) with (S754_zero false). destruct step as [[]| | |[] m e]; done. }
  assert (2 ^ j <= 2 ^ 40) by (apply Z.pow_le_mono_r; lia).
  destruct (@round_pos_shape 53 1024 binary64 p ltac:(lia)) as (m0 & k0 & Hr & Hk & Hk0 & Hm).
  assert (d_of_Z (Zpos p) = S754_finite false m0 (- k0)) as -> by apply (Hr false).
  destruct step as [s| | |[] m' e']; try done. destruct Hs as [He' Hm'].
  assert (Z.log2 (Zpos p) < j) as Hlog by (apply Z.log2_lt_pow2; lia).
  unfold d_mul. cbn [SFmul xorb]. apply round_aux_below; try lia.
  rewrite Pos2Z.inj_mul. replace (j + 1 - (- k0 + e')) with ((j + k0) + (1 - e')) by lia.
  rewrite Z.pow_add_r by lia. apply Z.mul_le_mono_nonneg; [lia| |lia|lia].
  rewrite Hm, Z.pow_add_r by lia. apply Z.mul_le_mono_nonneg_r; [apply Z.pow_nonneg; lia|lia].
Qed.

(** Skipping drops the whole part of the phase it reaches. *)
Lemma advance_resampled_spec g q frames step :
  ring_rel g q → narrow step → 0 <= frames < 2 ^ 20 →
  let phase := d_add (readFraction_ g) (d_mul (d_of_Z frames) (valid_step step)) in
  ring_rel (AudioOutputRing_advanceResampled frames step g) (drop (Z.to_nat (sf_trunc phase)) q).
Proof.
  intros Hrel Hn Hf phase. unfold AudioOutputRing_advanceResampled. fold phase.
  rewrite (available_length g q Hrel). apply consume_rel; [done|].
  apply (below_mono 22); [lia|]. apply (d_add_below 21); [lia| |].
  - apply (below_mono 0); [lia|apply (r_fraction _ _ Hrel)].
  - apply (d_mul_below frames 20); [done|lia|by apply valid_step_below].
Qed.
