(* ===== verification/PacketPolicy.v ===== *)
(** * Packet sizes from device feedback (numark-ns6/audio-feedback, numark-ns6/audio-out)

    The device reports every millisecond how many frames it played.  The parser
    classifies a report, the pattern policy spreads a number of frames over the eight
    packets of a millisecond, and the packet policy queues the reports, plays one
    pattern per millisecond, replays its own history after a malformed report, and
    measures the device's rate over a window of reports. *)

From stdpp Require Import base list numbers tactics.
From Stdlib Require Import ZArith Lia ZifyBool.
From S2P Require Import Prelude Float.

(** ** Endpoint layout (NS6AudioOutLayout) *)

Inductive USBSpeed := Unknown | Full | High | Super.
Inductive USBTransferType := Control | Isochronous | Bulk | Interrupt.

#[export] Instance USBSpeed_eq_dec : EqDecision USBSpeed.
Proof. solve_decision. Defined.
#[export] Instance USBTransferType_eq_dec : EqDecision USBTransferType.
Proof. solve_decision. Defined.

Record NS6AudioOutEndpointDescriptor := {
  vendorId : Z;
  productId : Z;
  speed : USBSpeed;
  interfaceNumber : Z;
  alternateSetting : Z;
  endpointAddress : Z;
  transferType : USBTransferType;
  maxPacketSize : Z;
  interval : Z
}.

Definition ns6AudioOutServiceRateHz (d : NS6AudioOutEndpointDescriptor) : Z :=
  if negb (vendorId d =? 0x15e4) || negb (productId d =? 0x0079) || negb (bool_decide (speed d = High))
     || negb (interfaceNumber d =? 0) || negb (alternateSetting d =? 1)
     || negb (endpointAddress d =? 0x02) || negb (bool_decide (transferType d = Isochronous))
     || negb (maxPacketSize d =? 156) || negb (interval d =? 1)
  then 0 else 8000.

(** ** Reports (AudioFeedbackParser) *)

Inductive AudioFeedbackKind := valid | shortPacket | unexpectedLength | outOfRange | transferError.

Record AudioFeedbackObservation := {
  kind : AudioFeedbackKind;
  raw : list Z;
  byteCount : Z;
  framesPerMillisecond : Z
}.

Definition kMinimumFramesPerMillisecond : Z := 42.
Definition kMaximumFramesPerMillisecond : Z := 46.
Definition kReportBytes : Z := 3.

(** [bytes] is the packet's part of the transfer buffer, [None] a null pointer. *)
Definition AudioFeedbackParser_parse (transferOk frameOk : bool) (bytes : option (list Z)) (count : Z)
    : AudioFeedbackObservation :=
  let raw := match bytes with
             | Some b => memcpy [0; 0; 0] 0 (slice b 0 (Z.min count kReportBytes))
             | None => [0; 0; 0]
             end in
  let result kind frames :=
    {| kind := kind; raw := raw; byteCount := Z.min count 65535; framesPerMillisecond := frames |} in
  match bytes with
  | None => result transferError 0
  | Some b =>
      if negb transferOk || negb frameOk then result transferError 0
      else if count <? kReportBytes then result shortPacket 0
      else if negb (count =? kReportBytes) then result unexpectedLength 0
      else if (rd b 0 <? kMinimumFramesPerMillisecond) || (rd b 0 >? kMaximumFramesPerMillisecond)
      then result outOfRange 0
      else result valid (rd b 0)
  end.

(** ** Patterns (AudioFeedbackPatternPolicy) *)

Definition kMinimumFrames : Z := 42.
Definition kMaximumFrames : Z := 46.

Definition patterns : list (list Z) :=
  [[6; 5; 5; 5; 6; 5; 5; 5];
   [5; 5; 6; 5; 6; 5; 6; 5];
   [6; 5; 6; 5; 6; 5; 6; 5];
   [6; 6; 5; 6; 5; 6; 5; 6];
   [5; 6; 6; 6; 5; 6; 6; 6]].

Definition AudioFeedbackPatternPolicy_build (frames : Z) (packets : list Z) : bool * list Z :=
  if (frames <? kMinimumFrames) || (frames >? kMaximumFrames) then (false, packets)
  else (true, rd patterns (frames - kMinimumFrames)).

(** ** The policy (AudioPacketPolicy) *)

Definition kFeedbackWindow : Z := 40000.
Definition kPatternHistorySize : Z := 128.
Definition kFeedbackQueueCapacity : Z := 32.
Definition kMinimumOutputRateMilliHz : Z := 44100000.
Definition kMaximumOutputRateMilliHz : Z := 44100300.
Definition kQueueTargetFrames : Z := 4096.

Record AudioPacketPolicy := {
  wholeFrames_ : Z;
  remainderFrames_ : Z;
  serviceIntervalsPerSecond_ : Z;
  sampleRateHz_ : Z;
  phase_ : Z;
  feedbackPattern_ : list Z;
  patternHistory_ : list Z;
  patternHistoryCursor_ : Z;
  reacquisitionReference_ : Z;
  patternLocked_ : bool;
  feedbackQueue_ : list Z;
  feedbackQueueRead_ : Z;
  feedbackQueueCount_ : Z;
  feedbackWindow_ : list Z;
  feedbackSum_ : Z;
  feedbackCount_ : Z;
  feedbackIndex_ : Z;
  measuredClockMilliHz_ : Z;
  patternIndex_ : Z;
  nominalFraction_ : Z
}.

#[export] Instance eta_policy : Eta AudioPacketPolicy := λ p,
  Build_AudioPacketPolicy (wholeFrames_ p) (remainderFrames_ p) (serviceIntervalsPerSecond_ p)
    (sampleRateHz_ p) (phase_ p) (feedbackPattern_ p) (patternHistory_ p) (patternHistoryCursor_ p)
    (reacquisitionReference_ p) (patternLocked_ p) (feedbackQueue_ p) (feedbackQueueRead_ p)
    (feedbackQueueCount_ p) (feedbackWindow_ p) (feedbackSum_ p) (feedbackCount_ p) (feedbackIndex_ p)
    (measuredClockMilliHz_ p) (patternIndex_ p) (nominalFraction_ p).

(** The constructor; [None] is the exception. *)
Definition AudioPacketPolicy_new (sampleRateHz serviceIntervals : Z) : option AudioPacketPolicy :=
  if (sampleRateHz =? 0) || (serviceIntervals =? 0) then None
  else Some
    {| wholeFrames_ := sampleRateHz / serviceIntervals;
       remainderFrames_ := sampleRateHz mod serviceIntervals;
       serviceIntervalsPerSecond_ := serviceIntervals; sampleRateHz_ := sampleRateHz; phase_ := 0;
       feedbackPattern_ := (AudioFeedbackPatternPolicy_build 44 (replicate 8 0)).2;
       patternHistory_ := map (λ i, u8 (5 + i mod 2 + (if i mod 80 =? 0 then 1 else 0)))
                            (seqZ 0 kPatternHistorySize);
       patternHistoryCursor_ := 0; reacquisitionReference_ := 0; patternLocked_ := false;
       feedbackQueue_ := replicate 32 0; feedbackQueueRead_ := 0; feedbackQueueCount_ := 0;
       feedbackWindow_ := replicate (Z.to_nat kFeedbackWindow) 0; feedbackSum_ := 0;
       feedbackCount_ := 0; feedbackIndex_ := 0; measuredClockMilliHz_ := sampleRateHz * 1000;
       patternIndex_ := 0; nominalFraction_ := 0 |}.

(** Storing eight packets in the history, from the cursor on. *)
Definition record_history (pattern : list Z) (p : AudioPacketPolicy) : AudioPacketPolicy :=
  p <| patternHistory_ ::= λ h, for_loop 8 0
         (λ i h, wr h ((patternHistoryCursor_ p + i) mod kPatternHistorySize) (rd pattern i)) h |>
    <| patternHistoryCursor_ ::= λ c, (c + 8) mod kPatternHistorySize |>.

(** The eight packets at the cursor. *)
Definition replay_history (p : AudioPacketPolicy) : list Z :=
  map (λ i, rd (patternHistory_ p) ((patternHistoryCursor_ p + i) mod kPatternHistorySize)) (seqZ 0 8).

(** At the start of a millisecond the pattern is chosen. *)
Definition select_pattern (p : AudioPacketPolicy) : AudioPacketPolicy :=
  if negb (feedbackQueueCount_ p =? 0) then
    let feedback := rd (feedbackQueue_ p) (feedbackQueueRead_ p) in
    let p := p <| feedbackQueueRead_ ::= λ r, (r + 1) mod kFeedbackQueueCapacity |>
               <| feedbackQueueCount_ ::= λ c, c - 1 |> in
    let '(built, selected) := AudioFeedbackPatternPolicy_build feedback (replicate 8 0) in
    if (built : bool) then
      let p := record_history selected (p <| feedbackPattern_ := selected |>) in
      if patternHistoryCursor_ p =? reacquisitionReference_ p then p <| patternLocked_ := true |> else p
    else
      let p := p <| patternLocked_ := false |>
                 <| reacquisitionReference_ := patternHistoryCursor_ p |> in
      let p := p <| feedbackPattern_ := replay_history p |> in
      record_history (feedbackPattern_ p) p
  else
    let fraction := nominalFraction_ p + 100 in
    let frames := u8 (44 + (if fraction >=? 1000 then 1 else 0)) in
    p <| nominalFraction_ := (if fraction >=? 1000 then fraction - 1000 else fraction) |>
      <| feedbackPattern_ ::= λ old, (AudioFeedbackPatternPolicy_build frames old).2 |>.

Definition AudioPacketPolicy_nextPacketFrames (p : AudioPacketPolicy) : Z * AudioPacketPolicy :=
  if serviceIntervalsPerSecond_ p =? 8000 then
    let p := if patternIndex_ p =? 0 then select_pattern p else p in
    (rd (feedbackPattern_ p) (patternIndex_ p), p <| patternIndex_ ::= λ i, u8 ((i + 1) mod 8) |>)
  else
    let phase := phase_ p + remainderFrames_ p in
    if phase >=? serviceIntervalsPerSecond_ p
    then (wholeFrames_ p + 1, p <| phase_ := phase - serviceIntervalsPerSecond_ p |>)
    else (wholeFrames_ p, p <| phase_ := phase |>).

(** Appending a report; the oldest one gives way. *)
Definition queue_report (report : Z) (p : AudioPacketPolicy) : AudioPacketPolicy :=
  let p := if feedbackQueueCount_ p =? kFeedbackQueueCapacity
           then p <| feedbackQueueRead_ ::= λ r, (r + 1) mod kFeedbackQueueCapacity |>
                  <| feedbackQueueCount_ ::= λ c, c - 1 |>
           else p in
  let write := (feedbackQueueRead_ p + feedbackQueueCount_ p) mod kFeedbackQueueCapacity in
  p <| feedbackQueue_ ::= λ q, wr q write report |> <| feedbackQueueCount_ ::= λ c, c + 1 |>.

(** The sliding window of accepted reports. *)
Definition window_report (report : Z) (p : AudioPacketPolicy) : AudioPacketPolicy :=
  let p := if feedbackCount_ p =? kFeedbackWindow
           then p <| feedbackSum_ ::= λ s, s -₆₄ rd (feedbackWindow_ p) (feedbackIndex_ p) |>
           else p <| feedbackCount_ ::= λ c, c + 1 |> in
  let p := p <| feedbackWindow_ ::= λ w, wr w (feedbackIndex_ p) report |>
             <| feedbackSum_ ::= λ s, s +₆₄ report |>
             <| feedbackIndex_ ::= λ i, (i + 1) mod kFeedbackWindow |> in
  if feedbackCount_ p =? kFeedbackWindow
  then p <| measuredClockMilliHz_ := u64 (feedbackSum_ p * 1000000) / kFeedbackWindow |> else p.

Definition AudioPacketPolicy_observeFeedback (frames : Z) (p : AudioPacketPolicy) : AudioPacketPolicy :=
  if (frames >=? kMinimumFrames) && (frames <=? kMaximumFrames)
  then queue_report frames (window_report frames p) else p.

Definition AudioPacketPolicy_observeInvalidFeedback (p : AudioPacketPolicy) : AudioPacketPolicy :=
  queue_report 0 p.

(** [std::clamp] on integers and on doubles. *)
Definition clamp (v lo hi : Z) : Z := if v <? lo then lo else if hi <? v then hi else v.
Definition d_clamp (v lo hi : spec_float) : spec_float :=
  if d_lt v lo then lo else if d_lt hi v then hi else v.

Definition AudioPacketPolicy_effectiveClockMilliHz (p : AudioPacketPolicy) : Z :=
  clamp (measuredClockMilliHz_ p) kMinimumOutputRateMilliHz kMaximumOutputRateMilliHz.

Definition AudioPacketPolicy_sourceFramesPerOutputFrame (queuedFrames : Z) (p : AudioPacketPolicy)
    : spec_float :=
  let step := d_div (d_mul (d_of_Z (sampleRateHz_ p)) (d_of_Z 1000))
                    (d_of_Z (AudioPacketPolicy_effectiveClockMilliHz p)) in
  let trim := d_mul (d_sub (d_of_Z queuedFrames) (d_of_Z kQueueTargetFrames)) (d_lit 2 1000000) in
  let trim := d_clamp trim (d_lit (-5) 1000) (d_lit 5 1000) in
  d_clamp (d_mul step (d_add (d_of_Z 1) trim)) (d_lit 995 1000) (d_lit 1005 1000).

(** How the runtime hands a report on (AudioTransportRuntime::publish). *)
Definition AudioTransportRuntime_publish (o : AudioFeedbackObservation) (p : AudioPacketPolicy)
    : AudioPacketPolicy :=
  match kind o with
  | valid => AudioPacketPolicy_observeFeedback (framesPerMillisecond o) p
  | transferError => p
  | _ => AudioPacketPolicy_observeInvalidFeedback p
  end.
