(* ===== verification/PolicyTheory.v ===== *)
(** * What the packet policy plays

    The specification keeps the reports in a list, the history as the packets of the
    last sixteen milliseconds, and hands out whole milliseconds.  The policy refines
    it, its packets fit the endpoint, and its rate is the mean of the window. *)

From stdpp Require Import base list numbers tactics.
From Stdlib Require Import ZArith Lia ZifyBool.
From S2P Require Import Prelude Float Rounding TransportQueue OutRing OutRingResample PacketPolicy.

(** ** The specification *)

Record schedule := {
  reports : list Z;
  rest : list Z;
  recent : list Z;
  fraction : Z
}.

#[export] Instance eta_schedule : Eta schedule := λ s,
  Build_schedule (reports s) (rest s) (recent s) (fraction s).

Definition pattern_of (frames : Z) : list Z := rd patterns (frames - 42).

Definition playable (report : Z) : bool := (42 <=? report) && (report <=? 46).

(** The packets of the next millisecond: the pattern of the oldest report, the packets of sixteen
    milliseconds ago when it was malformed, 44.1 frames on average without reports. *)
Definition next_millisecond (s : schedule) : list Z * schedule :=
  match reports s with
  | [] =>
      let fraction' := fraction s + 100 in
      if fraction' >=? 1000 then (pattern_of 45, s <| fraction := fraction' - 1000 |>)
      else (pattern_of 44, s <| fraction := fraction' |>)
  | report :: later =>
      let ms := if playable report then pattern_of report else take 8 (recent s) in
      (ms, s <| reports := later |> <| recent := drop 8 (recent s) ++ ms |>)
  end.

Definition next_packet (s : schedule) : Z * schedule :=
  let '(ms, s) := match rest s with [] => next_millisecond s | r => (r, s) end in
  (hd 0 ms, s <| rest := tail ms |>).

(** The newest 32 reports are kept. *)
Definition keep_newest (n : nat) (l : list Z) : list Z := drop (length l - n) l.

Definition add_report (report : Z) (s : schedule) : schedule :=
  s <| reports := keep_newest 32 (reports s ++ [report]) |>.

Inductive policy_event := Feedback (frames : Z) | InvalidFeedback | Packet.

Definition spec_event (e : policy_event) (s : schedule) : list Z * schedule :=
  match e with
  | Feedback f => ([], if playable f then add_report f s else s)
  | InvalidFeedback => ([], add_report 0 s)
  | Packet => let '(n, s) := next_packet s in ([n], s)
  end.

Definition policy_step (e : policy_event) (p : AudioPacketPolicy) : list Z * AudioPacketPolicy :=
  match e with
  | Feedback f => ([], AudioPacketPolicy_observeFeedback f p)
  | InvalidFeedback => ([], AudioPacketPolicy_observeInvalidFeedback p)
  | Packet => let '(n, p) := AudioPacketPolicy_nextPacketFrames p in ([n], p)
  end.

(** The packets of a sequence of events. *)
Fixpoint run {S} (step : policy_event → S → list Z * S) (es : list policy_event) (s : S)
    : list Z * S :=
  match es with
  | [] => ([], s)
  | e :: es' => let '(out, s) := step e s in
                let '(outs, s) := run step es' s in (out ++ outs, s)
  end.

(** ** The relation *)

Record policy_rel (p : AudioPacketPolicy) (s : schedule) : Prop := {
  p_rate : serviceIntervalsPerSecond_ p = 8000;
  p_pattern : length (feedbackPattern_ p) = 8%nat;
  p_index : 0 <= patternIndex_ p < 8;
  p_rest : rest s = if patternIndex_ p =? 0 then [] else drop (Z.to_nat (patternIndex_ p)) (feedbackPattern_ p);
  p_history : length (patternHistory_ p) = 128%nat;
  p_cursor : ∃ k, 0 <= k < 16 ∧ patternHistoryCursor_ p = 8 * k;
  p_recent : recent s = drop (Z.to_nat (patternHistoryCursor_ p)) (patternHistory_ p) ++
                        take (Z.to_nat (patternHistoryCursor_ p)) (patternHistory_ p);
  p_queue : length (feedbackQueue_ p) = 32%nat;
  p_read : 0 <= feedbackQueueRead_ p < 32;
  p_count : Z.of_nat (length (reports s)) = feedbackQueueCount_ p;
  p_fits : feedbackQueueCount_ p <= 32;
  p_reports : ∀ i, 0 <= i < feedbackQueueCount_ p →
    reports s !! Z.to_nat i = Some (rd (feedbackQueue_ p) ((feedbackQueueRead_ p + i) mod 32));
  p_fraction : fraction s = nominalFraction_ p ∧ 0 <= nominalFraction_ p < 1000
}.

(** ** Reports *)

Lemma mod32 a : 0 <= a < 64 → a mod 32 = if a <? 32 then a else a - 32.
Proof. intros. case_if; [by apply Z.mod_small; lia|]. symmetry. apply (Z.mod_unique_pos _ _ 1); lia. Qed.

Definition pop_report (p : AudioPacketPolicy) : AudioPacketPolicy :=
  p <| feedbackQueueRead_ ::= λ r, (r + 1) mod kFeedbackQueueCapacity |>
    <| feedbackQueueCount_ ::= λ c, c - 1 |>.

Lemma pop_rel p s r rs :
  policy_rel p s → reports s = r :: rs →
  policy_rel (pop_report p) (s <| reports := rs |>) ∧
  rd (feedbackQueue_ p) (feedbackQueueRead_ p) = r ∧ 0 < feedbackQueueCount_ p.
Proof.
  intros [H1 H2 H3 H4 H5 H6 H7 H8 H9 H10 H11 H12 H13] E. rewrite E in *. cbn [length] in H10.
  split; [|split; [|lia]].
  - unfold pop_report, kFeedbackQueueCapacity. split; cbn; try done; try lia.
    + apply Z.mod_pos_bound. lia.
    + intros i Hi. specialize (H12 (i + 1) ltac:(lia)).
      replace (Z.to_nat (i + 1)) with (S (Z.to_nat i)) in H12 by lia. change ((r :: rs) !! S (Z.to_nat i)) with (rs !! Z.to_nat i) in H12. rewrite H12.
      do 2 f_equal. rewrite Zplus_mod_idemp_l. f_equal. lia.
  - specialize (H12 0 ltac:(lia)). rewrite Z.add_0_r, Z.mod_small in H12 by lia.
    injection H12 as E0. done.
Qed.

Lemma push_rel p s r :
  policy_rel p s → feedbackQueueCount_ p < 32 →
  policy_rel (p <| feedbackQueue_ ::= λ q, wr q ((feedbackQueueRead_ p + feedbackQueueCount_ p) mod 32) r |>
                <| feedbackQueueCount_ ::= λ c, c + 1 |>)
             (s <| reports ::= λ l, l ++ [r] |>).
Proof.
  intros [H1 H2 H3 H4 H5 H6 H7 H8 H9 H10 H11 H12 H13] Hc.
  split; cbn; rewrite ?length_wr, ?length_app; cbn [length]; try done; try lia.
  intros i Hi. destruct (Z.eq_dec i (feedbackQueueCount_ p)) as [->|].
  - rewrite lookup_app_r by lia. replace (_ - _)%nat with 0%nat by lia. cbn [lookup list_lookup].
    f_equal. symmetry. apply rd_wr_eq. rewrite H8. apply Z.mod_pos_bound. lia.
  - rewrite lookup_app_l by lia. rewrite H12 by lia. f_equal. symmetry. apply rd_wr_ne.
    + apply Z.mod_pos_bound. lia.
    + apply Z.mod_pos_bound. lia.
    + rewrite !mod32 by lia. case_ifs; lia.
Qed.

Lemma queue_report_rel r p s : policy_rel p s → policy_rel (queue_report r p) (add_report r s).
Proof.
  intros H. pose proof (p_count _ _ H) as Hn. pose proof (p_fits _ _ H).
  unfold queue_report, add_report, keep_newest. rewrite length_app. cbn [length].
  destruct (Z.eqb_spec (feedbackQueueCount_ p) kFeedbackQueueCapacity) as [Hf|Hf];
    unfold kFeedbackQueueCapacity in Hf.
  - destruct (reports s) as [|o os] eqn:E; [cbn in Hn; lia|]. cbn [length] in *.
    replace (S (length os) + 1 - 32)%nat with 1%nat by lia. cbn [drop app].
    destruct (pop_rel p s o os H E) as (Hpop & _ & _).
    apply (push_rel _ _ r) in Hpop; [|cbn; lia]. exact Hpop.
  - replace (length (reports s) + 1 - 32)%nat with 0%nat by lia. rewrite drop_0.
    apply (push_rel _ _ r); [done|lia].
Qed.

Lemma window_report_rel r p s : policy_rel p s → policy_rel (window_report r p) s.
Proof.
  intros [H1 H2 H3 H4 H5 H6 H7 H8 H9 H10 H11 H12 H13]. unfold window_report.
  destruct (_ =? kFeedbackWindow); cbn; destruct (_ =? kFeedbackWindow); split; cbn; done.
Qed.

(** ** Packets *)

Lemma length_pattern_of f : playable f = true → length (pattern_of f) = 8%nat.
Proof.
  unfold playable. intros H. assert (f = 42 ∨ f = 43 ∨ f = 44 ∨ f = 45 ∨ f = 46) as Hc by lia.
  by destruct Hc as [->|[->|[->|[->| ->]]]].
Qed.

Lemma build_eq f old :
  AudioFeedbackPatternPolicy_build f old = if playable f then (true, pattern_of f) else (false, old).
Proof.
  unfold AudioFeedbackPatternPolicy_build, playable, pattern_of, kMinimumFrames, kMaximumFrames.
  case_ifs; done || lia.
Qed.

(** The history is a ring of sixteen milliseconds. *)
Lemma record_history_eq ms p k :
  length ms = 8%nat → length (patternHistory_ p) = 128%nat → 0 <= k < 16 →
  patternHistoryCursor_ p = 8 * k →
  let p' := record_history ms p in
  let cur := Z.to_nat (patternHistoryCursor_ p) in
  let cur' := Z.to_nat (patternHistoryCursor_ p') in
  length (patternHistory_ p') = 128%nat ∧
  (∃ k', 0 <= k' < 16 ∧ patternHistoryCursor_ p' = 8 * k') ∧
  drop cur' (patternHistory_ p') ++ take cur' (patternHistory_ p') =
    drop 8 (drop cur (patternHistory_ p) ++ take cur (patternHistory_ p)) ++ ms.
Proof.
  intros Hms Hh Hk Hc. cbv zeta. unfold record_history. cbn -[for_loop Z.mul Z.modulo Z.to_nat].
  rewrite Hc. unfold kPatternHistorySize. set (h := patternHistory_ p) in *.
  assert (for_loop 8 0 (λ i h, wr h ((8 * k + i) mod 128) (rd ms i)) h = memcpy h (8 * k) ms) as E.
  { transitivity (for_loop 8 0 (λ i h, wr h (8 * k + i) (rd ms i)) h).
    - cbn [for_loop]. rewrite !(Z.mod_small (8 * k + _) 128) by lia. done.
    - rewrite for_loop_wr by lia. f_equal. apply list_eq. intros i.
      destruct (decide (i < 8)%nat) as [Hi|Hi].
      + rewrite list_lookup_fmap, lookup_seqZ_lt by lia. cbn. unfold rd.
        rewrite <- list_lookup_lookup_total_lt by lia. f_equal. lia.
      + rewrite !lookup_ge_None_2 by (rewrite ?length_map, ?length_seqZ; lia). done. }
  rewrite E. clear E. set (A := take (Z.to_nat (8 * k)) h).
  assert (length A = Z.to_nat (8 * k)) as HA by (subst A; rewrite length_take; lia).
  assert (memcpy h (8 * k) ms = A ++ ms ++ drop (Z.to_nat (8 * k) + 8) h) as E.
  { rewrite <- (take_drop (Z.to_nat (8 * k)) h) at 1. fold A.
    rewrite memcpy_app by (rewrite ?length_drop; lia). rewrite drop_drop, Hms, app_assoc. done. }
  rewrite E, !length_app, length_drop, HA, Hms. split; [lia|].
  assert (drop 8 (drop (Z.to_nat (8 * k)) h ++ A) = drop (Z.to_nat (8 * k) + 8) h ++ A) as E2.
  { rewrite drop_app_le by (rewrite length_drop; lia). by rewrite drop_drop. }
  rewrite E2. destruct (Z.eq_dec k 15) as [->|].
  - change ((8 * 15 + 8) mod 128) with 0. split; [exists 0; lia|].
    cbn [Z.to_nat drop take]. rewrite drop_0, app_nil_r. rewrite (drop_ge h) by lia. by rewrite app_nil_r.
  - rewrite Z.mod_small by lia. split; [exists (k + 1); lia|].
    rewrite app_assoc. assert (length (A ++ ms) = Z.to_nat (8 * k + 8)) as HB by (rewrite length_app; lia).
    rewrite <- HB, drop_app_length, take_app_length. by rewrite app_assoc.
Qed.

Lemma replay_history_eq p k :
  length (patternHistory_ p) = 128%nat → 0 <= k < 16 → patternHistoryCursor_ p = 8 * k →
  let cur := Z.to_nat (patternHistoryCursor_ p) in
  replay_history p = take 8 (drop cur (patternHistory_ p) ++ take cur (patternHistory_ p)).
Proof.
  intros Hh Hk Hc cur. unfold replay_history, kPatternHistorySize. rewrite Hc. subst cur. rewrite Hc.
  rewrite take_app_le by (rewrite length_drop; lia). apply list_eq. intros i.
  destruct (decide (i < 8)%nat) as [Hi|Hi].
  - rewrite list_lookup_fmap, lookup_seqZ_lt by lia. cbn [fmap option_fmap option_map].
    rewrite lookup_take_lt, lookup_drop, Z.mod_small by lia. unfold rd.
    rewrite <- list_lookup_lookup_total_lt by lia. f_equal. lia.
  - rewrite !lookup_ge_None_2; [done| |]; rewrite ?length_take, ?length_map, ?length_seqZ; lia.
Qed.

(** Updating fields the relation does not read. *)
Lemma policy_rel_lock p s b r :
  policy_rel p s → policy_rel (p <| patternLocked_ := b |> <| reacquisitionReference_ := r |>) s.
Proof. intros []. by split. Qed.

(** Storing a millisecond as pattern and history. *)
Lemma record_rel ms p s :
  policy_rel p s → patternIndex_ p = 0 → length ms = 8%nat →
  policy_rel (record_history ms (p <| feedbackPattern_ := ms |>))
             (s <| recent := drop 8 (recent s) ++ ms |>).
Proof.
  intros [H1 H2 H3 H4 H5 [k [Hk Hc]] H7 H8 H9 H10 H11 H12 H13] Hi Hms.
  destruct (record_history_eq ms (p <| feedbackPattern_ := ms |>) k Hms H5 Hk Hc) as (E1 & E2 & E3).
  cbn in E3. split; try done; try exact E1; try exact E2.
  - cbn. by rewrite H4, Hi.
  - cbn in E1, E2, E3 |- *. rewrite H7. symmetry. exact E3.
Qed.

Lemma select_pattern_rel p s :
  policy_rel p s → patternIndex_ p = 0 →
  let '(ms, s') := next_millisecond s in
  let p' := select_pattern p in
  policy_rel p' s' ∧ feedbackPattern_ p' = ms ∧ patternIndex_ p' = 0 ∧ length ms = 8%nat.
Proof.
  intros H Hi. unfold next_millisecond, select_pattern. destruct (reports s) as [|r rs] eqn:E.
  - pose proof (p_count _ _ H) as Hn. rewrite E in Hn. replace (feedbackQueueCount_ p =? 0) with true by (cbn in Hn; lia).
    cbn [negb]. destruct (p_fraction _ _ H) as [Hf Hb]. rewrite Hf.
    destruct H as [H1 H2 H3 H4 H5 H6 H7 H8 H9 H10 H11 H12 H13].
    destruct (nominalFraction_ p + 100 >=? 1000) eqn:Eg; cbn;
      (split; [|done]); split; cbn; try done; try (by rewrite H4, Hi); lia.
  - destruct (pop_rel p s r rs H E) as (Hpop & Hr & Hc). replace (feedbackQueueCount_ p =? 0) with false by lia.
    cbn [negb]. rewrite Hr, build_eq. fold (pop_report p).
    destruct (playable r) eqn:Ep.
    + pose proof (length_pattern_of r Ep) as Hl.
      pose proof (record_rel (pattern_of r) _ _ Hpop Hi Hl) as Hrec.
      cbv zeta. case_if; (split; [|done]); [|exact Hrec].
      exact (policy_rel_lock _ _ true (reacquisitionReference_ _) Hrec).
    + destruct (p_cursor _ _ Hpop) as (k & Hk & Hcur).
      set (p0 := (pop_report p) <| patternLocked_ := false |>
                   <| reacquisitionReference_ := patternHistoryCursor_ (pop_report p) |>).
      assert (policy_rel p0 (s <| reports := rs |>)) as H0 by (by apply policy_rel_lock).
      pose proof (replay_history_eq p0 k (p_history _ _ H0) Hk Hcur) as Erep. cbv zeta in Erep.
      rewrite <- (p_recent _ _ H0) in Erep. cbn [recent] in Erep.
      assert (length (take 8 (recent s)) = 8%nat) as Hl.
      { change (recent s) with (recent (s <| reports := rs |>)). rewrite (p_recent _ _ H0).
        rewrite length_take, length_app, length_drop, length_take, (p_history _ _ H0). lia. }
      pose proof (record_rel (take 8 (recent s)) _ _ H0 Hi Hl) as Hrec.
      cbv zeta. change (recent s) with (recent (s <| reports := rs |>)) in *. rewrite <- Erep in *.
      by split.
Qed.

Lemma next_packet_rel p s :
  policy_rel p s →
  let '(n, p') := AudioPacketPolicy_nextPacketFrames p in
  let '(n', s') := next_packet s in
  n = n' ∧ policy_rel p' s'.
Proof.
  intros H. unfold AudioPacketPolicy_nextPacketFrames, next_packet. rewrite (p_rate _ _ H).
  change (8000 =? 8000) with true. cbv iota. pose proof (p_rest _ _ H) as Hrest.
  destruct (Z.eqb_spec (patternIndex_ p) 0) as [Hi|Hi]; rewrite Hrest.
  - pose proof (select_pattern_rel p s H Hi) as Hs. destruct (next_millisecond s) as [ms s'].
    destruct Hs as (Hrel & Hpat & Hidx & Hlen). set (p' := select_pattern p) in *.
    rewrite Hpat, Hidx. split; [by destruct ms|].
    destruct Hrel as [H1 H2 H3 H4 H5 H6 H7 H8 H9 H10 H11 H12 H13]. split; cbn; try done.
    + rewrite Hidx. vm_compute. split; congruence.
    + rewrite Hidx. cbn. rewrite Hpat. by destruct ms.
  - pose proof (p_index _ _ H) as Hx. pose proof (p_pattern _ _ H) as Hl.
    destruct H as [H1 H2 H3 H4 H5 H6 H7 H8 H9 H10 H11 H12 H13].
    destruct (drop (Z.to_nat (patternIndex_ p)) (feedbackPattern_ p)) as [|y ys] eqn:Ed.
    { apply (f_equal length) in Ed. rewrite length_drop in Ed. cbn in Ed. lia. }
    split.
    + cbn [hd]. assert (feedbackPattern_ p !! Z.to_nat (patternIndex_ p) = Some y) as Ey.
      { replace (Z.to_nat (patternIndex_ p)) with (Z.to_nat (patternIndex_ p) + 0)%nat by lia.
        by rewrite <- lookup_drop, Ed. }
      unfold rd. by rewrite (list_lookup_total_correct _ _ _ Ey).
    + pose proof (Z.mod_pos_bound (patternIndex_ p + 1) 8 ltac:(lia)) as Hm.
      assert (u8 ((patternIndex_ p + 1) mod 8) = (patternIndex_ p + 1) mod 8) as Eu
        by (apply u8_id; unfold is_u8; lia).
      split; cbn; rewrite ?Eu; try done.
      * assert (ys = drop (Z.to_nat (patternIndex_ p + 1)) (feedbackPattern_ p)) as ->.
        { replace (Z.to_nat (patternIndex_ p + 1)) with (Z.to_nat (patternIndex_ p) + 1)%nat by lia.
          rewrite <- drop_drop, Ed. done. }
        destruct (Z.eq_dec (patternIndex_ p) 7) as [->|].
        -- cbn. apply drop_ge. lia.
        -- rewrite Z.mod_small by lia. by replace (patternIndex_ p + 1 =? 0) with false by lia.
Qed.

Lemma policy_step_rel e p s :
  policy_rel p s → (policy_step e p).1 = (spec_event e s).1 ∧ policy_rel (policy_step e p).2 (spec_event e s).2.
Proof.
  intros H. destruct e as [f| |]; cbn [policy_step spec_event].
  - split; [done|]. cbn [snd]. unfold AudioPacketPolicy_observeFeedback, playable, kMinimumFrames, kMaximumFrames.
    replace ((f >=? 42) && (f <=? 46)) with ((42 <=? f) && (f <=? 46)) by lia.
    destruct ((42 <=? f) && (f <=? 46)); [|done]. by apply queue_report_rel, window_report_rel.
  - split; [done|]. by apply queue_report_rel.
  - pose proof (next_packet_rel p s H) as Hn.
    destruct (AudioPacketPolicy_nextPacketFrames p) as [n p'], (next_packet s) as [n' s'].
    destruct Hn as [-> Hn]. done.
Qed.

Lemma run_rel es p s :
  policy_rel p s →
  (run policy_step es p).1 = (run spec_event es s).1 ∧
  policy_rel (run policy_step es p).2 (run spec_event es s).2.
Proof.
  revert p s. induction es as [|e es IH]; intros p s H; [done|]. cbn [run].
  destruct (policy_step_rel e p s H) as [E1 H'].
  destruct (policy_step e p) as [o p'], (spec_event e s) as [o' s']. cbn [fst snd] in *.
  destruct (IH p' s' H') as [E2 H2].
  destruct (run policy_step es p') as [os p''], (run spec_event es s') as [os' s'']. cbn [fst snd] in *.
  by subst.
Qed.

(** ** The policy of the runtime *)

Definition start_schedule : schedule :=
  {| reports := []; rest := [];
     recent := map (λ i, u8 (5 + i mod 2 + (if i mod 80 =? 0 then 1 else 0))) (seqZ 0 128);
     fraction := 0 |}.

Lemma new_rel rate p : AudioPacketPolicy_new rate 8000 = Some p → policy_rel p start_schedule.
Proof.
  unfold AudioPacketPolicy_new. generalize (replicate (Z.to_nat kFeedbackWindow) 0).
  intros window. case_if; [done|]. intros [= <-]. split; cbn [serviceIntervalsPerSecond_ feedbackPattern_ patternIndex_ patternHistory_
    patternHistoryCursor_ feedbackQueue_ feedbackQueueRead_ feedbackQueueCount_ nominalFraction_];
    try done; try lia.
  exists 0. lia.
Qed.

Definition total (l : list Z) : Z := foldr Z.add 0 l.

Lemma total_append l k : total (l ++ k) = total l + total k.
Proof. unfold total. induction l as [|x l IH]; [done|]. cbn [app foldr]. rewrite IH. lia. Qed.

(** A millisecond of packets. *)
Record millisecond (ms : list Z) : Prop := {
  ms_length : length ms = 8%nat;
  ms_packets : Forall (λ n, 5 <= n <= 6) ms;
  ms_total : 42 <= total ms <= 46
}.

Lemma pattern_millisecond f : playable f = true → millisecond (pattern_of f) ∧ total (pattern_of f) = f.
Proof.
  unfold playable. intros H. assert (f = 42 ∨ f = 43 ∨ f = 44 ∨ f = 45 ∨ f = 46) as Hc by lia.
  destruct Hc as [->|[->|[->|[->| ->]]]]; (split; [split; [done| |]|done]);
    try (repeat constructor; vm_compute; congruence); vm_compute; split; congruence.
Qed.

(** The history is made of milliseconds. *)
Definition history_ok (s : schedule) : Prop :=
  ∃ gs, recent s = concat gs ∧ Forall millisecond gs ∧ (0 < length gs)%nat.

Lemma start_history : history_ok start_schedule.
Proof.
  exists (map (λ k, slice (recent start_schedule) (8 * k) 8) (seqZ 0 16)).
  split; [vm_compute; reflexivity|]. split; [|vm_compute; lia].
  apply Forall_fmap, Forall_seqZ. intros k Hk. cbv beta.
  assert (k = 0 ∨ k = 1 ∨ k = 2 ∨ k = 3 ∨ k = 4 ∨ k = 5 ∨ k = 6 ∨ k = 7 ∨ k = 8 ∨ k = 9 ∨ k = 10 ∨
          k = 11 ∨ k = 12 ∨ k = 13 ∨ k = 14 ∨ k = 15) as Hc by lia.
  repeat (destruct Hc as [->|Hc]); try subst k; (split; [vm_compute; reflexivity| |]);
    vm_compute; try (split; congruence); repeat (constructor; [split; congruence|]); constructor.
Qed.

Lemma next_millisecond_ok s :
  history_ok s →
  let '(ms, s') := next_millisecond s in millisecond ms ∧ history_ok s' ∧ rest s' = rest s.
Proof.
  intros (gs & Eg & Hgs & Hn). unfold next_millisecond. destruct (reports s) as [|r rs].
  - case_if; (split; [|split; [by exists gs|done]]).
    + exact (proj1 (pattern_millisecond 45 eq_refl)).
    + exact (proj1 (pattern_millisecond 44 eq_refl)).
  - destruct gs as [|m gs]; [cbn in Hn; lia|]. inversion Hgs as [|? ? Hm Hgs']; subst. clear Hgs. rename Hgs' into Hgs.
    cbn [concat] in Eg.
    assert (take 8 (recent s) = m ∧ drop 8 (recent s) = concat gs) as [E1 E2].
    { rewrite Eg. replace 8%nat with (length m) by apply Hm. by rewrite take_app_length, drop_app_length. }
    assert (millisecond (if playable r then pattern_of r else take 8 (recent s))) as Hms.
    { destruct (playable r) eqn:Ep; [exact (proj1 (pattern_millisecond r Ep))|by rewrite E1]. }
    split; [exact Hms|]. split; [|done]. exists (gs ++ [if playable r then pattern_of r else take 8 (recent s)]).
    cbn [recent set_field]. rewrite E2, concat_app. cbn [concat]. rewrite app_nil_r. split; [done|].
    rewrite length_app. split; [|cbn; lia]. apply Forall_app. split; [done|]. by apply Forall_singleton.
Qed.

(** What was played and what remains of the millisecond are whole milliseconds. *)
Lemma run_milliseconds es s :
  history_ok s →
  let '(out, s') := run spec_event es s in
  ∃ gs, out ++ rest s' = rest s ++ concat gs ∧ Forall millisecond gs.
Proof.
  revert s. induction es as [|e es IH]; intros s Hs; cbn [run].
  { exists []. by rewrite app_nil_r. }
  assert (∀ s1, history_ok s1 → rest s1 = rest s →
    let '(outs, s') := run spec_event es s1 in
    ∃ gs, outs ++ rest s' = rest s ++ concat gs ∧ Forall millisecond gs) as Hsame.
  { intros s1 H1 E1. rewrite <- E1. by apply IH. }
  destruct e as [f| |]; cbn [spec_event].
  - specialize (Hsame (if playable f then add_report f s else s)).
    destruct (run spec_event es _) as [outs s']. apply Hsame; by destruct (playable f).
  - specialize (Hsame (add_report 0 s)). destruct (run spec_event es _) as [outs s']. by apply Hsame.
  - unfold next_packet. destruct (rest s) as [|x xs] eqn:Er.
    + pose proof (next_millisecond_ok s Hs) as Hnm. destruct (next_millisecond s) as [ms s1].
      destruct Hnm as (Hms & Hh & _). cbv beta iota.
      match goal with |- context [run spec_event es ?x] =>
        specialize (IH x Hh); destruct (run spec_event es x) as [outs s'] end.
      destruct IH as (gs & E & Hgs). exists (ms :: gs). cbn [app]. rewrite E. cbn [rest set_field].
      split; [|by constructor]. pose proof (ms_length _ Hms). by destruct ms.
    + cbv beta iota. match goal with |- context [run spec_event es ?x] =>
        specialize (IH x Hs); destruct (run spec_event es x) as [outs s'] end.
      destruct IH as (gs & E & Hgs). exists gs. cbn [app]. by rewrite E.
Qed.

(** C13: whatever reports arrive between the packets, the policy plays the schedule: each
    millisecond of eight packets holds exactly the frames of the oldest queued report, a malformed report
    repeats the packets recorded sixteen milliseconds ago, and without reports the nominal 44 or 45
    frames are played.  Every packet carries five or six frames and every complete millisecond 42 to 46. *)
Theorem packets_follow_feedback rate p es :
  AudioPacketPolicy_new rate 8000 = Some p →
  let out := (run policy_step es p).1 in
  out = (run spec_event es start_schedule).1 ∧
  Forall (λ n, 5 <= n <= 6) out ∧
  (∀ k, (8 * (k + 1) <= length out)%nat → 42 <= total (take 8 (drop (8 * k) out)) <= 46) ∧
  (∀ f, 42 <= f <= 46 → total (pattern_of f) = f).
Proof.
  intros Hnew out. destruct (run_rel es p start_schedule (new_rel rate p Hnew)) as [E _].
  fold out in E. split; [exact E|].
  pose proof (run_milliseconds es start_schedule start_history) as Hm.
  destruct (run spec_event es start_schedule) as [o s']. cbn [fst] in E. subst o. clearbody out.
  destruct Hm as (gs & E & Hgs). cbn [start_schedule rest app] in E.
  assert (Forall (λ n, 5 <= n <= 6) (concat gs)) as Hall.
  { apply Forall_concat. eapply Forall_impl; [|exact Hgs]. intros ms [_ H _]. exact H. }
  split; [|split].
  - rewrite <- E in Hall. by apply Forall_app in Hall as [? _].
  - intros k Hk. assert (length (concat gs) = 8 * length gs)%nat as Hl.
    { clear -Hgs. induction Hgs as [|m gs Hm _ IH]; [done|]. cbn. rewrite length_app, IH, (ms_length _ Hm). lia. }
    assert (k < length gs)%nat as Hkg.
    { apply (f_equal length) in E. rewrite length_app in E. lia. }
    destruct (lookup_lt_is_Some_2 gs k Hkg) as [m Em].
    assert (take 8 (drop (8 * k) out) = m) as ->.
    { transitivity (take 8 (drop (8 * k) (out ++ rest s'))).
      - rewrite drop_app_le, take_app_le by (rewrite ?length_drop; lia). done.
      - rewrite E. clear -Hgs Em. revert k Em. induction Hgs as [|x gs Hx _ IH]; intros k Em; [done|].
        cbn [concat]. destruct k as [|k].
        + cbn in Em. simplify_eq. rewrite Nat.mul_0_r, drop_0. rewrite <- (ms_length _ Hx). by rewrite take_app_length.
        + cbn in Em. replace (8 * S k)%nat with (length x + 8 * k)%nat by (rewrite (ms_length _ Hx); lia).
          rewrite <- drop_drop, drop_app_length. by apply IH. }
    apply (proj1 (Forall_lookup _ _) Hgs k m Em).
  - intros f Hf. apply pattern_millisecond. unfold playable. lia.
Qed.

Lemma packets_follow_feedback_witness :
  ∃ p, AudioPacketPolicy_new 44100 8000 = Some p ∧
    (run policy_step (Feedback 43 :: replicate 8 Packet) p).1 = pattern_of 43.
Proof.
  destruct (AudioPacketPolicy_new 44100 8000) as [p|] eqn:E; [|done]. exists p. split; [done|].
  destruct (packets_follow_feedback 44100 p (Feedback 43 :: replicate 8 Packet) E) as [-> _]. by vm_compute.
Defined.

(** ** Without reports *)

Lemma run_app {S} (step : policy_event → S → list Z * S) es es' s :
  run step (es ++ es') s =
    let '(o1, s1) := run step es s in let '(o2, s2) := run step es' s1 in (o1 ++ o2, s2).
Proof.
  revert s. induction es as [|e es IH]; intros s; cbn [run app].
  { by destruct (run step es' s). }
  destruct (step e s) as [o s1]. rewrite IH. destruct (run step es s1) as [o1 s2].
  destruct (run step es' s2) as [o2 s3]. by rewrite app_assoc.
Qed.

Lemma run_millisecond s :
  history_ok s → rest s = [] →
  run spec_event (replicate 8 Packet) s =
    ((next_millisecond s).1, (next_millisecond s).2 <| rest := [] |>).
Proof.
  intros Hh Hr. pose proof (next_millisecond_ok s Hh) as Hn.
  cbn [replicate run spec_event]. unfold next_packet at 1. rewrite Hr.
  destruct (next_millisecond s) as [ms s']. destruct Hn as ([Hl _ _] & _ & _).
  do 9 (destruct ms as [|? ms]; try done).
Qed.

(** Nominal cadence: without reports [n] milliseconds carry exactly the whole frames of 44.1 kHz. *)
Lemma nominal_cadence n :
  let '(out, s) := run spec_event (replicate (8 * n) Packet) start_schedule in
  total out = 441 * Z.of_nat n / 10 ∧ fraction s = (100 * Z.of_nat n) mod 1000 ∧
  reports s = [] ∧ rest s = [] ∧ history_ok s.
Proof.
  induction n as [|n IH].
  { cbn. split; [done|]. split; [done|]. split; [done|]. split; [done|apply start_history]. }
  replace (8 * S n)%nat with (8 * n + 8)%nat by lia. rewrite replicate_add, run_app.
  destruct (run spec_event (replicate (8 * n) Packet) start_schedule) as [out s].
  destruct IH as (Et & Ef & Ers & Er & Hh). rewrite (run_millisecond s Hh Er).
  pose proof (next_millisecond_ok s Hh) as Hn. unfold next_millisecond in *. rewrite Ers in *.
  assert (1000 * ((100 * Z.of_nat n) / 1000) + fraction s = 100 * Z.of_nat n) as Ediv
    by (rewrite Ef; symmetry; apply Z.div_mod; lia).
  pose proof (Z.mod_pos_bound (100 * Z.of_nat n) 1000 ltac:(lia)) as Hb. rewrite <- Ef in Hb.
  set (d := (100 * Z.of_nat n) / 1000) in *. clearbody d. clear Ef.
  assert (total out = 44 * Z.of_nat n + d) as Et'.
  { rewrite Et. symmetry. apply (Z.div_unique_pos _ _ _ (fraction s / 100)).
    - split; [apply Z.div_pos; lia|apply Z.div_lt_upper_bound; lia].
    - assert (fraction s / 100 = Z.of_nat n - 10 * d) as ->; [|lia].
      symmetry. apply (Z.div_unique_pos _ _ _ 0); lia. }
  rewrite Nat2Z.inj_succ.
  destruct (Z.geb_spec (fraction s + 100) 1000) as [Hge|Hlt]; destruct Hn as (_ & Hh' & _); cbn [fst snd];
    rewrite total_append, Et'; cbn [set_field fraction reports rest].
  - change (total (pattern_of 45)) with 45. split; [|split; [|done]].
    + apply (Z.div_unique_pos _ _ _ 0); lia.
    + apply (Z.mod_unique_pos _ _ (d + 1)); lia.
  - change (total (pattern_of 44)) with 44. split; [|split; [|done]].
    + apply (Z.div_unique_pos _ _ _ (Z.of_nat n + 1 - 10 * d)); lia.
    + apply (Z.mod_unique_pos _ _ d); lia.
Qed.

(** ** The measured rate *)

(** The reports the policy accepted, oldest first. *)
Fixpoint accepted_reports (es : list policy_event) : list Z :=
  match es with
  | [] => []
  | Feedback f :: es' => if playable f then f :: accepted_reports es' else accepted_reports es'
  | _ :: es' => accepted_reports es'
  end.

Record window_rel (rate : Z) (l : list Z) (p : AudioPacketPolicy) : Prop := {
  w_length : Z.of_nat (length (feedbackWindow_ p)) = kFeedbackWindow;
  w_count : feedbackCount_ p = Z.min (Z.of_nat (length l)) kFeedbackWindow;
  w_index : feedbackIndex_ p = Z.of_nat (length l) mod kFeedbackWindow;
  w_entries : ∀ j, 0 <= j < Z.of_nat (length l) → Z.of_nat (length l) - kFeedbackWindow <= j →
    l !! Z.to_nat j = Some (rd (feedbackWindow_ p) (j mod kFeedbackWindow));
  w_sum : feedbackSum_ p = total (keep_newest (Z.to_nat kFeedbackWindow) l);
  w_range : Forall (λ f, 42 <= f <= 46) l;
  w_measured : measuredClockMilliHz_ p =
    if Z.of_nat (length l) <? kFeedbackWindow then rate * 1000
    else total (keep_newest (Z.to_nat kFeedbackWindow) l) * 1000000 / kFeedbackWindow
}.

Lemma total_range l : Forall (λ f, 42 <= f <= 46) l → 0 <= total l <= 46 * Z.of_nat (length l).
Proof. unfold total. induction 1 as [|x l Hx _ IH]; [cbn; lia|]. cbn [foldr length]. lia. Qed.

Lemma keep_newest_snoc n l r :
  (0 < n)%nat →
  total (keep_newest n (l ++ [r])) =
    total (keep_newest n l) + r - (if (n <=? length l)%nat then l !!! (length l - n)%nat else 0).
Proof.
  intros Hn. unfold keep_newest. rewrite length_app. cbn [length].
  destruct (Nat.leb_spec n (length l)) as [Hle|Hgt].
  - rewrite drop_app_le, total_append by lia. cbn [total foldr].
    assert (drop (length l - n) l = l !!! (length l - n)%nat :: drop (length l + 1 - n) l) as ->.
    { destruct (lookup_lt_is_Some_2 l (length l - n) ltac:(lia)) as [x Hx].
      rewrite (list_lookup_total_correct _ _ _ Hx), (drop_S _ _ _ Hx). f_equal. f_equal. lia. }
    cbn [total foldr]. unfold total. lia.
  - replace (length l + 1 - n)%nat with 0%nat by lia. replace (length l - n)%nat with 0%nat by lia.
    rewrite !drop_0, total_append. cbn [total foldr]. lia.
Qed.

Definition newest_total (l : list Z) : Z := total (keep_newest (Z.to_nat kFeedbackWindow) l).

Lemma newest_total_range l :
  Forall (λ f, 42 <= f <= 46) l → 0 <= newest_total l <= 46 * kFeedbackWindow.
Proof.
  intros Hl. assert (kFeedbackWindow = 40000) as Ek by done.
  pose proof (total_range (keep_newest (Z.to_nat kFeedbackWindow) l) ltac:(by apply Forall_drop)) as Ht.
  unfold newest_total. unfold keep_newest in *. rewrite length_drop in Ht. lia.
Qed.

(** The slot written is that of the new report. *)
Lemma window_entry_step rate l p r j :
  window_rel rate l p → 0 <= j < Z.of_nat (length l + 1) →
  Z.of_nat (length l + 1) - kFeedbackWindow <= j →
  (l ++ [r]) !! Z.to_nat j =
    Some (rd (wr (feedbackWindow_ p) (feedbackIndex_ p) r) (j mod kFeedbackWindow)).
Proof.
  intros [H1 _ H3 H4 _ _ _] Hj Hjk. assert (kFeedbackWindow = 40000) as Ek by done. rewrite H3.
  pose proof (Z.mod_pos_bound (Z.of_nat (length l)) kFeedbackWindow ltac:(lia)).
  pose proof (Z.mod_pos_bound j kFeedbackWindow ltac:(lia)).
  destruct (Z.eq_dec j (Z.of_nat (length l))) as [->|Hne].
  - rewrite Nat2Z.id, lookup_app_r, Nat.sub_diag by lia. rewrite rd_wr_eq by lia. done.
  - rewrite lookup_app_l, H4 by lia. rewrite rd_wr_ne; [done|lia|lia|]. intros Heq.
    pose proof (Z.div_mod (Z.of_nat (length l)) kFeedbackWindow ltac:(lia)).
    pose proof (Z.div_mod j kFeedbackWindow ltac:(lia)). nia.
Qed.

(** The slot that is overwritten holds the report that leaves the window. *)
Lemma window_oldest rate l p :
  window_rel rate l p → kFeedbackWindow <= Z.of_nat (length l) →
  rd (feedbackWindow_ p) (feedbackIndex_ p) = l !!! (length l - Z.to_nat kFeedbackWindow)%nat.
Proof.
  intros [_ _ H3 H4 _ _ _] Hf. assert (kFeedbackWindow = 40000) as Ek by done.
  specialize (H4 (Z.of_nat (length l) - kFeedbackWindow) ltac:(lia) ltac:(lia)).
  replace (Z.to_nat (Z.of_nat (length l) - kFeedbackWindow))
    with (length l - Z.to_nat kFeedbackWindow)%nat in H4 by lia.
  apply list_lookup_total_correct in H4. rewrite H4, H3. f_equal.
  replace (Z.of_nat (length l)) with (Z.of_nat (length l) - kFeedbackWindow + 1 * kFeedbackWindow) at 1 by lia.
  by rewrite Z.mod_add by lia.
Qed.

Ltac fields := cbn [set_field feedbackWindow_ feedbackCount_ feedbackIndex_ feedbackSum_
  measuredClockMilliHz_].

Lemma window_report_step rate l p r :
  window_rel rate l p → 42 <= r <= 46 → window_rel rate (l ++ [r]) (window_report r p).
Proof.
  intros H Hr. assert (kFeedbackWindow = 40000) as Ek by done.
  pose proof (keep_newest_snoc (Z.to_nat kFeedbackWindow) l r ltac:(lia)) as Es.
  pose proof (window_oldest rate l p H) as Eo. pose proof (window_entry_step rate l p r) as Hent.
  pose proof H as [H1 H2 H3 _ H5 H6 H7].
  assert (Forall (λ f, 42 <= f <= 46) (l ++ [r])) as H6'
    by (apply Forall_app; split; [done|by apply Forall_singleton]).
  pose proof (newest_total_range _ H6) as Hb1. pose proof (newest_total_range _ H6') as Hb2.
  fold (newest_total l) in *. fold (newest_total (l ++ [r])) in *.
  assert (feedbackIndex_ p + 1 = Z.of_nat (length l) mod kFeedbackWindow + 1) as Ei by lia.
  assert ((feedbackIndex_ p + 1) mod kFeedbackWindow = Z.of_nat (length l + 1) mod kFeedbackWindow) as Hidx.
  { rewrite Ei, Zplus_mod_idemp_l. f_equal. lia. }
  unfold window_report. rewrite H2.
  destruct (Z.eqb_spec (Z.min (Z.of_nat (length l)) kFeedbackWindow) kFeedbackWindow) as [Hf|Hf].
  - replace (Z.to_nat kFeedbackWindow <=? length l)%nat with true in Es by lia.
    assert (u64 (u64 (newest_total l - rd (feedbackWindow_ p) (feedbackIndex_ p)) + r) =
            newest_total (l ++ [r])) as Eu.
    { rewrite Eo, Es by lia. unfold u64. rewrite Zplus_mod_idemp_l, Z.mod_small by lia. lia. }
    fields. rewrite H2, Hf, Z.eqb_refl.
    split; fields; rewrite ?length_app, ?length_wr; cbn [length]; fold (newest_total (l ++ [r])); auto; try lia.
    + by rewrite H5.
    + rewrite H5, Eu. replace (_ <? kFeedbackWindow) with false by lia.
      f_equal. apply u64_id. unfold is_u64. lia.
  - replace (Z.to_nat kFeedbackWindow <=? length l)%nat with false in Es by lia.
    assert (u64 (newest_total l + r) = newest_total (l ++ [r])) as Eu
      by (rewrite u64_id by (unfold is_u64; lia); lia).
    fields. rewrite H2.
    destruct (Z.eqb_spec (Z.min (Z.of_nat (length l)) kFeedbackWindow + 1) kFeedbackWindow) as [Hn|Hn];
      split; fields; rewrite ?length_app, ?length_wr; cbn [length]; fold (newest_total (l ++ [r])); auto; try lia.
    + by rewrite H5.
    + rewrite H5, Eu. replace (_ <? kFeedbackWindow) with false by lia. f_equal. apply u64_id. unfold is_u64. lia.
    + by rewrite H5.
    + rewrite H7. replace (Z.of_nat (length l) <? kFeedbackWindow) with true by lia.
      by replace (_ <? kFeedbackWindow) with true by lia.
Qed.

(** Playing packets and queueing reports leave the window alone. *)
Lemma window_rel_eq rate l p p' :
  feedbackWindow_ p' = feedbackWindow_ p → feedbackCount_ p' = feedbackCount_ p →
  feedbackIndex_ p' = feedbackIndex_ p → feedbackSum_ p' = feedbackSum_ p →
  measuredClockMilliHz_ p' = measuredClockMilliHz_ p → window_rel rate l p → window_rel rate l p'.
Proof.
  intros E1 E2 E3 E4 E5 [H1 H2 H3 H4 H5 H6 H7]. split; rewrite ?E1, ?E2, ?E3, ?E4, ?E5; try done.
Qed.

Lemma queue_report_window rate l r p : window_rel rate l p → window_rel rate l (queue_report r p).
Proof. unfold queue_report. case_if; by apply window_rel_eq. Qed.

Lemma record_history_window rate l ms p : window_rel rate l p → window_rel rate l (record_history ms p).
Proof. by apply window_rel_eq. Qed.

Lemma next_packet_window rate l p :
  window_rel rate l p → window_rel rate l (AudioPacketPolicy_nextPacketFrames p).2.
Proof.
  intros H. unfold AudioPacketPolicy_nextPacketFrames.
  destruct (_ =? 8000); [|case_if; by apply (window_rel_eq _ _ p)].
  assert (window_rel rate l (select_pattern p)) as Hs.
  { unfold select_pattern. destruct (negb _); [|by apply (window_rel_eq _ _ p)].
    destruct (AudioFeedbackPatternPolicy_build _ _) as [[] ms].
    - cbv zeta. assert (∀ q, window_rel rate l q → window_rel rate l (record_history ms q)) as Hr
        by (intros; by apply record_history_window).
      case_if; [eapply window_rel_eq; cycle 5|]; try (apply Hr; by apply (window_rel_eq _ _ p)); done.
    - apply record_history_window. by apply (window_rel_eq _ _ p). }
  cbn [snd]. destruct (_ =? 0); [by apply (window_rel_eq _ _ (select_pattern p))|by apply (window_rel_eq _ _ p)].
Qed.

Lemma policy_step_window rate l e p :
  window_rel rate l p → window_rel rate (l ++ accepted_reports [e]) (policy_step e p).2.
Proof.
  intros H. destruct e as [f| |]; cbn [policy_step accepted_reports snd]; rewrite ?app_nil_r.
  - unfold AudioPacketPolicy_observeFeedback, playable, kMinimumFrames, kMaximumFrames.
    replace ((f >=? 42) && (f <=? 46)) with ((42 <=? f) && (f <=? 46)) by lia.
    destruct ((42 <=? f) && (f <=? 46)) eqn:E; [|by rewrite app_nil_r].
    apply queue_report_window, window_report_step; [done|lia].
  - by apply queue_report_window.
  - pose proof (next_packet_window rate l p H) as Hn.
    by destruct (AudioPacketPolicy_nextPacketFrames p).
Qed.

Lemma accepted_reports_app es es' : accepted_reports (es ++ es') = accepted_reports es ++ accepted_reports es'.
Proof.
  induction es as [|[f| |] es IH]; cbn [app accepted_reports]; [done| |done|done].
  destruct (playable f); by rewrite IH.
Qed.

Lemma run_window rate es l p :
  window_rel rate l p → window_rel rate (l ++ accepted_reports es) (run policy_step es p).2.
Proof.
  revert l p. induction es as [|e es IH]; intros l p H; cbn [run]; [by rewrite app_nil_r|].
  pose proof (policy_step_window rate l e p H) as Hs. destruct (policy_step e p) as [o p']. cbn [snd] in Hs.
  specialize (IH _ _ Hs). destruct (run policy_step es p') as [os p'']. cbn [snd] in *.
  change (e :: es) with ([e] ++ es). by rewrite accepted_reports_app, app_assoc.
Qed.

Lemma new_window rate p : AudioPacketPolicy_new rate 8000 = Some p → window_rel rate [] p.
Proof.
  unfold AudioPacketPolicy_new. pose proof (length_replicate (Z.to_nat kFeedbackWindow) 0) as Hl.
  revert Hl. generalize (replicate (Z.to_nat kFeedbackWindow) 0). intros window Hl.
  case_if; [done|]. intros [= <-]. assert (kFeedbackWindow = 40000) as Ek by done.
  split; cbn [feedbackWindow_ feedbackCount_ feedbackIndex_ feedbackSum_ measuredClockMilliHz_];
    [lia|done|done| |done|done|done]. cbn [length]. intros j ?. lia.
Qed.

(** ** The resampling rate *)

Definition not_nan (x : spec_float) : Prop := x ≠ S754_nan.

Lemma round_aux_not_nan s m e l : 0 <= m → not_nan (binary_round_aux 53 1024 s m e l).
Proof.
  intros Hm. unfold binary_round_aux, not_nan.
  pose proof (shr_m_shift (shr_record_of_loc m l) e (fexp 53 1024 (Zdigits2 m + e) - e)) as H1.
  unfold shr_fexp at 1. destruct (shr (shr_record_of_loc m l) e _) as [mrs1 e1]. cbn [fst] in H1.
  assert (shr_m (shr_record_of_loc m l) = m) as El by (by destruct l as [|[]]).
  rewrite El in H1. specialize (H1 Hm).
  assert (0 <= shr_m mrs1) as Hm1 by (rewrite H1; apply Z.div_pos; [done|apply Z.pow_pos_nonneg; lia]).
  set (m2 := round_nearest_even (shr_m mrs1) (loc_of_shr_record mrs1)).
  assert (0 <= m2) as Hm2.
  { subst m2. unfold round_nearest_even. destruct (loc_of_shr_record mrs1) as [|[]]; try lia.
    destruct (Z.even _); lia. }
  clearbody m2. unfold shr_fexp. cbn [shr_record_of_loc].
  set (n := fexp 53 1024 (Zdigits2 m2 + e1) - e1). clearbody n.
  pose proof (shr_m_shift (Build_shr_record m2 false false) e1 n Hm2) as H2.
  destruct (shr (Build_shr_record m2 false false) e1 n) as [mrs2 e2]. cbn [fst shr_m] in H2.
  assert (0 <= shr_m mrs2) by (rewrite H2; apply Z.div_pos; [done|apply Z.pow_pos_nonneg; lia]).
  destruct (shr_m mrs2) as [|q|]; [done| |lia]. by case_match.
Qed.

Lemma normalize_not_nan m e b : not_nan (binary_normalize 53 1024 m e b).
Proof.
  destruct m; cbn [binary_normalize]; [done| |]; unfold binary_round; case_match; apply round_aux_not_nan; lia.
Qed.

Lemma lt_pos m1 e1 m2 e2 :
  d_lt (S754_finite false m1 e1) (S754_finite false m2 e2) =
    ((e1 <? e2) || ((e1 =? e2) && (Zpos m1 <? Zpos m2))).
Proof.
  unfold d_lt, SFltb. cbn [SFcompare].
  destruct (Z.compare_spec e1 e2) as [->|H|H].
  - rewrite Z.ltb_irrefl, Z.eqb_refl. cbn [orb andb]. unfold Z.ltb. cbn [Z.compare].
    unfold Pos.compare. by destruct (Pos.compare_cont Eq m1 m2).
  - by replace (e1 <? e2) with true by lia.
  - replace (e1 <? e2) with false by lia. by replace (e1 =? e2) with false by lia.
Qed.

(** The literals of the last clamp; anything between them is a valid rate. *)
Lemma clamped_step_valid v :
  not_nan v → narrow v →
  let r := d_clamp v (d_lit 995 1000) (d_lit 1005 1000) in
  d_lt r (d_lit 995 1000) = false ∧ d_lt (d_lit 1005 1000) r = false ∧ valid_step r = r ∧ narrow r.
Proof.
  intros Hv Hn. cbv zeta. unfold d_clamp.
  assert (d_lit 995 1000 = S754_finite false 8962163258467287 (-53)) as El by (vm_compute; done).
  assert (d_lit 1005 1000 = S754_finite false 4526117625507348 (-52)) as Eh by (vm_compute; done).
  assert (d_lit 1 2 = S754_finite false 4503599627370496 (-53)) as E05 by (vm_compute; done).
  assert (d_lit 3 2 = S754_finite false 6755399441055744 (-52)) as E15 by (vm_compute; done).
  unfold valid_step. rewrite El, Eh, E05, E15. clear El Eh E05 E15.
  destruct (d_lt v _) eqn:E1; [by vm_compute|]. destruct (d_lt _ v) eqn:E2; [by vm_compute|].
  split; [done|]. split; [done|]. split; [|done].
  destruct v as [[]|[]| |[] m e]; try done.
  rewrite lt_pos in E1, E2. cbn [sf_isfinite negb orb]. rewrite !lt_pos.
  clear Hv Hn. set (a := 4503599627370496) in *. set (b := 6755399441055744) in *.
  set (c := 8962163258467287) in *. set (d := 4526117625507348) in *.
  assert (a < c ∧ d < b) as [? ?] by done. clearbody a b c d.
  replace (_ || _) with false; [done|]. symmetry. apply orb_false_iff. split; lia.
Qed.

(** The rates the effective clock allows, at 44.1 kHz. *)
Definition finite_step (c : Z) : bool :=
  match d_div (d_mul (d_of_Z 44100) (d_of_Z 1000)) (d_of_Z c) with
  | S754_finite false _ _ => true
  | _ => false
  end.

Lemma nominal_step_finite c :
  44100000 <= c <= 44100300 →
  ∃ m e, d_div (d_mul (d_of_Z 44100) (d_of_Z 1000)) (d_of_Z c) = S754_finite false m e.
Proof.
  intros Hc. assert (forallb finite_step (seqZ 44100000 301) = true) as H by (vm_compute; reflexivity).
  assert (Forall (λ x, finite_step x = true) (seqZ 44100000 301)) as H'.
  { revert H. generalize (seqZ 44100000 301). induction l as [|x l IH]; cbn [forallb]; [constructor|].
    intros [? ?]%andb_prop. constructor; auto. }
  rewrite Forall_seqZ in H'. specialize (H' c ltac:(lia)). clear H. unfold finite_step in H'.
  destruct (d_div _ _) as [| | |[] m e]; try done. by exists m, e.
Qed.

Lemma add_not_nan x y : sf_isfinite x = true → not_nan y → not_nan (d_add x y).
Proof.
  destruct x as [s| | |s m e]; try done; destruct y as [s'| | |s' m' e']; try done; intros _ _.
  - by destruct s, s'.
  - apply normalize_not_nan.
Qed.

Lemma sub_not_nan x y : not_nan x → sf_isfinite y = true → not_nan (d_sub x y).
Proof.
  destruct x as [s| | |s m e]; try done; destruct y as [s'| | |s' m' e']; try done; intros _ _.
  - by destruct s, s'.
  - apply normalize_not_nan.
Qed.

Lemma mul_not_nan x s m e : not_nan x → not_nan (d_mul x (S754_finite s m e)).
Proof. destruct x; try done. intros _. apply round_aux_not_nan. lia. Qed.

Lemma policy_step_rate e p : sampleRateHz_ (policy_step e p).2 = sampleRateHz_ p.
Proof.
  assert (∀ r q, sampleRateHz_ (queue_report r q) = sampleRateHz_ q) as Hq
    by (intros r q; unfold queue_report; by case_if).
  destruct e as [f| |]; cbn [policy_step snd].
  - unfold AudioPacketPolicy_observeFeedback. case_if; [|done]. rewrite Hq. unfold window_report.
    repeat (destruct (_ =? kFeedbackWindow); cbn [set_field]; try done).
  - apply Hq.
  - unfold AudioPacketPolicy_nextPacketFrames. destruct (_ =? 8000); [|by case_if].
    cbn [snd set_field]. destruct (_ =? 0); [|done]. unfold select_pattern. destruct (negb _); [|done].
    destruct (AudioFeedbackPatternPolicy_build _ _) as [[] ?]; [|done]. by case_if.
Qed.

Lemma run_rate es p : sampleRateHz_ (run policy_step es p).2 = sampleRateHz_ p.
Proof.
  revert p. induction es as [|e es IH]; intros p; [done|]. cbn [run].
  pose proof (policy_step_rate e p) as Er. destruct (policy_step e p) as [o p']. cbn [snd] in Er.
  specialize (IH p'). destruct (run policy_step es p') as [os p'']. cbn [snd] in *. congruence.
Qed.

Lemma new_rate rate p : AudioPacketPolicy_new rate 8000 = Some p → sampleRateHz_ p = rate.
Proof.
  unfold AudioPacketPolicy_new. generalize (replicate (Z.to_nat kFeedbackWindow) 0).
  intros w. case_if; [done|]. by intros [= <-].
Qed.

Lemma effective_clock_eq p :
  AudioPacketPolicy_effectiveClockMilliHz p = Z.max 44100000 (Z.min 44100300 (measuredClockMilliHz_ p)).
Proof.
  unfold AudioPacketPolicy_effectiveClockMilliHz, clamp, kMinimumOutputRateMilliHz, kMaximumOutputRateMilliHz.
  case_ifs; lia.
Qed.

Lemma source_step_valid p queued :
  sampleRateHz_ p = 44100 →
  let step := AudioPacketPolicy_sourceFramesPerOutputFrame queued p in
  d_lt step (d_lit 995 1000) = false ∧ d_lt (d_lit 1005 1000) step = false ∧
  valid_step step = step ∧ narrow step.
Proof.
  intros Hrate step. unfold step, AudioPacketPolicy_sourceFramesPerOutputFrame. rewrite Hrate.
  set (trim := d_clamp _ (d_lit (-5) 1000) _). rewrite effective_clock_eq.
  destruct (nominal_step_finite (Z.max 44100000 (Z.min 44100300 (measuredClockMilliHz_ p))) ltac:(lia))
    as (m & e & Es).
  rewrite Es. apply clamped_step_valid; [|apply d_mul_narrow].
  assert (not_nan (d_add (d_of_Z 1) trim)) as Ht.
  { apply add_not_nan; [by vm_compute|]. subst trim. unfold d_clamp.
    destruct (d_lt _ (d_lit (-5) 1000)); [by vm_compute|]. destruct (d_lt (d_lit 5 1000) _); [by vm_compute|].
    assert (∃ m e, d_lit 2 1000000 = S754_finite false m e) as (m1 & e1 & ->) by (vm_compute; eauto).
    apply mul_not_nan, sub_not_nan; [apply normalize_not_nan|by vm_compute]. }
  destruct (d_add (d_of_Z 1) trim) as [s|s| |s m' e']; try done. apply round_aux_not_nan. lia.
Qed.

(** Whatever the queue and the reports, the resampling rate lies between 0.995 and 1.005, is a
    rate the ring accepts as it is, and follows the measured rate: the mean of the newest 40000 accepted
    reports once that many arrived, the nominal rate before, clamped to 44100.0 to 44100.3 Hz. *)
Theorem rate_follows_feedback p es queued :
  AudioPacketPolicy_new 44100 8000 = Some p →
  let p' := (run policy_step es p).2 in
  let l := accepted_reports es in
  let step := AudioPacketPolicy_sourceFramesPerOutputFrame queued p' in
  measuredClockMilliHz_ p' = (if Z.of_nat (length l) <? 40000 then 44100000
                              else newest_total l * 1000000 / 40000) ∧
  AudioPacketPolicy_effectiveClockMilliHz p' =
    Z.max 44100000 (Z.min 44100300 (measuredClockMilliHz_ p')) ∧
  d_lt step (d_lit 995 1000) = false ∧ d_lt (d_lit 1005 1000) step = false ∧ valid_step step = step.
Proof.
  intros Hnew p' l step. pose proof (run_window 44100 es [] p (new_window _ _ Hnew)) as Hw.
  rewrite app_nil_l in Hw. split; [apply (w_measured _ _ _ Hw)|]. split; [apply effective_clock_eq|].
  destruct (source_step_valid p' queued) as (H1 & H2 & H3 & _); [|done].
  unfold p'. rewrite run_rate. by apply new_rate.
Qed.

Lemma rate_follows_feedback_witness :
  ∃ p, AudioPacketPolicy_new 44100 8000 = Some p ∧
    AudioPacketPolicy_effectiveClockMilliHz (run policy_step [Feedback 45; Packet] p).2 = 44100000.
Proof.
  destruct (AudioPacketPolicy_new 44100 8000) as [p|] eqn:E; [|done]. exists p. split; [done|].
  destruct (rate_follows_feedback p [Feedback 45; Packet] 100 E) as (Hm & -> & _). by rewrite Hm.
Defined.

(** ** Every state *)

Definition schedule_ok (s : schedule) : Prop :=
  history_ok s ∧ Forall (λ n, 5 <= n <= 6) (rest s).

Lemma next_packet_ok s :
  schedule_ok s → let '(n, s') := next_packet s in 5 <= n <= 6 ∧ schedule_ok s'.
Proof.
  intros [Hh Hr]. unfold next_packet. destruct (rest s) as [|x xs] eqn:Er.
  - pose proof (next_millisecond_ok s Hh) as Hn. destruct (next_millisecond s) as [ms s'].
    destruct Hn as ([Hl Hp _] & Hh' & _). destruct ms as [|y ys]; [done|].
    inversion Hp; subst. cbn [hd]. split; [done|]. by split.
  - inversion Hr; subst. cbn [hd]. split; [done|]. by split.
Qed.
