(* ===== verification/OutPacket.v ===== *)
(** * Output packets, batches and slots (numark-ns6/audio-out)

    A packet takes the frames the policy asks for from the ring, converts them to
    24-bit samples and fills a shortfall with silence; a batch is the 32 packets of a
    transfer; the slots are the batches that may be in flight.  The schedules compute
    bus frames for transfers. *)

From stdpp Require Import base list numbers tactics.
From Stdlib Require Import ZArith Lia ZifyBool.
From S2P Require Import Prelude Float OutRing PacketPolicy.

(** ** Samples *)

(** [static_cast<double>] of a [float]; exact. *)
Definition d_of_f32 (x : spec_float) : spec_float :=
  match x with
  | S754_finite s m e => binary_round 53 1024 s m e
  | _ => x
  end.

(** [std::llround]: nearest integer, halves away from zero. *)
Definition sf_llround (x : spec_float) : Z :=
  match x with
  | S754_finite s m e =>
      let v := if e >=? 0 then Zpos m * 2 ^ e
               else (2 * Zpos m + 2 ^ (- e)) / (2 * 2 ^ (- e)) in
      if s then - v else v
  | _ => 0
  end.

(** One sample as a 24-bit integer and as its three bytes. *)
Definition sample_value (sample : spec_float) : Z :=
  let input := if sf_isfinite sample then sample else S754_zero false in
  let scaled := d_mul (d_clamp (d_of_f32 input) (d_of_Z (-1)) (d_of_Z 1)) (d_of_Z 8388608) in
  clamp (sf_llround scaled) (-8388608) 8388607.

Definition sample_bytes (sample : spec_float) : list Z :=
  let packed := u32 (sample_value sample) in
  [u8 packed; u8 (Z.shiftr packed 8); u8 (Z.shiftr packed 16)].

(** ** Packets (AudioOutPacket) *)

Definition kMaxFrames : Z := 13.
Definition kChannels : Z := 4.
Definition kBytesPerSample : Z := 3.
Definition kPacketMaxBytes : Z := kMaxFrames * kChannels * kBytesPerSample.

Record AudioOutPacket := {
  pk_bytes_ : list Z;
  pk_byteCount_ : Z;
  pk_missingFrames_ : Z
}.

Definition empty_packet : AudioOutPacket :=
  {| pk_bytes_ := replicate (Z.to_nat kPacketMaxBytes) 0; pk_byteCount_ := 0; pk_missingFrames_ := 0 |}.

(** Results: the frames (zero when the packet cannot be built), the packet, ring and policy. *)
Definition AudioOutPacket_build (ring : AudioOutputRing) (policy : AudioPacketPolicy)
    : Z * AudioOutPacket * AudioOutputRing * AudioPacketPolicy :=
  if negb (channels_ ring =? kChannels) then (0, empty_packet, ring, policy)
  else
    let '(frames, policy) := AudioPacketPolicy_nextPacketFrames policy in
    if frames >? kMaxFrames then (0, empty_packet, ring, policy)
    else
      let samples := replicate (Z.to_nat (kMaxFrames * kChannels)) (S754_zero false) in
      let sourceStep := AudioPacketPolicy_sourceFramesPerOutputFrame
                          (AudioOutputRing_availableFrames ring) policy in
      let '(available, samples', ring) :=
        AudioOutputRing_readResampled (Some samples) frames sourceStep ring in
      let missing := frames -₃₂ available in
      let ring := if negb (missing =? 0)
                  then AudioOutputRing_advanceResampled missing sourceStep ring else ring in
      let bytes := for_loop (Z.to_nat (available * kChannels)) 0
        (λ sample b, memcpy b (sample * kBytesPerSample)
                       (sample_bytes (rd (default [] samples') sample)))
        (pk_bytes_ empty_packet) in
      (frames, {| pk_bytes_ := bytes; pk_byteCount_ := frames * kChannels * kBytesPerSample;
                  pk_missingFrames_ := missing |}, ring, policy).

(** ** Batches (AudioOutTransferBatch) *)

Definition kServiceIntervals : Z := 32.
Definition kBatchMaxBytes : Z := kServiceIntervals * kPacketMaxBytes.

Record AudioOutTransferBatch := {
  bytes_ : list Z;
  packetByteCounts_ : list Z;
  byteCount_ : Z;
  missingFrames_ : Z
}.

#[export] Instance eta_batch : Eta AudioOutTransferBatch := λ b,
  Build_AudioOutTransferBatch (bytes_ b) (packetByteCounts_ b) (byteCount_ b) (missingFrames_ b).

Definition empty_batch : AudioOutTransferBatch :=
  {| bytes_ := replicate (Z.to_nat kBatchMaxBytes) 0;
     packetByteCounts_ := replicate (Z.to_nat kServiceIntervals) 0; byteCount_ := 0;
     missingFrames_ := 0 |}.

(** The loop over the service intervals; it ends early when a packet cannot be built. *)
Fixpoint build_packets (n : nat) (i : Z) (ring : AudioOutputRing) (policy : AudioPacketPolicy)
    (b : AudioOutTransferBatch)
    : bool * AudioOutTransferBatch * AudioOutputRing * AudioPacketPolicy :=
  match n with
  | O => (true, b, ring, policy)
  | S n' =>
      let '(frames, packet, ring, policy) := AudioOutPacket_build ring policy in
      if frames =? 0
      then (false, b <| byteCount_ := 0 |>
                     <| packetByteCounts_ := replicate (Z.to_nat kServiceIntervals) 0 |>, ring, policy)
      else
        let count := pk_byteCount_ packet in
        build_packets n' (i + 1) ring policy
          (b <| missingFrames_ ::= λ m, m +₃₂ pk_missingFrames_ packet |>
             <| bytes_ ::= λ l, memcpy l (byteCount_ b) (slice (pk_bytes_ packet) 0 count) |>
             <| packetByteCounts_ ::= λ l, wr l i (u16 count) |>
             <| byteCount_ ::= λ c, c + count |>)
  end.

Definition AudioOutTransferBatch_build (ring : AudioOutputRing) (policy : AudioPacketPolicy)
    : bool * AudioOutTransferBatch * AudioOutputRing * AudioPacketPolicy :=
  build_packets (Z.to_nat kServiceIntervals) 0 ring policy empty_batch.

Definition AudioOutTransferBatch_packetByteCount (packet : Z) (b : AudioOutTransferBatch) : Z :=
  if packet <? kServiceIntervals then rd (packetByteCounts_ b) packet else 0.

(** ** Slots (AudioOutTransferSlots) *)

Definition kSlotCount : Z := 8.
Definition kNoSlot : Z := UINT32_MAX.

Record AudioOutTransferSlots := {
  packets_ : list AudioOutTransferBatch;
  inUse_ : list bool;
  accepting_ : bool;
  inFlight_ : Z
}.

#[export] Instance eta_slots : Eta AudioOutTransferSlots := λ s,
  Build_AudioOutTransferSlots (packets_ s) (inUse_ s) (accepting_ s) (inFlight_ s).

#[export] Instance batch_inhabited : Inhabited AudioOutTransferBatch := populate empty_batch.

Definition AudioOutTransferSlots_new : AudioOutTransferSlots :=
  {| packets_ := replicate (Z.to_nat kSlotCount) empty_batch;
     inUse_ := replicate (Z.to_nat kSlotCount) false; accepting_ := true; inFlight_ := 0 |}.

(** The first free slot is taken; its batch is built before it counts as in flight. *)
Fixpoint reserve_from (n : nat) (i : Z) (ring : AudioOutputRing) (policy : AudioPacketPolicy)
    (s : AudioOutTransferSlots)
    : Z * AudioOutTransferSlots * AudioOutputRing * AudioPacketPolicy :=
  match n with
  | O => (kNoSlot, s, ring, policy)
  | S n' =>
      if rd (inUse_ s) i then reserve_from n' (i + 1) ring policy s
      else if negb (accepting_ s) then (kNoSlot, s, ring, policy)
      else
        let '(built, batch, ring, policy) := AudioOutTransferBatch_build ring policy in
        let s := s <| packets_ ::= λ l, wr l i batch |> in
        if negb built then (kNoSlot, s, ring, policy)
        else (i, s <| inUse_ ::= λ l, wr l i true |> <| inFlight_ ::= λ n, n +₃₂ 1 |>, ring, policy)
  end.

Definition AudioOutTransferSlots_reserve (ring : AudioOutputRing) (policy : AudioPacketPolicy)
    (s : AudioOutTransferSlots)
    : Z * AudioOutTransferSlots * AudioOutputRing * AudioPacketPolicy :=
  if negb (accepting_ s) then (kNoSlot, s, ring, policy)
  else reserve_from (Z.to_nat kSlotCount) 0 ring policy s.

Definition AudioOutTransferSlots_complete (slot : Z) (s : AudioOutTransferSlots)
    : bool * AudioOutTransferSlots :=
  if slot >=? kSlotCount then (false, s)
  else if negb (rd (inUse_ s) slot) then (false, s)
  else (true, s <| inUse_ ::= λ l, wr l slot false |> <| inFlight_ ::= λ n, n -₃₂ 1 |>).

Definition AudioOutTransferSlots_stopAccepting (s : AudioOutTransferSlots) : AudioOutTransferSlots :=
  s <| accepting_ := false |>.

Definition AudioOutTransferSlots_packet (slot : Z) (s : AudioOutTransferSlots)
    : option AudioOutTransferBatch :=
  if slot <? kSlotCount then Some (rd (packets_ s) slot) else None.

(** ** Bus frames (AudioOutSchedule, AudioFeedbackSchedule) *)

Definition kStartLeadFrames : Z := 2.
Definition batchFrames : Z := kServiceIntervals / 8.

Record AudioOutSchedule := {
  nextFrame_ : Z;
  skippedIntervals_ : Z
}.

Definition AudioOutSchedule_begin (currentFrame : Z) (s : AudioOutSchedule) : Z * AudioOutSchedule :=
  if currentFrame >? UINT64_MAX - kStartLeadFrames then (0, s)
  else
    let next := currentFrame + kStartLeadFrames in
    if next >? UINT64_MAX - batchFrames
    then (0, {| nextFrame_ := 0; skippedIntervals_ := skippedIntervals_ s |})
    else (next, {| nextFrame_ := next + batchFrames; skippedIntervals_ := 0 |}).

(** Results: start frame and intervals skipped. *)
Definition AudioOutSchedule_takeNext (currentFrame : Z) (s : AudioOutSchedule)
    : Z * Z * AudioOutSchedule :=
  if currentFrame >? UINT64_MAX - kStartLeadFrames then (0, 0, s)
  else
    let minimum := currentFrame + kStartLeadFrames in
    let finish (skipped : Z) (s : AudioOutSchedule) :=
      let start := nextFrame_ s in
      if start >? UINT64_MAX - batchFrames then (0, 0, s)
      else (start, skipped, {| nextFrame_ := start + batchFrames; skippedIntervals_ := skippedIntervals_ s |}) in
    if nextFrame_ s <? minimum then
      let behind := minimum - nextFrame_ s in
      let count := behind / batchFrames + (if negb (behind mod batchFrames =? 0) then 1 else 0) in
      if count >? UINT32_MAX then (0, 0, s)
      else if count >? (UINT64_MAX - nextFrame_ s) / batchFrames then (0, 0, s)
      else finish count {| nextFrame_ := nextFrame_ s + count * batchFrames;
                           skippedIntervals_ := skippedIntervals_ s +₆₄ count |}
    else finish 0 s.

Definition kInitialLeadFrames : Z := 2.
Definition kFramesPerTransfer : Z := 4.

(** The state of AudioFeedbackSchedule is the next frame. *)
Definition AudioFeedbackSchedule_begin (currentFrame next : Z) : Z * Z :=
  if currentFrame >? UINT64_MAX - kInitialLeadFrames then (0, next)
  else
    let first := currentFrame + kInitialLeadFrames in
    if first >? UINT64_MAX - kFramesPerTransfer then (0, next)
    else (first, first + kFramesPerTransfer).

Definition AudioFeedbackSchedule_takeNext (currentFrame next : Z) : Z * Z * Z :=
  if currentFrame =? UINT64_MAX then (0, 0, next)
  else
    let minimum := currentFrame + 1 in
    let finish (skipped next : Z) :=
      if (next >? UINT64_MAX - kFramesPerTransfer) || (skipped >? UINT32_MAX) then (0, 0, next)
      else (next, skipped, next + kFramesPerTransfer) in
    if next <? minimum then
      let behind := minimum - next in
      let skipped := (behind - 1) / kFramesPerTransfer + 1 in
      if skipped >? (UINT64_MAX - next) / kFramesPerTransfer then (0, 0, next)
      else finish skipped (next + skipped * kFramesPerTransfer)
    else finish 0 next.
