(* ===== verification/OutPacketTheory.v ===== *)
(** * What a transfer carries

    A packet holds the frames that resampling the ring yields, as 24-bit samples, and
    silence for the rest; a batch is 32 such packets back to back. *)

From stdpp Require Import base list numbers tactics.
From Stdlib Require Import ZArith Lia ZifyBool.
From S2P Require Import Prelude Float Rounding OutRing OutRingTheory OutRingResample PacketPolicy.
From S2P Require Import PolicyTheory OutPacket.

(** ** Samples *)

Lemma sample_value_range x : -8388608 <= sample_value x <= 8388607.
Proof. unfold sample_value, clamp. case_ifs; lia. Qed.

(** The device reads the three bytes as a little-endian two's complement number. *)
Definition decode24 (bytes : list Z) : Z :=
  swrap 24 (rd bytes 0 + 256 * rd bytes 1 + 65536 * rd bytes 2).

Lemma length_sample_bytes x : length (sample_bytes x) = 3%nat.
Proof. done. Qed.

Lemma decode_sample_bytes x : decode24 (sample_bytes x) = sample_value x.
Proof.
  unfold decode24, sample_bytes. pose proof (sample_value_range x) as H. set (v := sample_value x) in *. clearbody v.
  set (l := [_; _; _]). change (rd l 0) with (u8 (u32 v)). change (rd l 1) with (u8 (Z.shiftr (u32 v) 8)).
  change (rd l 2) with (u8 (Z.shiftr (u32 v) 16)). clear l. rewrite !Z.shiftr_div_pow2 by lia.
  change (2 ^ 8) with 256. change (2 ^ 16) with 65536.
  assert (u8 (u32 v) + 256 * u8 (u32 v / 256) + 65536 * u8 (u32 v / 65536) = v mod 16777216) as ->.
  { unfold u8, u32. Z.div_mod_to_equations. lia. }
  unfold swrap. change (2 ^ (24 - 1)) with 8388608. change (2 ^ 24) with 16777216.
  rewrite Zplus_mod_idemp_l, Z.mod_small by lia. lia.
Qed.

(** ** Copying blocks *)

Lemma for_loop_blocks {A} `{Inhabited A} (k : nat) (f : Z → list A) (n : nat) (out : list A) :
  (∀ i, length (f i) = k) → (n * k <= length out)%nat →
  for_loop n 0 (λ i b, memcpy b (i * Z.of_nat k) (f i)) out =
    concat (map f (seqZ 0 (Z.of_nat n))) ++ drop (n * k) out.
Proof.
  intros Hf. induction n as [|n IH]; intros Hn; [by rewrite drop_0|].
  rewrite for_loop_snoc, IH by lia. rewrite seqZ_S, map_app, concat_app. cbn [map concat].
  rewrite app_nil_r, !Z.add_0_l.
  set (a := concat (map f (seqZ 0 (Z.of_nat n)))).
  assert (length a = (n * k)%nat) as Ha.
  { subst a. clear -Hf. induction n as [|n IH]; [done|].
    rewrite seqZ_S, map_app, concat_app, length_app, IH. cbn. rewrite app_nil_r, Hf. lia. }
  unfold memcpy. replace (Z.to_nat (Z.of_nat n * Z.of_nat k)) with (length a + 0)%nat by lia.
  rewrite list_inserts_app_r. rewrite <- (take_drop k (drop (n * k) out)) at 1.
  rewrite list_inserts_0_r by (rewrite length_take, length_drop, Hf; lia).
  rewrite drop_drop, <- app_assoc. do 3 f_equal. lia.
Qed.

(** Reading a list by index in order. *)
Lemma map_rd_seqZ {A B} `{Inhabited A} (f : A → B) (l : list A) (n : nat) :
  (n <= length l)%nat → map (λ i, f (rd l i)) (seqZ 0 (Z.of_nat n)) = map f (take n l).
Proof.
  intros Hn. apply list_eq. intros i. destruct (decide (i < n)%nat) as [Hi|Hi].
  - rewrite !list_lookup_fmap, lookup_seqZ_lt, lookup_take_lt by lia. cbn. unfold rd.
    rewrite Z.add_0_l, Nat2Z.id. rewrite list_lookup_lookup_total_lt by lia. done.
  - rewrite !lookup_ge_None_2; [done|..]; rewrite length_map, ?length_take, ?length_seqZ; lia.
Qed.

(** ** Frames of the queue *)

Lemma queue_frame_length g q :
  ring_rel g q → Forall (λ f, length f = Z.to_nat (channels_ g)) q.
Proof.
  intros H. apply Forall_lookup. intros i f Hi. apply lookup_lt_Some in Hi as Hl.
  pose proof (r_frames _ _ H (Z.of_nat i) ltac:(lia)) as E. rewrite Nat2Z.id, Hi in E. simplify_eq.
  apply length_frame_in; [apply (r_ok _ _ H)|]. apply Z.mod_pos_bound. apply (ok_capacity _ (r_ok _ _ H)).
Qed.

Lemma resample_queue_frames k q step n phase :
  Forall (λ f, length f = k) q →
  let '(fs, phase') := resample_queue q step n phase in
  Forall (λ f, length f = k) fs ∧ (length fs <= n)%nat ∧
  ((length fs < n)%nat → (length q <= Z.to_nat (sf_trunc phase'))%nat).
Proof.
  intros Hq. revert phase. induction n as [|n IH]; intros phase; cbn [resample_queue].
  { split; [constructor|]. cbn. lia. }
  destruct (q !! _) as [a|] eqn:Ea.
  - specialize (IH (d_add phase step)). destruct (resample_queue q step n _) as [fs phase'].
    destruct IH as (IH1 & IH2 & IH3). cbn [fst snd length]. split; [|split; [lia|intros; apply IH3; lia]].
    constructor; [|done]. unfold blend. rewrite length_zip_with.
    pose proof (proj1 (Forall_lookup _ _) Hq _ _ Ea) as La. cbv beta in La. rewrite La.
    case_if; [|lia]. destruct (q !! Z.to_nat (sf_trunc phase + 1)) as [b|] eqn:Eb; cbn; [|lia].
    pose proof (proj1 (Forall_lookup _ _) Hq _ _ Eb) as Lb. cbv beta in Lb. lia.
  - split; [constructor|]. split; [cbn; lia|]. intros _. by apply lookup_ge_None in Ea.
Qed.

Lemma length_concat_block {A} (k : nat) (fs : list (list A)) :
  Forall (λ f, length f = k) fs → length (concat fs) = (length fs * k)%nat.
Proof. induction 1 as [|f fs Hf _ IH]; [done|]. cbn. rewrite length_app, IH, Hf. lia. Qed.

(** ** Policies of the runtime *)

(** What holds of the policy of the runtime at all times. *)
Record plays (p : AudioPacketPolicy) (s : schedule) : Prop := {
  pl_rel : policy_rel p s;
  pl_ok : schedule_ok s;
  pl_rate : sampleRateHz_ p = 44100
}.

Lemma plays_new p : AudioPacketPolicy_new 44100 8000 = Some p → plays p start_schedule.
Proof.
  intros H. split; [by apply (new_rel 44100)|split; [apply start_history|constructor]|by apply new_rate].
Qed.

Lemma plays_packet p s :
  plays p s →
  let '(n, p') := AudioPacketPolicy_nextPacketFrames p in
  let '(n', s') := next_packet s in
  n = n' ∧ 5 <= n <= 6 ∧ plays p' s'.
Proof.
  intros [H1 H2 H3]. pose proof (next_packet_rel p s H1) as Hr. pose proof (next_packet_ok s H2) as Ho.
  pose proof (policy_step_rate Packet p) as Er. cbn [policy_step] in Er.
  destruct (AudioPacketPolicy_nextPacketFrames p) as [n p'], (next_packet s) as [n' s'].
  destruct Hr as [-> Hr], Ho as [Hn Ho]. split; [done|]. split; [done|]. split; [done|done|].
  cbn [snd] in Er. congruence.
Qed.

(** ** Packets *)

(** The bytes of the frames in a buffer of [n] bytes. *)
Definition pcm (n : nat) (fs : list frame) : list Z :=
  concat (map sample_bytes (concat fs)) ++ replicate (n - 12 * length fs) 0.

Lemma length_pcm n fs :
  Forall (λ f, length f = 4%nat) fs → (12 * length fs <= n)%nat → length (pcm n fs) = n.
Proof.
  intros Hf Hn. unfold pcm. rewrite length_app, length_replicate.
  rewrite (length_concat_block 3) by (apply Forall_fmap, Forall_true; done).
  rewrite length_map, (length_concat_block 4) by done. lia.
Qed.

(** Converting the samples of a read. *)
Lemma pcm_loop (fs : list frame) (rest_ : list spec_float) (available : Z) :
  Forall (λ f, length f = 4%nat) fs → available = Z.of_nat (length fs) → (length fs <= 13)%nat →
  for_loop (Z.to_nat (available * kChannels)) 0
    (λ sample b, memcpy b (sample * kBytesPerSample)
                   (sample_bytes (rd (concat fs ++ rest_) sample)))
    (replicate (Z.to_nat kPacketMaxBytes) 0) = pcm 156 fs.
Proof.
  intros Hf -> Hn. replace (Z.to_nat (Z.of_nat (length fs) * kChannels)) with (length fs * 4)%nat by (unfold kChannels; lia).
  unfold kBytesPerSample. change (Z.to_nat kPacketMaxBytes) with 156%nat. change 3 with (Z.of_nat 3) at 1.
  rewrite for_loop_blocks; [|intros; apply length_sample_bytes|rewrite length_replicate; lia].
  rewrite map_rd_seqZ by (rewrite length_app, (length_concat_block 4) by done; lia).
  rewrite take_app_le by (rewrite (length_concat_block 4) by done; lia).
  rewrite take_ge by (rewrite (length_concat_block 4) by done; lia).
  unfold pcm. f_equal. rewrite drop_replicate. f_equal. lia.
Qed.

(** The next packet holds the frames of the schedule: what resampling the ring at the policy's
    rate yields, as 24-bit little-endian samples, then silence, counted as missing.  The ring drops
    the frames before the phase reached. *)
Lemma packet_plays_ring g q p s :
  ring_rel g q → channels_ g = 4 → plays p s →
  let '(frames, packet, g', p') := AudioOutPacket_build g p in
  let '(n, s') := next_packet s in
  let step := AudioPacketPolicy_sourceFramesPerOutputFrame (Z.of_nat (length q)) p' in
  let '(fs, phase) := resample_queue q step (Z.to_nat n) (readFraction_ g) in
  frames = n ∧ 5 <= n <= 6 ∧
  packet = {| pk_bytes_ := pcm 156 fs; pk_byteCount_ := 12 * n;
              pk_missingFrames_ := n - Z.of_nat (length fs) |} ∧
  Z.of_nat (length fs) <= n ∧ Forall (λ f, length f = 4%nat) fs ∧
  ring_rel g' (drop (Z.to_nat (sf_trunc phase)) q) ∧ channels_ g' = 4 ∧ plays p' s'.
Proof.
  intros Hrel Hch Hp. unfold AudioOutPacket_build. rewrite Hch. change (negb (4 =? kChannels)) with false. cbv iota.
  pose proof (plays_packet p s Hp) as Hn.
  destruct (AudioPacketPolicy_nextPacketFrames p) as [frames p'], (next_packet s) as [n s'].
  destruct Hn as (-> & Hn & Hp'). replace (n >? kMaxFrames) with false by (unfold kMaxFrames; lia).
  rewrite (available_length g q Hrel).
  destruct (source_step_valid p' (Z.of_nat (length q)) (pl_rate _ _ Hp')) as (_ & _ & Hv & Hnar).
  set (step := AudioPacketPolicy_sourceFramesPerOutputFrame _ p') in *.
  set (samples := replicate _ (S754_zero false)).
  destruct (resample_loop_spec g q step Hrel) with (n := Z.to_nat n) (produced := 0)
    (phase := readFraction_ g) (out := samples) as [E Hb].
  { rewrite <- Hv. by apply valid_step_below. }
  { apply (below_mono 0); [lia|apply (r_fraction _ _ Hrel)]. }
  { lia. }
  { subst samples. rewrite Hch, length_replicate. unfold kMaxFrames, kChannels. lia. }
  pose proof (queue_frame_length g q Hrel) as Hq. rewrite Hch in Hq.
  pose proof (resample_queue_frames 4 q step (Z.to_nat n) (readFraction_ g) Hq) as Hfs.
  unfold AudioOutputRing_readResampled. rewrite (available_length g q Hrel), Hv.
  destruct (resample_queue q step (Z.to_nat n) (readFraction_ g)) as [fs phase] eqn:Eq.
  cbn [fst snd] in E, Hb. destruct Hfs as (Hf4 & Hle & Hend). rewrite E. cbn [default].
  rewrite Z.add_0_l. rewrite (u32_id (n - Z.of_nat (length fs))) by (unfold is_u32; lia).
  rewrite Z.mul_0_l. cbn [Z.to_nat take]. rewrite take_0, app_nil_l. fold step. rewrite Eq.
  split; [done|]. split; [done|]. split; [|split; [lia|split; [done|split; [|split; [|done]]]]].
  - f_equal; [by apply pcm_loop; [| |lia]|unfold kChannels, kBytesPerSample; lia].
  - pose proof (consume_rel g q Hrel phase Hb) as Hc. case_if; [|exact Hc].
    (* something is missing: the queue is empty *)
    assert (drop (Z.to_nat (sf_trunc phase)) q = []) as Ed by (apply drop_ge, Hend; lia).
    rewrite Ed in *. pose proof (advance_resampled_spec _ [] (n - Z.of_nat (length fs)) step Hc Hnar) as Ha.
    cbv zeta in Ha. rewrite drop_nil in Ha. apply Ha. lia.
  - by case_if.
Qed.

(** ** Batches *)

(** Packets played from a queue of frames on a schedule: each takes the frames of the schedule by
    resampling the queue from some fraction of a frame at a rate within half a percent of one, and
    the frames it passed leave the queue. *)
Inductive played : list frame → schedule → list AudioOutPacket → list frame → schedule → Prop :=
  | played_nil q s : played q s [] q s
  | played_cons q s n s1 step phase fs phase' ps q' s' :
      next_packet s = (n, s1) → below 0 phase →
      d_lt step (d_lit 995 1000) = false → d_lt (d_lit 1005 1000) step = false →
      resample_queue q step (Z.to_nat n) phase = (fs, phase') →
      played (drop (Z.to_nat (sf_trunc phase')) q) s1 ps q' s' →
      played q s ({| pk_bytes_ := pcm 156 fs; pk_byteCount_ := 12 * n;
                     pk_missingFrames_ := n - Z.of_nat (length fs) |} :: ps) q' s'.

Definition payload (packet : AudioOutPacket) : list Z :=
  slice (pk_bytes_ packet) 0 (pk_byteCount_ packet).

(** A batch being filled. *)
Record filled (ps : list AudioOutPacket) (b : AudioOutTransferBatch) : Prop := {
  fl_packets : Forall (λ k, length (pk_bytes_ k) = 156%nat ∧ (pk_byteCount_ k = 60 ∨ pk_byteCount_ k = 72) ∧
                            0 <= pk_missingFrames_ k <= 6) ps;
  fl_bytes : bytes_ b = concat (map payload ps) ++
               replicate (4992 - length (concat (map payload ps))) 0;
  fl_count : byteCount_ b = Z.of_nat (length (concat (map payload ps)));
  fl_counts : packetByteCounts_ b = map pk_byteCount_ ps ++ replicate (32 - length ps) 0;
  fl_missing : missingFrames_ b = total (map pk_missingFrames_ ps)
}.

Lemma filled_lengths ps b :
  filled ps b → (length ps <= 32)%nat →
  (60 * length ps <= length (concat (map payload ps)) <= 72 * length ps)%nat ∧
  0 <= total (map pk_missingFrames_ ps) <= 6 * Z.of_nat (length ps).
Proof.
  intros [H _ _ _ _] _. induction H as [|k ps (Hl & Hc & Hm) _ IH]; [cbn; lia|].
  cbn [map concat length]. rewrite length_app. unfold total in *. cbn [foldr].
  assert (length (payload k) = Z.to_nat (pk_byteCount_ k)) as -> by (apply length_slice; lia). lia.
Qed.

Lemma total_payload ps :
  Forall (λ k, length (pk_bytes_ k) = 156%nat ∧ (pk_byteCount_ k = 60 ∨ pk_byteCount_ k = 72) ∧
               0 <= pk_missingFrames_ k <= 6) ps →
  Z.of_nat (length (concat (map payload ps))) = total (map pk_byteCount_ ps).
Proof.
  induction 1 as [|k ps (Hl & Hc & _) _ IH]; [done|]. cbn [map concat]. rewrite length_app.
  change (total (pk_byteCount_ k :: _)) with (pk_byteCount_ k + total (map pk_byteCount_ ps)).
  assert (length (payload k) = Z.to_nat (pk_byteCount_ k)) as -> by (apply length_slice; lia). lia.
Qed.

Lemma filled_step ps b k :
  filled ps b → (length ps < 32)%nat → length (pk_bytes_ k) = 156%nat →
  (pk_byteCount_ k = 60 ∨ pk_byteCount_ k = 72) → 0 <= pk_missingFrames_ k <= 6 →
  filled (ps ++ [k])
    (b <| missingFrames_ ::= λ m, m +₃₂ pk_missingFrames_ k |>
       <| bytes_ ::= λ l, memcpy l (byteCount_ b) (slice (pk_bytes_ k) 0 (pk_byteCount_ k)) |>
       <| packetByteCounts_ ::= λ l, wr l (Z.of_nat (length ps)) (u16 (pk_byteCount_ k)) |>
       <| byteCount_ ::= λ c, c + pk_byteCount_ k |>).
Proof.
  intros H Hn Hl Hc Hm. destruct (filled_lengths ps b H ltac:(lia)) as [Hlen Htot].
  destruct H as [H1 H2 H3 H4 H5].
  assert (length (payload k) = Z.to_nat (pk_byteCount_ k)) as Hp by (apply length_slice; lia).
  split; cbn -[memcpy u32 u16 wr]; rewrite ?map_app, ?concat_app; cbn [map concat]; rewrite ?app_nil_r.
  - apply Forall_app. split; [done|]. by apply Forall_singleton.
  - rewrite H2, H3. fold (payload k). set (a := concat (map payload ps)) in *.
    unfold memcpy. rewrite Nat2Z.id. replace (length a) with (length a + 0)%nat at 1 by lia.
    rewrite list_inserts_app_r. rewrite <- (take_drop (length (payload k)) (replicate _ 0)) at 1.
    rewrite list_inserts_0_r by (rewrite length_take, length_replicate; lia).
    rewrite drop_replicate, length_app, <- app_assoc. do 3 f_equal. lia.
  - rewrite H3, length_app, Hp. lia.
  - rewrite H4, length_app. cbn [length]. unfold wr. rewrite Nat2Z.id.
    replace (length ps) with (length (map pk_byteCount_ ps) + 0)%nat at 1 by (rewrite length_map; lia).
    rewrite insert_app_r. replace (32 - length ps)%nat with (S (32 - (length ps + 1))) by lia.
    cbn [replicate insert list_insert]. rewrite <- app_assoc. cbn [app]. do 2 f_equal.
    unfold u16. apply Z.mod_small. lia.
  - rewrite H5, total_append. cbn [total foldr]. rewrite u32_id by (unfold is_u32; lia). lia.
Qed.

Lemma build_packets_played n ps q s g p b :
  ring_rel g q → channels_ g = 4 → plays p s → filled ps b → (length ps + n = 32)%nat →
  let '(built, b', g', p') := build_packets n (Z.of_nat (length ps)) g p b in
  ∃ ps' q' s', built = true ∧ filled (ps ++ ps') b' ∧ length ps' = n ∧ played q s ps' q' s' ∧
    ring_rel g' q' ∧ channels_ g' = 4 ∧ plays p' s'.
Proof.
  revert ps q s g p b. induction n as [|n IH]; intros ps q s g p b Hg Hch Hp Hb Hn; cbn [build_packets].
  { exists [], q, s. rewrite app_nil_r. repeat (split; [done || apply played_nil|]). done. }
  pose proof (packet_plays_ring g q p s Hg Hch Hp) as Hk.
  destruct (AudioOutPacket_build g p) as [[[frames k] g1] p1], (next_packet s) as [m s1] eqn:Es. cbv zeta in Hk.
  set (step := AudioPacketPolicy_sourceFramesPerOutputFrame _ p1) in *.
  destruct (resample_queue q step (Z.to_nat m) (readFraction_ g)) as [fs phase] eqn:Er.
  destruct Hk as (-> & Hm & -> & Hle & Hf & Hg1 & Hch1 & Hp1). replace (m =? 0) with false by lia.
  destruct (source_step_valid p1 (Z.of_nat (length q)) (pl_rate _ _ Hp1)) as (Hlo & Hhi & _ & _).
  set (k := {| pk_bytes_ := _ |}).
  assert (filled (ps ++ [k]) (b
    <| missingFrames_ ::= λ m, m +₃₂ pk_missingFrames_ k |>
    <| bytes_ ::= λ l, memcpy l (byteCount_ b) (slice (pk_bytes_ k) 0 (pk_byteCount_ k)) |>
    <| packetByteCounts_ ::= λ l, wr l (Z.of_nat (length ps)) (u16 (pk_byteCount_ k)) |>
    <| byteCount_ ::= λ c, c + pk_byteCount_ k |>)) as Hb1.
  { apply filled_step; [done|lia| |cbn [pk_byteCount_ k]; lia|cbn [pk_missingFrames_ k]; lia].
    apply length_pcm; [done|lia]. }
  specialize (IH (ps ++ [k]) _ s1 g1 p1 _ Hg1 Hch1 Hp1 Hb1). rewrite length_app in IH. cbn [length] in IH.
  replace (Z.of_nat (length ps + 1)) with (Z.of_nat (length ps) + 1) in IH by lia.
  specialize (IH ltac:(lia)). destruct (build_packets n _ g1 p1 _) as [[[built b'] g'] p'].
  destruct IH as (ps' & q' & s' & -> & Hb' & <- & Hpl & Hrest). exists (k :: ps'), q', s'.
  rewrite <- app_assoc in Hb'. split; [done|]. split; [done|]. split; [done|]. split; [|done].
  eapply played_cons; try done. apply (r_fraction _ _ Hg).
Qed.

Lemma filled_empty : filled [] empty_batch.
Proof. split; [constructor|done..]. Qed.

(** A filled batch has the shape USB expects. *)
Lemma filled_shape ps b :
  filled ps b → length ps = 32%nat →
  packetByteCounts_ b = map pk_byteCount_ ps ∧ byteCount_ b = total (packetByteCounts_ b) ∧
  Forall (λ n, n = 60 ∨ n = 72) (packetByteCounts_ b) ∧
  length (bytes_ b) = Z.to_nat kBatchMaxBytes ∧ byteCount_ b <= kBatchMaxBytes.
Proof.
  intros Hb Hl. destruct (filled_lengths ps b Hb ltac:(lia)) as [Hlen _]. rewrite Hl in *.
  rewrite (fl_bytes _ _ Hb), (fl_count _ _ Hb), (fl_counts _ _ Hb), Hl, app_nil_r.
  change (Z.to_nat kBatchMaxBytes) with 4992%nat. change kBatchMaxBytes with 4992.
  split; [done|]. split; [|split; [|split; [|lia]]].
  - apply total_payload. apply (fl_packets _ _ Hb).
  - apply Forall_fmap. eapply Forall_impl; [|apply (fl_packets _ _ Hb)]. by intros k (_ & Hk & _).
  - rewrite length_app, length_replicate. lia.
Qed.

(** C12: a transfer is always built: its 32 packets are those played from the ring on the
    schedule, back to back, with their lengths in the list handed to USB; 60 or 72 bytes
    each, so the transfer fits its buffer.  The ring keeps the frames not played and the schedule
    advances by 32 packets. *)
Theorem batch_plays_ring g q p s :
  ring_rel g q → channels_ g = 4 → plays p s →
  let '(built, b, g', p') := AudioOutTransferBatch_build g p in
  ∃ ps q' s', built = true ∧ length ps = 32%nat ∧ played q s ps q' s' ∧
    slice (bytes_ b) 0 (byteCount_ b) = concat (map payload ps) ∧
    packetByteCounts_ b = map pk_byteCount_ ps ∧ byteCount_ b = total (packetByteCounts_ b) ∧
    Forall (λ n, n = 60 ∨ n = 72) (packetByteCounts_ b) ∧
    length (bytes_ b) = Z.to_nat kBatchMaxBytes ∧ byteCount_ b <= kBatchMaxBytes ∧
    missingFrames_ b = total (map pk_missingFrames_ ps) ∧
    ring_rel g' q' ∧ channels_ g' = 4 ∧ plays p' s'.
Proof.
  intros Hg Hch Hp. unfold AudioOutTransferBatch_build.
  pose proof (build_packets_played 32 [] q s g p empty_batch Hg Hch Hp filled_empty ltac:(done)) as H.
  change (Z.to_nat kServiceIntervals) with 32%nat. change (Z.of_nat (length _)) with 0 in H.
  destruct (build_packets 32 0 g p empty_batch) as [[[built b] g'] p'].
  destruct H as (ps & q' & s' & -> & Hb & Hl & Hpl & Hrest). rewrite app_nil_l in Hb.
  destruct (filled_shape ps b Hb Hl) as (E1 & E2 & E3 & E4 & E5).
  exists ps, q', s'. split; [done|]. split; [done|]. split; [done|]. split; [|by repeat (split; [done || apply Hb|])].
  rewrite (fl_bytes _ _ Hb), (fl_count _ _ Hb). unfold slice. cbn [Z.to_nat]. rewrite drop_0, Nat2Z.id.
  by rewrite take_app_length.
Qed.

Lemma batch_plays_ring_witness :
  ∃ g p, AudioOutputRing_new 4096 4 = Some g ∧ AudioPacketPolicy_new 44100 8000 = Some p ∧
    (AudioOutTransferBatch_build g p).1.1.1 = true.
Proof.
  destruct (AudioOutputRing_new 4096 4) as [g|] eqn:Eg; [|done].
  destruct (AudioPacketPolicy_new 44100 8000) as [p|] eqn:Ep; [|done].
  exists g, p. split; [done|]. split; [done|].
  destruct (ring_new_rel 4096 4 g Eg ltac:(by exists 1048576) ltac:(lia) ltac:(lia)) as (Hg & _ & Hc).
  pose proof (batch_plays_ring g [] p start_schedule Hg Hc (plays_new p Ep)) as H. revert H.
  destruct (AudioOutTransferBatch_build g p) as [[[built b] g'] p']. by intros (ps & q' & s' & -> & _).
Defined.
