(* ===== verification/IoKit.v ===== *)
(** * The USB services of the system as the C++ driver sees them (numark-ns6)

    IOKit and CoreFoundation are outside the repository.  Their answers are a parameter: the
    [n]-th call is answered by [answer n].  What the calls do to the process is recorded: the
    references it holds, the transfers it has in flight and the requests it sent.

    The driver threads this state through many calls that may return early, so its methods
    are written in a state monad; [wp] reasons about them. *)

From stdpp Require Import base list numbers tactics.
From Stdlib Require Import ZArith Lia ZifyBool.
From S2P Require Import Prelude.

(** ** State monad *)

Definition M (S A : Type) : Type := S → A * S.

#[export] Instance M_ret S : MRet (M S) := λ A a s, (a, s).
#[export] Instance M_bind S : MBind (M S) := λ A B f m s, let '(a, s) := m s in f a s.

Definition gets {S A} (f : S → A) : M S A := λ s, (f s, s).
Definition modify {S} (f : S → S) : M S () := λ s, ((), f s).
Definition put {S E} (g : S → E) `{Setter S E g} (v : E) : M S () := λ s, ((), s <| g := v |>).

(** A computation on a field of the state. *)
Definition zoom {S T A} (g : S → T) `{Setter S T g} (m : M T A) : M S A := λ s,
  let '(a, t) := m (g s) in (a, s <| g := t |>).

(** [for (auto& x : ...)] with an early return: the first [Some] ends the loop. *)
Fixpoint for_each {S X R} (xs : list X) (body : X → M S (option R)) : M S (option R) :=
  match xs with
  | [] => mret None
  | x :: xs' => r ← body x; match r with Some _ => mret r | None => for_each xs' body end
  end.

(** ** Weakest preconditions *)

Definition wp {S A} (m : M S A) (Q : A → S → Prop) (s : S) : Prop :=
  let '(a, s') := m s in Q a s'.

Section wp.
Context {S : Type}.

Lemma wp_ret {A} (a : A) Q (s : S) : Q a s → wp (mret a) Q s.
Proof. done. Qed.

Lemma wp_bind {A B} (m : M S A) (f : A → M S B) Q s :
  wp m (λ a, wp (f a) Q) s → wp (m ≫= f) Q s.
Proof. unfold wp, mbind, M_bind. by destruct (m s). Qed.

Lemma wp_gets {A} (f : S → A) Q s : Q (f s) s → wp (gets f) Q s.
Proof. done. Qed.

Lemma wp_modify (f : S → S) Q s : Q () (f s) → wp (modify f) Q s.
Proof. done. Qed.

Lemma wp_put {E} (g : S → E) `{Setter S E g} v (Q : () → S → Prop) s :
  Q () (s <| g := v |>) → wp (put g v) Q s.
Proof. done. Qed.

Lemma wp_zoom {T A} (g : S → T) `{Setter S T g} (m : M T A) (Q : A → S → Prop) s :
  wp m (λ a t, Q a (s <| g := t |>)) (g s) → wp (zoom g m) Q s.
Proof. unfold wp, zoom. by destruct (m (g s)). Qed.

Lemma wp_mono {A} (m : M S A) (Q Q' : A → S → Prop) s :
  wp m Q s → (∀ a s', Q a s' → Q' a s') → wp m Q' s.
Proof. unfold wp. destruct (m s). auto. Qed.

Lemma wp_and {A} (m : M S A) (Q Q' : A → S → Prop) s :
  wp m Q s → wp m Q' s → wp m (λ a s', Q a s' ∧ Q' a s') s.
Proof. unfold wp. destruct (m s). auto. Qed.

(** A loop whose body keeps an invariant, or ends it with a postcondition. *)
Lemma wp_for_each {X R} (I : list X → S → Prop) (body : X → M S (option R)) Q xs s :
  I xs s →
  (∀ x xs' s', I (x :: xs') s' →
     wp (body x) (λ r s'', match r with Some _ => Q r s'' | None => I xs' s'' end) s') →
  (∀ s', I [] s' → Q None s') → wp (for_each xs body) Q s.
Proof.
  intros HI Hb Hq. revert s HI. induction xs as [|x xs IH]; intros s HI; [by apply Hq|].
  cbn [for_each]. apply wp_bind. eapply wp_mono; [by apply Hb|].
  intros [r|] s' Hr; [done|by apply IH].
Qed.
End wp.

(** Stepping through a method: one statement, or to the next decision. *)
Ltac wp_step :=
  match goal with
  | |- wp (mret _) _ _ => apply wp_ret
  | |- wp (_ ≫= _) _ _ => apply wp_bind
  | |- wp (gets _) _ _ => apply wp_gets
  | |- wp (modify _) _ _ => apply wp_modify
  | |- wp (put _ _) _ _ => apply wp_put
  | |- wp (zoom _ _) _ _ => apply wp_zoom
  | |- wp (if ?b then _ else _) _ _ => destruct b eqn:?
  end.

Ltac wp_steps := repeat (wp_step; cbv beta).

(** ** Result codes *)

(** The result codes of IOKit that the driver names. *)
Class IOReturns := {
  kIOReturnSuccess : Z;
  kIOReturnNotReady : Z;
  kIOReturnNoDevice : Z;
  kIOReturnNoResources : Z;
  kIOReturnBadArgument : Z;
  kIOReturnTimeout : Z;
  kIOReturnUnderrun : Z;
  kIOReturnNotFound : Z;
  kIOReturnExclusiveAccess : Z;
  kIOReturnUnsupported : Z;
  kIOReturnNoMemory : Z;
  kIOReturnNotResponding : Z;
  kIOUSBPipeStalled : Z
}.

(** Each code names its own outcome. *)
Class IOReturnsLaws `{IOReturns} := {
  not_ready_fails : kIOReturnNotReady ≠ kIOReturnSuccess;
  no_device_fails : kIOReturnNoDevice ≠ kIOReturnSuccess;
  no_resources_fails : kIOReturnNoResources ≠ kIOReturnSuccess;
  bad_argument_fails : kIOReturnBadArgument ≠ kIOReturnSuccess;
  timeout_fails : kIOReturnTimeout ≠ kIOReturnSuccess;
  underrun_fails : kIOReturnUnderrun ≠ kIOReturnSuccess;
  not_found_fails : kIOReturnNotFound ≠ kIOReturnSuccess;
  exclusive_access_fails : kIOReturnExclusiveAccess ≠ kIOReturnSuccess;
  unsupported_fails : kIOReturnUnsupported ≠ kIOReturnSuccess;
  no_memory_fails : kIOReturnNoMemory ≠ kIOReturnSuccess;
  pipe_stalled_fails : kIOUSBPipeStalled ≠ kIOReturnSuccess
}.

(** The values of IOKit's headers satisfy the laws. *)
Definition iokit_returns : IOReturns := {|
  kIOReturnSuccess := 0; kIOReturnNotReady := 0xe00002d8; kIOReturnNoDevice := 0xe00002c0;
  kIOReturnNoResources := 0xe00002be; kIOReturnBadArgument := 0xe00002c2; kIOReturnTimeout := 0xe00002d6;
  kIOReturnUnderrun := 0xe00002e7; kIOReturnNotFound := 0xe00002f0; kIOReturnExclusiveAccess := 0xe00002c5;
  kIOReturnUnsupported := 0xe00002c7; kIOReturnNoMemory := 0xe00002bd;
  kIOReturnNotResponding := 0xe00002ed; kIOUSBPipeStalled := 0xe000404f |}.

Lemma iokit_returns_laws : @IOReturnsLaws iokit_returns.
Proof. by split. Qed.

(** ** What the process holds *)

(** Handles are numbers, zero is the null pointer. *)
Inductive obj :=
  | Iterator (h : Z) | Service (h : Z) | Entry (h : Z) | PlugIn (h : Z) | Interface (h : Z)
  | Device (h : Z) | OpenInterface (h : Z) | OpenDevice (h : Z) | EventSource (h : Z)
  | Scheduled (source loop : Z) | RunLoop (h : Z) | Buffer (h : Z).

#[export] Instance obj_eq_dec : EqDecision obj.
Proof. solve_decision. Defined.

Definition one (x o : obj) : Z := if decide (o = x) then 1 else 0.

(** A service of the registry as the driver queries it: the properties of its device (of the
    service itself for device services), and how its plug-in answers. *)
Record service := {
  sv_parent : bool;
  sv_vendor : option Z;
  sv_product : option Z;
  sv_speed : option Z;
  sv_id : option Z;
  sv_plugin : Z * bool;
  sv_query : Z * bool;
  sv_number : Z * Z
}.

Record reply := {
  status : Z;
  value : Z;
  bytes : list Z;
  found : list service
}.

(** A request on the control pipe, without its data stage's buffer. *)
Record request := {
  bmRequestType : Z;
  bRequest : Z;
  wValue : Z;
  wIndex : Z;
  data : list Z
}.

Record world := {
  answer : nat → reply;
  calls : nat;
  held : obj → Z;
  sent : list request
}.

#[export] Instance eta_world : Eta world := λ w,
  Build_world (answer w) (calls w) (held w) (sent w).

(** The handle a call may return is unused. *)
Definition call : M world (Z * reply) := λ w,
  ((Z.of_nat (S (calls w)), answer w (calls w)), w <| calls ::= S |>).

Definition call_status : M world Z := '(_, r) ← call; mret (status r).

Definition acquire (x : obj) : M world () := modify (λ w, w <| held ::= λ h o, h o + one x o |>).
Definition release (x : obj) : M world () := modify (λ w, w <| held ::= λ h o, h o - one x o |>).

(** A call that creates a reference when it succeeds; the null handle otherwise. *)
Definition create `{IOReturns} (kind : Z → obj) : M world (Z * Z) :=
  '(h, r) ← call;
  if status r =? kIOReturnSuccess then (acquire (kind h);; mret (status r, h)) else mret (status r, 0).

(** [ControlRequest]. *)
Definition control (q : request) : M world reply :=
  '(_, r) ← call; modify (λ w, w <| sent ::= λ l, l ++ [q] |>);; mret r.
