(* ===== verification/UsbSession.v ===== *)
(** * The USB session of the driver (numark-ns6/usb/NS6DeviceSession)

    Opening finds the two interfaces of one NS6 on a high-speed port, seizes them, selects their
    endpoints and creates their event sources; any failure closes what was opened.  Event
    sources are shared by the workers of one run loop and counted. *)

From stdpp Require Import base list numbers tactics.
From Stdlib Require Import ZArith Lia ZifyBool.
From S2P Require Import Prelude IoKit.

(** Constants of the USB headers of the system. *)
Class UsbConstants := {
  kUSBDeviceSpeedHigh : Z;
  kUSBOut : Z;
  kUSBIn : Z;
  kUSBIsoc : Z;
  kUSBBulk : Z
}.

(** ** The session *)

Record NS6DeviceSession := {
  interface_ : Z;
  asyncEventSource_ : Z;
  audioOutPipe_ : Z;
  midiInPipe_ : Z;
  midiOutPipe_ : Z;
  opened_ : bool;
  eventRunLoop_ : Z;
  eventClients_ : Z;
  auxiliaryInterface_ : Z;
  auxiliaryAsyncEventSource_ : Z;
  feedbackPipe_ : Z;
  audioInPipe_ : Z;
  auxiliaryOpened_ : bool;
  firmwareVersion_ : option (Z * Z * Z);
  previousAudioMode_ : Z;
  audioModeChanged_ : bool;
  deviceID_ : Z;
  auxiliaryEventRunLoop_ : Z;
  auxiliaryEventClients_ : Z
}.

#[export] Instance eta_session : Eta NS6DeviceSession := λ s,
  Build_NS6DeviceSession (interface_ s) (asyncEventSource_ s) (audioOutPipe_ s) (midiInPipe_ s)
    (midiOutPipe_ s) (opened_ s) (eventRunLoop_ s) (eventClients_ s) (auxiliaryInterface_ s)
    (auxiliaryAsyncEventSource_ s) (feedbackPipe_ s) (audioInPipe_ s) (auxiliaryOpened_ s)
    (firmwareVersion_ s) (previousAudioMode_ s) (audioModeChanged_ s) (deviceID_ s)
    (auxiliaryEventRunLoop_ s) (auxiliaryEventClients_ s).

Definition NS6DeviceSession_new : NS6DeviceSession := {|
  interface_ := 0; asyncEventSource_ := 0; audioOutPipe_ := 0; midiInPipe_ := 0; midiOutPipe_ := 0;
  opened_ := false; eventRunLoop_ := 0; eventClients_ := 0; auxiliaryInterface_ := 0;
  auxiliaryAsyncEventSource_ := 0; feedbackPipe_ := 0; audioInPipe_ := 0; auxiliaryOpened_ := false;
  firmwareVersion_ := None; previousAudioMode_ := 0; audioModeChanged_ := false; deviceID_ := 0;
  auxiliaryEventRunLoop_ := 0; auxiliaryEventClients_ := 0 |}.

(** The session and the system. *)
Record usb := { ses : NS6DeviceSession; io : world }.

#[export] Instance eta_usb : Eta usb := λ u, Build_usb (ses u) (io u).

Notation "f .= v" := (zoom ses (put f v)) (at level 75) : c_scope.

Section session.
Context `{IOReturns, UsbConstants}.

(** ** Finding the device *)

(** The value of a 16-bit property. *)
Definition numberProperty (property : option Z) : option Z := u16 <$> property.

Definition is_ns6 (s : service) : bool :=
  match numberProperty (sv_vendor s), numberProperty (sv_product s) with
  | Some vendor, Some product => (vendor =? 0x15e4) && (product =? 0x0079)
  | _, _ => false
  end.

(** [IOServiceGetMatchingServices]: a failure leaves no iterator. *)
Definition matching_services : M world (Z * Z * list service) :=
  '(h, r) ← call;
  if status r =? kIOReturnSuccess
  then (acquire (Iterator h);; mret (status r, h, found r)) else mret (status r, 0, []).

(** [IOIteratorNext] hands out a reference. *)
Definition next_service : M world Z := '(h, _) ← call; acquire (Service h);; mret h.

Fixpoint find_device (services : list service) : M world Z :=
  match services with
  | [] => mret 0
  | s :: rest =>
      h ← next_service;
      let id := if is_ns6 s then default 0 (sv_id s) else 0 in
      release (Service h);;
      if negb (id =? 0) then mret id else find_device rest
  end.

Definition currentDeviceID : M world Z :=
  '(status, iterator, services) ← matching_services;
  if negb (status =? kIOReturnSuccess) then mret 0
  else (id ← find_device services; release (Iterator iterator);; mret id).

Definition matching_device (wantedDeviceID : option Z) (s : service) : bool :=
  sv_parent s && is_ns6 s &&
  match numberProperty (sv_speed s), sv_id s with
  | Some speed, Some id =>
      (speed =? kUSBDeviceSpeedHigh) &&
      match wantedDeviceID with None => true | Some wanted => wanted =? id end
  | _, _ => false
  end.

(** A plug-in or interface is created when its call succeeds with a pointer. *)
Definition create_some (kind : Z → obj) (answer : Z * bool) : M world Z :=
  '(h, _) ← call;
  if (answer.1 =? kIOReturnSuccess) && answer.2 then (acquire (kind h);; mret h) else mret 0.

(** Results: the interface or null, the result code and the device of the interface. *)
Fixpoint matching_interface_from (services : list service) (wantedNumber : Z)
    (wantedDeviceID : option Z) : M world (Z * Z * option Z) :=
  match services with
  | [] => mret (0, kIOReturnNotFound, None)
  | s :: rest =>
      h ← next_service;
      (if sv_parent s then (acquire (Entry h);; release (Entry h)) else mret ());;
      if negb (matching_device wantedDeviceID s)
      then (release (Service h);; matching_interface_from rest wantedNumber wantedDeviceID)
      else
        plugin ← create_some PlugIn (sv_plugin s);
        release (Service h);;
        if plugin =? 0 then matching_interface_from rest wantedNumber wantedDeviceID
        else
          candidate ← create_some Interface (sv_query s);
          release (PlugIn plugin);;
          if candidate =? 0 then matching_interface_from rest wantedNumber wantedDeviceID
          else if ((sv_number s).1 =? kIOReturnSuccess) && ((sv_number s).2 =? wantedNumber)
          then mret (candidate, kIOReturnSuccess, sv_id s)
          else (release (Interface candidate);;
                matching_interface_from rest wantedNumber wantedDeviceID)
  end.

(** With the matching and the iterator around it: [None] when matching fails. *)
Definition matchingInterface (wantedNumber : Z) (wantedDeviceID : option Z)
    : M world (Z + Z * Z * option Z) :=
  '(status, iterator, services) ← matching_services;
  if negb (status =? kIOReturnSuccess) then mret (inl status)
  else (r ← matching_interface_from services wantedNumber wantedDeviceID;
        release (Iterator iterator);; mret (inr r)).

(** *** Selecting the configuration *)

Definition select_configuration (device : Z) : M world Z :=
  result ← call_status;
  (if negb (result =? kIOReturnSuccess) then mret result
   else
     acquire (OpenDevice device);;
     result ← call_status;
     result ← (if result =? kIOReturnSuccess then call_status else mret result);
     _ ← call_status;
     release (OpenDevice device);;
     mret result).

Fixpoint configure_from (services : list service) (iterator : Z) : M world Z :=
  match services with
  | [] => (release (Iterator iterator);; mret kIOReturnNotFound)
  | s :: rest =>
      h ← next_service;
      if negb (is_ns6 s) then (release (Service h);; configure_from rest iterator)
      else
        plugin ← create_some PlugIn (sv_plugin s);
        release (Service h);;
        release (Iterator iterator);;
        if plugin =? 0 then mret (sv_plugin s).1
        else
          device ← create_some Device (sv_query s);
          release (PlugIn plugin);;
          if device =? 0 then mret (sv_query s).1
          else (result ← select_configuration device; release (Device device);; mret result)
  end.

Definition configureDevice : M world Z :=
  '(status, iterator, services) ← matching_services;
  if negb (status =? kIOReturnSuccess) then mret status else configure_from services iterator.

Definition NS6DeviceSession_devicePresent : M world bool :=
  id ← currentDeviceID; mret (negb (id =? 0)).

Definition NS6DeviceSession_isCurrentDevice : M usb bool :=
  s ← gets ses;
  if negb (opened_ s) || (deviceID_ s =? 0) then mret false
  else (id ← zoom io currentDeviceID; mret (deviceID_ s =? id)).

(** ** Event sources *)

Definition NS6DeviceSession_acquireEvents (runLoop : Z) : M usb Z :=
  s ← gets ses;
  if (runLoop =? 0) || (asyncEventSource_ s =? 0) then mret kIOReturnNotReady
  else if negb (eventClients_ s =? 0) && negb (eventRunLoop_ s =? runLoop) then mret kIOReturnNotReady
  else
    (if eventClients_ s =? 0
     then (eventRunLoop_ .= runLoop;;
           zoom io (acquire (RunLoop runLoop);; acquire (Scheduled (asyncEventSource_ s) runLoop)))
     else mret ());;
    eventClients_ .= eventClients_ s +₃₂ 1;;
    mret kIOReturnSuccess.

Definition NS6DeviceSession_releaseEvents (runLoop : Z) : M usb Z :=
  s ← gets ses;
  if (eventClients_ s =? 0) || negb (eventRunLoop_ s =? runLoop) then mret kIOReturnNotReady
  else
    eventClients_ .= eventClients_ s -₃₂ 1;;
    (if eventClients_ s -₃₂ 1 =? 0
     then (zoom io (release (Scheduled (asyncEventSource_ s) runLoop);; release (RunLoop runLoop));;
           eventRunLoop_ .= 0)
     else mret ());;
    mret kIOReturnSuccess.

Definition NS6DeviceSession_acquireAuxiliaryEvents (runLoop : Z) : M usb Z :=
  s ← gets ses;
  if (runLoop =? 0) || (auxiliaryAsyncEventSource_ s =? 0) then mret kIOReturnNotReady
  else if negb (auxiliaryEventClients_ s =? 0) && negb (auxiliaryEventRunLoop_ s =? runLoop)
  then mret kIOReturnNotReady
  else
    (if auxiliaryEventClients_ s =? 0
     then (auxiliaryEventRunLoop_ .= runLoop;;
           zoom io (acquire (RunLoop runLoop);;
                    acquire (Scheduled (auxiliaryAsyncEventSource_ s) runLoop)))
     else mret ());;
    auxiliaryEventClients_ .= auxiliaryEventClients_ s +₃₂ 1;;
    mret kIOReturnSuccess.

Definition NS6DeviceSession_releaseAuxiliaryEvents (runLoop : Z) : M usb Z :=
  s ← gets ses;
  if (auxiliaryEventClients_ s =? 0) || negb (auxiliaryEventRunLoop_ s =? runLoop)
  then mret kIOReturnNotReady
  else
    auxiliaryEventClients_ .= auxiliaryEventClients_ s -₃₂ 1;;
    (if auxiliaryEventClients_ s -₃₂ 1 =? 0
     then (zoom io (release (Scheduled (auxiliaryAsyncEventSource_ s) runLoop);;
                    release (RunLoop runLoop));;
           auxiliaryEventRunLoop_ .= 0)
     else mret ());;
    mret kIOReturnSuccess.

(** ** Closing *)

Definition mode_request (mode : Z) : request :=
  {| bmRequestType := 0x40; bRequest := 0x49; wValue := mode; wIndex := 0; data := [] |}.

Definition restore_audio_mode : M usb Z :=
  s ← gets ses;
  if audioModeChanged_ s && opened_ s && negb (interface_ s =? 0) then
    r ← zoom io (control (mode_request (previousAudioMode_ s)));
    audioModeChanged_ .= false;;
    mret (status r)
  else mret kIOReturnSuccess.

Definition drop_events : M usb () :=
  s ← gets ses;
  (if negb (eventRunLoop_ s =? 0) && negb (asyncEventSource_ s =? 0)
   then zoom io (release (Scheduled (asyncEventSource_ s) (eventRunLoop_ s))) else mret ());;
  (if negb (eventRunLoop_ s =? 0) then zoom io (release (RunLoop (eventRunLoop_ s))) else mret ());;
  eventRunLoop_ .= 0;;
  eventClients_ .= 0;;
  (if negb (auxiliaryEventRunLoop_ s =? 0) && negb (auxiliaryAsyncEventSource_ s =? 0)
   then zoom io (release (Scheduled (auxiliaryAsyncEventSource_ s) (auxiliaryEventRunLoop_ s)))
   else mret ());;
  (if negb (auxiliaryEventRunLoop_ s =? 0)
   then zoom io (release (RunLoop (auxiliaryEventRunLoop_ s))) else mret ());;
  auxiliaryEventRunLoop_ .= 0;;
  auxiliaryEventClients_ .= 0.

(** [USBInterfaceClose]. *)
Definition close_interface (h : Z) : M usb Z :=
  zoom io (result ← call_status; release (OpenInterface h);; mret result).

Definition close_auxiliary (result : Z) : M usb Z :=
  s ← gets ses;
  result ← (if auxiliaryOpened_ s && negb (auxiliaryInterface_ s =? 0)
            then (r ← close_interface (auxiliaryInterface_ s); auxiliaryOpened_ .= false;; mret r)
            else mret result);
  (if negb (auxiliaryAsyncEventSource_ s =? 0)
   then (zoom io (release (EventSource (auxiliaryAsyncEventSource_ s)));; auxiliaryAsyncEventSource_ .= 0)
   else mret ());;
  (if negb (auxiliaryInterface_ s =? 0)
   then (zoom io (release (Interface (auxiliaryInterface_ s)));; auxiliaryInterface_ .= 0)
   else mret ());;
  feedbackPipe_ .= 0;;
  audioInPipe_ .= 0;;
  mret result.

Definition close_main (result : Z) : M usb Z :=
  s ← gets ses;
  result ← (if opened_ s && negb (interface_ s =? 0)
            then (r ← close_interface (interface_ s); opened_ .= false;;
                  mret (if result =? kIOReturnSuccess then r else result))
            else mret result);
  (if negb (asyncEventSource_ s =? 0)
   then (zoom io (release (EventSource (asyncEventSource_ s)));; asyncEventSource_ .= 0)
   else mret ());;
  (if negb (interface_ s =? 0)
   then (zoom io (release (Interface (interface_ s)));; interface_ .= 0)
   else mret ());;
  audioOutPipe_ .= 0;;
  midiInPipe_ .= 0;;
  midiOutPipe_ .= 0;;
  deviceID_ .= 0;;
  mret result.

Definition NS6DeviceSession_close : M usb Z :=
  result ← restore_audio_mode;
  drop_events;;
  result ← close_auxiliary result;
  close_main result.

(** ** Opening *)

(** [close(); return result;] *)
Definition fail (result : Z) : M usb Z := _ ← NS6DeviceSession_close; mret result.

(** The loop that waits for the interface after the configuration was selected: a code ends
    [open]. *)
Fixpoint retry_interface (attempts : nat) (result : Z) : M usb (Z + Z * option Z) :=
  match attempts with
  | O => mret (inr (result, None))
  | S attempts' =>
      r ← zoom io (matchingInterface 0 None);
      match r with
      | inl status => mret (inl status)
      | inr (h, result, id) =>
          interface_ .= h;;
          if h =? 0 then retry_interface attempts' result else mret (inr (result, id))
      end
  end.

Definition find_interface : M usb (Z + Z * option Z) :=
  r ← zoom io (matchingInterface 0 None);
  match r with
  | inl status => mret (inl status)
  | inr (h, result, id) =>
      interface_ .= h;;
      if (h =? 0) && (result =? kIOReturnNotFound) then
        result ← zoom io configureDevice;
        if negb (result =? kIOReturnSuccess) then mret (inl result) else retry_interface 20 result
      else mret (inr (result, id))
  end.

Definition firmware_request : request :=
  {| bmRequestType := 0xc0; bRequest := 0x56; wValue := 0; wIndex := 0; data := [] |}.

(** The diagnostic query of the firmware; [value] is [wLenDone]. *)
Definition query_firmware : M usb () :=
  r ← zoom io (control firmware_request);
  let firmware i := rd (bytes r) i in
  if (status r =? kIOReturnSuccess) && (3 <=? value r) && (firmware 0 =? 0x31) &&
     negb (firmware 1 =? 0) && (firmware 2 <=? 99)
  then firmwareVersion_ .= Some (firmware 1, firmware 2 / 10, firmware 2 mod 10) else mret ().

(** The properties [GetPipeProperties] answers. *)
Record pipe_properties := {
  pp_direction : Z;
  pp_number : Z;
  pp_transferType : Z;
  pp_maxPacketSize : Z;
  pp_interval : Z
}.

Definition properties_of (r : reply) : pipe_properties := {|
  pp_direction := rd (bytes r) 0; pp_number := rd (bytes r) 1; pp_transferType := rd (bytes r) 2;
  pp_maxPacketSize := rd (bytes r) 3; pp_interval := rd (bytes r) 4 |}.

Definition is_audio_out (p : pipe_properties) : bool :=
  (pp_direction p =? kUSBOut) && (pp_number p =? 2) && (pp_transferType p =? kUSBIsoc) &&
  (pp_maxPacketSize p =? 156) && (pp_interval p =? 1).
Definition is_midi_in (p : pipe_properties) : bool :=
  (pp_direction p =? kUSBIn) && (pp_number p =? 3) && (pp_transferType p =? kUSBBulk).
Definition is_midi_out (p : pipe_properties) : bool :=
  (pp_direction p =? kUSBOut) && (pp_number p =? 4) && (pp_transferType p =? kUSBBulk) &&
  (pp_maxPacketSize p =? 512).
Definition is_feedback (p : pipe_properties) : bool :=
  (pp_direction p =? kUSBIn) && (pp_number p =? 1) && (pp_transferType p =? kUSBIsoc) &&
  (pp_maxPacketSize p =? 64) && (pp_interval p =? 4).
Definition is_audio_in (p : pipe_properties) : bool :=
  (pp_direction p =? kUSBIn) && (pp_number p =? 6) && (pp_transferType p =? kUSBBulk) &&
  (pp_maxPacketSize p =? 512).

Definition choose_main (pipe : Z) (p : pipe_properties) : M usb () :=
  if is_audio_out p then audioOutPipe_ .= pipe
  else if is_midi_in p then midiInPipe_ .= pipe
  else if is_midi_out p then midiOutPipe_ .= pipe else mret ().

Definition choose_auxiliary (pipe : Z) (p : pipe_properties) : M usb () :=
  if is_feedback p then feedbackPipe_ .= pipe
  else if is_audio_in p then audioInPipe_ .= pipe else mret ().

(** Both scans of endpoints.  The counter is an 8-bit integer and the bound at most 30 (an
    interface has 15 endpoints of each direction), so it does not wrap.  A code is a failure. *)
Definition scan_pipes (choose : Z → pipe_properties → M usb ()) : M usb (option Z) :=
  '(_, r) ← zoom io call;
  if negb (status r =? kIOReturnSuccess) then mret (Some (status r))
  else
    for_each (seqZ 1 (u8 (value r))) (λ pipe,
      '(_, p) ← zoom io call;
      if negb (status p =? kIOReturnSuccess) then mret (Some (status p))
      else (choose pipe (properties_of p);; mret None)).

(** From the seized main interface to its event source. *)
Definition open_main : M usb (option Z) :=
  result ← zoom io call_status;
  if negb (result =? kIOReturnSuccess) then mret (Some result)
  else
    query_firmware;;
    r ← scan_pipes choose_main;
    match r with
    | Some _ => mret r
    | None =>
        s ← gets ses;
        if audioOutPipe_ s =? 0 then mret (Some kIOReturnUnsupported)
        else
          '(result, source) ← zoom io (create EventSource);
          asyncEventSource_ .= source;;
          mret (if result =? kIOReturnSuccess then None else Some result)
    end.

Definition open_auxiliary (deviceID : Z) : M usb (option Z) :=
  r ← zoom io (matchingInterface 1 (Some deviceID));
  match r with
  | inl status => mret (Some status)
  | inr (h, result, _) =>
      auxiliaryInterface_ .= h;;
      if h =? 0 then mret (Some result)
      else
        result ← zoom io call_status;
        if negb (result =? kIOReturnSuccess)
        then (zoom io (release (Interface h));; auxiliaryInterface_ .= 0;; mret (Some result))
        else
          zoom io (acquire (OpenInterface h));;
          auxiliaryOpened_ .= true;;
          result ← zoom io call_status;
          if negb (result =? kIOReturnSuccess) then mret (Some result)
          else
            r ← scan_pipes choose_auxiliary;
            match r with
            | Some _ => mret r
            | None =>
                s ← gets ses;
                if (feedbackPipe_ s =? 0) || (audioInPipe_ s =? 0)
                then mret (Some kIOReturnUnsupported)
                else
                  '(result, source) ← zoom io (create EventSource);
                  auxiliaryAsyncEventSource_ .= source;;
                  mret (if result =? kIOReturnSuccess then None else Some result)
            end
  end.

Definition NS6DeviceSession_open : M usb Z :=
  s ← gets ses;
  if opened_ s then mret kIOReturnExclusiveAccess
  else
    r ← find_interface;
    match r with
    | inl status => mret status
    | inr (result, id) =>
        s ← gets ses;
        if interface_ s =? 0 then mret result
        else
          result ← zoom io call_status;
          if negb (result =? kIOReturnSuccess)
          then (zoom io (release (Interface (interface_ s)));; interface_ .= 0;; mret result)
          else
            zoom io (acquire (OpenInterface (interface_ s)));;
            opened_ .= true;;
            r ← open_main;
            match r with
            | Some result => fail result
            | None =>
                let deviceID := default 0 id in
                r ← open_auxiliary deviceID;
                match r with
                | Some result => fail result
                | None => (deviceID_ .= deviceID;; mret kIOReturnSuccess)
                end
            end
    end.

(** ** The audio input mode *)

Definition read_request (code length : Z) : request :=
  {| bmRequestType := 0xc0; bRequest := code; wValue := 0; wIndex := 0; data := replicate (Z.to_nat length) 0 |}.
Definition clock_request (selector : Z) : request :=
  {| bmRequestType := 0x22; bRequest := 0x01; wValue := 0x0100; wIndex := selector;
     data := [0x44; 0xac; 0x00] |}.

Definition selected_mode (currentMode : Z) : Z := Z.lor (Z.land currentMode (Z.lnot 0x20)) 0x30.

Definition NS6DeviceSession_configureAudioInputMode : M usb Z :=
  s ← gets ses;
  if negb (opened_ s) || (interface_ s =? 0) then mret kIOReturnNotReady
  else
    capability ← zoom io (control (read_request 86 8));
    if negb (status capability =? kIOReturnSuccess) then mret (status capability)
    else
      let capabilityLength := Z.min (rd (bytes capability) 0) 8 in
      again ← (if negb (capabilityLength =? 0)
               then (r ← zoom io (control (read_request 86 capabilityLength)); mret (status r))
               else mret kIOReturnSuccess);
      if negb (again =? kIOReturnSuccess) then mret again
      else
        failed ← for_each [134; 2] (λ selector,
          r ← zoom io (control (clock_request selector));
          mret (if status r =? kIOReturnSuccess then None else Some (status r)));
        match failed with
        | Some result => mret result
        | None =>
            mode ← zoom io (control (read_request 0x49 1));
            if negb (status mode =? kIOReturnSuccess) then mret (status mode)
            else
              let currentMode := u8 (rd (bytes mode) 0) in
              r ← zoom io (control (mode_request (u16 (selected_mode currentMode))));
              s ← gets ses;
              (if (status r =? kIOReturnSuccess) && negb (audioModeChanged_ s)
               then (previousAudioMode_ .= currentMode;; audioModeChanged_ .= true) else mret ());;
              mret (status r)
        end.

End session.

(** ** A device *)

(** The constants of the headers of the system. *)
Definition usb_constants : UsbConstants :=
  {| kUSBDeviceSpeedHigh := 2; kUSBOut := 0; kUSBIn := 1; kUSBIsoc := 1; kUSBBulk := 2 |}.

(** A system with one NS6 attached, as its calls are answered while the session opens: the two
    interfaces in the registry, firmware 1.4.2, and the endpoints. *)
Definition ns6_service (number : Z) : service :=
  {| sv_parent := true; sv_vendor := Some 0x15e4; sv_product := Some 0x0079; sv_speed := Some 2;
     sv_id := Some 77; sv_plugin := (0, true); sv_query := (0, true); sv_number := (0, number) |}.

Definition ns6_answer (n : nat) : reply :=
  let r value bytes := {| status := 0; value := value; bytes := bytes;
                          found := [ns6_service 0; ns6_service 1] |} in
  match n with
  | 6%nat => r 3 [0x31; 1; 42]
  | 7%nat => r 3 []
  | 8%nat => r 0 [0; 2; 1; 156; 1]
  | 9%nat => r 0 [1; 3; 2; 64; 0]
  | 10%nat => r 0 [0; 4; 2; 512; 0]
  | 21%nat => r 2 []
  | 22%nat => r 0 [1; 1; 1; 64; 4]
  | 23%nat => r 0 [1; 6; 2; 512; 0]
  | _ => r 0 []
  end.

Definition ns6_world : world := {| answer := ns6_answer; calls := 0; held := λ _, 0; sent := [] |}.
Definition ns6_usb : usb := {| ses := NS6DeviceSession_new; io := ns6_world |}.

Example ns6_opens :
  let '(result, u) := @NS6DeviceSession_open iokit_returns usb_constants ns6_usb in
  result = 0 ∧ opened_ (ses u) = true ∧ firmwareVersion_ (ses u) = Some (1, 4, 2) ∧
  audioOutPipe_ (ses u) = 1 ∧ midiInPipe_ (ses u) = 2 ∧ midiOutPipe_ (ses u) = 3 ∧
  feedbackPipe_ (ses u) = 1 ∧ audioInPipe_ (ses u) = 2 ∧ deviceID_ (ses u) = 77.
Proof. by vm_compute. Qed.
