(* ===== verification/UsbSessionTheory.v ===== *)
(** * What the USB session holds

    Every reference the session takes from the system is held by one of its fields or was given
    back, on every path; an open session has all it needs, a failed or closed one nothing. *)

From stdpp Require Import base list numbers tactics.
From Stdlib Require Import ZArith Lia ZifyBool.
From S2P Require Import Prelude IoKit UsbSession.

(** ** Ownership *)

Definition ref (kind : Z → obj) (h : Z) (o : obj) : Z := if h =? 0 then 0 else one (kind h) o.

(** An event source on a run loop: the loop is retained and the source scheduled. *)
Definition events_ref (source loop : Z) (o : obj) : Z :=
  if loop =? 0 then 0 else one (RunLoop loop) o + one (Scheduled source loop) o.

Definition owned (s : NS6DeviceSession) (o : obj) : Z :=
  ref Interface (interface_ s) o + (if opened_ s then one (OpenInterface (interface_ s)) o else 0) +
  ref EventSource (asyncEventSource_ s) o + events_ref (asyncEventSource_ s) (eventRunLoop_ s) o +
  ref Interface (auxiliaryInterface_ s) o +
  (if auxiliaryOpened_ s then one (OpenInterface (auxiliaryInterface_ s)) o else 0) +
  ref EventSource (auxiliaryAsyncEventSource_ s) o +
  events_ref (auxiliaryAsyncEventSource_ s) (auxiliaryEventRunLoop_ s) o.

(** The process holds what the session owns, and what others own. *)
Definition balanced (others : obj → Z) (u : usb) : Prop :=
  ∀ o, held (io u) o = owned (ses u) o + others o.

(** ** States *)

(** Consistent fields; holds at every point of every operation. *)
Record consistent (s : NS6DeviceSession) : Prop := {
  c_open : opened_ s = true → interface_ s ≠ 0;
  c_aux_open : auxiliaryOpened_ s = true → auxiliaryInterface_ s ≠ 0;
  c_source : eventRunLoop_ s ≠ 0 → asyncEventSource_ s ≠ 0;
  c_aux_source : auxiliaryEventRunLoop_ s ≠ 0 → auxiliaryAsyncEventSource_ s ≠ 0;
  c_clients : is_u32 (eventClients_ s) ∧ (eventClients_ s = 0 ↔ eventRunLoop_ s = 0);
  c_aux_clients : is_u32 (auxiliaryEventClients_ s) ∧
                  (auxiliaryEventClients_ s = 0 ↔ auxiliaryEventRunLoop_ s = 0)
}.

(** A closed session remembers only the last firmware version and mode it saw. *)
Definition closed (s : NS6DeviceSession) : Prop :=
  s = NS6DeviceSession_new <| firmwareVersion_ := firmwareVersion_ s |>
        <| previousAudioMode_ := previousAudioMode_ s |>.

Record ready (s : NS6DeviceSession) : Prop := {
  rd_consistent : consistent s;
  rd_open : opened_ s = true;
  rd_aux_open : auxiliaryOpened_ s = true;
  rd_source : asyncEventSource_ s ≠ 0;
  rd_aux_source : auxiliaryAsyncEventSource_ s ≠ 0;
  rd_out : 0 < audioOutPipe_ s;
  rd_feedback : 0 < feedbackPipe_ s;
  rd_in : 0 < audioInPipe_ s
}.

Definition session_ok (s : NS6DeviceSession) : Prop := closed s ∨ ready s.

Lemma closed_consistent s : closed s → consistent s.
Proof. intros ->. by split; cbn; unfold is_u32. Qed.

Lemma closed_owns s o : closed s → owned s o = 0.
Proof. intros ->. reflexivity. Qed.

Lemma session_ok_consistent s : session_ok s → consistent s.
Proof. intros [H|H]; [by apply closed_consistent|apply H]. Qed.

#[export] Hint Resolve closed_consistent session_ok_consistent : session.

Ltac fields := cbn [set_field ses io held answer calls sent interface_ asyncEventSource_ audioOutPipe_
  midiInPipe_ midiOutPipe_ opened_ eventRunLoop_ eventClients_ auxiliaryInterface_
  auxiliaryAsyncEventSource_ feedbackPipe_ audioInPipe_ auxiliaryOpened_ firmwareVersion_
  previousAudioMode_ audioModeChanged_ deviceID_ auxiliaryEventRunLoop_ auxiliaryEventClients_] in *.

(** Ledgers are compared object by object; the references are the atoms of the arithmetic. *)
Ltac ledger := intros; unfold balanced, owned, ref, events_ref in *; fields; case_ifs; try lia.

(** ** The calls of the system *)

Section proofs.
Context {codes : IOReturns} {laws : IOReturnsLaws} {constants : UsbConstants}.

Definition keeps (w w' : world) : Prop := ∀ o, held w' o = held w o.

Lemma call_wp (Q : Z * reply → world → Prop) w :
  (∀ h r w', 0 < h → keeps w w' → sent w' = sent w → Q (h, r) w') → wp call Q w.
Proof. intros HQ. apply HQ; [lia|done..]. Qed.

Lemma call_status_wp (Q : Z → world → Prop) w :
  (∀ r w', keeps w w' → sent w' = sent w → Q r w') → wp call_status Q w.
Proof. intros HQ. apply wp_bind, call_wp. intros. by apply HQ. Qed.

Lemma control_wp q (Q : reply → world → Prop) w :
  (∀ r w', keeps w w' → sent w' = sent w ++ [q] → Q r w') → wp (control q) Q w.
Proof. intros HQ. apply wp_bind, call_wp. intros h r w' _ Hk Hs. wp_steps. apply HQ; [exact Hk|fields; congruence]. Qed.

Lemma create_wp kind (Q : Z * Z → world → Prop) w :
  (∀ r h w', 0 <= h → (r = kIOReturnSuccess ↔ h ≠ 0) →
     (∀ o, held w' o = held w o + ref kind h o) → Q (r, h) w') → wp (create kind) Q w.
Proof.
  intros HQ. apply wp_bind, call_wp. intros h r w' Hh Hk _. wp_steps.
  - apply HQ; [lia|split; lia|]. intros o. fields. rewrite (Hk o). unfold ref. case_ifs; lia.
  - apply HQ; [lia|split; lia|]. intros o. rewrite (Hk o). unfold ref. case_ifs; lia.
Qed.

Lemma create_some_wp kind a (Q : Z → world → Prop) w :
  (∀ h w', 0 <= h → (∀ o, held w' o = held w o + ref kind h o) → Q h w') → wp (create_some kind a) Q w.
Proof.
  intros HQ. apply wp_bind, call_wp. intros h r w' Hh Hk _. wp_steps.
  - apply HQ; [lia|]. intros o. fields. rewrite (Hk o). unfold ref. case_ifs; lia.
  - apply HQ; [lia|]. intros o. rewrite (Hk o). unfold ref. case_ifs; lia.
Qed.

Lemma acquire_wp x (Q : () → world → Prop) w :
  (∀ w', (∀ o, held w' o = held w o + one x o) → Q () w') → wp (acquire x) Q w.
Proof. intros HQ. by apply wp_modify, HQ. Qed.

Lemma release_wp x (Q : () → world → Prop) w :
  (∀ w', (∀ o, held w' o = held w o - one x o) → Q () w') → wp (release x) Q w.
Proof. intros HQ. by apply wp_modify, HQ. Qed.

Lemma next_service_wp (Q : Z → world → Prop) w :
  (∀ h w', (∀ o, held w' o = held w o + one (Service h) o) → Q h w') → wp next_service Q w.
Proof.
  intros HQ. apply wp_bind, call_wp. intros h r w' _ Hk _. wp_steps. apply HQ. intros o. fields.
  by rewrite (Hk o).
Qed.

Lemma matching_services_wp (Q : Z * Z * list service → world → Prop) w :
  (∀ r h l w', (r ≠ kIOReturnSuccess → keeps w w') →
     (r = kIOReturnSuccess → ∀ o, held w' o = held w o + one (Iterator h) o) → Q (r, h, l) w') →
  wp matching_services Q w.
Proof.
  intros HQ. apply wp_bind, call_wp. intros h r w' _ Hk _. wp_steps; apply HQ; intros; fields; try lia.
  - by rewrite (Hk o).
  - done.
Qed.

(** Stepping with the specifications of the calls. *)
Ltac io_step :=
  match goal with
  | |- wp call _ _ => apply call_wp; intros ? ? ? ? ? ?
  | |- wp call_status _ _ => apply call_status_wp; intros ? ? ? ?
  | |- wp (control _) _ _ => apply control_wp; intros ? ? ? ?
  | |- wp (create _) _ _ => apply create_wp; intros ? ? ? ? ? ?
  | |- wp (create_some _ _) _ _ => apply create_some_wp; intros ? ? ? ?
  | |- wp (acquire _) _ _ => apply acquire_wp; intros ? ?
  | |- wp (release _) _ _ => apply release_wp; intros ? ?
  | |- wp next_service _ _ => apply next_service_wp; intros ? ? ?
  | |- wp matching_services _ _ => apply matching_services_wp; intros ? ? ? ? ? ?
  | _ => wp_step
  end.

Ltac io_steps := repeat (io_step; cbv beta iota); fields.

(** Collecting what happened to one object. *)
Ltac at_object o :=
  repeat match goal with
  | H : _ = kIOReturnSuccess → _ |- _ => specialize (H ltac:(lia))
  | H : _ ≠ kIOReturnSuccess → _ |- _ => specialize (H ltac:(lia))
  | H : keeps _ _ |- _ => specialize (H o)
  | H : balanced _ _ |- _ => specialize (H o)
  | H : ∀ _ : obj, _ |- _ => specialize (H o)
  end.

Ltac ledger_at := let x := fresh "x" in intros x; at_object x; unfold owned, ref, events_ref in *; fields; case_ifs; lia.

Lemma ref_null kind o : ref kind 0 o = 0.
Proof. done. Qed.
Lemma events_null source o : events_ref source 0 o = 0.
Proof. done. Qed.

(** The same with the references as atoms. *)
Ltac ledger_sum := let x := fresh "x" in
  intros x; at_object x; unfold owned in *; fields; rewrite ?ref_null, ?events_null in *; lia.

(** ** Finding devices leaks nothing *)

Lemma find_device_wp l (Q : Z → world → Prop) w :
  (∀ r w', keeps w w' → Q r w') → wp (find_device l) Q w.
Proof.
  revert w. induction l as [|s l IH]; intros w HQ; cbn [find_device]; io_steps.
  - by apply HQ.
  - apply HQ. ledger_at.
  - apply IH. intros. apply HQ. ledger_at.
Qed.

Lemma current_device_wp (Q : Z → world → Prop) w :
  (∀ r w', keeps w w' → Q r w') → wp currentDeviceID Q w.
Proof.
  intros HQ. unfold currentDeviceID. io_steps.
  - apply HQ. ledger_at.
  - apply find_device_wp. intros. io_steps. apply HQ. ledger_at.
Qed.

Lemma matching_from_wp l n wanted (Q : Z * Z * option Z → world → Prop) w :
  (∀ h r id w', 0 <= h → (r = kIOReturnSuccess ↔ h ≠ 0) →
     (∀ o, held w' o = held w o + ref Interface h o) → Q (h, r, id) w') →
  wp (matching_interface_from l n wanted) Q w.
Proof.
  revert w. induction l as [|s l IH]; intros w HQ; cbn [matching_interface_from]; io_steps.
  { apply HQ; [lia|pose proof not_found_fails; intuition lia|ledger_at]. }
  all: try (apply IH; intros; apply HQ; [done..|ledger_at]).
  all: apply HQ; [done|intuition lia|ledger_at].
Qed.

Lemma matching_interface_wp n wanted (Q : Z + Z * Z * option Z → world → Prop) w :
  (∀ r w', r ≠ kIOReturnSuccess → keeps w w' → Q (inl r) w') →
  (∀ h r id w', 0 <= h → (r = kIOReturnSuccess ↔ h ≠ 0) →
     (∀ o, held w' o = held w o + ref Interface h o) → Q (inr (h, r, id)) w') →
  wp (matchingInterface n wanted) Q w.
Proof.
  intros Hl Hr. unfold matchingInterface. io_steps.
  - apply Hl; [lia|ledger_at].
  - apply matching_from_wp. intros. io_steps. apply Hr; [done..|ledger_at].
Qed.

Lemma configure_device_wp (Q : Z → world → Prop) w :
  (∀ r w', keeps w w' → Q r w') → wp configureDevice Q w.
Proof.
  intros HQ. unfold configureDevice. io_steps; [apply HQ; ledger_at|].
  enough (∀ l w0, (∀ o, held w0 o = held w o + one (Iterator h) o) → wp (configure_from l h) Q w0) as Hc
    by (apply Hc; ledger_at).
  clear -HQ. intros l. induction l as [|s l IH]; intros w0 Hw; cbn [configure_from]; io_steps.
  - apply HQ. ledger_at.
  - apply IH. ledger_at.
  - apply HQ. ledger_at.
  - apply HQ. ledger_at.
  - unfold select_configuration. io_steps; apply HQ; ledger_at.
Qed.
(** ** Closing *)

Lemma restore_wp others (Q : Z → usb → Prop) u :
  balanced others u →
  (∀ r changed w', let u' := {| ses := (ses u) <| audioModeChanged_ := changed |>; io := w' |} in
     (changed = true → audioModeChanged_ (ses u) = true ∧ (opened_ (ses u) = false ∨ interface_ (ses u) = 0)) →
     balanced others u' → Q r u') → wp restore_audio_mode Q u.
Proof.
  intros Hb HQ. unfold restore_audio_mode. io_steps.
  - apply (HQ _ false); [done|ledger_at].
  - destruct u as [[] w]. fields. eapply HQ; [|ledger_at]. intros ->. split; [done|]. fields.
    match goal with |- ?b = false ∨ _ => destruct b; [right; lia|by left] end.
Qed.

Lemma unschedule_wp source loop (Q : () → usb → Prop) (rest : M usb ()) u :
  (loop ≠ 0 → source ≠ 0) →
  (∀ w', (∀ o, held w' o = held (io u) o - events_ref source loop o) →
     wp rest Q {| ses := ses u; io := w' |}) →
  wp ((if negb (loop =? 0) && negb (source =? 0) then zoom io (release (Scheduled source loop)) else mret ());;
      (if negb (loop =? 0) then zoom io (release (RunLoop loop)) else mret ());; rest) Q u.
Proof.
  intros Hs HQ. destruct u as [s w]. destruct (Z.eqb_spec loop 0) as [->|Hl]; cbn [negb andb].
  - do 4 wp_step. apply HQ. intros o. unfold events_ref. cbn [Z.eqb ses io]. lia.
  - replace (source =? 0) with false by lia. cbn [negb andb]. apply wp_bind. io_steps. apply HQ. intros o.
    fields. at_object o. unfold events_ref. replace (loop =? 0) with false by lia. lia.
Qed.

Lemma drop_events_wp others (Q : () → usb → Prop) u :
  consistent (ses u) → balanced others u →
  (∀ w', let u' := {| ses := (ses u) <| eventRunLoop_ := 0 |> <| eventClients_ := 0 |>
                       <| auxiliaryEventRunLoop_ := 0 |> <| auxiliaryEventClients_ := 0 |>; io := w' |} in
     balanced others u' → Q () u') → wp drop_events Q u.
Proof.
  intros [_ _ H1 H2 _ _] Hb HQ. unfold drop_events. destruct u as [s w]. cbn [ses] in *. do 2 wp_step. cbv beta.
  apply unschedule_wp; [done|]. intros w1 Hw1. do 4 wp_step. cbn [ses].
  apply unschedule_wp; [done|]. intros w2 Hw2. wp_steps. apply HQ. intros o. specialize (Hb o).
  cbn [ses io] in *. rewrite Hw2, Hw1, Hb. unfold owned. fields. cbn [events_ref Z.eqb]. lia.
Qed.

(** A null pointer may be cleared as well. *)
Lemma drop_ref_wp kind (f : NS6DeviceSession → Z) `{!Setter f} (Q : () → usb → Prop) u h :
  (f (ses u) = 0 → (ses u) <| f := 0 |> = ses u) → h = f (ses u) →
  (∀ w', (∀ o, held w' o = held (io u) o - ref kind h o) →
     Q () {| ses := (ses u) <| f := 0 |>; io := w' |}) →
  wp (if negb (h =? 0) then (zoom io (release (kind h));; f .= 0) else mret ()) Q u.
Proof.
  intros Hf -> HQ. destruct u as [s w]. fields. io_steps.
  - apply HQ. ledger_at.
  - rewrite <- Hf by lia. apply HQ. ledger_at.
Qed.

Lemma close_interface_wp h (Q : Z → usb → Prop) u :
  (∀ r w', (∀ o, held w' o = held (io u) o - one (OpenInterface h) o) → Q r {| ses := ses u; io := w' |}) →
  wp (close_interface h) Q u.
Proof. intros HQ. unfold close_interface. io_steps. apply HQ. ledger_at. Qed.

Lemma close_auxiliary_wp others result (Q : Z → usb → Prop) u :
  consistent (ses u) → auxiliaryEventRunLoop_ (ses u) = 0 → balanced others u →
  (∀ r w', let u' := {| ses := (ses u) <| auxiliaryOpened_ := false |> <| auxiliaryAsyncEventSource_ := 0 |>
                       <| auxiliaryInterface_ := 0 |> <| feedbackPipe_ := 0 |> <| audioInPipe_ := 0 |>;
                     io := w' |} in
     balanced others u' → Q r u') → wp (close_auxiliary result) Q u.
Proof.
  intros [_ H1 _ _ _ _] H2 Hb HQ. unfold close_auxiliary. destruct u as [s w]. wp_step. wp_step. cbn [ses].
  wp_step. apply wp_mono with (λ _ u', ses u' = s <| auxiliaryOpened_ := false |> ∧ ∀ o, held (io u') o =
    held w o - (if auxiliaryOpened_ s then one (OpenInterface (auxiliaryInterface_ s)) o else 0)).
  { wp_step; [wp_step; apply close_interface_wp; intros; wp_steps; split; [done|]|].
    { cbn [io ses] in *. destruct (auxiliaryOpened_ s); [done|lia]. }
    wp_step. destruct (auxiliaryOpened_ s) eqn:E; [exfalso; cbn in H1; lia|]. split; [|cbn [io]; intros; lia].
    destruct s. cbn in E. by subst. }
  clear H1. intros r u' [Es Hh]. wp_step. apply drop_ref_wp; [clear; destruct u' as [[] ?]; cbn; by intros ->|by rewrite Es|].
  intros w1 Hw1. cbn [ses]. wp_step. apply drop_ref_wp; [clear; destruct u' as [[] ?]; cbn; by intros ->|by rewrite Es|].
  intros w2 Hw2. wp_steps. cbn [ses]. rewrite Es. apply HQ. cbn in H2. rewrite Es in *. clear Es HQ. unfold balanced in *. cbn [ses io] in *.
  intros o. at_object o. unfold owned in *. fields. rewrite H2, ?ref_null, ?events_null in *. lia.
Qed.

Lemma close_main_wp others result (Q : Z → usb → Prop) u :
  consistent (ses u) → eventRunLoop_ (ses u) = 0 → balanced others u →
  (∀ r w', let u' := {| ses := (ses u) <| opened_ := false |> <| asyncEventSource_ := 0 |>
                       <| interface_ := 0 |> <| audioOutPipe_ := 0 |> <| midiInPipe_ := 0 |>
                       <| midiOutPipe_ := 0 |> <| deviceID_ := 0 |>; io := w' |} in
     balanced others u' → Q r u') → wp (close_main result) Q u.
Proof.
  intros [H1 _ _ _ _ _] H2 Hb HQ. unfold close_main. destruct u as [s w]. wp_step. wp_step. cbn [ses].
  wp_step. apply wp_mono with (λ _ u', ses u' = s <| opened_ := false |> ∧ ∀ o, held (io u') o =
    held w o - (if opened_ s then one (OpenInterface (interface_ s)) o else 0)).
  { wp_step; [wp_step; apply close_interface_wp; intros; wp_steps; split; [done|]|].
    { cbn [io ses] in *. destruct (opened_ s); [done|lia]. }
    wp_step. destruct (opened_ s) eqn:E; [exfalso; cbn in H1; lia|]. split; [|cbn [io]; intros; lia].
    destruct s. cbn in E. by subst. }
  clear H1. intros r u' [Es Hh]. wp_step. apply drop_ref_wp; [clear; destruct u' as [[] ?]; cbn; by intros ->|by rewrite Es|].
  intros w1 Hw1. cbn [ses]. wp_step. apply drop_ref_wp; [clear; destruct u' as [[] ?]; cbn; by intros ->|by rewrite Es|].
  intros w2 Hw2. wp_steps. cbn [ses]. rewrite Es. apply HQ. cbn in H2. rewrite Es in *. clear Es HQ. unfold balanced in *. cbn [ses io] in *.
  intros o. at_object o. unfold owned in *. fields. rewrite H2, ?ref_null, ?events_null in *. lia.
Qed.

(** Closing gives everything back, from any consistent state. *)
Lemma close_wp others (Q : Z → usb → Prop) u :
  consistent (ses u) → (audioModeChanged_ (ses u) = true → opened_ (ses u) = true) → balanced others u →
  (∀ r u', closed (ses u') → balanced others u' → Q r u') → wp NS6DeviceSession_close Q u.
Proof.
  intros Hc Hm Hb HQ. unfold NS6DeviceSession_close. destruct u as [s w]. cbn [ses] in *.
  wp_step. eapply restore_wp; [done|]. intros r changed w1 u1 Hch Hb1.
  wp_step. eapply drop_events_wp; [destruct Hc; by split|done|]. intros w2 u2 Hb2.
  wp_step. eapply close_auxiliary_wp; [destruct Hc; split; cbn; auto; by unfold is_u32|done|done|]. intros r3 w3 u3 Hb3.
  eapply close_main_wp; [destruct Hc; split; cbn; auto; by unfold is_u32|done|done|]. intros r4 w4 u4 Hb4. apply HQ; [|done].
  assert (changed = false) as ->; [|done]. destruct changed; [|done]. destruct (Hch eq_refl) as [E1 E2]. cbn in E1, E2.
  exfalso. destruct Hc. intuition congruence.
Qed.

(** ** Opening *)

(** What scanning an interface may change. *)
Record scanned (s s' : NS6DeviceSession) : Prop := {
  sc_same : s' = s <| firmwareVersion_ := firmwareVersion_ s' |> <| audioOutPipe_ := audioOutPipe_ s' |>
                   <| midiInPipe_ := midiInPipe_ s' |> <| midiOutPipe_ := midiOutPipe_ s' |>
                   <| feedbackPipe_ := feedbackPipe_ s' |> <| audioInPipe_ := audioInPipe_ s' |>;
  sc_out : 0 <= audioOutPipe_ s → 0 <= audioOutPipe_ s';
  sc_kept : 0 < audioOutPipe_ s → 0 < audioOutPipe_ s';
  sc_feedback : 0 <= feedbackPipe_ s → 0 <= feedbackPipe_ s';
  sc_in : 0 <= audioInPipe_ s → 0 <= audioInPipe_ s'
}.

Lemma scanned_refl s : scanned s s.
Proof. by destruct s. Qed.

Lemma scanned_trans s1 s2 s3 : scanned s1 s2 → scanned s2 s3 → scanned s1 s3.
Proof.
  intros [E1 ? ? ? ?] [E2 ? ? ? ?]. split; [|by auto..]. rewrite E2, E1. reflexivity.
Qed.

Lemma choose_wp (choose : Z → pipe_properties → M usb ()) pipe p (Q : () → usb → Prop) u :
  choose = choose_main ∨ choose = choose_auxiliary → 0 < pipe →
  (∀ s', scanned (ses u) s' → Q () {| ses := s'; io := io u |}) → wp (choose pipe p) Q u.
Proof.
  intros [-> | ->] Hp HQ; unfold choose_main, choose_auxiliary; destruct u as [s w]; wp_steps;
    apply HQ; (apply scanned_refl || (split; [by destruct s|fields; lia..])).
Qed.

Lemma scan_pipes_wp choose (Q : option Z → usb → Prop) u :
  choose = choose_main ∨ choose = choose_auxiliary →
  (∀ r s' w', scanned (ses u) s' → keeps (io u) w' → r ≠ Some kIOReturnSuccess →
     Q r {| ses := s'; io := w' |}) → wp (scan_pipes choose) Q u.
Proof.
  intros Hc HQ. unfold scan_pipes. destruct u as [s w]. cbn [ses io] in *. do 3 io_step. cbn [ses io] in *.
  io_step; cbv beta. { io_step. apply HQ; [apply scanned_refl|done|]. intros [=]. lia. }
  apply wp_for_each with (I := λ xs u', Forall (λ x, 0 < x) xs ∧ scanned s (ses u') ∧ keeps w (io u')).
  - split; [|split; [apply scanned_refl|done]]. apply Forall_forall. intros x Hx.
    apply list_elem_of_In, elem_of_seqZ in Hx. lia.
  - intros x xs [s1 w1] (Hx & Hs & Hw). apply Forall_cons_1 in Hx as [Hx Hxs]. cbn [ses io] in *.
    do 3 io_step. cbn [ses io] in *. io_step; cbv beta.
    { io_step. apply (HQ _ s1); [done|ledger_at|intros [=]; lia]. }
    wp_step. apply (choose_wp choose); [done..|]. intros s2 Hs2. wp_step. split; [done|].
    split; [by eapply scanned_trans|ledger_at].
  - intros [s1 w1] (_ & Hs & Hw). by apply HQ.
Qed.

Lemma query_firmware_wp (Q : () → usb → Prop) u :
  (∀ s' w', scanned (ses u) s' → keeps (io u) w' → Q () {| ses := s'; io := w' |}) → wp query_firmware Q u.
Proof.
  intros HQ. unfold query_firmware. destruct u as [s w]. do 3 io_step. cbn [ses io] in *. io_steps; apply HQ;
    try done; (apply scanned_refl || (split; [by destruct s|done..])).
Qed.

(** The session while it is being opened. *)
Record opening (s : NS6DeviceSession) : Prop := {
  og_open : opened_ s = true;
  og_interface : interface_ s ≠ 0;
  og_aux_open : auxiliaryOpened_ s = true → auxiliaryInterface_ s ≠ 0;
  og_loops : eventRunLoop_ s = 0 ∧ auxiliaryEventRunLoop_ s = 0;
  og_clients : eventClients_ s = 0 ∧ auxiliaryEventClients_ s = 0;
  og_mode : audioModeChanged_ s = false;
  og_pipes : 0 <= audioOutPipe_ s ∧ 0 <= feedbackPipe_ s ∧ 0 <= audioInPipe_ s
}.

Lemma opening_scanned s s' : opening s → scanned s s' → opening s'.
Proof. intros [] [E ? ? ? ?]. rewrite E. split; fields; try done. intuition. Qed.

Lemma opening_consistent s : opening s → consistent s.
Proof. intros [? ? ? [? ?] [? ?] ? ?]. split; try done; try (unfold is_u32; lia); try tauto; lia. Qed.

Lemma scanned_owns s s' o : scanned s s' → owned s' o = owned s o.
Proof. intros [E _ _ _ _]. rewrite E. reflexivity. Qed.

Lemma scanned_balanced others s w s' w' :
  scanned s s' → keeps w w' → balanced others {| ses := s; io := w |} →
  balanced others {| ses := s'; io := w' |}.
Proof.
  intros Hs Hk Hb o. specialize (Hb o). cbn [ses io] in *. by rewrite (Hk o), (scanned_owns s).
Qed.

Lemma find_interface_wp others (Q : Z + Z * option Z → usb → Prop) u :
  interface_ (ses u) = 0 → balanced others u →
  (∀ r w', r ≠ kIOReturnSuccess → balanced others {| ses := ses u; io := w' |} →
     Q (inl r) {| ses := ses u; io := w' |}) →
  (∀ r id h w', 0 <= h → (r = kIOReturnSuccess ↔ h ≠ 0) →
     (∀ o, held w' o = held (io u) o + ref Interface h o) →
     Q (inr (r, id)) {| ses := (ses u) <| interface_ := h |>; io := w' |}) →
  wp find_interface Q u.
Proof.
  intros Hi Hb Hl Hr. destruct u as [s w]. cbn [ses io] in *.
  assert (s = s <| interface_ := 0 |>) as Es by (destruct s; cbn in *; by subst).
  unfold find_interface. do 2 wp_step. apply matching_interface_wp; cbn [ses io].
  { intros r w1 Hr1 Hk. wp_step. apply (Hl r w1); [done|]. intros o. specialize (Hb o). cbn [ses io] in *.
    by rewrite (Hk o). }
  intros h r id w1 Hh Hrh Hw1. do 3 wp_step. cbn [ses io]. wp_step; cbv beta.
  2: { wp_step. by apply Hr. }
  assert (h = 0) as -> by lia. do 2 wp_step. apply configure_device_wp. cbn [ses io]. intros r2 w2 Hw2.
  wp_step; cbv beta. { wp_step. fields. rewrite <- Es. apply Hl; [lia|]. intros o. specialize (Hb o).
    cbn [ses io] in *. rewrite (Hw2 o), Hw1, ref_null. lia. }
  assert (∀ o, held w2 o = held w o) as Hw by (intros o; rewrite (Hw2 o), Hw1, ref_null; lia).
  fields. clear Hw1 Hw2 Hrh Heqb r id.
  enough (∀ n r0 w0, (n = O → r0 ≠ kIOReturnSuccess) → (∀ o, held w0 o = held w o) →
    wp (retry_interface n r0) Q {| ses := s <| interface_ := 0 |>; io := w0 |}) as E by by apply E.
  clear -Hb Hl Hr Es laws. intros n. induction n as [|n IH]; intros r0 w0 Hr0 Hw; cbn [retry_interface].
  { wp_step. apply Hr; [lia|split; [intros; exfalso; by apply Hr0|done]|]. intros o. rewrite Hw, ref_null. lia. }
  do 2 wp_step. apply matching_interface_wp; cbn [ses io].
  { intros r w1 Hr1 Hk. wp_step. fields. rewrite <- Es. apply Hl; [done|]. intros o. specialize (Hb o).
    cbn [ses io] in *. rewrite (Hk o), Hw. lia. }
  intros h r id w1 Hh2 Hrh Hw1. do 3 wp_step. cbn [ses io]. wp_step; cbv beta.
  - assert (h = 0) as -> by lia. apply IH; [intros; lia|]. intros o. rewrite Hw1, Hw, ref_null. lia.
  - wp_step. fields. apply Hr; [done..|]. intros o. rewrite Hw1, Hw. done.
Qed.

Lemma open_main_wp others (Q : option Z → usb → Prop) u :
  opening (ses u) → asyncEventSource_ (ses u) = 0 → balanced others u →
  (∀ r u', opening (ses u') → balanced others u' → auxiliaryOpened_ (ses u') = auxiliaryOpened_ (ses u) →
     auxiliaryInterface_ (ses u') = auxiliaryInterface_ (ses u) →
     auxiliaryAsyncEventSource_ (ses u') = auxiliaryAsyncEventSource_ (ses u) → r ≠ Some kIOReturnSuccess →
     (r = None → asyncEventSource_ (ses u') ≠ 0 ∧ 0 < audioOutPipe_ (ses u')) → Q r u') →
  wp open_main Q u.
Proof.
  intros Ho Hs Hb HQ. unfold open_main. destruct u as [s w]. cbn [ses io] in *. do 3 io_step. cbn [ses io].
  io_step; cbv beta.
  { io_step. apply HQ; fields; try done; [ledger_sum|intros [=]; lia]. }
  wp_step. apply query_firmware_wp. fields. intros s1 w2 Hs1 Hw2.
  wp_step. apply scan_pipes_wp; [by left|]. cbn [ses io]. intros r2 s2 w3 Hs2 Hw3 Hr2.
  assert (scanned s s2) as Hs12 by by eapply scanned_trans.
  assert (balanced others {| ses := s2; io := w3 |}) as Hb3 by (eapply scanned_balanced; [done| |done]; ledger_at).
  assert (opening s2) as Ho2 by by eapply opening_scanned.
  clear dependent s1. pose proof (sc_same _ _ Hs12) as E.
  destruct r2 as [r2|].
  { wp_step. apply HQ; try done; cbn [ses]; rewrite E; done. }
  do 2 wp_step. cbn [ses]. wp_step; cbv beta.
  { wp_step. apply HQ; try done; cbn [ses]; try (rewrite E; done). pose proof unsupported_fails. congruence. }
  do 2 wp_step. apply create_wp. intros r3 h w4 Hh Hrh Hw4. do 4 wp_step. cbn [ses io] in *.
  assert (asyncEventSource_ s2 = 0) as Hs2' by by rewrite E.
  apply HQ; fields; try (rewrite E; done).
  - destruct Ho2. by split.
  - intros o. specialize (Hb3 o). unfold owned in *. fields. rewrite (Hw4 o), Hb3, Hs2', ref_null.
    destruct Ho2 as [_ _ _ [-> _] _ _ _]. rewrite !events_null. lia.
  - case_if; [done|]. intros [=]; lia.
  - case_if; [|done]. intros _. pose proof (og_pipes _ Ho2). split; lia.
Qed.

Lemma open_auxiliary_wp others id (Q : option Z → usb → Prop) u :
  opening (ses u) → auxiliaryOpened_ (ses u) = false → auxiliaryInterface_ (ses u) = 0 →
  auxiliaryAsyncEventSource_ (ses u) = 0 → asyncEventSource_ (ses u) ≠ 0 → 0 < audioOutPipe_ (ses u) →
  balanced others u →
  (∀ r u', opening (ses u') → balanced others u' → r ≠ Some kIOReturnSuccess →
     (r = None → ready (ses u')) → Q r u') →
  wp (open_auxiliary id) Q u.
Proof.
  intros Ho Ha1 Ha2 Ha3 Hs Hp Hb HQ. unfold open_auxiliary. destruct u as [s w]. cbn [ses io] in *.
  do 2 wp_step. apply matching_interface_wp; cbn [ses io].
  { intros r w1 Hr Hk. wp_step. apply HQ; fields; try done; [ledger_sum|congruence]. }
  intros h r id' w1 Hh Hrh Hw1. do 3 wp_step. wp_step; cbv beta; fields.
  { wp_step. apply HQ; fields; try done; [destruct Ho; split; fields; by try congruence| |].
    - assert (h = 0) as -> by lia. intros o. specialize (Hb o). unfold owned in *. fields.
      rewrite Hw1, Hb, Ha2, ref_null. lia.
    - intros [=]. assert (h ≠ 0) by tauto. lia. }
  do 2 wp_step. apply call_status_wp. cbn [ses io]. intros r1 w2 Hk2 _. wp_step; cbv beta.
  { do 2 wp_step. apply release_wp. cbn [ses io]. intros w3 Hw3. do 4 wp_step. apply HQ; fields.
    - destruct Ho; split; fields; by try congruence.
    - intros o. specialize (Hb o). unfold owned in *. fields. rewrite Hw3, (Hk2 o), Hw1, Hb, Ha1, Ha2.
      unfold ref. case_ifs; lia.
    - intros [=]; lia.
    - done. }
  do 2 wp_step. apply acquire_wp. cbn [ses io]. intros w3 Hw3. do 5 wp_step. apply call_status_wp. fields.
  intros r2 w4 Hk4 _.
  set (s1 := s <| auxiliaryInterface_ := h |> <| auxiliaryOpened_ := true |>).
  assert (balanced others {| ses := s1; io := w4 |}) as Hb1.
  { intros o. specialize (Hb o). unfold owned in *. subst s1. fields. rewrite (Hk4 o), Hw3, (Hk2 o), Hw1, Hb, Ha1, Ha2.
    unfold ref. case_ifs; lia. }
  assert (opening s1) as Ho1 by (destruct Ho; split; subst s1; fields; try done; intros; lia).
  change {| ses := _; io := w4 |} with {| ses := s1; io := w4 |}.
  wp_step; cbv beta. { wp_step. apply HQ; try done. intros [=]; lia. }
  wp_step. apply scan_pipes_wp; [by right|]. cbn [ses io]. intros r3 s2 w5 Hs2 Hk5 Hr3.
  assert (balanced others {| ses := s2; io := w5 |}) as Hb2 by by eapply scanned_balanced.
  assert (opening s2) as Ho2 by by eapply opening_scanned.
  pose proof (sc_same _ _ Hs2) as E.
  destruct r3 as [r3|]; [wp_step; by apply HQ|].
  do 2 wp_step. cbn [ses]. wp_step; cbv beta. { wp_step. apply HQ; try done. pose proof unsupported_fails. congruence. }
  do 2 wp_step. apply create_wp. intros r4 h4 w6 Hh4 Hrh4 Hw6. do 4 wp_step. cbn [ses io] in *.
  assert (auxiliaryAsyncEventSource_ s2 = 0) as Hs2' by by rewrite E. apply HQ; fields.
  - destruct Ho2. by split.
  - intros o. specialize (Hb2 o). unfold owned in *. fields. rewrite (Hw6 o), Hb2, Hs2', ref_null.
    destruct Ho2 as [_ _ _ [_ ->] _ _ _]. rewrite !events_null. lia.
  - case_if; [done|]. intros [=]; lia.
  - case_if; [|done]. intros _. pose proof (og_pipes _ Ho2). pose proof (opening_consistent _ Ho2) as [].
    assert (h4 ≠ 0) as Hh4' by (apply Hrh4; lia). clear Hrh4 Hw6 Hb2 HQ.
    split; fields; [by split|apply Ho2|by rewrite E|by rewrite E|done| |lia..]. by apply (sc_kept _ _ Hs2).
Qed.

Lemma open_wp others (Q : Z → usb → Prop) u :
  closed (ses u) → balanced others u →
  (∀ r u', (r = kIOReturnSuccess ∧ ready (ses u') ∧ opening (ses u')) ∨
             (r ≠ kIOReturnSuccess ∧ closed (ses u')) →
     balanced others u' → Q r u') → wp NS6DeviceSession_open Q u.
Proof.
  intros Hc Hb HQ. unfold NS6DeviceSession_open. destruct u as [s w]. cbn [ses io] in *.
  assert (opened_ s = false) as Ho by by rewrite Hc. do 2 wp_step. cbn [ses]. rewrite Ho.
  wp_step. eapply find_interface_wp; [cbn [ses]; by rewrite Hc|done|..]; cbn [ses io].
  { intros r w1 Hr Hb1. wp_step. apply HQ; [by right|done]. }
  intros r id h w1 Hh Hrh Hw1. do 2 wp_step. cbn [ses]. wp_step; cbv beta; fields.
  { wp_step. assert (h = 0) as -> by lia. replace (s <| interface_ := 0 |>) with s by by rewrite Hc.
    apply HQ; [right; split; [tauto|done]|]. intros o. specialize (Hb o). cbn [ses io] in *.
    by rewrite Hw1, ref_null, Z.add_0_r. }
  do 2 wp_step. apply call_status_wp. cbn [ses io]. intros r1 w2 Hk2 _. wp_step; cbv beta.
  { do 2 wp_step. apply release_wp. cbn [ses io]. intros w3 Hw3. do 4 wp_step. fields.
    replace (s <| interface_ := h |> <| interface_ := 0 |>) with s by by rewrite Hc.
    apply HQ; [right; split; [lia|done]|]. intros o. specialize (Hb o). fields.
    rewrite Hw3, (Hk2 o), Hw1, Hb. unfold ref. case_ifs; lia. }
  do 2 wp_step. apply acquire_wp. cbn [ses io]. intros w3 Hw3. do 3 wp_step. fields.
  set (s1 := s <| interface_ := h |> <| opened_ := true |>). change {| ses := _; io := w3 |} with {| ses := s1; io := w3 |}.
  assert (opening s1) as Ho1 by (subst s1; rewrite Hc; split; fields; try done; lia).
  assert (balanced others {| ses := s1; io := w3 |}) as Hb1.
  { intros o. specialize (Hb o). rewrite (closed_owns s) in Hb by done. subst s1. cbn [ses io] in *.
    rewrite Hw3, (Hk2 o), Hw1, Hb. rewrite Hc. unfold owned, NS6DeviceSession_new. fields.
    rewrite !ref_null, !events_null. lia. }
  wp_step. eapply open_main_wp; [done|by subst s1; rewrite Hc|done|]. cbn [ses].
  intros r2 u2 Ho2 Hb2 E1 E2 E3 Hr2 Hd2. assert (consistent (ses u2)) as Hc2 by by apply opening_consistent.
  assert (audioModeChanged_ (ses u2) = true → opened_ (ses u2) = true) as Hm2 by (intros; apply Ho2).
  destruct r2 as [r2|].
  { unfold fail. wp_step. eapply close_wp; [done..|]. intros ? u3 Hcl Hb3. wp_step. apply HQ; [right; split; [congruence|done]|done]. }
  destruct (Hd2 eq_refl) as [Hs2 Hp2]. wp_step.
  eapply open_auxiliary_wp; [done|rewrite ?E1, ?E2, ?E3; subst s1; rewrite Hc; done..|done|done|done|].
  intros r3 u3 Ho3 Hb3 Hr3 Hd3. destruct r3 as [r3|].
  - unfold fail. wp_step. eapply close_wp; [by apply opening_consistent|intros; apply Ho3|done|]. intros ? u4 Hcl Hb4.
    wp_step. apply HQ; [right; split; [congruence|done]|done].
  - do 4 wp_step. apply HQ; [left; split; [done|]|done]. destruct (Hd3 eq_refl) as [[] ? ? ? ? ? ? ?], Ho3.
    by split; [split; [split|..]|split].
Qed.

(** ** Sequences of operations *)

Inductive session_op :=
  | Open | Close | Configure | IsCurrent
  | AcquireEvents (loop : Z) | ReleaseEvents (loop : Z)
  | AcquireAuxiliaryEvents (loop : Z) | ReleaseAuxiliaryEvents (loop : Z).

Definition run_op (op : session_op) : M usb Z :=
  match op with
  | Open => NS6DeviceSession_open
  | Close => NS6DeviceSession_close
  | Configure => NS6DeviceSession_configureAudioInputMode
  | IsCurrent => (b ← NS6DeviceSession_isCurrentDevice; mret (Z.b2z b))
  | AcquireEvents loop => NS6DeviceSession_acquireEvents loop
  | ReleaseEvents loop => NS6DeviceSession_releaseEvents loop
  | AcquireAuxiliaryEvents loop => NS6DeviceSession_acquireAuxiliaryEvents loop
  | ReleaseAuxiliaryEvents loop => NS6DeviceSession_releaseAuxiliaryEvents loop
  end.

(** The results and the final state of a sequence. *)
Fixpoint run_ops (ops : list session_op) : M usb (list Z) :=
  match ops with
  | [] => mret []
  | op :: ops' => r ← run_op op; rs ← run_ops ops'; mret (r :: rs)
  end.

(** What holds between operations; at most [n] clients hold events. *)
Record session_inv (others : obj → Z) (n : Z) (u : usb) : Prop := {
  si_ok : session_ok (ses u);
  si_mode : audioModeChanged_ (ses u) = true → opened_ (ses u) = true;
  si_clients : eventClients_ (ses u) <= n ∧ auxiliaryEventClients_ (ses u) <= n;
  si_balanced : balanced others u
}.

Lemma closed_inv others n u : 0 <= n → closed (ses u) → balanced others u → session_inv others n u.
Proof. intros ? Hc Hb. split; [by left| | |done]; rewrite Hc; cbn; [done|lia]. Qed.

Lemma ready_not_closed s : ready s → ¬ closed s.
Proof. intros Hr Hc. pose proof (rd_open _ Hr) as E. by rewrite Hc in E. Qed.

(** The other fields of a ready session. *)
Lemma ready_events s loop clients aloop aclients :
  ready s → is_u32 clients → (clients = 0 ↔ loop = 0) → is_u32 aclients → (aclients = 0 ↔ aloop = 0) →
  ready (s <| eventRunLoop_ := loop |> <| eventClients_ := clients |>
           <| auxiliaryEventRunLoop_ := aloop |> <| auxiliaryEventClients_ := aclients |>).
Proof. intros [[] ? ? ? ? ? ? ?] ? ? ? ?. by split; [split|..]. Qed.

Lemma events_some source loop o :
  loop ≠ 0 → events_ref source loop o = one (RunLoop loop) o + one (Scheduled source loop) o.
Proof. intros. unfold events_ref. by case_if; [lia|]. Qed.

(** Taking and dropping a client of a ready session. *)
Ltac event_op Hs :=
  destruct Hs as [Hc|Hr]; [exfalso; rewrite Hc in *; cbn in *; lia|];
  pose proof (rd_consistent _ Hr) as [Hc1 Hc2 Hc3 Hc4 [Hc5 Hc6] [Hc7 Hc8]].

Lemma acquire_events_inv others n loop u :
  session_inv others n u → 0 <= n < UINT32_MAX →
  wp (NS6DeviceSession_acquireEvents loop) (λ _, session_inv others (n + 1)) u.
Proof.
  intros [Hs Hm [Hn1 Hn2] Hb] Hn. destruct u as [s w]. unfold NS6DeviceSession_acquireEvents. io_steps.
  1,2: split; fields; try done; lia.
  all: event_op Hs; rewrite (u32_id (eventClients_ s + 1)) by (unfold is_u32, UINT32_MAX in *; lia).
  all: split; fields; [right|done|lia|].
  - destruct Hr. split; fields; try done. split; fields; unfold is_u32, UINT32_MAX in *; lia || done.
  - assert (eventRunLoop_ s = 0) as E by lia. clear -H H0 Hb E Heqb. intros o. at_object o. unfold owned in *. fields.
    rewrite E, ?events_null, ?(events_some _ loop) in * by lia. lia.
  - destruct Hr. split; fields; try done. split; fields; unfold is_u32, UINT32_MAX in *; lia || done.
  - ledger_sum.
Qed.

Lemma acquire_auxiliary_inv others n loop u :
  session_inv others n u → 0 <= n < UINT32_MAX →
  wp (NS6DeviceSession_acquireAuxiliaryEvents loop) (λ _, session_inv others (n + 1)) u.
Proof.
  intros [Hs Hm [Hn1 Hn2] Hb] Hn. destruct u as [s w]. unfold NS6DeviceSession_acquireAuxiliaryEvents. io_steps.
  1,2: split; fields; try done; lia.
  all: event_op Hs; rewrite (u32_id (auxiliaryEventClients_ s + 1)) by (unfold is_u32, UINT32_MAX in *; lia).
  all: split; fields; [right|done|lia|].
  - destruct Hr. split; fields; try done. split; fields; unfold is_u32, UINT32_MAX in *; lia || done.
  - assert (auxiliaryEventRunLoop_ s = 0) as E by lia. clear -H H0 Hb E Heqb. intros o. at_object o. unfold owned in *. fields.
    rewrite E, ?events_null, ?(events_some _ loop) in * by lia. lia.
  - destruct Hr. split; fields; try done. split; fields; unfold is_u32, UINT32_MAX in *; lia || done.
  - ledger_sum.
Qed.


Lemma release_events_inv others n loop u :
  session_inv others n u → 0 <= n →
  wp (NS6DeviceSession_releaseEvents loop) (λ _, session_inv others (n + 1)) u.
Proof.
  intros [Hs Hm [Hn1 Hn2] Hb] Hn. destruct u as [s w]. unfold NS6DeviceSession_releaseEvents. io_steps.
  1: split; fields; try done; lia.
  all: event_op Hs; rewrite (u32_id (eventClients_ s - 1)) in * by (unfold is_u32, UINT32_MAX in *; lia).
  all: split; fields; [right|done|lia|].
  - destruct Hr. split; fields; try done. split; fields; unfold is_u32, UINT32_MAX in *; lia || done.
  - assert (eventRunLoop_ s = loop ∧ loop ≠ 0) as [E El] by lia. clear -H H0 Hb E El. intros o. at_object o.
    unfold owned in *. fields. rewrite E, ?events_null, ?(events_some _ loop) in * by lia. lia.
  - destruct Hr. split; fields; try done. split; fields; unfold is_u32, UINT32_MAX in *; lia || done.
  - ledger_sum.
Qed.

Lemma release_auxiliary_inv others n loop u :
  session_inv others n u → 0 <= n →
  wp (NS6DeviceSession_releaseAuxiliaryEvents loop) (λ _, session_inv others (n + 1)) u.
Proof.
  intros [Hs Hm [Hn1 Hn2] Hb] Hn. destruct u as [s w]. unfold NS6DeviceSession_releaseAuxiliaryEvents. io_steps.
  1: split; fields; try done; lia.
  all: event_op Hs; rewrite (u32_id (auxiliaryEventClients_ s - 1)) in * by (unfold is_u32, UINT32_MAX in *; lia).
  all: split; fields; [right|done|lia|].
  - destruct Hr. split; fields; try done. split; fields; unfold is_u32, UINT32_MAX in *; lia || done.
  - assert (auxiliaryEventRunLoop_ s = loop ∧ loop ≠ 0) as [E El] by lia. clear -H H0 Hb E El. intros o. at_object o.
    unfold owned in *. fields. rewrite E, ?events_null, ?(events_some _ loop) in * by lia. lia.
  - destruct Hr. split; fields; try done. split; fields; unfold is_u32, UINT32_MAX in *; lia || done.
  - ledger_sum.
Qed.

(** Event clients come and go without touching the interface. *)
Lemma acquire_events_interface loop u :
  wp (NS6DeviceSession_acquireEvents loop)
    (λ r u', interface_ (ses u') = interface_ (ses u) ∧ (r ≠ kIOReturnSuccess → ses u' = ses u)) u.
Proof. unfold NS6DeviceSession_acquireEvents. wp_steps; by split. Qed.

Lemma release_events_interface loop u :
  wp (NS6DeviceSession_releaseEvents loop) (λ _ u', interface_ (ses u') = interface_ (ses u)) u.
Proof. unfold NS6DeviceSession_releaseEvents. by wp_steps. Qed.

Lemma configure_inv others n u :
  session_inv others n u →
  wp NS6DeviceSession_configureAudioInputMode (λ _, session_inv others n) u.
Proof.
  intros [Hs Hm Hn Hb]. destruct u as [s w]. unfold NS6DeviceSession_configureAudioInputMode. fields.
  do 2 wp_step. cbn [ses]. wp_step; cbv beta. { wp_step. by split. }
  assert (∀ w', keeps w w' → session_inv others n {| ses := s; io := w' |}) as Hk.
  { intros w' Hk. split; try done. intros o. specialize (Hb o). cbn [ses io] in *. by rewrite (Hk o). }
  do 2 io_step. io_step. fields. io_step; cbv beta. { io_step. apply Hk. done. }
  cbn zeta.
  wp_step. apply wp_mono with (λ _ u', ∃ w', u' = {| ses := s; io := w' |} ∧ keeps w w').
  { io_steps; eexists; (split; [done|ledger_at]). }
  intros r1 ? (w2 & -> & Hk2). wp_step; cbv beta. { wp_step. by apply Hk. }
  wp_step. apply wp_mono with (λ _ u', ∃ w', u' = {| ses := s; io := w' |} ∧ keeps w w').
  { apply wp_for_each with (I := λ _ u', ∃ w', u' = {| ses := s; io := w' |} ∧ keeps w w').
    - by eexists.
    - intros x xs ? (w3 & -> & Hk3). io_steps; case_if; eexists; (split; [done|ledger_at]).
    - done. }
  intros [r2|] ? (w3 & -> & Hk3); [wp_step; by apply Hk|].
  do 2 wp_step. apply control_wp. cbn [ses io]. intros r4 w4 Hk4 _. wp_step; cbv beta. { wp_step. apply (Hk w4). ledger_at. }
  do 2 wp_step. apply control_wp. cbn [ses io]. intros r5 w5 Hk5 _. do 2 wp_step. cbn [ses].
  assert (keeps w w5) as Hkw by ledger_at.
  wp_step. wp_step; cbv beta; wp_steps; [|by apply (Hk w5)].
  destruct (Hk w5 Hkw) as [Hs' _ Hn' Hb']. split; fields; try done.
  - right. destruct Hs' as [Hc|Hr]; [exfalso; rewrite Hc in *; cbn in *; lia|]. destruct Hr as [[] ? ? ? ? ? ? ?].
    by split; [split|..].
  - intros _. destruct (opened_ s); [done|lia].
Qed.

Lemma run_op_inv others n op u :
  session_inv others n u → 0 <= n < UINT32_MAX → wp (run_op op) (λ _, session_inv others (n + 1)) u.
Proof.
  intros Hi Hn. assert (∀ u', session_inv others n u' → session_inv others (n + 1) u') as Hw.
  { intros u' [? ? ? ?]. split; try done. lia. }
  destruct op; cbn [run_op].
  - destruct (opened_ (ses u)) eqn:Eo.
    + unfold NS6DeviceSession_open. do 2 wp_step. rewrite Eo. wp_step. by apply Hw.
    + destruct Hi as [[Hc|Hr] Hm _ Hb]; [|by rewrite (rd_open _ Hr) in Eo].
      eapply open_wp; [done..|]. intros r u' [(-> & Hr & Ho)|[_ Hc']] Hb'; [|apply closed_inv; [lia|done..]].
      destruct Ho as [? ? ? ? [E1 E2] Em ?]. split; [by right|by rewrite Em|lia|done].
  - destruct Hi as [Hs Hm _ Hb]. eapply close_wp; [by apply session_ok_consistent|done..|].
    intros r u' Hc Hb'. apply closed_inv; [lia|done..].
  - eapply wp_mono; [by apply configure_inv|auto].
  - unfold NS6DeviceSession_isCurrentDevice. do 3 wp_step. wp_step; cbv beta; [by wp_steps; apply Hw|].
    do 2 wp_step. apply current_device_wp. intros r w' Hk. wp_steps. apply Hw. destruct Hi as [? ? ? Hb].
    destruct u as [s w]. fields. split; try done. intros o. specialize (Hb o). fields. by rewrite (Hk o).
  - by apply acquire_events_inv.
  - by apply release_events_inv; [|lia].
  - by apply acquire_auxiliary_inv.
  - by apply release_auxiliary_inv; [|lia].
Qed.

Lemma run_ops_inv others ops n u :
  session_inv others n u → 0 <= n → n + Z.of_nat (length ops) <= UINT32_MAX →
  wp (run_ops ops) (λ _, session_inv others (n + Z.of_nat (length ops))) u.
Proof.
  revert n u. induction ops as [|op ops IH]; intros n u Hi Hn Hlen; cbn [run_ops length] in *.
  { wp_step. by rewrite Z.add_0_r. }
  wp_step. eapply wp_mono; [apply run_op_inv; [done|lia]|]. intros r1 u1 Hi1. wp_step.
  eapply wp_mono; [apply (IH (n + 1)); [done|lia..]|]. intros rs u2 Hi2. wp_step.
  by replace (n + Z.of_nat (S (length ops))) with (n + 1 + Z.of_nat (length ops)) by lia.
Qed.

(** C6: whatever the system answers and whatever order the operations are called in, the
    process holds exactly the interfaces, opens, event sources and run loops that the
    session's fields name; an open session has both interfaces, their event sources and the
    endpoints the workers use; and closing it gives everything back. *)
Theorem session_balanced others ops w :
  (∀ o, held w o = others o) → Z.of_nat (length ops) < UINT32_MAX →
  let '(_, u) := run_ops ops {| ses := NS6DeviceSession_new; io := w |} in
  session_ok (ses u) ∧ (∀ o, held (io u) o = owned (ses u) o + others o) ∧
  let '(_, u') := NS6DeviceSession_close u in closed (ses u') ∧ ∀ o, held (io u') o = others o.
Proof.
  intros Hw Hlen. set (u0 := {| ses := _; io := w |}).
  assert (session_inv others 0 u0) as Hi by (apply closed_inv; [done..|]; intros o; cbn [ses io u0]; by rewrite Hw).
  pose proof (run_ops_inv others ops 0 u0 Hi ltac:(lia) ltac:(lia)) as Hr. unfold wp in Hr.
  destruct (run_ops ops u0) as [rs u]. destruct Hr as [Hs Hm _ Hb]. split; [done|]. split; [exact Hb|].
  enough (wp NS6DeviceSession_close (λ _ u', closed (ses u') ∧ ∀ o, held (io u') o = others o) u) as Hc
    by (unfold wp in Hc; by destruct (NS6DeviceSession_close u)).
  eapply close_wp; [by apply session_ok_consistent|done..|]. intros r u' Hc Hb'. split; [done|].
  intros o. rewrite (Hb' o), (closed_owns _ o Hc). lia.
Qed.

End proofs.

(** A device is opened, used by a worker and closed. *)
Definition one_worker : list session_op := [Open; AcquireEvents 7; Configure; ReleaseEvents 7].

Lemma session_balanced_witness :
  ses (@run_ops iokit_returns usb_constants one_worker ns6_usb).2 ≠ NS6DeviceSession_new ∧
  ∀ o, held (io (@NS6DeviceSession_close iokit_returns
    (@run_ops iokit_returns usb_constants one_worker ns6_usb).2).2) o = 0.
Proof.
  split; [by vm_compute|]. intros o.
  pose proof (@session_balanced iokit_returns iokit_returns_laws usb_constants (λ _, 0) one_worker ns6_world
    (λ _, eq_refl) ltac:(by vm_compute)) as H.
  change {| ses := NS6DeviceSession_new; io := ns6_world |} with ns6_usb in H.
  revert H. destruct (@run_ops _ _ one_worker ns6_usb) as [rs u]. intros (_ & _ & H). cbn [snd]. revert H.
  destruct (NS6DeviceSession_close u) as [r u']. intros [_ H]. apply H.
Defined.
