(* ===== verification/OutWorker.v ===== *)
(** * The output worker (numark-ns6/audio-out/AudioOutWorker)

    Eight transfers are kept in flight on the run loop of the worker: each completion builds and
    submits the next one.  Stopping aborts the pipe, waits for the transfers to come back and
    then releases the buffers. *)

From stdpp Require Import base list numbers tactics.
From Stdlib Require Import ZArith Lia ZifyBool.
From S2P Require Import Prelude Float OutRing PacketPolicy OutPacket IoKit UsbSession.

(** An entry of the frame list of a transfer. *)
Record IOUSBLowLatencyIsocFrame := {
  frStatus : Z;
  frReqCount : Z;
  frActCount : Z
}.

#[export] Instance frame_inhabited : Inhabited IOUSBLowLatencyIsocFrame :=
  populate {| frStatus := 0; frReqCount := 0; frActCount := 0 |}.

(** A slot: the handles of its two buffers and what they contain. *)
Record Slot := {
  sl_data : Z;
  sl_frames : Z;
  sl_bytes : list Z;
  sl_list : list IOUSBLowLatencyIsocFrame
}.

#[export] Instance eta_slot : Eta Slot := λ s,
  Build_Slot (sl_data s) (sl_frames s) (sl_bytes s) (sl_list s).

Definition empty_slot : Slot :=
  {| sl_data := 0; sl_frames := 0; sl_bytes := replicate (Z.to_nat kBatchMaxBytes) 0;
     sl_list := replicate (Z.to_nat kServiceIntervals) inhabitant |}.

#[export] Instance slot_inhabited : Inhabited Slot := populate empty_slot.

Record AudioOutWorker := {
  transferSlots_ : AudioOutTransferSlots;
  slots_ : list Slot;
  runLoop_ : Z;
  running_ : bool;
  sourceAdded_ : bool;
  initialized_ : bool;
  submitted_ : Z;
  completed_ : Z;
  failures_ : Z;
  nonSilentSubmitted_ : Z;
  ringUnderrunFrames_ : Z
}.

#[export] Instance eta_worker : Eta AudioOutWorker := λ w,
  Build_AudioOutWorker (transferSlots_ w) (slots_ w) (runLoop_ w) (running_ w) (sourceAdded_ w)
    (initialized_ w) (submitted_ w) (completed_ w) (failures_ w) (nonSilentSubmitted_ w)
    (ringUnderrunFrames_ w).

Definition AudioOutWorker_new : AudioOutWorker := {|
  transferSlots_ := AudioOutTransferSlots_new; slots_ := replicate (Z.to_nat kSlotCount) empty_slot;
  runLoop_ := 0; running_ := false; sourceAdded_ := false; initialized_ := false; submitted_ := 0;
  completed_ := 0; failures_ := 0; nonSilentSubmitted_ := 0; ringUnderrunFrames_ := 0 |}.

(** The worker with what it refers to.  [pending] is the system's: the slots of the transfers it
    accepted and has not completed. *)
Record out_ctx := {
  ow : AudioOutWorker;
  dev : usb;
  ring_ : AudioOutputRing;
  packetPolicy_ : AudioPacketPolicy;
  pending : list Z
}.

#[export] Instance eta_out_ctx : Eta out_ctx := λ c,
  Build_out_ctx (ow c) (dev c) (ring_ c) (packetPolicy_ c) (pending c).

(** A completion: slot, status of the transfer, and status and bytes sent of each packet. *)
Record completion := {
  cp_slot : Z;
  cp_status : Z;
  cp_frames : list (Z * Z)
}.

Section worker.
Context `{IOReturns}.

Notation "f <~ v" := (zoom ow (put f v)) (at level 75).

Definition session (c : out_ctx) : NS6DeviceSession := ses (dev c).
Definition system {A} (m : M world A) : M out_ctx A := zoom dev (zoom io m).

Definition count (f : AudioOutWorker → Z) `{Setter _ _ f} (n : Z) : M out_ctx () :=
  modify (λ c, c <| ow ::= λ w, w <| f ::= λ k, k +₆₄ n |> |>).

Definition update_slot (i : Z) (f : Slot → Slot) : M out_ctx () :=
  modify (λ c, c <| ow ::= λ w, w <| slots_ ::= λ l, wr l i (f (rd l i)) |> |>).

(** [transferSlots_.complete(slot)]; the result is not used. *)
Definition complete_slot (i : Z) : M out_ctx () :=
  modify (λ c, c <| ow ::= λ w, w <| transferSlots_ ::= λ t, (AudioOutTransferSlots_complete i t).2 |> |>).

Definition stop_accepting : M out_ctx () :=
  modify (λ c, c <| ow ::= λ w, w <| transferSlots_ ::= AudioOutTransferSlots_stopAccepting |> |>).

(** ** Submitting *)

(** The frame list of a batch. *)
Definition frame_list (batch : AudioOutTransferBatch) : list IOUSBLowLatencyIsocFrame :=
  map (λ i, {| frStatus := kIOReturnSuccess; frReqCount := AudioOutTransferBatch_packetByteCount i batch;
               frActCount := 0 |}) (seqZ 0 kServiceIntervals).

Definition submit_batch (slotIndex : Z) (batch : AudioOutTransferBatch) : M out_ctx Z :=
  let pcm := slice (bytes_ batch) 0 (byteCount_ batch) in
  update_slot slotIndex (λ s, s <| sl_bytes ::= λ b, memcpy b 0 pcm |>);;
  (if existsb (λ b, negb (b =? 0)) pcm then count nonSilentSubmitted_ 1 else mret ());;
  update_slot slotIndex (λ s, s <| sl_list := frame_list batch |>);;
  let offset := foldr Z.add 0 (map frReqCount (frame_list batch)) in
  if negb (offset =? byteCount_ batch) then (complete_slot slotIndex;; mret kIOReturnBadArgument)
  else
    result ← system call_status;
    if negb (result =? kIOReturnSuccess) then (complete_slot slotIndex;; mret result)
    else
      modify (λ c, c <| pending ::= λ l, l ++ [slotIndex] |>);;
      count submitted_ 1;;
      mret kIOReturnSuccess.

Definition AudioOutWorker_submitNext : M out_ctx Z :=
  c ← gets id;
  if negb (running_ (ow c)) || (interface_ (session c) =? 0) then mret kIOReturnNotReady
  else
    let '(slotIndex, slots, ring, policy) :=
      AudioOutTransferSlots_reserve (ring_ c) (packetPolicy_ c) (transferSlots_ (ow c)) in
    transferSlots_ <~ slots;;
    put ring_ ring;;
    put packetPolicy_ policy;;
    if slotIndex =? kNoSlot then mret kIOReturnNoResources
    else
      match AudioOutTransferSlots_packet slotIndex slots with
      | Some batch =>
          if byteCount_ batch >? kBatchMaxBytes then (complete_slot slotIndex;; mret kIOReturnBadArgument)
          else submit_batch slotIndex batch
      | None => (complete_slot slotIndex;; mret kIOReturnBadArgument)
      end.

(** ** Completions *)

(** The status of a transfer: its own, or that of the first bad packet. *)
Definition transfer_status (status : Z) (frames : list IOUSBLowLatencyIsocFrame) : Z :=
  for_loop (Z.to_nat kServiceIntervals) 0
    (λ i status,
       let frame := rd frames i in
       let status := if (status =? kIOReturnSuccess) && negb (frStatus frame =? kIOReturnSuccess)
                     then frStatus frame else status in
       if (status =? kIOReturnSuccess) && negb (frActCount frame =? frReqCount frame)
       then kIOReturnUnderrun else status) status.

Definition give_out : M out_ctx () :=
  count failures_ 1;;
  running_ <~ false;;
  stop_accepting.

Definition AudioOutWorker_didComplete (slot status : Z) : M out_ctx () :=
  c ← gets id;
  let status := transfer_status status (sl_list (rd (slots_ (ow c)) slot)) in
  complete_slot slot;;
  if negb (status =? kIOReturnSuccess) then give_out
  else
    count completed_ 1;;
    (match AudioOutTransferSlots_packet slot (transferSlots_ (ow c)) with
     | Some batch => count ringUnderrunFrames_ (missingFrames_ batch)
     | None => mret ()
     end);;
    c ← gets id;
    if running_ (ow c)
    then (result ← AudioOutWorker_submitNext;
          if negb (result =? kIOReturnSuccess) then give_out else mret ())
    else mret ().

(** The system fills the frame list in and calls back, once for each accepted transfer. *)
Definition deliver (k : completion) : M out_ctx () :=
  c ← gets id;
  if bool_decide (cp_slot k ∈ pending c) then
    modify (λ c, c <| pending ::= filter (λ i, i ≠ cp_slot k) |>);;
    update_slot (cp_slot k) (λ s, s <| sl_list ::= zip_with (λ r f,
      {| frStatus := r.1; frReqCount := frReqCount f; frActCount := r.2 |}) (cp_frames k) |>);;
    AudioOutWorker_didComplete (cp_slot k) (cp_status k)
  else mret ().

Fixpoint deliver_all (ks : list completion) : M out_ctx () :=
  match ks with
  | [] => mret ()
  | k :: ks' => (deliver k;; deliver_all ks')
  end.

(** ** Buffers *)

(** One buffer of a slot: [LowLatencyDestroyBuffer] and the first failure. *)
Definition destroy_buffer (h result : Z) : M out_ctx Z :=
  if h =? 0 then mret result
  else (released ← system call_status; system (release (Buffer h));;
        mret (if result =? kIOReturnSuccess then released else result)).

Fixpoint release_slots (indices : list Z) (result : Z) : M out_ctx Z :=
  match indices with
  | [] => mret result
  | i :: indices' =>
      c ← gets id;
      let slot := rd (slots_ (ow c)) i in
      result ← destroy_buffer (sl_data slot) result;
      update_slot i (λ s, s <| sl_data := 0 |>);;
      result ← destroy_buffer (sl_frames slot) result;
      update_slot i (λ s, s <| sl_frames := 0 |>);;
      release_slots indices' result
  end.

Definition AudioOutWorker_releaseBuffers : M out_ctx Z :=
  c ← gets id;
  if interface_ (session c) =? 0 then mret kIOReturnNotReady
  else release_slots (seqZ 0 kSlotCount) kIOReturnSuccess.

(** ** Stopping *)

(** The loop that runs the run loop until nothing is in flight or the deadline has passed: a round
    is what one run delivers, and the deadline is the end of the rounds. *)
Fixpoint drain (rounds : list (list completion)) : M out_ctx () :=
  c ← gets id;
  if inFlight_ (transferSlots_ (ow c)) =? 0 then mret ()
  else match rounds with
       | [] => mret ()
       | ks :: rounds' => (deliver_all ks;; drain rounds')
       end.

Definition AudioOutWorker_stop (rounds : list (list completion)) : M out_ctx Z :=
  c ← gets id;
  if negb (initialized_ (ow c)) then mret kIOReturnSuccess
  else
    running_ <~ false;;
    stop_accepting;;
    result ← (if negb (inFlight_ (transferSlots_ (ow c)) =? 0) && negb (interface_ (session c) =? 0)
              then (aborted ← system call_status; drain rounds;; mret aborted)
              else mret kIOReturnSuccess);
    c' ← gets id;
    if negb (inFlight_ (transferSlots_ (ow c)) =? 0) && negb (interface_ (session c) =? 0) &&
       negb (inFlight_ (transferSlots_ (ow c')) =? 0)
    then mret kIOReturnTimeout
    else
      result ← (if sourceAdded_ (ow c') && negb (runLoop_ (ow c') =? 0)
                then (released ← zoom dev (NS6DeviceSession_releaseEvents (runLoop_ (ow c')));
                      sourceAdded_ <~ false;;
                      mret (if result =? kIOReturnSuccess then released else result))
                else mret result);
      released ← AudioOutWorker_releaseBuffers;
      mret (if result =? kIOReturnSuccess then released else result).

(** ** Starting *)

(** The early returns before anything is submitted. *)
Definition abandon (result : Z) : M out_ctx Z :=
  _ ← AudioOutWorker_releaseBuffers;
  c ← gets id;
  system (release (RunLoop (runLoop_ (ow c))));;
  runLoop_ <~ 0;;
  mret result.

Definition create_buffers : M out_ctx (option Z) :=
  for_each (seqZ 0 kSlotCount) (λ i,
    '(result, data) ← system (create Buffer);
    update_slot i (λ s, s <| sl_data := data |>);;
    if negb (result =? kIOReturnSuccess) then mret (Some result)
    else
      '(result, frames) ← system (create Buffer);
      if negb (result =? kIOReturnSuccess) then mret (Some result)
      else (update_slot i (λ s, s <| sl_frames := frames |>);; mret None)).

Definition submit_all : M out_ctx (option Z) :=
  for_each (seqZ 0 kSlotCount) (λ _,
    result ← AudioOutWorker_submitNext;
    mret (if result =? kIOReturnSuccess then None else Some result)).

(** [current] is the current run loop, [rounds] what a stop after a failed submission delivers. *)
Definition AudioOutWorker_start (current : Z) (rounds : list (list completion)) : M out_ctx Z :=
  c ← gets id;
  let s := session c in
  if initialized_ (ow c) || (interface_ s =? 0) || (audioOutPipe_ s =? 0) || (asyncEventSource_ s =? 0)
  then mret kIOReturnNotReady
  else
    runLoop_ <~ current;;
    if current =? 0 then mret kIOReturnNotReady
    else
      system (acquire (RunLoop current));;
      r ← create_buffers;
      match r with
      | Some result => abandon result
      | None =>
          result ← zoom dev (NS6DeviceSession_acquireEvents current);
          if negb (result =? kIOReturnSuccess) then abandon result
          else
            sourceAdded_ <~ true;;
            running_ <~ true;;
            initialized_ <~ true;;
            r ← submit_all;
            match r with
            | Some result =>
                (count failures_ 1;; _ ← AudioOutWorker_stop rounds; mret result)
            | None => mret kIOReturnSuccess
            end
      end.

End worker.
