(* ===== verification/OutWorkerTheory.v ===== *)
(** * The output worker keeps its transfers, buffers and references in order

    At every point the slots in use are the transfers the system holds, each of them has live
    buffers with the bytes and packet lengths of its batch, and while the worker runs all eight
    are in flight.  Stopping takes the buffers back only when nothing is in flight. *)

From stdpp Require Import base list numbers tactics.
From Stdlib Require Import ZArith Lia ZifyBool.
From S2P Require Import Prelude Float OutRing OutRingTheory OutRingResample PacketPolicy PolicyTheory.
From S2P Require Import OutPacket OutPacketTheory IoKit UsbSession UsbSessionTheory OutWorker.

(** ** Slots *)

(** The slots in use are [busy]. *)
Record slots_ok (t : AudioOutTransferSlots) (busy : list Z) : Prop := {
  so_inuse : length (inUse_ t) = 8%nat;
  so_packets : length (packets_ t) = 8%nat;
  so_count : inFlight_ t = Z.of_nat (length busy);
  so_busy : ∀ i, 0 <= i < 8 → rd (inUse_ t) i = true ↔ i ∈ busy;
  so_range : ∀ i, i ∈ busy → 0 <= i < 8;
  so_nodup : NoDup busy
}.

Lemma busy_length t busy : slots_ok t busy → (length busy <= 8)%nat.
Proof.
  intros [_ _ _ _ Hr Hn]. change 8%nat with (length (seqZ 0 8)). apply submseteq_length, NoDup_submseteq; [done|].
  intros i Hi. apply elem_of_seqZ. specialize (Hr i Hi). lia.
Qed.

Lemma slots_new_ok : slots_ok AudioOutTransferSlots_new [].
Proof.
  split; try done; [|intros i Hi; by apply elem_of_nil in Hi|constructor].
  intros i Hi. rewrite elem_of_nil. split; [|done]. unfold rd. cbn [inUse_ AudioOutTransferSlots_new].
  rewrite lookup_total_replicate_2; [done|]. unfold kSlotCount. lia.
Qed.

Lemma length_filter_ne (i : Z) busy :
  NoDup busy → i ∈ busy → length busy = S (length (filter (λ j, j ≠ i) busy)).
Proof.
  induction 1 as [|j l Hj Hn IH]; intros Hi; [by apply elem_of_nil in Hi|]. rewrite filter_cons. cbn [length].
  apply elem_of_cons in Hi as [<-|Hi].
  - rewrite decide_False by (intros E; by apply E). f_equal.
    clear -Hj. induction l as [|k l IH]; [done|]. rewrite not_elem_of_cons in Hj. destruct Hj as [Hk Hl].
    rewrite filter_cons, decide_True by done. cbn [length]. f_equal. by apply IH.
  - rewrite decide_True by (intros ->; done). cbn [length]. f_equal. by apply IH.
Qed.

Lemma complete_spec t busy i :
  slots_ok t busy → i ∈ busy →
  let '(r, t') := AudioOutTransferSlots_complete i t in
  r = true ∧ slots_ok t' (filter (λ j, j ≠ i) busy) ∧ packets_ t' = packets_ t ∧ accepting_ t' = accepting_ t.
Proof.
  intros H Hi. pose proof (busy_length _ _ H). destruct H as [H1 H2 H3 H4 H5 H6]. unfold AudioOutTransferSlots_complete.
  specialize (H5 i Hi) as Hi5. unfold kSlotCount. replace (i >=? 8) with false by lia.
  rewrite (proj2 (H4 i Hi5) Hi). cbn [negb]. split; [done|]. split; [|done].
  assert (length busy = S (length (filter (λ j, j ≠ i) busy))) as Hl.
  { by apply length_filter_ne. }
  split; cbn [inUse_ packets_ inFlight_ accepting_ set_field].
  - unfold wr. by rewrite length_insert.
  - done.
  - rewrite H3. rewrite u32_id by (unfold is_u32; lia). lia.
  - intros j Hj. rewrite list_elem_of_filter. destruct (decide (j = i)) as [->|Hji].
    + rewrite rd_wr_eq by lia. split; [done|]. by intros [? _].
    + rewrite rd_wr_ne by lia. rewrite H4 by done. tauto.
  - intros j Hj. apply list_elem_of_filter in Hj as [_ Hj]. by apply H5.
  - by apply list.NoDup_filter.
Qed.

Definition well_formed (b : AudioOutTransferBatch) : Prop :=
  length (packetByteCounts_ b) = 32%nat ∧ Forall (λ n, n = 60 ∨ n = 72) (packetByteCounts_ b) ∧
  byteCount_ b = total (packetByteCounts_ b) ∧ byteCount_ b <= kBatchMaxBytes ∧
  length (bytes_ b) = Z.to_nat kBatchMaxBytes.

(** The ring and the policy are those of the runtime. *)
Definition playing (g : AudioOutputRing) (p : AudioPacketPolicy) : Prop :=
  ∃ q s, ring_rel g q ∧ channels_ g = 4 ∧ plays p s.

Lemma build_well_formed g p :
  playing g p →
  let '(built, b, g', p') := AudioOutTransferBatch_build g p in
  built = true ∧ well_formed b ∧ playing g' p'.
Proof.
  intros (q & s & Hg & Hch & Hp). unfold AudioOutTransferBatch_build.
  pose proof (build_packets_played 32 [] q s g p empty_batch Hg Hch Hp filled_empty ltac:(done)) as H.
  change (Z.to_nat kServiceIntervals) with 32%nat. change (Z.of_nat (length _)) with 0 in H.
  destruct (build_packets 32 0 g p empty_batch) as [[[built b] g'] p'].
  destruct H as (ps & q' & s' & -> & Hb & Hl & _ & Hg' & Hch' & Hp'). rewrite app_nil_l in Hb.
  split; [done|]. split; [|by exists q', s'].
  destruct (filled_shape ps b Hb Hl) as (E1 & E2 & E3 & E4 & E5). split; [|done]. by rewrite E1, length_map.
Qed.

(** A slot is found, and its batch built, unless all are in use. *)
Lemma reserve_from_spec n i g p t busy :
  slots_ok t busy → accepting_ t = true → playing g p → 0 <= i → i + Z.of_nat n = 8 →
  (∀ j, 0 <= j < i → j ∈ busy) →
  let '(slot, t', g', p') := reserve_from n i g p t in
  accepting_ t' = true ∧ playing g' p' ∧
  ((slot = kNoSlot ∧ t' = t ∧ ∀ j, 0 <= j < 8 → j ∈ busy) ∨
   (0 <= slot < 8 ∧ slot ∉ busy ∧ slots_ok t' (busy ++ [slot]) ∧ well_formed (rd (packets_ t') slot) ∧
    ∀ j, j ∈ busy → rd (packets_ t') j = rd (packets_ t) j)).
Proof.
  intros H Ha Hp. revert i. induction n as [|n IH]; intros i Hi Hn Hb; cbn [reserve_from].
  { split; [done|]. split; [done|]. left. split; [done|]. split; [done|]. intros j Hj. apply Hb. lia. }
  destruct (rd (inUse_ t) i) eqn:Ei.
  { apply IH; [lia..|]. intros j Hj. destruct (decide (j = i)) as [->|]; [|apply Hb; lia].
    apply (so_busy _ _ H); [lia|done]. }
  rewrite Ha. cbn [negb]. pose proof (build_well_formed g p Hp) as Hw.
  destruct (AudioOutTransferBatch_build g p) as [[[built b] g'] p']. destruct Hw as (-> & Hw & Hp'). cbn [negb].
  assert (i ∉ busy) as Hni by (intros E; apply (so_busy _ _ H) in E; [congruence|lia]).
  split; [done|]. split; [done|]. right. split; [lia|]. split; [done|].
  destruct H as [H1 H2 H3 H4 H5 H6]. split; [|split]; cbn [packets_ set_field].
  - split; cbn [inUse_ packets_ inFlight_ set_field].
    + unfold wr. by rewrite length_insert.
    + unfold wr. by rewrite length_insert.
    + rewrite H3, length_app. cbn [length]. rewrite u32_id; [lia|]. unfold is_u32.
      enough (length busy <= 8)%nat by lia. by apply (busy_length t).
    + intros j Hj. rewrite elem_of_app, list_elem_of_singleton. destruct (decide (j = i)) as [->|Hji].
      * rewrite rd_wr_eq by lia. tauto.
      * rewrite rd_wr_ne by lia. rewrite H4 by done. tauto.
    + intros j [Hj|Hj%list_elem_of_singleton]%elem_of_app; [by apply H5|lia].
    + apply list.NoDup_app. split; [done|]. split; [|apply NoDup_singleton].
      intros j Hj Hj2%list_elem_of_singleton. by subst.
  - by rewrite rd_wr_eq by lia.
  - intros j Hj. rewrite rd_wr_ne; [done|lia| |by intros ->]. specialize (H5 j Hj). lia.
Qed.

(** ** References of the worker *)

Definition slot_refs (s : Slot) (o : obj) : Z := ref Buffer (sl_data s) o + ref Buffer (sl_frames s) o.

Definition slots_refs (l : list Slot) (o : obj) : Z := total (map (λ s, slot_refs s o) l).

Lemma slots_refs_wr l i s o :
  0 <= i < Z.of_nat (length l) → slots_refs (wr l i s) o = slots_refs l o - slot_refs (rd l i) o + slot_refs s o.
Proof.
  intros Hi. unfold slots_refs, wr, rd. revert i Hi. induction l as [|x l IH]; intros i Hi; [cbn in Hi; lia|].
  destruct (decide (i = 0)) as [->|Hi0].
  { change (slot_refs s o + total (map (λ s, slot_refs s o) l) =
      slot_refs x o + total (map (λ s, slot_refs s o) l) - slot_refs x o + slot_refs s o). lia. }
  specialize (IH (i - 1)). replace (Z.to_nat i) with (S (Z.to_nat (i - 1))) by lia.
  change (total (map _ (<[_ := _]> (x :: l)))) with
    (slot_refs x o + total (map (λ s, slot_refs s o) (<[Z.to_nat (i - 1) := s]> l))).
  rewrite IH by (cbn in Hi; lia). change ((x :: l) !!! S _) with (l !!! Z.to_nat (i - 1)).
  change (total (map _ (x :: l))) with (slot_refs x o + total (map (λ s, slot_refs s o) l)). lia.
Qed.

Definition worker_refs (w : AudioOutWorker) (o : obj) : Z :=
  ref RunLoop (runLoop_ w) o + slots_refs (slots_ w) o.

Definition with_buffers (s : Slot) : Prop := sl_data s ≠ 0 ∧ sl_frames s ≠ 0.
Definition without_buffers (s : Slot) : Prop := sl_data s = 0 ∧ sl_frames s = 0.

(** The buffers of a slot hold the transfer of a batch. *)
Definition carries (s : Slot) (b : AudioOutTransferBatch) : Prop :=
  well_formed b ∧ slice (sl_bytes s) 0 (byteCount_ b) = slice (bytes_ b) 0 (byteCount_ b) ∧
  map frReqCount (sl_list s) = packetByteCounts_ b.

(** ** The invariant *)

Record winv (others : obj → Z) (n : Z) (c : out_ctx) : Prop := {
  wi_slots : slots_ok (transferSlots_ (ow c)) (pending c);
  wi_length : length (slots_ (ow c)) = 8%nat;
  wi_bytes : Forall (λ s, length (sl_bytes s) = Z.to_nat kBatchMaxBytes) (slots_ (ow c));
  wi_session : session_inv (λ o, worker_refs (ow c) o + others o) n (dev c);
  wi_buffers : pending c ≠ [] ∨ running_ (ow c) = true → Forall with_buffers (slots_ (ow c));
  wi_running : running_ (ow c) = true →
    accepting_ (transferSlots_ (ow c)) = true ∧ initialized_ (ow c) = true;
  wi_fresh : initialized_ (ow c) = false →
    pending c = [] ∧ Forall without_buffers (slots_ (ow c)) ∧ runLoop_ (ow c) = 0 ∧
    accepting_ (transferSlots_ (ow c)) = true ∧ sourceAdded_ (ow c) = false;
  wi_playing : playing (ring_ c) (packetPolicy_ c);
  wi_carries : ∀ i, i ∈ pending c → carries (rd (slots_ (ow c)) i) (rd (packets_ (transferSlots_ (ow c))) i)
}.

Section proofs.
Context {codes : IOReturns} {laws : IOReturnsLaws} {constants : UsbConstants}.

Lemma session_inv_io others others' n s w w' :
  session_inv others n {| ses := s; io := w |} →
  (∀ o, held w' o - held w o = others' o - others o) →
  session_inv others' n {| ses := s; io := w' |}.
Proof.
  intros [H1 H2 H3 H4] Hw. split; try done. intros o. specialize (H4 o). specialize (Hw o).
  cbn [ses io] in *. lia.
Qed.

Lemma session_inv_ext others others' n u :
  session_inv others n u → (∀ o, others' o = others o) → session_inv others' n u.
Proof. intros [H1 H2 H3 H4] Ho. split; try done. intros o. by rewrite Ho. Qed.

(** A call of the system changes only the ledger. *)
Lemma system_wp {A} (m : M world A) (Q : A → out_ctx → Prop) c :
  wp m (λ a w', Q a (c <| dev := {| ses := ses (dev c); io := w' |} |>)) (io (dev c)) → wp (system m) Q c.
Proof. intros Hm. apply wp_zoom, wp_zoom. destruct c as [? []]. exact Hm. Qed.

Lemma with_dev_id c : c <| dev := {| ses := ses (dev c); io := io (dev c) |} |> = c.
Proof. by destruct c as [? []]. Qed.

(** What submitting and completing leave alone. *)
Record same_worker (c c' : out_ctx) : Prop := {
  sw_ses : ses (dev c') = ses (dev c);
  sw_loop : runLoop_ (ow c') = runLoop_ (ow c);
  sw_source : sourceAdded_ (ow c') = sourceAdded_ (ow c);
  sw_initialized : initialized_ (ow c') = initialized_ (ow c)
}.

Lemma same_worker_refl c : same_worker c c.
Proof. done. Qed.

Lemma same_worker_trans c1 c2 c3 : same_worker c1 c2 → same_worker c2 c3 → same_worker c1 c3.
Proof. intros [] []. split; congruence. Qed.

Lemma frame_list_counts b :
  length (packetByteCounts_ b) = 32%nat → map frReqCount (frame_list b) = packetByteCounts_ b.
Proof.
  intros Hl. unfold frame_list. rewrite map_map. cbn [frReqCount].
  transitivity (map (λ i, id (rd (packetByteCounts_ b) i)) (seqZ 0 (Z.of_nat 32))).
  - apply map_ext_in. intros i Hi. apply list_elem_of_In, elem_of_seqZ in Hi.
    unfold AudioOutTransferBatch_packetByteCount, kServiceIntervals. by replace (i <? 32) with true by lia.
  - rewrite map_rd_seqZ by lia. rewrite map_id, take_ge by lia. done.
Qed.

Lemma slots_refs_same l i (f : Slot → Slot) o :
  0 <= i < Z.of_nat (length l) → (∀ s, slot_refs (f s) o = slot_refs s o) →
  slots_refs (wr l i (f (rd l i))) o = slots_refs l o.
Proof. intros Hi Hf. rewrite slots_refs_wr by done. rewrite Hf. lia. Qed.

Lemma slot_bytes others n c i :
  winv others n c → 0 <= i < 8 → length (sl_bytes (rd (slots_ (ow c)) i)) = Z.to_nat kBatchMaxBytes.
Proof.
  intros H Hi. eapply (proj1 (Forall_lookup _ _) (wi_bytes _ _ _ H) (Z.to_nat i)).
  apply list_lookup_lookup_total_lt. rewrite (wi_length _ _ _ H). lia.
Qed.

(** The parts of the invariant that a change of one slot must provide. *)
Lemma winv_update others n c c' i s :
  winv others n c → same_worker c c' → 0 <= i < 8 →
  slots_ok (transferSlots_ (ow c')) (pending c') →
  slots_ (ow c') = wr (slots_ (ow c)) i s →
  sl_data s = sl_data (rd (slots_ (ow c)) i) → sl_frames s = sl_frames (rd (slots_ (ow c)) i) →
  length (sl_bytes s) = Z.to_nat kBatchMaxBytes →
  keeps (io (dev c)) (io (dev c')) → playing (ring_ c') (packetPolicy_ c') →
  (pending c' ≠ [] ∨ running_ (ow c') = true → pending c ≠ [] ∨ running_ (ow c) = true) →
  (running_ (ow c') = true →
     running_ (ow c) = true ∧ accepting_ (transferSlots_ (ow c')) = accepting_ (transferSlots_ (ow c))) →
  initialized_ (ow c) = true →
  (∀ j, j ∈ pending c' → carries (rd (slots_ (ow c')) j) (rd (packets_ (transferSlots_ (ow c'))) j)) →
  winv others n c'.
Proof.
  intros H [Es El Ea Ei] Hi Hs Hl Ed Ef Hb Hk Hp Hpr Hr Hin Hc. pose proof (wi_length _ _ _ H) as Hlen.
  assert (0 <= i < Z.of_nat (length (slots_ (ow c)))) as Hil by lia.
  split; [done|rewrite Hl; unfold wr; by rewrite length_insert| | | | |congruence|done|done].
  - rewrite Hl. apply Forall_wr; [apply H|done].
  - assert (∀ o, worker_refs (ow c') o = worker_refs (ow c) o) as Hw.
    { intros o. unfold worker_refs. rewrite El, Hl, slots_refs_wr by done. unfold slot_refs. rewrite Ed, Ef. lia. }
    destruct (dev c') as [s' w'] eqn:E', (dev c) as [s0 w0] eqn:E0. cbn [ses io] in *. subst s'.
    eapply session_inv_io; [rewrite <- E0; apply H|]. intros o. cbv beta. rewrite Hw, (Hk o). lia.
  - intros Hor. rewrite Hl. pose proof (wi_buffers _ _ _ H (Hpr Hor)) as Hw. apply Forall_wr; [done|].
    unfold with_buffers. rewrite Ed, Ef. unfold rd. rewrite Forall_lookup in Hw. apply (Hw (Z.to_nat i)).
    apply list_lookup_lookup_total_lt. lia.
  - intros E. destruct (Hr E) as [Er Eacc]. rewrite Eacc, Ei. by apply H.
Qed.

(** A context in which slot [i] has been reserved. *)
Record reserved (c c1 : out_ctx) (i : Z) : Prop := {
  rv_same : same_worker c c1;
  rv_running : running_ (ow c) = true ∧ running_ (ow c1) = true;
  rv_pending : pending c1 = pending c;
  rv_slots : slots_ (ow c1) = slots_ (ow c);
  rv_io : keeps (io (dev c)) (io (dev c1));
  rv_playing : playing (ring_ c1) (packetPolicy_ c1);
  rv_range : 0 <= i < 8;
  rv_new : i ∉ pending c;
  rv_busy : slots_ok (transferSlots_ (ow c1)) (pending c ++ [i]);
  rv_accepting : accepting_ (transferSlots_ (ow c1)) = accepting_ (transferSlots_ (ow c));
  rv_batch : well_formed (rd (packets_ (transferSlots_ (ow c1))) i);
  rv_packets : ∀ j, j ∈ pending c →
    rd (packets_ (transferSlots_ (ow c1))) j = rd (packets_ (transferSlots_ (ow c))) j
}.

(** The slot after its buffers were filled. *)
Definition filled_slot (b : AudioOutTransferBatch) (s : Slot) : Slot :=
  s <| sl_bytes ::= λ l, memcpy l 0 (slice (bytes_ b) 0 (byteCount_ b)) |> <| sl_list := frame_list b |>.

Lemma filled_slot_carries b s :
  well_formed b → length (sl_bytes s) = Z.to_nat kBatchMaxBytes → carries (filled_slot b s) b.
Proof.
  intros Hb Hs. pose proof Hb as (H1 & H2 & H3 & H4 & H5). split; [done|]. split; [|by apply frame_list_counts].
  cbn [filled_slot sl_bytes set_field]. 
  assert (0 <= byteCount_ b) by (rewrite H3; clear -H2; induction H2 as [|x l Hx _ IH]; [done|];
    change (total (x :: l)) with (x + total l); lia).
  assert (length (slice (bytes_ b) 0 (byteCount_ b)) = Z.to_nat (byteCount_ b)) as Hl by (apply length_slice; lia).
  replace (byteCount_ b) with (Z.of_nat (length (slice (bytes_ b) 0 (byteCount_ b)))) at 2 by lia.
  apply slice_memcpy_eq; lia.
Qed.

(** After the slot was given back: only its buffers' contents changed. *)
Lemma reserved_completed others n c c1 i c' :
  winv others n c → reserved c c1 i → same_worker c1 c' → running_ (ow c') = true →
  pending c' = pending c → keeps (io (dev c1)) (io (dev c')) →
  ring_ c' = ring_ c1 → packetPolicy_ c' = packetPolicy_ c1 →
  transferSlots_ (ow c') = (AudioOutTransferSlots_complete i (transferSlots_ (ow c1))).2 →
  slots_ (ow c') = wr (slots_ (ow c)) i (filled_slot (rd (packets_ (transferSlots_ (ow c1))) i) (rd (slots_ (ow c)) i)) →
  winv others n c'.
Proof.
  intros H [R1 [R2 R2'] R3 R4 R5 R6 R7 R8 R9 R10 R11 R12] Hs Hr Hp Hk Hg Hpol Ht Hl.
  pose proof (complete_spec _ _ i R9 ltac:(apply elem_of_app; right; by left)) as Hc.
  destruct (AudioOutTransferSlots_complete i _) as [? t'] eqn:Et. destruct Hc as (_ & Hok & Epk & Eacc).
  cbn [snd] in Ht. subst t'.
  assert (filter (λ j, j ≠ i) (pending c ++ [i]) = pending c) as Ef.
  { rewrite list.filter_app, filter_cons_False, filter_nil, app_nil_r by (intros E; by apply E).
    clear -R8. induction (pending c) as [|j l IH]; [done|]. rewrite not_elem_of_cons in R8. destruct R8.
    rewrite filter_cons_True by done. f_equal. by apply IH. }
  rewrite Ef in Hok. assert (0 <= i < Z.of_nat (length (slots_ (ow c)))) as Hil by (rewrite (wi_length _ _ _ H); lia).
  eapply (winv_update others n c c' i); try done.
  - by eapply same_worker_trans.
  - by rewrite Hp.
  - cbn [filled_slot sl_bytes set_field]. unfold memcpy. rewrite length_inserts.
    by apply (slot_bytes _ _ _ _ H).
  - intros o. by rewrite (Hk o), (R5 o).
  - by rewrite Hg, Hpol.
  - by right.
  - intros _. split; [done|congruence].
  - by apply (wi_running _ _ _ H).
  - intros j Hj. rewrite Hp in Hj. pose proof (so_range _ _ (wi_slots _ _ _ H) j Hj).
    rewrite Hl, rd_wr_ne by (lia || by intros ->). rewrite Epk, R12 by done. by apply H.
Qed.


Lemma reserved_submitted others n c c1 i c' :
  winv others n c → reserved c c1 i → same_worker c1 c' → running_ (ow c') = true →
  pending c' = pending c ++ [i] → keeps (io (dev c1)) (io (dev c')) →
  ring_ c' = ring_ c1 → packetPolicy_ c' = packetPolicy_ c1 →
  transferSlots_ (ow c') = transferSlots_ (ow c1) →
  slots_ (ow c') = wr (slots_ (ow c)) i (filled_slot (rd (packets_ (transferSlots_ (ow c1))) i) (rd (slots_ (ow c)) i)) →
  winv others n c'.
Proof.
  intros H [R1 [R2 R2'] R3 R4 R5 R6 R7 R8 R9 R10 R11 R12] Hs Hr Hp Hk Hg Hpol Ht Hl.
  assert (0 <= i < Z.of_nat (length (slots_ (ow c)))) as Hil by (rewrite (wi_length _ _ _ H); lia).
  pose proof (slot_bytes _ _ _ _ H R7) as Hb.
  eapply (winv_update others n c c' i); try done.
  - by eapply same_worker_trans.
  - by rewrite Hp, Ht.
  - cbn [filled_slot sl_bytes set_field]. unfold memcpy. by rewrite length_inserts.
  - intros o. by rewrite (Hk o), (R5 o).
  - by rewrite Hg, Hpol.
  - by right.
  - intros _. split; [done|congruence].
  - by apply (wi_running _ _ _ H).
  - intros j Hj. rewrite Hp in Hj. rewrite Hl, Ht. apply elem_of_app in Hj as [Hj|Hj%list_elem_of_singleton].
    + pose proof (so_range _ _ (wi_slots _ _ _ H) j Hj).
      rewrite rd_wr_ne by (lia || by intros ->). rewrite R12 by done. by apply H.
    + subst j. rewrite rd_wr_eq by done. by apply filled_slot_carries.
Qed.

Lemma submit_batch_wp others n c c1 i (Q : Z → out_ctx → Prop) :
  winv others n c → reserved c c1 i →
  (∀ r c', winv others n c' → same_worker c c' → running_ (ow c') = running_ (ow c) →
     (r = kIOReturnSuccess → length (pending c') = S (length (pending c))) →
     (r ≠ kIOReturnSuccess → pending c' = pending c) → Q r c') →
  wp (submit_batch i (rd (packets_ (transferSlots_ (ow c1))) i)) Q c1.
Proof.
  intros H R HQ. unfold submit_batch. set (b := rd (packets_ _) i).
  destruct (rv_running _ _ _ R) as [Er Er1].
  assert (0 <= i < Z.of_nat (length (slots_ (ow c1)))) as Hil
    by (rewrite (rv_slots _ _ _ R), (wi_length _ _ _ H); apply (rv_range _ _ _ R)).
  assert (foldr Z.add 0 (map frReqCount (frame_list b)) = byteCount_ b) as Eo.
  { destruct (rv_batch _ _ _ R) as (Hw1 & _ & E & _). fold b in E, Hw1. by rewrite E, frame_list_counts. }
  rewrite Eo. clear Eo. rewrite Z.eqb_refl. cbn [negb].
  wp_step. unfold update_slot. do 2 wp_step. apply wp_mono with (λ _ c2, same_worker c1 c2 ∧ running_ (ow c2) = true ∧
    pending c2 = pending c ∧ keeps (io (dev c1)) (io (dev c2)) ∧ ring_ c2 = ring_ c1 ∧
    packetPolicy_ c2 = packetPolicy_ c1 ∧ transferSlots_ (ow c2) = transferSlots_ (ow c1) ∧
    slots_ (ow c2) = wr (slots_ (ow c1)) i ((rd (slots_ (ow c1)) i)
      <| sl_bytes ::= λ l, memcpy l 0 (slice (bytes_ b) 0 (byteCount_ b)) |>)).
  { unfold count. wp_steps; cbn [set_field ow pending running_ slots_ transferSlots_];
      (split; [done|split; [done|split; [apply R|done]]]). }
  intros _ c2 (S2 & Er2 & Ep2 & Hk2 & Eg2 & Epo2 & Et2 & El2).
  assert (wr (slots_ (ow c2)) i ((rd (slots_ (ow c2)) i) <| sl_list := frame_list b |>) =
    wr (slots_ (ow c)) i (filled_slot b (rd (slots_ (ow c)) i))) as Esl.
  { rewrite El2, rd_wr_eq, wr_wr by done. by rewrite (rv_slots _ _ _ R). }
  do 3 wp_step. apply system_wp, call_status_wp. intros r w' Hk _. cbv beta. cbn [set_field dev io] in Hk.
  assert (keeps (io (dev c1)) w') as Hk' by (intros o; by rewrite (Hk o)).
  wp_step; cbv beta.
  - unfold complete_slot. wp_steps. apply HQ; cbn [set_field ow running_ pending].
    + apply (reserved_completed others n c c1 i); cbn [set_field ow running_ pending dev io ring_ packetPolicy_
        slots_ transferSlots_]; try done; [by destruct S2|by rewrite Et2].
    + eapply same_worker_trans; [apply R|]. by destruct S2.
    + congruence.
    + intros ->. exfalso. lia.
    + done.
  - unfold count. wp_steps. apply HQ; cbn [set_field ow running_ pending].
    + apply (reserved_submitted others n c c1 i); cbn [set_field ow running_ pending dev io ring_ packetPolicy_
        slots_ transferSlots_]; try done; [by destruct S2|by rewrite Ep2].
    + eapply same_worker_trans; [apply R|]. by destruct S2.
    + congruence.
    + intros _. rewrite Ep2, length_app. cbn [length]. lia.
    + by intros [].
Qed.

(** Submitting adds one transfer, or changes nothing. *)
Lemma submit_next_wp others n (Q : Z → out_ctx → Prop) c :
  winv others n c →
  (∀ r c', winv others n c' → same_worker c c' → running_ (ow c') = running_ (ow c) →
     (r = kIOReturnSuccess → length (pending c') = S (length (pending c))) →
     (r ≠ kIOReturnSuccess → pending c' = pending c) → Q r c') →
  wp AudioOutWorker_submitNext Q c.
Proof.
  intros H HQ. unfold AudioOutWorker_submitNext. do 2 wp_step. unfold id at 1 2. wp_step; cbv beta.
  { wp_step. apply HQ; try done. intros E. by destruct (not_ready_fails E). }
  assert (running_ (ow c) = true) as Hrun by (destruct (running_ (ow c)); [done|cbn in *; lia]).
  destruct (wi_running _ _ _ H Hrun) as [Hacc Hini].
  pose proof (reserve_from_spec 8 0 (ring_ c) (packetPolicy_ c) (transferSlots_ (ow c)) (pending c)
    (wi_slots _ _ _ H) Hacc (wi_playing _ _ _ H) ltac:(lia) ltac:(lia) ltac:(lia)) as Hres.
  unfold AudioOutTransferSlots_reserve, id. rewrite Hacc. change (Z.to_nat kSlotCount) with 8%nat. cbn [negb].
  destruct (reserve_from 8 0 _ _ _) as [[[i t] g'] p']. destruct Hres as (Ha & Hp & Hres). do 7 wp_step.
  wp_step; cbv beta.
  { (* no slot *)
    wp_step. apply HQ; cbn [set_field ow pending running_]; try done; [|intros E; by destruct (no_resources_fails E)].
    destruct Hres as [(_ & -> & _)|(Hi & _)]; [|unfold kNoSlot, UINT32_MAX in *; lia].
    destruct H. split; cbn [set_field ow pending running_]; try done. }
  destruct Hres as [(-> & _)|(Hi & Hni & Ht & Hwf & Hsame)]; [done|].
  unfold AudioOutTransferSlots_packet, kSlotCount. replace (i <? 8) with true by lia. cbv iota.
  pose proof Hwf as (Hw1 & Hw2 & Hw3 & Hw4 & Hw5). wp_step; cbv beta; [lia|].
  match goal with |- wp _ _ ?c1 => apply (submit_batch_wp others n c c1 i) end; [done| |done].
  split; cbn [set_field ow running_ pending dev io ring_ packetPolicy_ slots_ transferSlots_]; try done. congruence.
Qed.

(** ** Completions *)

(** Two contexts that differ in counters. *)
Record counted (c c' : out_ctx) : Prop := {
  ct_same : same_worker c c';
  ct_running : running_ (ow c') = running_ (ow c);
  ct_slots : transferSlots_ (ow c') = transferSlots_ (ow c) ∧ slots_ (ow c') = slots_ (ow c);
  ct_rest : dev c' = dev c ∧ ring_ c' = ring_ c ∧ packetPolicy_ c' = packetPolicy_ c ∧ pending c' = pending c
}.

Lemma winv_counted others n c c' : winv others n c → counted c c' → winv others n c'.
Proof.
  intros [] [[E1 E2 E3 E4] E5 [E6 E7] (E8 & E9 & E10 & E11)].
  split; unfold worker_refs; rewrite ?E2, ?E3, ?E4, ?E5, ?E6, ?E7, ?E8, ?E9, ?E10, ?E11; done.
Qed.

(** Giving up: nothing is submitted any more. *)
Definition halted (c : out_ctx) : out_ctx :=
  c <| ow ::= λ w, w <| running_ := false |> <| transferSlots_ ::= AudioOutTransferSlots_stopAccepting |> |>.

Lemma winv_halted others n c : winv others n c → initialized_ (ow c) = true → winv others n (halted c).
Proof.
  intros [] Hi. unfold halted. split; cbn [set_field ow running_ transferSlots_ pending initialized_ slots_ dev ring_ packetPolicy_];
    try done; [|by intros [?|?]; auto|by rewrite Hi].
  destruct wi_slots0. by split.
Qed.

Lemma give_out_wp others n (Q : () → out_ctx → Prop) c :
  winv others n c → initialized_ (ow c) = true →
  (∀ c', winv others n c' → same_worker c c' → running_ (ow c') = false → pending c' = pending c → Q () c') →
  wp give_out Q c.
Proof.
  intros H Hi HQ. unfold give_out, count, stop_accepting. wp_steps. apply HQ; try done.
  apply (winv_counted _ _ (halted c)); [by apply winv_halted|done].
Qed.

(** The callback of a transfer that the system has just completed. *)
Lemma deliver_wp others n k (Q : () → out_ctx → Prop) c :
  winv others n c →
  (∀ c', winv others n c' → same_worker c c' → (length (pending c') <= length (pending c))%nat →
     (running_ (ow c') = true → running_ (ow c) = true ∧ length (pending c') = length (pending c)) → Q () c') →
  wp (deliver k) Q c.
Proof.
  intros H HQ. unfold deliver. do 2 wp_step. unfold id at 1. case_bool_decide as Hk; [|wp_step; by apply HQ].
  assert (initialized_ (ow c) = true) as Hi.
  { destruct (initialized_ (ow c)) eqn:E; [done|]. apply (wi_fresh _ _ _ H) in E as [E _]. rewrite E in Hk.
    by apply elem_of_nil in Hk. }
  pose proof (so_range _ _ (wi_slots _ _ _ H) _ Hk) as Hr.
  unfold update_slot. do 4 wp_step. unfold AudioOutWorker_didComplete, complete_slot. do 4 wp_step. unfold id.
  set (st := transfer_status _ _). clearbody st.
  pose proof (complete_spec _ _ _ (wi_slots _ _ _ H) Hk) as Hc.
  match goal with |- wp _ _ ?x => set (c1 := x) end.
  assert (winv others n c1 ∧ same_worker c c1 ∧ running_ (ow c1) = running_ (ow c) ∧
    length (pending c) = S (length (pending c1))) as (H1 & S1 & R1 & L1).
  { destruct (AudioOutTransferSlots_complete (cp_slot k) (transferSlots_ (ow c))) as [? t'] eqn:Et.
    destruct Hc as (_ & Hok & Epk & Eacc).
    assert (transferSlots_ (ow c1) = t') as Et1 by (subst c1; cbn [set_field ow transferSlots_]; by rewrite Et).
    split; [|split; [done|split; [done|]]].
    - eapply (winv_update others n c c1 (cp_slot k)); try done; try rewrite Et1; try done.
      + exact (slot_bytes _ _ _ _ H Hr).
      + by destruct H.
      + intros [Hp|?]; [left|by right]. intros E. apply Hp. subst c1. cbn [set_field pending]. by rewrite E.
      + intros j Hj. subst c1. cbn [set_field pending ow slots_] in *. apply list_elem_of_filter in Hj as [Hne Hj].
        pose proof (so_range _ _ (wi_slots _ _ _ H) _ Hj). rewrite rd_wr_ne by lia. rewrite Epk. by apply H.
    - apply length_filter_ne; [apply (wi_slots _ _ _ H)|done]. }
  clearbody c1. clear Hc. wp_step; cbv beta.
  { eapply give_out_wp; [done|by rewrite (sw_initialized _ _ S1)|]. intros c2 H2 S2 R2 P2.
    apply HQ; [done|by eapply same_worker_trans|rewrite P2; lia|congruence]. }
  unfold count, AudioOutTransferSlots_packet, kSlotCount. replace (cp_slot k <? 8) with true by lia. do 6 wp_step. unfold id.
  match goal with |- wp _ _ ?x => set (c2 := x); assert (counted c1 c2) as C2 by done; clearbody c2 end.
  assert (winv others n c2) as H2 by by eapply winv_counted. destruct C2 as [S2 R2 _ (_ & _ & _ & P2)].
  assert (same_worker c c2) as S12 by by eapply same_worker_trans. wp_step; cbv beta.
  - wp_step. eapply submit_next_wp; [done|]. intros r c3 H3 S3 R3 L3 P3.
    assert (same_worker c c3) as S13 by by eapply same_worker_trans. wp_step; cbv beta.
    + eapply give_out_wp; [done|by rewrite (sw_initialized _ _ S13)|]. intros c4 H4 S4 R4 P4.
      apply HQ; [done|by eapply same_worker_trans| |congruence]. rewrite P4, P3 by lia. rewrite P2. lia.
    + wp_step. apply HQ; [done..| |]; rewrite L3, P2 by lia; [lia|]. intros _. split; [congruence|lia].
  - wp_step. apply HQ; [done..|rewrite P2; lia|congruence].
Qed.

Lemma deliver_all_wp others n ks (Q : () → out_ctx → Prop) c :
  winv others n c →
  (∀ c', winv others n c' → same_worker c c' → (length (pending c') <= length (pending c))%nat →
     (running_ (ow c') = true → running_ (ow c) = true ∧ length (pending c') = length (pending c)) → Q () c') →
  wp (deliver_all ks) Q c.
Proof.
  revert c. induction ks as [|k ks IH]; intros c H HQ; cbn [deliver_all]; [wp_step; by apply HQ|].
  wp_step. eapply deliver_wp; [done|]. intros c1 H1 S1 L1 R1. apply IH; [done|]. intros c2 H2 S2 L2 R2.
  apply HQ; [done|by eapply same_worker_trans|lia|]. intros E. destruct (R2 E) as [E2 ->]. auto.
Qed.

Lemma drain_wp others n rounds (Q : () → out_ctx → Prop) c :
  winv others n c →
  (∀ c', winv others n c' → same_worker c c' → (running_ (ow c') = true → running_ (ow c) = true) → Q () c') →
  wp (drain rounds) Q c.
Proof.
  revert c. induction rounds as [|ks rounds IH]; intros c H HQ; cbn [drain]; do 2 wp_step; unfold id.
  - wp_step; cbv beta; wp_step; by apply HQ.
  - wp_step; cbv beta; [wp_step; by apply HQ|]. wp_step. eapply deliver_all_wp; [done|]. intros c1 H1 S1 _ R1.
    apply IH; [done|]. intros c2 H2 S2 R2. apply HQ; [done|by eapply same_worker_trans|]. intros E.
    by apply R1, R2.
Qed.


(** ** Buffers *)

(** A context with other slots and another ledger. *)
Definition with_slots (c : out_ctx) (l : list Slot) (w : world) : out_ctx :=
  c <| ow ::= λ x, x <| slots_ := l |> |> <| dev := {| ses := ses (dev c); io := w |} |>.

Lemma with_slots_id c : with_slots c (slots_ (ow c)) (io (dev c)) = c.
Proof. by destruct c as [[] []]. Qed.

(** The slots and the ledger agree: the rest is as it was with slots [l0] and ledger [w0]. *)
Record slots_ledger (l0 : list Slot) (w0 : world) (l : list Slot) (w : world) : Prop := {
  sl_length : length l = 8%nat;
  sl_sizes : Forall (λ s, length (sl_bytes s) = Z.to_nat kBatchMaxBytes) l;
  sl_held : ∀ o, held w o - held w0 o = slots_refs l o - slots_refs l0 o
}.

Lemma system_slots_wp {A} (m : M world A) (Q : A → out_ctx → Prop) c l w :
  wp m (λ a w', Q a (with_slots c l w')) w → wp (system m) Q (with_slots c l w).
Proof. intros Hm. by apply system_wp. Qed.

Lemma update_slot_wp i f (Q : () → out_ctx → Prop) c l w :
  Q () (with_slots c (wr l i (f (rd l i))) w) → wp (update_slot i f) Q (with_slots c l w).
Proof. done. Qed.

Lemma destroy_buffer_wp h result (Q : Z → out_ctx → Prop) c l w :
  (∀ r w', (∀ o, held w' o = held w o - ref Buffer h o) → Q r (with_slots c l w')) →
  wp (destroy_buffer h result) Q (with_slots c l w).
Proof.
  intros HQ. unfold destroy_buffer. wp_step; cbv beta.
  - wp_step. apply HQ. assert (h = 0) as -> by lia. intros o. rewrite ref_null. lia.
  - wp_step. apply system_slots_wp, call_status_wp. intros r w1 Hw1 _.
    wp_step. apply system_slots_wp, release_wp. intros w2 Hw2. wp_step. apply HQ. intros o. rewrite (Hw2 o), (Hw1 o). unfold ref. case_ifs; lia.
Qed.

Lemma slots_ledger_wr l0 w0 l w i s w' :
  slots_ledger l0 w0 l w → 0 <= i < 8 → sl_bytes s = sl_bytes (rd l i) →
  (∀ o, held w' o - held w o = slot_refs s o - slot_refs (rd l i) o) →
  slots_ledger l0 w0 (wr l i s) w'.
Proof.
  intros [H1 H2 H3] Hi Hb Hw. split.
  - unfold wr. by rewrite length_insert.
  - apply Forall_wr; [done|]. rewrite Hb. eapply (proj1 (Forall_lookup _ _) H2 (Z.to_nat i)).
    apply list_lookup_lookup_total_lt. lia.
  - intros o. rewrite slots_refs_wr by lia. specialize (H3 o). specialize (Hw o). lia.
Qed.

Lemma release_slots_wp idx result (Q : Z → out_ctx → Prop) c l0 w0 l w :
  slots_ledger l0 w0 l w → (∀ i, i ∈ idx → 0 <= i < 8) →
  (∀ i, 0 <= i < 8 → i ∉ idx → without_buffers (rd l i)) →
  (∀ r l' w', slots_ledger l0 w0 l' w' → Forall without_buffers l' → Q r (with_slots c l' w')) →
  wp (release_slots idx result) Q (with_slots c l w).
Proof.
  revert result l w. induction idx as [|i idx IH]; intros result l w Hl Hr Hn HQ; cbn [release_slots].
  { wp_step. apply HQ; [done|]. apply Forall_lookup. intros j s Hj. pose proof (lookup_lt_Some _ _ _ Hj).
    rewrite (sl_length _ _ _ _ Hl) in *. specialize (Hn (Z.of_nat j) ltac:(lia) ltac:(apply not_elem_of_nil)).
    unfold rd in Hn. rewrite Nat2Z.id in Hn. by rewrite (list_lookup_total_correct _ _ _ Hj) in Hn. }
  assert (0 <= i < 8) as Hi by (apply Hr; by left). pose proof (sl_length _ _ _ _ Hl) as Hlen.
  do 2 wp_step. unfold id. change (slots_ (ow (with_slots c l w))) with l.
  wp_step. apply destroy_buffer_wp. intros r1 w1 Hw1. wp_step. apply update_slot_wp.
  wp_step. apply destroy_buffer_wp. intros r2 w2 Hw2. wp_step. apply update_slot_wp.
  rewrite rd_wr_eq by lia. rewrite wr_wr.
  set (s := rd l i). apply IH.
  - eapply slots_ledger_wr; [done|done|done|]. intros o. unfold slot_refs. cbn [set_field sl_data sl_frames].
    rewrite (Hw2 o), (Hw1 o), !ref_null. fold s. lia.
  - intros j Hj. apply Hr. by right.
  - intros j Hj Hnj. destruct (decide (j = i)) as [->|Hji].
    + by rewrite rd_wr_eq by lia.
    + rewrite rd_wr_ne by lia. apply Hn; [done|]. rewrite not_elem_of_cons. done.
  - done.
Qed.

Lemma release_buffers_wp (Q : Z → out_ctx → Prop) c :
  length (slots_ (ow c)) = 8%nat →
  Forall (λ s, length (sl_bytes s) = Z.to_nat kBatchMaxBytes) (slots_ (ow c)) →
  (interface_ (ses (dev c)) = 0 → Q kIOReturnNotReady c) →
  (interface_ (ses (dev c)) ≠ 0 →
   ∀ r l' w', slots_ledger (slots_ (ow c)) (io (dev c)) l' w' → Forall without_buffers l' →
     Q r (with_slots c l' w')) →
  wp AudioOutWorker_releaseBuffers Q c.
Proof.
  intros Hlen Hb Hnull HQ. unfold AudioOutWorker_releaseBuffers. do 2 wp_step. unfold id, session. wp_step; cbv beta.
  { wp_step. apply Hnull. lia. }
  rewrite <- (with_slots_id c) at 1. eapply release_slots_wp; [|..|by apply HQ; lia].
  - split; [done..|]. intros; lia.
  - intros i Hi. apply elem_of_seqZ in Hi. unfold kSlotCount in Hi. lia.
  - intros i Hi Hn. destruct Hn. apply elem_of_seqZ. unfold kSlotCount. lia.
Qed.

Lemma with_slots_session others n c l w :
  session_inv (λ o, worker_refs (ow c) o + others o) n (dev c) →
  slots_ledger (slots_ (ow c)) (io (dev c)) l w →
  session_inv (λ o, worker_refs (ow (with_slots c l w)) o + others o) n (dev (with_slots c l w)).
Proof.
  intros Hs [_ _ Hh]. destruct c as [w0 [s0 io0] g p ps]. cbn [with_slots set_field ow dev ses io] in *.
  eapply session_inv_io; [exact Hs|]. intros o. specialize (Hh o). unfold worker_refs.
  cbn [set_field runLoop_ slots_]. lia.
Qed.


(** ** Stopping *)

(** Setting fields of the worker that the invariant does not constrain once it runs. *)
Lemma winv_source others n c b :
  winv others n c → initialized_ (ow c) = true → winv others n (c <| ow ::= λ w, w <| sourceAdded_ := b |> |>).
Proof. intros [] Hi. split; cbn [set_field ow initialized_]; try done. by rewrite Hi. Qed.

Lemma winv_dev others n n' c u :
  winv others n c → session_inv (λ o, worker_refs (ow c) o + others o) n' u → winv others n' (c <| dev := u |>).
Proof. intros [] Hu. by split. Qed.

Lemma winv_mono others n n' c : winv others n c → n <= n' → winv others n' c.
Proof.
  intros [] Hn. split; try done. destruct wi_session0 as [? ? [? ?] ?]. split; try done. lia.
Qed.

(** Releasing the buffers when no transfer uses them. *)
Lemma release_idle_wp others n (Q : Z → out_ctx → Prop) c :
  winv others n c → initialized_ (ow c) = true → running_ (ow c) = false →
  (interface_ (ses (dev c)) ≠ 0 → pending c = []) →
  (∀ r c', winv others n c' → running_ (ow c') = false → same_worker c c' →
     (interface_ (ses (dev c)) ≠ 0 → pending c' = [] ∧ Forall without_buffers (slots_ (ow c'))) → Q r c') →
  wp AudioOutWorker_releaseBuffers Q c.
Proof.
  intros H Hi Hr Hp HQ. apply release_buffers_wp; [apply H|apply H|intros E; by apply HQ|].
  intros E r l w Hl Hn. specialize (Hp E). apply HQ; try done.
  split; cbn [with_slots set_field ow pending running_ initialized_ transferSlots_ slots_ ring_ packetPolicy_];
    try apply H; try apply Hl.
  - apply (with_slots_session others n c l w); [apply H|done].
  - rewrite Hp, Hr. by intros [?|?].
  - by rewrite Hi.
  - rewrite Hp. by intros ? ?%elem_of_nil.
Qed.

Lemma pending_nil others n c :
  winv others n c → inFlight_ (transferSlots_ (ow c)) = 0 → pending c = [].
Proof.
  intros H E. rewrite (so_count _ _ (wi_slots _ _ _ H)) in E. destruct (pending c); [done|]. cbn in E. lia.
Qed.

(** Dropping the event client and the buffers of a halted worker. *)
Definition wind_up (result : Z) : M out_ctx Z :=
  c' ← gets id;
  result ← (if sourceAdded_ (ow c') && negb (runLoop_ (ow c') =? 0)
            then (released ← zoom dev (NS6DeviceSession_releaseEvents (runLoop_ (ow c')));
                  zoom ow (put sourceAdded_ false);;
                  mret (if result =? kIOReturnSuccess then released else result))
            else mret result);
  released ← AudioOutWorker_releaseBuffers;
  mret (if result =? kIOReturnSuccess then released else result).

Lemma wind_up_wp others n result (Q : Z → out_ctx → Prop) c :
  winv others n c → 0 <= n → initialized_ (ow c) = true → running_ (ow c) = false →
  (interface_ (ses (dev c)) ≠ 0 → pending c = []) →
  (∀ r c', winv others (n + 1) c' → running_ (ow c') = false → initialized_ (ow c') = true →
     interface_ (ses (dev c')) = interface_ (ses (dev c)) →
     (interface_ (ses (dev c)) ≠ 0 → pending c' = [] ∧ Forall without_buffers (slots_ (ow c'))) → Q r c') →
  wp (wind_up result) Q c.
Proof.
  intros H Hn Hi Hr Hp HQ. unfold wind_up. do 2 wp_step. unfold id. wp_step.
  apply wp_mono with (λ _ c1, winv others (n + 1) c1 ∧ initialized_ (ow c1) = true ∧ running_ (ow c1) = false ∧
    interface_ (ses (dev c1)) = interface_ (ses (dev c)) ∧ pending c1 = pending c).
  { wp_step; cbv beta; [|wp_step; by split; [apply (winv_mono _ n); [done|lia]|]]. do 2 wp_step.
    eapply wp_mono; [apply wp_and; [apply (release_events_inv (λ o, worker_refs (ow c) o + others o) n); [apply H|done]|apply release_events_interface]|].
    cbv beta. intros r u [Hu Eu]. wp_steps. split; [|done].
    apply (winv_source _ _ (c <| dev := u |>)); [|done]. by apply (winv_dev _ n). }
  intros r c1 (H1 & Hi1 & Hr1 & Ei1 & Ep1). wp_step. eapply release_idle_wp; [done..|by rewrite Ei1, Ep1|].
  intros r2 c2 H2 Hr2 S2 Hd2. wp_step. apply HQ; [done..| | |].
  - by rewrite (sw_initialized _ _ S2).
  - by rewrite (sw_ses _ _ S2).
  - by rewrite <- Ei1.
Qed.

Lemma stop_wp others n rounds (Q : Z → out_ctx → Prop) c :
  winv others n c → 0 <= n →
  (∀ r c', winv others (n + 1) c' → initialized_ (ow c') = initialized_ (ow c) →
     interface_ (ses (dev c')) = interface_ (ses (dev c)) → running_ (ow c') = false →
     (initialized_ (ow c) = true → interface_ (ses (dev c)) ≠ 0 →
        r = kIOReturnTimeout ∧ pending c' ≠ [] ∨ pending c' = [] ∧ Forall without_buffers (slots_ (ow c'))) →
     Q r c') →
  wp (AudioOutWorker_stop rounds) Q c.
Proof.
  intros H Hn HQ. unfold AudioOutWorker_stop, stop_accepting. do 2 wp_step. unfold id at 1.
  destruct (initialized_ (ow c)) eqn:Hi; cbn [negb].
  2: { wp_step. assert (running_ (ow c) = false) as Hr.
       { destruct (running_ (ow c)) eqn:E; [|done]. apply (wi_running _ _ _ H) in E as [_ E]. congruence. }
       apply HQ; try done. apply (winv_mono _ n); [done|lia]. }
  do 5 wp_step. unfold id. pose proof (winv_halted _ _ _ H Hi) as Hh.
  match goal with |- wp _ _ ?x => change x with (halted c) end.
  wp_step. apply wp_mono with (λ _ c1, winv others n c1 ∧ same_worker c c1 ∧ running_ (ow c1) = false ∧
    (negb (inFlight_ (transferSlots_ (ow c)) =? 0) && negb (interface_ (session c) =? 0) = false → c1 = halted c)).
  { wp_step; cbv beta; [|wp_step; by repeat (split; [done|])]. wp_step. apply system_wp, call_status_wp.
    intros r w Hk _. cbv beta. wp_step. eapply (drain_wp others n).
    - apply winv_dev with n; [done|]. cbn [halted set_field dev] in *. destruct (dev c) as [s0 w0] eqn:Ed.
      cbn [ses io] in *. eapply session_inv_io; [rewrite <- Ed; apply Hh|]. intros o. rewrite (Hk o). cbn beta. lia.
    - intros c1 H1 S1 R1. wp_step. split; [done|]. split; [by destruct S1|]. split; [|done].
      destruct (running_ (ow c1)); [|done]. by specialize (R1 eq_refl). }
  intros r c1 (H1 & S1 & R1 & E1). do 2 wp_step. unfold id.
  assert (initialized_ (ow c1) = true) as Hi1 by by rewrite (sw_initialized _ _ S1).
  pose proof (sw_ses _ _ S1) as Es1. unfold session. wp_step; cbv beta.
  { wp_step. apply HQ; try done; [apply (winv_mono _ n); [done|lia]|by rewrite Es1|].
    intros _ _. left. split; [done|]. intros Ep. pose proof (so_count _ _ (wi_slots _ _ _ H1)) as Ec.
    rewrite Ep in Ec. cbn in Ec. lia. }
  change (wp (wind_up r) Q c1). eapply wind_up_wp; [done..| |].
  - rewrite Es1. intros Hif. apply (pending_nil others n); [done|].
    destruct (Z.eqb_spec (inFlight_ (transferSlots_ (ow c))) 0) as [E|E]; [|lia].
    rewrite E1 by (unfold session; cbn; lia). done.
  - intros r2 c2 H2 R2 Hi2 Ei2 Hd2. apply HQ; try done; [by rewrite Ei2, Es1|]. intros _ Hif. right.
    apply Hd2. by rewrite Es1.
Qed.

(** ** Starting *)

(** Contexts of a worker that was never started, up to its slots, run loop and the session. *)
Record unstarted (c c' : out_ctx) : Prop := {
  us_transfer : transferSlots_ (ow c') = transferSlots_ (ow c);
  us_pending : pending c' = pending c;
  us_ring : ring_ c' = ring_ c ∧ packetPolicy_ c' = packetPolicy_ c;
  us_flags : running_ (ow c') = running_ (ow c) ∧ initialized_ (ow c') = initialized_ (ow c) ∧
             sourceAdded_ (ow c') = sourceAdded_ (ow c);
  us_length : length (slots_ (ow c')) = 8%nat;
  us_bytes : Forall (λ s, length (sl_bytes s) = Z.to_nat kBatchMaxBytes) (slots_ (ow c'))
}.

Lemma fresh_not_running others n c : winv others n c → initialized_ (ow c) = false → running_ (ow c) = false.
Proof.
  intros H Hi. destruct (running_ (ow c)) eqn:E; [|done]. apply (wi_running _ _ _ H) in E as [_ E]. congruence.
Qed.

Lemma unstarted_winv others n n' c c' :
  winv others n c → initialized_ (ow c) = false → unstarted c c' →
  Forall without_buffers (slots_ (ow c')) → runLoop_ (ow c') = 0 →
  session_inv (λ o, worker_refs (ow c') o + others o) n' (dev c') → winv others n' c'.
Proof.
  intros H Hi [E1 E2 [E3 E4] (E5 & E6 & E7) E8 E9] Hb Hl Hs. pose proof (fresh_not_running _ _ _ H Hi) as Hr.
  destruct (wi_fresh _ _ _ H Hi) as (Hp & _ & _ & Ha & Hsa).
  split; rewrite ?E1, ?E2, ?E3, ?E4, ?E5, ?E6, ?E7; try done; try apply H.
  - rewrite Hp, Hr. by intros [?|?].
  - rewrite Hp. by intros ? ?%elem_of_nil.
Qed.

Lemma started_winv others n n' c c' :
  winv others n c → initialized_ (ow c) = false → unstarted c c' → Forall with_buffers (slots_ (ow c')) →
  session_inv (λ o, worker_refs (ow c') o + others o) n' (dev c') →
  winv others n' (c' <| ow ::= λ w, w <| sourceAdded_ := true |> <| running_ := true |>
                                     <| initialized_ := true |> |>).
Proof.
  intros H Hi [E1 E2 [E3 E4] (E5 & E6 & E7) E8 E9] Hb Hs.
  destruct (wi_fresh _ _ _ H Hi) as (Hp & _ & _ & Ha & Hsa).
  split; cbn [set_field ow pending dev ring_ packetPolicy_ transferSlots_ slots_ running_ initialized_];
    rewrite ?E1, ?E2, ?E3, ?E4; try done; try apply H.
  rewrite Hp. by intros ? ?%elem_of_nil.
Qed.

Lemma create_buffers_wp (Q : option Z → out_ctx → Prop) c :
  length (slots_ (ow c)) = 8%nat → Forall without_buffers (slots_ (ow c)) →
  Forall (λ s, length (sl_bytes s) = Z.to_nat kBatchMaxBytes) (slots_ (ow c)) →
  (∀ r l w, slots_ledger (slots_ (ow c)) (io (dev c)) l w → r ≠ Some kIOReturnSuccess →
     (r = None → Forall with_buffers l) → Q r (with_slots c l w)) →
  wp create_buffers Q c.
Proof.
  intros Hlen Hno Hb HQ. unfold create_buffers.
  apply wp_for_each with (I := λ xs c', ∃ l w, c' = with_slots c l w ∧ NoDup xs ∧ (∀ i, i ∈ xs → 0 <= i < 8) ∧
    slots_ledger (slots_ (ow c)) (io (dev c)) l w ∧ ∀ i, 0 <= i < 8 →
    if decide (i ∈ xs) then without_buffers (rd l i) else with_buffers (rd l i)).
  - exists (slots_ (ow c)), (io (dev c)). rewrite with_slots_id. split; [done|]. split; [apply NoDup_seqZ|].
    split; [intros i Hi%elem_of_seqZ; unfold kSlotCount in *; lia|].
    split; [by split; [..|lia]|]. intros i Hi. rewrite decide_True by (apply elem_of_seqZ; unfold kSlotCount; lia).
    unfold rd. eapply (proj1 (Forall_lookup _ _) Hno (Z.to_nat i)). apply list_lookup_lookup_total_lt. lia.
  - intros i xs ? (l & w & -> & Hnd & Hx & Hl & Hi). apply list.NoDup_cons in Hnd as [Hix Hnd].
    assert (0 <= i < 8) as Hr by (apply Hx; by left). pose proof (sl_length _ _ _ _ Hl) as Hll.
    assert (without_buffers (rd l i)) as [Ed Ef].
    { specialize (Hi i Hr). rewrite decide_True in Hi by by left. done. }
    wp_step. apply system_slots_wp, create_wp. intros r h w1 Hh Hrh Hw1.
    wp_step. apply update_slot_wp.
    assert (slots_ledger (slots_ (ow c)) (io (dev c)) (wr l i ((rd l i) <| sl_data := h |>)) w1) as Hl1.
    { eapply slots_ledger_wr; [done..|]. intros o. unfold slot_refs. cbn [set_field sl_data sl_frames].
      rewrite (Hw1 o), Ed, ref_null. lia. }
    wp_step; cbv beta. { wp_step. apply HQ; [done|intros [=]; lia|done]. }
    wp_step. apply system_slots_wp, create_wp. intros r2 h2 w2 Hh2 Hrh2 Hw2.
    set (l1 := wr l i ((rd l i) <| sl_data := h |>)) in *.
    wp_step; cbv beta.
    { wp_step. assert (h2 = 0) as -> by lia. apply HQ; [|intros [=]; lia|done]. destruct Hl1 as [A1 A2 A3].
      split; [done..|]. intros o. rewrite (Hw2 o), ref_null. specialize (A3 o). lia. }
    wp_step. apply update_slot_wp. wp_step.
    assert (rd l1 i = (rd l i) <| sl_data := h |>) as Er by (apply rd_wr_eq; lia).
    eexists _, w2. split; [done|]. split; [done|]. split; [intros j Hj; apply Hx; by right|]. split.
    + eapply slots_ledger_wr; [done..|]. intros o. unfold slot_refs. rewrite Er. cbn [set_field sl_data sl_frames].
      rewrite (Hw2 o), Ef, ref_null. lia.
    + intros j Hj. specialize (Hi j Hj). destruct (decide (j = i)) as [->|Hji].
      * rewrite decide_False by done. rewrite rd_wr_eq by (rewrite (sl_length _ _ _ _ Hl1); lia). rewrite Er.
        split; cbn [set_field sl_data sl_frames]; lia.
      * rewrite rd_wr_ne by lia. subst l1. rewrite rd_wr_ne by lia. revert Hi.
        destruct (decide (j ∈ xs)); [by rewrite decide_True by by right|].
        rewrite decide_False; [done|]. by rewrite not_elem_of_cons.
  - intros ? (l & w & -> & _ & _ & Hl & Hi). apply HQ; [done..|]. intros _. apply Forall_lookup. intros j s Hj.
    pose proof (lookup_lt_Some _ _ _ Hj). rewrite (sl_length _ _ _ _ Hl) in *.
    specialize (Hi (Z.of_nat j) ltac:(lia)). rewrite decide_False in Hi by apply not_elem_of_nil.
    unfold rd in Hi. rewrite Nat2Z.id in Hi. by rewrite (list_lookup_total_correct _ _ _ Hj) in Hi.
Qed.

Lemma with_slots_unstarted c l w :
  length l = 8%nat → Forall (λ s, length (sl_bytes s) = Z.to_nat kBatchMaxBytes) l →
  unstarted c (with_slots c l w).
Proof. intros. by split. Qed.

(** A start that fails before anything is submitted leaves the worker as it was. *)
Lemma abandon_wp others n n' result (Q : Z → out_ctx → Prop) c c1 :
  winv others n c → initialized_ (ow c) = false → unstarted c c1 → interface_ (ses (dev c1)) ≠ 0 →
  runLoop_ (ow c1) ≠ 0 → session_inv (λ o, worker_refs (ow c1) o + others o) n' (dev c1) →
  (∀ c', winv others n' c' → running_ (ow c') = false → Q result c') → wp (abandon result) Q c1.
Proof.
  intros H Hi U Hif Hl Hs HQ. unfold abandon. wp_step.
  apply release_buffers_wp; [apply U|apply U|done|]. intros _ r l w Hw Hb. do 3 wp_step. unfold id.
  apply system_slots_wp, release_wp. intros w' Hw'. wp_steps. destruct U as [E1 E2 [E3 E4] (E5 & E6 & E7) E8 E9].
  apply HQ; [|cbn [with_slots set_field ow running_]; rewrite E5; by eapply fresh_not_running].
  eapply (unstarted_winv others n n' c); try done.
  - split; try done; apply Hw.
  - destruct c1 as [w1 [s1 io1] g1 p1 ps1]. cbn [with_slots set_field ow dev ses io] in *.
    eapply session_inv_io; [exact Hs|]. intros o. pose proof (sl_held _ _ _ _ Hw o) as Ho. cbn [io] in Ho. unfold worker_refs.
    cbn [set_field runLoop_ slots_] in *. rewrite (Hw' o), ref_null. unfold ref. case_if; lia.
Qed.

Lemma submit_all_wp others n (Q : option Z → out_ctx → Prop) c :
  winv others n c → pending c = [] → running_ (ow c) = true →
  (∀ r c', winv others n c' → same_worker c c' → running_ (ow c') = true → r ≠ Some kIOReturnSuccess →
     (r = None → length (pending c') = 8%nat) → Q r c') →
  wp submit_all Q c.
Proof.
  intros H Hp Hr HQ. unfold submit_all.
  apply wp_for_each with (I := λ xs c', winv others n c' ∧ same_worker c c' ∧ running_ (ow c') = true ∧
    (length (pending c') + length xs = 8)%nat).
  - by rewrite Hp.
  - intros x xs c1 (H1 & S1 & R1 & L1). wp_step. eapply submit_next_wp; [done|]. intros r c2 H2 S2 R2 L2 P2.
    assert (same_worker c c2) as S12 by by eapply same_worker_trans. wp_step. destruct (r =? kIOReturnSuccess) eqn:Er.
    + split; [done|]. split; [done|]. split; [congruence|]. rewrite L2 by lia. cbn in L1. lia.
    + apply HQ; [done|done|congruence|intros [=]; lia|done].
  - intros c1 (H1 & S1 & R1 & L1). apply HQ; try done. cbn in L1. lia.
Qed.

Lemma start_wp others n current rounds (Q : Z → out_ctx → Prop) c :
  winv others n c → 0 <= n < UINT32_MAX - 1 →
  (∀ r c', winv others (n + 2) c' →
     (initialized_ (ow c) = true → c' = c) → (initialized_ (ow c) = false → running_ (ow c') = true →
        r = kIOReturnSuccess ∧ length (pending c') = 8%nat) →
     (r = kIOReturnSuccess → running_ (ow c') = true) → Q r c') →
  wp (AudioOutWorker_start current rounds) Q c.
Proof.
  intros H Hn HQ. unfold AudioOutWorker_start. do 2 wp_step. unfold id. cbv zeta. wp_step; cbv beta.
  { wp_step. apply HQ; [apply (winv_mono _ n); [done|lia]|done| |intros E; by destruct (not_ready_fails E)].
    intros Hi Hr. by rewrite (fresh_not_running _ _ _ H Hi) in Hr. }
  destruct (initialized_ (ow c)) eqn:Hi; [done|]. cbn [orb] in *. pose proof (fresh_not_running _ _ _ H Hi) as Hr.
  destruct (wi_fresh _ _ _ H Hi) as (Hp & Hb & Hl & Ha & Hsa).
  assert (interface_ (ses (dev c)) ≠ 0) as Hif by (unfold session in *; lia).
  assert (∀ c' r, winv others (n + 1) c' ∨ winv others (n + 2) c' → running_ (ow c') = false → r ≠ kIOReturnSuccess →
    Q r c') as Hfail.
  { intros c' r Hw Hr' Hne. apply HQ; [destruct Hw as [Hw|Hw]; [apply (winv_mono _ (n + 1)); [done|lia]|done]|done|congruence|done]. }
  do 3 wp_step. wp_step; cbv beta.
  { assert (current = 0) as -> by lia. wp_step. apply Hfail; [left|done|exact not_ready_fails].
    eapply (unstarted_winv others n); try done; [by split; try apply H|].
    destruct (wi_session _ _ _ H) as [A1 A2 [A3 A4] A5]. split; try done; [cbn [set_field dev]; lia|]. intros o. specialize (A5 o).
    unfold worker_refs in *. cbn [set_field ow dev runLoop_ slots_]. by rewrite Hl in A5. }
  wp_step. apply system_wp, acquire_wp. intros w Hw. cbn [set_field dev ses io] in *.
  match goal with |- wp _ _ ?x => set (c1 := x) end.
  assert (unstarted c c1) as U1 by (by split; try apply H).
  assert (session_inv (λ o, worker_refs (ow c1) o + others o) n (dev c1)) as Hs1.
  { subst c1. cbn [set_field dev ow]. pose proof (wi_session _ _ _ H) as Hs. destruct (dev c) as [s0 w0] eqn:Ed.
    cbn [ses io] in *. eapply session_inv_io; [exact Hs|]. intros o. rewrite (Hw o). unfold worker_refs.
    cbn [set_field runLoop_ slots_]. rewrite Hl, ref_null. unfold ref. case_if; lia. }
  assert (runLoop_ (ow c1) = current ∧ ses (dev c1) = ses (dev c) ∧ slots_ (ow c1) = slots_ (ow c))
    as (El1 & Es1 & Esl1) by done. clearbody c1.
  wp_step. apply create_buffers_wp; [apply U1|by rewrite Esl1|apply U1|].
  intros r l w1 Hl1 Hr1 Hd1. set (c2 := with_slots c1 l w1).
  assert (unstarted c c2) as U2. { destruct U1. split; try done; apply Hl1. }
  pose proof (with_slots_session others n c1 l w1 Hs1 Hl1) as Hs2. fold c2 in Hs2.
  assert (runLoop_ (ow c2) = current ∧ ses (dev c2) = ses (dev c)) as [El2 Es2] by (by split).
  assert (r = None → Forall with_buffers (slots_ (ow c2))) as Hd2 by done. clearbody c2.
  destruct r as [r|].
  { eapply (abandon_wp others n n _ _ c); try done; [by rewrite Es2|by rewrite El2; lia|]. intros c' Hc' Hr'.
    apply Hfail; [left; apply (winv_mono _ n); [done|lia]|done|congruence]. }
  do 2 wp_step. eapply wp_mono; [apply wp_and; [apply (acquire_events_inv (λ o, worker_refs (ow c2) o + others o) n); [exact Hs2|lia]|apply acquire_events_interface]|].
  cbv beta. intros r u [Hu [Eu _]]. wp_step; cbv beta.
  { eapply (abandon_wp others n (n + 1) _ _ c); try done; cbn [set_field dev ow ses].
    - by destruct U2.
    - by rewrite Eu, Es2.
    - rewrite El2. lia.
    - intros c' Hc' Hr'. apply Hfail; [by left|done|lia]. }
  do 9 wp_step.
  match goal with |- wp _ _ ?x => set (c3 := x) end.
  assert (winv others (n + 1) c3) as H3.
  { apply (started_winv others n (n + 1) c (c2 <| dev := u |>)); [done..|by destruct U2|by apply Hd2|done]. }
  assert (pending c3 = []) as Hp3 by (subst c3; cbn [set_field pending]; by rewrite (us_pending _ _ U2)).
  assert (running_ (ow c3) = true ∧ initialized_ (ow c3) = true) as [Hr3 Hi3] by done. clearbody c3.
  wp_step. eapply submit_all_wp; [done..|]. intros r3 c4 H4 S4 R4 Hne4 L4. destruct r3 as [r3|].
  - unfold count. do 3 wp_step. eapply (stop_wp others (n + 1)).
    + by apply (winv_counted _ _ c4).
    + lia.
    + intros r5 c5 H5 I5 _ R5 _. wp_step. apply Hfail; [right|done|congruence].
      by replace (n + 2) with (n + 1 + 1) by lia.
  - wp_step. apply HQ; [apply (winv_mono _ (n + 1)); [done|lia]|done|auto|done].
Qed.

(** ** All interleavings *)

(** What may happen on the run loop: calls of the worker, completions, other users of the session,
    and new frames or feedback. *)
Inductive worker_step : out_ctx → out_ctx → Prop :=
  | step_start c current rounds : worker_step c (AudioOutWorker_start current rounds c).2
  | step_stop c rounds : worker_step c (AudioOutWorker_stop rounds c).2
  | step_complete c k : worker_step c (deliver k c).2
  | step_session c op : worker_step c (c <| dev ::= λ u, (run_op op u).2 |>)
  | step_audio c g p : playing g p → worker_step c (c <| ring_ := g |> <| packetPolicy_ := p |>).

Inductive worker_run (c : out_ctx) : nat → out_ctx → Prop :=
  | run_start : worker_run c 0 c
  | run_step k c1 c2 : worker_run c k c1 → worker_step c1 c2 → worker_run c (S k) c2.

Definition winv_run (others : obj → Z) (n : Z) (c : out_ctx) : Prop :=
  winv others n c ∧ (running_ (ow c) = true → length (pending c) = 8%nat).

Lemma worker_step_inv others n c c' :
  winv_run others n c → 0 <= n < UINT32_MAX - 1 → worker_step c c' → winv_run others (n + 2) c'.
Proof.
  intros Hc Hn Hst. revert Hc. destruct Hst as [c0 current rounds|c0 rounds|c0 k|c0 op|c0 g p Hp]; intros [H Hr].
  - enough (wp (AudioOutWorker_start current rounds) (λ _, winv_run others (n + 2)) c0) as E
      by (unfold wp in E; by destruct (AudioOutWorker_start current rounds c0)).
    eapply start_wp; [done..|]. intros r c1 H1 Hi Hf _. split; [done|]. intros Hr1.
    destruct (initialized_ (ow c0)); [rewrite Hi in * by done; auto|by apply Hf].
  - enough (wp (AudioOutWorker_stop rounds) (λ _, winv_run others (n + 2)) c0) as E
      by (unfold wp in E; by destruct (AudioOutWorker_stop rounds c0)).
    eapply stop_wp; [done|lia|]. intros r c1 H1 _ _ Hr1 _. split; [apply (winv_mono _ (n + 1)); [done|lia]|congruence].
  - enough (wp (deliver k) (λ _, winv_run others (n + 2)) c0) as E
      by (unfold wp in E; by destruct (deliver k c0)).
    eapply deliver_wp; [done|]. intros c1 H1 _ _ Hr1. split; [apply (winv_mono _ n); [done|lia]|].
    intros E. destruct (Hr1 E) as [E0 ->]. auto.
  - split; [|done]. apply (winv_mono _ (n + 1)); [|lia].
    pose proof (run_op_inv _ n op (dev c0) (wi_session _ _ _ H) ltac:(lia)) as Hs. unfold wp in Hs.
    destruct (run_op op (dev c0)) as [r u] eqn:E. replace (c0 <| dev ::= _ |>) with (c0 <| dev := u |>).
    + by apply (winv_dev _ n).
    + change u with (r, u).2. by rewrite <- E.
  - split; [|done]. apply (winv_mono _ n); [|lia]. destruct H. by split.
Qed.

Lemma worker_run_inv others c k c' :
  winv_run others 0 c → worker_run c k c' → Z.of_nat k < 2 ^ 30 → winv_run others (2 * Z.of_nat k) c'.
Proof.
  intros H. induction 1 as [|k c1 c2 _ IH Hs]; intros Hk; [done|].
  replace (2 * Z.of_nat (S k)) with (2 * Z.of_nat k + 2) by lia.
  eapply worker_step_inv; [apply IH; lia|unfold UINT32_MAX; lia|done].
Qed.

(** The worker of the runtime before anything happened. *)
Definition new_context (u : usb) (g : AudioOutputRing) (p : AudioPacketPolicy) : out_ctx :=
  {| ow := AudioOutWorker_new; dev := u; ring_ := g; packetPolicy_ := p; pending := [] |}.

Lemma new_context_inv others u g p :
  session_inv others 0 u → playing g p → winv_run others 0 (new_context u g p).
Proof.
  intros Hs Hp. split; [|done]. split; cbn [new_context ow pending dev ring_ packetPolicy_]; try done.
  - apply slots_new_ok.
  - apply Forall_replicate. unfold empty_slot. cbn [sl_bytes]. apply length_replicate.
  - by intros [?|?].
  - intros _. split; [done|]. split; [by apply Forall_replicate|done].
  - by intros ? ?%elem_of_nil.
Qed.

Lemma no_buffers_refs l o : Forall without_buffers l → slots_refs l o = 0.
Proof.
  unfold slots_refs. induction 1 as [|s l [Hd Hf] _ IH]; [done|].
  change (total (map _ (s :: l))) with (slot_refs s o + total (map (λ s, slot_refs s o) l)).
  rewrite IH. unfold slot_refs. by rewrite Hd, Hf.
Qed.

(** C5: whatever order starts, stops, completions, other users of the session, new frames and feedback
    come in, and whatever the system answers: the slots marked in use are exactly the transfers the
    system holds, each once; each has both buffers, which hold the bytes and the packet lengths of its
    batch; the process holds exactly the buffers and run loop the worker names; while the worker
    runs, all eight transfers are in flight; and a stop with an open interface either times out with the
    transfers' buffers still in place, or leaves nothing in flight and no buffer held. *)
Theorem out_worker_safe others u g p k c :
  session_inv others 0 u → playing g p → worker_run (new_context u g p) k c → Z.of_nat k < 2 ^ 30 →
  (∀ i, 0 <= i < 8 → rd (inUse_ (transferSlots_ (ow c))) i = true ↔ i ∈ pending c) ∧
  NoDup (pending c) ∧ inFlight_ (transferSlots_ (ow c)) = Z.of_nat (length (pending c)) ∧
  (∀ i, i ∈ pending c → with_buffers (rd (slots_ (ow c)) i) ∧
     carries (rd (slots_ (ow c)) i) (rd (packets_ (transferSlots_ (ow c))) i)) ∧
  (∀ o, held (io (dev c)) o = owned (ses (dev c)) o + worker_refs (ow c) o + others o) ∧
  (running_ (ow c) = true → length (pending c) = 8%nat) ∧
  (∀ rounds, initialized_ (ow c) = true → interface_ (ses (dev c)) ≠ 0 →
     let '(r, c') := AudioOutWorker_stop rounds c in
     running_ (ow c') = false ∧
     (r = kIOReturnTimeout ∧ pending c' ≠ [] ∧ Forall with_buffers (slots_ (ow c')) ∨
      pending c' = [] ∧ ∀ o, slots_refs (slots_ (ow c')) o = 0)).
Proof.
  intros Hs Hp Hrun Hk. destruct (worker_run_inv others _ k c (new_context_inv _ _ _ _ Hs Hp) Hrun Hk) as [H Hr].
  pose proof (wi_slots _ _ _ H) as Hso. split; [apply Hso|]. split; [apply Hso|]. split; [apply Hso|].
  split; [|split; [|split; [done|]]].
  - intros i Hi. split; [|by apply H].
    pose proof (wi_buffers _ _ _ H ltac:(left; intros E; rewrite E in Hi; by apply elem_of_nil in Hi)) as Hb.
    apply (proj1 (Forall_lookup _ _) Hb (Z.to_nat i)). apply list_lookup_lookup_total_lt.
    rewrite (wi_length _ _ _ H). apply (so_range _ _ Hso) in Hi. lia.
  - intros o. rewrite (si_balanced _ _ _ (wi_session _ _ _ H) o). apply Z.add_assoc.
  - intros rounds Hi Hif.
    enough (wp (AudioOutWorker_stop rounds) (λ r c', running_ (ow c') = false ∧
      (r = kIOReturnTimeout ∧ pending c' ≠ [] ∧ Forall with_buffers (slots_ (ow c')) ∨
       pending c' = [] ∧ ∀ o, slots_refs (slots_ (ow c')) o = 0)) c) as E
      by (unfold wp in E; by destruct (AudioOutWorker_stop rounds c)).
    eapply stop_wp; [done|lia|]. intros r c1 H1 _ _ Hr1 Hd. split; [done|].
    destruct (Hd Hi Hif) as [[-> Hne]|[-> Hn]]; [left|right].
    + split; [done|]. split; [done|]. apply (wi_buffers _ _ _ H1). by left.
    + split; [done|]. intros o. by apply no_buffers_refs.
Qed.
End proofs.

(** The worker is started on an open session: all its transfers are in flight. *)
Definition started (g : AudioOutputRing) (p : AudioPacketPolicy) : out_ctx :=
  (@AudioOutWorker_start iokit_returns 7 []
     ((new_context ns6_usb g p) <| dev ::= λ u, (@run_op iokit_returns usb_constants Open u).2 |>)).2.

Lemma started_run g p : @worker_run iokit_returns usb_constants (new_context ns6_usb g p) 2 (started g p).
Proof.
  eapply run_step; [eapply run_step; [apply run_start|apply (step_session _ Open)]|apply (step_start _ 7 [])].
Qed.

Lemma started_runs :
  match AudioOutputRing_new 64 4, AudioPacketPolicy_new 44100 8000 with
  | Some g, Some p => running_ (ow (started g p)) | _, _ => false
  end = true.
Proof. vm_compute. reflexivity. Qed.

Lemma out_worker_safe_witness :
  ∃ g p, AudioOutputRing_new 64 4 = Some g ∧ AudioPacketPolicy_new 44100 8000 = Some p ∧
    length (pending (started g p)) = 8%nat ∧ NoDup (pending (started g p)).
Proof.
  generalize started_runs.
  destruct (AudioOutputRing_new 64 4) as [g|] eqn:Eg; [|discriminate 1].
  destruct (AudioPacketPolicy_new 44100 8000) as [p|] eqn:Ep; [|discriminate 1].
  assert (playing g p) as Hp.
  { destruct (ring_new_rel 64 4 g Eg ltac:(by exists 67108864) ltac:(lia) ltac:(lia)) as (Hg & _ & Hc).
    exists [], start_schedule. split; [done|]. split; [done|]. by apply plays_new. }
  assert (session_inv (λ _, 0) 0 ns6_usb) as Hu by by apply closed_inv.
  destruct (@out_worker_safe iokit_returns iokit_returns_laws usb_constants (λ _, 0) ns6_usb g p 2 (started g p)
    Hu Hp (started_run g p) ltac:(lia)) as (_ & Hd & _ & _ & _ & Hr & _).
  intros Hs. exists g, p. split; [reflexivity|]. split; [reflexivity|]. exact (conj (Hr Hs) Hd).
Defined.
