(* ===== verification/FeedbackReader.v ===== *)
(** * The feedback reader (numark-ns6/audio-feedback/AudioFeedbackReader)

    Two isochronous reads of four packets are kept in flight.  Each packet that comes back is
    parsed, counted and published to the runtime, which hands it to the packet policy; the read
    is then submitted again. *)

From stdpp Require Import base list numbers tactics.
From Stdlib Require Import ZArith Lia ZifyBool.
From S2P Require Import Prelude PacketPolicy IoKit UsbSession OutWorker.

Definition kFeedbackSlots : Z := 2.
Definition kPacketsPerTransfer : Z := 4.
Definition kPacketCapacity : Z := 64.

(** A slot: the handles of its two buffers, what they contain, and whether it is in flight. *)
Record FeedbackSlot := {
  fs_data : Z;
  fs_frames : Z;
  fs_bytes : list Z;
  fs_list : list IOUSBLowLatencyIsocFrame;
  fs_inFlight : bool
}.

#[export] Instance eta_feedback_slot : Eta FeedbackSlot := λ s,
  Build_FeedbackSlot (fs_data s) (fs_frames s) (fs_bytes s) (fs_list s) (fs_inFlight s).

Definition empty_feedback_slot : FeedbackSlot :=
  {| fs_data := 0; fs_frames := 0; fs_bytes := []; fs_list := []; fs_inFlight := false |}.

#[export] Instance feedback_slot_inhabited : Inhabited FeedbackSlot := populate empty_feedback_slot.

(** [session_] and [sink_] are null or what the context holds. *)
Record AudioFeedbackReader := {
  fr_session : bool;
  fr_sink : bool;
  fr_slots : list FeedbackSlot;
  fr_runLoop : Z;
  fr_running : bool;
  fr_sourceAdded : bool;
  fr_initialized : bool;
  fr_packets : Z;
  fr_valid : Z;
  fr_shortPackets : Z;
  fr_unexpectedLengths : Z;
  fr_outOfRange : Z;
  fr_transferErrors : Z
}.

#[export] Instance eta_feedback_reader : Eta AudioFeedbackReader := λ r,
  Build_AudioFeedbackReader (fr_session r) (fr_sink r) (fr_slots r) (fr_runLoop r) (fr_running r)
    (fr_sourceAdded r) (fr_initialized r) (fr_packets r) (fr_valid r) (fr_shortPackets r)
    (fr_unexpectedLengths r) (fr_outOfRange r) (fr_transferErrors r).

Definition AudioFeedbackReader_new : AudioFeedbackReader := {|
  fr_session := false; fr_sink := false; fr_slots := replicate (Z.to_nat kFeedbackSlots) empty_feedback_slot;
  fr_runLoop := 0; fr_running := false; fr_sourceAdded := false; fr_initialized := false; fr_packets := 0;
  fr_valid := 0; fr_shortPackets := 0; fr_unexpectedLengths := 0; fr_outOfRange := 0; fr_transferErrors := 0 |}.

(** A completed read: slot, status, status and length of each packet, and the data buffer. *)
Record feedback_done := {
  fd_slot : Z;
  fd_status : Z;
  fd_frames : list (Z * Z);
  fd_bytes : list Z
}.

(** The reader with its session and its sink, the packet policy of the runtime.  [fb_pending] and
    [fb_done] are the system's: the reads it holds, and those it has completed so far with the
    packets that were built in between ([None]). *)
Record feedback_ctx := {
  fr : AudioFeedbackReader;
  fb_dev : usb;
  fb_policy : AudioPacketPolicy;
  fb_pending : list Z;
  fb_done : list (option feedback_done)
}.

#[export] Instance eta_feedback_ctx : Eta feedback_ctx := λ c,
  Build_feedback_ctx (fr c) (fb_dev c) (fb_policy c) (fb_pending c) (fb_done c).

Section reader.
Context `{IOReturns}.

Notation "f <~ v" := (zoom fr (put f v)) (at level 75).

Definition feedback_session (c : feedback_ctx) : NS6DeviceSession := ses (fb_dev c).
Definition feedback_system {A} (m : M world A) : M feedback_ctx A := zoom fb_dev (zoom io m).

Definition fr_count (f : AudioFeedbackReader → Z) `{Setter _ _ f} : M feedback_ctx () :=
  modify (λ c, c <| fr ::= λ w, w <| f ::= λ k, k +₆₄ 1 |> |>).

Definition update_feedback_slot (i : Z) (f : FeedbackSlot → FeedbackSlot) : M feedback_ctx () :=
  modify (λ c, c <| fr ::= λ w, w <| fr_slots ::= λ l, wr l i (f (rd l i)) |> |>).

Definition AudioFeedbackReader_inFlightCount (r : AudioFeedbackReader) : Z :=
  foldr (λ s n, (if fs_inFlight s then 1 else 0) +₃₂ n) 0 (fr_slots r).

(** ** Reads *)

Definition AudioFeedbackReader_submit (i : Z) : M feedback_ctx Z :=
  c ← gets id;
  if negb (fr_running (fr c)) || negb (fr_session (fr c)) || fs_inFlight (rd (fr_slots (fr c)) i)
  then mret kIOReturnNotReady
  else if auxiliaryInterface_ (feedback_session c) =? 0 then mret kIOReturnNoDevice
  else
    update_feedback_slot i (λ s, s <| fs_list := replicate (Z.to_nat kPacketsPerTransfer)
      {| frStatus := kIOReturnSuccess; frReqCount := kPacketCapacity; frActCount := 0 |} |>);;
    update_feedback_slot i (λ s, s <| fs_inFlight := true |>);;
    result ← feedback_system call_status;
    (if negb (result =? kIOReturnSuccess) then update_feedback_slot i (λ s, s <| fs_inFlight := false |>)
     else modify (λ c, c <| fb_pending ::= λ l, l ++ [i] |>));;
    mret result.

(** The counter of an observation. *)
Definition count_kind (k : AudioFeedbackKind) : M feedback_ctx () :=
  match k with
  | valid => fr_count fr_valid
  | shortPacket => fr_count fr_shortPackets
  | unexpectedLength => fr_count fr_unexpectedLengths
  | outOfRange => fr_count fr_outOfRange
  | transferError => fr_count fr_transferErrors
  end.

(** Packet [i] of a completed read. *)
Definition observe_packet (slot : FeedbackSlot) (status i : Z) : M feedback_ctx () :=
  let frame := rd (fs_list slot) i in
  let offset := i * kPacketCapacity in
  let observation := AudioFeedbackParser_parse (status =? kIOReturnSuccess) (frStatus frame =? kIOReturnSuccess)
    (if (fs_data slot =? 0) && (offset =? 0) then None else Some (drop (Z.to_nat offset) (fs_bytes slot))) (frActCount frame) in
  fr_count fr_packets;;
  count_kind (kind observation);;
  c ← gets id;
  if fr_sink (fr c) then modify (λ c, c <| fb_policy ::= AudioTransportRuntime_publish observation |>) else mret ().

Fixpoint observe_packets (slot : FeedbackSlot) (status : Z) (indices : list Z) : M feedback_ctx () :=
  match indices with
  | [] => mret ()
  | i :: indices' => (observe_packet slot status i;; observe_packets slot status indices')
  end.

Definition AudioFeedbackReader_didComplete (i status : Z) : M feedback_ctx () :=
  c ← gets id;
  observe_packets (rd (fr_slots (fr c)) i) status (seqZ 0 kPacketsPerTransfer);;
  update_feedback_slot i (λ s, s <| fs_inFlight := false |>);;
  if status =? kIOReturnNoDevice then fr_running <~ false
  else
    c ← gets id;
    if fr_running (fr c)
    then (result ← AudioFeedbackReader_submit i;
          if negb (result =? kIOReturnSuccess) then (fr_count fr_transferErrors;; fr_running <~ false) else mret ())
    else mret ().

(** The system fills the buffers of a read it holds and calls back. *)
Definition feedback_deliver (k : feedback_done) : M feedback_ctx () :=
  c ← gets id;
  if bool_decide (fd_slot k ∈ fb_pending c) then
    modify (λ c, c <| fb_pending ::= filter (λ i, i ≠ fd_slot k) |> <| fb_done ::= λ l, l ++ [Some k] |>);;
    update_feedback_slot (fd_slot k) (λ s, s <| fs_bytes := fd_bytes k |>
      <| fs_list := map (λ i, {| frStatus := (rd (fd_frames k) i).1; frReqCount := kPacketCapacity;
                                 frActCount := (rd (fd_frames k) i).2 |}) (seqZ 0 kPacketsPerTransfer) |>);;
    AudioFeedbackReader_didComplete (fd_slot k) (fd_status k)
  else mret ().

Fixpoint feedback_deliver_all (ks : list feedback_done) : M feedback_ctx () :=
  match ks with
  | [] => mret ()
  | k :: ks' => (feedback_deliver k;; feedback_deliver_all ks')
  end.

(** ** Buffers *)

Definition destroy_feedback_buffer (h result : Z) : M feedback_ctx Z :=
  if h =? 0 then mret result
  else (released ← feedback_system call_status; feedback_system (release (Buffer h));;
        mret (if result =? kIOReturnSuccess then released else result)).

Fixpoint release_feedback_slots (indices : list Z) (result : Z) : M feedback_ctx Z :=
  match indices with
  | [] => mret result
  | i :: indices' =>
      c ← gets id;
      let slot := rd (fr_slots (fr c)) i in
      result ← destroy_feedback_buffer (fs_data slot) result;
      update_feedback_slot i (λ s, s <| fs_data := 0 |>);;
      result ← destroy_feedback_buffer (fs_frames slot) result;
      update_feedback_slot i (λ s, s <| fs_frames := 0 |>);;
      release_feedback_slots indices' result
  end.

Definition AudioFeedbackReader_releaseBuffers : M feedback_ctx Z :=
  c ← gets id;
  if negb (fr_session (fr c)) then mret kIOReturnNotReady
  else if auxiliaryInterface_ (feedback_session c) =? 0 then mret kIOReturnNotReady
  else release_feedback_slots (seqZ 0 kFeedbackSlots) kIOReturnSuccess.

(** ** Stopping *)

(** The wait for aborted reads: a round is what one run of the run loop delivers, and the deadline
    is the end of the rounds. *)
Fixpoint feedback_drain (rounds : list (list feedback_done)) : M feedback_ctx () :=
  c ← gets id;
  if AudioFeedbackReader_inFlightCount (fr c) =? 0 then mret ()
  else match rounds with
       | [] => mret ()
       | ks :: rounds' => (feedback_deliver_all ks;; feedback_drain rounds')
       end.

(** After the reads came back. *)
Definition finish_stop (result : Z) : M feedback_ctx Z :=
  c ← gets id;
  result ← (if fr_sourceAdded (fr c) && negb (fr_runLoop (fr c) =? 0)
            then (released ← zoom fb_dev (NS6DeviceSession_releaseAuxiliaryEvents (fr_runLoop (fr c)));
                  fr_sourceAdded <~ false;;
                  mret (if result =? kIOReturnSuccess then released else result))
            else mret result);
  released ← AudioFeedbackReader_releaseBuffers;
  fr_sink <~ false;;
  fr_session <~ false;;
  mret (if result =? kIOReturnSuccess then released else result).

Definition AudioFeedbackReader_stop (rounds : list (list feedback_done)) : M feedback_ctx Z :=
  c ← gets id;
  if negb (fr_initialized (fr c)) || negb (fr_session (fr c)) then mret kIOReturnSuccess
  else
    fr_running <~ false;;
    if negb (AudioFeedbackReader_inFlightCount (fr c) =? 0) && negb (auxiliaryInterface_ (feedback_session c) =? 0)
    then (result ← feedback_system call_status;
          feedback_drain rounds;;
          c ← gets id;
          if negb (AudioFeedbackReader_inFlightCount (fr c) =? 0) then mret kIOReturnTimeout else finish_stop result)
    else finish_stop kIOReturnSuccess.

(** ** Starting *)

(** The early returns before anything is submitted. *)
Definition abandon_start (result : Z) : M feedback_ctx Z :=
  _ ← AudioFeedbackReader_releaseBuffers;
  c ← gets id;
  feedback_system (release (RunLoop (fr_runLoop (fr c))));;
  fr_runLoop <~ 0;;
  fr_session <~ false;;
  fr_sink <~ false;;
  mret result.

Definition create_feedback_buffers : M feedback_ctx (option Z) :=
  for_each (seqZ 0 kFeedbackSlots) (λ i,
    '(result, data) ← feedback_system (create Buffer);
    update_feedback_slot i (λ s, s <| fs_data := data |>);;
    if negb (result =? kIOReturnSuccess) then mret (Some result)
    else
      '(result, frames) ← feedback_system (create Buffer);
      if negb (result =? kIOReturnSuccess) then mret (Some result)
      else (update_feedback_slot i (λ s, s <| fs_frames := frames |>);; mret None)).

Definition submit_reads : M feedback_ctx (option Z) :=
  for_each (seqZ 0 kFeedbackSlots) (λ i,
    result ← AudioFeedbackReader_submit i;
    mret (if result =? kIOReturnSuccess then None else Some result)).

(** [current] is the current run loop, [rounds] what a stop after a failed submission delivers. *)
Definition AudioFeedbackReader_start (current : Z) (rounds : list (list feedback_done)) : M feedback_ctx Z :=
  c ← gets id;
  let s := feedback_session c in
  if fr_initialized (fr c) || (auxiliaryInterface_ s =? 0) || (feedbackPipe_ s =? 0) ||
     (auxiliaryAsyncEventSource_ s =? 0)
  then mret kIOReturnNotReady
  else
    fr_session <~ true;;
    fr_sink <~ true;;
    fr_runLoop <~ current;;
    if current =? 0 then mret kIOReturnNotReady
    else
      feedback_system (acquire (RunLoop current));;
      r ← create_feedback_buffers;
      match r with
      | Some result => abandon_start result
      | None =>
          result ← zoom fb_dev (NS6DeviceSession_acquireAuxiliaryEvents current);
          if negb (result =? kIOReturnSuccess) then abandon_start result
          else
            fr_sourceAdded <~ true;;
            fr_running <~ true;;
            fr_initialized <~ true;;
            r ← submit_reads;
            match r with
            | Some result =>
                (fr_count fr_transferErrors;; _ ← AudioFeedbackReader_stop rounds; mret result)
            | None => mret kIOReturnSuccess
            end
      end.

End reader.

(** The policy is asked for the next packet. *)
Definition take_packet : M feedback_ctx Z := λ c,
  let '(n, p) := AudioPacketPolicy_nextPacketFrames (fb_policy c) in
  (n, c <| fb_policy := p |> <| fb_done ::= λ l, l ++ [None] |>).
