(* ===== verification/FeedbackTheory.v ===== *)
(** * Reports of the device reach the schedule of packets

    The reader keeps its two reads in flight with live buffers, gives back what it took, and
    hands every packet that came back to the policy, in order: the packets that are built follow
    the schedule of the reports the device sent. *)

From stdpp Require Import base list numbers tactics.
From Stdlib Require Import ZArith Lia ZifyBool.
From S2P Require Import Prelude Float OutRing PacketPolicy PolicyTheory IoKit UsbSession UsbSessionTheory OutWorker.
From S2P Require Import OutPacketTheory OutWorkerTheory FeedbackReader.

(** ** What the device sent *)

Section events.
Context `{IOReturns}.

(** Packet [i] of a read: a report when it has three bytes and a playable rate, malformed
    otherwise; nothing when the transfer failed. *)
Definition packet_event (k : feedback_done) (i : Z) : list policy_event :=
  let '(status, count) := rd (fd_frames k) i in
  let frames := rd (drop (Z.to_nat (i * kPacketCapacity)) (fd_bytes k)) 0 in
  if (fd_status k =? kIOReturnSuccess) && (status =? kIOReturnSuccess)
  then (if (count =? 3) && playable frames then [Feedback frames] else [InvalidFeedback])
  else [].

Definition events_of (e : option feedback_done) : list policy_event :=
  match e with
  | Some k => concat (map (packet_event k) [0; 1; 2; 3])
  | None => [Packet]
  end.

(** The schedule after what happened so far. *)
Definition schedule_after (l : list (option feedback_done)) : schedule :=
  (run spec_event (concat (map events_of l)) start_schedule).2.

(** The packets of the completed reads. *)
Definition reports_done (l : list (option feedback_done)) : Z :=
  total (map (λ e, match e with Some _ => 4 | None => 0 end) l).
End events.

Section run_lemmas.
Context {S : Type} (step : policy_event → S → list Z * S).

Lemma run_app_state es es' s : (run step (es ++ es') s).2 = (run step es' (run step es s).2).2.
Proof. rewrite run_app. destruct (run step es s) as [o s1]. cbn [snd]. by destruct (run step es' s1). Qed.

Lemma run_one e s : run step [e] s = step e s.
Proof. cbn [run]. destruct (step e s). by rewrite app_nil_r. Qed.
End run_lemmas.

Section proofs.
Context {codes : IOReturns} {laws : IOReturnsLaws} {constants : UsbConstants}.

Lemma schedule_after_snoc l e :
  schedule_after (l ++ [e]) = (run spec_event (events_of e) (schedule_after l)).2.
Proof. unfold schedule_after. rewrite map_app, concat_app, run_app_state. cbn [map concat]. by rewrite app_nil_r. Qed.

(** Parsing and publishing a packet is what its event does. *)
Lemma publish_event k i p :
  let '(status, count) := rd (fd_frames k) i in
  AudioTransportRuntime_publish
    (AudioFeedbackParser_parse (fd_status k =? kIOReturnSuccess) (status =? kIOReturnSuccess)
       (Some (drop (Z.to_nat (i * kPacketCapacity)) (fd_bytes k))) count) p =
  (run policy_step (packet_event k i) p).2.
Proof.
  unfold packet_event. destruct (rd (fd_frames k) i) as [status count].
  unfold AudioFeedbackParser_parse, AudioTransportRuntime_publish, playable, kReportBytes,
    kMinimumFramesPerMillisecond, kMaximumFramesPerMillisecond. set (b := drop _ _).
  destruct (fd_status k =? kIOReturnSuccess), (status =? kIOReturnSuccess); cbn [negb orb andb kind]; try done.
  destruct (count <? 3) eqn:?; cbn [kind]; [replace (count =? 3) with false by lia; cbn [andb]; by rewrite run_one|].
  destruct (count =? 3); cbn [negb andb kind]; [|by rewrite run_one].
  destruct (rd b 0 <? 42) eqn:?, (rd b 0 >? 46) eqn:?; cbn [orb kind framesPerMillisecond];
    destruct ((42 <=? rd b 0) && (rd b 0 <=? 46)) eqn:?; try lia; by rewrite run_one.
Qed.

(** ** The invariant *)

Definition read_refs (s : FeedbackSlot) (o : obj) : Z := ref Buffer (fs_data s) o + ref Buffer (fs_frames s) o.
Definition reads_refs (l : list FeedbackSlot) (o : obj) : Z := total (map (λ s, read_refs s o) l).
Definition reader_refs (r : AudioFeedbackReader) (o : obj) : Z :=
  ref RunLoop (fr_runLoop r) o + reads_refs (fr_slots r) o.

Definition has_buffers (s : FeedbackSlot) : Prop := fs_data s ≠ 0 ∧ fs_frames s ≠ 0.
Definition no_buffers (s : FeedbackSlot) : Prop := fs_data s = 0 ∧ fs_frames s = 0.

Lemma reads_refs_wr l i s o :
  0 <= i < 2 → length l = 2%nat → reads_refs (wr l i s) o = reads_refs l o - read_refs (rd l i) o + read_refs s o.
Proof.
  intros Hi Hl. destruct l as [|a [|b [|]]]; try done. unfold reads_refs.
  assert (i = 0 ∨ i = 1) as [-> | ->] by lia.
  - change (wr [a; b] 0 s) with [s; b]. change (rd [a; b] 0) with a. unfold total. cbn [map foldr]. lia.
  - change (wr [a; b] 1 s) with [a; s]. change (rd [a; b] 1) with b. unfold total. cbn [map foldr]. lia.
Qed.

Record finv (others : obj → Z) (n : Z) (c : feedback_ctx) : Prop := {
  fi_length : length (fr_slots (fr c)) = 2%nat;
  fi_flight : ∀ i, 0 <= i < 2 → fs_inFlight (rd (fr_slots (fr c)) i) = true ↔ i ∈ fb_pending c;
  fi_range : ∀ i, i ∈ fb_pending c → 0 <= i < 2;
  fi_nodup : NoDup (fb_pending c);
  fi_session : session_inv (λ o, reader_refs (fr c) o + others o) n (fb_dev c);
  fi_active : fb_pending c ≠ [] ∨ fr_running (fr c) = true →
    Forall has_buffers (fr_slots (fr c)) ∧ fr_sink (fr c) = true ∧ fr_initialized (fr c) = true ∧
    fr_session (fr c) = true;
  fi_fresh : fr_initialized (fr c) = false →
    fb_pending c = [] ∧ Forall no_buffers (fr_slots (fr c)) ∧ fr_runLoop (fr c) = 0 ∧ fr_running (fr c) = false;
  fi_open : fr_initialized (fr c) = true → fr_session (fr c) = true → auxiliaryInterface_ (ses (fb_dev c)) ≠ 0;
  fi_policy : policy_rel (fb_policy c) (schedule_after (fb_done c));
  fi_packets : fr_packets (fr c) = u64 (reports_done (fb_done c))
}.

(** What submitting and completing leave alone. *)
Record same_reader (c c' : feedback_ctx) : Prop := {
  sd_ses : ses (fb_dev c') = ses (fb_dev c);
  sd_loop : fr_runLoop (fr c') = fr_runLoop (fr c);
  sd_source : fr_sourceAdded (fr c') = fr_sourceAdded (fr c);
  sd_flags : fr_initialized (fr c') = fr_initialized (fr c) ∧ fr_session (fr c') = fr_session (fr c) ∧
             fr_sink (fr c') = fr_sink (fr c)
}.

Lemma same_reader_refl c : same_reader c c.
Proof. done. Qed.

Lemma same_reader_trans c1 c2 c3 : same_reader c1 c2 → same_reader c2 c3 → same_reader c1 c3.
Proof. intros [? ? ? (? & ? & ?)] [? ? ? (? & ? & ?)]. split; try congruence. split; [|split]; congruence. Qed.

Lemma feedback_system_wp {A} (m : M world A) (Q : A → feedback_ctx → Prop) c :
  wp m (λ a w', Q a (c <| fb_dev := {| ses := ses (fb_dev c); io := w' |} |>)) (io (fb_dev c)) →
  wp (feedback_system m) Q c.
Proof. intros Hm. apply wp_zoom, wp_zoom. destruct c as [? []]. exact Hm. Qed.

Lemma session_inv_ledger others others' n u u' :
  session_inv others n u → ses u' = ses u →
  (∀ o, held (io u') o - held (io u) o = others' o - others o) → session_inv others' n u'.
Proof.
  destruct u as [s w], u' as [s' w']. cbn [ses io]. intros [H1 H2 H3 H4] -> Hw. split; try done.
  intros o. specialize (H4 o). specialize (Hw o). cbn [ses io] in *. lia.
Qed.

Lemma session_inv_later others n n' u : session_inv others n u → n <= n' → session_inv others n' u.
Proof. intros [? ? [? ?] ?] ?. split; try done. lia. Qed.

Lemma finv_later others n n' c : finv others n c → n <= n' → finv others n' c.
Proof. intros [] Hn. split; try done. by eapply session_inv_later. Qed.

(** A change of one slot. *)
Lemma finv_update others n c c' i s :
  finv others n c → same_reader c c' → 0 <= i < 2 →
  fr_slots (fr c') = wr (fr_slots (fr c)) i s →
  fs_data s = fs_data (rd (fr_slots (fr c)) i) → fs_frames s = fs_frames (rd (fr_slots (fr c)) i) →
  (fs_inFlight s = true ↔ i ∈ fb_pending c') → (∀ j, j ≠ i → j ∈ fb_pending c' ↔ j ∈ fb_pending c) →
  NoDup (fb_pending c') → keeps (io (fb_dev c)) (io (fb_dev c')) →
  (fb_pending c' ≠ [] ∨ fr_running (fr c') = true → fb_pending c ≠ [] ∨ fr_running (fr c) = true) →
  fr_initialized (fr c) = true → policy_rel (fb_policy c') (schedule_after (fb_done c')) →
  fr_packets (fr c') = u64 (reports_done (fb_done c')) →
  finv others n c'.
Proof.
  intros H [Es El Ea (Ei & Ese & Esi)] Hi. pose proof (fi_length _ _ _ H) as Hlen.
  assert (0 <= i < Z.of_nat (length (fr_slots (fr c)))) as Hil by lia.
  intros Hl Ed Ef Hin Hj Hnd Hk Hact Hini Hp Hpk.
  split; try done.
  - rewrite Hl. unfold wr. by rewrite length_insert.
  - intros j Hjr. rewrite Hl. destruct (decide (j = i)) as [->|Hne].
    + by rewrite rd_wr_eq.
    + rewrite rd_wr_ne by first [apply Hi|apply Hjr|congruence]. rewrite Hj by done. by apply H.
  - intros j Hjp. destruct (decide (j = i)) as [->|Hne]; [done|]. apply Hj in Hjp; [|done]. by apply H.
  - eapply session_inv_ledger; [apply H|done|]. intros o. rewrite (Hk o). unfold reader_refs.
    rewrite El, Hl, reads_refs_wr by done. unfold read_refs. rewrite Ed, Ef. clear. lia.
  - intros Hor. destruct (fi_active _ _ _ H (Hact Hor)) as (Hb & Hs & _ & Hse). rewrite Hl, Ei, Ese, Esi.
    split; [|done]. apply Forall_wr; [done|]. unfold has_buffers. rewrite Ed, Ef.
    apply (proj1 (Forall_lookup _ _) Hb (Z.to_nat i)). apply list_lookup_lookup_total_lt. clear -Hil. lia.
  - rewrite Ei. congruence.
  - rewrite Ei, Ese, Es. apply H.
Qed.

(** Stopping to submit. *)
Lemma finv_halted others n c :
  finv others n c → finv others n (c <| fr ::= λ r, r <| fr_running := false |> |>).
Proof.
  intros []. split; cbn [set_field fr fr_slots fr_runLoop fr_running fr_initialized fr_session fr_sink fr_packets
    fb_pending fb_dev fb_policy fb_done]; try done.
  - intros [Hp|?]; [|done]. apply fi_active0. by left.
  - intros E. destruct (fi_fresh0 E) as (? & ? & ? & _). done.
Qed.

(** Counters do not matter. *)
Lemma finv_errors others n c :
  finv others n c → finv others n (c <| fr ::= λ r, r <| fr_transferErrors ::= λ k, k +₆₄ 1 |> |>).
Proof. intros []. by split. Qed.

Lemma in_flight_count others n c :
  finv others n c → AudioFeedbackReader_inFlightCount (fr c) = 0 ↔ fb_pending c = [].
Proof.
  intros H. pose proof (fi_length _ _ _ H) as Hl. pose proof (fi_flight _ _ _ H) as Hf. pose proof (fi_range _ _ _ H) as Hr.
  unfold AudioFeedbackReader_inFlightCount. destruct (fr_slots (fr c)) as [|a [|b [|]]]; try done.
  pose proof (Hf 0 ltac:(lia)) as H0. pose proof (Hf 1 ltac:(lia)) as H1.
  change (rd [a; b] 0) with a in H0. change (rd [a; b] 1) with b in H1. cbn [foldr].
  split.
  - intros E. destruct (fb_pending c) as [|i l] eqn:Ep; [done|]. specialize (Hr i ltac:(by left)).
    assert (i = 0 ∨ i = 1) as [-> | ->] by lia.
    + rewrite (proj2 H0 ltac:(by left)) in E. by destruct (fs_inFlight b).
    + rewrite (proj2 H1 ltac:(by left)) in E. by destruct (fs_inFlight a).
  - intros E. rewrite E, elem_of_nil in H0, H1. destruct (fs_inFlight a); [by destruct (proj1 H0)|].
    destruct (fs_inFlight b); [by destruct (proj1 H1)|done].
Qed.

(** ** Submitting *)

(** The slot of a submitted read. *)
Definition submitted_slot (s : FeedbackSlot) : FeedbackSlot :=
  s <| fs_list := replicate (Z.to_nat kPacketsPerTransfer)
         {| frStatus := kIOReturnSuccess; frReqCount := kPacketCapacity; frActCount := 0 |} |>
    <| fs_inFlight := true |>.

Lemma submit_read_wp others n i (Q : Z → feedback_ctx → Prop) c :
  finv others n c → 0 <= i < 2 →
  (∀ r c', finv others n c' → same_reader c c' → fr_running (fr c') = fr_running (fr c) →
     (r = kIOReturnSuccess → length (fb_pending c') = S (length (fb_pending c)) ∧ ∀ j, j ∈ fb_pending c' ↔ j = i ∨ j ∈ fb_pending c) →
     (r ≠ kIOReturnSuccess → fb_pending c' = fb_pending c) → Q r c') →
  wp (AudioFeedbackReader_submit i) Q c.
Proof.
  intros H Hi HQ. unfold AudioFeedbackReader_submit. do 2 wp_step. unfold id. wp_step; cbv beta.
  { wp_step. apply HQ; try done. intros E. by destruct (not_ready_fails E). }
  wp_step; cbv beta. { wp_step. apply HQ; try done. intros E. by destruct (no_device_fails E). }
  assert (fr_running (fr c) = true ∧ fs_inFlight (rd (fr_slots (fr c)) i) = false) as [Hr Hf]
    by (destruct (fr_running (fr c)), (fs_inFlight (rd (fr_slots (fr c)) i)), (fr_session (fr c)); done).
  pose proof (fi_length _ _ _ H) as Hl.
  assert (i ∉ fb_pending c) as Hni by (intros E; apply (fi_flight _ _ _ H) in E; [congruence|done]).
  assert (fr_initialized (fr c) = true) as Hini by (apply (fi_active _ _ _ H); by right).
  unfold update_feedback_slot. do 5 wp_step. apply feedback_system_wp, call_status_wp. intros r w Hk _.
  wp_step. wp_step; cbv beta; wp_steps; apply HQ; try done.
  - apply (finv_update others n c _ i ((submitted_slot (rd (fr_slots (fr c)) i)) <| fs_inFlight := false |>));
      try done; cbn [set_field fr fr_slots fb_pending fr_running].
    + rewrite !rd_wr_eq, !wr_wr by (unfold wr; rewrite ?length_insert; lia). reflexivity.
    + apply H.
    + apply H.
    + apply H.
  - intros ->. by rewrite Z.eqb_refl in *.
  - apply (finv_update others n c _ i (submitted_slot (rd (fr_slots (fr c)) i)));
      try done; cbn [set_field fr fr_slots fb_pending fr_running].
    + rewrite !rd_wr_eq, !wr_wr by lia. reflexivity.
    + cbn [set_field fs_inFlight]. split; [|done]. intros _. apply elem_of_app. right. by left.
    + intros j Hj. rewrite elem_of_app, list_elem_of_singleton. tauto.
    + apply list.NoDup_app. split; [apply H|]. split; [|apply NoDup_singleton].
      intros j Hj Hj2%list_elem_of_singleton. by subst.
    + intros _. by right.
    + apply H.
    + apply H.
  - intros _. cbn [set_field fb_pending]. rewrite length_app. cbn [length]. split; [lia|].
    intros j. rewrite elem_of_app, list_elem_of_singleton. tauto.
  - intros []. by destruct (r =? kIOReturnSuccess) eqn:?; [lia|].
Qed.

(** ** Completions *)

(** Two contexts that differ in counters and in the policy. *)
Record observed (c c' : feedback_ctx) : Prop := {
  ob_same : same_reader c c';
  ob_running : fr_running (fr c') = fr_running (fr c);
  ob_slots : fr_slots (fr c') = fr_slots (fr c);
  ob_rest : fb_dev c' = fb_dev c ∧ fb_pending c' = fb_pending c ∧ fb_done c' = fb_done c
}.

Lemma observed_refl c : observed c c.
Proof. done. Qed.

Lemma observed_trans c1 c2 c3 : observed c1 c2 → observed c2 c3 → observed c1 c3.
Proof.
  intros [? ? ? (? & ? & ?)] [? ? ? (? & ? & ?)]. split; [by eapply same_reader_trans|congruence..|].
  split; [|split]; congruence.
Qed.

(** The slot holds the read [k]. *)
Definition holds (s : FeedbackSlot) (k : feedback_done) : Prop :=
  fs_data s ≠ 0 ∧ fs_bytes s = fd_bytes k ∧
  ∀ i, 0 <= i < 4 → rd (fs_list s) i =
    {| frStatus := (rd (fd_frames k) i).1; frReqCount := kPacketCapacity; frActCount := (rd (fd_frames k) i).2 |}.

Lemma count_kind_wp kd (Q : () → feedback_ctx → Prop) c :
  (∀ c', observed c c' → fb_policy c' = fb_policy c → fr_packets (fr c') = fr_packets (fr c) → Q () c') →
  wp (count_kind kd) Q c.
Proof. intros HQ. destruct kd; apply wp_modify, HQ; done. Qed.

Lemma observe_packet_wp s k i (Q : () → feedback_ctx → Prop) c :
  holds s k → fr_sink (fr c) = true → 0 <= i < 4 →
  (∀ c', observed c c' → fb_policy c' = (run policy_step (packet_event k i) (fb_policy c)).2 →
     fr_packets (fr c') = fr_packets (fr c) +₆₄ 1 → Q () c') →
  wp (observe_packet s (fd_status k) i) Q c.
Proof.
  intros (Hd & Hb & Hl) Hs Hi HQ. unfold observe_packet. cbv zeta. rewrite (Hl i Hi), Hb. cbn [frStatus frActCount].
  replace (fs_data s =? 0) with false by lia. cbn [andb]. pose proof (publish_event k i) as Hp.
  destruct (rd (fd_frames k) i) as [status count]. cbn [fst snd]. unfold fr_count at 1. do 3 wp_step.
  apply count_kind_wp. intros c1 O1 P1 K1. do 2 wp_step. unfold id.
  replace (fr_sink (fr c1)) with true by (symmetry; by rewrite (proj2 (proj2 (sd_flags _ _ (ob_same _ _ O1))))).
  wp_step. apply HQ; cbn [set_field fb_policy fr].
  - destruct O1 as [[] ? ? (? & ? & ?)]. by split.
  - rewrite P1. cbn [set_field fb_policy]. by rewrite <- Hp.
  - rewrite K1. done.
Qed.

Lemma observe_packets_wp s k idx (Q : () → feedback_ctx → Prop) c :
  holds s k → fr_sink (fr c) = true → (∀ i, i ∈ idx → 0 <= i < 4) →
  (∀ c', observed c c' → fb_policy c' = (run policy_step (concat (map (packet_event k) idx)) (fb_policy c)).2 →
     fr_packets (fr c') = u64 (fr_packets (fr c) + Z.of_nat (length idx)) ∨ idx = [] ∧ c' = c → Q () c') →
  wp (observe_packets s (fd_status k) idx) Q c.
Proof.
  intros Hh. revert c. induction idx as [|i idx IH]; intros c Hs Hi HQ; cbn [observe_packets].
  { wp_step. apply HQ; [done|done|by right]. }
  wp_step. apply observe_packet_wp; [done|done|apply Hi; by left|]. intros c1 O1 P1 K1. apply IH.
  - by rewrite (proj2 (proj2 (sd_flags _ _ (ob_same _ _ O1)))).
  - intros j Hj. apply Hi. by right.
  - intros c2 O2 P2 K2. apply HQ; [by eapply observed_trans| |left].
    + rewrite P2, P1. cbn [map concat]. by rewrite run_app_state.
    + destruct K2 as [K2|[-> ->]]; rewrite ?K2, K1; cbn [length]; unfold u64.
      * rewrite Zplus_mod_idemp_l. f_equal. lia.
      * f_equal.
Qed.

Lemma deliver_feedback_wp others n k (Q : () → feedback_ctx → Prop) c :
  finv others n c →
  (∀ c', finv others n c' → same_reader c c' → (length (fb_pending c') <= length (fb_pending c))%nat →
     (fr_running (fr c') = true → fr_running (fr c) = true ∧ length (fb_pending c') = length (fb_pending c)) → Q () c') →
  wp (feedback_deliver k) Q c.
Proof.
  intros H HQ. unfold feedback_deliver. do 2 wp_step. unfold id at 1. case_bool_decide as Hk; [|wp_step; by apply HQ].
  pose proof (fi_range _ _ _ H _ Hk) as Hr. pose proof (fi_length _ _ _ H) as Hl.
  destruct (fi_active _ _ _ H ltac:(left; intros E; by rewrite E, elem_of_nil in Hk)) as (Hb & Hsink & Hini & _).
  unfold update_feedback_slot at 1, AudioFeedbackReader_didComplete. do 7 wp_step. unfold id.
  set (slot := (rd (fr_slots (fr c)) (fd_slot k)) <| fs_bytes := fd_bytes k |>
      <| fs_list := map (λ i, {| frStatus := (rd (fd_frames k) i).1; frReqCount := kPacketCapacity;
                                 frActCount := (rd (fd_frames k) i).2 |}) (seqZ 0 kPacketsPerTransfer) |>).
  match goal with |- wp (observe_packets (rd (fr_slots (fr ?x)) _) _ _) _ _ => set (c1 := x) end.
  assert (rd (fr_slots (fr c1)) (fd_slot k) = slot) as Eslot by (apply rd_wr_eq; change (0 <= fd_slot k < Z.of_nat (length (fr_slots (fr c)))); lia).
  rewrite Eslot.
  assert (holds slot k) as Hh.
  { split; [|split; [done|]].
    - destruct (proj1 (Forall_lookup _ _) Hb (Z.to_nat (fd_slot k)) (rd (fr_slots (fr c)) (fd_slot k))) as [Hd _];
        [apply list_lookup_lookup_total_lt; lia|exact Hd].
    - intros i Hi. assert (i = 0 ∨ i = 1 ∨ i = 2 ∨ i = 3) as [-> |[-> |[-> | ->]]] by lia; reflexivity. }
  apply observe_packets_wp; [done|done|intros i Hi%elem_of_seqZ; unfold kPacketsPerTransfer in *; lia|].
  intros c2 O2 P2 K2. destruct K2 as [K2|[? _]]; [|done]. unfold update_feedback_slot. do 2 wp_step.
  match goal with |- wp _ _ ?x => set (c3 := x) end.
  assert (finv others n c3 ∧ same_reader c c3 ∧ fr_running (fr c3) = fr_running (fr c) ∧
    length (fb_pending c) = S (length (fb_pending c3)) ∧ fd_slot k ∉ fb_pending c3) as (H3 & S3 & R3 & L3 & N3).
  { destruct O2 as [Sm Er Es (Ed & Ep & Eo)].
    assert (fb_pending c3 = filter (λ i, i ≠ fd_slot k) (fb_pending c)) as Ep3 by (subst c3 c1; exact Ep).
    assert (fd_slot k ∉ fb_pending c3) as Hn3 by (rewrite Ep3, list_elem_of_filter; by intros [? _]).
    assert (same_reader c c3) as S3 by (subst c3 c1; destruct Sm; by split).
    assert (fr_running (fr c3) = fr_running (fr c)) as R3 by (subst c3 c1; exact Er).
    split; [|split; [done|split; [done|split; [|done]]]].
    - apply (finv_update others n c c3 (fd_slot k) (slot <| fs_inFlight := false |>)); try done.
      + subst c3. cbn [set_field fr fr_slots]. rewrite Es, Eslot. subst c1. cbn [set_field fr fr_slots]. by rewrite wr_wr.
      + intros j Hj. rewrite Ep3, list_elem_of_filter. tauto.
      + rewrite Ep3. apply list.NoDup_filter, H.
      + subst c3 c1. cbn [set_field fb_dev] in *. rewrite Ed. done.
      + intros [Hp|?]; [left|right; congruence]. intros E. apply Hp. by rewrite Ep3, E.
      + change (fb_policy c3) with (fb_policy c2). change (fb_done c3) with (fb_done c2). rewrite P2, Eo.
        change (fb_done c1) with (fb_done c ++ [Some k]). rewrite schedule_after_snoc.
        change (fb_policy c1) with (fb_policy c). apply run_rel, H.
      + change (fr_packets (fr c3)) with (fr_packets (fr c2)). change (fb_done c3) with (fb_done c2). rewrite K2, Eo.
        change (fr_packets (fr c1)) with (fr_packets (fr c)). change (fb_done c1) with (fb_done c ++ [Some k]).
        rewrite (fi_packets _ _ _ H). unfold reports_done. rewrite map_app, total_append.
        change (Z.of_nat (length (seqZ 0 kPacketsPerTransfer))) with 4. unfold u64. rewrite Zplus_mod_idemp_l. done.
    - rewrite Ep3. apply length_filter_ne; [apply H|done]. }
  clearbody c3. clear c2 O2 P2 K2 Hh Eslot. clearbody c1 slot. clear c1 slot.
  wp_step; cbv beta.
  { do 2 wp_step. apply HQ; [by apply finv_halted|by destruct S3|cbn [set_field fb_pending]; lia|done]. }
  do 2 wp_step. unfold id. wp_step; cbv beta; [|wp_step; apply HQ; [done..|lia|congruence]].
  wp_step. eapply submit_read_wp; [done..|]. intros r c4 H4 S4 R4 L4 P4.
  assert (same_reader c c4) as S14 by by eapply same_reader_trans. wp_step; cbv beta.
  - unfold fr_count. do 4 wp_step. apply HQ; [by apply finv_halted, finv_errors|by destruct S14| |done].
    cbn [set_field fb_pending]. rewrite P4 by lia. lia.
  - wp_step. apply HQ; [done..| |]; rewrite (proj1 (L4 ltac:(lia))); [lia|]. intros _. split; [congruence|lia].
Qed.

Lemma deliver_reads_wp others n ks (Q : () → feedback_ctx → Prop) c :
  finv others n c →
  (∀ c', finv others n c' → same_reader c c' → (fr_running (fr c') = true → fr_running (fr c) = true) → Q () c') →
  wp (feedback_deliver_all ks) Q c.
Proof.
  revert c. induction ks as [|k ks IH]; intros c H HQ; cbn [feedback_deliver_all]; [wp_step; by apply HQ|].
  wp_step. eapply deliver_feedback_wp; [done|]. intros c1 H1 S1 L1 R1. apply IH; [done|]. intros c2 H2 S2 R2.
  apply HQ; [done|by eapply same_reader_trans|]. intros E. by apply R1, R2.
Qed.

Lemma drain_reads_wp others n rounds (Q : () → feedback_ctx → Prop) c :
  finv others n c →
  (∀ c', finv others n c' → same_reader c c' → (fr_running (fr c') = true → fr_running (fr c) = true) → Q () c') →
  wp (feedback_drain rounds) Q c.
Proof.
  revert c. induction rounds as [|ks rounds IH]; intros c H HQ; cbn [feedback_drain]; do 2 wp_step; unfold id.
  - wp_step; cbv beta; wp_step; by apply HQ.
  - wp_step; cbv beta; [wp_step; by apply HQ|]. wp_step. eapply deliver_reads_wp; [done|]. intros c1 H1 S1 R1.
    apply IH; [done|]. intros c2 H2 S2 R2. apply HQ; [done|by eapply same_reader_trans|]. intros E. by apply R1, R2.
Qed.

(** ** Buffers *)

(** A context with other slots and another ledger. *)
Definition with_reads (c : feedback_ctx) (l : list FeedbackSlot) (w : world) : feedback_ctx :=
  c <| fr ::= λ x, x <| fr_slots := l |> |> <| fb_dev := {| ses := ses (fb_dev c); io := w |} |>.

Lemma with_reads_id c : with_reads c (fr_slots (fr c)) (io (fb_dev c)) = c.
Proof. by destruct c as [[] []]. Qed.

(** The slots and the ledger agree, and no slot has changed its flag. *)
Record reads_ledger (l0 : list FeedbackSlot) (w0 : world) (l : list FeedbackSlot) (w : world) : Prop := {
  rl_length : length l = 2%nat;
  rl_flight : ∀ i, 0 <= i < 2 → fs_inFlight (rd l i) = fs_inFlight (rd l0 i);
  rl_held : ∀ o, held w o - held w0 o = reads_refs l o - reads_refs l0 o
}.

Lemma system_reads_wp {A} (m : M world A) (Q : A → feedback_ctx → Prop) c l w :
  wp m (λ a w', Q a (with_reads c l w')) w → wp (feedback_system m) Q (with_reads c l w).
Proof. intros Hm. by apply feedback_system_wp. Qed.

Lemma update_read_wp i f (Q : () → feedback_ctx → Prop) c l w :
  Q () (with_reads c (wr l i (f (rd l i))) w) → wp (update_feedback_slot i f) Q (with_reads c l w).
Proof. done. Qed.

Lemma destroy_read_wp h result (Q : Z → feedback_ctx → Prop) c l w :
  (∀ r w', (∀ o, held w' o = held w o - ref Buffer h o) → Q r (with_reads c l w')) →
  wp (destroy_feedback_buffer h result) Q (with_reads c l w).
Proof.
  intros HQ. unfold destroy_feedback_buffer. wp_step; cbv beta.
  - wp_step. apply HQ. assert (h = 0) as -> by lia. intros o. rewrite ref_null. lia.
  - wp_step. apply system_reads_wp, call_status_wp. intros r w1 Hw1 _.
    wp_step. apply system_reads_wp, release_wp. intros w2 Hw2. wp_step. apply HQ. intros o.
    rewrite (Hw2 o), (Hw1 o). unfold ref. case_ifs; lia.
Qed.

Lemma reads_ledger_wr l0 w0 l w i s w' :
  reads_ledger l0 w0 l w → 0 <= i < 2 → fs_inFlight s = fs_inFlight (rd l i) →
  (∀ o, held w' o - held w o = read_refs s o - read_refs (rd l i) o) →
  reads_ledger l0 w0 (wr l i s) w'.
Proof.
  intros [H1 H2 H3] Hi Hf Hw. split.
  - unfold wr. by rewrite length_insert.
  - intros j Hj. rewrite <- H2 by done. destruct (decide (j = i)) as [->|Hne].
    + rewrite rd_wr_eq; [done|]. rewrite H1. exact Hi.
    + rewrite rd_wr_ne; [done|apply Hi|apply Hj|congruence].
  - intros o. rewrite reads_refs_wr by done. specialize (H3 o). specialize (Hw o). lia.
Qed.

Lemma release_reads_wp result (Q : Z → feedback_ctx → Prop) c :
  length (fr_slots (fr c)) = 2%nat →
  (∀ r l' w', reads_ledger (fr_slots (fr c)) (io (fb_dev c)) l' w' → Forall no_buffers l' → Q r (with_reads c l' w')) →
  wp (release_feedback_slots (seqZ 0 kFeedbackSlots) result) Q c.
Proof.
  intros Hl HQ. rewrite <- (with_reads_id c). change (seqZ 0 kFeedbackSlots) with [0; 1].
  assert (∀ idx result l w, reads_ledger (fr_slots (fr c)) (io (fb_dev c)) l w → (∀ i, i ∈ idx → 0 <= i < 2) →
    (∀ i, 0 <= i < 2 → i ∉ idx → no_buffers (rd l i)) → wp (release_feedback_slots idx result) Q (with_reads c l w)) as H.
  { induction idx as [|i idx IH]; intros res l w Hw Hr Hn; cbn [release_feedback_slots].
    - wp_step. apply HQ; [done|]. pose proof (rl_length _ _ _ _ Hw). destruct l as [|a [|b [|]]]; try done.
      pose proof (Hn 0 ltac:(lia) (not_elem_of_nil _)). pose proof (Hn 1 ltac:(lia) (not_elem_of_nil _)). constructor; [done|]. constructor; [done|]. constructor.
    - assert (0 <= i < 2) as Hi by (apply Hr; by left). pose proof (rl_length _ _ _ _ Hw) as Hlen.
      do 2 wp_step. unfold id. change (fr_slots (fr (with_reads c l w))) with l.
      wp_step. apply destroy_read_wp. intros r1 w1 Hw1. wp_step. apply update_read_wp.
      wp_step. apply destroy_read_wp. intros r2 w2 Hw2. wp_step. apply update_read_wp.
      rewrite rd_wr_eq by lia. rewrite wr_wr. set (s := rd l i). apply IH.
      + eapply reads_ledger_wr; [done..|]. intros o. unfold read_refs. cbn [set_field fs_data fs_frames].
        rewrite (Hw2 o), (Hw1 o), !ref_null. fold s. lia.
      + intros j Hj. apply Hr. by right.
      + intros j Hj Hnj. destruct (decide (j = i)) as [->|Hji]; [by rewrite rd_wr_eq by lia|].
        rewrite rd_wr_ne by lia. apply Hn; [done|]. by rewrite not_elem_of_cons. }
  apply H; [by split; [..|lia]| |].
  - intros i [->|[->|[]%elem_of_nil]%elem_of_cons]%elem_of_cons; lia.
  - intros i Hi Hn. destruct Hn. assert (i = 0 ∨ i = 1) as [-> | ->] by lia; [by left|by right; left].
Qed.

Lemma create_reads_wp (Q : option Z → feedback_ctx → Prop) c :
  length (fr_slots (fr c)) = 2%nat → Forall no_buffers (fr_slots (fr c)) →
  (∀ r l w, reads_ledger (fr_slots (fr c)) (io (fb_dev c)) l w → r ≠ Some kIOReturnSuccess →
     (r = None → Forall has_buffers l) → Q r (with_reads c l w)) →
  wp create_feedback_buffers Q c.
Proof.
  intros Hlen Hno HQ. unfold create_feedback_buffers.
  apply wp_for_each with (I := λ xs c', ∃ l w, c' = with_reads c l w ∧ NoDup xs ∧ (∀ i, i ∈ xs → 0 <= i < 2) ∧
    reads_ledger (fr_slots (fr c)) (io (fb_dev c)) l w ∧ ∀ i, 0 <= i < 2 →
    if decide (i ∈ xs) then no_buffers (rd l i) else has_buffers (rd l i)).
  - exists (fr_slots (fr c)), (io (fb_dev c)). rewrite with_reads_id. split; [done|]. split; [apply NoDup_seqZ|].
    split; [intros i Hi%elem_of_seqZ; unfold kFeedbackSlots in *; lia|].
    split; [by split; [..|lia]|]. intros i Hi. rewrite decide_True by (apply elem_of_seqZ; unfold kFeedbackSlots; lia).
    unfold rd. eapply (proj1 (Forall_lookup _ _) Hno (Z.to_nat i)). apply list_lookup_lookup_total_lt. lia.
  - intros i xs ? (l & w & -> & Hnd & Hx & Hl & Hi). apply list.NoDup_cons in Hnd as [Hix Hnd].
    assert (0 <= i < 2) as Hr by (apply Hx; by left). pose proof (rl_length _ _ _ _ Hl) as Hll.
    assert (no_buffers (rd l i)) as [Ed Ef].
    { specialize (Hi i Hr). rewrite decide_True in Hi by by left. done. }
    wp_step. apply system_reads_wp, create_wp. intros r h w1 Hh Hrh Hw1. wp_step. apply update_read_wp.
    assert (reads_ledger (fr_slots (fr c)) (io (fb_dev c)) (wr l i ((rd l i) <| fs_data := h |>)) w1) as Hl1.
    { eapply reads_ledger_wr; [done..|]. intros o. unfold read_refs. cbn [set_field fs_data fs_frames].
      rewrite (Hw1 o), Ed, ref_null. lia. }
    wp_step; cbv beta. { wp_step. apply HQ; [done|intros [=]; lia|done]. }
    wp_step. apply system_reads_wp, create_wp. intros r2 h2 w2 Hh2 Hrh2 Hw2.
    set (l1 := wr l i ((rd l i) <| fs_data := h |>)) in *. wp_step; cbv beta.
    { wp_step. assert (h2 = 0) as -> by lia. apply HQ; [|intros [=]; lia|done]. destruct Hl1 as [A1 A2 A3].
      split; [done..|]. intros o. rewrite (Hw2 o), ref_null. specialize (A3 o). lia. }
    wp_step. apply update_read_wp. wp_step.
    assert (rd l1 i = (rd l i) <| fs_data := h |>) as Er by (apply rd_wr_eq; lia).
    eexists _, w2. split; [done|]. split; [done|]. split; [intros j Hj; apply Hx; by right|]. split.
    + eapply reads_ledger_wr; [done..|]. intros o. unfold read_refs. rewrite Er. cbn [set_field fs_data fs_frames].
      rewrite (Hw2 o), Ef, ref_null. lia.
    + intros j Hj. specialize (Hi j Hj). destruct (decide (j = i)) as [->|Hji].
      * rewrite decide_False by done. rewrite rd_wr_eq by (rewrite (rl_length _ _ _ _ Hl1); lia). rewrite Er.
        split; cbn [set_field fs_data fs_frames]; lia.
      * rewrite rd_wr_ne by lia. subst l1. rewrite rd_wr_ne by lia. revert Hi.
        destruct (decide (j ∈ xs)); [by rewrite decide_True by by right|].
        rewrite decide_False; [done|]. by rewrite not_elem_of_cons.
  - intros ? (l & w & -> & _ & _ & Hl & Hi). apply HQ; [done..|]. intros _. pose proof (rl_length _ _ _ _ Hl).
    destruct l as [|a [|b [|]]]; try done. pose proof (Hi 0 ltac:(lia)) as H0. pose proof (Hi 1 ltac:(lia)) as H1.
    rewrite decide_False in H0 by apply not_elem_of_nil. rewrite decide_False in H1 by apply not_elem_of_nil. constructor; [done|]. constructor; [done|]. constructor.
Qed.

Lemma with_reads_session others n c l w :
  session_inv (λ o, reader_refs (fr c) o + others o) n (fb_dev c) →
  reads_ledger (fr_slots (fr c)) (io (fb_dev c)) l w →
  session_inv (λ o, reader_refs (fr (with_reads c l w)) o + others o) n (fb_dev (with_reads c l w)).
Proof.
  intros Hs [_ _ Hh]. eapply session_inv_ledger; [exact Hs|done|]. intros o. specialize (Hh o). unfold reader_refs.
  cbn [with_reads set_field fr fr_runLoop fr_slots fb_dev io] in *. lia.
Qed.

(** ** Stopping *)

Lemma acquire_auxiliary_interface loop u :
  wp (NS6DeviceSession_acquireAuxiliaryEvents loop) (λ _ u', auxiliaryInterface_ (ses u') = auxiliaryInterface_ (ses u)) u.
Proof. unfold NS6DeviceSession_acquireAuxiliaryEvents. by wp_steps. Qed.

Lemma release_auxiliary_interface loop u :
  wp (NS6DeviceSession_releaseAuxiliaryEvents loop) (λ _ u', auxiliaryInterface_ (ses u') = auxiliaryInterface_ (ses u)) u.
Proof. unfold NS6DeviceSession_releaseAuxiliaryEvents. by wp_steps. Qed.

(** Another user of the session, which stays open. *)
Lemma finv_dev others n n' c u :
  finv others n c → session_inv (λ o, reader_refs (fr c) o + others o) n' u →
  (fr_initialized (fr c) = true → fr_session (fr c) = true → auxiliaryInterface_ (ses u) ≠ 0) →
  finv others n' (c <| fb_dev := u |>).
Proof. intros [] Hu Hn. by split. Qed.

(** The reader gives everything back. *)
Lemma finish_stop_wp others n result (Q : Z → feedback_ctx → Prop) c :
  finv others n c → 0 <= n → fr_initialized (fr c) = true → fr_session (fr c) = true →
  fr_running (fr c) = false → fb_pending c = [] →
  (∀ r c', finv others (n + 1) c' → fr_running (fr c') = false → fr_initialized (fr c') = true →
     fb_pending c' = [] → Forall no_buffers (fr_slots (fr c')) → fr_session (fr c') = false → Q r c') →
  wp (finish_stop result) Q c.
Proof.
  intros H Hn Hi Hse Hr Hp HQ. unfold finish_stop. do 2 wp_step. unfold id. wp_step.
  apply wp_mono with (λ _ c1, finv others (n + 1) c1 ∧ fr_initialized (fr c1) = true ∧ fr_session (fr c1) = true ∧
    fr_running (fr c1) = false ∧ fb_pending c1 = []).
  { wp_step; cbv beta; [|wp_step; split; [apply (finv_later _ n); [done|lia]|done]]. do 2 wp_step.
    eapply wp_mono; [apply wp_and; [apply (release_auxiliary_inv (λ o, reader_refs (fr c) o + others o) n);
      [apply H|done]|apply release_auxiliary_interface]|].
    cbv beta. intros r u [Hu Eu]. wp_steps. split; [|done].
    assert (finv others (n + 1) (c <| fb_dev := u |>)) as [].
    { apply (finv_dev _ n); [done..|]. rewrite Eu. apply H. }
    by split. }
  intros r c1 (H1 & Hi1 & Hse1 & Hr1 & Hp1). wp_step. unfold AudioFeedbackReader_releaseBuffers. do 2 wp_step.
  unfold id, feedback_session. rewrite Hse1. cbn [negb]. pose proof (fi_open _ _ _ H1 Hi1 Hse1).
  wp_step; cbv beta; [lia|]. apply release_reads_wp; [apply H1|]. intros r2 l w Hl Hno. do 7 wp_step.
  apply HQ; try done. pose proof (with_reads_session others (n + 1) c1 l w (fi_session _ _ _ H1) Hl) as Hs.
  destruct H1. split; cbn [with_reads set_field fr fr_slots fr_runLoop fr_running fr_initialized fr_session fr_sink
    fr_packets fb_pending fb_dev fb_policy fb_done ses] in *; try done.
  - apply Hl.
  - intros i Hir. rewrite (rl_flight _ _ _ _ Hl i Hir). by apply fi_flight0.
  - rewrite Hp1, Hr1. by intros [?|?].
  - rewrite Hi1. done.
Qed.

Lemma stop_reader_wp others n rounds (Q : Z → feedback_ctx → Prop) c :
  finv others n c → 0 <= n →
  (∀ r c', finv others (n + 1) c' → fr_initialized (fr c') = fr_initialized (fr c) → fr_running (fr c') = false →
     (fr_initialized (fr c) = true → fr_session (fr c) = true →
        r = kIOReturnTimeout ∧ fb_pending c' ≠ [] ∨
        fb_pending c' = [] ∧ Forall no_buffers (fr_slots (fr c')) ∧ fr_session (fr c') = false) → Q r c') →
  wp (AudioFeedbackReader_stop rounds) Q c.
Proof.
  intros H Hn HQ. unfold AudioFeedbackReader_stop. do 2 wp_step. unfold id at 1 2.
  destruct (fr_initialized (fr c)) eqn:Hi; cbn [negb orb].
  2: { wp_step. apply HQ; [apply (finv_later _ n); [done|lia]|done| |done]. by apply (fi_fresh _ _ _ H). }
  destruct (fr_session (fr c)) eqn:Hse; cbn [negb].
  2: { wp_step. apply HQ; [apply (finv_later _ n); [done|lia]|done| |done]. destruct (fr_running (fr c)) eqn:E; [|done].
       destruct (fi_active _ _ _ H (or_intror E)) as (_ & _ & _ & ?). congruence. }
  do 3 wp_step. pose proof (finv_halted _ _ _ H) as Hh.
  match goal with |- wp _ _ ?x => set (c0 := x) in * end.
  assert (fr_initialized (fr c0) = true ∧ fr_session (fr c0) = true ∧ fr_running (fr c0) = false ∧
    fb_pending c0 = fb_pending c) as (Hi0 & Hse0 & Hr0 & Hp0) by done.
  assert (session_inv (λ o, reader_refs (fr c0) o + others o) n (fb_dev c0)) as Hs0 by apply Hh.
  assert (auxiliaryInterface_ (ses (fb_dev c)) ≠ 0) as Hif by (apply (fi_open _ _ _ H); done).
  unfold id, feedback_session. replace (auxiliaryInterface_ (ses (fb_dev c)) =? 0) with false by lia.
  cbn [negb]. rewrite andb_true_r. wp_step; cbv beta.
  - wp_step. apply feedback_system_wp, call_status_wp. intros r w Hk _. wp_step. eapply (drain_reads_wp others n).
    + apply (finv_dev _ n); [done| |].
      * eapply session_inv_ledger; [exact Hs0|done|]. intros o. cbn [io]. rewrite (Hk o). lia.
      * intros _ _. exact Hif.
    + intros c1 H1 S1 R1. do 2 wp_step. unfold id.
      assert (fr_running (fr c1) = false) as Hr1
        by (destruct (fr_running (fr c1)); [by specialize (R1 eq_refl)|done]).
      destruct (sd_flags _ _ S1) as (Ei1 & Ese1 & _). cbn [set_field fr] in Ei1, Ese1. rewrite Hi0 in Ei1. rewrite Hse0 in Ese1.
      pose proof (in_flight_count _ _ _ H1) as Hc. wp_step; cbv beta.
      * wp_step. apply HQ; [apply (finv_later _ n); [done|lia]|done..|]. intros _ _. left. split; [done|].
        intros E. apply Hc in E. lia.
      * eapply finish_stop_wp; [done..| |]; [apply Hc; lia|]. intros r2 c2 H2 R2 I2 P2 N2 S2. apply HQ; auto.
  - pose proof (in_flight_count _ _ _ H) as Hc. eapply finish_stop_wp; [done..| |].
    + rewrite Hp0. apply Hc. lia.
    + intros r2 c2 H2 R2 I2 P2 N2 S2. apply HQ; auto.
Qed.

(** ** Starting *)

(** Contexts of a reader that was never started, up to its buffers, run loop and the session. *)
Record unstarted_reader (c c' : feedback_ctx) : Prop := {
  ur_rest : fb_pending c' = fb_pending c ∧ fb_policy c' = fb_policy c ∧ fb_done c' = fb_done c;
  ur_flags : fr_running (fr c') = fr_running (fr c) ∧ fr_initialized (fr c') = fr_initialized (fr c) ∧
             fr_packets (fr c') = fr_packets (fr c);
  ur_length : length (fr_slots (fr c')) = 2%nat;
  ur_flight : ∀ i, 0 <= i < 2 → fs_inFlight (rd (fr_slots (fr c')) i) = fs_inFlight (rd (fr_slots (fr c)) i)
}.

Lemma unstarted_finv others n n' c c' :
  finv others n c → fr_initialized (fr c) = false → unstarted_reader c c' →
  Forall no_buffers (fr_slots (fr c')) → fr_runLoop (fr c') = 0 →
  session_inv (λ o, reader_refs (fr c') o + others o) n' (fb_dev c') → finv others n' c'.
Proof.
  intros H Hi [(E1 & E2 & E3) (E4 & E5 & E6) E7 E8] Hb Hl Hs. destruct (fi_fresh _ _ _ H Hi) as (Hp & _ & _ & Hr).
  split; rewrite ?E1, ?E2, ?E3, ?E4, ?E5, ?E6; try done; try apply H.
  - intros i Hir. rewrite E8 by done. by apply H.
  - rewrite Hp, Hr. by intros [?|?].
  - congruence.
Qed.

Lemma started_finv others n n' c c' :
  finv others n c → fr_initialized (fr c) = false → unstarted_reader c c' → Forall has_buffers (fr_slots (fr c')) →
  fr_sink (fr c') = true → fr_session (fr c') = true → auxiliaryInterface_ (ses (fb_dev c')) ≠ 0 →
  session_inv (λ o, reader_refs (fr c') o + others o) n' (fb_dev c') →
  finv others n' (c' <| fr ::= λ r, r <| fr_sourceAdded := true |> <| fr_running := true |> <| fr_initialized := true |> |>).
Proof.
  intros H Hi [(E1 & E2 & E3) (E4 & E5 & E6) E7 E8] Hb Hsi Hse Hif Hs.
  split; cbn [set_field fr fr_slots fr_runLoop fr_running fr_initialized fr_session fr_sink fr_packets
    fb_pending fb_dev fb_policy fb_done]; rewrite ?E1, ?E2, ?E3, ?E6; try done; try apply H.
  intros i Hir. rewrite E8 by done. by apply H.
Qed.

(** A start that fails before anything is submitted leaves the reader without session and buffers. *)
Lemma abandon_start_wp others n n' result (Q : Z → feedback_ctx → Prop) c c1 :
  finv others n c → fr_initialized (fr c) = false → unstarted_reader c c1 → fr_session (fr c1) = true →
  auxiliaryInterface_ (ses (fb_dev c1)) ≠ 0 → fr_runLoop (fr c1) ≠ 0 →
  session_inv (λ o, reader_refs (fr c1) o + others o) n' (fb_dev c1) →
  (∀ c', finv others n' c' → fr_running (fr c') = false → Q result c') → wp (abandon_start result) Q c1.
Proof.
  intros H Hi U Hse Hif Hl Hs HQ. unfold abandon_start, AudioFeedbackReader_releaseBuffers. do 3 wp_step.
  unfold id, feedback_session. rewrite Hse. cbn [negb]. wp_step; cbv beta; [lia|].
  apply release_reads_wp; [apply U|]. intros r l w Hw Hb. do 3 wp_step. unfold id.
  apply system_reads_wp, release_wp. intros w' Hw'. wp_steps. destruct (fi_fresh _ _ _ H Hi) as (_ & _ & _ & Hr).
  destruct U as [(E1 & E2 & E3) (E4 & E5 & E6) E7 E8]. apply HQ; [|cbn [with_reads set_field fr fr_running]; congruence].
  eapply (unstarted_finv others n n' c); try done.
  - split; try done; [apply Hw|]. intros i Hir. rewrite <- (E8 i Hir). by apply Hw.
  - eapply session_inv_ledger; [exact Hs|done|]. intros o. pose proof (rl_held _ _ _ _ Hw o) as Ho. unfold reader_refs.
    cbn [with_reads set_field fr fr_runLoop fr_slots fb_dev io ses] in *. rewrite (Hw' o), ref_null. unfold ref. case_if; lia.
Qed.

Lemma submit_reads_wp others n (Q : option Z → feedback_ctx → Prop) c :
  finv others n c → fb_pending c = [] → fr_running (fr c) = true →
  (∀ r c', finv others n c' → fr_running (fr c') = true →
     (r = None → length (fb_pending c') = 2%nat) → Q r c') →
  wp submit_reads Q c.
Proof.
  intros H Hp Hr HQ. unfold submit_reads.
  apply wp_for_each with (I := λ xs c', finv others n c' ∧ fr_running (fr c') = true ∧ (∀ i, i ∈ xs → 0 <= i < 2) ∧
    (length (fb_pending c') + length xs = 2)%nat).
  - split; [done|]. split; [done|]. rewrite Hp. split; [|done]. intros i Hi%elem_of_seqZ. unfold kFeedbackSlots in *. lia.
  - intros x xs c1 (H1 & R1 & X1 & L1). wp_step. eapply submit_read_wp; [done|apply X1; by left|].
    intros r c2 H2 S2 R2 L2 P2. wp_step. destruct (r =? kIOReturnSuccess) eqn:Er.
    + split; [done|]. split; [congruence|]. split; [intros i Hi; apply X1; by right|].
      rewrite (proj1 (L2 ltac:(lia))). cbn in L1. lia.
    + apply HQ; [done|congruence|done].
  - intros c1 (H1 & R1 & _ & L1). apply HQ; try done. cbn in L1. lia.
Qed.

Lemma start_reader_wp others n current rounds (Q : Z → feedback_ctx → Prop) c :
  finv others n c → 0 <= n < UINT32_MAX - 1 →
  (∀ r c', finv others (n + 2) c' → (fr_initialized (fr c) = true → c' = c) →
     (fr_initialized (fr c) = false → fr_running (fr c') = true → length (fb_pending c') = 2%nat) → Q r c') →
  wp (AudioFeedbackReader_start current rounds) Q c.
Proof.
  intros H Hn HQ. unfold AudioFeedbackReader_start. do 2 wp_step. unfold id. cbv zeta. wp_step; cbv beta.
  { wp_step. apply HQ; [apply (finv_later _ n); [done|lia]|done|].
    intros Hi Hr. by rewrite (proj2 (proj2 (proj2 (fi_fresh _ _ _ H Hi)))) in Hr. }
  destruct (fr_initialized (fr c)) eqn:Hi; [done|]. cbn [orb] in *.
  destruct (fi_fresh _ _ _ H Hi) as (Hp & Hb & Hl & Hr).
  assert (auxiliaryInterface_ (ses (fb_dev c)) ≠ 0) as Hif by (unfold feedback_session in *; lia).
  assert (∀ c' r, finv others (n + 1) c' ∨ finv others (n + 2) c' → fr_running (fr c') = false → Q r c') as Hfail.
  { intros c' r Hw Hr'. apply HQ; [destruct Hw as [Hw|Hw]; [apply (finv_later _ (n + 1)); [done|lia]|done]|done|congruence]. }
  do 9 wp_step. wp_step; cbv beta.
  { assert (current = 0) as -> by lia. wp_step. apply Hfail; [left|done].
    eapply (unstarted_finv others n); try done; [by split; try apply H|].
    eapply session_inv_later; [eapply session_inv_ledger; [apply H|done|]|lia].
    intros o. unfold reader_refs. cbn [set_field fr fb_dev io fr_runLoop fr_slots]. rewrite Hl. lia. }
  wp_step. apply feedback_system_wp, acquire_wp. intros w Hw. cbn [set_field fb_dev ses io] in *.
  match goal with |- wp _ _ ?x => set (c1 := x) end.
  assert (unstarted_reader c c1) as U1 by (by split; try apply H).
  assert (session_inv (λ o, reader_refs (fr c1) o + others o) n (fb_dev c1)) as Hs1.
  { eapply session_inv_ledger; [apply H|done|]. intros o. subst c1. cbn [set_field fb_dev fr io]. rewrite (Hw o).
    unfold reader_refs. cbn [set_field fr_runLoop fr_slots]. rewrite Hl, ref_null. unfold ref. case_if; lia. }
  assert (fr_runLoop (fr c1) = current ∧ ses (fb_dev c1) = ses (fb_dev c) ∧ fr_slots (fr c1) = fr_slots (fr c) ∧
    fr_session (fr c1) = true ∧ fr_sink (fr c1) = true) as (El1 & Es1 & Esl1 & Ese1 & Esi1) by done. clearbody c1.
  wp_step. apply create_reads_wp; [apply U1|by rewrite Esl1|].
  intros r l w1 Hl1 Hr1 Hd1. set (c2 := with_reads c1 l w1).
  assert (unstarted_reader c c2) as U2.
  { destruct U1 as [(E1 & E2 & E3) (E4 & E5 & E6) E7 E8]. split; try done; [apply Hl1|]. intros i Hir.
    rewrite <- (E8 i Hir). by apply Hl1. }
  pose proof (with_reads_session others n c1 l w1 Hs1 Hl1) as Hs2. fold c2 in Hs2.
  assert (fr_runLoop (fr c2) = current ∧ ses (fb_dev c2) = ses (fb_dev c) ∧ fr_session (fr c2) = true ∧
    fr_sink (fr c2) = true) as (El2 & Es2 & Ese2 & Esi2) by done.
  assert (r = None → Forall has_buffers (fr_slots (fr c2))) as Hd2 by done. clearbody c2.
  destruct r as [r|].
  { eapply (abandon_start_wp others n n _ _ c); try done; [by rewrite Es2|by rewrite El2; lia|]. intros c' Hc' Hr'.
    apply Hfail; [left; apply (finv_later _ n); [done|lia]|done]. }
  do 2 wp_step. eapply wp_mono; [apply wp_and; [apply (acquire_auxiliary_inv (λ o, reader_refs (fr c2) o + others o) n);
    [exact Hs2|lia]|apply acquire_auxiliary_interface]|].
  cbv beta. intros r u [Hu Eu]. wp_step; cbv beta.
  { eapply (abandon_start_wp others n (n + 1) _ _ c); try done; cbn [set_field fb_dev fr ses].
    - destruct U2. by split.
    - by rewrite Eu, Es2.
    - rewrite El2. lia.
    - intros c' Hc' Hr'. apply Hfail; [by left|done]. }
  do 9 wp_step.
  match goal with |- wp _ _ ?x => set (c3 := x) end.
  assert (finv others (n + 1) c3) as H3.
  { apply (started_finv others n (n + 1) c (c2 <| fb_dev := u |>)); [done..| |by apply Hd2|done|done| |done].
    - destruct U2. by split.
    - cbn [set_field fb_dev]. by rewrite Eu, Es2. }
  assert (fb_pending c3 = []) as Hp3 by (subst c3; cbn [set_field fb_pending]; by rewrite (proj1 (ur_rest _ _ U2))).
  assert (fr_running (fr c3) = true) as Hr3 by done. clearbody c3.
  wp_step. eapply submit_reads_wp; [done..|]. intros r3 c4 H4 R4 L4. destruct r3 as [r3|].
  - unfold fr_count. do 3 wp_step. eapply (stop_reader_wp others (n + 1)).
    + by apply finv_errors.
    + lia.
    + intros r5 c5 H5 I5 R5 _. wp_step. apply Hfail; [right|done]. by replace (n + 2) with (n + 1 + 1) by (clear; lia).
  - wp_step. apply HQ; [apply (finv_later _ (n + 1)); [done|lia]|done|auto].
Qed.

(** ** All interleavings *)

(** An operation of the session that keeps it open. *)
Definition keeps_open (op : session_op) : Prop := match op with Open | Close => False | _ => True end.

Lemma system_any {A} (m : M world A) (Q : A → usb → Prop) u :
  (∀ a w, Q a (u <| io := w |>)) → wp (zoom io m) Q u.
Proof. intros HQ. unfold wp, zoom. destruct (m (io u)) as [a w]. apply HQ. Qed.

Lemma run_op_interface op u :
  keeps_open op → wp (run_op op) (λ _ u', auxiliaryInterface_ (ses u') = auxiliaryInterface_ (ses u)) u.
Proof.
  destruct op; try done; intros _; cbn [run_op].
  - unfold NS6DeviceSession_configureAudioInputMode. do 2 wp_step. wp_step; cbv beta; [by wp_step|].
    wp_step. apply system_any. intros r w. wp_step; cbv beta zeta; [by wp_step|].
    wp_step. apply wp_mono with (λ _ u', ses u' = ses u); [wp_step; cbv beta|].
    { wp_step. apply system_any. intros r2 w2. by wp_step. } { by wp_step. }
    intros again u1 E1. wp_step; cbv beta; [wp_step; congruence|].
    wp_step. apply wp_for_each with (I := λ _ u', ses u' = ses u); [done| |].
    { intros x xs u2 E2. wp_step. apply system_any. intros r2 w2. wp_step. destruct (status r2 =? kIOReturnSuccess); [exact E2|]. wp_step. cbn [set_field ses]. congruence. }
    intros u2 E2. wp_step. apply system_any. intros r2 w2. wp_step; cbv beta; [wp_step; cbn [set_field ses]; congruence|].
    wp_step. apply system_any. intros r3 w3. cbv zeta. wp_steps; cbn [set_field ses auxiliaryInterface_]; congruence.
  - unfold NS6DeviceSession_isCurrentDevice. do 3 wp_step. wp_step; cbv beta; [by wp_steps|].
    wp_step. apply system_any. intros r w. by wp_steps.
  - unfold NS6DeviceSession_acquireEvents. by wp_steps.
  - unfold NS6DeviceSession_releaseEvents. by wp_steps.
  - apply acquire_auxiliary_interface.
  - apply release_auxiliary_interface.
Qed.

(** What may happen: calls of the reader, completed reads, packets built, and other users of the
    session, which is neither opened nor closed while the reader uses it. *)
Inductive reader_step : feedback_ctx → feedback_ctx → Prop :=
  | reader_start c current rounds : reader_step c (AudioFeedbackReader_start current rounds c).2
  | reader_stop c rounds : reader_step c (AudioFeedbackReader_stop rounds c).2
  | reader_complete c k : reader_step c (feedback_deliver k c).2
  | reader_packet c : reader_step c (take_packet c).2
  | reader_session c op :
      (fr_initialized (fr c) = true → fr_session (fr c) = true → keeps_open op) →
      reader_step c (c <| fb_dev ::= λ u, (run_op op u).2 |>).

Inductive reader_run (c : feedback_ctx) : nat → feedback_ctx → Prop :=
  | reader_begin : reader_run c 0 c
  | reader_next k c1 c2 : reader_run c k c1 → reader_step c1 c2 → reader_run c (S k) c2.

Definition finv_run (others : obj → Z) (n : Z) (c : feedback_ctx) : Prop :=
  finv others n c ∧ (fr_running (fr c) = true → length (fb_pending c) = 2%nat).

Lemma take_packet_inv others n c : finv others n c → finv others n (take_packet c).2.
Proof.
  intros []. pose proof (run_rel [Packet] _ _ fi_policy0) as [_ Hp]. unfold take_packet. cbn [run policy_step] in Hp.
  destruct (AudioPacketPolicy_nextPacketFrames (fb_policy c)) as [m p]. cbn [snd] in *.
  split; cbn [set_field fr fb_pending fb_dev fb_policy fb_done]; try done.
  - rewrite schedule_after_snoc. exact Hp.
  - rewrite fi_packets0. unfold reports_done. rewrite map_app, total_append. cbn. by rewrite Z.add_0_r.
Qed.

Lemma reader_step_inv others n c c' :
  finv_run others n c → 0 <= n < UINT32_MAX - 1 → reader_step c c' → finv_run others (n + 2) c'.
Proof.
  intros Hc Hn Hst. revert Hc. destruct Hst as [c0 current rounds|c0 rounds|c0 k|c0|c0 op Hop]; intros [H Hr].
  - enough (wp (AudioFeedbackReader_start current rounds) (λ _, finv_run others (n + 2)) c0) as E
      by (unfold wp in E; by destruct (AudioFeedbackReader_start current rounds c0)).
    eapply start_reader_wp; [done..|]. intros r c1 H1 Hi Hf. split; [done|]. intros Hr1.
    destruct (fr_initialized (fr c0)); [rewrite Hi in * by done; auto|by apply Hf].
  - enough (wp (AudioFeedbackReader_stop rounds) (λ _, finv_run others (n + 2)) c0) as E
      by (unfold wp in E; by destruct (AudioFeedbackReader_stop rounds c0)).
    eapply stop_reader_wp; [done|lia|]. intros r c1 H1 _ Hr1 _. split; [apply (finv_later _ (n + 1)); [done|lia]|congruence].
  - enough (wp (feedback_deliver k) (λ _, finv_run others (n + 2)) c0) as E
      by (unfold wp in E; by destruct (feedback_deliver k c0)).
    eapply deliver_feedback_wp; [done|]. intros c1 H1 _ _ Hr1. split; [apply (finv_later _ n); [done|lia]|].
    intros E. destruct (Hr1 E) as [E0 ->]. auto.
  - split; [apply (finv_later _ n); [by apply take_packet_inv|lia]|]. unfold take_packet.
    by destruct (AudioPacketPolicy_nextPacketFrames (fb_policy c0)).
  - split; [|done]. apply (finv_later _ (n + 1)); [|lia].
    pose proof (run_op_inv _ n op (fb_dev c0) (fi_session _ _ _ H) ltac:(lia)) as Hs.
    pose proof (λ Ho, run_op_interface op (fb_dev c0) Ho) as Hf. unfold wp in Hs, Hf.
    destruct (run_op op (fb_dev c0)) as [r u] eqn:E. replace (c0 <| fb_dev ::= _ |>) with (c0 <| fb_dev := u |>).
    + apply (finv_dev _ n); [done..|]. intros Hi Hse. rewrite Hf by auto. by apply H.
    + change u with (r, u).2. by rewrite <- E.
Qed.

Lemma reader_run_inv others c k c' :
  finv_run others 0 c → reader_run c k c' → Z.of_nat k < 2 ^ 30 → finv_run others (2 * Z.of_nat k) c'.
Proof.
  intros H. induction 1 as [|k c1 c2 _ IH Hs]; intros Hk; [done|].
  replace (2 * Z.of_nat (S k)) with (2 * Z.of_nat k + 2) by lia.
  eapply reader_step_inv; [apply IH; lia|unfold UINT32_MAX; lia|done].
Qed.

Definition new_reader (u : usb) (p : AudioPacketPolicy) : feedback_ctx :=
  {| fr := AudioFeedbackReader_new; fb_dev := u; fb_policy := p; fb_pending := []; fb_done := [] |}.

Lemma new_reader_inv others u rate p :
  session_inv others 0 u → AudioPacketPolicy_new rate 8000 = Some p → finv_run others 0 (new_reader u p).
Proof.
  intros Hs Hp. split; [|done]. split; cbn [new_reader fr fb_pending fb_dev fb_policy fb_done]; try done.
  - intros i Hi. rewrite elem_of_nil. split; [|done]. assert (i = 0 ∨ i = 1) as [-> | ->] by lia; done.
  - by intros ? ?%elem_of_nil.
  - constructor.
  - by intros [?|?].
  - intros _. split; [done|]. split; [by apply Forall_replicate|done].
  - by eapply new_rel.
Qed.

Lemma no_reads_refs l o : Forall no_buffers l → reads_refs l o = 0.
Proof.
  unfold reads_refs. induction 1 as [|s l [Hd Hf] _ IH]; [done|].
  change (total (map _ (s :: l))) with (read_refs s o + total (map (λ s, read_refs s o) l)).
  rewrite IH. unfold read_refs. by rewrite Hd, Hf.
Qed.

(** C14: in whatever order starts, stops, completed reads, packets and other users of the session
    come, and whatever the system answers: the packets built from now on are those of the schedule of
    exactly the reports the device sent, in order; the slots in flight are the reads the system
    holds, with live buffers; the process holds exactly what the reader names; a running reader has both
    reads in flight; and a stop either times out or leaves nothing in flight and no buffer held. *)
Theorem feedback_reaches_schedule others u rate p k c :
  session_inv others 0 u → AudioPacketPolicy_new rate 8000 = Some p → reader_run (new_reader u p) k c →
  Z.of_nat k < 2 ^ 30 →
  (∀ es, (run policy_step es (fb_policy c)).1 = (run spec_event es (schedule_after (fb_done c))).1) ∧
  fr_packets (fr c) = u64 (reports_done (fb_done c)) ∧
  NoDup (fb_pending c) ∧
  (∀ i, 0 <= i < 2 → fs_inFlight (rd (fr_slots (fr c)) i) = true ↔ i ∈ fb_pending c) ∧
  (fb_pending c ≠ [] → Forall has_buffers (fr_slots (fr c))) ∧
  (∀ o, held (io (fb_dev c)) o = owned (ses (fb_dev c)) o + reader_refs (fr c) o + others o) ∧
  (fr_running (fr c) = true → length (fb_pending c) = 2%nat) ∧
  (∀ rounds, fr_initialized (fr c) = true → fr_session (fr c) = true →
     let '(r, c') := AudioFeedbackReader_stop rounds c in
     fr_running (fr c') = false ∧
     (r = kIOReturnTimeout ∧ fb_pending c' ≠ [] ∧ Forall has_buffers (fr_slots (fr c')) ∨
      fb_pending c' = [] ∧ ∀ o, reads_refs (fr_slots (fr c')) o = 0)).
Proof.
  intros Hs Hp Hrun Hk. destruct (reader_run_inv others _ k c (new_reader_inv _ _ _ _ Hs Hp) Hrun Hk) as [H Hr].
  split; [intros es; apply run_rel, H|]. split; [apply H|]. split; [apply H|]. split; [apply H|].
  split; [intros Hne; apply (fi_active _ _ _ H); by left|].
  split; [|split; [done|]].
  - intros o. rewrite (si_balanced _ _ _ (fi_session _ _ _ H) o). apply Z.add_assoc.
  - intros rounds Hi Hse.
    enough (wp (AudioFeedbackReader_stop rounds) (λ r c', fr_running (fr c') = false ∧
      (r = kIOReturnTimeout ∧ fb_pending c' ≠ [] ∧ Forall has_buffers (fr_slots (fr c')) ∨
       fb_pending c' = [] ∧ ∀ o, reads_refs (fr_slots (fr c')) o = 0)) c) as E
      by (unfold wp in E; by destruct (AudioFeedbackReader_stop rounds c)).
    eapply stop_reader_wp; [done|lia|]. intros r c1 H1 _ Hr1 Hd. split; [done|].
    destruct (Hd Hi Hse) as [[-> Hne]|(-> & Hn & _)]; [left|right].
    + split; [done|]. split; [done|]. apply (fi_active _ _ _ H1). by left.
    + split; [done|]. intros o. by apply no_reads_refs.
Qed.
End proofs.

(** ** A run: one read comes back with the reports 43, 45, a short packet and a failed one. *)

Definition demo_read : feedback_done := {|
  fd_slot := 0; fd_status := 0; fd_frames := [(0, 3); (0, 3); (0, 2); (1, 3)];
  fd_bytes := 43 :: replicate 63 0 ++ 45 :: replicate 191 0 |}.

Definition demo_reader (p : AudioPacketPolicy) : feedback_ctx :=
  let c := (new_reader ns6_usb p) <| fb_dev ::= λ u, (@run_op iokit_returns usb_constants Open u).2 |> in
  (@feedback_deliver iokit_returns demo_read (@AudioFeedbackReader_start iokit_returns 7 [] c).2).2.

Lemma demo_reader_run p : @reader_run iokit_returns usb_constants (new_reader ns6_usb p) 3 (demo_reader p).
Proof.
  eapply reader_next; [eapply reader_next; [eapply reader_next; [apply reader_begin|]|]|].
  - apply (reader_session _ Open). done.
  - apply (reader_start _ 7 []).
  - apply (reader_complete _ demo_read).
Qed.

Lemma demo_reader_done :
  match AudioPacketPolicy_new 44100 8000 with
  | Some p => fb_done (demo_reader p) = [Some demo_read] ∧ fr_running (fr (demo_reader p)) = true
  | None => False
  end.
Proof. vm_compute. split; reflexivity. Qed.

Lemma demo_schedule :
  (run spec_event (replicate 24 Packet) (@schedule_after iokit_returns [Some demo_read])).1 =
  pattern_of 43 ++ pattern_of 45 ++ take 8 (drop 16 (recent start_schedule)).
Proof. vm_compute. reflexivity. Qed.

Lemma feedback_reaches_schedule_witness :
  ∃ p, AudioPacketPolicy_new 44100 8000 = Some p ∧ length (fb_pending (demo_reader p)) = 2%nat ∧
    (run policy_step (replicate 24 Packet) (fb_policy (demo_reader p))).1 =
      pattern_of 43 ++ pattern_of 45 ++ take 8 (drop 16 (recent start_schedule)).
Proof.
  assert (session_inv (λ _, 0) 0 ns6_usb) as Hu by by apply closed_inv.
  generalize demo_reader_done. destruct (AudioPacketPolicy_new 44100 8000) as [p|] eqn:Ep; [|intros []].
  intros [Hd Hr]. exists p. split; [reflexivity|].
  destruct (@feedback_reaches_schedule iokit_returns iokit_returns_laws usb_constants (λ _, 0) ns6_usb 44100 p 3
    (demo_reader p) Hu Ep (demo_reader_run p) ltac:(lia)) as (Hp & _ & _ & _ & _ & _ & Hl & _).
  split; [exact (Hl Hr)|]. rewrite (Hp (replicate 24 Packet)), Hd. exact demo_schedule.
Defined.
