(* ===== verification/SequencedReads.v ===== *)
(** * Reads processed in the order they were submitted

    AudioInputReader and MIDIInputReader keep several reads of one bulk pipe in flight and number
    them; completions may be delivered in any order, and [drainCompletions] processes them in the
    order of their numbers.  The two classes share this text: it is modelled once, over the number of
    slots, the interface and pipe, what a completed read does to the client, and whether the
    reader goes on after it. *)

From stdpp Require Import base list numbers tactics.
From Stdlib Require Import ZArith Lia ZifyBool.
From S2P Require Import Prelude IoKit UsbSession.

(** What the system reports of a read: status, byte count, the bytes in the buffer and the time the
    read took. *)
Record result := {
  rs_status : Z;
  rs_bytes : Z;
  rs_data : list Z;
  rs_micros : Z
}.

#[export] Instance result_inhabited : Inhabited result :=
  populate {| rs_status := 0; rs_bytes := 0; rs_data := []; rs_micros := 0 |}.

Record read_slot := {
  rs_buffer : Z;
  rs_inFlight : bool;
  rs_completed : bool;
  rs_result : result;
  rs_sequence : Z
}.

#[export] Instance eta_read_slot : Eta read_slot := λ s,
  Build_read_slot (rs_buffer s) (rs_inFlight s) (rs_completed s) (rs_result s) (rs_sequence s).

Definition idle_slot : read_slot :=
  {| rs_buffer := 0; rs_inFlight := false; rs_completed := false; rs_result := inhabitant; rs_sequence := 0 |}.

#[export] Instance read_slot_inhabited : Inhabited read_slot := populate idle_slot.

(** The fields both readers have; [client] is the rest.  [attached] says that [session_] is set. *)
Record reader (X : Type) := {
  attached : bool;
  read_slots : list read_slot;
  rd_runLoop : Z;
  rd_running : bool;
  eventsAcquired : bool;
  nextSubmitSequence : Z;
  nextProcessSequence : Z;
  client : X
}.

Arguments Build_reader {X} _ _ _ _ _ _ _ _.
Arguments attached {X} _.
Arguments read_slots {X} _.
Arguments rd_runLoop {X} _.
Arguments rd_running {X} _.
Arguments eventsAcquired {X} _.
Arguments nextSubmitSequence {X} _.
Arguments nextProcessSequence {X} _.
Arguments client {X} _.

#[export] Instance eta_reader X : Eta (reader X) := λ r,
  Build_reader (attached r) (read_slots r) (rd_runLoop r) (rd_running r) (eventsAcquired r)
    (nextSubmitSequence r) (nextProcessSequence r) (client r).

Record read_ctx (X : Type) := { rdr : reader X; rdev : usb }.

Arguments Build_read_ctx {X} _ _.
Arguments rdr {X} _.
Arguments rdev {X} _.

#[export] Instance eta_read_ctx X : Eta (read_ctx X) := λ c, Build_read_ctx (rdr c) (rdev c).

Section reads.
Context `{IOReturns} {X : Type}.

(** The interface the pipe belongs to. *)
Context (pipe_interface : NS6DeviceSession → Z).
(** The client's bookkeeping when a read completes and when it is processed. *)
Context (on_complete feed : result → X → X).
(** Whether the reader runs on after a processed read. *)
Context (goes_on : result → M usb bool).
(** Bookkeeping of a failed resubmission. *)
Context (on_failure : Z → X → X).

Definition modify_reader (f : reader X → reader X) : M (read_ctx X) () :=
  modify (λ c, c <| rdr ::= f |>).

Definition modify_slot (i : Z) (f : read_slot → read_slot) : M (read_ctx X) () :=
  modify_reader (λ r, r <| read_slots ::= λ l, wr l i (f (rd l i)) |>).

Definition modify_client (f : X → X) : M (read_ctx X) () := modify_reader (λ r, r <| client ::= f |>).

Definition inFlightCount (r : reader X) : Z :=
  foldr (λ s n, (if rs_inFlight s then 1 else 0) + n) 0 (read_slots r).

(** ** Submitting a read *)

Definition submit (i : Z) : M (read_ctx X) Z :=
  c ← gets id;
  let slot := rd (read_slots (rdr c)) i in
  if negb (rd_running (rdr c)) || negb (attached (rdr c)) || rs_inFlight slot || rs_completed slot
  then mret kIOReturnNotReady
  else if pipe_interface (ses (rdev c)) =? 0 then mret kIOReturnNoDevice
  else
    modify_slot i (λ s, s <| rs_sequence := nextSubmitSequence (rdr c) |> <| rs_inFlight := true |>);;
    status ← zoom rdev (zoom io call_status);
    (if status =? kIOReturnSuccess
     then modify_reader (λ r, r <| nextSubmitSequence ::= λ n, n +₆₄ 1 |>)
     else modify_slot i (λ s, s <| rs_inFlight := false |>));;
    mret status.

(** ** Processing completions *)

(** The slot that holds the next read in order, if it has completed. *)
Fixpoint find_next (l : list read_slot) (i sequence : Z) : option Z :=
  match l with
  | [] => None
  | s :: l' =>
      if rs_completed s && (rs_sequence s =? sequence) then Some i else find_next l' (i + 1) sequence
  end.

(** The body of the loop for slot [i]. *)
Definition process (i : Z) : M (read_ctx X) () :=
  c ← gets id;
  let r := rs_result (rd (read_slots (rdr c)) i) in
  modify_client (feed r);;
  go ← zoom rdev (goes_on r);
  (if (go : bool) then mret () else modify_reader (λ r, r <| rd_running := false |>));;
  modify_slot i (λ s, s <| rs_completed := false |>);;
  modify_reader (λ r, r <| nextProcessSequence ::= λ n, n +₆₄ 1 |>);;
  c ← gets id;
  status ← (if rd_running (rdr c) then submit i else mret kIOReturnSuccess);
  if negb (status =? kIOReturnSuccess)
  then (modify_client (on_failure status);; modify_reader (λ r, r <| rd_running := false |>))
  else mret ().

(** [for (;;)]; each round processes a completed slot and leaves it not completed, so there are at
    most as many rounds as slots. *)
Fixpoint drain_loop (fuel : nat) : M (read_ctx X) () :=
  c ← gets id;
  match find_next (read_slots (rdr c)) 0 (nextProcessSequence (rdr c)) with
  | None => mret ()
  | Some i => match fuel with O => mret () | S fuel' => (process i;; drain_loop fuel') end
  end.

Definition drainCompletions : M (read_ctx X) () :=
  c ← gets id; drain_loop (length (read_slots (rdr c))).

Definition didComplete (i : Z) (r : result) : M (read_ctx X) () :=
  modify_client (on_complete r);;
  modify_slot i (λ s, s <| rs_inFlight := false |> <| rs_completed := true |> <| rs_result := r |>);;
  drainCompletions.

(** The system completes a read it accepted, once. *)
Definition deliver_read (k : Z * result) : M (read_ctx X) () :=
  c ← gets id;
  if (0 <=? k.1) && (k.1 <? Z.of_nat (length (read_slots (rdr c)))) &&
     rs_inFlight (rd (read_slots (rdr c)) k.1)
  then didComplete k.1 k.2 else mret ().

Fixpoint deliver_reads (ks : list (Z * result)) : M (read_ctx X) () :=
  match ks with
  | [] => mret ()
  | k :: ks' => (deliver_read k;; deliver_reads ks')
  end.

(** The wait for the reads that were aborted: a round is what one run of the run loop delivers. *)
Fixpoint drain_reads (rounds : list (list (Z * result))) : M (read_ctx X) () :=
  c ← gets id;
  if inFlightCount (rdr c) =? 0 then mret ()
  else match rounds with
       | [] => mret ()
       | ks :: rounds' => (deliver_reads ks;; drain_reads rounds')
       end.

(** Submitting all slots in order; the first failure ends it. *)
Definition submit_slots : M (read_ctx X) (option Z) :=
  c ← gets id;
  for_each (seqZ 0 (Z.of_nat (length (read_slots (rdr c))))) (λ i,
    status ← submit i; mret (if status =? kIOReturnSuccess then None else Some status)).

End reads.
