(* ===== verification/SequencedTheory.v ===== *)
(** * Completed reads are processed in order, each once

    Whatever order the system completes the reads in, what the client has seen is the reads
    in the order they were submitted, without gaps. *)

From stdpp Require Import base list numbers tactics.
From Stdlib Require Import ZArith Lia ZifyBool.
From S2P Require Import Prelude IoKit UsbSession UsbSessionTheory SequencedReads.

(** ** Slots *)

Definition busy (s : read_slot) : Prop := rs_inFlight s || rs_completed s = true.
Definition done_slot (s : read_slot) : Prop := rs_completed s = true.

#[export] Instance busy_dec s : Decision (busy s) := decide (_ = true).
#[export] Instance done_slot_dec s : Decision (done_slot s) := decide (_ = true).

Definition busy_numbers (l : list read_slot) : list Z := rs_sequence <$> filter busy l.
Definition done_results (l : list read_slot) : list (Z * result) :=
  (λ s, (rs_sequence s, rs_result s)) <$> filter done_slot l.

(** A slot in the list. *)
Lemma split_slot (l : list read_slot) i :
  0 <= i < Z.of_nat (length l) →
  ∃ l1 l2, l = l1 ++ rd l i :: l2 ∧ ∀ s, wr l i s = l1 ++ s :: l2.
Proof.
  intros Hi. exists (take (Z.to_nat i) l), (drop (S (Z.to_nat i)) l).
  assert (l !! Z.to_nat i = Some (rd l i)) as E by (apply list_lookup_lookup_total_lt; lia).
  split; [by symmetry; apply take_drop_middle|]. intros s. unfold wr.
  apply insert_take_drop. lia.
Qed.

Lemma busy_numbers_app l1 l2 : busy_numbers (l1 ++ l2) = busy_numbers l1 ++ busy_numbers l2.
Proof. unfold busy_numbers. by rewrite list.filter_app, fmap_app. Qed.
Lemma done_results_app l1 l2 : done_results (l1 ++ l2) = done_results l1 ++ done_results l2.
Proof. unfold done_results. by rewrite list.filter_app, fmap_app. Qed.

Lemma busy_numbers_cons s l :
  busy_numbers (s :: l) = (if rs_inFlight s || rs_completed s then [rs_sequence s] else []) ++ busy_numbers l.
Proof.
  unfold busy_numbers. rewrite filter_cons.
  destruct (decide (busy s)) as [E|E]; [|apply not_true_is_false in E]; unfold busy in E; by rewrite E.
Qed.
Lemma done_results_cons s l :
  done_results (s :: l) = (if rs_completed s then [(rs_sequence s, rs_result s)] else []) ++ done_results l.
Proof.
  unfold done_results. rewrite filter_cons.
  destruct (decide (done_slot s)) as [E|E]; [|apply not_true_is_false in E]; unfold done_slot in E; by rewrite E.
Qed.

(** Replacing a slot. *)
Lemma busy_numbers_wr l i s :
  0 <= i < Z.of_nat (length l) →
  busy_numbers (wr l i s) ++ busy_numbers [rd l i] ≡ₚ busy_numbers l ++ busy_numbers [s].
Proof.
  intros Hi. destruct (split_slot l i Hi) as (l1 & l2 & E & Hw). rewrite Hw. rewrite E at 2.
  rewrite !busy_numbers_app, (busy_numbers_cons s l2), (busy_numbers_cons (rd l i) l2), !busy_numbers_cons.
  cbn [busy_numbers filter list_filter fmap list_fmap]. rewrite !app_nil_r.
  destruct (rs_inFlight s || rs_completed s), (rs_inFlight (rd l i) || rs_completed (rd l i)); solve_Permutation.
Qed.

Lemma done_results_wr l i s :
  0 <= i < Z.of_nat (length l) →
  done_results (wr l i s) ++ done_results [rd l i] ≡ₚ done_results l ++ done_results [s].
Proof.
  intros Hi. destruct (split_slot l i Hi) as (l1 & l2 & E & Hw). rewrite Hw. rewrite E at 2.
  rewrite !done_results_app, (done_results_cons s l2), (done_results_cons (rd l i) l2), !done_results_cons.
  cbn [done_results filter list_filter fmap list_fmap]. rewrite !app_nil_r.
  destruct (rs_completed s), (rs_completed (rd l i)); solve_Permutation.
Qed.

Lemma find_next_some l i n j :
  find_next l i n = Some j →
  ∃ k, j = i + Z.of_nat k ∧ (k < length l)%nat ∧ rs_completed (l !!! k) = true ∧ rs_sequence (l !!! k) = n.
Proof.
  revert i. induction l as [|s l IH]; intros i E; cbn [find_next] in E; [done|].
  destruct (rs_completed s && (rs_sequence s =? n)) eqn:Es.
  - simplify_eq. exists 0%nat. cbn. apply andb_true_iff in Es as [E1 E2]. split; [lia|]. split; [lia|]. split; [done|lia].
  - destruct (IH _ E) as (k & -> & Hk & H1 & H2). exists (S k). cbn. split; [lia|]. split; [lia|]. by split.
Qed.

Lemma find_next_none l i n :
  find_next l i n = None → Forall (λ s, rs_completed s = true → rs_sequence s ≠ n) l.
Proof.
  revert i. induction l as [|s l IH]; intros i E; cbn [find_next] in E; [constructor|].
  destruct (rs_completed s && (rs_sequence s =? n)) eqn:Es; [done|]. constructor; [|by eapply IH].
  intros E1. rewrite E1 in Es. lia.
Qed.

(** ** The invariant *)

Section proofs.
Context {codes : IOReturns} {laws : IOReturnsLaws} {X V : Type}.
Context (pipe_interface : NS6DeviceSession → Z).
Context (on_complete feed : result → X → X) (goes_on : result → M usb bool) (on_failure : Z → X → X).

(** What the client has seen, and what a processed read adds to it. *)
Context (view : X → V) (feed_view : result → V → V).
Hypothesis view_complete : ∀ r x, view (on_complete r x) = view x.
Hypothesis view_failure : ∀ s x, view (on_failure s x) = view x.
Hypothesis view_feed : ∀ r x, view (feed r x) = feed_view r (view x).

(** [log] is what the system has completed since the start: number and result of each read. *)
Record seq_inv (n : nat) (v0 : V) (log : list (Z * result)) (r : reader X) : Prop := {
  q_length : length (read_slots r) = n;
  q_order : 0 <= nextProcessSequence r <= nextSubmitSequence r;
  q_busy : busy_numbers (read_slots r) ≡ₚ
             seqZ (nextProcessSequence r) (nextSubmitSequence r - nextProcessSequence r);
  q_one : Forall (λ s, rs_inFlight s = true → rs_completed s = false) (read_slots r);
  q_log : ∃ processed, log ≡ₚ processed ++ done_results (read_slots r) ∧
            processed.*1 = seqZ 0 (nextProcessSequence r) ∧
            view (client r) = foldl (λ v k, feed_view k v) v0 processed.*2
}.

Lemma length_filter_le {A} (P : A → Prop) `{∀ x, Decision (P x)} (l : list A) : (length (filter P l) <= length l)%nat.
Proof. induction l as [|x l IH]; [done|]. rewrite filter_cons. case_decide; cbn; lia. Qed.

Lemma submit_bound n v0 log r :
  seq_inv n v0 log r → nextSubmitSequence r <= nextProcessSequence r + Z.of_nat n ∧
  nextProcessSequence r <= Z.of_nat (length log).
Proof.
  intros [H1 H2 H3 _ (processed & H5 & H6 & _)]. apply Permutation_length in H3, H5. split.
  - unfold busy_numbers in H3. rewrite length_fmap, length_seqZ in H3.
    pose proof (length_filter_le busy (read_slots r)). lia.
  - apply (f_equal length) in H6. rewrite length_fmap, length_seqZ in H6. rewrite length_app in H5. lia.
Qed.

Lemma slot_one n v0 log r i :
  seq_inv n v0 log r → 0 <= i < Z.of_nat n →
  rs_inFlight (rd (read_slots r) i) = true → rs_completed (rd (read_slots r) i) = false.
Proof.
  intros H Hi. apply (proj1 (Forall_lookup _ _) (q_one _ _ _ _ H) (Z.to_nat i)).
  apply list_lookup_lookup_total_lt. rewrite (q_length _ _ _ _ H). lia.
Qed.

(** An idle slot takes the next number. *)
Lemma submitted_inv n v0 log r i s :
  seq_inv n v0 log r → 0 <= i < Z.of_nat n → Z.of_nat n + Z.of_nat (length log) < UINT64_MAX →
  rs_inFlight (rd (read_slots r) i) = false → rs_completed (rd (read_slots r) i) = false →
  rs_inFlight s = true → rs_completed s = false → rs_sequence s = nextSubmitSequence r →
  seq_inv n v0 log (r <| read_slots ::= λ l, wr l i s |> <| nextSubmitSequence ::= λ k, k +₆₄ 1 |>).
Proof.
  intros H Hi Hn E1 E2 E3 E4 E5. destruct (submit_bound _ _ _ _ H) as [Hb1 Hb2].
  destruct H as [H1 H2 H3 H4 (processed & H5 & H6 & H7)].
  assert (nextSubmitSequence r +₆₄ 1 = nextSubmitSequence r + 1) as Eu by (apply u64_id; unfold is_u64, UINT64_MAX in *; lia).
  pose proof (busy_numbers_wr (read_slots r) i s ltac:(lia)) as Hw.
  pose proof (done_results_wr (read_slots r) i s ltac:(lia)) as Hd.
  rewrite !busy_numbers_cons in Hw. rewrite !done_results_cons in Hd.
  cbn [busy_numbers done_results filter list_filter fmap list_fmap] in Hw, Hd.
  rewrite E1, E2, E3, E5, !app_nil_r in Hw. rewrite E2, E4, !app_nil_r in Hd.
  cbn [orb app] in Hw, Hd.
  split; cbn [set_field read_slots nextProcessSequence nextSubmitSequence client]; rewrite ?Eu.
  - unfold wr. by rewrite length_insert.
  - lia.
  - rewrite Hw, H3.
    replace (nextSubmitSequence r + 1 - nextProcessSequence r)
      with (Z.of_nat (S (Z.to_nat (nextSubmitSequence r - nextProcessSequence r)))) by lia.
    rewrite seqZ_S, Z2Nat.id by lia. by replace (nextProcessSequence r + _) with (nextSubmitSequence r) by lia.
  - apply Forall_wr; [done|]. by rewrite E4.
  - exists processed. split; [|done]. by rewrite Hd.
Qed.

(** Writing back a slot that was and stays idle. *)
Lemma idle_inv n v0 log r r' i s :
  seq_inv n v0 log r → 0 <= i < Z.of_nat n →
  rs_inFlight (rd (read_slots r) i) = false → rs_completed (rd (read_slots r) i) = false →
  rs_inFlight s = false → rs_completed s = false → read_slots r' = wr (read_slots r) i s →
  nextProcessSequence r' = nextProcessSequence r → nextSubmitSequence r' = nextSubmitSequence r →
  client r' = client r → seq_inv n v0 log r'.
Proof.
  intros [H1 H2 H3 H4 (processed & H5 & H6 & H7)] Hi E1 E2 E3 E4 F1 F2 F3 F4.
  pose proof (busy_numbers_wr (read_slots r) i s ltac:(lia)) as Hw.
  pose proof (done_results_wr (read_slots r) i s ltac:(lia)) as Hd.
  rewrite !busy_numbers_cons in Hw. rewrite !done_results_cons in Hd.
  cbn [busy_numbers done_results filter list_filter fmap list_fmap] in Hw, Hd.
  rewrite E1, E2, E3, E4, !app_nil_r in Hw. rewrite E2, E4, !app_nil_r in Hd.
  split; rewrite ?F1, ?F2, ?F3, ?F4; try done.
  - unfold wr. by rewrite length_insert.
  - by rewrite Hw.
  - apply Forall_wr; [done|]. congruence.
  - exists processed. split; [|done]. by rewrite Hd.
Qed.

(** Contexts of the same run. *)
Record same_run (c c' : read_ctx X) : Prop := {
  sr_attached : attached (rdr c') = attached (rdr c);
  sr_running : rd_running (rdr c') = true → rd_running (rdr c) = true
}.

Lemma same_run_trans c1 c2 c3 : same_run c1 c2 → same_run c2 c3 → same_run c1 c3.
Proof. intros [] []. split; [congruence|auto]. Qed.

(** Reads submitted and not processed. *)
Definition gap (r : reader X) : Z := nextSubmitSequence r - nextProcessSequence r.

Lemma submit_wp n v0 log i (Q : Z → read_ctx X → Prop) c :
  seq_inv n v0 log (rdr c) → 0 <= i < Z.of_nat n → Z.of_nat n + Z.of_nat (length log) < UINT64_MAX →
  (∀ s c', seq_inv n v0 log (rdr c') → same_run c c' → nextProcessSequence (rdr c') = nextProcessSequence (rdr c) →
     done_results (read_slots (rdr c')) ≡ₚ done_results (read_slots (rdr c)) →
     (s = kIOReturnSuccess → gap (rdr c') = gap (rdr c) + 1) → Q s c') →
  wp (submit pipe_interface i) Q c.
Proof.
  intros H Hi Hn HQ. unfold submit, modify_slot, modify_reader. do 2 wp_step. unfold id.
  destruct (rd_running (rdr c)) eqn:Er, (attached (rdr c)) eqn:Ea; cbn [negb orb];
    try (wp_step; apply HQ; [done|done|done|done|by intros ?%not_ready_fails]).
  wp_step; cbv beta; [wp_step; apply HQ; [done|done|done|done|by intros ?%not_ready_fails]|].
  apply orb_false_iff in Heqb as [E1 E2].
  wp_step; cbv beta; [wp_step; apply HQ; [done|done|done|done|by intros ?%no_device_fails]|]. do 4 wp_step. apply wp_zoom, call_status_wp. intros s w _ _.
  cbn [set_field rdev rdr].
  assert (∀ s', rs_completed s' = false →
    done_results (wr (read_slots (rdr c)) i s') ≡ₚ done_results (read_slots (rdr c))) as Hd.
  { intros s' E. pose proof (done_results_wr (read_slots (rdr c)) i s' ltac:(rewrite (q_length _ _ _ _ H); lia)) as Hd.
    rewrite !done_results_cons in Hd. cbn [done_results filter list_filter fmap list_fmap] in Hd.
    by rewrite E, E2, !app_nil_r in Hd. }
  wp_step. wp_step; cbv beta; do 2 wp_step.
  - destruct (submit_bound _ _ _ _ H) as [Hb1 Hb2]. pose proof (q_order _ _ _ _ H) as Ho.
    apply HQ; [|by split|done|by apply Hd|].
    + apply (submitted_inv n v0 log (rdr c) i); try done.
    + intros _. unfold gap. cbn [set_field rdr nextSubmitSequence nextProcessSequence].
      rewrite (u64_id (_ + 1)) by (unfold is_u64, UINT64_MAX in *; lia). lia.
  - assert (∀ a (f : read_slot → read_slot), wr (wr (read_slots (rdr c)) i a) i
      (f (rd (wr (read_slots (rdr c)) i a) i)) = wr (read_slots (rdr c)) i (f a)) as Ew.
    { intros a f. rewrite rd_wr_eq, wr_wr by (rewrite (q_length _ _ _ _ H); lia). done. }
    apply HQ; [|by split|done| |].
    + eapply (idle_inv n v0 log (rdr c) _ i); [exact H|exact Hi|exact E1|exact E2| | |apply Ew|done..]; done.
    + cbn [set_field rdr read_slots]. rewrite Ew. by apply Hd.
    + intros ->. by rewrite Z.eqb_refl in *.
Qed.

(** Processing the next read in order. *)
Lemma processed_inv n v0 log r r' i s :
  seq_inv n v0 log r → 0 <= i < Z.of_nat n → Z.of_nat n + Z.of_nat (length log) < UINT64_MAX →
  rs_completed (rd (read_slots r) i) = true → rs_sequence (rd (read_slots r) i) = nextProcessSequence r →
  rs_inFlight s = false → rs_completed s = false → read_slots r' = wr (read_slots r) i s →
  nextProcessSequence r' = nextProcessSequence r +₆₄ 1 → nextSubmitSequence r' = nextSubmitSequence r →
  client r' = feed (rs_result (rd (read_slots r) i)) (client r) →
  seq_inv n v0 log r' ∧ S (length (done_results (read_slots r'))) = length (done_results (read_slots r)).
Proof.
  intros H Hi Hn E1 E2 E3 E4 F1 F2 F3 F4. destruct (submit_bound _ _ _ _ H) as [Hb1 Hb2].
  destruct H as [H1 H2 H3 H4 (processed & H5 & H6 & H7)].
  rewrite u64_id in F2 by (unfold is_u64, UINT64_MAX in *; lia).
  set (k := rd (read_slots r) i) in *.
  pose proof (busy_numbers_wr (read_slots r) i s ltac:(lia)) as Hw.
  pose proof (done_results_wr (read_slots r) i s ltac:(lia)) as Hd. fold k in Hw, Hd.
  rewrite !busy_numbers_cons in Hw. rewrite !done_results_cons in Hd.
  cbn [busy_numbers done_results filter list_filter fmap list_fmap] in Hw, Hd.
  rewrite E1, E2, E3, E4, orb_true_r, !app_nil_r in Hw. rewrite E1, E2, E4, !app_nil_r in Hd. cbn [orb app] in Hw, Hd.
  rewrite <- F1 in Hw, Hd.
  assert (nextProcessSequence r < nextSubmitSequence r) as Hlt.
  { rewrite H3 in Hw. apply Permutation_length in Hw. rewrite length_app, length_seqZ in Hw. cbn in Hw. lia. }
  split; [|apply Permutation_length in Hd; rewrite length_app in Hd; cbn in Hd; lia].
  split; rewrite ?F2, ?F3, ?F4.
  - rewrite F1. unfold wr. by rewrite length_insert.
  - lia.
  - rewrite H3 in Hw. rewrite (seqZ_cons (nextProcessSequence r)) in Hw by lia.
    rewrite <- Permutation_cons_append in Hw. apply Permutation_cons_inv in Hw. rewrite Hw.
    by replace (Z.pred (nextSubmitSequence r - nextProcessSequence r))
      with (nextSubmitSequence r - (nextProcessSequence r + 1)) by lia.
  - rewrite F1. apply Forall_wr; [done|]. congruence.
  - exists (processed ++ [(nextProcessSequence r, rs_result k)]). split; [|split].
    + rewrite H5, <- Hd. solve_Permutation.
    + rewrite fmap_app, H6. cbn [fmap list_fmap fst].
      replace (nextProcessSequence r + 1) with (Z.of_nat (S (Z.to_nat (nextProcessSequence r)))) by lia.
      rewrite seqZ_S, Z2Nat.id by lia. by rewrite Z.add_0_l.
    + rewrite fmap_app, foldl_app. cbn [fmap list_fmap snd foldl]. by rewrite view_feed, H7.
Qed.

Lemma client_inv n v0 log r r' :
  seq_inv n v0 log r → read_slots r' = read_slots r → nextProcessSequence r' = nextProcessSequence r →
  nextSubmitSequence r' = nextSubmitSequence r → view (client r') = view (client r) → seq_inv n v0 log r'.
Proof. intros [] F1 F2 F3 F4. split; by rewrite ?F1, ?F2, ?F3, ?F4. Qed.

Lemma process_wp n v0 log i (Q : () → read_ctx X → Prop) c :
  seq_inv n v0 log (rdr c) → 0 <= i < Z.of_nat n → Z.of_nat n + Z.of_nat (length log) < UINT64_MAX →
  rs_completed (rd (read_slots (rdr c)) i) = true →
  rs_sequence (rd (read_slots (rdr c)) i) = nextProcessSequence (rdr c) →
  (∀ c', seq_inv n v0 log (rdr c') → same_run c c' →
     S (length (done_results (read_slots (rdr c')))) = length (done_results (read_slots (rdr c))) →
     (rd_running (rdr c') = true → gap (rdr c') = gap (rdr c)) → Q () c') →
  wp (process pipe_interface feed goes_on on_failure i) Q c.
Proof.
  intros H Hi Hn E1 E2 HQ. unfold process, modify_client, modify_slot, modify_reader. do 4 wp_step. unfold id.
  set (k := rd (read_slots (rdr c)) i) in *.
  assert (rs_inFlight k = false) as E3.
  { destruct (rs_inFlight k) eqn:E; [|done]. pose proof (slot_one _ _ _ _ _ H Hi E) as E'. fold k in E'. congruence. }
  do 2 wp_step. match goal with |- wp _ ?R _ => apply (wp_mono _ (λ _ _, True)) with (Q' := R) end; [unfold wp; by destruct (goes_on _ _)|].
  intros go u _. wp_step.
  apply wp_mono with (λ _ c1, same_run c c1 ∧ read_slots (rdr c1) = read_slots (rdr c) ∧
    nextProcessSequence (rdr c1) = nextProcessSequence (rdr c) ∧
    nextSubmitSequence (rdr c1) = nextSubmitSequence (rdr c) ∧ client (rdr c1) = feed (rs_result k) (client (rdr c))).
  { destruct go; wp_step; cbn [set_field rdr]; (split; [by split|done]). }
  intros _ c1 (S1 & L1 & P1 & N1 & C1). do 6 wp_step. unfold id.
  match goal with |- wp _ _ ?x => set (c2 := x) end.
  assert (seq_inv n v0 log (rdr c2) ∧ S (length (done_results (read_slots (rdr c2)))) = length (done_results (read_slots (rdr c))))
    as [H2 D2].
  { apply (processed_inv n v0 log (rdr c) _ i (k <| rs_completed := false |>)); try done;
      subst c2; cbn [set_field rdr read_slots nextProcessSequence nextSubmitSequence client];
      [by rewrite L1|by rewrite P1]. }
  assert (gap (rdr c2) = gap (rdr c) - 1) as G2.
  { destruct (submit_bound _ _ _ _ H) as [Hb1 Hb2]. pose proof (q_order _ _ _ _ H) as Ho.
    subst c2. unfold gap. cbn [set_field rdr nextSubmitSequence nextProcessSequence]. rewrite P1, N1.
    rewrite (u64_id (_ + 1)) by (unfold is_u64, UINT64_MAX in *; lia). lia. }
  assert (same_run c c2) as S2 by by destruct S1. clearbody c2. wp_step.
  apply wp_mono with (λ s c3, seq_inv n v0 log (rdr c3) ∧ same_run c c3 ∧
    S (length (done_results (read_slots (rdr c3)))) = length (done_results (read_slots (rdr c))) ∧
    (s = kIOReturnSuccess → rd_running (rdr c3) = true → gap (rdr c3) = gap (rdr c))).
  { wp_step; cbv beta; [|wp_step; split; [done|]; split; [done|]; split; [done|]; congruence].
    eapply submit_wp; [done..|]. intros s c3 H3 S3 _ D3 G3. split; [done|].
    split; [by eapply same_run_trans|]. apply Permutation_length in D3. split; [lia|]. intros -> _. rewrite G3 by done. lia. }
  intros s c3 (H3 & S3 & D3 & G3). wp_step; cbv beta; [|wp_step; apply HQ; [done..|apply G3; lia]]. do 3 wp_step. apply HQ.
  - eapply client_inv; [exact H3|done..|]. cbn [set_field rdr client]. apply view_failure.
  - destruct S3 as [A B]. by split.
  - done.
  - done.
Qed.

Lemma drain_loop_wp n v0 log fuel (Q : () → read_ctx X → Prop) c :
  seq_inv n v0 log (rdr c) → Z.of_nat n + Z.of_nat (length log) < UINT64_MAX →
  (length (done_results (read_slots (rdr c))) <= fuel)%nat →
  (∀ c', seq_inv n v0 log (rdr c') → same_run c c' →
     Forall (λ s, rs_completed s = true → rs_sequence s ≠ nextProcessSequence (rdr c')) (read_slots (rdr c')) →
     (rd_running (rdr c') = true → gap (rdr c') = gap (rdr c)) → Q () c') →
  wp (drain_loop pipe_interface feed goes_on on_failure fuel) Q c.
Proof.
  revert c. induction fuel as [|fuel IH]; intros c H Hn Hf HQ; cbn [drain_loop]; do 2 wp_step; unfold id;
    destruct (find_next _ 0 _) as [i|] eqn:Ef.
  2,4: wp_step; apply HQ; [done|by split|by eapply find_next_none|done].
  all: apply find_next_some in Ef as (k & -> & Hk & E1 & E2).
  all: assert (rd (read_slots (rdr c)) (0 + Z.of_nat k) = read_slots (rdr c) !!! k) as Ek
    by (unfold rd; by rewrite Z.add_0_l, Nat2Z.id).
  all: assert (0 <= 0 + Z.of_nat k < Z.of_nat n) as Hi by (rewrite <- (q_length _ _ _ _ H); lia).
  - exfalso. destruct (split_slot (read_slots (rdr c)) (0 + Z.of_nat k)) as (l1 & l2 & El & _); [lia|].
    rewrite Ek in El. rewrite El, done_results_app, done_results_cons, E1, !length_app in Hf. cbn in Hf. lia.
  - wp_step. eapply process_wp; [done..|by rewrite Ek|by rewrite Ek|]. intros c1 H1 S1 D1 G1. apply IH; [done..|lia|].
    intros c2 H2 S2 Hd G2. apply HQ; [done|by eapply same_run_trans|done|].
    intros E. rewrite (G2 E). by apply G1, (sr_running _ _ S2).
Qed.

Lemma done_results_length l : (length (done_results l) <= length l)%nat.
Proof. unfold done_results. rewrite length_fmap. apply length_filter_le. Qed.

(** The next read in order is not waiting. *)
Definition drained (r : reader X) : Prop :=
  Forall (λ s, rs_completed s = true → rs_sequence s ≠ nextProcessSequence r) (read_slots r).

(** A completion adds its read to the log, whichever it is. *)
Lemma deliver_read_wp n v0 log i k (Q : () → read_ctx X → Prop) c :
  seq_inv n v0 log (rdr c) → drained (rdr c) → Z.of_nat n + Z.of_nat (length log) + 1 < UINT64_MAX →
  (∀ c', (if (0 <=? i) && (i <? Z.of_nat n) && rs_inFlight (rd (read_slots (rdr c)) i)
          then seq_inv n v0 (log ++ [(rs_sequence (rd (read_slots (rdr c)) i), k)]) (rdr c')
          else c' = c) → drained (rdr c') → same_run c c' →
     (rd_running (rdr c') = true → gap (rdr c') = gap (rdr c)) → Q () c') →
  wp (deliver_read pipe_interface on_complete feed goes_on on_failure (i, k)) Q c.
Proof.
  intros H Hdr Hn HQ. unfold deliver_read. do 2 wp_step. unfold id. cbn [fst snd]. rewrite (q_length _ _ _ _ H).
  wp_step; cbv beta; [|wp_step; apply HQ; [done..|by split|done]].
  assert (0 <= i < Z.of_nat n ∧ rs_inFlight (rd (read_slots (rdr c)) i) = true) as [Hi E1]
    by (destruct (rs_inFlight _); [split; [lia|done]|lia]).
  pose proof (slot_one _ _ _ _ _ H Hi E1) as E2. set (s := rd (read_slots (rdr c)) i) in *.
  unfold didComplete, modify_client, modify_slot, modify_reader, drainCompletions. do 6 wp_step. unfold id.
  match goal with |- wp _ _ ?x => set (c1 := x) end.
  assert (seq_inv n v0 (log ++ [(rs_sequence s, k)]) (rdr c1)) as H1.
  { destruct H as [H1 H2 H3 H4 (processed & H5 & H6 & H7)].
    set (s' := s <| rs_inFlight := false |> <| rs_completed := true |> <| rs_result := k |>).
    pose proof (busy_numbers_wr (read_slots (rdr c)) i s' ltac:(lia)) as Hw.
    pose proof (done_results_wr (read_slots (rdr c)) i s' ltac:(lia)) as Hd. fold s in Hw, Hd.
    rewrite !busy_numbers_cons in Hw. rewrite !done_results_cons in Hd.
    cbn [busy_numbers done_results filter list_filter fmap list_fmap s' set_field rs_inFlight rs_completed rs_sequence
      rs_result] in Hw, Hd.
    rewrite E1, !app_nil_r in Hw. rewrite E2, !app_nil_r in Hd. cbn [orb app] in Hw, Hd.
    apply Permutation_app_inv_r in Hw.
    split; cbn [c1 set_field rdr read_slots nextProcessSequence nextSubmitSequence client]; fold s s'; try done.
    - unfold wr. by rewrite length_insert.
    - by rewrite Hw.
    - apply Forall_wr; [done|]. done.
    - exists processed. split; [|by rewrite view_complete]. rewrite Hd, H5. by rewrite app_assoc. }
  assert (same_run c c1) as S1 by done. assert (gap (rdr c1) = gap (rdr c)) as G1 by done.
  assert (length (read_slots (rdr c1)) = n) as L1 by apply H1. clearbody c1.
  eapply (drain_loop_wp n v0 (log ++ [(rs_sequence s, k)])); [done|rewrite length_app; cbn; lia| |].
  - rewrite L1, <- L1. apply done_results_length.
  - intros c2 H2 S2 D2 G2. apply HQ; [done|done|by eapply same_run_trans|]. intros E. by rewrite G2.
Qed.

(** ** Runs *)

(** A completion of a slot, or something that happens to the session. *)
Inductive read_event := Completion (i : Z) (r : result) | Elsewhere (f : usb → usb).

(** The log of the completions that were accepted, and the context. *)
Fixpoint run_events (evs : list read_event) (c : read_ctx X) : list (Z * result) * read_ctx X :=
  match evs with
  | [] => ([], c)
  | Elsewhere f :: evs' => run_events evs' (c <| rdev ::= f |>)
  | Completion i k :: evs' =>
      let slot := rd (read_slots (rdr c)) i in
      let entry := if (0 <=? i) && (i <? Z.of_nat (length (read_slots (rdr c)))) && rs_inFlight slot
                   then [(rs_sequence slot, k)] else [] in
      let '(log, c') := run_events evs' (deliver_read pipe_interface on_complete feed goes_on on_failure (i, k) c).2 in
      (entry ++ log, c')
  end.

Lemma run_events_inv evs n v0 log c :
  seq_inv n v0 log (rdr c) → drained (rdr c) →
  Z.of_nat n + Z.of_nat (length log) + Z.of_nat (length evs) < UINT64_MAX →
  let '(l, c') := run_events evs c in
  seq_inv n v0 (log ++ l) (rdr c') ∧ drained (rdr c') ∧ same_run c c' ∧
  (rd_running (rdr c') = true → gap (rdr c') = gap (rdr c)).
Proof.
  revert log c. induction evs as [|[i k|f] evs IH]; intros log c H Hd Hn; cbn [run_events length] in *.
  - rewrite app_nil_r. split; [done|]. split; [done|]. split; [by split|done].
  - rewrite (q_length _ _ _ _ H).
    pose proof (deliver_read_wp n v0 log i k (λ _ c',
      (if (0 <=? i) && (i <? Z.of_nat n) && rs_inFlight (rd (read_slots (rdr c)) i)
       then seq_inv n v0 (log ++ [(rs_sequence (rd (read_slots (rdr c)) i), k)]) (rdr c') else c' = c) ∧
      drained (rdr c') ∧ same_run c c' ∧ (rd_running (rdr c') = true → gap (rdr c') = gap (rdr c))) c H Hd
      ltac:(lia) ltac:(done)) as H1. unfold wp in H1.
    destruct (deliver_read _ _ _ _ _ (i, k) c) as [[] c1]. destruct H1 as (H1 & D1 & S1 & G1). cbn [snd].
    set (entry := if _ : bool then [_] else []).
    assert (seq_inv n v0 (log ++ entry) (rdr c1) ∧ (length entry <= 1)%nat) as [H2 Hl].
    { subst entry. revert H1. destruct (_ && _ && _); intros H1; [split; [done|cbn; lia]|]. subst c1. rewrite app_nil_r.
      split; [done|cbn; lia]. }
    specialize (IH (log ++ entry) c1 H2 D1). rewrite length_app in IH. specialize (IH ltac:(lia)).
    destruct (run_events evs c1) as [l c']. rewrite app_assoc. destruct IH as (H3 & D3 & S3 & G3).
    split; [done|]. split; [done|]. split; [by eapply same_run_trans|]. intros E. rewrite (G3 E).
    by apply G1, (sr_running _ _ S3).
  - match goal with |- context [run_events evs ?x] =>
      specialize (IH log x H Hd ltac:(lia)); destruct (run_events evs x) as [l c'] end. destruct IH as (H3 & D3 & S3 & G3).
    split; [done|]. split; [done|]. split; [|done]. by destruct S3.
Qed.

(** What the invariant says of the client. *)
Lemma seq_inv_in_order n v0 log r :
  seq_inv n v0 log r → drained r →
  ∃ processed waiting, log ≡ₚ processed ++ waiting ∧ processed.*1 = seqZ 0 (Z.of_nat (length processed)) ∧
    Forall (λ k, Z.of_nat (length processed) < k.1) waiting ∧
    view (client r) = foldl (λ v k, feed_view k v) v0 processed.*2 ∧
    gap r = inFlightCount r + Z.of_nat (length waiting).
Proof.
  intros [H1 H2 H3 H4 (processed & H5 & H6 & H7)] Hd. exists processed, (done_results (read_slots r)).
  assert (nextProcessSequence r = Z.of_nat (length processed)) as En.
  { apply (f_equal length) in H6. rewrite length_fmap, length_seqZ in H6. lia. }
  split; [done|]. split; [by rewrite H6, En|]. split; [|split; [done|]].
  - unfold done_results. apply Forall_fmap. apply list.Forall_forall. intros s [Hs Hin]%list_elem_of_filter. cbn.
    assert (rs_sequence s ∈ busy_numbers (read_slots r)) as Hb.
    { unfold busy_numbers. apply list_elem_of_fmap. exists s. split; [done|]. apply list_elem_of_filter. split; [|done].
      unfold busy. unfold done_slot in Hs. rewrite Hs. apply orb_true_r. }
    rewrite H3 in Hb. apply elem_of_seqZ in Hb. unfold drained in Hd. rewrite list.Forall_forall in Hd.
    specialize (Hd s Hin Hs). lia.
  - unfold gap. apply Permutation_length in H3. rewrite length_seqZ in H3.
    assert (Z.of_nat (length (busy_numbers (read_slots r))) =
      inFlightCount r + Z.of_nat (length (done_results (read_slots r)))) as Eb.
    { unfold inFlightCount. clear -H4. induction H4 as [|s l Hs _ IH]; [done|].
      rewrite busy_numbers_cons, done_results_cons, !length_app. cbn [foldr].
      destruct (rs_inFlight s), (rs_completed s); cbn; try lia; by specialize (Hs eq_refl). }
    lia.
Qed.

(** *** Starting: all slots are submitted *)

Definition idle (s : read_slot) : Prop := rs_inFlight s = false ∧ rs_completed s = false.

Lemma idle_seq_inv n v0 r :
  length (read_slots r) = n → Forall idle (read_slots r) → nextSubmitSequence r = 0 → nextProcessSequence r = 0 →
  view (client r) = v0 → seq_inv n v0 [] r ∧ drained r ∧ gap r = 0.
Proof.
  intros E1 Hi E2 E3 E4. assert (busy_numbers (read_slots r) = [] ∧ done_results (read_slots r) = []) as [Hb Hd].
  { clear -Hi. induction Hi as [|s l [H1 H2] _ IH]; [done|]. rewrite busy_numbers_cons, done_results_cons, H1, H2.
    by destruct IH as [-> ->]. }
  split; [|split; [|unfold gap; lia]].
  - split; rewrite ?E2, ?E3; [done|lia|by rewrite Hb| |exists []; split; [by rewrite Hd|done]].
    eapply Forall_impl; [|exact Hi]. by intros s [_ ->].
  - eapply Forall_impl; [|exact Hi]. by intros s [_ ->].
Qed.

(** Slots with a number at least [k] are idle. *)
Definition idle_from (k : Z) (r : reader X) : Prop :=
  ∀ i, k <= i < Z.of_nat (length (read_slots r)) → idle (rd (read_slots r) i).

(** Submitting leaves the other slots alone. *)
Lemma submit_idle i (c : read_ctx X) :
  wp (submit pipe_interface i) (λ _ c', ∀ j, 0 <= i → 0 <= j → j ≠ i →
    rd (read_slots (rdr c')) j = rd (read_slots (rdr c)) j) c.
Proof.
  unfold submit, modify_slot, modify_reader. do 2 wp_step. unfold id. wp_step; cbv beta; [by wp_step|].
  wp_step; cbv beta; [by wp_step|]. do 4 wp_step. apply wp_zoom, call_status_wp. intros s w _ _.
  wp_step. wp_step; cbv beta; do 2 wp_step; intros j Hi Hj Hne; cbn [set_field rdr read_slots];
    by rewrite !rd_wr_ne by lia.
Qed.

(** Nothing waits. *)
Lemma nothing_drained (r : reader X) : done_results (read_slots r) = [] → drained r.
Proof.
  intros D. apply list.Forall_forall. intros x Hx E. exfalso.
  assert ((rs_sequence x, rs_result x) ∈ done_results (read_slots r)) as Hin.
  { unfold done_results. apply list_elem_of_fmap. exists x. split; [done|]. by apply list_elem_of_filter. }
  rewrite D in Hin. by apply not_elem_of_nil in Hin.
Qed.

Lemma submit_slots_wp n v0 (Q : option Z → read_ctx X → Prop) c :
  seq_inv n v0 [] (rdr c) → drained (rdr c) → gap (rdr c) = 0 → idle_from 0 (rdr c) → Z.of_nat n < UINT64_MAX →
  (∀ s c', seq_inv n v0 [] (rdr c') → drained (rdr c') → same_run c c' →
     (s = None → gap (rdr c') = Z.of_nat n) → s ≠ Some kIOReturnSuccess → Q s c') →
  wp (submit_slots pipe_interface) Q c.
Proof.
  intros H Hd Hg Hi Hn HQ. unfold submit_slots. do 2 wp_step. unfold id. rewrite (q_length _ _ _ _ H).
  apply (wp_for_each (λ rest c1, ∃ k, 0 <= k ∧ rest = seqZ k (Z.of_nat n - k) ∧ seq_inv n v0 [] (rdr c1) ∧
    done_results (read_slots (rdr c1)) = [] ∧ same_run c c1 ∧ gap (rdr c1) = k ∧ idle_from k (rdr c1) ∧ k <= Z.of_nat n)).
  - exists 0. rewrite Z.sub_0_r. split; [lia|]. split; [done|]. split; [done|]. split.
    { destruct (done_results (read_slots (rdr c))) as [|[m x] l] eqn:E; [done|].
      destruct H as [H1 H2 H3 H4 (processed & H5 & _)]. apply Permutation_length in H5. rewrite E, length_app in H5.
      cbn in H5. lia. }
    split; [by split|]. split; [done|]. split; [done|lia].
  - intros i rest c1 (k & Hk & Er & H1 & D1 & S1 & G1 & I1 & Hkn).
    destruct (decide (k = Z.of_nat n)) as [->|]; [by rewrite Z.sub_diag in Er|].
    rewrite seqZ_cons in Er by lia. simplify_eq. destruct (I1 (gap (rdr c1))) as [J1 J2]; [rewrite (q_length _ _ _ _ H1); lia|].
    wp_step. pose proof (submit_idle (gap (rdr c1)) c1) as Hsi.
    eapply wp_mono; [apply wp_and; [|exact Hsi]|].
    { eapply (submit_wp n v0 [] (gap (rdr c1)) (λ s c2, seq_inv n v0 [] (rdr c2) ∧ same_run c1 c2 ∧
        done_results (read_slots (rdr c2)) ≡ₚ done_results (read_slots (rdr c1)) ∧
        (s = kIOReturnSuccess → gap (rdr c2) = gap (rdr c1) + 1))); [done|lia|cbn; lia|]. by intros. }
    intros s c2 [(H2 & S2 & D2 & G2) I2]. wp_step. rewrite D1 in D2. apply Permutation_nil_r in D2.
    assert (same_run c c2) by by eapply same_run_trans.
    destruct (s =? kIOReturnSuccess) eqn:Es.
    + apply Z.eqb_eq in Es. exists (gap (rdr c1) + 1). split; [lia|]. split; [f_equal; lia|]. split; [done|].
      split; [done|]. split; [done|]. split; [by apply G2|]. split; [|lia].
      intros j Hj. rewrite I2 by lia. apply I1. rewrite (q_length _ _ _ _ H1). rewrite (q_length _ _ _ _ H2) in Hj. lia.
    + apply HQ; [done|by apply nothing_drained|done|done|]. intros [= ->]. lia.
  - intros c1 (k & Hk & Er & H1 & D1 & S1 & G1 & _ & Hkn).
    assert (k = Z.of_nat n) as ->.
    { destruct (decide (k = Z.of_nat n)); [done|]. rewrite seqZ_cons in Er by lia. done. }
    apply HQ; [done|by apply nothing_drained|done|done|done].
Qed.
End proofs.
