(* ===== verification/InputEngine.v ===== *)
(** * The audio engines (numark-ns6/audio-in/AudioInputDecoder, coreaudio/AudioInputEngine,
      coreaudio/AudioOutputEngine)

    A captured frame is 64 bytes: bit 0 of 24 successive bytes is a sample, most significant bit
    first, at offset 0 for the left and 32 for the right channel.  The capture worker decodes whole
    transfers into the ring; CoreAudio reads it near a target fill.  The output engine passes
    CoreAudio's mix to its ring. *)

From stdpp Require Import base list numbers tactics.
From Stdlib Require Import ZArith Lia ZifyBool.
From S2P Require Import Prelude Float OutRing PacketPolicy.

(** ** The decoder *)

Definition kSourceStrideBytes : Z := 64.
Definition kChannelCount : Z := 2.

(** The 24 bits of a lane that starts at [offset]. *)
Definition lane_bits (source : list Z) (offset : Z) : Z :=
  for_loop 24 0 (λ bit value, Z.lor (u32 (Z.shiftl value 1)) (Z.land (rd source (offset + bit)) 1)) 0.

Definition lane_sample (source : list Z) (offset : Z) : Z :=
  let value := lane_bits source offset in
  if negb (Z.land value 0x800000 =? 0) then value - 0x1000000 else value.

Definition f32_lit (n d : Z) : spec_float := SFdiv 24 128 (f32_of_Z n) (f32_of_Z d).

Definition decodeLane (source : list Z) (offset : Z) : spec_float :=
  f32_mul (f32_of_Z (lane_sample source offset)) (f32_lit 1 8388608).

Definition AudioInputDecoder_decode (source : option (list Z)) (sourceBytes : Z)
    (interleaved : option (list spec_float)) (outputCapacityFrames : Z)
    : Z * option (list spec_float) :=
  match source, interleaved with
  | Some src, Some out =>
      if (sourceBytes =? 0) || negb (sourceBytes mod kSourceStrideBytes =? 0) then (0, interleaved)
      else
        let frames := sourceBytes / kSourceStrideBytes in
        if outputCapacityFrames <? frames then (0, interleaved)
        else
          (frames,
           Some (for_loop (Z.to_nat frames) 0
             (λ frame out,
                let stride := frame * kSourceStrideBytes in
                wr (wr out (frame * kChannelCount) (decodeLane src stride))
                   (frame * kChannelCount + 1) (decodeLane src (stride + 32))) out))
  | _, _ => (0, interleaved)
  end.

(** ** The input engine *)

Record AudioInputEngine := {
  in_ring : AudioOutputRing;
  decoded_ : list spec_float;
  maxTransferFrames_ : Z;
  targetFrames_ : Z;
  primed_ : bool;
  lastDecoded_ : spec_float * spec_float;
  hasLastDecoded_ : bool;
  anomalousBlock_ : list Z;
  anomalousBytes_ : Z;
  anomalousPrevious_ : spec_float * spec_float;
  anomalyCaptured_ : bool;
  anomalySaved_ : bool;
  droppedCaptureFrames_ : Z;
  starvationFrames_ : Z;
  malformedBlocks_ : Z;
  decodedNonZeroSamples_ : Z;
  unexpectedUSBBytes_ : Z;
  largeSampleJumps_ : Z
}.

#[export] Instance eta_engine : Eta AudioInputEngine := λ e,
  Build_AudioInputEngine (in_ring e) (decoded_ e) (maxTransferFrames_ e) (targetFrames_ e) (primed_ e)
    (lastDecoded_ e) (hasLastDecoded_ e) (anomalousBlock_ e) (anomalousBytes_ e) (anomalousPrevious_ e)
    (anomalyCaptured_ e) (anomalySaved_ e) (droppedCaptureFrames_ e) (starvationFrames_ e)
    (malformedBlocks_ e) (decodedNonZeroSamples_ e) (unexpectedUSBBytes_ e) (largeSampleJumps_ e).

Definition zero_pair : spec_float * spec_float := (S754_zero false, S754_zero false).

(** The constructor; [None] is an exception, of the ring or of its own. *)
Definition AudioInputEngine_new (ringCapacityFrames maxTransferFrames : Z) : option AudioInputEngine :=
  match AudioOutputRing_new ringCapacityFrames kChannelCount with
  | None => None
  | Some ring =>
      if maxTransferFrames =? 0 then None
      else Some {|
        in_ring := ring;
        decoded_ := replicate (Z.to_nat (maxTransferFrames * kChannelCount)) (S754_zero false);
        maxTransferFrames_ := maxTransferFrames;
        targetFrames_ := if ringCapacityFrames >=? 4096 then 2048 else 0;
        primed_ := false; lastDecoded_ := zero_pair; hasLastDecoded_ := false;
        anomalousBlock_ := replicate (Z.to_nat (maxTransferFrames * kSourceStrideBytes)) 0;
        anomalousBytes_ := 0; anomalousPrevious_ := zero_pair; anomalyCaptured_ := false;
        anomalySaved_ := false; droppedCaptureFrames_ := 0; starvationFrames_ := 0;
        malformedBlocks_ := 0; decodedNonZeroSamples_ := 0; unexpectedUSBBytes_ := 0;
        largeSampleJumps_ := 0 |}
  end.

Definition f32_max (a b : spec_float) : spec_float := if SFltb a b then b else a.
Definition is_jump (a b : spec_float) : bool := SFltb (f32_lit 1 2) (SFabs (f32_sub a b)).

(** The scan of a decoded transfer: peak, jumps between successive frames, last frame. *)
Record scan := {
  sn_peak : spec_float;
  sn_jumps : Z;
  sn_last : spec_float * spec_float;
  sn_has : bool
}.

Definition scan_frame (decoded : list spec_float) (frame : Z) (s : scan) : scan :=
  let left := rd decoded (frame * 2) in
  let right := rd decoded (frame * 2 + 1) in
  {| sn_peak := f32_max (f32_max (sn_peak s) (SFabs left)) (SFabs right);
     sn_jumps := sn_jumps s +₆₄
       (if sn_has s && (is_jump left (sn_last s).1 || is_jump right (sn_last s).2) then 1 else 0);
     sn_last := (left, right);
     sn_has := true |}.

Definition unexpected_bytes (block : list Z) (bytes : Z) : Z :=
  for_loop (Z.to_nat bytes) 0 (λ i n, n +₆₄ (if negb (Z.land (rd block i) 0xfe =? 0) then 1 else 0)) 0.

Definition nonzero_samples (decoded : list spec_float) (count : Z) : Z :=
  for_loop (Z.to_nat count) 0
    (λ i n, n +₆₄ (if SFeqb (rd decoded i) (S754_zero false) then 0 else 1)) 0.

(** Results: frames written to the ring and the engine. *)
Definition AudioInputEngine_publishUSBBlock (block : option (list Z)) (bytes : Z)
    (e : AudioInputEngine) : Z * AudioInputEngine :=
  let '(frames, decoded) := AudioInputDecoder_decode block bytes (Some (decoded_ e)) (maxTransferFrames_ e) in
  if frames =? 0 then (0, e <| malformedBlocks_ ::= λ n, n +₆₄ 1 |>)
  else
    let data := default [] block in
    let decoded := default [] decoded in
    let frameCount := u32 frames in
    let s := for_loop (Z.to_nat frames) 0 (scan_frame decoded)
               {| sn_peak := S754_zero false; sn_jumps := 0; sn_last := lastDecoded_ e;
                  sn_has := hasLastDecoded_ e |} in
    let capture := (sn_jumps s >=? 4) && SFltb (f32_lit 3 4) (sn_peak s) &&
                   negb (anomalySaved_ e) && negb (anomalyCaptured_ e) in
    let '(written, ring) := AudioOutputRing_write (Some decoded) frameCount (in_ring e) in
    (written,
     e <| decoded_ := decoded |>
       <| unexpectedUSBBytes_ ::= λ n, n +₆₄ unexpected_bytes data bytes |>
       <| lastDecoded_ := sn_last s |>
       <| hasLastDecoded_ := sn_has s |>
       <| largeSampleJumps_ ::= λ n, n +₆₄ sn_jumps s |>
       <| anomalousBlock_ ::= λ b, if capture then memcpy b 0 (slice data 0 bytes) else b |>
       <| anomalousBytes_ ::= λ n, if capture then bytes else n |>
       <| anomalousPrevious_ ::= λ p, if capture then lastDecoded_ e else p |>
       <| anomalyCaptured_ ::= λ b, b || capture |>
       <| decodedNonZeroSamples_ ::= λ n, n +₆₄ nonzero_samples decoded (frames * kChannelCount) |>
       <| in_ring := ring |>
       <| droppedCaptureFrames_ ::= λ n, n +₆₄ (frameCount -₃₂ written) |>).

(** The captured transfer, its length and the frame before it. *)
Definition AudioInputEngine_takeAnomalousBlock (e : AudioInputEngine)
    : option (list Z * Z * (spec_float * spec_float)) * AudioInputEngine :=
  if negb (anomalyCaptured_ e) then (None, e)
  else (Some (anomalousBlock_ e, anomalousBytes_ e, anomalousPrevious_ e),
        e <| anomalyCaptured_ := false |> <| anomalySaved_ := true |>).

(** [std::fill_n(out + from, count, 0.0f)]. *)
Definition fill_zero (out : list spec_float) (from count : Z) : list spec_float :=
  memcpy out from (replicate (Z.to_nat count) (S754_zero false)).

Definition capture_step (queued target : Z) : spec_float :=
  if target =? 0 then d_of_Z 1
  else d_clamp (d_add (d_of_Z 1) (d_mul (d_sub (d_of_Z queued) (d_of_Z target)) (d_lit 1 1000000)))
         (d_lit 998 1000) (d_lit 1002 1000).

(** Results: frames read, output buffer, engine. *)
Definition AudioInputEngine_readInput (interleaved : option (list spec_float)) (frames : Z)
    (e : AudioInputEngine) : Z * option (list spec_float) * AudioInputEngine :=
  match interleaved with
  | None => (0, None, e)
  | Some out =>
      if frames =? 0 then (0, Some out, e)
      else
        let queued := AudioOutputRing_availableFrames (in_ring e) in
        if negb (targetFrames_ e =? 0) && negb (primed_ e) && (queued <? targetFrames_ e)
        then (0, Some (fill_zero out 0 (frames * kChannelCount)), e)
        else
          let e := if negb (targetFrames_ e =? 0) && negb (primed_ e) then e <| primed_ := true |> else e in
          let '(read, out', ring) :=
            if targetFrames_ e =? 0 then AudioOutputRing_read (Some out) frames (in_ring e)
            else AudioOutputRing_readResampled (Some out) frames (capture_step queued (targetFrames_ e)) (in_ring e) in
          let missing := frames -₃₂ read in
          (read,
           Some (fill_zero (default [] out') (read * kChannelCount) (missing * kChannelCount)),
           e <| in_ring := ring |> <| starvationFrames_ ::= λ n, n +₆₄ missing |>)
  end.

(** ** The output engine *)

Record AudioOutputEngine := {
  out_ring : AudioOutputRing;
  droppedMixFrames_ : Z;
  mixCalls_ : Z;
  mixFrames_ : Z;
  lastMixTick_ : Z;
  maxMixGapTicks_ : Z
}.

#[export] Instance eta_output_engine : Eta AudioOutputEngine := λ e,
  Build_AudioOutputEngine (out_ring e) (droppedMixFrames_ e) (mixCalls_ e) (mixFrames_ e)
    (lastMixTick_ e) (maxMixGapTicks_ e).

Definition AudioOutputEngine_new (ringCapacityFrames : Z) : option AudioOutputEngine :=
  ring ← AudioOutputRing_new ringCapacityFrames 4;
  Some {| out_ring := ring; droppedMixFrames_ := 0; mixCalls_ := 0; mixFrames_ := 0;
          lastMixTick_ := 0; maxMixGapTicks_ := 0 |}.

(** [tick] is the time of the call. *)
Definition AudioOutputEngine_writeMix (tick : Z) (interleaved : option (list spec_float)) (frames : Z)
    (e : AudioOutputEngine) : Z * AudioOutputEngine :=
  let previous := lastMixTick_ e in
  let gap := tick -₆₄ previous in
  let '(written, ring) := AudioOutputRing_write interleaved frames (out_ring e) in
  (written,
   e <| lastMixTick_ := tick |>
     <| maxMixGapTicks_ ::= λ m, if negb (previous =? 0) && (gap >? m) then gap else m |>
     <| mixCalls_ ::= λ n, n +₆₄ 1 |>
     <| mixFrames_ ::= λ n, n +₆₄ frames |>
     <| out_ring := ring |>
     <| droppedMixFrames_ ::= λ n, n +₆₄ (frames -₃₂ written) |>).

Definition AudioOutputEngine_takeMaxMixGapTicks (e : AudioOutputEngine) : Z * AudioOutputEngine :=
  (maxMixGapTicks_ e, e <| maxMixGapTicks_ := 0 |>).
