(* ===== verification/EngineTheory.v ===== *)
(** * Captured samples are exact, and the engines account for every frame *)

From stdpp Require Import base list numbers tactics.
From Stdlib Require Import ZArith Lia ZifyBool.
From S2P Require Import Prelude Float Rounding OutRing OutRingTheory OutRingResample PacketPolicy.
From S2P Require Import OutPacket OutPacketTheory InputEngine.

(** ** The bits of a lane *)

Lemma land_1 x : Z.land x 1 = Z.b2z (Z.odd x).
Proof.
  change 1 with (Z.ones 1). rewrite Z.land_ones by lia. change (2 ^ 1) with 2.
  rewrite Zmod_odd. by destruct (Z.odd x).
Qed.

Lemma lor_bit v b : Z.even v = true → b = 0 ∨ b = 1 → Z.lor v b = v + b.
Proof.
  intros Hv [-> | ->]; [by rewrite Z.lor_0_r, Z.add_0_r|]. symmetry. apply Z.add_nocarry_lor.
  by rewrite land_1, <- Z.negb_even, Hv.
Qed.

Lemma half_bit z i : 0 <= i → z / 2 ^ i = 2 * (z / 2 ^ (i + 1)) + Z.b2z (Z.testbit z i).
Proof.
  intros Hi. rewrite Z.testbit_spec' by done. replace (2 ^ (i + 1)) with (2 ^ i * 2) by (rewrite Z.pow_add_r by lia; lia).
  rewrite <- Z.div_div by lia. apply Z.div_mod. lia.
Qed.

(** The low bits of the bytes of the lane are the bits of the sample, most significant first. *)
Definition in_lane (source : list Z) (offset z : Z) : Prop :=
  ∀ i, 0 <= i < 24 → Z.odd (rd source (offset + i)) = Z.testbit z (23 - i).

Lemma lane_bits_spec source offset z :
  in_lane source offset z → lane_bits source offset = z mod 16777216.
Proof.
  intros H. unfold lane_bits.
  set (body := λ bit value, Z.lor (u32 (Z.shiftl value 1)) (Z.land (rd source (offset + bit)) 1)).
  enough (∀ n : nat, (n <= 24)%nat → for_loop n 0 body 0 = (z mod 16777216) / 2 ^ (24 - Z.of_nat n)) as E
    by (rewrite E by lia; change (2 ^ _) with 1; by rewrite Z.div_1_r).
  assert (0 <= z mod 16777216 < 16777216) as Hz by (apply Z.mod_pos_bound; lia).
  intros n. induction n as [|n IH]; intros Hn.
  { change (2 ^ (24 - Z.of_nat 0)) with 16777216. cbn [for_loop]. by rewrite Z.div_small. }
  rewrite for_loop_snoc, IH by lia. unfold body. rewrite Z.add_0_l.
  replace (24 - Z.of_nat (S n)) with (23 - Z.of_nat n) by lia.
  rewrite (half_bit _ (23 - Z.of_nat n)) by lia. replace (23 - Z.of_nat n + 1) with (24 - Z.of_nat n) by lia.
  set (v := (z mod 16777216) / 2 ^ (24 - Z.of_nat n)).
  assert (0 < 2 ^ (24 - Z.of_nat n)) by (apply Z.pow_pos_nonneg; lia).
  assert (0 <= v < 16777216) as Hv.
  { subst v. split; [apply Z.div_pos; lia|]. apply Z.div_lt_upper_bound; nia. }
  rewrite land_1, H by lia.
  assert (Z.testbit (z mod 16777216) (23 - Z.of_nat n) = Z.testbit z (23 - Z.of_nat n)) as ->.
  { change 16777216 with (2 ^ 24). by rewrite Z.mod_pow2_bits_low by lia. }
  rewrite Z.shiftl_mul_pow2 by lia. change (2 ^ 1) with 2. rewrite u32_id by (unfold is_u32; lia).
  rewrite lor_bit; [lia| |destruct (Z.testbit z _); auto]. by rewrite Z.even_mul, orb_true_r.
Qed.

Lemma land_sign v : 0 <= v < 16777216 → (Z.land v 0x800000 =? 0) = (v <? 8388608).
Proof.
  intros Hv. change 0x800000 with (2 ^ 23).
  assert (Z.land v (2 ^ 23) = Z.b2z (Z.testbit v 23) * 2 ^ 23) as ->.
  { apply Z.bits_inj'. intros n Hn. rewrite Z.land_spec, Z.pow2_bits_eqb by lia.
    rewrite Z.mul_pow2_bits by lia. destruct (Z.eqb_spec 23 n) as [<-|Hne].
    - rewrite Z.sub_diag, andb_true_r. by destruct (Z.testbit v 23).
    - rewrite andb_false_r. destruct (Z.testbit v 23); cbn [Z.b2z]; [|by rewrite Z.bits_0].
      destruct (decide (n < 23)); [by rewrite Z.testbit_neg_r by lia|]. change 1 with (2 ^ 0).
      rewrite Z.pow2_bits_false by lia. done. }
  rewrite Z.testbit_eqb by lia. change (2 ^ 23) with 8388608.
  destruct (Z.ltb_spec v 8388608).
  - rewrite (Z.div_small v) by lia. done.
  - assert (v / 8388608 = 1) as -> by (symmetry; apply Z.div_unique with (v - 8388608); lia). done.
Qed.

Lemma lane_sample_spec source offset z :
  -8388608 <= z < 8388608 → in_lane source offset z → lane_sample source offset = z.
Proof.
  intros Hz H. unfold lane_sample. rewrite (lane_bits_spec _ _ z H).
  rewrite land_sign by (apply Z.mod_pos_bound; lia).
  destruct (decide (0 <= z)).
  - rewrite Z.mod_small by lia. by replace (z <? 8388608) with true by lia.
  - rewrite <- (Z.mod_add z 1), Z.mod_small by lia. replace (_ <? _) with false by lia. cbn. lia.
Qed.

(** ** A captured sample played back *)

(** A sample scaled to [-1, 1) in binary32: its mantissa is that of the integer. *)
Lemma scaled_shape z :
  z ≠ 0 → -8388608 <= z < 8388608 →
  ∃ m k, f32_mul (f32_of_Z z) (f32_lit 1 8388608) = S754_finite (z <? 0) m (- k - 23) ∧
    0 <= k <= 23 ∧ (k = 0 → Z.abs z = 8388608) ∧ Zpos m = Z.abs z * 2 ^ k ∧ Z.log2 (Zpos m) = 23.
Proof.
  intros Hz0 Hz. set (p := Z.to_pos (Z.abs z)). assert (Zpos p = Z.abs z) as Ep by (subst p; lia).
  destruct (round_pos_shape (prec:=24) (emax:=128) p ltac:(cbn; lia)) as (m & k & Hr & Hk & Hk0 & Hm).
  assert (f32_of_Z z = S754_finite (z <? 0) m (- k)) as E.
  { unfold f32_of_Z, sf_of_Z. destruct z as [|q|q]; [done| |]; cbn in Ep; assert (p = q) as -> by lia;
      cbn [binary_normalize]; apply Hr. }
  assert (Z.log2 (Zpos m) = 23) as Hl.
  { rewrite Hm, log2_shift by lia. lia. }
  assert (0 <= Z.log2 (Zpos p) <= 23) as Hlp.
  { split; [apply Z.log2_nonneg|]. apply Z.lt_succ_r, Z.log2_lt_pow2; [lia|]. cbn. lia. }
  exists m, k. split; [|split; [lia|split; [|split; [lia|done]]]].
  - rewrite E. change (f32_lit 1 8388608) with (S754_finite false 8388608 (-46)). unfold f32_mul. cbn [SFmul].
    rewrite xorb_false_r. change (Zpos (m * 8388608)) with (Zpos m * 2 ^ 23).
    replace (- k + -46) with (- k - 23 - 23) by lia.
    apply round_aux_canonical; [|lia]. split; lia.
  - intros ->. rewrite Z.pow_0_r, Z.mul_1_r in Hm. assert (Z.log2 (Z.abs z) = 23) as El by (rewrite <- Ep, <- Hm; done).
    assert (2 ^ 23 <= Z.abs z) by (rewrite <- El; apply Z.log2_spec; lia). change (2 ^ 23) with 8388608 in *. lia.
Qed.

(** The output path returns the integer. *)
Lemma scaled_sample_value z :
  -8388608 <= z < 8388608 → sample_value (f32_mul (f32_of_Z z) (f32_lit 1 8388608)) = z.
Proof.
  intros Hz. destruct (decide (z = 0)) as [->|Hz0]; [vm_compute; reflexivity|].
  destruct (scaled_shape z Hz0 Hz) as (m & k & E & Hk & Hk0 & Hm & Hl). unfold sample_value. rewrite E.
  cbn [sf_isfinite d_of_f32].
  set (M := (m * 2 ^ 29)%positive).
  assert (Zpos M = Zpos m * 2 ^ 29) as HM by (unfold M; lia).
  assert (Z.log2 (Zpos M) = 52) as HlM by (rewrite HM, log2_shift by lia; lia).
  rewrite (round_canonical (prec:=53) (emax:=1024) (z <? 0) M (- k - 52) m (- k - 23)).
  2: { split; [lia|lia]. }
  2: { right. split; [lia|]. rewrite HM. do 2 f_equal. lia. }
  assert (d_clamp (S754_finite (z <? 0) M (- k - 52)) (d_of_Z (-1)) (d_of_Z 1) =
          S754_finite (z <? 0) M (- k - 52)) as Ec.
  { unfold d_clamp. change (d_of_Z (-1)) with (S754_finite true 4503599627370496 (-52)).
    change (d_of_Z 1) with (S754_finite false 4503599627370496 (-52)).
    assert (k = 0 → Zpos M = 4503599627370496 ∧ z = -8388608) as Hk1.
    { intros ->. specialize (Hk0 eq_refl). split; [rewrite HM, Hm, Hk0; done|lia]. }
    assert (d_lt (S754_finite (z <? 0) M (- k - 52)) (S754_finite true 4503599627370496 (-52)) = false) as ->.
    { unfold d_lt, SFltb. cbn [SFcompare]. destruct (z <? 0) eqn:Es; [|done].
      destruct (Z.compare_spec (- k - 52) (-52)) as [Eq|Lt|Gt]; [|done|lia].
      destruct (Hk1 ltac:(lia)) as [EM _]. assert (M = 4503599627370496%positive) as -> by lia. done. }
    assert (d_lt (S754_finite false 4503599627370496 (-52)) (S754_finite (z <? 0) M (- k - 52)) = false) as ->; [|done].
    unfold d_lt, SFltb. cbn [SFcompare]. destruct (z <? 0) eqn:Es; [done|].
    destruct (Z.compare_spec (-52) (- k - 52)) as [Eq|Lt|Gt]; [|lia|done].
    destruct (Hk1 ltac:(lia)) as [EM Ez]. lia. }
  rewrite Ec. change (d_of_Z 8388608) with (S754_finite false 4503599627370496 (-29)). unfold d_mul. cbn [SFmul].
  rewrite xorb_false_r. change (Zpos (M * 4503599627370496)) with (Zpos M * 2 ^ 52).
  replace (- k - 52 + -29) with (- k - 29 - 52) by lia.
  rewrite (round_aux_canonical (prec:=53) (emax:=1024)); [|split; lia|lia].
  cbn [sf_llround]. replace (- k - 29 >=? 0) with false by lia.
  replace (- (- k - 29)) with (k + 29) by lia.
  assert (Zpos M = Z.abs z * 2 ^ (k + 29)) as -> by (rewrite HM, Hm, Z.pow_add_r by lia; lia).
  assert (0 < 2 ^ (k + 29)) by (apply Z.pow_pos_nonneg; lia).
  assert ((2 * (Z.abs z * 2 ^ (k + 29)) + 2 ^ (k + 29)) / (2 * 2 ^ (k + 29)) = Z.abs z) as ->.
  { symmetry. apply Z.div_unique with (2 ^ (k + 29)); lia. }
  unfold clamp. destruct (Z.ltb_spec z 0); case_ifs; lia.
Qed.

(** C39: a sample the device puts on its bit lanes is decoded to a float that the output path
    turns into the same 24-bit sample, whatever the other bits of the lanes are. *)
Theorem captured_sample_is_exact source offset z :
  -8388608 <= z < 8388608 → in_lane source offset z →
  sample_value (decodeLane source offset) = z ∧ decode24 (sample_bytes (decodeLane source offset)) = z.
Proof.
  intros Hz H. assert (sample_value (decodeLane source offset) = z) as E.
  { unfold decodeLane. rewrite (lane_sample_spec _ _ z Hz H). by apply scaled_sample_value. }
  split; [done|]. by rewrite decode_sample_bytes.
Qed.

(** ** The capture engine *)

(** The frames of a transfer. *)
Definition captured (data : list Z) (n : Z) : list frame :=
  map (λ i, [decodeLane data (64 * i); decodeLane data (64 * i + 32)]) (seqZ 0 n).

Record engine_ok (e : AudioInputEngine) (q : list frame) : Prop := {
  eo_ring : ring_rel (in_ring e) q;
  eo_channels : channels_ (in_ring e) = 2;
  eo_decoded : Z.of_nat (length (decoded_ e)) = maxTransferFrames_ e * 2;
  eo_max : 0 < maxTransferFrames_ e < 4294967296
}.

Lemma wr_pair {A} `{Inhabited A} (l : list A) i a b :
  0 <= i → i + 2 <= Z.of_nat (length l) → wr (wr l i a) (i + 1) b = memcpy l i [a; b].
Proof.
  intros Hi Hl. unfold wr, memcpy. replace (Z.to_nat (i + 1)) with (S (Z.to_nat i)) by lia.
  cbn [list_inserts]. by rewrite list_insert_insert_ne by lia.
Qed.

Lemma decode_frames data n (out : list spec_float) :
  0 <= n → n * 2 <= Z.of_nat (length out) →
  for_loop (Z.to_nat n) 0
    (λ frame out, wr (wr out (frame * 2) (decodeLane data (frame * 64))) (frame * 2 + 1)
                    (decodeLane data (frame * 64 + 32))) out
  = concat (captured data n) ++ drop (Z.to_nat (n * 2)) out.
Proof.
  intros Hn Hl.
  assert (∀ k : nat, (Z.of_nat k <= n) → for_loop k 0
    (λ frame out, wr (wr out (frame * 2) (decodeLane data (frame * 64))) (frame * 2 + 1)
                    (decodeLane data (frame * 64 + 32))) out =
    for_loop k 0 (λ i b, memcpy b (i * Z.of_nat 2) [decodeLane data (64 * i); decodeLane data (64 * i + 32)]) out ∧
    length (for_loop k 0 (λ i b, memcpy b (i * Z.of_nat 2) [decodeLane data (64 * i); decodeLane data (64 * i + 32)]) out)
      = length out) as E.
  { intros k. induction k as [|k IH]; intros Hk; [done|]. rewrite !for_loop_snoc. destruct IH as [-> IH]; [lia|].
    rewrite Z.add_0_l. split; [|by rewrite length_memcpy]. change (Z.of_nat 2) with 2 in *.
    rewrite wr_pair by lia. by rewrite !(Z.mul_comm _ 64). }
  destruct (E (Z.to_nat n) ltac:(lia)) as [-> _]. rewrite for_loop_blocks by (done || lia).
  unfold captured. rewrite Z2Nat.id by lia. do 2 f_equal. lia.
Qed.

Lemma captured_length data n : 0 <= n → length (captured data n) = Z.to_nat n ∧ Forall (λ f, length f = 2%nat) (captured data n).
Proof.
  intros Hn. unfold captured. split; [by rewrite length_map, length_seqZ|]. apply Forall_fmap, Forall_true. done.
Qed.

(** The frames of a buffer that starts with given frames. *)
Lemma frames_of_concat (fs : list frame) rest n :
  Forall (λ f, length f = 2%nat) fs → 0 <= n <= Z.of_nat (length fs) →
  frames_of 2 n (concat fs ++ rest) = take (Z.to_nat n) fs.
Proof.
  intros Hf Hn. apply list_eq. intros i. destruct (decide (i < Z.to_nat n)%nat) as [Hi|Hi].
  - replace i with (Z.to_nat (Z.of_nat i)) at 1 by lia. rewrite lookup_frames by lia.
    rewrite lookup_take_lt by lia. destruct (fs !! i) as [f|] eqn:Ei; [|apply lookup_ge_None in Ei; lia].
    apply take_drop_middle in Ei as Es. rewrite <- Es. f_equal.
    assert (length (concat (take i fs)) = (i * 2)%nat) as Ec.
    { rewrite (length_concat_block 2) by by apply Forall_take. rewrite length_take. apply lookup_lt_Some in Ei. lia. }
    assert (length f = 2%nat) as Hlf by (eapply (proj1 (Forall_lookup _ _) Hf); exact Ei).
    rewrite concat_app. cbn [concat]. rewrite <- !app_assoc. unfold slice.
    replace (Z.to_nat (Z.of_nat i * 2)) with (length (concat (take i fs))) by lia. rewrite drop_app_length.
    rewrite take_app_le by lia. by rewrite take_ge by lia.
  - rewrite !lookup_ge_None_2; [done|rewrite length_take; lia|rewrite length_frames; lia].
Qed.

(** Publishing a transfer of whole frames. *)
Lemma publish_spec e q data n :
  engine_ok e q → 0 < n <= maxTransferFrames_ e →
  let '(w, e') := AudioInputEngine_publishUSBBlock (Some data) (64 * n) e in
  w = Z.min n (capacityFrames_ (in_ring e) - Z.of_nat (length q)) ∧
  engine_ok e' (q ++ take (Z.to_nat w) (captured data n)) ∧
  droppedCaptureFrames_ e' = droppedCaptureFrames_ e +₆₄ (n - w) ∧
  malformedBlocks_ e' = malformedBlocks_ e ∧ starvationFrames_ e' = starvationFrames_ e ∧
  targetFrames_ e' = targetFrames_ e ∧ primed_ e' = primed_ e.
Proof.
  intros [H1 H2 H3 H4] Hn. unfold AudioInputEngine_publishUSBBlock, AudioInputDecoder_decode, kSourceStrideBytes, kChannelCount.
  replace (64 * n =? 0) with false by lia. replace (64 * n mod 64) with 0 by (rewrite Z.mul_comm, Z.mod_mul; lia).
  change (negb (0 =? 0)) with false. cbn [orb]. replace (64 * n / 64) with n by (rewrite Z.mul_comm, Z.div_mul; lia).
  replace (maxTransferFrames_ e <? n) with false by lia. replace (n =? 0) with false by lia. cbv zeta. cbn [default].
  rewrite (decode_frames data n) by lia. unfold id. set (dec := concat (captured data n) ++ _).
  destruct (captured_length data n ltac:(lia)) as [Hcl Hc2].
  assert (length dec = length (decoded_ e)) as Hdl.
  { subst dec. rewrite length_app, (length_concat_block 2), Hcl, length_drop by done. lia. }
  rewrite (u32_id n) by (unfold is_u32; lia).
  pose proof (write_rel (in_ring e) q dec n H1 ltac:(lia) ltac:(rewrite H2; lia)) as Hw.
  destruct (AudioOutputRing_write (Some dec) n (in_ring e)) as [w g']. destruct Hw as (Ew & Hg' & Ec' & Eh').
  pose proof (r_fits _ _ H1). pose proof (ok_capacity _ (r_ok _ _ H1)).
  split; [done|]. cbn [set_field in_ring decoded_ maxTransferFrames_ droppedCaptureFrames_ malformedBlocks_
    starvationFrames_ targetFrames_ primed_].
  rewrite (u32_id (n - w)) by (unfold is_u32; lia). split; [|done].
  split; cbn [set_field in_ring decoded_ maxTransferFrames_]; [|congruence|lia|done].
  rewrite H2 in Hg'. subst dec. by rewrite frames_of_concat in Hg' by (done || lia).
Qed.

(** Anything else is counted and changes nothing. *)
Lemma publish_malformed e block bytes :
  0 <= bytes → block = None ∨ bytes = 0 ∨ bytes mod 64 ≠ 0 ∨ maxTransferFrames_ e * 64 < bytes →
  AudioInputEngine_publishUSBBlock block bytes e = (0, e <| malformedBlocks_ ::= λ n, n +₆₄ 1 |>).
Proof.
  intros Hb H. unfold AudioInputEngine_publishUSBBlock, AudioInputDecoder_decode, kSourceStrideBytes.
  destruct block as [data|]; [|done]. destruct (decide (bytes = 0 ∨ bytes mod 64 ≠ 0)) as [Hz|Hz].
  { replace ((bytes =? 0) || negb (bytes mod 64 =? 0)) with true by lia. done. }
  replace ((bytes =? 0) || negb (bytes mod 64 =? 0)) with false by lia.
  replace (maxTransferFrames_ e <? bytes / 64) with true; [done|].
  destruct H as [?|[?|[?|?]]]; [done|lia|lia|]. symmetry. apply Z.ltb_lt. Z.div_mod_to_equations. lia.
Qed.

(** *** Reading *)

Definition silence : frame := [S754_zero false; S754_zero false].

Lemma length_fill_zero out from count : length (fill_zero out from count) = length out.
Proof. apply length_memcpy. Qed.

Lemma slice_replicate {A} (x : A) n i k :
  0 <= i → 0 <= k → i + k <= Z.of_nat n → slice (replicate n x) i k = replicate (Z.to_nat k) x.
Proof.
  intros. unfold slice. rewrite drop_replicate, take_replicate. f_equal. lia.
Qed.

(** Filling up with silence. *)
Lemma frames_fill (fs : list frame) out frames read :
  frames_of 2 read out = fs → 0 <= read <= frames → frames * 2 <= Z.of_nat (length out) →
  frames_of 2 frames (fill_zero out (read * 2) ((frames - read) * 2)) =
    fs ++ replicate (Z.to_nat (frames - read)) silence.
Proof.
  intros Hfs Hr Hl. assert (length fs = Z.to_nat read) as Hlen by (rewrite <- Hfs; apply length_frames).
  unfold fill_zero. set (z := replicate (Z.to_nat ((frames - read) * 2)) (S754_zero false)).
  assert (Z.of_nat (length z) = (frames - read) * 2) as Hz by (subst z; rewrite length_replicate; lia).
  apply list_eq. intros i. destruct (decide (i < Z.to_nat frames)%nat) as [Hi|Hi].
  2: { rewrite !lookup_ge_None_2; [done|rewrite length_app, length_replicate; lia|rewrite length_frames; lia]. }
  replace i with (Z.to_nat (Z.of_nat i)) at 1 by lia. rewrite lookup_frames by lia.
  destruct (decide (Z.of_nat i < read)) as [Hir|Hir].
  - rewrite lookup_app_l, <- Hfs by lia. replace i with (Z.to_nat (Z.of_nat i)) at 2 by lia.
    rewrite lookup_frames by lia. f_equal. apply slice_memcpy_ne; lia.
  - rewrite lookup_app_r by lia. rewrite lookup_replicate_2 by lia. f_equal.
    replace (Z.of_nat i * 2) with (read * 2 + (Z.of_nat i - read) * 2) by lia.
    rewrite slice_memcpy_in by lia. subst z. by rewrite slice_replicate by lia.
Qed.

Lemma read_rel g q out frames :
  ring_rel g q → 0 < frames → frames * channels_ g <= Z.of_nat (length out) →
  let '(count, out', g') := AudioOutputRing_read (Some out) frames g in
  count = Z.min frames (Z.of_nat (length q)) ∧ length (default [] out') = length out ∧
  frames_of (channels_ g) count (default [] out') = take (Z.to_nat count) q ∧
  ring_rel g' (drop (Z.to_nat count) q) ∧ capacityFrames_ g' = capacityFrames_ g ∧ channels_ g' = channels_ g.
Proof.
  intros Hg Hn Hlen. destruct (ring_rel_fifo g q Hg) as (t & Ht & <- & Hp & Hc & <-).
  pose proof (read_is_run t out frames Ht Hc Hn Hlen) as Hrun. pose proof (prefix_le t Ht) as Hle.
  assert (readFraction_ (AudioOutputRing_read (Some out) frames (ring t)).2 = readFraction_ (ring t) ∧
    length (default [] (AudioOutputRing_read (Some out) frames (ring t)).1.2) = length out) as [Ef El].
  { unfold AudioOutputRing_read. destruct (frames =? 0); [done|]. split; [done|]. cbn [fst snd default]. unfold id, copy_out.
    case_if; by rewrite !length_memcpy. }
  destruct (AudioOutputRing_read (Some out) frames (ring t)) as [[count out'] g']. cbn [fst snd] in Ef, El.
  destruct Hrun as [Ec Hs]. rewrite length_drop. split; [rewrite Ec; lia|]. split; [done|].
  pose proof (dimensions_steps _ _ Hs) as Hd. cbn in Hd.
  set (fs := frames_of (channels_ (ring t)) count (default [] out')) in *.
  assert (length fs = Z.to_nat count) as Hfl by apply length_frames.
  assert (fifo (t <| ring := g' |> <| taken ::= λ l, l ++ fs |>)) as Hf.
  { eapply (steps_invariant ring_step fifo); [by apply fifo_step|exact Ht|exact Hs]. }
  pose proof (f_prefix _ Hf) as Hpre. cbn in Hpre.
  apply fifo_ring_rel in Hf; [|cbn; rewrite Ef; apply (r_fraction _ _ Hg)]. cbn in Hf.
  rewrite length_app, Hfl in Hf, Hpre. split; [|split; [by rewrite drop_drop|done]].
  apply (f_equal (drop (length (taken t)))) in Hpre. rewrite drop_app_length, skipn_firstn_comm in Hpre.
  rewrite Hpre. f_equal. lia.
Qed.

Lemma capture_step_narrow queued target : narrow (capture_step queued target).
Proof.
  unfold capture_step. case_if; [by vm_compute|]. unfold d_clamp.
  destruct (d_lt _ (d_lit 998 1000)); [by vm_compute|]. destruct (d_lt (d_lit 1002 1000) _); [by vm_compute|].
  assert (d_of_Z 1 = S754_finite false 4503599627370496 (-52)) as -> by by vm_compute.
  set (y := d_mul _ _). clearbody y. unfold d_add. destruct y as [s|s| |s m e]; try done. cbn [SFadd].
  unfold binary_normalize. case_match; [done| |]; unfold binary_round; case_match; apply round_aux_narrow; lia.
Qed.

(** ** The engine as a queue *)

(** The specification: a bounded queue of frames with its counters. *)
Record capture := {
  cq : list frame;
  cq_fraction : spec_float;
  cq_primed : bool;
  cq_dropped : Z;
  cq_starved : Z;
  cq_malformed : Z
}.

#[export] Instance eta_capture : Eta capture := λ s,
  Build_capture (cq s) (cq_fraction s) (cq_primed s) (cq_dropped s) (cq_starved s) (cq_malformed s).

(** A transfer of whole frames that fits is appended as far as there is room. *)
Definition spec_block (cap max : Z) (block : option (list Z)) (bytes : Z) (s : capture) : capture :=
  match block with
  | Some data =>
      if (bytes =? 0) || negb (bytes mod 64 =? 0) || (max <? bytes / 64)
      then s <| cq_malformed ::= λ n, n +₆₄ 1 |>
      else let room := cap - Z.of_nat (length (cq s)) in
           s <| cq ::= λ q, q ++ take (Z.to_nat room) (captured data (bytes / 64)) |>
             <| cq_dropped ::= λ n, n +₆₄ Z.max 0 (bytes / 64 - room) |>
  | None => s <| cq_malformed ::= λ n, n +₆₄ 1 |>
  end.

(** Nothing is delivered before the queue has reached the target once; then the queue as it is
    (small rings) or resampled towards the target fill.  Silence stands for what is missing. *)
Definition spec_read (target frames : Z) (s : capture) : list frame * capture :=
  let pad fs := fs ++ replicate (Z.to_nat frames - length fs) silence in
  if negb (target =? 0) && negb (cq_primed s) && (Z.of_nat (length (cq s)) <? target) then (pad [], s)
  else
    let '(fs, q', fraction) :=
      if target =? 0 then (take (Z.to_nat frames) (cq s), drop (Z.to_nat frames) (cq s), cq_fraction s)
      else
        let step := valid_step (capture_step (Z.of_nat (length (cq s))) target) in
        let '(fs, phase) := resample_queue (cq s) step (Z.to_nat frames) (cq_fraction s) in
        (fs, drop (Z.to_nat (sf_trunc phase)) (cq s), d_sub phase (d_of_Z (sf_trunc phase))) in
    (pad fs, s <| cq := q' |> <| cq_fraction := fraction |>
               <| cq_primed ::= λ b, b || negb (target =? 0) |>
               <| cq_starved ::= λ n, n +₆₄ (frames - Z.of_nat (length fs)) |>).

(** The engine represents the queue. *)
Record engine_rel (cap target max : Z) (e : AudioInputEngine) (s : capture) : Prop := {
  er_ok : engine_ok e (cq s);
  er_cap : capacityFrames_ (in_ring e) = cap;
  er_target : targetFrames_ e = target;
  er_max : maxTransferFrames_ e = max;
  er_fraction : readFraction_ (in_ring e) = cq_fraction s;
  er_primed : primed_ e = cq_primed s;
  er_dropped : droppedCaptureFrames_ e = cq_dropped s;
  er_starved : starvationFrames_ e = cq_starved s;
  er_malformed : malformedBlocks_ e = cq_malformed s
}.

Lemma write_fraction data frames g :
  readFraction_ (AudioOutputRing_write data frames g).2 = readFraction_ g ∧
  capacityFrames_ (AudioOutputRing_write data frames g).2 = capacityFrames_ g.
Proof. unfold AudioOutputRing_write. by destruct data, (frames =? 0). Qed.

Lemma publish_fraction block bytes e :
  readFraction_ (in_ring (AudioInputEngine_publishUSBBlock block bytes e).2) = readFraction_ (in_ring e) ∧
  capacityFrames_ (in_ring (AudioInputEngine_publishUSBBlock block bytes e).2) = capacityFrames_ (in_ring e) ∧
  maxTransferFrames_ (AudioInputEngine_publishUSBBlock block bytes e).2 = maxTransferFrames_ e.
Proof.
  unfold AudioInputEngine_publishUSBBlock. destruct (AudioInputDecoder_decode _ _ _ _) as [frames decoded].
  destruct (frames =? 0); [done|].
  pose proof (write_fraction (Some (default [] decoded)) (u32 frames) (in_ring e)) as [H1 H2].
  destruct (AudioOutputRing_write _ _ _) as [w g']. cbn [fst snd] in *. by repeat split.
Qed.

Lemma spec_block_rel cap target max e s block bytes :
  engine_rel cap target max e s → 0 <= bytes →
  engine_rel cap target max (AudioInputEngine_publishUSBBlock block bytes e).2 (spec_block cap max block bytes s).
Proof.
  intros [H1 H2 H3 H4 H5 H6 H7 H8 H9] Hb. unfold spec_block.
  pose proof (publish_malformed e block bytes Hb) as Hm. rewrite H4 in Hm.
  assert (engine_rel cap target max (e <| malformedBlocks_ ::= λ n, n +₆₄ 1 |>) (s <| cq_malformed ::= λ n, n +₆₄ 1 |>))
    as Hrm by (destruct H1; split; cbn [set_field cq_malformed malformedBlocks_]; [by split|try done..]; by rewrite H9).
  destruct block as [data|]; [|by rewrite Hm by by left].
  destruct ((bytes =? 0) || negb (bytes mod 64 =? 0) || (max <? bytes / 64)) eqn:E.
  { rewrite Hm; [done|]. right. destruct (decide (bytes = 0)); [by left|]. right.
    destruct (decide (bytes mod 64 = 0)); [right|by left]. apply orb_true_iff in E as [E|E]; [lia|].
    apply Z.ltb_lt in E. Z.div_mod_to_equations. lia. }
  apply orb_false_iff in E as [E En]. 
  assert (∃ n, bytes / 64 = n ∧ bytes = 64 * n) as (n & Hn & Eb)
    by (exists (bytes / 64); split; [done|Z.div_mod_to_equations; lia]).
  rewrite Hn in *. subst bytes.
  pose proof (publish_spec e (cq s) data n H1 ltac:(lia)) as Hp.
  destruct (publish_fraction (Some data) (64 * n) e) as (Hf & Hc & Hx).
  destruct (AudioInputEngine_publishUSBBlock (Some data) (64 * n) e) as [w e']. cbn [snd] in *.
  destruct Hp as (Hw & Hok & Hd & Hma & Hs & Ht & Hpr). rewrite H2 in Hw.
  pose proof (r_fits _ _ (eo_ring _ _ H1)).
  destruct (captured_length data n ltac:(lia)) as [Hcl _].
  split; cbn [set_field cq cq_fraction cq_primed cq_dropped cq_starved cq_malformed]; try congruence.
  - replace (take (Z.to_nat (cap - Z.of_nat (length (cq s)))) (captured data n))
      with (take (Z.to_nat w) (captured data n)); [done|].
    destruct (decide (n <= cap - Z.of_nat (length (cq s)))); [rewrite !take_ge by lia; done|f_equal; lia].
  - rewrite Hd, H7. f_equal. lia.
Qed.

Lemma spec_read_rel cap target max e s out frames :
  engine_rel cap target max e s → 0 < frames < 4294967296 → frames * 2 <= Z.of_nat (length out) →
  let '(read, out', e') := AudioInputEngine_readInput (Some out) frames e in
  let '(fs, s') := spec_read target frames s in
  frames_of 2 frames (default [] out') = fs ∧ engine_rel cap target max e' s'.
Proof.
  intros [[H1 H2 H3 H4] E1 E2 E3 E4 E5 E6 E7 E8] Hf Hl. unfold spec_read, AudioInputEngine_readInput, kChannelCount.
  replace (frames =? 0) with false by lia. rewrite (available_length _ _ H1), E2, E5. cbv zeta.
  destruct (negb (target =? 0) && negb (cq_primed s) && (Z.of_nat (length (cq s)) <? target)) eqn:Eg.
  { split; [|by split]. cbn [default length app]. unfold id.
    pose proof (frames_fill [] out frames 0 eq_refl ltac:(lia) Hl) as Ff. rewrite Z.mul_0_l, Z.sub_0_r in Ff.
    by rewrite Nat.sub_0_r. }
  set (e1 := if negb (target =? 0) && negb (cq_primed s) then e <| primed_ := true |> else e).
  assert (in_ring e1 = in_ring e ∧ targetFrames_ e1 = target ∧ decoded_ e1 = decoded_ e ∧
    maxTransferFrames_ e1 = maxTransferFrames_ e ∧ droppedCaptureFrames_ e1 = droppedCaptureFrames_ e ∧
    starvationFrames_ e1 = starvationFrames_ e ∧ malformedBlocks_ e1 = malformedBlocks_ e ∧
    primed_ e1 = cq_primed s || negb (target =? 0))
    as (Er & Et & Ed & Em & Edr & Es & Ema & Ep).
  { subst e1. rewrite <- E5. destruct (target =? 0), (primed_ e) eqn:?; cbn [negb andb orb]; repeat split; done || congruence. }
  clearbody e1. rewrite Er, Et. destruct (target =? 0).
  - pose proof (read_rel (in_ring e) (cq s) out frames H1 ltac:(lia) ltac:(rewrite H2; lia)) as Hr.
    assert (readFraction_ (AudioOutputRing_read (Some out) frames (in_ring e)).2 = readFraction_ (in_ring e)) as Hfr'
      by (unfold AudioOutputRing_read; by destruct (frames =? 0)).
    destruct (AudioOutputRing_read (Some out) frames (in_ring e)) as [[read out'] g']. cbn [snd] in Hfr'.
    destruct Hr as (Hr & Hlo & Hfr & Hg' & Hcap & Hch). rewrite (u32_id (frames - read)) by (unfold is_u32; lia).
    assert (take (Z.to_nat frames) (cq s) = take (Z.to_nat read) (cq s) ∧
            drop (Z.to_nat frames) (cq s) = drop (Z.to_nat read) (cq s)) as [-> ->].
    { destruct (decide (frames <= Z.of_nat (length (cq s)))); [by replace read with frames by lia|].
      rewrite !take_ge, !drop_ge by lia. done. }
    split.
    + change (default [] (Some ?x)) with x. rewrite H2 in Hfr.
      rewrite (frames_fill (take (Z.to_nat read) (cq s))) by (done || lia). rewrite length_take. do 2 f_equal. lia.
    + rewrite length_take. split; cbn [set_field in_ring targetFrames_ maxTransferFrames_ droppedCaptureFrames_
        starvationFrames_ malformedBlocks_ primed_ cq cq_fraction cq_primed cq_dropped cq_starved cq_malformed];
        try congruence.
      * split; cbn [set_field in_ring decoded_ maxTransferFrames_]; try congruence; lia.
      * rewrite Es, E7. f_equal. lia.
  - set (step := capture_step _ _).
    pose proof (read_resampled_gen (in_ring e) (cq s) out frames step H1 (capture_step_narrow _ _) ltac:(lia)
      ltac:(rewrite H2; lia)) as Hr.
    pose proof (queue_frame_length _ _ H1) as Hql. rewrite H2 in Hql.
    pose proof (resample_queue_frames 2 (cq s) (valid_step step) (Z.to_nat frames) (readFraction_ (in_ring e)) Hql) as Hq.
    rewrite E4 in Hr, Hq. destruct (resample_queue (cq s) _ _ _) as [fs phase].
    destruct (AudioOutputRing_readResampled (Some out) frames step (in_ring e)) as [[read out'] g'].
    destruct Hr as (-> & -> & Hg' & Hcap & Hch & Hfr), Hq as (Hq2 & Hqn & _).
    rewrite (u32_id (frames - Z.of_nat (length fs))) by (unfold is_u32; lia). split.
    + cbn [default]. unfold id. rewrite H2.
      rewrite (frames_fill fs); [do 2 f_equal; lia| |lia|].
      * rewrite frames_of_concat by (done || lia). rewrite Nat2Z.id. by apply take_ge.
      * rewrite length_app, length_drop, (length_concat_block 2) by done. lia.
    + split; cbn [set_field in_ring targetFrames_ maxTransferFrames_ droppedCaptureFrames_
        starvationFrames_ malformedBlocks_ primed_ cq cq_fraction cq_primed cq_dropped cq_starved cq_malformed];
        try congruence.
      split; cbn [set_field in_ring decoded_ maxTransferFrames_]; try congruence; lia.
Qed.

(** *** Runs *)

Inductive capture_event :=
  | Transfer (block : option (list Z)) (bytes : Z)
  | Cycle (out : list spec_float) (frames : Z).

Definition event_ok (ev : capture_event) : Prop :=
  match ev with
  | Transfer _ bytes => 0 <= bytes
  | Cycle out frames => 0 < frames < 4294967296 ∧ frames * 2 <= Z.of_nat (length out)
  end.

(** The frames CoreAudio gets, one list for each I/O cycle. *)
Fixpoint engine_run (evs : list capture_event) (e : AudioInputEngine) : list (list frame) * AudioInputEngine :=
  match evs with
  | [] => ([], e)
  | Transfer block bytes :: evs' => engine_run evs' (AudioInputEngine_publishUSBBlock block bytes e).2
  | Cycle out frames :: evs' =>
      let '(_, out', e') := AudioInputEngine_readInput (Some out) frames e in
      let '(rs, e'') := engine_run evs' e' in (frames_of 2 frames (default [] out') :: rs, e'')
  end.

Fixpoint capture_run (cap target max : Z) (evs : list capture_event) (s : capture) : list (list frame) * capture :=
  match evs with
  | [] => ([], s)
  | Transfer block bytes :: evs' => capture_run cap target max evs' (spec_block cap max block bytes s)
  | Cycle _ frames :: evs' =>
      let '(fs, s') := spec_read target frames s in
      let '(rs, s'') := capture_run cap target max evs' s' in (fs :: rs, s'')
  end.

Definition empty_capture : capture :=
  {| cq := []; cq_fraction := S754_zero false; cq_primed := false; cq_dropped := 0; cq_starved := 0;
     cq_malformed := 0 |}.

Lemma engine_new_rel cap max e :
  AudioInputEngine_new cap max = Some e → (cap | 4294967296) → 0 <= cap → 0 <= max < 4294967296 →
  engine_rel cap (if cap >=? 4096 then 2048 else 0) max e empty_capture.
Proof.
  unfold AudioInputEngine_new, kChannelCount. intros Hn Hd Hc Hm.
  destruct (AudioOutputRing_new cap 2) as [g|] eqn:Eg; [|done]. destruct (max =? 0) eqn:E0; [done|]. simplify_eq.
  destruct (new_ok cap 2 g Eg Hd Hc ltac:(lia)) as (Hok & E1 & E2 & E3 & E4 & E5).
  pose proof (ok_capacity _ Hok). split; try done.
  split; cbn -[Z.mul]; [|done|rewrite length_replicate; lia|lia].
  split; rewrite ?E3, ?E4, ?E5; try done; cbn; lia.
Qed.

(** C8: an engine whose ring capacity divides 2^32 is a bounded queue of captured frames: over any
    sequence of USB transfers, well formed or not, and I/O cycles, every cycle delivers exactly the frames the
    queue specification delivers, resampled towards the target fill and padded with silence, and the
    counters of dropped frames, starved frames and malformed transfers are those of the queue. *)
Theorem capture_engine_refines_queue cap max e evs :
  AudioInputEngine_new cap max = Some e → (cap | 4294967296) → 0 <= cap → 0 <= max < 4294967296 →
  Forall event_ok evs →
  let target := if cap >=? 4096 then 2048 else 0 in
  let '(rs, e') := engine_run evs e in
  let '(rs', s) := capture_run cap target max evs empty_capture in
  rs = rs' ∧ Z.of_nat (length (cq s)) <= cap ∧
  droppedCaptureFrames_ e' = cq_dropped s ∧ starvationFrames_ e' = cq_starved s ∧
  malformedBlocks_ e' = cq_malformed s.
Proof.
  intros Hn Hd Hc Hm Hev target. pose proof (engine_new_rel cap max e Hn Hd Hc Hm) as Hrel. fold target in Hrel.
  clear Hn. generalize dependent empty_capture. revert e. clearbody target.
  induction Hev as [|ev evs Hok _ IH]; intros e s Hrel; cbn [engine_run capture_run].
  { destruct Hrel as [[H _ _ _] E1 ? ? ? ? ? ? ?]. pose proof (r_fits _ _ H). split; [done|]. split; [lia|done]. }
  destruct ev as [block bytes|out frames]; cbn in Hok; [by apply IH, spec_block_rel|].
  pose proof (spec_read_rel _ _ _ e s out frames Hrel (proj1 Hok) (proj2 Hok)) as Hr.
  destruct (AudioInputEngine_readInput (Some out) frames e) as [[read out'] e1].
  destruct (spec_read target frames s) as [fs s1]. destruct Hr as [<- Hrel1]. specialize (IH e1 s1 Hrel1).
  destruct (engine_run evs e1), (capture_run cap target max evs s1). destruct IH as [-> IH]. done.
Qed.

(** The bits of a sample on a lane, and a transfer of one frame. *)
Definition lane_of (z : Z) : list Z := map (λ b, Z.b2z (Z.testbit z (23 - b))) (seqZ 0 32).
Definition one_frame : list Z := lane_of 5 ++ lane_of (-7).

Lemma captured_sample_is_exact_witness :
  sample_value (decodeLane (lane_of (-8388608)) 0) = -8388608.
Proof.
  refine (proj1 (captured_sample_is_exact (lane_of (-8388608)) 0 (-8388608) _ _)); [lia|].
  unfold in_lane. intros i Hi. assert (i ∈ seqZ 0 24) as H by (apply elem_of_seqZ; lia). clear Hi. revert i H.
  apply list.Forall_forall. by repeat (apply list.Forall_cons; split; [by vm_compute|]).
Defined.

Lemma capture_engine_refines_queue_witness :
  ∃ e, AudioInputEngine_new 16 4 = Some e ∧
  (engine_run [Transfer (Some one_frame) 64; Cycle (replicate 4 (S754_zero false)) 2; Transfer None 64] e).1 =
    [captured one_frame 1 ++ [silence]] ∧
  malformedBlocks_ (engine_run [Transfer (Some one_frame) 64; Cycle (replicate 4 (S754_zero false)) 2;
    Transfer None 64] e).2 = 1.
Proof.
  destruct (AudioInputEngine_new 16 4) as [e|] eqn:E; [|by vm_compute in E]. exists e. split; [done|].
  pose proof (capture_engine_refines_queue 16 4 e
    [Transfer (Some one_frame) 64; Cycle (replicate 4 (S754_zero false)) 2; Transfer None 64] E) as H.
  specialize (H ltac:(by exists 268435456) ltac:(lia) ltac:(lia)).
  specialize (H ltac:(by repeat constructor)).
  cbv zeta in H. revert H. destruct (engine_run _ e) as [rs e'].
  destruct (capture_run _ _ _ _ _) as [rs' s] eqn:Es. intros (-> & _ & _ & _ & E').
  assert (rs' = (capture_run 16 0 4 [Transfer (Some one_frame) 64; Cycle (replicate 4 (S754_zero false)) 2;
    Transfer None 64] empty_capture).1 ∧ s = (capture_run 16 0 4 [Transfer (Some one_frame) 64;
    Cycle (replicate 4 (S754_zero false)) 2; Transfer None 64] empty_capture).2) as [-> Es'] by (change (if 16 >=? 4096 then 2048 else 0) with 0 in Es; by rewrite Es).
  cbn [fst snd]. rewrite E', Es'. by vm_compute.
Defined.
