(* ===== verification/MidiInput.v ===== *)
(** * MIDI input of the C++ driver: parser and encoder (numark-ns6/midi)

    Reports of the controller carry MIDI bytes, idle bytes and a terminator.  The parser collects channel
    messages across report boundaries (MIDIInputParser), and the encoder turns them into words of the MIDI 1.0
    protocol of CoreMIDI (MIDIInputEventEncoder).  The reference finds the messages in the whole byte
    stream at once. *)

From stdpp Require Import base list numbers tactics.
From Stdlib Require Import ZArith Lia ZifyBool.
From S2P Require Import Prelude Pcm.

(** ** The parser *)

Definition kMIDIReportBytes : Z := 42.
Definition kReportPayloadBytes : Z := 41.
Definition kMaximumOutputBytes : Z := kReportPayloadBytes + 2.

Record MIDIInputParser := {
  message_ : list Z;
  used_ : Z;
  expected_ : Z
}.

#[export] Instance eta_midi_parser : Eta MIDIInputParser := λ p,
  Build_MIDIInputParser (message_ p) (used_ p) (expected_ p).

Definition MIDIInputParser_new : MIDIInputParser :=
  {| message_ := [0; 0; 0]; used_ := 0; expected_ := 0 |}.

(** One byte; the output so far and the parser. *)
Definition feed_byte (byte : Z) (s : list Z * MIDIInputParser) : list Z * MIDIInputParser :=
  let '(out, p) := s in
  if byte =? 0xfd then (out, p)
  else if negb (Z.land byte 0x80 =? 0) then
    let p := p <| used_ := 0 |> <| expected_ := 0 |> in
    if (byte >=? 0x80) && (byte <=? 0xef)
    then (out, p <| message_ ::= λ m, wr m 0 byte |> <| used_ := 1 |>
                 <| expected_ := if (byte >=? 0xc0) && (byte <=? 0xdf) then 2 else 3 |>)
    else (out, p)
  else if (expected_ p =? 0) || (used_ p >=? 3) then (out, p)
  else
    let p := p <| message_ ::= λ m, wr m (used_ p) byte |> <| used_ ::= λ n, u8 (n + 1) |> in
    if used_ p =? expected_ p
    then (out ++ slice (message_ p) 0 (expected_ p), p <| used_ := 0 |> <| expected_ := 0 |>)
    else (out, p).

(** Results: the bytes written to [output] and the parser; [report] is [None] for a null pointer. *)
Definition MIDIInputParser_feedReport (report : option (list Z)) (length : Z) (p : MIDIInputParser)
    : list Z * MIDIInputParser :=
  match report with
  | None => ([], p)
  | Some data =>
      if negb (length =? kMIDIReportBytes) then ([], p <| used_ := 0 |> <| expected_ := 0 |>)
      else for_loop (Z.to_nat kReportPayloadBytes) 0 (λ i s, feed_byte (rd data i) s) ([], p)
  end.

(** ** The encoder *)

Definition message_size (status : Z) : Z := if (status >=? 0xc0) && (status <=? 0xdf) then 2 else 3.

Definition word_of (status data1 data2 : Z) : Z :=
  Z.lor (Z.lor (Z.lor (Z.shiftl 2 28) (Z.shiftl status 16)) (Z.shiftl data1 8)) data2.

(** The loop; each turn consumes at least two bytes, so there are at most [length] turns.  [None] is the
    early return of zero. *)
Fixpoint encode_loop (turns : nat) (data : list Z) (length capacity consumed count : Z) (words : list Z)
    : option Z * list Z :=
  if consumed <? length then
    match turns with
    | O => (None, words)
    | S turns' =>
        let status := rd data consumed in
        if (status <? 0x80) || (status >? 0xef) then (None, words)
        else
          let size := message_size status in
          if (length - consumed <? size) || (count =? capacity) then (None, words)
          else
            let data1 := rd data (consumed + 1) in
            let data2 := if size =? 3 then rd data (consumed + 2) else 0 in
            if negb (Z.land data1 0x80 =? 0) || negb (Z.land data2 0x80 =? 0) then (None, words)
            else encode_loop turns' data length capacity (consumed + size) (count + 1)
                   (wr words count (word_of status data1 data2))
    end
  else (Some count, words).

(** Results: the number of words, or zero, and the array of words. *)
Definition MIDIInputEventEncoder_encode (data : option (list Z)) (length : Z) (words : option (list Z))
    (capacity : Z) : Z * option (list Z) :=
  match data, words with
  | Some data, Some words =>
      let '(r, words) := encode_loop (Z.to_nat length) data length capacity 0 0 words in
      (default 0 r, Some words)
  | _, _ => (0, words)
  end.

(** ** Reference: the messages of a byte stream *)

Definition is_status (b : Z) : bool := 0x80 <=? b.
Definition is_channel (b : Z) : bool := (0x80 <=? b) && (b <=? 0xef).

(** A message is a channel status with its data bytes right after it. *)
Fixpoint messages (l : list Z) : list (list Z) :=
  match l with
  | [] => []
  | s :: l1 =>
      if is_channel s then
        match l1 with
        | [] => []
        | d1 :: l2 =>
            if is_status d1 then messages l1
            else if message_size s =? 2 then [s; d1] :: messages l2
            else match l2 with
                 | [] => []
                 | d2 :: l3 => if is_status d2 then messages l2 else [s; d1; d2] :: messages l3
                 end
        end
      else messages l1
  end.

(** A complete message. *)
Definition complete_message (m : list Z) : Prop :=
  ∃ s d1, is_channel s = true ∧ 0 <= d1 < 0x80 ∧
    (message_size s = 2 ∧ m = [s; d1] ∨ ∃ d2, 0 <= d2 < 0x80 ∧ message_size s = 3 ∧ m = [s; d1; d2]).

(** The bytes the parser sees of a report. *)
Definition report_payload (report : list Z) : list Z :=
  filter (λ b, b ≠ 0xfd) (slice report 0 kReportPayloadBytes).

(** ** The parser collects the messages of the stream *)

(** The message being collected. *)
Definition collected (p : MIDIInputParser) (pend : list Z) : Prop :=
  length (message_ p) = 3%nat ∧
  (pend = [] ∧ used_ p = 0 ∧ expected_ p = 0 ∨
   ∃ s, is_channel s = true ∧ expected_ p = message_size s ∧
     (pend = [s] ∧ used_ p = 1 ∧ take 1 (message_ p) = [s] ∨
      ∃ d, 0 <= d < 0x80 ∧ message_size s = 3 ∧ pend = [s; d] ∧ used_ p = 2 ∧ take 2 (message_ p) = [s; d])).

Lemma land_0x80 b : is_u8 b → (Z.land b 0x80 =? 0) = negb (is_status b).
Proof.
  intros Hb. assert (forallb (λ b, Bool.eqb (Z.land b 0x80 =? 0) (negb (is_status b))) (seqZ 0 256) = true) as H
    by by vm_compute.
  rewrite forallb_forall in H. apply eqb_prop, H, list_elem_of_In, elem_of_seqZ. unfold is_u8 in Hb. lia.
Qed.

Lemma pending_incomplete p pend : collected p pend → messages pend = [].
Proof.
  intros (_ & [(-> & _)|(s & Hs & He & [(-> & _)|(d & Hd & H3 & -> & _)])]); cbn; [done|by rewrite Hs|].
  rewrite Hs. unfold is_status. replace (0x80 <=? d) with false by lia. rewrite H3. done.
Qed.

(** A byte of the stream: complete messages go out and the rest is collected. *)
Lemma feed_byte_spec p pend b out :
  collected p pend → is_u8 b →
  let '(out', p') := feed_byte b (out, p) in
  ∃ ms pend', collected p' pend' ∧ out' = out ++ concat ms ∧ Forall complete_message ms ∧
    (length (concat ms) + length pend' <= length pend + 1)%nat ∧
    (if b =? 0xfd then ms = [] ∧ pend' = pend else ∀ l, messages (pend ++ b :: l) = ms ++ messages (pend' ++ l)).
Proof.
  intros (Hl & Hc) Hb. unfold feed_byte. destruct (b =? 0xfd) eqn:E0.
  { exists [], pend. cbn. rewrite app_nil_r. split; [by split|]. split; [done|]. split; [done|]. split; [lia|done]. }
  rewrite (land_0x80 b Hb), negb_involutive. destruct (is_status b) eqn:Es.
  - assert (∀ l, messages (pend ++ b :: l) = messages (b :: l)) as Hm.
    { intros l. destruct Hc as [(-> & _)|(s & Hs & He & [(-> & _)|(d & Hd & H3 & -> & _)])]; [done|..];
        cbn [app messages]; rewrite Hs; [by rewrite Es|]. unfold is_status at 1.
      replace (0x80 <=? d) with false by lia. rewrite H3. cbn [Z.eqb Pos.eqb]. by rewrite Es. }
    replace ((b >=? 0x80) && (b <=? 0xef)) with (is_channel b) by (unfold is_channel; lia).
    destruct (is_channel b) eqn:Ec.
    + exists [], [b]. split; [|split; [by rewrite app_nil_r|split; [done|split; [cbn; lia|by intros l; rewrite Hm]]]].
      split; [cbn; unfold wr; by rewrite length_insert|]. right. exists b. split; [done|]. split; [done|]. left.
      split; [done|]. split; [done|]. cbn. destruct (message_ p); [done|]. by cbn.
    + exists [], []. split; [by split; [|left]|]. split; [by rewrite app_nil_r|]. split; [done|]. split; [cbn; lia|].
      intros l. rewrite Hm. cbn [messages]. by rewrite Ec.
  - unfold is_status in Es. destruct Hc as [(-> & Hu & He)|(s & Hs & He & Hc)].
    + rewrite He. cbn [Z.eqb orb]. exists [], []. split; [by split; [|left]|]. split; [by rewrite app_nil_r|].
      split; [done|]. split; [cbn; lia|]. intros l. cbn [app messages]. unfold is_channel.
      by replace (0x80 <=? b) with false by lia.
    + assert (message_size s = 2 ∨ message_size s = 3) as Hsz by (unfold message_size; case_if; lia).
      destruct (message_ p) as [|m0 [|m1 [|m2 [|]]]] eqn:Em; try discriminate Hl.
      destruct Hc as [(-> & Hu & Ht)|(d & Hd & H3 & -> & Hu & Ht)]; cbn in Ht; simplify_eq; rewrite He, Hu.
      * replace ((message_size s =? 0) || (1 >=? 3)) with false by lia.
        cbn [set_field used_ expected_ message_]. rewrite Hu, Em. change (u8 (1 + 1)) with 2. rewrite He.
        destruct (2 =? message_size s) eqn:E2.
        -- exists [[s; b]], []. split; [split; [cbn; by rewrite Em|by left]|].
           split; [by replace (message_size s) with 2 by lia|]. split; [|split; [cbn; lia|]].
           { constructor; [|done]. exists s, b. split; [done|]. split; [unfold is_u8 in Hb; lia|]. left. split; [lia|done]. }
           intros l. cbn [app messages]. rewrite Hs. unfold is_status. replace (0x80 <=? b) with false by lia.
           by replace (message_size s =? 2) with true by lia.
        -- exists [], [s; b]. split; [|split; [by rewrite app_nil_r|split; [done|split; [cbn; lia|done]]]].
           split; [cbn; by rewrite Em|]. right. exists s. split; [done|]. split; [done|]. right. exists b.
           split; [unfold is_u8 in Hb; lia|]. split; [lia|]. split; [done|]. split; [cbn; by rewrite Hu|]. cbn. by rewrite Em.
      * rewrite H3. cbn [Z.eqb orb]. change (2 >=? 3) with false. cbv iota.
        cbn [set_field used_ expected_ message_]. rewrite Hu, Em. change (u8 (2 + 1)) with 3. rewrite He, H3.
        cbn [Z.eqb Pos.eqb]. exists [[s; d; b]], []. split; [split; [cbn; by rewrite Em|by left]|].
        split; [done|]. split; [|split; [cbn; lia|]].
        { constructor; [|done]. exists s, d. split; [done|]. split; [done|]. right. exists b.
          split; [unfold is_u8 in Hb; lia|done]. }
        intros l. cbn [app messages]. rewrite Hs. unfold is_status. replace (0x80 <=? d) with false by lia.
        rewrite H3. cbn [Z.eqb Pos.eqb]. by replace (0x80 <=? b) with false by lia.
Qed.

Lemma feed_bytes_spec bytes p pend out :
  collected p pend → Forall is_u8 bytes →
  let '(out', p') := foldl (λ s b, feed_byte b s) (out, p) bytes in
  ∃ ms pend', collected p' pend' ∧ out' = out ++ concat ms ∧ Forall complete_message ms ∧
    (length (concat ms) + length pend' <= length pend + length bytes)%nat ∧
    ∀ l, messages (pend ++ filter (λ b, b ≠ 0xfd) bytes ++ l) = ms ++ messages (pend' ++ l).
Proof.
  intros Hc Hb. revert p pend out Hc. induction Hb as [|b bytes Hb _ IH]; intros p pend out Hc.
  { cbn. exists [], pend. split; [done|]. split; [by rewrite app_nil_r|]. split; [done|]. split; [cbn; lia|done]. }
  cbn [foldl]. pose proof (feed_byte_spec p pend b out Hc Hb) as H1.
  destruct (feed_byte b (out, p)) as [out1 p1]. destruct H1 as (ms1 & pend1 & Hc1 & -> & Hf1 & Hl1 & Hm1).
  specialize (IH p1 pend1 (out ++ concat ms1) Hc1). destruct (foldl _ _ bytes) as [out2 p2].
  destruct IH as (ms2 & pend2 & Hc2 & -> & Hf2 & Hl2 & Hm2).
  exists (ms1 ++ ms2), pend2. rewrite concat_app, length_app. split; [done|]. split; [by rewrite app_assoc|].
  split; [by apply Forall_app|]. split; [cbn [length]; lia|]. intros l. rewrite filter_cons.
  destruct (b =? 0xfd) eqn:E.
  - destruct Hm1 as [-> ->]. rewrite decide_False by lia. apply Hm2.
  - rewrite decide_True by lia. cbn [app]. by rewrite Hm1, Hm2, app_assoc.
Qed.

Lemma for_loop_rd (n : nat) i (data : list Z) s :
  (Z.to_nat i + n <= length data)%nat → 0 <= i →
  for_loop n i (λ i s, feed_byte (rd data i) s) s = foldl (λ s b, feed_byte b s) s (slice data i (Z.of_nat n)).
Proof.
  revert i s. induction n as [|n IH]; intros i s Hl Hi.
  { unfold slice. by rewrite Nat2Z.id. }
  assert (slice data i (Z.of_nat (S n)) = rd data i :: slice data (i + 1) (Z.of_nat n)) as ->.
  { unfold slice, rd. rewrite !Nat2Z.id, Z2Nat.inj_add, Nat.add_1_r by lia.
    destruct (lookup_lt_is_Some_2 data (Z.to_nat i) ltac:(lia)) as [x Ex].
    rewrite (drop_S _ _ _ Ex). by rewrite (list_lookup_total_correct _ _ _ Ex). }
  cbn [for_loop foldl]. apply IH; lia.
Qed.

(** Over reports. *)
Fixpoint feed_reports (reports : list (list Z)) (p : MIDIInputParser) : list (list Z) * MIDIInputParser :=
  match reports with
  | [] => ([], p)
  | r :: reports' =>
      let '(out, p) := MIDIInputParser_feedReport (Some r) (Z.of_nat (length r)) p in
      let '(outs, p) := feed_reports reports' p in (out :: outs, p)
  end.

Definition is_report (r : list Z) : Prop := length r = Z.to_nat kMIDIReportBytes ∧ Forall is_u8 r.

(** The messages each report completes. *)
Lemma feed_report_spec p pend r :
  collected p pend → is_report r →
  let '(out, p') := MIDIInputParser_feedReport (Some r) (Z.of_nat (length r)) p in
  ∃ ms pend', collected p' pend' ∧ out = concat ms ∧ Forall complete_message ms ∧
    (length out <= Z.to_nat kMaximumOutputBytes)%nat ∧
    ∀ l, messages (pend ++ report_payload r ++ l) = ms ++ messages (pend' ++ l).
Proof.
  intros Hc [Hl Hb]. unfold MIDIInputParser_feedReport. rewrite Hl. change (negb (_ =? kMIDIReportBytes)) with false.
  cbv iota. rewrite for_loop_rd; [|rewrite Hl; unfold kMIDIReportBytes, kReportPayloadBytes; lia|lia].
  pose proof (feed_bytes_spec (slice r 0 kReportPayloadBytes) p pend [] Hc) as H.
  change (Z.of_nat (Z.to_nat kReportPayloadBytes)) with kReportPayloadBytes.
  destruct (foldl _ _ _) as [out p'].
  destruct H as (ms & pend' & Hc' & -> & Hf & Hlen & Hm); [unfold slice; by apply Forall_take, Forall_drop|].
  exists ms, pend'. split; [done|]. split; [done|]. split; [done|]. split; [|done]. cbn [app].
  assert (length pend <= 2)%nat as Hp.
  { destruct Hc as (_ & [(-> & _)|(s & _ & _ & [(-> & _)|(d & _ & _ & -> & _)])]); cbn; lia. }
  unfold slice in Hlen. rewrite length_take, length_drop, Hl in Hlen.
  unfold kMaximumOutputBytes, kMIDIReportBytes, kReportPayloadBytes in *. lia.
Qed.

Lemma feed_reports_spec reports p pend :
  collected p pend → Forall is_report reports →
  let '(outs, p') := feed_reports reports p in
  ∃ mss pend', collected p' pend' ∧ outs = map (@concat Z) mss ∧ Forall (Forall complete_message) mss ∧
    Forall (λ o, length o <= Z.to_nat kMaximumOutputBytes)%nat outs ∧
    ∀ l, messages (pend ++ concat (map report_payload reports) ++ l) = concat mss ++ messages (pend' ++ l).
Proof.
  intros Hc Hr. revert p pend Hc. induction Hr as [|r reports Hr _ IH]; intros p pend Hc.
  { exists [], pend. split; [done|]. by repeat (split; [constructor|]). }
  cbn [feed_reports map concat]. pose proof (feed_report_spec p pend r Hc Hr) as H1.
  destruct (MIDIInputParser_feedReport _ _ p) as [out p1]. destruct H1 as (ms & pend1 & Hc1 & -> & Hf & Hl & Hm).
  specialize (IH p1 pend1 Hc1). destruct (feed_reports reports p1) as [outs p2].
  destruct IH as (mss & pend2 & Hc2 & -> & Hfs & Hls & Hms). exists (ms :: mss), pend2.
  split; [done|]. split; [done|]. split; [by constructor|]. split; [by constructor|].
  intros l. cbn [concat]. by rewrite <- !app_assoc, Hm, Hms.
Qed.

(** ** The encoder keeps the messages *)

Definition message_word (m : list Z) : Z := word_of (rd m 0) (rd m 1) (if message_size (rd m 0) =? 3 then rd m 2 else 0).

(** What a receiver of the word reads. *)
Definition word_message (w : Z) : list Z :=
  let status := Z.land (Z.shiftr w 16) 0xff in
  status :: Z.land (Z.shiftr w 8) 0xff :: (if message_size status =? 3 then [Z.land w 0xff] else []).

Lemma word_of_eq s d1 d2 :
  is_u8 s → is_u8 d1 → is_u8 d2 → word_of s d1 d2 = 536870912 + s * 65536 + d1 * 256 + d2.
Proof.
  intros Hs H1 H2. unfold is_u8 in *. unfold word_of.
  assert (∀ a k b, 0 <= k → 0 <= b < 2 ^ k → Z.lor (Z.shiftl a k) b = a * 2 ^ k + b) as Hl
    by (intros a k b Hk Hb; rewrite Z.lor_comm, lor_disjoint_add by done; lia).
  rewrite (Hl 2 28) by (rewrite ?Z.shiftl_mul_pow2; lia).
  replace (2 * 2 ^ 28 + Z.shiftl s 16) with (Z.shiftl (8192 + s) 16) by (rewrite !Z.shiftl_mul_pow2; lia).
  rewrite (Hl _ 16) by (rewrite ?Z.shiftl_mul_pow2; lia).
  replace ((8192 + s) * 2 ^ 16 + Z.shiftl d1 8) with (Z.shiftl ((8192 + s) * 256 + d1) 8)
    by (rewrite !Z.shiftl_mul_pow2; lia).
  rewrite (Hl _ 8); lia.
Qed.

Lemma land_ff z : Z.land z 0xff = z mod 256.
Proof. change 0xff with (Z.ones 8). by rewrite Z.land_ones. Qed.

(** A message survives the word. *)
Lemma word_message_roundtrip m : complete_message m → word_message (message_word m) = m.
Proof.
  intros (s & d1 & Hs & H1 & Hm). unfold is_channel in Hs.
  destruct Hm as [[E ->]|(d2 & H2 & E & ->)]; unfold message_word, word_message, rd; cbn [lookup_total list_lookup_total];
    change (Z.to_nat 0) with 0%nat; change (Z.to_nat 1) with 1%nat; change (Z.to_nat 2) with 2%nat;
    cbn [lookup_total list_lookup_total]; rewrite E; cbn [Z.eqb Pos.eqb];
    rewrite word_of_eq by (unfold is_u8; lia);
    rewrite !land_ff, !Z.shiftr_div_pow2 by lia; change (2 ^ 16) with 65536; change (2 ^ 8) with 256.
  - replace ((_ / 65536) mod 256) with s by (Z.div_mod_to_equations; lia). rewrite E. cbn [Z.eqb Pos.eqb].
    do 2 f_equal. Z.div_mod_to_equations; lia.
  - replace ((_ / 65536) mod 256) with s by (Z.div_mod_to_equations; lia). rewrite E. cbn [Z.eqb Pos.eqb].
    f_equal. f_equal; [Z.div_mod_to_equations; lia|]. f_equal. Z.div_mod_to_equations; lia.
Qed.

(** A step of the loop on a message at [consumed]. *)
Lemma encode_step turns before m rest capacity words count :
  complete_message m → 0 <= count < capacity →
  let data := before ++ m ++ rest in
  encode_loop (S turns) data (Z.of_nat (length data)) capacity (Z.of_nat (length before)) count words =
  encode_loop turns data (Z.of_nat (length data)) capacity (Z.of_nat (length (before ++ m))) (count + 1)
    (wr words count (message_word m)).
Proof.
  intros (s & d1 & Hs & H1 & Hm) Hc data. unfold is_channel in Hs.
  assert (∀ k x, m !! k = Some x → rd data (Z.of_nat (length before) + Z.of_nat k) = x) as Hrd.
  { intros k x E. unfold rd. rewrite Z2Nat.inj_add, !Nat2Z.id by lia. subst data.
    apply list_lookup_total_correct. rewrite lookup_app_r by lia. rewrite lookup_app_l; [|by apply lookup_lt_Some in E; lia].
    by replace (length before + k - length before)%nat with k by lia. }
  assert (Z.of_nat (length data) = Z.of_nat (length before) + Z.of_nat (length m) + Z.of_nat (length rest)) as El
    by (subst data; rewrite !length_app; lia).
  clearbody data. rewrite length_app.
  assert (∀ d, 0 <= d < 0x80 → (Z.land d 0x80 =? 0) = true) as Hland.
  { intros d Hd. rewrite land_0x80 by (unfold is_u8; lia). unfold is_status. lia. }
  pose proof (Hrd 0%nat) as R0. pose proof (Hrd 1%nat) as R1. pose proof (Hrd 2%nat) as R2.
  rewrite Z.add_0_r in R0. change (Z.of_nat 1) with 1 in R1. change (Z.of_nat 2) with 2 in R2.
  destruct Hm as [[E ->]|(d2 & H2 & E & ->)]; cbn [encode_loop length app] in *;
    rewrite (R0 s eq_refl), (R1 d1 eq_refl); replace (_ <? Z.of_nat (length data)) with true by lia;
    replace ((s <? 0x80) || (s >? 0xef)) with false by lia; cbv zeta; rewrite E.
  - assert (message_word [s; d1] = word_of s d1 0) as -> by (unfold message_word; change (rd [s; d1] 0) with s; by rewrite E).
    replace (_ <? 2) with false by lia. replace (count =? capacity) with false by lia. cbn [orb Z.eqb Pos.eqb].
    rewrite (Hland d1) by done. cbn [negb orb]. change (Z.land 0 0x80 =? 0) with true. cbv iota. f_equal; lia.
  - assert (message_word [s; d1; d2] = word_of s d1 d2) as ->
      by (unfold message_word; change (rd [s; d1; d2] 0) with s; by rewrite E).
    replace (_ <? 3) with false by lia. replace (count =? capacity) with false by lia. cbn [orb Z.eqb Pos.eqb].
    rewrite (R2 d2 eq_refl), (Hland d1), (Hland d2) by done. cbn [negb orb]. f_equal; lia.
Qed.

Lemma memcpy_cons (l xs : list Z) c x : 0 <= c → memcpy (wr l c x) (c + 1) xs = memcpy l c (x :: xs).
Proof.
  intros Hc. unfold memcpy, wr. rewrite Z2Nat.inj_add, Nat.add_1_r by lia. cbn [list_inserts].
  symmetry. apply list_insert_inserts_lt. lia.
Qed.

Lemma encode_messages ms turns before capacity words count :
  Forall complete_message ms → (length ms <= turns)%nat → 0 <= count → count + Z.of_nat (length ms) <= capacity →
  capacity <= Z.of_nat (length words) →
  let data := before ++ concat ms in
  encode_loop turns data (Z.of_nat (length data)) capacity (Z.of_nat (length before)) count words =
    (Some (count + Z.of_nat (length ms)), memcpy words count (map message_word ms)).
Proof.
  intros Hms. revert turns before words count. induction Hms as [|m ms Hm _ IH]; intros turns before words count Ht Hc Hcap Hw.
  { cbn [concat map length]. cbv zeta. rewrite app_nil_r, Z.add_0_r.
    destruct turns; cbn [encode_loop]; by replace (_ <? _) with false by lia. }
  cbn [concat map length] in *. destruct turns as [|turns]; [lia|]. cbv zeta.
  rewrite (encode_step turns before m (concat ms)) by (done || lia). rewrite app_assoc.
  specialize (IH turns (before ++ m) (wr words count (message_word m)) (count + 1)). cbv zeta in IH.
  rewrite IH by (rewrite ?length_wr; lia). f_equal; [f_equal; lia|]. by rewrite memcpy_cons by lia.
Qed.

(** What the encoder makes of complete messages. *)
Lemma encode_spec ms words capacity :
  Forall complete_message ms → Z.of_nat (length ms) <= capacity <= Z.of_nat (length words) →
  MIDIInputEventEncoder_encode (Some (concat ms)) (Z.of_nat (length (concat ms))) (Some words) capacity =
    (Z.of_nat (length ms), Some (memcpy words 0 (map message_word ms))).
Proof.
  intros Hms Hc. unfold MIDIInputEventEncoder_encode.
  assert (length ms <= length (concat ms))%nat as Hl.
  { clear Hc. induction Hms as [|m ms (s & d1 & _ & _ & [[_ ->]|(d2 & _ & _ & ->)]) _ IH]; cbn; lia. }
  pose proof (encode_messages ms (Z.to_nat (Z.of_nat (length (concat ms)))) [] capacity words 0 Hms ltac:(lia)
    ltac:(lia) ltac:(lia) ltac:(lia)) as H.
  cbn [app length] in H. cbv zeta in H. change (Z.of_nat 0) with 0 in H. rewrite H. by rewrite Z.add_0_l.
Qed.

(** C40: whatever reports arrive, what the parser puts out is exactly the channel messages of the
    byte stream they carry, in order, also messages cut by a report boundary; each output fits its
    buffer, and encoded as words it is read back as the same messages. *)
Theorem reports_become_words reports words :
  Forall is_report reports → (Z.to_nat kMaximumOutputBytes <= length words)%nat →
  ∃ mss, let outs := (feed_reports reports MIDIInputParser_new).1 in
    outs = map (@concat Z) mss ∧ concat mss = messages (concat (map report_payload reports)) ∧
    Forall (λ out, length out <= Z.to_nat kMaximumOutputBytes)%nat outs ∧
    Forall (λ ms,
      let '(count, encoded) := MIDIInputEventEncoder_encode (Some (concat ms)) (Z.of_nat (length (concat ms)))
                                 (Some words) (Z.of_nat (length words)) in
      count = Z.of_nat (length ms) ∧
      map word_message (slice (default [] encoded) 0 count) = ms) mss.
Proof.
  intros Hr Hw. pose proof (feed_reports_spec reports MIDIInputParser_new [] ltac:(by split; [|left]) Hr) as H.
  destruct (feed_reports reports MIDIInputParser_new) as [outs p'].
  destruct H as (mss & pend & Hc & -> & Hf & Hl & Hm). exists mss. split; [done|].
  split; [|split; [done|]].
  { specialize (Hm []). rewrite !app_nil_r in Hm. cbn [app] in Hm. rewrite Hm, (pending_incomplete _ _ Hc).
    by rewrite app_nil_r. }
  rewrite list.Forall_fmap in Hl. apply Forall_forall. intros ms Hin.
  rewrite Forall_forall in Hf, Hl. specialize (Hf ms Hin). specialize (Hl ms Hin). cbn in Hl.
  assert (length ms <= length (concat ms))%nat.
  { clear -Hf. induction Hf as [|m ms (s & d1 & _ & _ & [[_ ->]|(d2 & _ & _ & ->)]) _ IH]; cbn; lia. }
  rewrite (encode_spec ms words) by (done || lia). split; [done|]. cbn [default]. unfold id.
  assert (slice (memcpy words 0 (map message_word ms)) 0 (Z.of_nat (length ms)) = map message_word ms) as ->.
  { replace (Z.of_nat (length ms)) with (Z.of_nat (length (map message_word ms))) by (by rewrite length_map).
    apply slice_memcpy_eq; [lia|]. rewrite length_map. lia. }
  clear -Hf. induction Hf as [|m ms Hm _ IH]; [done|]. cbn [map]. by rewrite word_message_roundtrip, IH.
Qed.

Lemma reports_become_words_witness :
  let r1 := [0x90; 60; 100; 0xfd; 0xc1] ++ replicate 37 0xfd in let r2 := [0x05; 0xb0] ++ replicate 40 0xfd in
  concat (feed_reports [r1; r2] MIDIInputParser_new).1 = [0x90; 60; 100; 0xc1; 0x05].
Proof.
  intros r1 r2. destruct (reports_become_words [r1; r2] (replicate 43 0)) as (mss & Ho & Hm & _).
  - repeat constructor; cbn; lia.
  - by apply Nat.leb_le.
  - rewrite Ho. assert (∀ l : list (list (list Z)), concat (map (@concat Z) l) = concat (concat l)) as ->.
    { induction l as [|x l IH]; [done|]. cbn. by rewrite IH, concat_app. }
    rewrite Hm. reflexivity.
Defined.
