(* ===== verification/Readers.v ===== *)
(** * The capture and MIDI readers (numark-ns6/audio-in/AudioInputReader, midi/MIDIInputReader)

    Both are sequenced readers (SequencedReads.v).  The capture reader keeps eight bulk reads in flight and
    hands each block to the capture engine; the MIDI reader keeps four and hands each report to the parser.
    Whatever order the system completes the reads in, engine and parser see them in the order they were
    submitted. *)

From stdpp Require Import base list numbers tactics.
From Stdlib Require Import ZArith Lia ZifyBool.
From S2P Require Import Prelude IoKit UsbSession UsbSessionTheory SequencedReads SequencedTheory.
From S2P Require Import InputEngine MidiInput.

(** ** The capture reader *)

Definition kTransferBytes : Z := 10240.
Definition kCaptureSlots : nat := 8.

(** The fields of AudioInputReader beside the sequencing; [engine_] is null when not [hasEngine_]. *)
Record capture_client := {
  engine_ : AudioInputEngine;
  hasEngine_ : bool;
  completedTransfers_ : Z;
  transportErrors_ : Z;
  lastError_ : Z;
  readsOver50ms_ : Z;
  maxReadMicros_ : Z
}.

#[export] Instance eta_capture_client : Eta capture_client := λ x,
  Build_capture_client (engine_ x) (hasEngine_ x) (completedTransfers_ x) (transportErrors_ x) (lastError_ x)
    (readsOver50ms_ x) (maxReadMicros_ x).

Section capture.
Context `{IOReturns}.

Definition AudioInputReader_new (engine : AudioInputEngine) : reader capture_client := {|
  attached := false; read_slots := replicate kCaptureSlots idle_slot; rd_runLoop := 0; rd_running := false;
  eventsAcquired := false; nextSubmitSequence := 0; nextProcessSequence := 0;
  client := {| engine_ := engine; hasEngine_ := false; completedTransfers_ := 0; transportErrors_ := 0;
               lastError_ := kIOReturnSuccess; readsOver50ms_ := 0; maxReadMicros_ := 0 |} |}.

(** The latency bookkeeping of [didComplete]. *)
Definition capture_latency (r : result) (x : capture_client) : capture_client :=
  x <| readsOver50ms_ ::= λ n, if rs_micros r >? 50000 then n +₆₄ 1 else n |>
    <| maxReadMicros_ ::= λ m, if rs_micros r >? m then rs_micros r else m |>.

Definition capture_error (status : Z) (x : capture_client) : capture_client :=
  x <| transportErrors_ ::= λ n, n +₆₄ 1 |> <| lastError_ := status |>.

(** What [drainCompletions] does with a completed read. *)
Definition capture_feed (r : result) (x : capture_client) : capture_client :=
  if rs_status r =? kIOReturnSuccess then
    let x := x <| completedTransfers_ ::= λ n, n +₆₄ 1 |> in
    if hasEngine_ x
    then x <| engine_ ::= λ e, (AudioInputEngine_publishUSBBlock (Some (rs_data r)) (rs_bytes r) e).2 |>
    else x
  else capture_error (rs_status r) x.

Definition capture_goes_on (r : result) : M usb bool :=
  if rs_status r =? kIOReturnSuccess then mret true
  else
    let present := negb (rs_status r =? kIOReturnNoDevice) in
    if rs_status r =? kIOUSBPipeStalled then
      s ← gets ses;
      if auxiliaryInterface_ s =? 0 then mret false
      else (cleared ← zoom io call_status; mret (present && (cleared =? kIOReturnSuccess)))
    else mret present.

Definition AudioInputReader_releaseBuffers : M (read_ctx capture_client) Z :=
  c ← gets id;
  _ ← for_each (seqZ 0 (Z.of_nat kCaptureSlots)) (λ i,
    let h := rs_buffer (rd (read_slots (rdr c)) i) in
    (if h =? 0 then mret () else zoom rdev (zoom io (release (Buffer h))));;
    modify_slot i (λ s, s <| rs_buffer := 0 |>);;
    mret (None : option ()));
  mret kIOReturnSuccess.

(** The reader lets go of the session, the engine and the run loop. *)
Definition detach : M (read_ctx capture_client) () :=
  modify_client (λ x, x <| hasEngine_ := false |>);;
  modify_reader (λ r, r <| attached := false |>).

Definition release_run_loop : M (read_ctx capture_client) () :=
  c ← gets id;
  (if rd_runLoop (rdr c) =? 0 then mret ()
   else zoom rdev (zoom io (release (RunLoop (rd_runLoop (rdr c))))));;
  modify_reader (λ r, r <| rd_runLoop := 0 |>).

Definition clear_completed : M (read_ctx capture_client) () :=
  modify_reader (λ r, r <| read_slots ::= map (λ s, s <| rs_completed := false |>) |>).

Definition AudioInputReader_stop (rounds : list (list (Z * result))) : M (read_ctx capture_client) Z :=
  c ← gets id;
  if negb (attached (rdr c)) then mret kIOReturnSuccess
  else
    modify_reader (λ r, r <| rd_running := false |>);;
    let waits := negb (inFlightCount (rdr c) =? 0) && negb (auxiliaryInterface_ (ses (rdev c)) =? 0) in
    result ← (if waits
              then (aborted ← zoom rdev (zoom io call_status);
                    drain_reads auxiliaryInterface_ capture_latency capture_feed capture_goes_on capture_error rounds;;
                    mret aborted)
              else mret kIOReturnSuccess);
    c ← gets id;
    if waits && negb (inFlightCount (rdr c) =? 0) then mret kIOReturnTimeout
    else
      clear_completed;;
      result ← (if eventsAcquired (rdr c)
                then (released ← zoom rdev (NS6DeviceSession_releaseAuxiliaryEvents (rd_runLoop (rdr c)));
                      modify_reader (λ r, r <| eventsAcquired := false |>);;
                      mret (if result =? kIOReturnSuccess then released else result))
                else mret result);
      released ← AudioInputReader_releaseBuffers;
      detach;;
      release_run_loop;;
      mret (if result =? kIOReturnSuccess then released else result).

(** The early returns of [start] once it holds the run loop. *)
Definition abandon_capture (result : Z) : M (read_ctx capture_client) Z :=
  _ ← AudioInputReader_releaseBuffers;
  release_run_loop;;
  detach;;
  mret result.

(** [malloc] for each slot; a code is a failure. *)
Definition allocate_slots : M (read_ctx capture_client) (option Z) :=
  for_each (seqZ 0 (Z.of_nat kCaptureSlots)) (λ i,
    '(_, h) ← zoom rdev (zoom io (create Buffer));
    modify_slot i (λ s, s <| rs_buffer := h |>);;
    mret (if h =? 0 then Some kIOReturnNoMemory else None)).

(** [current] is the current run loop; [rounds] is what a stop after a failed submission delivers. *)
Definition AudioInputReader_start (current : Z) (engine : AudioInputEngine) (rounds : list (list (Z * result)))
    : M (read_ctx capture_client) Z :=
  c ← gets id;
  let s := ses (rdev c) in
  if rd_running (rdr c) || negb (inFlightCount (rdr c) =? 0) || (auxiliaryInterface_ s =? 0) ||
     (audioInPipe_ s =? 0) || (auxiliaryAsyncEventSource_ s =? 0)
  then mret kIOReturnNotReady
  else
    modify_reader (λ r, r <| attached := true |> <| rd_runLoop := current |>);;
    modify_client (λ x, x <| engine_ := engine |> <| hasEngine_ := true |>);;
    if current =? 0 then (detach;; mret kIOReturnNotReady)
    else
      zoom rdev (zoom io (acquire (RunLoop current)));;
      modify_reader (λ r, r <| nextSubmitSequence := 0 |> <| nextProcessSequence := 0 |>);;
      failed ← allocate_slots;
      match failed with
      | Some result => abandon_capture result
      | None =>
          result ← zoom rdev (NS6DeviceSession_acquireAuxiliaryEvents current);
          if negb (result =? kIOReturnSuccess) then abandon_capture result
          else
            modify_reader (λ r, r <| eventsAcquired := true |>);;
            result ← zoom rdev (zoom io call_status);
            if negb (result =? kIOReturnSuccess)
            then (_ ← zoom rdev (NS6DeviceSession_releaseAuxiliaryEvents current);
                  modify_reader (λ r, r <| eventsAcquired := false |>);;
                  abandon_capture result)
            else
              modify_reader (λ r, r <| rd_running := true |>);;
              failed ← submit_slots auxiliaryInterface_;
              match failed with
              | Some result =>
                  (modify_client (capture_error result);; _ ← AudioInputReader_stop rounds; mret result)
              | None => mret kIOReturnSuccess
              end
      end.

End capture.

(** ** The MIDI reader *)

Definition kMIDISlots : nat := 4.

(** [published_] is what the sink was given, in order. *)
Record midi_client := {
  parser_ : MIDIInputParser;
  hasSink_ : bool;
  published_ : list (list Z);
  reports_ : Z;
  publishedBatches_ : Z;
  transferErrors_ : Z;
  nonzeroTerminators_ : Z;
  midiLastError_ : Z
}.

#[export] Instance eta_midi_client : Eta midi_client := λ x,
  Build_midi_client (parser_ x) (hasSink_ x) (published_ x) (reports_ x) (publishedBatches_ x) (transferErrors_ x)
    (nonzeroTerminators_ x) (midiLastError_ x).

Section midi.
Context `{IOReturns}.

Definition MIDIInputReader_new : reader midi_client := {|
  attached := false; read_slots := replicate kMIDISlots idle_slot; rd_runLoop := 0; rd_running := false;
  eventsAcquired := false; nextSubmitSequence := 0; nextProcessSequence := 0;
  client := {| parser_ := MIDIInputParser_new; hasSink_ := false; published_ := []; reports_ := 0;
               publishedBatches_ := 0; transferErrors_ := 0; nonzeroTerminators_ := 0;
               midiLastError_ := kIOReturnSuccess |} |}.

Definition midi_error (status : Z) (x : midi_client) : midi_client :=
  x <| transferErrors_ ::= λ n, n +₆₄ 1 |> <| midiLastError_ := status |>.

Definition is_whole (r : result) : bool := (rs_status r =? kIOReturnSuccess) && (rs_bytes r =? kMIDIReportBytes).

Definition midi_feed (r : result) (x : midi_client) : midi_client :=
  if is_whole r then
    let '(messages, parser) := MIDIInputParser_feedReport (Some (rs_data r)) (rs_bytes r) (parser_ x) in
    let x := x <| parser_ := parser |> <| reports_ ::= λ n, n +₆₄ 1 |>
               <| nonzeroTerminators_ ::= λ n,
                    if rd (rs_data r) kReportPayloadBytes =? 0 then n else n +₆₄ 1 |> in
    if negb (Z.of_nat (length messages) =? 0) && hasSink_ x
    then x <| publishedBatches_ ::= λ n, n +₆₄ 1 |> <| published_ ::= λ l, l ++ [messages] |>
    else x
  else midi_error (if rs_status r =? kIOReturnSuccess then kIOReturnUnderrun else rs_status r) x.

Definition midi_goes_on (r : result) : M usb bool := mret (is_whole r).

Definition midi_complete (_ : result) (x : midi_client) : midi_client := x.

Definition midi_detach : M (read_ctx midi_client) () :=
  modify_client (λ x, x <| hasSink_ := false |>);;
  modify_reader (λ r, r <| attached := false |>).

Definition midi_release_run_loop : M (read_ctx midi_client) () :=
  c ← gets id;
  (if rd_runLoop (rdr c) =? 0 then mret ()
   else zoom rdev (zoom io (release (RunLoop (rd_runLoop (rdr c))))));;
  modify_reader (λ r, r <| rd_runLoop := 0 |>).

Definition MIDIInputReader_stop (rounds : list (list (Z * result))) : M (read_ctx midi_client) Z :=
  c ← gets id;
  if negb (attached (rdr c)) then mret kIOReturnSuccess
  else
    modify_reader (λ r, r <| rd_running := false |>);;
    let waits := negb (inFlightCount (rdr c) =? 0) && negb (interface_ (ses (rdev c)) =? 0) in
    result ← (if waits
              then (aborted ← zoom rdev (zoom io call_status);
                    drain_reads interface_ midi_complete midi_feed midi_goes_on midi_error rounds;;
                    mret aborted)
              else mret kIOReturnSuccess);
    c ← gets id;
    if waits && negb (inFlightCount (rdr c) =? 0) then mret kIOReturnTimeout
    else
      modify_reader (λ r, r <| read_slots ::= map (λ s, s <| rs_completed := false |>) |>);;
      result ← (if eventsAcquired (rdr c)
                then (released ← zoom rdev (NS6DeviceSession_releaseEvents (rd_runLoop (rdr c)));
                      modify_reader (λ r, r <| eventsAcquired := false |>);;
                      mret (if result =? kIOReturnSuccess then released else result))
                else mret result);
      midi_detach;;
      midi_release_run_loop;;
      mret result.

(** Resetting parser, sequence numbers and statistics. *)
Definition midi_reset : M (read_ctx midi_client) () :=
  modify_reader (λ r, r <| nextSubmitSequence := 0 |> <| nextProcessSequence := 0 |>);;
  modify_client (λ x, x <| parser_ := MIDIInputParser_new |> <| reports_ := 0 |> <| publishedBatches_ := 0 |>
    <| transferErrors_ := 0 |> <| nonzeroTerminators_ := 0 |> <| midiLastError_ := kIOReturnSuccess |>).

Definition MIDIInputReader_start (current : Z) (rounds : list (list (Z * result))) : M (read_ctx midi_client) Z :=
  c ← gets id;
  let s := ses (rdev c) in
  if rd_running (rdr c) || negb (inFlightCount (rdr c) =? 0) || (interface_ s =? 0) ||
     (midiInPipe_ s =? 0) || (asyncEventSource_ s =? 0)
  then mret kIOReturnNotReady
  else
    modify_reader (λ r, r <| attached := true |> <| rd_runLoop := current |>);;
    modify_client (λ x, x <| hasSink_ := true |>);;
    if current =? 0 then (midi_detach;; mret kIOReturnNotReady)
    else
      zoom rdev (zoom io (acquire (RunLoop current)));;
      midi_reset;;
      result ← zoom rdev (NS6DeviceSession_acquireEvents current);
      if negb (result =? kIOReturnSuccess) then (midi_release_run_loop;; midi_detach;; mret result)
      else
        modify_reader (λ r, r <| eventsAcquired := true |>);;
        result ← zoom rdev (zoom io call_status);
        if negb (result =? kIOReturnSuccess)
        then (_ ← zoom rdev (NS6DeviceSession_releaseEvents current);
              modify_reader (λ r, r <| eventsAcquired := false |>);;
              midi_release_run_loop;; midi_detach;; mret result)
        else
          modify_reader (λ r, r <| rd_running := true |>);;
          failed ← submit_slots interface_;
          match failed with
          | Some result => (modify_client (midi_error result);; _ ← MIDIInputReader_stop rounds; mret result)
          | None => mret kIOReturnSuccess
          end.

(** A reader that stopped by itself and was not stopped by its owner. *)
Definition MIDIInputReader_needsRecovery (r : reader midi_client) : bool := attached r && negb (rd_running r).

End midi.
