(* ===== verification/ReadersTheory.v ===== *)
(** * Captured blocks and MIDI reports are processed in order *)

From stdpp Require Import base list numbers tactics.
From Stdlib Require Import ZArith Lia ZifyBool.
From S2P Require Import Prelude IoKit UsbSession UsbSessionTheory SequencedReads SequencedTheory.
From S2P Require Import InputEngine MidiInput Readers.

(** A call of the session or of the system leaves the reader alone. *)
Lemma wp_elsewhere {X A} (m : M usb A) (Q : A → read_ctx X → Prop) c :
  (∀ a u, Q a (c <| rdev := u |>)) → wp (zoom rdev m) Q c.
Proof. intros HQ. apply wp_zoom. unfold wp. destruct (m (rdev c)). apply HQ. Qed.

Lemma wp_any {S A B} (m : M S A) (f : A → M S B) Q s : (∀ a s', wp (f a) Q s') → wp (m ≫= f) Q s.
Proof. intros HQ. apply wp_bind. unfold wp at 1. destruct (m s). apply HQ. Qed.

(** Slots that are ready to be submitted. *)
Definition fresh_slots {X} (n : nat) (r : reader X) : Prop :=
  length (read_slots r) = n ∧ Forall idle (read_slots r).

Lemma fresh_idle_from {X} n (r : reader X) : fresh_slots n r → idle_from 0 r.
Proof.
  intros [Hl Hi] i Hb. apply (proj1 (Forall_lookup _ _) Hi (Z.to_nat i)), list_lookup_lookup_total_lt. lia.
Qed.

Section capture.
Context {codes : IOReturns} {laws : IOReturnsLaws}.

(** What the engine has seen. *)
Definition capture_view (x : capture_client) : AudioInputEngine * bool := (engine_ x, hasEngine_ x).

Definition publish_result (r : result) (e : AudioInputEngine) : AudioInputEngine :=
  if rs_status r =? kIOReturnSuccess
  then (AudioInputEngine_publishUSBBlock (Some (rs_data r)) (rs_bytes r) e).2 else e.

Definition capture_step_view (r : result) (v : AudioInputEngine * bool) : AudioInputEngine * bool :=
  (if v.2 then publish_result r v.1 else v.1, v.2).

Lemma capture_view_feed r x : capture_view (capture_feed r x) = capture_step_view r (capture_view x).
Proof.
  unfold capture_feed, capture_step_view, publish_result, capture_view. destruct (rs_status r =? kIOReturnSuccess).
  - cbn [set_field hasEngine_]. by destruct (hasEngine_ x) eqn:E; cbn; rewrite E.
  - cbn. by destruct (hasEngine_ x).
Qed.

Notation capture_events := (run_events auxiliaryInterface_ capture_latency capture_feed capture_goes_on capture_error).

(** Slots with other buffers. *)
Lemma fresh_buffer n i h (r : reader capture_client) :
  fresh_slots n r → fresh_slots n (r <| read_slots ::= λ l, wr l i ((rd l i) <| rs_buffer := h |>) |>).
Proof.
  intros [Hl Hi]. split; cbn [set_field read_slots]; [by rewrite length_wr|]. apply Forall_wr; [done|].
  destruct (decide (Z.to_nat i < n)%nat) as [Hd|Hd].
  - destruct (proj1 (Forall_lookup _ _) Hi (Z.to_nat i) (rd (read_slots r) i)) as [? ?]; [|done].
    apply list_lookup_lookup_total_lt. lia.
  - unfold rd. rewrite list_lookup_total_alt, lookup_ge_None_2 by lia. done.
Qed.

Lemma allocate_slots_wp (Q : option Z → read_ctx capture_client → Prop) c :
  fresh_slots 8 (rdr c) →
  (∀ s c', fresh_slots 8 (rdr c') → nextSubmitSequence (rdr c') = nextSubmitSequence (rdr c) →
     nextProcessSequence (rdr c') = nextProcessSequence (rdr c) → client (rdr c') = client (rdr c) →
     s ≠ Some kIOReturnSuccess → Q s c') →
  wp allocate_slots Q c.
Proof.
  intros Hf HQ. unfold allocate_slots.
  apply (wp_for_each (λ _ c', fresh_slots 8 (rdr c') ∧ nextSubmitSequence (rdr c') = nextSubmitSequence (rdr c) ∧
    nextProcessSequence (rdr c') = nextProcessSequence (rdr c) ∧ client (rdr c') = client (rdr c))); [done| |].
  - intros i _ c1 (H1 & H2 & H3 & H4). wp_step. apply wp_elsewhere. intros [s h] u. cbv beta.
    unfold modify_slot, modify_reader. do 3 wp_step. pose proof (fresh_buffer 8 i h _ H1) as H5.
    case_match eqn:E; [|done]. apply HQ; [done..|]. case_match; [|done]. intros [= E']. destruct no_memory_fails. congruence.
  - intros c1 (H1 & H2 & H3 & H4). by apply HQ.
Qed.

Lemma abandon_capture_wp result c : wp (abandon_capture result) (λ r _, r = result) c.
Proof. unfold abandon_capture. do 3 (apply wp_any; intros ? ?). by wp_step. Qed.

Lemma capture_start_wp current engine rounds c (Q : Z → read_ctx capture_client → Prop) :
  fresh_slots 8 (rdr c) →
  (∀ r c', (r = kIOReturnSuccess → seq_inv capture_view capture_step_view 8 (engine, true) [] (rdr c') ∧
     drained (rdr c') ∧ gap (rdr c') = 8) → Q r c') →
  wp (AudioInputReader_start current engine rounds) Q c.
Proof.
  intros Hf HQ. assert (∀ r c', r ≠ kIOReturnSuccess → Q r c') as Hfail by (intros; apply HQ; done).
  unfold AudioInputReader_start, modify_client, modify_reader. do 2 wp_step. unfold id. cbv zeta.
  wp_step; cbv beta; [wp_step; apply Hfail, not_ready_fails|]. do 4 wp_step. wp_step; cbv beta.
  { apply wp_any. intros _ c1. wp_step. apply Hfail, not_ready_fails. }
  wp_step. apply wp_elsewhere. intros [] u. do 3 wp_step. eapply allocate_slots_wp; [exact Hf|].
  intros failed c1 Hf1 N1 P1 C1 Hs. cbn in N1, P1, C1. destruct failed as [s|].
  { eapply wp_mono; [apply abandon_capture_wp|]. intros r c2 ->. apply Hfail. congruence. }
  wp_step. apply wp_elsewhere. intros r u1. wp_step; cbv beta.
  { eapply wp_mono; [apply abandon_capture_wp|]. intros r' c2 ->. apply Hfail. lia. }
  do 3 wp_step. apply wp_elsewhere. intros r2 u2. wp_step; cbv beta.
  { do 2 (apply wp_any; intros ? ?). eapply wp_mono; [apply abandon_capture_wp|]. intros r' c2 ->. apply Hfail. lia. }
  do 3 wp_step. match goal with |- wp _ _ ?x => set (c2 := x) end.
  destruct (idle_seq_inv capture_view capture_step_view 8 (engine, true) (rdr c2)) as (H2 & D2 & G2);
    [apply Hf1|apply Hf1|done|done|unfold capture_view; subst c2; cbn; by rewrite C1|].
  eapply (submit_slots_wp auxiliaryInterface_ capture_view capture_step_view); [exact H2|exact D2|exact G2| |done|].
  { by apply (fresh_idle_from 8). }
  intros failed c3 H3 D3 S3 G3 Hs3. destruct failed as [s|].
  - do 2 (apply wp_any; intros ? ?). wp_step. apply Hfail. congruence.
  - wp_step. apply HQ. intros _. split; [done|]. split; [done|]. by apply G3.
Qed.

(** C9: whatever order the system completes the capture reads in, and whatever happens to the
    session in between: after a successful start the engine has been given exactly the blocks of the
    reads in the order they were submitted, without gap and each once, up to the first one that has not
    completed; the others wait, and while the reader runs all eight reads are in flight or waiting. *)
Theorem capture_in_order engine u current rounds evs :
  let '(r, c) := AudioInputReader_start current engine rounds {| rdr := AudioInputReader_new engine; rdev := u |} in
  r = kIOReturnSuccess → Z.of_nat (length evs) < 2 ^ 62 →
  let '(log, c') := capture_events evs c in
  ∃ processed waiting, log ≡ₚ processed ++ waiting ∧ processed.*1 = seqZ 0 (Z.of_nat (length processed)) ∧
    Forall (λ k, Z.of_nat (length processed) < k.1) waiting ∧
    engine_ (client (rdr c')) = foldl (λ e r, publish_result r e) engine processed.*2 ∧
    (rd_running (rdr c') = true → inFlightCount (rdr c') + Z.of_nat (length waiting) = 8).
Proof.
  set (c0 := {| rdr := _; rdev := u |}).
  pose proof (capture_start_wp current engine rounds c0 (λ r c', r = kIOReturnSuccess →
    seq_inv capture_view capture_step_view 8 (engine, true) [] (rdr c') ∧ drained (rdr c') ∧ gap (rdr c') = 8)) as H.
  unfold wp in H. destruct (AudioInputReader_start current engine rounds c0) as [r c]. intros Er Hl.
  destruct H as (H1 & D1 & G1); [split; [done|by apply Forall_replicate]|intros ? ? HQ; exact HQ|done|].
  pose proof (run_events_inv auxiliaryInterface_ capture_latency capture_feed capture_goes_on capture_error
    capture_view capture_step_view ltac:(done) ltac:(done) capture_view_feed evs 8 (engine, true) [] c H1 D1) as H.
  specialize (H ltac:(cbn [length]; change (2 ^ 62) with 4611686018427387904 in Hl; unfold UINT64_MAX; lia)).
  destruct (capture_events evs c) as [log c']. destruct H as (H2 & D2 & _ & G2). cbn [app] in H2.
  destruct (seq_inv_in_order _ _ _ _ _ _ H2 D2) as (processed & waiting & E1 & E2 & E3 & E4 & E5).
  exists processed, waiting. split; [done|]. split; [done|]. split; [done|]. split.
  - apply (f_equal fst) in E4. cbn in E4. rewrite E4. generalize processed.*2. clear. intros l. revert engine.
    induction l as [|r l IH]; intros engine; [done|]. cbn [foldl capture_step_view fst snd]. apply IH.
  - intros Hr. specialize (G2 Hr). lia.
Qed.
End capture.

(** ** MIDI *)

Section midi.
Context {codes : IOReturns} {laws : IOReturnsLaws}.

Definition midi_view (x : midi_client) : MIDIInputParser * list (list Z) * bool :=
  (parser_ x, published_ x, hasSink_ x).

Definition midi_step_view (r : result) (v : MIDIInputParser * list (list Z) * bool)
    : MIDIInputParser * list (list Z) * bool :=
  if is_whole r then
    let '(messages, parser) := MIDIInputParser_feedReport (Some (rs_data r)) (rs_bytes r) v.1.1 in
    (parser, if negb (Z.of_nat (length messages) =? 0) && v.2 then v.1.2 ++ [messages] else v.1.2, v.2)
  else v.

Lemma midi_view_feed r x : midi_view (midi_feed r x) = midi_step_view r (midi_view x).
Proof.
  unfold midi_feed, midi_step_view, midi_view. destruct (is_whole r); [|done]. cbn [fst snd].
  destruct (MIDIInputParser_feedReport _ _ _) as [ms p]. cbn [set_field hasSink_]. by destruct (_ && _).
Qed.

Notation midi_events := (run_events interface_ midi_complete midi_feed midi_goes_on midi_error).

Lemma midi_start_wp current rounds c (Q : Z → read_ctx midi_client → Prop) :
  fresh_slots 4 (rdr c) → published_ (client (rdr c)) = [] →
  (∀ r c', (r = kIOReturnSuccess → seq_inv midi_view midi_step_view 4 (MIDIInputParser_new, [], true) [] (rdr c') ∧
     drained (rdr c') ∧ gap (rdr c') = 4) → Q r c') →
  wp (MIDIInputReader_start current rounds) Q c.
Proof.
  intros Hf Hp HQ. assert (∀ r c', r ≠ kIOReturnSuccess → Q r c') as Hfail by (intros; apply HQ; done).
  unfold MIDIInputReader_start, midi_reset, modify_client, modify_reader. do 2 wp_step. unfold id. cbv zeta.
  wp_step; cbv beta; [wp_step; apply Hfail, not_ready_fails|]. do 4 wp_step. wp_step; cbv beta.
  { apply wp_any. intros _ c1. wp_step. apply Hfail, not_ready_fails. }
  wp_step. apply wp_elsewhere. intros [] u. do 5 wp_step. apply wp_elsewhere. intros r u1. wp_step; cbv beta.
  { do 2 (apply wp_any; intros ? ?). wp_step. apply Hfail. lia. }
  do 3 wp_step. apply wp_elsewhere. intros r2 u2. wp_step; cbv beta.
  { do 4 (apply wp_any; intros ? ?). wp_step. apply Hfail. lia. }
  do 3 wp_step. match goal with |- wp _ _ ?x => set (c2 := x) end.
  destruct (idle_seq_inv midi_view midi_step_view 4 (MIDIInputParser_new, [], true) (rdr c2)) as (H2 & D2 & G2);
    [apply Hf|apply Hf|done|done|unfold midi_view; subst c2; cbn; by rewrite Hp|].
  eapply (submit_slots_wp interface_ midi_view midi_step_view); [exact H2|exact D2|exact G2| |done|].
  { by apply (fresh_idle_from 4). }
  intros failed c3 H3 D3 S3 G3 Hs3. destruct failed as [s|].
  - do 2 (apply wp_any; intros ? ?). wp_step. apply Hfail. congruence.
  - wp_step. apply HQ. intros _. split; [done|]. split; [done|]. by apply G3.
Qed.

(** The whole reports of completed reads. *)
Definition whole_reports (rs : list result) : list (list Z) := rs_data <$> filter (λ r, is_whole r = true) rs.

Lemma midi_fold rs p l :
  Forall (λ r, is_whole r = true → is_report (rs_data r)) rs →
  let v := foldl (λ v k, midi_step_view k v) (p, l, true) rs in
  v.1.1 = (feed_reports (whole_reports rs) p).2 ∧ concat v.1.2 = concat l ++ concat (feed_reports (whole_reports rs) p).1.
Proof.
  unfold whole_reports. intros Hw. revert p l. induction Hw as [|r rs Hr _ IH]; intros p l.
  { cbn. by rewrite app_nil_r. }
  cbn [foldl]. rewrite filter_cons. unfold midi_step_view at 2 4. destruct (is_whole r) eqn:E.
  - rewrite decide_True by done. cbn [fmap list_fmap feed_reports fst snd]. destruct (Hr eq_refl) as [Hl _].
    assert (rs_bytes r = Z.of_nat (length (rs_data r))) as ->.
    { unfold is_whole in E. rewrite Hl. unfold kMIDIReportBytes in *. lia. }
    destruct (MIDIInputParser_feedReport _ _ p) as [ms p1]. cbn [fst snd].
    match goal with |- context [foldl _ (p1, ?x, true) rs] => specialize (IH p1 x) end. cbv zeta in IH |- *.
    destruct IH as [-> ->]. destruct (feed_reports _ p1) as [outs p2]. cbn [fst snd concat]. split; [done|].
    destruct ms as [|m ms]; cbn [length andb negb Z.eqb]; [done|].
    replace (negb (Z.of_nat (S (length ms)) =? 0)) with true by lia. cbn [andb].
    rewrite concat_app. cbn [concat]. by rewrite app_nil_r, <- app_assoc.
  - rewrite decide_False by congruence. apply IH.
Qed.

Definition honest (ev : read_event) : Prop :=
  match ev with Completion _ r => is_whole r = true → is_report (rs_data r) | Elsewhere _ => True end.

Lemma log_honest evs c :
  Forall honest evs → Forall (λ k, is_whole k.2 = true → is_report (rs_data k.2)) (midi_events evs c).1.
Proof.
  intros H. revert c. induction H as [|[i r|f] evs Hh _ IH]; intros c; cbn [run_events]; [done| |apply IH].
  specialize (IH (deliver_read interface_ midi_complete midi_feed midi_goes_on midi_error (i, r) c).2).
  destruct (run_events _ _ _ _ _ evs _) as [log c']. apply Forall_app. split; [|done].
  case_match; [|constructor]. constructor; [exact Hh|constructor].
Qed.

(** C10: after a successful start, whatever order the system completes the reads in, the bytes given
    to the sink are exactly the channel messages of the byte stream of the reports in the order they
    were read, up to the first read that has not completed or an incomplete message. *)
Theorem midi_in_order u current rounds evs :
  let '(r, c) := MIDIInputReader_start current rounds {| rdr := MIDIInputReader_new; rdev := u |} in
  r = kIOReturnSuccess → Z.of_nat (length evs) < 2 ^ 62 → Forall honest evs →
  let '(log, c') := midi_events evs c in
  ∃ processed waiting, log ≡ₚ processed ++ waiting ∧ processed.*1 = seqZ 0 (Z.of_nat (length processed)) ∧
    Forall (λ k, Z.of_nat (length processed) < k.1) waiting ∧
    concat (published_ (client (rdr c'))) =
      concat (messages (concat (map report_payload (whole_reports processed.*2)))) ∧
    (rd_running (rdr c') = true → inFlightCount (rdr c') + Z.of_nat (length waiting) = 4).
Proof.
  set (c0 := {| rdr := _; rdev := u |}).
  pose proof (midi_start_wp current rounds c0 (λ r c', r = kIOReturnSuccess →
    seq_inv midi_view midi_step_view 4 (MIDIInputParser_new, [], true) [] (rdr c') ∧ drained (rdr c') ∧ gap (rdr c') = 4))
    as H.
  unfold wp in H. destruct (MIDIInputReader_start current rounds c0) as [r c]. intros Er Hl Hh.
  destruct H as (H1 & D1 & G1); [split; [done|by apply Forall_replicate]|done|intros ? ? HQ; exact HQ|done|].
  pose proof (run_events_inv interface_ midi_complete midi_feed midi_goes_on midi_error
    midi_view midi_step_view ltac:(done) ltac:(done) midi_view_feed evs 4 (MIDIInputParser_new, [], true) [] c H1 D1) as H.
  specialize (H ltac:(cbn [length]; change (2 ^ 62) with 4611686018427387904 in Hl; unfold UINT64_MAX; lia)).
  pose proof (log_honest evs c Hh) as Hhl.
  destruct (midi_events evs c) as [log c']. destruct H as (H2 & D2 & _ & G2). cbn [app fst] in H2, Hhl.
  destruct (seq_inv_in_order _ _ _ _ _ _ H2 D2) as (processed & waiting & E1 & E2 & E3 & E4 & E5).
  exists processed, waiting. split; [done|]. split; [done|]. split; [done|]. split; [|intros Hr; specialize (G2 Hr); lia].
  rewrite E1 in Hhl. apply Forall_app in Hhl as [Hp _].
  assert (Forall (λ r, is_whole r = true → is_report (rs_data r)) processed.*2) as Hp2 by by apply Forall_fmap.
  destruct (midi_fold processed.*2 MIDIInputParser_new [] Hp2) as [_ Ef]. rewrite <- E4 in Ef. cbn in Ef. rewrite Ef.
  pose proof (feed_reports_spec (whole_reports processed.*2) MIDIInputParser_new [] ltac:(by split; [|left])) as Hs.
  destruct (feed_reports (whole_reports processed.*2) MIDIInputParser_new) as [outs p'].
  destruct Hs as (mss & pend & Hc & -> & _ & _ & Hm).
  { unfold whole_reports. apply Forall_fmap, list.Forall_forall. intros x [Hx Hin]%list_elem_of_filter. cbn.
    rewrite list.Forall_forall in Hp2. by apply Hp2. }
  specialize (Hm []). rewrite !app_nil_r in Hm. cbn [app] in Hm. rewrite Hm, (pending_incomplete _ _ Hc), app_nil_r.
  cbn [fst]. clear. induction mss as [|x mss IH]; [done|]. cbn. by rewrite IH, concat_app.
Qed.
End midi.

(** ** Examples *)

Definition opened_usb : usb := (@NS6DeviceSession_open iokit_returns usb_constants ns6_usb).2.

(** A read that completed with these bytes. *)
Definition read_of (data : list Z) : result :=
  {| rs_status := 0; rs_bytes := Z.of_nat (length data); rs_data := data; rs_micros := 100 |}.

Definition quiet_engine : AudioInputEngine :=
  {| in_ring := OutRing.Build_AudioOutputRing 4 2 (replicate 8 (SpecFloat.S754_zero false)) 0 0 (SpecFloat.S754_zero false);
     decoded_ := replicate 8 (SpecFloat.S754_zero false); maxTransferFrames_ := 4; targetFrames_ := 0; primed_ := false;
     lastDecoded_ := zero_pair; hasLastDecoded_ := false; anomalousBlock_ := []; anomalousBytes_ := 0;
     anomalousPrevious_ := zero_pair; anomalyCaptured_ := false; anomalySaved_ := false; droppedCaptureFrames_ := 0;
     starvationFrames_ := 0; malformedBlocks_ := 0; decodedNonZeroSamples_ := 0; unexpectedUSBBytes_ := 0;
     largeSampleJumps_ := 0 |}.

(** The second read completes first. *)
Definition swapped (a b : list Z) : list read_event := [Completion 1 (read_of b); Completion 0 (read_of a)].

Lemma capture_in_order_witness :
  let '(r, c) := @AudioInputReader_start iokit_returns 7 quiet_engine []
                   {| rdr := @AudioInputReader_new iokit_returns quiet_engine; rdev := opened_usb |} in
  r = 0 ∧
  let '(log, c') := @run_events iokit_returns _ auxiliaryInterface_ capture_latency (@capture_feed iokit_returns)
    (@capture_goes_on iokit_returns) capture_error (swapped (replicate 64 0) (replicate 64 1)) c in
  ∃ processed waiting, log ≡ₚ processed ++ waiting ∧
    engine_ (client (rdr c')) = foldl (λ e r, @publish_result iokit_returns r e) quiet_engine processed.*2.
Proof.
  pose proof (@capture_in_order iokit_returns iokit_returns_laws quiet_engine opened_usb 7 []
    (swapped (replicate 64 0) (replicate 64 1))) as H. revert H.
  assert ((@AudioInputReader_start iokit_returns 7 quiet_engine []
    {| rdr := @AudioInputReader_new iokit_returns quiet_engine; rdev := opened_usb |}).1 = 0) as Er
    by (vm_compute; reflexivity).
  destruct (AudioInputReader_start _ _ _ _) as [r c]. cbn [fst] in Er. intros H. split; [exact Er|].
  specialize (H Er eq_refl). revert H. destruct (run_events _ _ _ _ _ _ c) as [log c'].
  intros (processed & waiting & H1 & _ & _ & H2 & _). exists processed, waiting. split; [exact H1|exact H2].
Defined.

Definition note_on : list Z := [0x90; 60] ++ replicate 39 0xfd ++ [0].
Definition note_rest : list Z := [100] ++ replicate 40 0xfd ++ [0].

Lemma midi_in_order_witness :
  let '(r, c) := @MIDIInputReader_start iokit_returns 7 [] {| rdr := @MIDIInputReader_new iokit_returns; rdev := opened_usb |} in
  r = 0 ∧
  let '(log, c') := @run_events iokit_returns _ interface_ midi_complete (@midi_feed iokit_returns)
    (@midi_goes_on iokit_returns) midi_error (swapped note_on note_rest) c in
  ∃ processed waiting, log ≡ₚ processed ++ waiting ∧
    concat (published_ (client (rdr c'))) =
      concat (messages (concat (map report_payload (@whole_reports iokit_returns processed.*2)))).
Proof.
  pose proof (@midi_in_order iokit_returns iokit_returns_laws opened_usb 7 [] (swapped note_on note_rest)) as H. revert H.
  assert ((@MIDIInputReader_start iokit_returns 7 []
    {| rdr := @MIDIInputReader_new iokit_returns; rdev := opened_usb |}).1 = 0) as Er by (vm_compute; reflexivity).
  destruct (MIDIInputReader_start _ _ _) as [r c]. cbn [fst] in Er. intros H. split; [exact Er|].
  assert (Forall (@honest iokit_returns) (swapped note_on note_rest)) as Hh.
  { assert (is_report note_on ∧ is_report note_rest) as [H1 H2].
    { split; (split; [reflexivity|]); repeat (apply Forall_app; split);
        repeat first [apply Forall_replicate|apply list.Forall_nil; exact I|apply list.Forall_cons; split]; unfold is_u8; lia. }
    apply list.Forall_cons; split; [intros _; exact H2|]. apply list.Forall_cons; split; [intros _; exact H1|].
    apply list.Forall_nil. exact I. }
  specialize (H Er eq_refl Hh). revert H. destruct (run_events _ _ _ _ _ _ c) as [log c'].
  intros (processed & waiting & H1 & _ & _ & H2 & _). exists processed, waiting. split; [exact H1|exact H2].
Defined.
