(* ===== verification/Lifecycle.v ===== *)
(** * Clients of the CoreAudio devices (numark-ns6/coreaudio)

    Each device of the C++ driver counts the outstanding starts of its clients
    (AudioClientLifecycle.cpp) in an array of 64 slots and tells the driver when the first
    client starts and the last one stops (AudioDeviceLifecycle.cpp).  The array refines a
    finite map from client ids to counts.  The action of the keepalive
    (AudioKeepalivePolicy.hpp) is here as well. *)

From stdpp Require Import base list numbers tactics gmap sorting.
From Stdlib Require Import ZArith Lia ZifyBool.
From S2P Require Import Prelude.

(** ** AudioClientLifecycle *)

Record io_client := { io_id : Z; io_starts : Z }.

#[export] Instance eta_io_client : Eta io_client := λ c, Build_io_client (io_id c) (io_starts c).
Definition no_io_client : io_client := {| io_id := 0; io_starts := 0 |}.
#[export] Instance io_client_inhabited : Inhabited io_client := populate no_io_client.

Definition kClientCapacity : Z := 64.

Record AudioClientLifecycle := { clients_ : list io_client; activeStarts_ : Z }.

#[export] Instance eta_client_lifecycle : Eta AudioClientLifecycle := λ s,
  Build_AudioClientLifecycle (clients_ s) (activeStarts_ s).

Definition AudioClientLifecycle_new : AudioClientLifecycle :=
  {| clients_ := replicate (Z.to_nat kClientCapacity) no_io_client; activeStarts_ := 0 |}.

(** The loop of [start]: the slot of the client, or else the first free slot. *)
Fixpoint scan_clients (cs : list io_client) (i clientID : Z) (freeSlot : option Z) : Z + option Z :=
  match cs with
  | [] => inr freeSlot
  | c :: cs' =>
      if io_starts c =? 0 then
        scan_clients cs' (i + 1) clientID (match freeSlot with None => Some i | Some _ => freeSlot end)
      else if io_id c =? clientID then inl i
      else scan_clients cs' (i + 1) clientID freeSlot
  end.

Definition AudioClientLifecycle_start (clientID : Z) (s : AudioClientLifecycle) : bool * AudioClientLifecycle :=
  match scan_clients (clients_ s) 0 clientID None with
  | inl i =>
      let client := rd (clients_ s) i in
      if io_starts client =? UINT32_MAX then (false, s)
      else (true, s <| clients_ ::= λ l, wr l i (client <| io_starts ::= λ n, n +₃₂ 1 |>) |>
                    <| activeStarts_ ::= λ n, n +₆₄ 1 |>)
  | inr None => (false, s)
  | inr (Some i) =>
      (true, s <| clients_ ::= λ l, wr l i {| io_id := clientID; io_starts := 1 |} |>
               <| activeStarts_ ::= λ n, n +₆₄ 1 |>)
  end.

(** The loop of [stop] and of [removeClient]: the slot of the client with outstanding starts. *)
Fixpoint find_client (cs : list io_client) (i clientID : Z) : option Z :=
  match cs with
  | [] => None
  | c :: cs' =>
      if (io_starts c =? 0) || negb (io_id c =? clientID) then find_client cs' (i + 1) clientID else Some i
  end.

Definition AudioClientLifecycle_stop (clientID : Z) (s : AudioClientLifecycle) : bool * AudioClientLifecycle :=
  match find_client (clients_ s) 0 clientID with
  | None => (false, s)
  | Some i =>
      let client := (rd (clients_ s) i) <| io_starts ::= λ n, n -₃₂ 1 |> in
      let client := if io_starts client =? 0 then client <| io_id := 0 |> else client in
      (true, s <| clients_ ::= λ l, wr l i client |> <| activeStarts_ ::= λ n, n -₆₄ 1 |>)
  end.

Definition AudioClientLifecycle_removeClient (clientID : Z) (s : AudioClientLifecycle)
    : bool * AudioClientLifecycle :=
  match find_client (clients_ s) 0 clientID with
  | None => (false, s)
  | Some i =>
      (true, s <| activeStarts_ ::= λ n, n -₆₄ io_starts (rd (clients_ s) i) |>
               <| clients_ ::= λ l, wr l i no_io_client |>)
  end.

(** ** AudioDeviceLifecycle *)

Inductive AudioIOTransition :=
  | Rejected | FirstClientStarted | AdditionalClientStarted | ClientStoppedStillActive
  | LastClientStopped | ClientNotActive.

#[export] Instance transition_eq_dec : EqDecision AudioIOTransition.
Proof. solve_decision. Defined.

(** The device's operations run under its mutex, so each is one step on [clients_]. *)
Abbreviation AudioDeviceLifecycle := AudioClientLifecycle.

Definition AudioDeviceLifecycle_startIO (clientID : Z) (s : AudioDeviceLifecycle)
    : AudioIOTransition * AudioDeviceLifecycle :=
  let wasIdle := activeStarts_ s =? 0 in
  let '(started, s) := AudioClientLifecycle_start clientID s in
  if negb started then (Rejected, s)
  else (if wasIdle then FirstClientStarted else AdditionalClientStarted, s).

Definition AudioDeviceLifecycle_stopIO (clientID : Z) (s : AudioDeviceLifecycle)
    : AudioIOTransition * AudioDeviceLifecycle :=
  let '(stopped, s) := AudioClientLifecycle_stop clientID s in
  if negb stopped then (ClientNotActive, s)
  else (if activeStarts_ s =? 0 then LastClientStopped else ClientStoppedStillActive, s).

Definition AudioDeviceLifecycle_removeClient (clientID : Z) (s : AudioDeviceLifecycle)
    : AudioIOTransition * AudioDeviceLifecycle :=
  let '(removed, s) := AudioClientLifecycle_removeClient clientID s in
  if negb removed then (ClientNotActive, s)
  else (if activeStarts_ s =? 0 then LastClientStopped else ClientStoppedStillActive, s).

Definition AudioDeviceLifecycle_activeStarts (s : AudioDeviceLifecycle) : Z := activeStarts_ s.

(** ** The keepalive's action *)

Inductive AudioKeepaliveAction := KeepaliveNone | KeepaliveStart | KeepaliveStop.

Definition audioKeepaliveAction (activeDevice discoveredDevice : Z) (sameUSBGeneration : bool)
    : AudioKeepaliveAction :=
  if negb (activeDevice =? 0) && negb (activeDevice =? discoveredDevice) then KeepaliveStop
  else if negb (activeDevice =? 0) && negb sameUSBGeneration then KeepaliveStop
  else if (activeDevice =? 0) && negb (discoveredDevice =? 0) then KeepaliveStart
  else KeepaliveNone.

(** ** The abstract device: a map from clients to outstanding starts *)

Inductive lifecycle_op := StartIO (id : Z) | StopIO (id : Z) | RemoveClient (id : Z).

Definition lifecycle_step (op : lifecycle_op) (s : AudioDeviceLifecycle)
    : AudioIOTransition * AudioDeviceLifecycle :=
  match op with
  | StartIO id => AudioDeviceLifecycle_startIO id s
  | StopIO id => AudioDeviceLifecycle_stopIO id s
  | RemoveClient id => AudioDeviceLifecycle_removeClient id s
  end.

Definition starts_of (m : gmap Z Z) (id : Z) : Z := default 0 (m !! id).
Definition total_starts (m : gmap Z Z) : Z := foldr Z.add 0 (map_to_list m).*2.

Definition spec_start (id : Z) (m : gmap Z Z) : AudioIOTransition * gmap Z Z :=
  if match m !! id with Some n => n =? UINT32_MAX | None => Z.of_nat (size m) =? kClientCapacity end then (Rejected, m)
  else (if decide (m = ∅) then FirstClientStarted else AdditionalClientStarted,
        <[id := starts_of m id + 1]> m).

Definition spec_leave (id : Z) (m' : gmap Z Z) (m : gmap Z Z) : AudioIOTransition * gmap Z Z :=
  match m !! id with
  | None => (ClientNotActive, m)
  | Some _ => (if decide (m' = ∅) then LastClientStopped else ClientStoppedStillActive, m')
  end.

Definition spec_step (op : lifecycle_op) (m : gmap Z Z) : AudioIOTransition * gmap Z Z :=
  match op with
  | StartIO id => spec_start id m
  | StopIO id =>
      spec_leave id (if starts_of m id =? 1 then delete id m else <[id := starts_of m id - 1]> m) m
  | RemoveClient id => spec_leave id (delete id m) m
  end.

Fixpoint run_lifecycle {S} (step : lifecycle_op → S → AudioIOTransition * S) (ops : list lifecycle_op) (s : S)
    : list AudioIOTransition * S :=
  match ops with
  | [] => ([], s)
  | op :: ops' =>
      let '(t, s) := step op s in let '(ts, s) := run_lifecycle step ops' s in (t :: ts, s)
  end.

(** ** The array represents the map *)

Definition io_active (c : io_client) : Prop := io_starts c ≠ 0.
#[export] Instance io_active_dec c : Decision (io_active c).
Proof. unfold io_active. apply _. Defined.

Definition io_pair (c : io_client) : Z * Z := (io_id c, io_starts c).
Definition pairs (l : list io_client) : list (Z * Z) := map io_pair (filter io_active l).

Record represents (s : AudioDeviceLifecycle) (m : gmap Z Z) : Prop := {
  rep_length : length (clients_ s) = Z.to_nat kClientCapacity;
  rep_range : Forall (λ c, is_u32 (io_starts c)) (clients_ s);
  rep_pairs : map_to_list m ≡ₚ pairs (clients_ s);
  rep_active : activeStarts_ s = total_starts m
}.

Lemma pairs_app l1 l2 : pairs (l1 ++ l2) = pairs l1 ++ pairs l2.
Proof. unfold pairs. by rewrite filter_app, map_app. Qed.

Lemma pairs_active (c : io_client) l : io_starts c ≠ 0 → pairs (c :: l) = io_pair c :: pairs l.
Proof. intros. unfold pairs. by rewrite filter_cons_True. Qed.

Lemma pairs_idle (c : io_client) l : io_starts c = 0 → pairs (c :: l) = pairs l.
Proof. intros. unfold pairs. rewrite filter_cons_False; [done|]. unfold io_active. lia. Qed.

Lemma pairs_length l : (length (pairs l) <= length l)%nat.
Proof. unfold pairs. rewrite length_map. apply length_filter. Qed.

Lemma pairs_all l : Forall (λ c, io_starts c ≠ 0) l → length (pairs l) = length l.
Proof. induction 1 as [|c l Hc _ IH]; [done|]. rewrite pairs_active by done. cbn. by rewrite IH. Qed.

(** The slot of index [k] as a split of the list. *)
Definition slot_at (l : list io_client) (k : Z) (l1 : list io_client) (c : io_client) (l2 : list io_client) : Prop :=
  l = l1 ++ c :: l2 ∧ k = Z.of_nat (length l1).

Lemma slot_rd l k l1 c l2 : slot_at l k l1 c l2 → rd l k = c.
Proof. intros [-> ->]. unfold rd. rewrite Nat2Z.id. by rewrite list_lookup_total_middle. Qed.

Lemma slot_wr l k l1 c l2 c' : slot_at l k l1 c l2 → wr l k c' = l1 ++ c' :: l2.
Proof. intros [-> ->]. unfold wr. rewrite Nat2Z.id. by rewrite insert_app_r_alt, Nat.sub_diag by lia. Qed.

Definition absent (l : list io_client) (id : Z) : Prop := Forall (λ c, io_starts c ≠ 0 → io_id c ≠ id) l.

Lemma find_client_spec l id i :
  match find_client l i id with
  | Some k => ∃ l1 c l2, l = l1 ++ c :: l2 ∧ k = i + Z.of_nat (length l1) ∧ io_starts c ≠ 0 ∧ io_id c = id
  | None => absent l id
  end.
Proof.
  revert i. induction l as [|c l IH]; intros i; cbn [find_client]; [by constructor|]. case_if.
  - specialize (IH (i + 1)). destruct (find_client l (i + 1) id) as [k|].
    + destruct IH as (l1 & c' & l2 & -> & -> & ? & ?). exists (c :: l1), c', l2. cbn [length]. repeat split; auto; lia.
    + constructor; [lia|done].
  - exists [], c, l. cbn [length]. repeat split; auto; lia.
Qed.

Lemma scan_clients_spec l id i free :
  match scan_clients l i id free with
  | inl k => ∃ l1 c l2, l = l1 ++ c :: l2 ∧ k = i + Z.of_nat (length l1) ∧ io_starts c ≠ 0 ∧ io_id c = id
  | inr r => absent l id ∧
      match r with
      | None => free = None ∧ Forall (λ c, io_starts c ≠ 0) l
      | Some k => free = Some k ∨
          ∃ l1 c l2, l = l1 ++ c :: l2 ∧ k = i + Z.of_nat (length l1) ∧ io_starts c = 0
      end
  end.
Proof.
  revert i free. induction l as [|c l IH]; intros i free; cbn [scan_clients].
  { split; [constructor|]. destruct free; [by left|by split]. }
  case_if; [|case_if].
  - set (free' := match free with None => Some i | Some _ => free end). specialize (IH (i + 1) free').
    destruct (scan_clients l (i + 1) id free') as [k|r].
    + destruct IH as (l1 & c' & l2 & -> & -> & ? & ?). exists (c :: l1), c', l2. cbn [length]. repeat split; auto; lia.
    + destruct IH as [Ha IH]. split; [constructor; [lia|done]|]. destruct r as [k|].
      * destruct IH as [IH|(l1 & c' & l2 & -> & -> & ?)].
        -- subst free'. destruct free as [f|]; [by left|]. right. exists [], c, l. cbn [length].
           injection IH as <-. repeat split; lia.
        -- right. exists (c :: l1), c', l2. cbn [length]. repeat split; auto; lia.
      * subst free'. destruct free, IH; done.
  - exists [], c, l. cbn [length]. repeat split; auto; lia.
  - specialize (IH (i + 1) free). destruct (scan_clients l (i + 1) id free) as [k|r].
    + destruct IH as (l1 & c' & l2 & -> & -> & ? & ?). exists (c :: l1), c', l2. cbn [length]. repeat split; auto; lia.
    + destruct IH as [Ha IH]. split; [constructor; [lia|done]|]. destruct r as [k|].
      * destruct IH as [IH|(l1 & c' & l2 & -> & -> & ?)]; [by left|].
        right. exists (c :: l1), c', l2. cbn [length]. repeat split; auto; lia.
      * destruct IH. split; [done|]. constructor; [lia|done].
Qed.

(** ** Each operation refines its counterpart on the map *)

Lemma absent_lookup s m id : represents s m → absent (clients_ s) id → m !! id = None.
Proof.
  intros [_ _ Hp _] Ha. destruct (m !! id) as [n|] eqn:E; [|done]. exfalso.
  apply elem_of_map_to_list in E. rewrite Hp in E. unfold pairs in E.
  apply list_elem_of_fmap in E as (c & [= -> ->] & [Hc Hin]%list_elem_of_filter).
  unfold absent in Ha. rewrite list.Forall_forall in Ha. by apply (Ha c).
Qed.

#[export] Instance sum_perm : Proper ((≡ₚ) ==> (=)) (foldr Z.add 0).
Proof. intros l l'. induction 1; cbn; lia. Qed.

Lemma total_insert m id n : total_starts (<[id := n]> m) = total_starts (delete id m) + n.
Proof.
  unfold total_starts. rewrite <- insert_delete_eq.
  rewrite (map_to_list_insert (delete id m) id n) by apply lookup_delete_eq. cbn. lia.
Qed.

Lemma total_delete m id n : m !! id = Some n → total_starts m = total_starts (delete id m) + n.
Proof. intros H. rewrite <- (insert_id m id n) at 1 by done. apply total_insert. Qed.

(** The slot of a client holds its entry, and the other slots the other entries. *)
Lemma slot_entry s m l1 c l2 :
  represents s m → clients_ s = l1 ++ c :: l2 → io_starts c ≠ 0 →
  m !! io_id c = Some (io_starts c) ∧ map_to_list (delete (io_id c) m) ≡ₚ pairs (l1 ++ l2).
Proof.
  intros [_ _ Hp _] El Hc. rewrite El, pairs_app, pairs_active in Hp by done.
  assert (m !! io_id c = Some (io_starts c)) as E.
  { apply elem_of_map_to_list. rewrite Hp. set_solver. }
  split; [done|]. rewrite <- (map_to_list_delete m) in Hp by done. unfold io_pair in Hp.
  rewrite <- Permutation_middle in Hp. apply Permutation_cons_inv in Hp. by rewrite pairs_app.
Qed.

Lemma pairs_sum l :
  Forall (λ c, is_u32 (io_starts c)) l →
  0 <= foldr Z.add 0 (pairs l).*2 <= Z.of_nat (length l) * UINT32_MAX ∧
  (foldr Z.add 0 (pairs l).*2 = 0 → pairs l = []).
Proof.
  induction 1 as [|c l Hc _ [IH1 IH2]]; [split; [cbn; lia|done]|]. destruct (decide (io_starts c = 0)).
  - rewrite pairs_idle by done. cbn [length]. unfold UINT32_MAX in *. split; [lia|done].
  - rewrite pairs_active by done. cbn [length]. unfold is_u32, UINT32_MAX in *. cbn [fmap list_fmap foldr snd io_pair]. split; lia.
Qed.

Lemma rep_total s m : represents s m → 0 <= total_starts m <= 64 * UINT32_MAX.
Proof.
  intros [Hl Hr Hp _]. unfold total_starts. rewrite Hp. destruct (pairs_sum _ Hr) as [H _].
  rewrite Hl in H. exact H.
Qed.

Lemma rep_idle s m : represents s m → (activeStarts_ s =? 0) = bool_decide (m = ∅).
Proof.
  intros [Hl Hr Hp Ha]. rewrite Ha. unfold total_starts. destruct (pairs_sum _ Hr) as [_ H].
  case_bool_decide as E.
  - subst. by rewrite map_to_list_empty.
  - apply Z.eqb_neq. intros E0. rewrite Hp in E0. rewrite H in Hp by done.
    apply Permutation_nil_r in Hp. by apply map_to_list_empty_iff in Hp.
Qed.

(** Replacing the entry of a slot: the other entries are the map without [id]. *)
Lemma represents_wr s m id l1 c l2 c' k :
  represents s m → slot_at (clients_ s) k l1 c l2 → map_to_list (delete id m) ≡ₚ pairs (l1 ++ l2) →
  is_u32 (io_starts c') → (io_starts c' ≠ 0 → io_id c' = id) →
  let m' := if io_starts c' =? 0 then delete id m else <[id := io_starts c']> m in
  represents {| clients_ := wr (clients_ s) k c'; activeStarts_ := total_starts m' |} m'.
Proof.
  intros [Hl Hr Hp Ha] Hs Ho Hc Hid m'. rewrite (slot_wr _ _ _ _ _ c' Hs). destruct Hs as [El Ek]. split; cbn [clients_ activeStarts_].
  - rewrite <- Hl, El, !length_app. done.
  - rewrite El in Hr. apply Forall_app in Hr as [H1 H2]. apply list.Forall_cons in H2 as [_ H2].
    apply Forall_app. split; [done|]. by constructor.
  - subst m'. rewrite pairs_app in Ho |- *. case_if.
    + rewrite pairs_idle by lia. done.
    + rewrite pairs_active, <- insert_delete_eq by lia.
      rewrite (map_to_list_insert (delete id m) id) by apply lookup_delete_eq.
      rewrite Ho, Permutation_middle. unfold io_pair. by rewrite Hid by lia.
  - done.
Qed.

Lemma delete_absent s m id l1 c l2 k :
  represents s m → slot_at (clients_ s) k l1 c l2 → io_starts c = 0 → m !! id = None →
  map_to_list (delete id m) ≡ₚ pairs (l1 ++ l2).
Proof.
  intros [_ _ Hp _] [El _] Hc Hn. rewrite delete_id by done. rewrite Hp, El, !pairs_app, pairs_idle by done. done.
Qed.

Lemma represents_eq s s' m : represents s m → clients_ s' = clients_ s → activeStarts_ s' = activeStarts_ s → represents s' m.
Proof. intros [? ? ? ?] E1 E2. by split; rewrite ?E1, ?E2. Qed.

Lemma starts_bound s m id n : represents s m → m !! id = Some n → 0 < n <= UINT32_MAX.
Proof.
  intros [_ Hr Hp _] E. apply elem_of_map_to_list in E. rewrite Hp in E. unfold pairs in E.
  apply list_elem_of_fmap in E as (c & [= -> ->] & [Hc Hin]%list_elem_of_filter).
  rewrite list.Forall_forall in Hr. specialize (Hr c Hin). unfold io_active, is_u32, UINT32_MAX in *. lia.
Qed.

Lemma if_bool_decide {A} P `{Decision P} (a b : A) : (if bool_decide P then a else b) = if decide P then a else b.
Proof. case_bool_decide; by destruct (decide P). Qed.

Lemma start_refines s m id :
  represents s m →
  let '(t, s') := AudioDeviceLifecycle_startIO id s in let '(t', m') := spec_start id m in
  t = t' ∧ represents s' m'.
Proof.
  intros R. unfold AudioDeviceLifecycle_startIO, spec_start. rewrite (rep_idle s m R).
  unfold AudioClientLifecycle_start. pose proof (scan_clients_spec (clients_ s) id 0 None) as H.
  pose proof (rep_total s m R) as Ht. pose proof (rep_active s m R) as Hact.
  destruct (scan_clients (clients_ s) 0 id None) as [k|[k|]].
  - destruct H as (l1 & c & l2 & El & Ek & Hc & <-).
    assert (slot_at (clients_ s) k l1 c l2) as Hs by (split; [done|lia]).
    destruct (slot_entry s m l1 c l2 R El Hc) as [E Ho]. pose proof (starts_bound s m _ _ R E).
    rewrite (slot_rd _ _ _ _ _ Hs), E. case_if; [done|]. cbn [negb].
    split; [apply if_bool_decide|]. unfold starts_of. rewrite E. cbn [default].
    pose proof (represents_wr s m (io_id c) l1 c l2 (c <| io_starts ::= λ n, n +₃₂ 1 |>) k R Hs Ho) as W.
    cbn [io_starts io_id set_field] in W.
    rewrite (u32_id (io_starts c + 1)) in W by (unfold is_u32, UINT32_MAX in *; lia).
    rewrite (proj2 (Z.eqb_neq (io_starts c + 1) 0)) in W by lia.
    eapply represents_eq; [apply W|done|]; [unfold is_u32, UINT32_MAX in *; lia|done|].
    cbn. rewrite Hact, total_insert, (total_delete m _ _ E), u64_id; [lia|].
    rewrite (total_delete m _ _ E) in Ht. unfold is_u64, UINT32_MAX in *. lia.
  - destruct H as [Ha [?|(l1 & c & l2 & El & Ek & Hc)]]; [done|].
    assert (slot_at (clients_ s) k l1 c l2) as Hs by (split; [done|lia]).
    pose proof (absent_lookup s m id R Ha) as E. pose proof (delete_absent s m id l1 c l2 k R Hs Hc E) as Ho.
    rewrite E. cbn [negb]. case_if.
    { exfalso. pose proof (rep_pairs s m R) as Hp. apply Permutation_length in Hp.
      rewrite length_map_to_list, El, pairs_app, pairs_idle, length_app in Hp by done.
      pose proof (pairs_length l1). pose proof (pairs_length l2). pose proof (rep_length s m R) as Hl.
      rewrite El, length_app in Hl. cbn in Hl. unfold kClientCapacity in *. lia. }
    split; [apply if_bool_decide|]. unfold starts_of. rewrite E. cbn [default].
    pose proof (represents_wr s m id l1 c l2 {| io_id := id; io_starts := 1 |} k R Hs Ho) as W.
    cbn [io_starts io_id Z.eqb] in W. eapply represents_eq; [apply W|done|]; [unfold is_u32; lia|done|].
    cbn. rewrite Hact, total_insert, delete_id, u64_id; [done| |done]. unfold is_u64, UINT32_MAX in *. lia.
  - destruct H as [Ha [_ Hall]]. rewrite (absent_lookup s m id R Ha). cbn [negb].
    pose proof (rep_pairs s m R) as Hp. apply Permutation_length in Hp.
    rewrite length_map_to_list, pairs_all, (rep_length s m R) in Hp by done.
    case_if; [done|]. unfold kClientCapacity in *. lia.
Qed.

(** A client that leaves, by its last stop or by its removal. *)
Lemma leave_refines s m id (op : AudioClientLifecycle → bool * AudioClientLifecycle) m' :
  represents s m →
  (absent (clients_ s) id → op s = (false, s)) →
  (∀ n, m !! id = Some n → ∃ s', op s = (true, s') ∧ represents s' m') →
  let '(t, s') :=
    let '(gone, s) := op s in
    if negb gone then (ClientNotActive, s)
    else (if activeStarts_ s =? 0 then LastClientStopped else ClientStoppedStillActive, s) in
  let '(t', m') := spec_leave id m' m in
  t = t' ∧ represents s' m'.
Proof.
  intros R H1 H2. unfold spec_leave. destruct (m !! id) as [n|] eqn:E.
  - destruct (H2 n eq_refl) as (s' & -> & R'). cbn [negb]. rewrite (rep_idle s' m' R').
    split; [apply if_bool_decide|done].
  - rewrite H1; [done|]. unfold absent. apply list.Forall_forall. intros c Hin Hc <-.
    apply list_elem_of_split in Hin as (l1 & l2 & El). destruct (slot_entry s m l1 c l2 R El Hc). congruence.
Qed.

Lemma found_client s m id n k :
  represents s m → m !! id = Some n → find_client (clients_ s) 0 id = k →
  ∃ l1 l2 i, k = Some i ∧ slot_at (clients_ s) i l1 {| io_id := id; io_starts := n |} l2 ∧
    map_to_list (delete id m) ≡ₚ pairs (l1 ++ l2) ∧ 0 <= total_starts (delete id m).
Proof.
  intros R E <-. pose proof (find_client_spec (clients_ s) id 0) as H.
  destruct (find_client (clients_ s) 0 id) as [i|]; [|rewrite (absent_lookup s m id R H) in E; done].
  destruct H as (l1 & [cid cn] & l2 & El & Ei & Hc & Hid). cbn in Hc, Hid. subst cid.
  destruct (slot_entry s m l1 _ l2 R El Hc) as [E' Ho]. cbn in E', Ho.
  assert (cn = n) as -> by congruence.
  exists l1, l2, i. split; [done|]. split; [split; [done|lia]|]. split; [done|].
  unfold total_starts. rewrite Ho. apply pairs_sum. pose proof (rep_range s m R) as Hr. rewrite El in Hr.
  apply Forall_app in Hr as [H1 H2]. apply list.Forall_cons in H2 as [_ H2]. by apply Forall_app.
Qed.

Lemma not_found_client l id : absent l id → find_client l 0 id = None.
Proof.
  intros Ha. pose proof (find_client_spec l id 0) as H. destruct (find_client l 0 id); [|done].
  destruct H as (l1 & c & l2 & -> & _ & Hc & Hid). unfold absent in Ha. rewrite list.Forall_forall in Ha.
  exfalso. apply (Ha c); [set_solver|done|done].
Qed.

Lemma stop_refines s m id :
  represents s m →
  let '(t, s') := AudioDeviceLifecycle_stopIO id s in let '(t', m') := spec_step (StopIO id) m in
  t = t' ∧ represents s' m'.
Proof.
  intros R. unfold AudioDeviceLifecycle_stopIO, spec_step. apply (leave_refines s m id); [done|..].
  { intros Ha. unfold AudioClientLifecycle_stop. by rewrite not_found_client. }
  intros n E. unfold AudioClientLifecycle_stop. destruct (found_client s m id n _ R E eq_refl) as (l1 & l2 & i & -> & Hs & Ho & Hpos).
  pose proof (starts_bound s m _ _ R E) as Hn. pose proof (rep_total s m R) as Ht. pose proof (total_delete m _ _ E) as Hd.
  eexists. split; [done|]. rewrite (slot_rd _ _ _ _ _ Hs). unfold starts_of. rewrite E. cbn [default].
  set (c' := if _ =? 0 then _ else _).
  pose proof (represents_wr s m id l1 _ l2 c' i R Hs Ho) as W.
  assert (io_starts c' = n - 1) as Ec.
  { subst c'. destruct (_ =? 0); cbn; by rewrite u32_id by (unfold is_u32, UINT32_MAX in *; lia). }
  assert (io_starts c' ≠ 0 → io_id c' = id) as Eid.
  { subst c'. destruct (_ =? 0) eqn:E0; cbn; [|done]. cbn in E0. lia. }
  rewrite Ec in W, Eid. replace (n - 1 =? 0) with (n =? 1) in W by lia.
  eapply represents_eq; [apply W|done|]; [unfold is_u32, UINT32_MAX in *; lia|done|].
  cbn. rewrite (rep_active s m R), u64_id by (unfold is_u64, UINT32_MAX in *; lia).
  case_if; [lia|rewrite total_insert; lia].
Qed.

Lemma remove_refines s m id :
  represents s m →
  let '(t, s') := AudioDeviceLifecycle_removeClient id s in let '(t', m') := spec_step (RemoveClient id) m in
  t = t' ∧ represents s' m'.
Proof.
  intros R. unfold AudioDeviceLifecycle_removeClient, spec_step. apply (leave_refines s m id); [done|..].
  { intros Ha. unfold AudioClientLifecycle_removeClient. by rewrite not_found_client. }
  intros n E. unfold AudioClientLifecycle_removeClient.
  destruct (found_client s m id n _ R E eq_refl) as (l1 & l2 & i & -> & Hs & Ho & Hpos).
  pose proof (starts_bound s m _ _ R E) as Hn. pose proof (rep_total s m R) as Ht. pose proof (total_delete m _ _ E) as Hd.
  eexists. split; [done|]. rewrite (slot_rd _ _ _ _ _ Hs). cbn [io_starts].
  pose proof (represents_wr s m id l1 _ l2 no_io_client i R Hs Ho) as W. cbn [io_starts no_io_client Z.eqb] in W.
  eapply represents_eq; [apply W|done|]; [unfold is_u32; lia|done|].
  cbn. rewrite (rep_active s m R), u64_id; unfold is_u64, UINT32_MAX in *; lia.
Qed.

Lemma step_refines op s m :
  represents s m →
  let '(t, s') := lifecycle_step op s in let '(t', m') := spec_step op m in t = t' ∧ represents s' m'.
Proof. destruct op; [apply start_refines|apply stop_refines|apply remove_refines]. Qed.

Lemma represents_new : represents AudioClientLifecycle_new ∅.
Proof. by split; [|apply Forall_replicate| |]. Qed.

(** C15: over any sequence of starts, stops and removals of clients, a device answers
    as the map from clients to their outstanding starts does: a start is rejected exactly when
    the client has 2^32 - 1 starts or 64 other clients are active, the first start and the last
    stop are reported as such, and the total is the sum of the counts. *)
Theorem lifecycle_refines_map ops :
  let '(ts, s) := run_lifecycle lifecycle_step ops AudioClientLifecycle_new in
  let '(ts', m) := run_lifecycle spec_step ops ∅ in
  ts = ts' ∧ AudioDeviceLifecycle_activeStarts s = total_starts m ∧
  (∀ id n, m !! id = Some n ↔ n ≠ 0 ∧ {| io_id := id; io_starts := n |} ∈ clients_ s).
Proof.
  assert (∀ s m, represents s m →
    let '(ts, s') := run_lifecycle lifecycle_step ops s in let '(ts', m') := run_lifecycle spec_step ops m in
    ts = ts' ∧ represents s' m') as H.
  { induction ops as [|op ops IH]; intros s m R; [done|]. cbn [run_lifecycle].
    pose proof (step_refines op s m R) as H. destruct (lifecycle_step op s) as [t s'], (spec_step op m) as [t' m'].
    destruct H as [-> R']. specialize (IH s' m' R').
    destruct (run_lifecycle lifecycle_step ops s'), (run_lifecycle spec_step ops m'). by destruct IH as [-> ?]. }
  specialize (H _ _ represents_new). destruct (run_lifecycle lifecycle_step ops _) as [ts s].
  destruct (run_lifecycle spec_step ops ∅) as [ts' m]. destruct H as [-> R].
  split; [done|]. split; [apply (rep_active s m R)|]. intros id n.
  rewrite <- elem_of_map_to_list, (rep_pairs s m R). unfold pairs. rewrite list_elem_of_fmap.
  setoid_rewrite list_elem_of_filter. split.
  - intros ([cid cn] & [= -> ->] & Hc & Hin). done.
  - intros [Hn Hin]. by eexists {| io_id := id; io_starts := n |}.
Qed.
