(* ===== verification/Activation.v ===== *)
(** * Activating the controller (numark-ns6/midi/ControllerActivation)

    The controller sends its controls only after a handshake: the host identifies itself,
    enables the jog wheels and, on a reopened session, wakes the device, while four reads are
    kept in flight.  A reply to the first message is recognised in the byte stream of the
    reads.  The reads complete on a run loop while another thread writes; the completions
    that arrive between two steps of the writer are arguments. *)

From stdpp Require Import base list numbers tactics.
From Stdlib Require Import ZArith Lia ZifyBool.
From S2P Require Import Prelude IoKit UsbSession.

Definition kActivationPacketBytes : Z := 42.

Definition kHostIdentify : list Z :=
  [0xf0; 0x00; 0x01; 0x3f; 0x7f; 0x79; 0x50; 0x00; 0x10; 0x04; 0x01; 0x00; 0x00;
   0x00; 0x04; 0x04; 0x0e; 0x0f; 0x00; 0x00; 0x0e; 0x05; 0x0f; 0x04; 0x0c; 0x06;
   0x0b; 0x0f; 0x0d; 0x0c; 0xf7].
Definition kJogEnable : list Z :=
  [0xb1; 0x3b; 0x01; 0xb2; 0x3b; 0x01; 0xb3; 0x3b; 0x01; 0xb4; 0x3b; 0x01].
Definition kWake : list Z :=
  [0xf0; 0x00; 0x01; 0x3f; 0x7f; 0x79; 0x60; 0x00; 0x01; 0x49; 0x01; 0x00; 0x00; 0x00;
   0x00; 0xf7].

(** ** The reply *)

Definition reply_prefix : list Z := [0xf0; 0x00; 0x01; 0x3f; 0x00; 0x79; 0x51].

(** The loop of [consume]: whether the reply ended in these bytes, and the bytes matched. *)
Fixpoint consume_bytes (bytes : list Z) (matched : Z) : bool * Z :=
  match bytes with
  | [] => (false, matched)
  | byte :: bytes' =>
      if byte =? 0xfd then consume_bytes bytes' matched
      else if byte =? rd reply_prefix matched then
        if matched + 1 =? Z.of_nat (length reply_prefix) then (true, 0)
        else consume_bytes bytes' (matched + 1)
      else consume_bytes bytes' (if byte =? rd reply_prefix 0 then 1 else 0)
  end.

Definition HandshakeReplyParser_consume (bytes : option (list Z)) (length : Z) (matched : Z) : bool * Z :=
  match bytes with
  | None => (false, matched)
  | Some bytes => consume_bytes (take (Z.to_nat length) bytes) matched
  end.

(** ** Packets *)

Definition ControllerActivation_buildPacket (message : option (list Z)) (length : Z) (packet : option (list Z))
    : bool * option (list Z) :=
  match message, packet with
  | Some message, Some packet =>
      if (length =? 0) || (length >=? kActivationPacketBytes) then (false, Some packet)
      else
        let packet := memcpy packet 0 (replicate (Z.to_nat kActivationPacketBytes) 0xfd) in
        let packet := memcpy packet 0 (slice message 0 length) in
        (true, Some (wr packet (kActivationPacketBytes - 1) 0))
  | _, _ => (false, packet)
  end.

(** Time points in nanoseconds. *)
Definition milliseconds (n : Z) : Z := n * 1000000.

Definition ControllerActivation_wakeDeadline (started jogCompleted : Z) : Z :=
  let protocolDeadline := started + milliseconds 796 in
  let postWriteDeadline := jogCompleted + milliseconds 1 in
  Z.max protocolDeadline postWriteDeadline.

(** ** State *)

Record InputRead := { ir_interface : Z; ir_pipe : Z; ir_running : bool; ir_inFlight : bool }.

#[export] Instance eta_input_read : Eta InputRead := λ r,
  Build_InputRead (ir_interface r) (ir_pipe r) (ir_running r) (ir_inFlight r).
Definition InputRead_new : InputRead :=
  {| ir_interface := 0; ir_pipe := 0; ir_running := false; ir_inFlight := false |}.
#[export] Instance input_read_inhabited : Inhabited InputRead := populate InputRead_new.

Definition kReads : nat := 4.

(** The locals of [activate] that its callbacks share, the time, the packets written so far with
    the time of their writes, and the session. *)
Record activation := {
  reads : list InputRead;
  matched_ : Z;
  handshakeReplySeen : bool;
  firstCompletionLogged : bool;
  clock : Z;
  packets : list (Z * list Z);
  adev : usb
}.

#[export] Instance eta_activation : Eta activation := λ c,
  Build_activation (reads c) (matched_ c) (handshakeReplySeen c) (firstCompletionLogged c) (clock c)
    (packets c) (adev c).

(** A completed read. *)
Record read_done := { rd_index : Z; rd_status : Z; rd_bytes : list Z }.

Section activation.
Context `{IOReturns, UsbConstants}.

Definition session_of (c : activation) : NS6DeviceSession := ses (adev c).
Definition on_session {A} (m : M usb A) : M activation A := zoom adev m.
Definition on_system {A} (m : M world A) : M activation A := zoom adev (zoom io m).

Definition modify_read (i : Z) (f : InputRead → InputRead) : M activation () :=
  modify (λ c, c <| reads ::= λ l, wr l i (f (rd l i)) |>).

Definition any_in_flight (c : activation) : bool := existsb ir_inFlight (reads c).

(** A sleep ends at the time or later. *)
Definition sleep_until (t : Z) : M activation () :=
  '(_, r) ← on_system call; modify (λ c, c <| clock ::= λ now, Z.max now t + Z.max 0 (value r) |>).

(** ** Reads *)

Definition submit (i : Z) : M activation Z :=
  c ← gets id;
  let read := rd (reads c) i in
  if negb (ir_running read) || ir_inFlight read then mret kIOReturnNotReady
  else
    modify_read i (λ r, r <| ir_inFlight := true |>);;
    result ← on_system call_status;
    (if negb (result =? kIOReturnSuccess) then modify_read i (λ r, r <| ir_inFlight := false |>) else mret ());;
    mret result.

(** The completion callback. *)
Definition completed (k : read_done) : M activation () :=
  modify_read (rd_index k) (λ r, r <| ir_inFlight := false |>);;
  let length := Z.min (Z.of_nat (length (rd_bytes k))) kActivationPacketBytes in
  (if rd_status k =? kIOReturnSuccess
   then (modify (λ c, c <| firstCompletionLogged := true |>);;
         c ← gets id;
         let '(found, matched) := HandshakeReplyParser_consume (Some (rd_bytes k)) length (matched_ c) in
         modify (λ c, c <| matched_ := matched |>
                        <| handshakeReplySeen := handshakeReplySeen c || found |>))
   else mret ());;
  c ← gets id;
  if (rd_status k =? kIOReturnSuccess) && ir_running (rd (reads c) (rd_index k))
  then (_ ← submit (rd_index k); mret ()) else mret ().

(** The system completes a read it accepted, once. *)
Definition complete_read (k : read_done) : M activation () :=
  c ← gets id;
  if (0 <=? rd_index k) && (rd_index k <? Z.of_nat (length (reads c))) && ir_inFlight (rd (reads c) (rd_index k))
  then completed k else mret ().

(** One run of the run loop. *)
Fixpoint run_loop (ks : list read_done) : M activation () :=
  match ks with
  | [] => mret ()
  | k :: ks' => (complete_read k;; run_loop ks')
  end.

(** The waits for reads in flight until a deadline: the runs of the run loop before it. *)
Fixpoint drain (rounds : list (list read_done)) : M activation () :=
  c ← gets id;
  if any_in_flight c then
    match rounds with
    | [] => mret ()
    | ks :: rounds' => (run_loop ks;; drain rounds')
    end
  else mret ().

Definition stop_running : M activation () :=
  modify (λ c, c <| reads ::= map (λ r, r <| ir_running := false |>) |>).

Definition abort_pipe : M activation Z := on_system call_status.

Definition stopReads (rounds : list (list read_done)) (runLoop : Z) : M activation Z :=
  stop_running;;
  abortResult ← abort_pipe;
  drain rounds;;
  c ← gets id;
  if any_in_flight c then mret kIOReturnTimeout
  else
    eventResult ← on_session (NS6DeviceSession_releaseEvents runLoop);
    if negb (abortResult =? kIOReturnSuccess) then mret abortResult else mret eventResult.

Definition startReads (interface : Z) : M activation Z :=
  r ← for_each (seqZ 0 (Z.of_nat kReads)) (λ i,
    c ← gets id;
    modify_read i (λ r, r <| ir_interface := interface |> <| ir_pipe := midiInPipe_ (session_of c) |>
                          <| ir_running := true |>);;
    result ← submit i;
    if negb (result =? kIOReturnSuccess)
    then (stop_running;; _ ← abort_pipe; mret (Some result)) else mret None);
  mret (default kIOReturnSuccess r).

(** ** Messages *)

(** The write takes some time and its packet is recorded whatever the result. *)
Definition WritePipeTO (packet : list Z) : M activation Z :=
  '(_, r) ← on_system call;
  modify (λ c, c <| packets := packets c ++ [(clock c, packet)] |> <| clock ::= λ now, now + Z.max 0 (value r) |>);;
  mret (status r).

Definition sendMessage (message : list Z) : M activation Z :=
  c ← gets id;
  if (interface_ (session_of c) =? 0) || (midiOutPipe_ (session_of c) =? 0) then mret kIOReturnNotReady
  else
    match ControllerActivation_buildPacket (Some message) (Z.of_nat (length message))
            (Some (replicate (Z.to_nat kActivationPacketBytes) 0)) with
    | (true, Some packet) =>
        result ← WritePipeTO packet;
        (if negb (result =? kIOReturnSuccess) then (_ ← on_system call_status; mret ()) else mret ());;
        (if result =? kIOUSBPipeStalled then (_ ← on_system call_status; mret ()) else mret ());;
        mret result
    | _ => mret kIOReturnBadArgument
    end.

(** The wait for the reply: a round is what arrives within a millisecond; when no more arrive it
    lasts to the deadline. *)
Fixpoint wait_reply (rounds : list (list read_done)) (deadline : Z) : M activation () :=
  c ← gets id;
  if negb (handshakeReplySeen c) && (clock c <? deadline) then
    match rounds with
    | [] => sleep_until deadline
    | ks :: rounds' => (run_loop ks;; sleep_until (clock c + milliseconds 1);; wait_reply rounds' deadline)
    end
  else mret ().

(** What happens between two statements of the writer: completions that arrive, and the time the
    thread takes. *)
Record arrivals := {
  before_identify : list read_done * Z;
  while_waiting : list (list read_done);
  before_jog : list read_done * Z;
  after_jog : list read_done * Z
}.

Definition pass (k : list read_done * Z) : M activation () :=
  run_loop k.1;; modify (λ c, c <| clock ::= λ now, now + Z.max 0 k.2 |>).

Definition first_error (a b : Z) : Z := if (a =? kIOReturnSuccess) && negb (b =? kIOReturnSuccess) then b else a.

Definition sendSequence (k : arrivals) : M activation Z :=
  started ← gets clock;
  pass (before_identify k);;
  result ← sendMessage kHostIdentify;
  let firstError := first_error kIOReturnSuccess result in
  wait_reply (while_waiting k) (started + milliseconds 100);;
  sleep_until (started + milliseconds 795);;
  pass (before_jog k);;
  result ← sendMessage kJogEnable;
  let firstError := first_error firstError result in
  jogCompleted ← gets clock;
  pass (after_jog k);;
  sleep_until (ControllerActivation_wakeDeadline started jogCompleted);;
  mret firstError.

(** ** activate *)

(** The scheduling of one activation: whether the writer threads can be created, what arrives
    while they run and what the waits for aborted reads deliver. *)
Record schedule := {
  sequence_thread : bool;
  sequence_arrivals : arrivals;
  drain_failed_start : list (list read_done);
  drain_sequence : list (list read_done);
  drain_failed_restart : list (list read_done);
  wake_thread : bool;
  wake_arrivals : (list read_done * Z) * (list read_done * Z);
  drain_wake : list (list read_done)
}.

Definition clear_stall : M activation Z := on_system call_status.

(** [releaseEvents(runLoop); return result;] *)
Definition release_and (runLoop result : Z) : M activation (Z * bool) :=
  _ ← on_session (NS6DeviceSession_releaseEvents runLoop); mret (result, false).

(** Both pipes; the second only when the first succeeds. *)
Definition clear_stalls : M activation Z :=
  result ← clear_stall;
  if result =? kIOReturnSuccess then clear_stall else mret result.

(** From the reopened session to the end. *)
Definition wake (k : schedule) (runLoop : Z) : M activation (Z * bool) :=
  c ← gets id;
  let interface := interface_ (session_of c) in
  result ← on_session (NS6DeviceSession_acquireEvents runLoop);
  if negb (result =? kIOReturnSuccess) then mret (result, false) else
  result ← clear_stalls;
  if negb (result =? kIOReturnSuccess) then release_and runLoop result else
  modify (λ c, c <| reads := replicate kReads InputRead_new |>);;
  result ← startReads interface;
  if negb (result =? kIOReturnSuccess) then (drain (drain_failed_restart k);; release_and runLoop result) else
  if negb (wake_thread k) then (_ ← stopReads (drain_wake k) runLoop; mret (kIOReturnNoMemory, false)) else
  pass (wake_arrivals k).1;;
  wakeResult ← sendMessage kWake;
  pass (wake_arrivals k).2;;
  c ← gets id;
  let observedReply := handshakeReplySeen c in
  let result := if observedReply then kIOReturnSuccess else wakeResult in
  finalStopResult ← stopReads (drain_wake k) runLoop;
  if (result =? kIOReturnSuccess) && negb (finalStopResult =? kIOReturnSuccess)
  then mret (finalStopResult, observedReply) else mret (result, observedReply).

(** [beforeSessionReopen], the close and the open. *)
Definition reopen (beforeSessionReopen : option (M activation Z)) : M activation Z :=
  result ← match beforeSessionReopen with Some before => before | None => mret kIOReturnSuccess end;
  if negb (result =? kIOReturnSuccess) then mret result else
  result ← on_session NS6DeviceSession_close;
  if negb (result =? kIOReturnSuccess) then mret result else on_session NS6DeviceSession_open.

(** The result and what is stored at [replySeen]. *)
Definition ControllerActivation_activate (k : schedule) (beforeSessionReopen : option (M activation Z))
    (runLoop : Z) : M activation (Z * bool) :=
  c ← gets id;
  if (interface_ (session_of c) =? 0) || (midiInPipe_ (session_of c) =? 0) || (midiOutPipe_ (session_of c) =? 0)
  then mret (kIOReturnNotReady, false) else
  let interface := interface_ (session_of c) in
  result ← on_session (NS6DeviceSession_acquireEvents runLoop);
  if negb (result =? kIOReturnSuccess) then mret (result, false) else
  result ← clear_stalls;
  if negb (result =? kIOReturnSuccess) then release_and runLoop result else
  modify (λ c, c <| reads := replicate kReads InputRead_new |> <| matched_ := 0 |>
                 <| handshakeReplySeen := false |> <| firstCompletionLogged := false |>);;
  result ← startReads interface;
  if negb (result =? kIOReturnSuccess) then
    (stop_running;; _ ← abort_pipe; drain (drain_failed_start k);;
     c ← gets id;
     if any_in_flight c then mret (kIOReturnTimeout, false) else release_and runLoop result)
  else if negb (sequence_thread k) then (_ ← stopReads (drain_sequence k) runLoop; mret (kIOReturnNoMemory, false)) else
  result ← sendSequence (sequence_arrivals k);
  stopResult ← stopReads (drain_sequence k) runLoop;
  if negb (result =? kIOReturnSuccess) then mret (result, false)
  else if negb (stopResult =? kIOReturnSuccess) then mret (stopResult, false) else
  result ← reopen beforeSessionReopen;
  if negb (result =? kIOReturnSuccess) then mret (result, false) else wake k runLoop.

(** ** probeHostIdentify *)

(** The wait of the probe ends with the reply or at the deadline: the runs before it. *)
Fixpoint probe_wait (rounds : list (list read_done)) : M activation () :=
  c ← gets id;
  if handshakeReplySeen c then mret ()
  else match rounds with [] => mret () | ks :: rounds' => (run_loop ks;; probe_wait rounds') end.

Definition ControllerActivation_probeHostIdentify (waiting drains : list (list read_done)) (runLoop : Z)
    : M activation (Z * bool) :=
  c ← gets id;
  if (interface_ (session_of c) =? 0) || (midiInPipe_ (session_of c) =? 0) || (midiOutPipe_ (session_of c) =? 0)
  then mret (kIOReturnNotReady, false) else
  let interface := interface_ (session_of c) in
  result ← on_session (NS6DeviceSession_acquireEvents runLoop);
  if negb (result =? kIOReturnSuccess) then mret (result, false) else
  result ← clear_stalls;
  if negb (result =? kIOReturnSuccess) then release_and runLoop result else
  modify (λ c, c <| reads := replicate kReads InputRead_new |> <| matched_ := 0 |>
                 <| handshakeReplySeen := false |> <| firstCompletionLogged := false |>);;
  result ← startReads interface;
  replySeen_result ←
    (if result =? kIOReturnSuccess then
       result ← sendMessage kHostIdentify;
       (if result =? kIOReturnSuccess then probe_wait waiting else mret ());;
       c ← gets id; mret (handshakeReplySeen c, result)
     else (stop_running;; _ ← abort_pipe; mret (false, result)));
  let '(replySeen, result) := (replySeen_result : bool * Z) in
  stopResult ← stopReads drains runLoop;
  mret (if result =? kIOReturnSuccess then stopResult else result, replySeen).

End activation.
