(* ===== verification/ActivationTheory.v ===== *)
(** * Correctness of the controller's activation

    The reply is recognised exactly when it occurs in the byte stream of the reports, and a
    successful activation has sent the three messages of the protocol in order and at their
    times, with no read in flight and the session's references balanced. *)

From stdpp Require Import base list numbers tactics.
From Stdlib Require Import ZArith Lia ZifyBool.
From S2P Require Import Prelude IoKit UsbSession UsbSessionTheory Activation.

(** ** The reply parser searches the stream *)

Definition occurs (p l : list Z) : Prop := ∃ a b, l = a ++ p ++ b.
Definition significant (l : list Z) : list Z := filter (λ b, b ≠ 0xfd) l.

Lemma occurs_snoc p l b : occurs p (l ++ [b]) ↔ occurs p l ∨ p `suffix_of` l ++ [b].
Proof.
  split.
  - intros (x & y & E). destruct y as [|z y _] using rev_ind.
    + right. exists x. by rewrite E, app_nil_r.
    + left. rewrite !app_assoc in E. apply app_inj_tail in E as [E _]. exists x, y. by rewrite E, !app_assoc.
  - intros [(x & y & ->)|[x E]].
    + exists x, (y ++ [b]). by rewrite !app_assoc.
    + exists x, []. by rewrite E, app_nil_r.
Qed.

Lemma occurs_app p l l' : occurs p l → occurs p (l ++ l').
Proof. intros (x & y & ->). exists x, (y ++ l'). by rewrite !app_assoc. Qed.

(** After the stream [s] without reply, [k] bytes of the prefix are matched at its end, and no more. *)
Record tracking (s : list Z) (k : nat) : Prop := {
  tr_range : (k < 7)%nat;
  tr_suffix : take k reply_prefix `suffix_of` s;
  tr_maximal : ∀ j, (k < j < 7)%nat → ¬ take j reply_prefix `suffix_of` s;
  tr_none : ¬ occurs reply_prefix s
}.

Lemma tracking_nil : tracking [] 0.
Proof.
  split; [lia|done|..].
  - intros j Hj [x E]. apply (f_equal length) in E. rewrite length_app, length_take in E. cbn in E. lia.
  - intros (x & y & E). apply (f_equal length) in E. rewrite !length_app in E. cbn in E. lia.
Qed.

Lemma take_prefix_S j : (j < 7)%nat → take (S j) reply_prefix = take j reply_prefix ++ [reply_prefix !!! j].
Proof. intros. do 7 (destruct j as [|j]; [done|]). lia. Qed.

(** The first byte of the prefix occurs in it once. *)
Lemma prefix_head j : (0 < j < 7)%nat → reply_prefix !!! j ≠ reply_prefix !!! 0%nat.
Proof. intros. do 7 (destruct j as [|j]; [by (lia || vm_compute)|]). lia. Qed.

Lemma prefix_border i k : (0 < i < k)%nat → (k < 7)%nat → ¬ take i reply_prefix `suffix_of` take k reply_prefix.
Proof.
  intros Hi Hk. assert (forallb (λ k, forallb (λ i, negb (bool_decide (take i reply_prefix `suffix_of` take k reply_prefix)))
    (seq 1 (k - 1))) (seq 0 7) = true) as H by (vm_compute; reflexivity).
  rewrite forallb_forall in H. specialize (H k). rewrite forallb_forall in H. intros Hs.
  specialize (H ltac:(apply in_seq; lia) i ltac:(apply in_seq; lia)). by rewrite bool_decide_eq_true_2 in H.
Qed.

Lemma suffix_step s j b :
  (j < 7)%nat → take (S j) reply_prefix `suffix_of` s ++ [b] ↔
  take j reply_prefix `suffix_of` s ∧ b = reply_prefix !!! j.
Proof.
  intros. rewrite take_prefix_S by done. split.
  - intros Hs. split; [by eapply suffix_snoc_inv_2|]. symmetry. by eapply suffix_snoc_inv_1.
  - intros [Hs ->]. by apply suffix_snoc.
Qed.

Lemma tracking_match s k b :
  tracking s k → b = reply_prefix !!! k →
  if decide (k = 6)%nat then occurs reply_prefix (s ++ [b]) else tracking (s ++ [b]) (S k).
Proof.
  intros [Hk Hs Hm Hn] ->. case_decide as E.
  - subst. apply occurs_snoc. right. change reply_prefix with (take 7 reply_prefix) at 1. by apply suffix_step.
  - split; [lia|by apply suffix_step|..].
    + intros [|j] Hj; [lia|]. rewrite suffix_step by lia. intros [Hj' _]. apply (Hm j); [lia|done].
    + rewrite occurs_snoc. intros [?|Ho]; [done|]. change reply_prefix with (take 7 reply_prefix) in Ho at 1.
      apply suffix_step in Ho as [Ho _]; [|lia]. apply (Hm 6%nat); [lia|done].
Qed.

Lemma tracking_mismatch s k b :
  tracking s k → b ≠ reply_prefix !!! k →
  tracking (s ++ [b]) (if b =? rd reply_prefix 0 then 1%nat else 0%nat).
Proof.
  intros [Hk Hs Hm Hn] Hb.
  assert (∀ j, (j < 7)%nat → take j reply_prefix `suffix_of` s → b = reply_prefix !!! j → j = 0%nat) as H.
  { intros j Hj Hs' ->. destruct (decide (j = 0%nat)) as [|Hj0]; [done|]. exfalso.
    destruct (decide (j = k)) as [->|]; [done|]. destruct (decide (k < j)%nat); [apply (Hm j); [lia|done]|].
    apply (prefix_border j k); [lia|done|]. destruct (suffix_weak_total _ _ _ Hs' Hs) as [|Hl%suffix_length]; [done|].
    rewrite !length_take in Hl. cbn in Hl. lia. }
  change (rd reply_prefix 0) with (reply_prefix !!! 0%nat). case_if; split; try (cbn; lia).
  - apply (suffix_step s 0); [lia|]. split; [apply suffix_nil|lia].
  - intros [|j] Hj; [lia|]. rewrite suffix_step by lia. intros [Hj' E]. specialize (H j ltac:(lia) Hj' E). lia.
  - rewrite occurs_snoc. intros [?|Ho]; [done|]. change reply_prefix with (take 7 reply_prefix) in Ho at 1.
    apply suffix_step in Ho as [Ho E]; [|lia]. specialize (H 6%nat ltac:(lia) Ho E). lia.
  - apply suffix_nil.
  - intros [|j] Hj; [lia|]. rewrite suffix_step by lia. intros [Hj' E]. specialize (H j ltac:(lia) Hj' E). subst. lia.
  - rewrite occurs_snoc. intros [?|Ho]; [done|]. change reply_prefix with (take 7 reply_prefix) in Ho at 1.
    apply suffix_step in Ho as [Ho E]; [|lia]. specialize (H 6%nat ltac:(lia) Ho E). lia.
Qed.

Lemma consume_bytes_spec bytes s k :
  tracking s k →
  let '(found, k') := consume_bytes bytes (Z.of_nat k) in
  if found then occurs reply_prefix (s ++ significant bytes)
  else ∃ n, k' = Z.of_nat n ∧ tracking (s ++ significant bytes) n.
Proof.
  revert s k. induction bytes as [|b bytes IH]; intros s k Ht; cbn [consume_bytes].
  { exists k. by rewrite app_nil_r. }
  unfold significant. case_if.
  { rewrite filter_cons_False by lia. by apply IH. }
  rewrite filter_cons_True by lia. fold (significant bytes). rewrite cons_middle, app_assoc.
  change (rd reply_prefix (Z.of_nat k)) with (reply_prefix !!! Z.to_nat (Z.of_nat k)). rewrite Nat2Z.id.
  case_if.
  - pose proof (tracking_match s k b Ht ltac:(lia)) as Hm. change (length reply_prefix) with 7%nat.
    pose proof (tr_range s k Ht). case_if; case_decide; try lia; [by apply occurs_app|].
    replace (Z.of_nat k + 1) with (Z.of_nat (S k)) by lia. by apply IH.
  - pose proof (tracking_mismatch s k b Ht ltac:(lia)) as Hm. case_if; by apply (IH _ _ Hm).
Qed.

(** What the completion callback keeps of a report. *)
Definition observe (s : Z * bool) (report : list Z) : Z * bool :=
  let '(found, matched) := HandshakeReplyParser_consume (Some report)
      (Z.min (Z.of_nat (length report)) kActivationPacketBytes) s.1 in
  (matched, s.2 || found).

(** C31: however the reply is cut into reports and whatever surrounds it, it has been seen
    exactly when the bytes of the reports, without the filler 0xfd, contain its prefix. *)
Theorem reply_is_recognised reports :
  (foldl observe (0, false) reports).2 = true ↔
  occurs reply_prefix (significant (concat (map (take (Z.to_nat kActivationPacketBytes)) reports))).
Proof.
  enough (∀ s st, (st.2 = true ∧ occurs reply_prefix s) ∨ (st.2 = false ∧ ∃ k, st.1 = Z.of_nat k ∧ tracking s k) →
    (foldl observe st reports).2 = true ↔
    occurs reply_prefix (s ++ significant (concat (map (take (Z.to_nat kActivationPacketBytes)) reports)))) as H.
  { apply (H [] (0, false)). right. split; [done|]. exists 0%nat. split; [done|apply tracking_nil]. }
  induction reports as [|r reports IH]; intros s [m seen] Hst; cbn [foldl map concat].
  { rewrite app_nil_r. destruct Hst as [[E ?]|[E (k & _ & ?)]]; cbn in E; subst; [done|].
    split; [done|]. intros Ho. by destruct (tr_none s k). }
  unfold significant. rewrite list.filter_app, app_assoc. apply IH. clear IH.
  assert (take (Z.to_nat (Z.min (Z.of_nat (length r)) kActivationPacketBytes)) r =
          take (Z.to_nat kActivationPacketBytes) r) as Et.
  { destruct (decide (Z.of_nat (length r) <= kActivationPacketBytes)).
    - rewrite !take_ge by (unfold kActivationPacketBytes in *; lia). done.
    - by rewrite Z.min_r by lia. }
  unfold observe, HandshakeReplyParser_consume. rewrite Et. cbn [fst snd].
  destruct Hst as [[E Ho]|[E (k & Ek & Ht)]]; cbn in E; subst seen.
  - left. destruct (consume_bytes _ _). split; [done|by apply occurs_app].
  - cbn in Ek. subst m. pose proof (consume_bytes_spec (take (Z.to_nat kActivationPacketBytes) r) s k Ht) as H.
    destruct (consume_bytes _ _) as [[] k']; [by left|by right].
Qed.

(** ** The protocol *)

Section protocol.
Context {codes : IOReturns} {laws : IOReturnsLaws} {constants : UsbConstants}.

(** What reads may change: not the session, what the process holds, the packets or the time. *)
Record quiet (c c' : activation) : Prop := {
  q_session : ses (adev c') = ses (adev c);
  q_keeps : keeps (io (adev c)) (io (adev c'));
  q_packets : packets c' = packets c;
  q_clock : clock c' = clock c
}.

Lemma quiet_refl c : quiet c c.
Proof. by split. Qed.

Lemma quiet_trans a b c : quiet a b → quiet b c → quiet a c.
Proof. intros [? K1 ? ?] [? K2 ? ?]. split; congruence. Qed.

Lemma quiet_inv others n c c' : quiet c c' → session_inv others n (adev c) → session_inv others n (adev c').
Proof.
  intros [Es Hk _ _] [H1 H2 H3 H4]. split; rewrite ?Es; try done. intros o. by rewrite (Hk o), Es.
Qed.

Lemma on_system_wp {A} (m : M world A) (Q : A → activation → Prop) c :
  (∀ Q' : A → world → Prop, (∀ a w', keeps (io (adev c)) w' → Q' a w') → wp m Q' (io (adev c))) →
  (∀ a c', quiet c c' → reads c' = reads c → Q a c') → wp (on_system m) Q c.
Proof.
  intros Hm HQ. unfold on_system. do 2 wp_step. apply Hm. intros a w' Hk. apply HQ; [by split|done].
Qed.

Lemma status_wp (Q : Z → activation → Prop) c :
  (∀ r c', quiet c c' → reads c' = reads c → Q r c') → wp (on_system call_status) Q c.
Proof. intros HQ. apply on_system_wp; [|done]. intros Q' HQ'. apply call_status_wp. auto. Qed.

Lemma submit_quiet i (Q : Z → activation → Prop) c :
  (∀ r c', quiet c c' → Q r c') → wp (submit i) Q c.
Proof.
  intros HQ. unfold submit. do 2 wp_step. cbv zeta. wp_step. { wp_step. by apply HQ. }
  wp_step. unfold modify_read. do 2 wp_step. apply status_wp. intros r c' Hq _. wp_steps;
    apply HQ; (eapply quiet_trans; [|eapply quiet_trans; [exact Hq|]]); by split.
Qed.

Lemma complete_quiet k (Q : () → activation → Prop) c :
  (∀ c', quiet c c' → Q () c') → wp (complete_read k) Q c.
Proof.
  intros HQ. unfold complete_read. do 2 wp_step. wp_step; [|wp_step; by apply HQ].
  unfold completed, modify_read. do 2 wp_step. cbv zeta. wp_step.
  match goal with |- wp ?m _ ?c1 => enough (∀ Q' : () → activation → Prop, (∀ c', quiet c1 c' → Q' () c') → wp m Q' c1) as Hm end.
  - apply Hm. intros c2 Hq2. do 2 wp_step. wp_step.
    + wp_step. apply submit_quiet. intros r c3 Hq3. wp_step. apply HQ.
      eapply quiet_trans; [|eapply quiet_trans; [exact Hq2|exact Hq3]]. by split.
    + wp_step. apply HQ. eapply quiet_trans; [|exact Hq2]. by split.
  - intros Q' HQ'. wp_step; [|wp_step; by apply HQ'; split].
    do 4 wp_step. destruct (HandshakeReplyParser_consume _ _ _). wp_step. apply HQ'. by split.
Qed.

Lemma run_loop_quiet ks (Q : () → activation → Prop) c :
  (∀ c', quiet c c' → Q () c') → wp (run_loop ks) Q c.
Proof.
  revert c. induction ks as [|k ks IH]; intros c HQ; cbn [run_loop]; [wp_step; by apply HQ|].
  wp_step. apply complete_quiet. intros c1 H1. apply IH. intros c2 H2. apply HQ. by eapply quiet_trans.
Qed.

Lemma drain_quiet rounds (Q : () → activation → Prop) c :
  (∀ c', quiet c c' → Q () c') → wp (drain rounds) Q c.
Proof.
  revert c. induction rounds as [|ks rounds IH]; intros c HQ; cbn [drain]; do 2 wp_step; wp_step; try (wp_step; by apply HQ).
  wp_step. apply run_loop_quiet. intros c1 H1. apply IH. intros c2 H2. apply HQ. by eapply quiet_trans.
Qed.

Lemma start_reads_quiet interface (Q : Z → activation → Prop) c :
  (∀ r c', quiet c c' → Q r c') → wp (startReads interface) Q c.
Proof.
  intros HQ. unfold startReads. wp_step.
  eapply (wp_for_each (λ _ c', quiet c c')); [apply quiet_refl|..].
  - intros i js c1 H1. do 2 wp_step. unfold modify_read. do 2 wp_step. wp_step. apply submit_quiet. intros r c2 H2.
    assert (quiet c c2) as H3 by (eapply quiet_trans; [exact H1|]; eapply quiet_trans; [|exact H2]; by split).
    wp_step; [|wp_step; exact H3]. unfold stop_running. do 2 wp_step. wp_step. apply status_wp. intros s c4 H4 _. do 2 wp_step.
    apply HQ. eapply quiet_trans; [exact H3|]. eapply quiet_trans; [|exact H4]. by split.
  - intros c1 H1. wp_step. by apply HQ.
Qed.

(** Whether [sendMessage] writes. *)
Definition can_write (s : NS6DeviceSession) : bool := negb ((interface_ s =? 0) || (midiOutPipe_ s =? 0)).

(** Reads are stopped: a success leaves none in flight. *)
Lemma stop_reads_wp others n rounds runLoop (Q : Z → activation → Prop) c :
  session_inv others n (adev c) → 0 <= n →
  (∀ r c', session_inv others (n + 1) (adev c') → opened_ (session_of c') = opened_ (session_of c) →
     can_write (session_of c') = can_write (session_of c) →
     packets c' = packets c → clock c' = clock c → (r = kIOReturnSuccess → any_in_flight c' = false) → Q r c') →
  wp (stopReads rounds runLoop) Q c.
Proof.
  intros Hi Hn HQ. unfold stopReads, stop_running. do 2 wp_step. wp_step. apply status_wp. intros a c1 H1 _.
  wp_step. apply drain_quiet. intros c2 H2.
  assert (quiet c c2) as H3 by (eapply quiet_trans; [|eapply quiet_trans; [exact H1|exact H2]]; by split).
  pose proof (quiet_inv _ _ _ _ H3 Hi) as Hi2. destruct H3 as [Es _ Ep Ec]. do 2 wp_step. wp_step.
  { wp_step. apply HQ; unfold session_of; rewrite ?Es; try done; [|by intros ?%timeout_fails].
    destruct Hi2. split; try done. lia. }
  wp_step. unfold on_session. wp_step. eapply wp_mono; [apply wp_and; [apply release_events_inv; done|]|].
  { instantiate (1 := λ _ u', opened_ (ses u') = opened_ (ses (adev c2)) ∧ can_write (ses u') = can_write (ses (adev c2))).
    unfold NS6DeviceSession_releaseEvents. by wp_steps. }
  intros r u' [Hr [E1 E2]]. wp_step; wp_step; apply HQ; unfold session_of; cbn [adev set_field]; rewrite ?E1, ?E2, ?Es; try done.
Qed.
(** A packet: the message, filler and a terminator. *)
Definition framed (message : list Z) : list Z :=
  message ++ replicate (41 - length message) 0xfd ++ [0].

(** What writing may change as well: the packets and the time. *)
Record later (c c' : activation) : Prop := {
  l_session : ses (adev c') = ses (adev c);
  l_keeps : keeps (io (adev c)) (io (adev c'));
  l_clock : clock c <= clock c'
}.

Lemma quiet_later c c' : quiet c c' → later c c'.
Proof. intros [? ? ? E]. split; [done..|lia]. Qed.

Lemma later_trans a b c : later a b → later b c → later a c.
Proof. intros [? K1 ?] [? K2 ?]. split; [congruence| |lia]. intros o. by rewrite (K2 o). Qed.

Lemma later_inv others n c c' : later c c' → session_inv others n (adev c) → session_inv others n (adev c').
Proof.
  intros [Es Hk _] [H1 H2 H3 H4]. split; rewrite ?Es; try done. intros o. by rewrite (Hk o), Es.
Qed.

Lemma send_wp m (Q : Z → activation → Prop) c :
  m = kHostIdentify ∨ m = kJogEnable ∨ m = kWake →
  (∀ r c', later c c' → (r = kIOReturnSuccess → can_write (session_of c) = true) →
     packets c' = packets c ++ (if can_write (session_of c) then [(clock c, framed m)] else []) → Q r c') →
  wp (sendMessage m) Q c.
Proof.
  intros Hm HQ. unfold sendMessage. do 2 wp_step. unfold can_write, id in *. wp_step.
  { wp_step. apply HQ; [split; [done..|lia]|by intros ?%not_ready_fails|by rewrite app_nil_r]. }
  assert (ControllerActivation_buildPacket (Some m) (Z.of_nat (length m))
    (Some (replicate (Z.to_nat kActivationPacketBytes) 0)) = (true, Some (framed m))) as ->
    by (destruct Hm as [->|[-> | ->]]; vm_compute; reflexivity).
  wp_step. unfold WritePipeTO. wp_step. apply on_system_wp.
  { intros Q' HQ'. apply call_wp. auto. }
  intros [h r] c1 [Es Hk Ep Ec] _. do 3 wp_step. cbn [negb] in HQ.
  set (c2 := c1 <| packets := _ |> <| clock ::= _ |>).
  assert (later c c2) as H2 by (split; cbn; [done..|lia]).
  assert (packets c2 = packets c ++ [(clock c, framed m)]) as Ep2 by (cbn; congruence).
  clearbody c2. wp_step. wp_step.
  - wp_step. apply status_wp. intros a c3 H3 _. wp_step. wp_step. wp_step.
    + wp_step. apply status_wp. intros b c4 H4 _. do 2 wp_step. apply HQ; [|done|].
      * eapply later_trans; [exact H2|]. apply quiet_later. by eapply quiet_trans.
      * by rewrite (q_packets _ _ H4), (q_packets _ _ H3).
    + do 2 wp_step. apply HQ; [|done|].
      * eapply later_trans; [exact H2|by apply quiet_later].
      * by rewrite (q_packets _ _ H3).
  - wp_step. wp_step. wp_step; [|do 2 wp_step; by apply HQ].
    wp_step. apply status_wp. intros b c4 H4 _. do 2 wp_step. apply HQ; [|done|].
    + eapply later_trans; [exact H2|by apply quiet_later].
    + by rewrite (q_packets _ _ H4).
Qed.

Lemma sleep_wp t (Q : () → activation → Prop) c :
  (∀ c', later c c' → packets c' = packets c → t <= clock c' → Q () c') → wp (sleep_until t) Q c.
Proof.
  intros HQ. unfold sleep_until. wp_step. apply on_system_wp; [intros Q' HQ'; apply call_wp; auto|].
  intros [h r] c1 [Es Hk Ep Ec] _. wp_step. apply HQ; cbn; [split; cbn; [done..|lia]|done|lia].
Qed.

Lemma wait_reply_wp rounds deadline (Q : () → activation → Prop) c :
  (∀ c', later c c' → packets c' = packets c → Q () c') → wp (wait_reply rounds deadline) Q c.
Proof.
  revert c. induction rounds as [|ks rounds IH]; intros c HQ; cbn [wait_reply]; do 2 wp_step; wp_step;
    try (wp_step; apply HQ; [by apply quiet_later, quiet_refl|done]).
  - apply sleep_wp. auto.
  - wp_step. apply run_loop_quiet. intros c1 H1. wp_step. apply sleep_wp. intros c2 H2 E2 _. apply IH.
    intros c3 H3 E3. apply HQ; [|by rewrite E3, E2, (q_packets _ _ H1)].
    eapply later_trans; [by apply quiet_later|]. by eapply later_trans.
Qed.

Lemma pass_wp k (Q : () → activation → Prop) c :
  (∀ c', later c c' → packets c' = packets c → clock c' = clock c + Z.max 0 k.2 → Q () c') → wp (pass k) Q c.
Proof.
  intros HQ. unfold pass. wp_step. apply run_loop_quiet. intros c1 [Es Hk Ep Ec]. wp_step.
  apply HQ; cbn; [split; cbn; [done..|lia]|done|lia].
Qed.

Lemma first_error_success a b : first_error a b = kIOReturnSuccess → a = kIOReturnSuccess ∧ b = kIOReturnSuccess.
Proof. unfold first_error. case_if; lia. Qed.

Lemma sequence_wp k (Q : Z → activation → Prop) c :
  (∀ r c', later c c' →
     (r = kIOReturnSuccess → ∃ t1 t2, packets c' = packets c ++ [(t1, framed kHostIdentify); (t2, framed kJogEnable)] ∧
        t1 = clock c + Z.max 0 (before_identify k).2 ∧ clock c + milliseconds 795 <= t2 ∧
        clock c + milliseconds 796 <= clock c' ∧ t2 + milliseconds 1 <= clock c') → Q r c') →
  wp (sendSequence k) Q c.
Proof.
  intros HQ. unfold sendSequence. do 2 wp_step. wp_step. apply pass_wp. intros c1 H1 P1 T1.
  wp_step. apply send_wp; [by left|]. intros r1 c2 H2 R2 P2. cbv zeta.
  wp_step. apply wait_reply_wp. intros c3 H3 P3. wp_step. apply sleep_wp. intros c4 H4 P4 T4.
  wp_step. apply pass_wp. intros c5 H5 P5 T5. wp_step. apply send_wp; [by right; left|]. intros r2 c6 H6 R6 P6.
  do 2 wp_step. wp_step. apply pass_wp. intros c7 H7 P7 T7. wp_step. apply sleep_wp. intros c8 H8 P8 T8. wp_step.
  assert (later c c8) as Hl.
  { eapply later_trans; [exact H1|]. eapply later_trans; [exact H2|]. eapply later_trans; [exact H3|].
    eapply later_trans; [exact H4|]. eapply later_trans; [exact H5|]. eapply later_trans; [exact H6|].
    eapply later_trans; [exact H7|]. exact H8. }
  apply HQ; [exact Hl|]. intros E. apply first_error_success in E as [E1 E2]. apply first_error_success in E1 as [_ E1].
  rewrite (R2 E1) in P2. rewrite (R6 E2) in P6. exists (clock c1), (clock c5).
  unfold ControllerActivation_wakeDeadline, milliseconds in *.
  rewrite P8, P7, P6, P5, P4, P3, P2, P1, <- app_assoc.
  pose proof (l_clock _ _ H6). split; [done|]. lia.
Qed.
Lemma inv_weaken others n n' u : session_inv others n u → n <= n' → session_inv others n' u.
Proof. intros [? ? ? ?] ?. split; try done. lia. Qed.

Ltac weaken := eapply inv_weaken; [eassumption|lia].

(** What operations on the event sources leave alone. *)
Record same_device (c c' : activation) : Prop := {
  sd_opened : opened_ (session_of c') = opened_ (session_of c);
  sd_writes : can_write (session_of c') = can_write (session_of c);
  sd_packets : packets c' = packets c;
  sd_clock : clock c' = clock c
}.

Lemma quiet_device c c' : quiet c c' → same_device c c'.
Proof. intros [E ? ? ?]. split; unfold session_of; by rewrite ?E. Qed.

Lemma same_device_trans a b c : same_device a b → same_device b c → same_device a c.
Proof. intros [] []. split; congruence. Qed.

Lemma acquire_wp' others n runLoop (Q : Z → activation → Prop) c :
  session_inv others n (adev c) → 0 <= n < UINT32_MAX →
  (∀ r c', session_inv others (n + 1) (adev c') → same_device c c' → Q r c') →
  wp (on_session (NS6DeviceSession_acquireEvents runLoop)) Q c.
Proof.
  intros Hi Hn HQ. unfold on_session. wp_step. eapply wp_mono; [apply wp_and; [by apply acquire_events_inv|]|].
  { instantiate (1 := λ _ u', opened_ (ses u') = opened_ (session_of c) ∧ can_write (ses u') = can_write (session_of c)).
    unfold NS6DeviceSession_acquireEvents. by wp_steps. }
  intros r u [Hr [E1 E2]]. by apply HQ; [|split].
Qed.

Lemma release_and_wp others n runLoop result (Q : Z * bool → activation → Prop) c :
  session_inv others n (adev c) → 0 <= n →
  (∀ c', session_inv others (n + 1) (adev c') → Q (result, false) c') → wp (release_and runLoop result) Q c.
Proof.
  intros Hi Hn HQ. unfold release_and, on_session. wp_step. wp_step.
  eapply wp_mono; [by apply release_events_inv|]. intros r u Hr. wp_step. by apply HQ.
Qed.

Lemma clear_stalls_wp (Q : Z → activation → Prop) c :
  (∀ r c', quiet c c' → Q r c') → wp clear_stalls Q c.
Proof.
  intros HQ. unfold clear_stalls, clear_stall. wp_step. apply status_wp. intros r c1 H1 _. wp_step.
  - apply status_wp. intros r2 c2 H2 _. apply HQ. by eapply quiet_trans.
  - wp_step. by apply HQ.
Qed.

(** The wake on a reopened session. *)
Lemma wake_wp others n k runLoop (Q : Z * bool → activation → Prop) c :
  session_inv others n (adev c) → 0 <= n < UINT32_MAX - 1 →
  (∀ r seen c', session_inv others (n + 2) (adev c') →
     (r = kIOReturnSuccess → opened_ (session_of c') = opened_ (session_of c) ∧ any_in_flight c' = false ∧
        ∃ t3, clock c <= t3 ∧
          packets c' = packets c ++ (if can_write (session_of c') then [(t3, framed kWake)] else [])) →
     Q (r, seen) c') → wp (wake k runLoop) Q c.
Proof.
  intros Hi Hn HQ. unfold wake. do 2 wp_step. cbv zeta. wp_step. eapply acquire_wp'; [exact Hi|lia|].
  intros r1 c1 I1 D1. wp_step. { wp_step. apply HQ; [weaken|lia]. }
  wp_step. apply clear_stalls_wp. intros r2 c2 H2. pose proof (quiet_inv _ _ _ _ H2 I1) as I2. wp_step.
  { eapply release_and_wp; [exact I2|lia|]. intros c3 I3. apply HQ; [weaken|lia]. }
  do 2 wp_step. wp_step. apply start_reads_quiet. intros r3 c3 H3.
  assert (quiet c2 c3) as H3' by (eapply quiet_trans; [|exact H3]; by split). pose proof (quiet_inv _ _ _ _ H3' I2) as I3.
  assert (same_device c c3) as D3 by (eapply same_device_trans; [exact D1|]; apply quiet_device; by eapply quiet_trans).
  clear H3. wp_step.
  { wp_step. apply drain_quiet. intros c4 H4. eapply release_and_wp; [by eapply quiet_inv|lia|]. intros c5 I5.
    apply HQ; [weaken|lia]. }
  wp_step.
  { wp_step. eapply stop_reads_wp; [exact I3|lia|]. intros r4 c4 I4 _ _ _ _ _. wp_step.
    apply HQ; [weaken|by intros ?%no_memory_fails]. }
  wp_step. apply pass_wp. intros c4 H4 P4 C4. wp_step. apply send_wp; [by right; right|]. intros r5 c5 H5 R5 P5.
  wp_step. apply pass_wp. intros c6 H6 P6 _. do 2 wp_step. cbv zeta.
  assert (later c3 c6) as H36 by (eapply later_trans; [exact H4|]; by eapply later_trans).
  wp_step. eapply stop_reads_wp; [eapply later_inv; [exact H36|exact I3]|lia|].
  intros r7 c7 I7 O7 W7 P7 C7 F7. destruct D3 as [O3 W3 P3 C3].
  assert (session_of c6 = session_of c3) as E6 by apply H36. assert (session_of c4 = session_of c3) as E4 by apply H4.
  assert (session_inv others (n + 2) (adev c7)) as I7' by (by replace (n + 2) with (n + 1 + 1) by (clear; lia)).
  assert (clock c <= clock c4) as Tc by (clear -C3 C4; lia).
  wp_step; wp_step; apply HQ; try done; intros E; match goal with H : _ && _ = _ |- _ => rename H into Eb end.
  { clear -E Eb. lia. }
  rewrite O7, E6, O3. split; [done|]. split; [apply F7; clear -E Eb; lia|]. exists (clock c4).
  split; [done|]. by rewrite P7, P6, P5, P4, P3, W7, E6, E4.
Qed.

(** C7: whatever the system answers, however long its answers take and in whatever order reads
    complete, activation keeps the session's references balanced; when it succeeds the session is
    open, no read is in flight, and exactly these packets were written in this order: host identify,
    once the writer got to it after it noted the time; the jog message at least 795 ms after that time;
    and, when the reopened session has a MIDI output pipe, the wake message at least 796 ms after that
    time and 1 ms after the jog message.  (Without the pipe no wake message can be written, and activation
    still succeeds when the device has replied.) *)
Theorem activation_follows_protocol others n k runLoop c :
  session_inv others n (adev c) → 0 <= n < UINT32_MAX - 5 →
  let '(r, _, c') := ControllerActivation_activate k None runLoop c in
  session_inv others (n + 6) (adev c') ∧
  (r = kIOReturnSuccess →
   ready (session_of c') ∧ any_in_flight c' = false ∧
   ∃ started t2 t3, clock c <= started ∧
     packets c' = packets c ++
       [(started + Z.max 0 (before_identify (sequence_arrivals k)).2, framed kHostIdentify); (t2, framed kJogEnable)] ++
       (if midiOutPipe_ (session_of c') =? 0 then [] else [(t3, framed kWake)]) ∧
     started + milliseconds 795 <= t2 ∧ started + milliseconds 796 <= t3 ∧ t2 + milliseconds 1 <= t3).
Proof.
  intros Hi Hn.
  enough (wp (ControllerActivation_activate k None runLoop) (λ p c',
  session_inv others (n + 6) (adev c') ∧
  (p.1 = kIOReturnSuccess →
   ready (session_of c') ∧ any_in_flight c' = false ∧
   ∃ started t2 t3, clock c <= started ∧
     packets c' = packets c ++
       [(started + Z.max 0 (before_identify (sequence_arrivals k)).2, framed kHostIdentify); (t2, framed kJogEnable)] ++
       (if midiOutPipe_ (session_of c') =? 0 then [] else [(t3, framed kWake)]) ∧
     started + milliseconds 795 <= t2 ∧ started + milliseconds 796 <= t3 ∧ t2 + milliseconds 1 <= t3)) c)
    as H by (unfold wp in H; destruct (ControllerActivation_activate k None runLoop c) as [[r b] c']; exact H).
  unfold ControllerActivation_activate. do 2 wp_step. wp_step.
  { wp_step. split; [weaken|by intros ?%not_ready_fails]. }
  cbv zeta. wp_step. eapply acquire_wp'; [exact Hi|lia|].
  intros r1 c1 I1 D1. wp_step. { wp_step. split; [weaken|cbn; lia]. }
  wp_step. apply clear_stalls_wp. intros r2 c2 H2. pose proof (quiet_inv _ _ _ _ H2 I1) as I2. wp_step.
  { eapply release_and_wp; [exact I2|lia|]. intros c3 I3. split; [weaken|cbn; lia]. }
  do 2 wp_step. wp_step. apply start_reads_quiet. intros r3 c3 H3.
  assert (quiet c2 c3) as H3' by (eapply quiet_trans; [|exact H3]; by split). pose proof (quiet_inv _ _ _ _ H3' I2) as I3.
  assert (same_device c c3) as [_ _ P3 C3] by (eapply same_device_trans; [exact D1|]; apply quiet_device; by eapply quiet_trans).
  clear H3. wp_step.
  { unfold stop_running, abort_pipe. do 2 wp_step. wp_step. apply status_wp. intros r4 c4 H4 _. wp_step. apply drain_quiet. intros c5 H5.
    assert (session_inv others (n + 1) (adev c5)) as I5.
    { eapply quiet_inv; [|exact I3]. eapply quiet_trans; [|eapply quiet_trans; [exact H4|exact H5]]. by split. }
    do 2 wp_step. wp_step; [wp_step; split; [weaken|by intros ?%timeout_fails]|].
    eapply release_and_wp; [exact I5|lia|]. intros c6 I6. split; [weaken|cbn; lia]. }
  wp_step.
  { wp_step. eapply stop_reads_wp; [exact I3|lia|]. intros r4 c4 I4 _ _ _ _ _. wp_step.
    split; [weaken|by intros ?%no_memory_fails]. }
  wp_step. apply sequence_wp. intros r4 c4 H4 S4. wp_step. eapply stop_reads_wp; [by eapply later_inv|lia|].
  intros r5 c5 I5 _ _ P5 C5 _. wp_step. { wp_step. split; [weaken|cbn; lia]. }
  wp_step. { wp_step. split; [weaken|cbn; lia]. }
  destruct S4 as (t1 & t2 & P4 & T1 & T2 & T3 & T4); [lia|]. unfold reopen. wp_step. wp_step. wp_step. wp_step; [lia|].
  unfold on_session. wp_step. wp_step. destruct I5 as [K1 K2 K3 K4].
  eapply close_wp; [by apply session_ok_consistent|exact K2|exact K4|]. intros r6 u6 Hc6 B6.
  wp_step. { wp_step. wp_step; [|lia]. wp_step. split; [by apply closed_inv; [lia|..]|cbn; lia]. }
  wp_step. eapply open_wp; [exact Hc6|exact B6|]. intros r7 u7 Ho7 B7. wp_step.
  { wp_step. destruct Ho7 as [[? _]|[? Hc7]]; [lia|]. split; [by apply closed_inv; [lia|..]|cbn; lia]. }
  destruct Ho7 as [[? [R7 O7]]|[? _]]; [|lia].
  eapply (wake_wp others (n + 3)); [|lia|].
  { split; cbn [adev set_field]; [by right|by rewrite (og_mode _ O7)|destruct (og_clients _ O7) as [-> ->]; lia|exact B7]. }
  intros r8 seen c8 I8 S8. split; [weaken|]. cbn [fst]. intros E8. destruct (S8 E8) as (O8 & F8 & t3 & T8 & P8).
  cbn [session_of adev set_field packets clock] in O8, P8, T8. split; [|split; [done|]].
  { destruct (si_ok _ _ _ I8) as [Hc|Hr]; [|done]. exfalso. unfold session_of in O8. rewrite Hc in O8. cbn in O8.
    rewrite (rd_open _ R7) in O8. done. }
  exists (clock c3), t2, t3. split; [rewrite C3; reflexivity|].
  assert (can_write (session_of c8) = negb (midiOutPipe_ (session_of c8) =? 0)) as Ew.
  { unfold can_write. rewrite negb_orb, (proj2 (Z.eqb_neq _ 0)); [done|].
    apply (c_open _ (session_ok_consistent _ (si_ok _ _ _ I8))). unfold session_of in O8. rewrite O8. apply R7. }
  rewrite P8, P5, P4, P3, T1, Ew, <- !app_assoc. split; [by destruct (midiOutPipe_ (session_of c8) =? 0)|].
  clear -T2 T3 T4 T8 C5. lia.
Qed.
End protocol.

(** ** A device that replies *)

(** An NS6 that is opened, activated and opened again. *)
Definition reopening_answer (n : nat) : reply :=
  ns6_answer (if decide (n < 25)%nat then n else if decide (n < 42)%nat then 100%nat else n - 42)%nat.

Definition reopening_usb : usb :=
  {| ses := NS6DeviceSession_new;
     io := {| answer := reopening_answer; calls := 0; held := λ _, 0; sent := [] |} |}.

Definition aborted_reads : list read_done :=
  map (λ i, {| rd_index := i; rd_status := 0xe00002eb; rd_bytes := [] |}) [0; 1; 2; 3].

(** The reply arrives in two reports while the first wait lasts. *)
Definition handshake : schedule := {|
  sequence_thread := true;
  sequence_arrivals := {|
    before_identify := ([], 20000);
    while_waiting := [[]; [{| rd_index := 1; rd_status := 0; rd_bytes := [0xfd; 0xf0; 0x00; 0x01; 0xfd; 0x3f] |};
                           {| rd_index := 0; rd_status := 0; rd_bytes := [0x00; 0x79; 0x51; 0x07] |}]];
    before_jog := ([], 5000); after_jog := ([], 5000) |};
  drain_failed_start := []; drain_sequence := [aborted_reads]; drain_failed_restart := [];
  wake_thread := true; wake_arrivals := (([], 1000), ([], 1000)); drain_wake := [[]; aborted_reads] |}.

Definition opened_usb : usb := (@run_op iokit_returns usb_constants Open reopening_usb).2.

Definition before_handshake (u : usb) : activation := {|
  reads := []; matched_ := 0; handshakeReplySeen := false; firstCompletionLogged := false; clock := 0;
  packets := []; adev := u |}.

Lemma wp_out {S A} (m : M S A) (Q : A → S → Prop) s : wp m Q s → Q (m s).1 (m s).2.
Proof. unfold wp. by destruct (m s). Qed.

Lemma opened_usb_inv : session_inv (λ _, 0) 1 opened_usb.
Proof.
  refine (wp_out (@run_op iokit_returns usb_constants Open) (λ _, session_inv (λ _, 0) 1) reopening_usb _).
  apply (@run_op_inv iokit_returns iokit_returns_laws usb_constants (λ _, 0) 0 Open reopening_usb);
    [apply closed_inv; [lia|reflexivity|intros o; reflexivity]|unfold UINT32_MAX; lia].
Qed.

Lemma handshake_succeeds :
  let '(r, seen, c') := @ControllerActivation_activate iokit_returns usb_constants handshake None 9 (before_handshake opened_usb) in
  (r, seen, midiOutPipe_ (session_of c') =? 0) = (0, true, false).
Proof. vm_compute. reflexivity. Qed.

Lemma activation_follows_protocol_witness :
  let '(_, _, c') := @ControllerActivation_activate iokit_returns usb_constants handshake None 9 (before_handshake opened_usb) in
  ready (session_of c') ∧
  ∃ started t2 t3, packets c' =
    [(started + 20000, framed kHostIdentify); (t2, framed kJogEnable); (t3, framed kWake)] ∧ started + 796000000 <= t3.
Proof.
  pose proof (@activation_follows_protocol iokit_returns iokit_returns_laws usb_constants (λ _, 0) 1 handshake 9
    (before_handshake opened_usb) opened_usb_inv ltac:(unfold UINT32_MAX; lia)) as H.
  pose proof handshake_succeeds as E. revert E H.
  generalize (@ControllerActivation_activate iokit_returns usb_constants handshake None 9 (before_handshake opened_usb)).
  intros [[r seen] c'] E [_ H]. injection E as -> _ Ep. destruct (H eq_refl) as (Hr & _ & started & t2 & t3 & _ & Hp & _ & Ht & _).
  rewrite Ep in Hp. split; [exact Hr|]. exists started, t2, t3. split; [exact Hp|]. exact Ht.
Defined.

(** When a read cannot be submitted on the reopened session and the aborted ones do not complete
    in time, activation returns while they are in flight, although its buffers end with it. *)
Lemma failed_restart_can_leave_reads :
  let refusing n := if decide (n = 70)%nat then {| status := 1; value := 0; bytes := []; found := [] |}
                    else reopening_answer n in
  let '(r, _, c') := @ControllerActivation_activate iokit_returns usb_constants handshake None 9
    (before_handshake (@run_op iokit_returns usb_constants Open (reopening_usb <| io ::= λ w, w <| answer := refusing |> |>)).2) in
  r = 1 ∧ any_in_flight c' = true ∧ eventClients_ (session_of c') = 0.
Proof. vm_compute. repeat split; reflexivity. Qed.
