(* ===== verification/AudioDriver.v ===== *)
(** * The CoreAudio driver (numark-ns6/coreaudio/NS6AudioDriver.cpp)

    The plug-in keeps a registry of clients with a slot of I/O activity for each, counts their
    starts per device ([Lifecycle]) and runs the hardware while any client is active: a USB
    session and the transport runtime on it.  A monitor reopens the hardware when the device
    is replaced.  Every operation holds the driver's mutex, so each is one step here; the I/O
    callbacks touch the activity slots and the engines only. *)

From stdpp Require Import base list numbers tactics.
From Stdlib Require Import ZArith Lia ZifyBool SpecFloat.
From S2P Require Import Prelude Float IoKit UsbSession InputEngine Activation Lifecycle.

(** Results: the codes of CoreAudio and those of IOKit that the driver passes on. *)
Inductive OSStatus :=
  | noErr | BadObjectError | NotReadyError | IllegalOperationError | UnsupportedOperationError
  | UnknownPropertyError | BadPropertySizeError | UnspecifiedError | IOStatus (r : Z).

#[export] Instance os_status_eq_dec : EqDecision OSStatus.
Proof. solve_decision. Defined.

(** ** AudioTransportRuntime

    The runtime owns a worker thread.  What that thread does with the session until it has
    published its result, and after it was asked to stop, are arguments. *)

Record AudioTransportRuntime := {
  rt_worker : bool;
  rt_workerRunLoop : Z;
  rt_stopRequested : bool;
  rt_inputEnabled : bool;
  rt_startComplete : bool;
  rt_startResult : Z;
  rt_midiEnabled : bool
}.

#[export] Instance eta_runtime : Eta AudioTransportRuntime := λ r,
  Build_AudioTransportRuntime (rt_worker r) (rt_workerRunLoop r) (rt_stopRequested r) (rt_inputEnabled r)
    (rt_startComplete r) (rt_startResult r) (rt_midiEnabled r).

Record worker_thread := {
  thread_created : bool;
  until_started : bool → bool → M usb (Z * Z);
  until_ended : M usb ()
}.

Record rt_ctx := { rt : AudioTransportRuntime; rt_usb : usb }.
#[export] Instance eta_rt_ctx : Eta rt_ctx := λ c, Build_rt_ctx (rt c) (rt_usb c).

(** ** State *)

Definition kPluginObjectID : Z := 1.
Definition kDeviceObjectID : Z := 2.
Definition kOutputStreamObjectID : Z := 3.
Definition kInputStreamObjectID : Z := 4.
Definition kInputDeviceObjectID : Z := 5.
Definition kSampleRate : Z := 44100.
Definition kDriverChannels : Z := 4.
Definition kInputChannels : Z := 2.
Definition kBytesPerFrame : Z := kDriverChannels * 4.
Definition kRingCapacityFrames : Z := 16384.
Definition kZeroTimestampPeriodFrames : Z := 16384.
Definition kMaxClients : Z := 64.

Record driver_client := {
  dc_device : Z; dc_id : Z; dc_pid : Z; dc_starts : Z; dc_activitySlot : Z; dc_bundle : list Z }.

Record ActivitySlot := { as_key : Z; as_lastIO : Z; as_inputCalls : Z; as_inputSignalBlocks : Z }.

Record DriverState := {
  host : bool;
  outputLifecycle : AudioDeviceLifecycle;
  inputLifecycle : AudioDeviceLifecycle;
  output : AudioOutputEngine;
  input : AudioInputEngine;
  session : option NS6DeviceSession;
  runtime : option AudioTransportRuntime;
  firmwareVersion : option (Z * Z * Z);
  clients : list driver_client;
  activity : list ActivitySlot;
  clientCount : Z;
  references : Z;
  monitor : bool;
  running : bool;
  timestampAnchor : Z;
  timestampSeed : Z;
  notified : list Z;
  machine : world
}.

#[export] Instance eta_client : Eta driver_client := λ c,
  Build_driver_client (dc_device c) (dc_id c) (dc_pid c) (dc_starts c) (dc_activitySlot c) (dc_bundle c).
#[export] Instance eta_activity : Eta ActivitySlot := λ s,
  Build_ActivitySlot (as_key s) (as_lastIO s) (as_inputCalls s) (as_inputSignalBlocks s).
#[export] Instance eta_driver : Eta DriverState := λ s,
  Build_DriverState (host s) (outputLifecycle s) (inputLifecycle s) (output s) (input s) (session s) (runtime s)
    (firmwareVersion s) (clients s) (activity s) (clientCount s) (references s) (monitor s) (running s) (timestampAnchor s)
    (timestampSeed s) (notified s) (machine s).

Definition no_client : driver_client :=
  {| dc_device := 0; dc_id := 0; dc_pid := 0; dc_starts := 0; dc_activitySlot := 0; dc_bundle := [] |}.
Definition no_activity : ActivitySlot :=
  {| as_key := 0; as_lastIO := 0; as_inputCalls := 0; as_inputSignalBlocks := 0 |}.
#[export] Instance driver_client_inhabited : Inhabited driver_client := populate no_client.
#[export] Instance activity_inhabited : Inhabited ActivitySlot := populate no_activity.
Section driver.
Context `{IOReturns, UsbConstants}.

Definition AudioTransportRuntime_new : AudioTransportRuntime := {|
  rt_worker := false; rt_workerRunLoop := 0; rt_stopRequested := false; rt_inputEnabled := false;
  rt_startComplete := false; rt_startResult := kIOReturnNotReady; rt_midiEnabled := false |}.

(** [publishStartResult]; the run loop is null when the start failed. *)
Definition publishStartResult (result runLoop : Z) (r : AudioTransportRuntime) : AudioTransportRuntime :=
  (if negb (runLoop =? 0) then r <| rt_workerRunLoop := runLoop |> else r)
    <| rt_startResult := result |> <| rt_startComplete := true |>.

Definition AudioTransportRuntime_start (t : worker_thread) (midiEnabled inputEnabled : bool) : M rt_ctx Z :=
  c ← gets id;
  if rt_worker (rt c) then mret kIOReturnExclusiveAccess
  else
    modify (λ c, c <| rt ::= λ r, r <| rt_stopRequested := false |> <| rt_startComplete := false |>
                                    <| rt_startResult := kIOReturnNotReady |> <| rt_midiEnabled := midiEnabled |>
                                    <| rt_inputEnabled := inputEnabled |> |>);;
    if negb (thread_created t) then mret kIOReturnNoResources
    else
      modify (λ c, c <| rt ::= λ r, r <| rt_worker := true |> |>);;
      '(result, runLoop) ← zoom rt_usb (until_started t midiEnabled inputEnabled);
      modify (λ c, c <| rt ::= publishStartResult result (if result =? kIOReturnSuccess then runLoop else 0) |>);;
      c ← gets id;
      let result := rt_startResult (rt c) in
      (if negb (result =? kIOReturnSuccess) && rt_worker (rt c)
       then modify (λ c, c <| rt ::= λ r, r <| rt_worker := false |> |>) else mret ());;
      mret result.

Definition AudioTransportRuntime_setInputEnabled (enabled : bool) (r : AudioTransportRuntime) : AudioTransportRuntime :=
  r <| rt_inputEnabled := enabled |>.

Definition AudioTransportRuntime_stop (t : worker_thread) : M rt_ctx Z :=
  c ← gets id;
  if negb (rt_worker (rt c)) then mret kIOReturnSuccess
  else
    modify (λ c, c <| rt ::= λ r, r <| rt_stopRequested := true |> |>);;
    zoom rt_usb (until_ended t);;
    modify (λ c, c <| rt ::= λ r, r <| rt_workerRunLoop := 0 |> <| rt_worker := false |> |>);;
    mret kIOReturnSuccess.


Definition DriverState_new (anchor : Z) (out_engine : AudioOutputEngine) (in_engine : AudioInputEngine) (w : world)
    : DriverState := {|
  host := false; outputLifecycle := AudioClientLifecycle_new; inputLifecycle := AudioClientLifecycle_new;
  output := out_engine; input := in_engine; session := None; runtime := None; firmwareVersion := None;
  clients := replicate (Z.to_nat kMaxClients) no_client; activity := replicate (Z.to_nat kMaxClients) no_activity;
  clientCount := 0; references := 1; monitor := false; running := false; timestampAnchor := anchor;
  timestampSeed := 1; notified := []; machine := w |}.

(** ** Objects and clients *)

Definition validObject (id : Z) : bool :=
  (id =? kPluginObjectID) || (id =? kDeviceObjectID) || (id =? kInputDeviceObjectID) ||
  (id =? kOutputStreamObjectID) || (id =? kInputStreamObjectID).

Definition validDevice (id : Z) : bool := (id =? kDeviceObjectID) || (id =? kInputDeviceObjectID).

Definition lifecycle (device : Z) (s : DriverState) : AudioDeviceLifecycle :=
  if device =? kDeviceObjectID then outputLifecycle s else inputLifecycle s.

(** An operation on the lifecycle of a device. *)
Definition on_lifecycle (device : Z) (op : AudioDeviceLifecycle → AudioIOTransition * AudioDeviceLifecycle)
    : M DriverState AudioIOTransition := λ s,
  if device =? kDeviceObjectID
  then let '(t, l) := op (outputLifecycle s) in (t, s <| outputLifecycle := l |>)
  else let '(t, l) := op (inputLifecycle s) in (t, s <| inputLifecycle := l |>).

Definition anyActive (s : DriverState) : bool :=
  negb (AudioDeviceLifecycle_activeStarts (outputLifecycle s) =? 0) ||
  negb (AudioDeviceLifecycle_activeStarts (inputLifecycle s) =? 0).

Definition syncInputCapture : M DriverState () := modify (λ s,
  s <| runtime ::= option_map (AudioTransportRuntime_setInputEnabled
         (negb (AudioDeviceLifecycle_activeStarts (inputLifecycle s) =? 0))) |>).

Definition is_client (device id : Z) (c : driver_client) : bool := (dc_device c =? device) && (dc_id c =? id).

(** The registered clients. *)
Definition registered (s : DriverState) : list driver_client := take (Z.to_nat (clientCount s)) (clients s).

(** The index of the first element that passes the test. *)
Fixpoint first_index {A} (test : A → bool) (l : list A) (i : Z) : option Z :=
  match l with
  | [] => None
  | x :: l' => if test x then Some i else first_index test l' (i + 1)
  end.

Definition hasClient (device id : Z) (s : DriverState) : bool := existsb (is_client device id) (registered s).

Definition activity_key (device id : Z) : Z := Z.lor (u64 (Z.shiftl device 32)) id.

Record client_info := { mClientID : Z; mProcessID : Z; mBundle : list Z }.

Definition addClient (device : Z) (info : option client_info) : M DriverState OSStatus :=
  match info with
  | None => mret BadObjectError
  | Some info =>
      if negb (validDevice device) then mret BadObjectError else
      s ← gets id;
      if hasClient device (mClientID info) s then mret noErr
      else if clientCount s =? kMaxClients then mret NotReadyError
      else match first_index (λ a, as_key a =? 0) (activity s) 0 with
      | None => mret NotReadyError
      | Some slot =>
          modify (λ s, s <| clients := wr (clients s) (clientCount s)
                              {| dc_device := device; dc_id := mClientID info; dc_pid := mProcessID info;
                                 dc_starts := 0; dc_activitySlot := slot; dc_bundle := mBundle info |} |>
                         <| clientCount ::= λ n, n +₃₂ 1 |>);;
          modify (λ s, s <| activity ::= λ l, wr l slot
                              {| as_key := activity_key device (mClientID info); as_lastIO := 0; as_inputCalls := 0;
                                 as_inputSignalBlocks := 0 |} |>);;
          mret noErr
      end
  end.

Definition notifyRunningChanged (device : Z) : M DriverState () := modify (λ s,
  if host s then s <| notified ::= λ l, l ++ [device] |> else s).

(** ** Hardware *)

(** The session, when there is one. *)
Definition on_usb {A} (m : M usb A) (absent : A) : M DriverState A := λ s,
  match session s with
  | None => (absent, s)
  | Some x =>
      let '(a, u) := m {| ses := x; io := machine s |} in
      (a, s <| session := Some (ses u) |> <| machine := io u |>)
  end.

(** The runtime, which refers to the session, when there is one. *)
Definition on_runtime {A} (m : M rt_ctx A) (absent : A) : M DriverState A := λ s,
  match runtime s, session s with
  | Some r, Some x =>
      let '(a, c) := m {| rt := r; rt_usb := {| ses := x; io := machine s |} |} in
      (a, s <| runtime := Some (rt c) |> <| session := Some (ses (rt_usb c)) |> <| machine := io (rt_usb c) |>)
  | _, _ => (absent, s)
  end.

Definition activation_on (k : schedule) (runLoop : Z) : M usb Z := λ u,
  let '(r, _, c) := ControllerActivation_activate k None runLoop
      {| reads := []; matched_ := 0; handshakeReplySeen := false; firstCompletionLogged := false;
         clock := 0; packets := []; adev := u |} in
  (r, adev c).

(** What the system does during one start of the hardware. *)
Record hardware := {
  session_allocated : bool;
  runtime_allocated : bool;
  first_worker : worker_thread;
  second_worker : worker_thread;
  activation_schedule : schedule;
  current_loop : Z;
  host_time : Z
}.

(** [runtime->stop(); runtime.reset(); session->close(); session.reset();] *)
Definition abandon_hardware (t : worker_thread) : M DriverState () :=
  _ ← on_runtime (AudioTransportRuntime_stop t) kIOReturnSuccess;
  modify (λ s, s <| runtime := None |>);;
  _ ← on_usb NS6DeviceSession_close kIOReturnSuccess;
  modify (λ s, s <| session := None |>).

Definition out_of_memory (t : worker_thread) : M DriverState Z := abandon_hardware t;; mret kIOReturnNoMemory.

(** [if (result == kIOReturnSuccess) result = ...;] *)
Definition and_then (result : Z) (m : M DriverState Z) : M DriverState Z :=
  if result =? kIOReturnSuccess then m else mret result.

Definition input_active (s : DriverState) : bool := negb (AudioDeviceLifecycle_activeStarts (inputLifecycle s) =? 0).

(** The end of [startHardware]. *)
Definition finish_start (h : hardware) (resetTimestampAnchor : bool) (result : Z) : M DriverState Z :=
  if negb (result =? kIOReturnSuccess) then (abandon_hardware (second_worker h);; mret result)
  else
    modify (λ s, s <| firmwareVersion := match session s with
                                         | Some x => match firmwareVersion_ x with None => firmwareVersion s | v => v end
                                         | None => firmwareVersion s end |>);;
    modify (λ s, if resetTimestampAnchor then s <| timestampAnchor := host_time h |> else s);;
    modify (λ s, s <| timestampSeed ::= λ n, n +₆₄ 1 |> <| running := true |>);;
    mret kIOReturnSuccess.

(** From the creation of the runtime on. *)
Definition start_transport (h : hardware) (resetTimestampAnchor : bool) : M DriverState Z :=
  modify (λ s, s <| runtime := Some AudioTransportRuntime_new |>);;
  result ← on_runtime (AudioTransportRuntime_start (first_worker h) false false) kIOReturnNotReady;
  result ← and_then result (on_runtime (AudioTransportRuntime_stop (first_worker h)) kIOReturnNotReady);
  result ← and_then result (on_usb (activation_on (activation_schedule h) (current_loop h)) kIOReturnNotReady);
  result ← and_then result (on_usb NS6DeviceSession_configureAudioInputMode kIOReturnNotReady);
  result ← and_then result (s ← gets id;
    on_runtime (AudioTransportRuntime_start (second_worker h) true (input_active s)) kIOReturnNotReady);
  finish_start h resetTimestampAnchor result.

Definition startHardware (h : hardware) (resetTimestampAnchor : bool) : M DriverState Z :=
  if negb (session_allocated h) then out_of_memory (first_worker h) else
  modify (λ s, s <| session := Some NS6DeviceSession_new |>);;
  result ← on_usb NS6DeviceSession_open kIOReturnNotReady;
  if negb (result =? kIOReturnSuccess) then (modify (λ s, s <| session := None |>);; mret result) else
  result ← on_usb NS6DeviceSession_configureAudioInputMode kIOReturnNotReady;
  if negb (result =? kIOReturnSuccess)
  then (_ ← on_usb NS6DeviceSession_close kIOReturnSuccess; modify (λ s, s <| session := None |>);; mret result) else
  if negb (runtime_allocated h) then out_of_memory (first_worker h) else
  start_transport h resetTimestampAnchor.

Definition stopHardware (t : worker_thread) : M DriverState Z :=
  result ← on_runtime (AudioTransportRuntime_stop t) kIOReturnSuccess;
  if negb (result =? kIOReturnSuccess) then mret result else
  modify (λ s, s <| runtime := None |>);;
  result ← on_usb NS6DeviceSession_close kIOReturnSuccess;
  modify (λ s, s <| session := None |> <| running := false |>);;
  mret result.

(** ** Starting and stopping I/O *)

(** The count of starts of a registered client, the first that passes the test. *)
Definition count_start (test : driver_client → bool) (f : Z → Z) : M DriverState () := modify (λ s,
  match first_index test (registered s) 0 with
  | Some i => s <| clients ::= λ l, wr l i ((rd l i) <| dc_starts ::= f |>) |>
  | None => s
  end).

Definition startIO (h : hardware) (device client : Z) : M DriverState OSStatus :=
  if negb (validDevice device) then mret BadObjectError else
  s ← gets id;
  if negb (hasClient device client s) then mret BadObjectError else
  let wasIdle := negb (anyActive s) in
  transition ← on_lifecycle device (AudioDeviceLifecycle_startIO client);
  if decide (transition = Rejected) then mret BadObjectError else
  result ← (if wasIdle then startHardware h true else mret kIOReturnSuccess);
  if negb (result =? kIOReturnSuccess)
  then (_ ← on_lifecycle device (AudioDeviceLifecycle_stopIO client); mret (IOStatus result)) else
  count_start (is_client device client) (λ n, n +₃₂ 1);;
  syncInputCapture;;
  (if decide (transition = FirstClientStarted) then notifyRunningChanged device else mret ());;
  mret noErr.

(** After the last stop of a device: the hardware stops when no other client is active. *)
Definition last_stopped (t : worker_thread) (device : Z) : M DriverState OSStatus :=
  s ← gets id;
  result ← (if anyActive s then mret kIOReturnSuccess else stopHardware t);
  (if result =? kIOReturnSuccess then notifyRunningChanged device else mret ());;
  mret (IOStatus result).

Definition stopIO (t : worker_thread) (device client : Z) : M DriverState OSStatus :=
  if negb (validDevice device) then mret BadObjectError else
  s ← gets id;
  if negb (hasClient device client s) then mret BadObjectError else
  transition ← on_lifecycle device (AudioDeviceLifecycle_stopIO client);
  if decide (transition = ClientNotActive) then mret noErr else
  count_start (λ c, is_client device client c && negb (dc_starts c =? 0)) (λ n, n -₃₂ 1);;
  syncInputCapture;;
  if decide (transition = LastClientStopped) then last_stopped t device else mret noErr.

Definition removeClient (t : worker_thread) (device : Z) (info : option client_info) : M DriverState OSStatus :=
  match info with
  | None => mret BadObjectError
  | Some info =>
      if negb (validDevice device) then mret BadObjectError else
      s ← gets id;
      match first_index (is_client device (mClientID info)) (registered s) 0 with
      | None => mret noErr
      | Some i =>
          transition ← on_lifecycle device (AudioDeviceLifecycle_removeClient (mClientID info));
          modify (λ s, s <| activity ::= λ l, let slot := dc_activitySlot (rd (clients s) i) in
                                              wr l slot ((rd l slot) <| as_key := 0 |>) |>);;
          modify (λ s, s <| clientCount ::= λ n, n -₃₂ 1 |>);;
          modify (λ s, s <| clients ::= λ l, wr l i (rd l (clientCount s)) |>);;
          syncInputCapture;;
          if decide (transition = LastClientStopped) then last_stopped t device else mret noErr
      end
  end.

(** ** The monitor *)

(** One round of [monitorUSB] after its sleep, with the counter of rounds. *)
Definition monitor_round (h : hardware) (t : worker_thread) (ticks : Z) : M DriverState Z :=
  s ← gets id;
  if negb (anyActive s) then mret ticks else
  let ticks := ticks +₃₂ 1 in
  (if ticks mod 10 =? 0 then modify (λ s, s <| output ::= λ e, (AudioOutputEngine_takeMaxMixGapTicks e).2 |>) else mret ());;
  current ← on_usb NS6DeviceSession_isCurrentDevice true;
  (if negb current then (_ ← stopHardware t; mret ()) else mret ());;
  s ← gets id;
  present ← (match session s with None => zoom machine NS6DeviceSession_devicePresent | Some _ => mret false end);
  (if (present : bool) then (_ ← startHardware h false; mret ()) else mret ());;
  mret ticks.

(** ** Plug-in *)

Definition queryInterface (ours out known : bool) : M DriverState bool :=
  if negb ours || negb out then mret false
  else if negb known then mret false
  else (modify (λ s, s <| references ::= λ n, n +₃₂ 1 |>);; mret true).

Definition addRef : M DriverState Z :=
  s ← gets id; modify (λ s, s <| references ::= λ n, n +₃₂ 1 |>);; mret (references s +₃₂ 1).

Definition releaseRef : M DriverState Z :=
  modify (λ s, if references s >? 1 then s <| references ::= λ n, n -₃₂ 1 |> else s);; gets references.

(** [changed] is the result of the host's [PropertiesChanged], absent without a usable host. *)
Definition initialize (changed : option OSStatus) (thread_created : bool) : M DriverState OSStatus :=
  match changed with
  | None => mret IllegalOperationError
  | Some result =>
      modify (λ s, s <| host := true |>);;
      (if decide (result = noErr) then mret () else modify (λ s, s <| host := false |>));;
      s ← gets id;
      if decide (result = noErr) then
        if monitor s then mret result
        else if thread_created then (modify (λ s, s <| monitor := true |>);; mret result)
        else mret NotReadyError
      else mret result
  end.

Definition createDevice (out : bool) : OSStatus := if negb out then IllegalOperationError else UnsupportedOperationError.
Definition destroyDevice : OSStatus := UnsupportedOperationError.
Definition performConfiguration : OSStatus := UnsupportedOperationError.
Definition abortConfiguration : OSStatus := noErr.

(** ** I/O *)

Inductive io_operation := WriteMix | ReadInput | OtherOperation.

Definition processOutputMix (tick : Z) (operation : io_operation) (frames : Z) (samples : option (list spec_float))
    (e : AudioOutputEngine) : OSStatus * AudioOutputEngine :=
  match operation with
  | WriteMix =>
      if (frames >? UINT32_MAX / kBytesPerFrame) ||
         (negb (frames =? 0) && match samples with None => true | Some _ => false end)
      then (IllegalOperationError, e)
      else (noErr, (AudioOutputEngine_writeMix tick samples frames e).2)
  | _ => (noErr, e)
  end.

Definition processInput (operation : io_operation) (frames : Z) (samples : option (list spec_float))
    (e : AudioInputEngine) : OSStatus * option (list spec_float) * AudioInputEngine :=
  match operation with
  | ReadInput =>
      if (frames >? UINT32_MAX / (kInputChannels * 4)) ||
         (negb (frames =? 0) && match samples with None => true | Some _ => false end)
      then (IllegalOperationError, samples, e)
      else let '(_, samples, e) := AudioInputEngine_readInput samples frames e in (noErr, samples, e)
  | _ => (noErr, samples, e)
  end.

Definition handles (device : Z) (op : io_operation) : bool :=
  match op with
  | WriteMix => device =? kDeviceObjectID
  | ReadInput => device =? kInputDeviceObjectID
  | OtherOperation => false
  end.

(** What is stored at [yes] and [inPlace]. *)
Definition willDo (device : Z) (op : io_operation) (pointers : bool) : OSStatus * option (bool * bool) :=
  if negb pointers then (IllegalOperationError, None) else (noErr, Some (handles device op, true)).

(** The activity slot of a client. *)
Definition on_activity (key : Z) (f : ActivitySlot → ActivitySlot) : M DriverState () := modify (λ s,
  match first_index (λ a, as_key a =? key) (activity s) 0 with
  | Some i => s <| activity ::= λ l, wr l i (f (rd l i)) |>
  | None => s
  end).

Definition beginIO (device client : Z) (op : io_operation) (frames now : Z) : M DriverState OSStatus :=
  (if negb (frames =? 0) && handles device op
   then on_activity (activity_key device client) (λ a, a <| as_lastIO := now |>) else mret ());;
  mret noErr.

(** [samples[i] != 0.0f] among the first 64 samples. *)
Definition has_signal (samples : list spec_float) (frames : Z) : bool :=
  existsb (λ x, negb (SFeqb x (S754_zero false))) (take (Z.to_nat (Z.min (u32 (frames * kInputChannels)) 64)) samples).

Definition doIO (tick : Z) (device stream client : Z) (op : io_operation) (frames : Z) (mainBuffer : option (list spec_float))
    : M DriverState (OSStatus * option (list spec_float)) :=
  s ← gets id;
  if (device =? kDeviceObjectID) && (stream =? kOutputStreamObjectID) && handles kDeviceObjectID op then
    let '(result, e) := processOutputMix tick op frames mainBuffer (output s) in
    modify (λ s, s <| output := e |>);; mret (result, mainBuffer)
  else if (device =? kInputDeviceObjectID) && (stream =? kInputStreamObjectID) && handles kInputDeviceObjectID op then
    let '(result, buffer, e) := processInput op frames mainBuffer (input s) in
    modify (λ s, s <| input := e |>);;
    (if decide (result = noErr) then
       match buffer with
       | Some samples =>
           if negb (frames =? 0) then
             on_activity (activity_key device client) (λ a,
               let a := a <| as_inputCalls ::= λ n, n +₆₄ 1 |> in
               if has_signal samples frames then a <| as_inputSignalBlocks ::= λ n, n +₆₄ 1 |> else a)
           else mret ()
       | None => mret ()
       end
     else mret ());;
    mret (result, buffer)
  else mret (noErr, mainBuffer).

Definition endIO : OSStatus := noErr.

(** ** Timestamps; on this machine a [long double] is a binary64 number. *)

Definition nanos : spec_float := d_of_Z 1000000000.

Definition zeroTimestamp (device : Z) (pointers : bool) (now numer denom : Z) (s : DriverState)
    : OSStatus * option (spec_float * Z * Z) :=
  if negb (validDevice device) || negb pointers then (IllegalOperationError, None)
  else
    let anchor := timestampAnchor s in
    let elapsed := if now >=? anchor then now - anchor else 0 in
    let elapsedFrames := d_div (d_mul (d_mul (d_of_Z elapsed) (d_of_Z numer)) (d_of_Z kSampleRate))
                               (d_mul (d_of_Z denom) nanos) in
    let frame := u64 (sf_trunc elapsedFrames) / kZeroTimestampPeriodFrames * kZeroTimestampPeriodFrames in
    let host := anchor +₆₄ sf_trunc (d_div (d_mul (d_mul (d_of_Z frame) nanos) (d_of_Z denom))
                                           (d_mul (d_of_Z kSampleRate) (d_of_Z numer))) in
    (noErr, Some (d_of_Z frame, host, timestampSeed s)).

End driver.
