(* ===== verification/DriverTheory.v ===== *)
(** * The driver refines a registry of counted clients

    The abstract driver is a finite map from the clients of both devices to their outstanding
    starts.  Every operation answers as the map does, and the hardware follows the map: it is
    held only while some client has started, and captures exactly while a client of the input
    device has. *)

From stdpp Require Import base list numbers tactics gmap.
From Stdlib Require Import ZArith Lia ZifyBool.
From S2P Require Import Prelude IoKit UsbSession InputEngine Activation ActivationTheory Lifecycle AudioDriver.

(** ** The runtime and the hardware *)

Section hardware.
Context {codes : IOReturns} {laws : IOReturnsLaws} {constants : UsbConstants}.

Lemma runtime_start_wp t m i (Q : Z → rt_ctx → Prop) c :
  rt_worker (rt c) = false →
  (∀ r c', (r = kIOReturnSuccess → rt_worker (rt c') = true ∧ rt_inputEnabled (rt c') = i) →
     (r ≠ kIOReturnSuccess → rt_worker (rt c') = false) → Q r c') →
  wp (AudioTransportRuntime_start t m i) Q c.
Proof.
  intros Hw HQ. unfold AudioTransportRuntime_start. do 2 wp_step. unfold id. rewrite Hw. do 2 wp_step. wp_step.
  { wp_step. apply HQ; [by intros ?%no_resources_fails|done]. }
  do 2 wp_step. wp_step. wp_step. unfold wp at 1. destruct (until_started t m i _) as [[r loop] u]. do 4 wp_step.
  cbv zeta. wp_step. unfold publishStartResult. cbn [rt set_field rt_startResult]. wp_step.
  - wp_step. wp_step. apply HQ; [lia|]. destruct (negb _); done.
  - wp_step. wp_step. apply HQ; [|].
    + intros _. destruct (negb (_ =? 0)); done.
    + intros Hr. exfalso. destruct (negb ((if r =? kIOReturnSuccess then loop else 0) =? 0)); cbn in *; lia.
Qed.

Lemma runtime_stop_wp t (Q : Z → rt_ctx → Prop) c :
  (∀ c', rt_worker (rt c') = false → Q kIOReturnSuccess c') → wp (AudioTransportRuntime_stop t) Q c.
Proof.
  intros HQ. unfold AudioTransportRuntime_stop. do 2 wp_step. wp_step; [wp_step; apply HQ; unfold id in *; by destruct (rt_worker (rt c))|].
  do 2 wp_step. wp_step. wp_step. unfold wp at 1. destruct (until_ended t _) as [[] u]. do 3 wp_step. by apply HQ.
Qed.

(** What the hardware does not touch. *)
Record same_registry (s s' : DriverState) : Prop := {
  sr_out : outputLifecycle s' = outputLifecycle s;
  sr_in : inputLifecycle s' = inputLifecycle s;
  sr_clients : clients s' = clients s;
  sr_count : clientCount s' = clientCount s;
  sr_activity : activity s' = activity s
}.

Lemma same_registry_refl s : same_registry s s.
Proof. by split. Qed.

Lemma same_registry_trans a b c : same_registry a b → same_registry b c → same_registry a c.
Proof. intros [] []. split; congruence. Qed.

(** The hardware is off, or it runs with capture [i]. *)
Definition hardware_off (s : DriverState) : Prop := session s = None ∧ runtime s = None ∧ running s = false.
Definition hardware_on (i : bool) (s : DriverState) : Prop :=
  is_Some (session s) ∧ running s = true ∧
  ∃ r, runtime s = Some r ∧ rt_worker r = true ∧ rt_inputEnabled r = i.

Lemma on_usb_wp {A} (m : M usb A) a (Q : A → DriverState → Prop) s :
  (∀ r s', same_registry s s' → runtime s' = runtime s → running s' = running s →
     (is_Some (session s) → is_Some (session s')) → (session s = None → session s' = None) → Q r s') →
  wp (on_usb m a) Q s.
Proof.
  intros HQ. unfold wp, on_usb. destruct (session s) as [x|] eqn:E; [|by apply HQ].
  destruct (m _) as [r u]. apply HQ; cbn; done.
Qed.

(** Stages of a start: the session exists, and the runtime with an idle worker. *)
Definition starting (s : DriverState) : Prop :=
  is_Some (session s) ∧ running s = false ∧ ∃ r, runtime s = Some r ∧ rt_worker r = false.

Lemma stop_runtime_wp t a (Q : Z → DriverState → Prop) s :
  (∀ r s', same_registry s s' → running s' = running s → (a = kIOReturnSuccess → r = kIOReturnSuccess) →
     (is_Some (session s) → is_Some (session s')) →
     (∀ x, runtime s = Some x → is_Some (session s) → ∃ y, runtime s' = Some y ∧ rt_worker y = false) →
     Q r s') →
  wp (on_runtime (AudioTransportRuntime_stop t) a) Q s.
Proof.
  intros HQ. unfold wp, on_runtime. destruct (runtime s) as [x|] eqn:Er; [|apply HQ; try done].
  destruct (session s) as [y|] eqn:Es; [|apply HQ; try done; by intros ? ? [? ?]].
  pose proof (runtime_stop_wp t (λ r c, r = kIOReturnSuccess ∧ rt_worker (rt c) = false)
    {| rt := x; rt_usb := {| ses := y; io := machine s |} |}) as H. unfold wp in H.
  destruct (AudioTransportRuntime_stop t _) as [r c]. destruct H as [-> Hw]; [by split|].
  apply HQ; cbn; try done. intros ? _ _. by eexists.
Qed.

Lemma start_runtime_wp t m i (Q : Z → DriverState → Prop) s :
  starting s →
  (∀ r s', same_registry s s' → (r = kIOReturnSuccess → is_Some (session s') ∧ running s' = false ∧
        ∃ x, runtime s' = Some x ∧ rt_worker x = true ∧ rt_inputEnabled x = i) →
     (r ≠ kIOReturnSuccess → starting s') → Q r s') →
  wp (on_runtime (AudioTransportRuntime_start t m i) kIOReturnNotReady) Q s.
Proof.
  intros ([y Es] & Hrun & x & Er & Hw) HQ. unfold wp, on_runtime. rewrite Er, Es.
  pose proof (runtime_start_wp t m i (λ r c,
     (r = kIOReturnSuccess → rt_worker (rt c) = true ∧ rt_inputEnabled (rt c) = i) ∧
     (r ≠ kIOReturnSuccess → rt_worker (rt c) = false))
    {| rt := x; rt_usb := {| ses := y; io := machine s |} |} Hw ltac:(intros; by split)) as H. unfold wp in H.
  destruct (AudioTransportRuntime_start t m i _) as [r c]. destruct H as [H1 H2]. apply HQ; [done|..].
  - intros Hr. destruct (H1 Hr) as [? ?]. split; [done|]. split; [done|]. by eexists.
  - intros Hr. split; [done|]. split; [done|]. eexists. split; [done|]. by apply H2.
Qed.

Lemma abandon_hardware_wp t (Q : () → DriverState → Prop) s :
  running s = false → (∀ s', same_registry s s' → hardware_off s' → Q () s') → wp (abandon_hardware t) Q s.
Proof.
  intros Hr HQ. unfold abandon_hardware. wp_step. apply stop_runtime_wp. intros r1 s1 R1 E1 _ _ _.
  do 2 wp_step. wp_step. apply on_usb_wp. intros r2 s2 R2 E2 E3 _ _. wp_step. apply HQ.
  - destruct R1, R2. split; cbn in *; congruence.
  - split; [done|]. cbn in *. split; congruence.
Qed.

Lemma and_then_wp r (m : M DriverState Z) (Q : Z → DriverState → Prop) s :
  (r = kIOReturnSuccess → wp m Q s) → (r ≠ kIOReturnSuccess → Q r s) → wp (and_then r m) Q s.
Proof. intros H1 H2. unfold and_then. wp_step; [apply H1; lia|wp_step; apply H2; lia]. Qed.

Lemma and_then_keeps r s (m : M DriverState Z) :
  (r = kIOReturnSuccess → wp m (λ _ s', same_registry s s' ∧ starting s') s) →
  (r ≠ kIOReturnSuccess → same_registry s s ∧ starting s) →
  wp (and_then r m) (λ _ s', same_registry s s' ∧ starting s') s.
Proof. intros H1 H2. by apply and_then_wp. Qed.

Lemma on_usb_keeps {A} (m : M usb A) a s :
  starting s → wp (on_usb m a) (λ _ s', same_registry s s' ∧ starting s') s.
Proof.
  intros (I & N & x & X & W). apply on_usb_wp. intros r s' R Er En Ei _. split; [done|]. split; [auto|].
  split; [congruence|]. exists x. split; [congruence|done].
Qed.

(** The end of a start. *)
Lemma finish_wp h reset r (Q : Z → DriverState → Prop) s :
  (r = kIOReturnSuccess → ∀ s', same_registry s s' → (is_Some (session s) → is_Some (session s')) →
     runtime s' = runtime s → running s' = true → Q kIOReturnSuccess s') →
  (r ≠ kIOReturnSuccess → running s = false ∧ ∀ s', same_registry s s' → hardware_off s' → Q r s') →
  wp (finish_start h reset r) Q s.
Proof.
  intros H1 H2. unfold finish_start. wp_step.
  - destruct H2 as [Hn HQ]; [lia|]. wp_step. apply abandon_hardware_wp; [done|]. intros s' R O. wp_step. by apply HQ.
  - do 6 wp_step. wp_step. apply H1; [lia|..]; by destruct reset.
Qed.

Lemma start_transport_wp h reset (Q : Z → DriverState → Prop) s :
  is_Some (session s) → running s = false →
  (∀ r s', same_registry s s' → (r = kIOReturnSuccess → hardware_on (input_active s) s') →
     (r ≠ kIOReturnSuccess → hardware_off s') → Q r s') →
  wp (start_transport h reset) Q s.
Proof.
  intros Hs Hrun HQ. unfold start_transport. do 2 wp_step. set (s0 := s <| runtime := _ |>).
  assert (starting s0 ∧ same_registry s s0) as [S0 R0].
  { split; [|by split]. split; [done|]. split; [done|]. by eexists. }
  clearbody s0. wp_step. apply start_runtime_wp; [done|]. intros r1 s1 R1 H1 F1.
  wp_step. eapply wp_mono; [apply (and_then_keeps r1 s1)|].
  { intros E. destruct (H1 E) as (I1 & N1 & x & X1 & W1 & _). apply stop_runtime_wp. intros r2 s2 R2 N2 _ I2 X2.
    destruct (X2 x X1 I1) as (y & Y1 & Y2). split; [done|]. split; [by apply I2|]. split; [congruence|]. by exists y. }
  { intros E. split; [done|by apply F1]. }
  intros r2 s2 [R2 S2]. wp_step. eapply wp_mono; [apply (and_then_keeps r2 s2); [intros _; by apply on_usb_keeps|done]|].
  intros r3 s3 [R3 S3]. wp_step. eapply wp_mono; [apply (and_then_keeps r3 s3); [intros _; by apply on_usb_keeps|done]|].
  intros r4 s4 [R4 S4].
  assert (same_registry s s4) as R.
  { eapply same_registry_trans; [exact R0|]. eapply same_registry_trans; [exact R1|]. eapply same_registry_trans; [exact R2|].
    by eapply same_registry_trans. }
  wp_step. apply and_then_wp.
  - intros _. do 2 wp_step. apply start_runtime_wp; [done|]. intros r5 s5 R5 H5 F5. apply finish_wp.
    + intros E. destruct (H5 E) as (I5 & N5 & x & X5 & W5 & Y5). intros s6 R6 I6 X6 N6. apply HQ; [|intros _|done].
      * eapply same_registry_trans; [exact R|]. by eapply same_registry_trans.
      * split; [by apply I6|]. split; [done|]. exists x. split; [congruence|]. split; [done|].
        rewrite Y5. unfold input_active, id. by rewrite (sr_in _ _ R).
    + intros E. destruct (F5 E) as (_ & N5 & _). split; [done|]. intros s6 R6 O6. apply HQ; [|done|done].
      eapply same_registry_trans; [exact R|]. by eapply same_registry_trans.
  - intros E. apply finish_wp; [done|]. intros _. destruct S4 as (_ & N4 & _). split; [done|]. intros s6 R6 O6.
    apply HQ; [by eapply same_registry_trans|done|done].
Qed.

(** A start from hardware that is off either succeeds or leaves it off. *)
Lemma start_hardware_wp h reset (Q : Z → DriverState → Prop) s :
  hardware_off s →
  (∀ r s', same_registry s s' → (r = kIOReturnSuccess → hardware_on (input_active s) s') →
     (r ≠ kIOReturnSuccess → hardware_off s') → Q r s') →
  wp (startHardware h reset) Q s.
Proof.
  intros (Hs & Hr & Hn) HQ. unfold startHardware, out_of_memory. wp_step.
  { wp_step. apply abandon_hardware_wp; [done|]. intros s1 R1 O1. wp_step. apply HQ; [done|by intros ?%no_memory_fails|done]. }
  do 2 wp_step. wp_step. apply on_usb_wp. intros r1 s1 R1 X1 N1 I1 _. cbn in X1, N1, I1. wp_step.
  { do 2 wp_step. wp_step. apply HQ; [by destruct R1; split|lia|]. intros _. split; [done|]. cbn. split; congruence. }
  wp_step. apply on_usb_wp. intros r2 s2 R2 X2 N2 I2 _. wp_step.
  { wp_step. apply on_usb_wp. intros r3 s3 R3 X3 N3 _ _. do 2 wp_step. wp_step. apply HQ; [|lia|].
    - destruct R1, R2, R3. split; cbn in *; congruence.
    - intros _. split; [done|]. cbn. split; congruence. }
  assert (same_registry s s2) as R by (destruct R1, R2; split; cbn in *; congruence).
  wp_step.
  { wp_step. apply abandon_hardware_wp; [congruence|]. intros s3 R3 O3. wp_step. apply HQ; [|by intros ?%no_memory_fails|done].
    by eapply same_registry_trans. }
  apply start_transport_wp; [auto|congruence|]. intros r3 s3 R3 H3 F3. apply HQ; [by eapply same_registry_trans| |done].
  unfold input_active in *. rewrite (sr_in _ _ R) in H3. done.
Qed.

Lemma stop_hardware_wp t (Q : Z → DriverState → Prop) s :
  (∀ r s', same_registry s s' → hardware_off s' → Q r s') → wp (stopHardware t) Q s.
Proof.
  intros HQ. unfold stopHardware. wp_step. apply stop_runtime_wp. intros r1 s1 R1 _ E1 _ _. rewrite E1 by done.
  wp_step; [lia|]. do 2 wp_step. wp_step. apply on_usb_wp. intros r2 s2 R2 X2 _ _ _. do 2 wp_step. wp_step. apply HQ.
  - destruct R1, R2. split; cbn in *; congruence.
  - split; [done|]. cbn. by split.
Qed.
End hardware.

(** ** The registry as a map *)

Abbreviation registry := (gmap (Z * Z) Z).

Definition key_of (c : driver_client) : Z * Z := (dc_device c, dc_id c).
Definition entry (c : driver_client) : (Z * Z) * Z := (key_of c, dc_starts c).
Definition count_of (R : registry) (k : Z * Z) : Z := default 0 (R !! k).

(** The lifecycle of a device counts the starts of its clients. *)
Definition counts (device : Z) (R : registry) (m : gmap Z Z) : Prop := ∀ id, starts_of m id = count_of R (device, id).

Record models (s : DriverState) (R : registry) (mo mi : gmap Z Z) : Prop := {
  mo_clients : length (clients s) = 64%nat;
  mo_activity : length (activity s) = 64%nat;
  mo_count : 0 <= clientCount s <= 64;
  mo_entries : map_to_list R ≡ₚ entry <$> registered s;
  mo_valid : Forall (λ c, validDevice (dc_device c) = true ∧ is_u32 (dc_id c)) (registered s);
  mo_out : represents (outputLifecycle s) mo;
  mo_out_counts : counts kDeviceObjectID R mo;
  mo_in : represents (inputLifecycle s) mi;
  mo_in_counts : counts kInputDeviceObjectID R mi;
  mo_slots : NoDup (dc_activitySlot <$> registered s);
  mo_keys : Forall (λ c, 0 <= dc_activitySlot c < 64 ∧
              as_key (rd (activity s) (dc_activitySlot c)) = activity_key (dc_device c) (dc_id c)) (registered s);
  mo_used : ∀ i, 0 <= i < 64 → as_key (rd (activity s) i) ≠ 0 → i ∈ (dc_activitySlot <$> registered s)
}.

(** *** Maps *)

Lemma entries_update (R : registry) k n n' a b :
  map_to_list R ≡ₚ a ++ (k, n) :: b → map_to_list (<[k := n']> R) ≡ₚ a ++ (k, n') :: b.
Proof.
  intros Hp. assert (R !! k = Some n) as E by (apply elem_of_map_to_list; rewrite Hp; set_solver).
  rewrite <- (map_to_list_delete R k n E), <- Permutation_middle in Hp. apply Permutation_cons_inv in Hp.
  rewrite <- insert_delete_eq, map_to_list_insert by apply lookup_delete_eq. by rewrite Hp, Permutation_middle.
Qed.

Lemma entries_delete (R : registry) k n b :
  map_to_list R ≡ₚ (k, n) :: b → map_to_list (delete k R) ≡ₚ b.
Proof.
  intros Hp. assert (R !! k = Some n) as E by (apply elem_of_map_to_list; rewrite Hp; set_solver).
  rewrite <- (map_to_list_delete R k n E) in Hp. by apply Permutation_cons_inv in Hp.
Qed.

Lemma count_insert R k k' n : count_of (<[k := n]> R) k' = if decide (k = k') then n else count_of R k'.
Proof. unfold count_of. case_decide; [subst; by rewrite lookup_insert_eq|by rewrite lookup_insert_ne]. Qed.

Lemma count_delete R k k' : count_of (delete k R) k' = if decide (k = k') then 0 else count_of R k'.
Proof. unfold count_of. case_decide; [subst; by rewrite lookup_delete_eq|by rewrite lookup_delete_ne]. Qed.

Lemma starts_insert m k k' n : starts_of (<[k := n]> m) k' = if decide (k = k') then n else starts_of m k'.
Proof. unfold starts_of. case_decide; [subst; by rewrite lookup_insert_eq|by rewrite lookup_insert_ne]. Qed.

Lemma starts_delete m k k' : starts_of (delete k m) k' = if decide (k = k') then 0 else starts_of m k'.
Proof. unfold starts_of. case_decide; [subst; by rewrite lookup_delete_eq|by rewrite lookup_delete_ne]. Qed.

(** A map is a lifecycle's counts when it has them for the changed client, and the others are kept. *)
Lemma counts_update device R R' m m' id v :
  counts device R m → (∀ k, count_of R' k = if decide ((device, id) = k) then v else count_of R k) →
  (∀ j, starts_of m' j = if decide (id = j) then v else starts_of m j) → counts device R' m'.
Proof. intros Hc HR Hm j. rewrite HR, Hm. repeat case_decide; congruence || apply Hc. Qed.

Lemma counts_other device device' R R' m id v :
  device ≠ device' → counts device' R m →
  (∀ k, count_of R' k = if decide ((device, id) = k) then v else count_of R k) → counts device' R' m.
Proof. intros Hd Hc HR j. rewrite HR. case_decide; [congruence|apply Hc]. Qed.

(** *** Lists *)

Lemma first_index_spec {A} (test : A → bool) l i :
  match first_index test l i with
  | Some k => ∃ l1 x l2, l = l1 ++ x :: l2 ∧ k = i + Z.of_nat (length l1) ∧ test x = true ∧
                Forall (λ y, test y = false) l1
  | None => Forall (λ y, test y = false) l
  end.
Proof.
  revert i. induction l as [|x l IH]; intros i; cbn [first_index]; [constructor|]. destruct (test x) eqn:E.
  - exists [], x, l. cbn. repeat split; auto; lia.
  - specialize (IH (i + 1)). destruct (first_index test l (i + 1)); [|by constructor].
    destruct IH as (l1 & y & l2 & -> & -> & Hy & Hf). exists (x :: l1), y, l2. cbn [length].
    split; [done|]. split; [lia|]. split; [done|by constructor].
Qed.

Lemma take_wr_last {A} `{Inhabited A} (l : list A) n x :
  (n < length l)%nat → take (S n) (wr l (Z.of_nat n) x) = take n l ++ [x].
Proof.
  intros Hn. unfold wr. rewrite Nat2Z.id, (take_S_r _ n x) by by rewrite list_lookup_insert_eq.
  by rewrite take_insert_ge by lia.
Qed.

Lemma swap_remove {A} `{Inhabited A} (l l1 l2 : list A) n x :
  take (S n) l = l1 ++ x :: l2 → (n < length l)%nat →
  take n (wr l (Z.of_nat (length l1)) (rd l (Z.of_nat n))) ≡ₚ l1 ++ l2.
Proof.
  intros E Hn. unfold wr, rd. rewrite !Nat2Z.id. destruct (lookup_lt_is_Some_2 l n Hn) as [y Hy].
  rewrite (list_lookup_total_correct _ _ _ Hy). rewrite (take_S_r l n y Hy) in E.
  destruct l2 as [|z l2 _] using rev_ind.
  - apply app_inj_tail in E as [E ->]. rewrite app_nil_r, <- E.
    rewrite take_insert_ge; [done|]. rewrite length_take. lia.
  - rewrite app_comm_cons, app_assoc in E. apply app_inj_tail in E as [E ->].
    rewrite take_insert_lt by (apply (f_equal length) in E; rewrite length_take, length_app in E; cbn in E; lia).
    rewrite E, insert_app_r_alt, Nat.sub_diag by lia. cbn. solve_Permutation.
Qed.

(** *** Queries *)

Section queries.
Context (s : DriverState) (R : registry) (mo mi : gmap Z Z) (Hm : models s R mo mi).

Lemma registered_lookup c : c ∈ registered s → R !! key_of c = Some (dc_starts c).
Proof using Hm.
  intros Hc. apply elem_of_map_to_list. rewrite (mo_entries _ _ _ _ Hm). by apply (list_elem_of_fmap_2 entry).
Qed.

Lemma lookup_registered k n : R !! k = Some n → ∃ c, c ∈ registered s ∧ key_of c = k ∧ dc_starts c = n.
Proof using Hm.
  intros E. apply elem_of_map_to_list in E. rewrite (mo_entries _ _ _ _ Hm) in E.
  apply list_elem_of_fmap in E as (c & [= -> ->] & Hc). by exists c.
Qed.

Lemma is_client_key device id c : is_client device id c = true ↔ key_of c = (device, id).
Proof. unfold is_client, key_of. split; [intros; f_equal; lia|intros [= -> ->]; lia]. Qed.

Lemma has_client_lookup device id : hasClient device id s = bool_decide (is_Some (R !! (device, id))).
Proof using Hm.
  apply eq_iff_eq_true. rewrite bool_decide_eq_true. unfold hasClient. rewrite existsb_exists. split.
  - intros (c & Hc%list_elem_of_In & Hk%is_client_key). rewrite <- Hk. rewrite (registered_lookup c) by done. by eexists.
  - intros [n E]. destruct (lookup_registered _ _ E) as (c & Hc & Hk & _). exists c.
    split; [by apply list_elem_of_In|by apply is_client_key].
Qed.

(** The index of a registered client. *)
Lemma client_index device id n :
  R !! (device, id) = Some n →
  ∃ l1 c l2, registered s = l1 ++ c :: l2 ∧ entry c = ((device, id), n) ∧
    first_index (is_client device id) (registered s) 0 = Some (Z.of_nat (length l1)).
Proof using Hm.
  intros E. destruct (lookup_registered _ _ E) as (c0 & Hc0 & Hk & _).
  pose proof (first_index_spec (is_client device id) (registered s) 0) as H.
  destruct (first_index (is_client device id) (registered s) 0) as [i|].
  - destruct H as (l1 & c & l2 & El & -> & Hc & _). apply is_client_key in Hc. exists l1, c, l2.
    split; [done|]. split; [|done]. unfold entry. rewrite Hc. f_equal.
    assert (c ∈ registered s) as Hin by (rewrite El; set_solver). apply registered_lookup in Hin. congruence.
  - exfalso. rewrite list.Forall_forall in H. specialize (H c0 Hc0). apply is_client_key in Hk. congruence.
Qed.

Lemma no_index device id : R !! (device, id) = None → first_index (is_client device id) (registered s) 0 = None.
Proof using Hm.
  intros E. pose proof (first_index_spec (is_client device id) (registered s) 0) as H.
  destruct (first_index (is_client device id) (registered s) 0); [|done].
  destruct H as (l1 & c & l2 & El & _ & Hc & _). apply is_client_key in Hc.
  assert (c ∈ registered s) as Hin by (rewrite El; set_solver). apply registered_lookup in Hin. congruence.
Qed.

Lemma length_registered : length (registered s) = Z.to_nat (clientCount s).
Proof using Hm.
  unfold registered. rewrite length_take. pose proof (mo_clients _ _ _ _ Hm). pose proof (mo_count _ _ _ _ Hm). lia.
Qed.

Lemma registry_size : Z.of_nat (size R) = clientCount s.
Proof using Hm.
  pose proof (mo_entries _ _ _ _ Hm) as Hp. apply Permutation_length in Hp.
  rewrite length_map_to_list, length_fmap, length_registered in Hp. pose proof (mo_count _ _ _ _ Hm). lia.
Qed.

Lemma valid_key k n : R !! k = Some n → validDevice k.1 = true ∧ is_u32 k.2.
Proof using Hm.
  intros E. destruct (lookup_registered _ _ E) as (c & Hc & <- & _). pose proof (mo_valid _ _ _ _ Hm) as H.
  rewrite list.Forall_forall in H. by apply H.
Qed.

Lemma active_starts l m device :
  represents l m → counts device R m → AudioDeviceLifecycle_activeStarts l ≠ 0 ↔ ∃ id, count_of R (device, id) ≠ 0.
Proof.
  intros Hr Hc. pose proof (rep_idle l m Hr) as Hi. unfold AudioDeviceLifecycle_activeStarts. split.
  - intros Hn. rewrite (proj2 (Z.eqb_neq _ _) Hn) in Hi. symmetry in Hi. apply bool_decide_eq_false in Hi.
    apply map_choose in Hi as (id & n & E). exists id. rewrite <- (Hc id). unfold starts_of. rewrite E. cbn.
    pose proof (starts_bound l m id n Hr E). lia.
  - intros [id Hn] E. rewrite E in Hi. symmetry in Hi. apply bool_decide_eq_true in Hi. subst m.
    apply Hn. by rewrite <- (Hc id).
Qed.

Definition started_on (device : Z) (R : registry) : Prop := ∃ id, count_of R (device, id) ≠ 0.
Definition any_started (R : registry) : Prop := ∃ k, count_of R k ≠ 0.

Lemma input_active_spec : input_active s = true ↔ started_on kInputDeviceObjectID R.
Proof using Hm.
  unfold input_active, started_on. rewrite negb_true_iff, Z.eqb_neq.
  eapply active_starts; [apply (mo_in _ _ _ _ Hm)|apply (mo_in_counts _ _ _ _ Hm)].
Qed.

Lemma any_active_spec : anyActive s = true ↔ any_started R.
Proof using Hm.
  unfold anyActive. rewrite orb_true_iff, !negb_true_iff, !Z.eqb_neq.
  rewrite (active_starts _ mo kDeviceObjectID (mo_out _ _ _ _ Hm) (mo_out_counts _ _ _ _ Hm)).
  rewrite (active_starts _ mi kInputDeviceObjectID (mo_in _ _ _ _ Hm) (mo_in_counts _ _ _ _ Hm)). split.
  - by intros [[id ?]|[id ?]]; eexists (_, id).
  - intros [[d id] Hn]. unfold count_of in Hn. destruct (R !! (d, id)) as [n|] eqn:E; [|done].
    destruct (valid_key _ _ E) as [Hv _]. unfold validDevice in Hv. cbn in Hv. apply orb_true_iff in Hv as [Hv|Hv];
      apply Z.eqb_eq in Hv; subst d; [left|right]; exists id; unfold count_of; by rewrite E.
Qed.

End queries.

Lemma activity_key_sum d i : validDevice d = true → is_u32 i → activity_key d i = d * 2 ^ 32 + i.
Proof.
  intros Hd Hi. unfold activity_key. rewrite Z.shiftl_mul_pow2 by lia.
  unfold validDevice, kDeviceObjectID, kInputDeviceObjectID in Hd. rewrite u64_id by (unfold is_u64; lia).
  symmetry. apply Z.add_nocarry_lor, Z.bits_inj_0. intros j. rewrite Z.land_spec.
  destruct (Z.ltb_spec j 0); [by rewrite Z.testbit_neg_r|]. destruct (Z.ltb_spec j 32).
  - by rewrite Z.mul_pow2_bits_low by lia.
  - unfold is_u32 in Hi. rewrite (Z.bits_above_log2 i j), andb_false_r; [done|lia|].
    destruct (decide (i = 0)) as [->|]; [cbn; lia|]. enough (Z.log2 i < 32) by lia.
    apply Z.log2_lt_pow2; [lia|]. change (2 ^ 32) with 4294967296. lia.
Qed.

Lemma activity_key_inj d i d' i' :
  validDevice d = true → validDevice d' = true → is_u32 i → is_u32 i' →
  activity_key d i = activity_key d' i' → (d, i) = (d', i').
Proof.
  intros Hd Hd' Hi Hi'. rewrite !activity_key_sum by done. unfold is_u32 in *. change (2 ^ 32) with 4294967296.
  intros E. assert (d = d') by lia. f_equal; lia.
Qed.

Lemma activity_key_pos d i : validDevice d = true → is_u32 i → activity_key d i ≠ 0.
Proof.
  intros Hd Hi. rewrite activity_key_sum by done. unfold validDevice, kDeviceObjectID, kInputDeviceObjectID, is_u32 in *.
  change (2 ^ 32) with 4294967296. lia.
Qed.

(** ** Operations and their abstract counterparts *)

Inductive driver_op :=
  | AddClient (device : Z) (info : option client_info)
  | RemoveClientOp (t : worker_thread) (device : Z) (info : option client_info)
  | StartIOOp (h : hardware) (device client : Z)
  | StopIOOp (t : worker_thread) (device client : Z)
  | MonitorRound (h : hardware) (t : worker_thread) (ticks : Z).

(** The ids of clients are 32-bit integers. *)
Definition op_ok (op : driver_op) : Prop :=
  match op with AddClient _ (Some info) => is_u32 (mClientID info) | _ => True end.

Section spec.
Context `{IOReturns, UsbConstants}.

Definition driver_step (op : driver_op) : M DriverState OSStatus :=
  match op with
  | AddClient device info => addClient device info
  | RemoveClientOp t device info => removeClient t device info
  | StartIOOp h device client => startIO h device client
  | StopIOOp t device client => stopIO t device client
  | MonitorRound h t ticks => (_ ← monitor_round h t ticks; mret noErr)
  end.

(** The result of a stop or a removal: the hardware answers for the last stop of a device. *)
Definition left_status (device : Z) (R R' : registry) (r : OSStatus) : Prop :=
  if decide (r = noErr) then ¬ started_on device R ∨ started_on device R'
  else ¬ started_on device R' ∧ ∃ e, r = IOStatus e ∧ (any_started R' → e = kIOReturnSuccess).

(** A start of hardware that is off, as the monitor does it from [s]: when the device is there and
    the start succeeds. *)
Definition restarts (h : hardware) (s : DriverState) (on : bool) : Prop :=
  let '(present, w) := NS6DeviceSession_devicePresent (machine s) in
  on = present && ((startHardware h false (s <| machine := w |>)).1 =? kIOReturnSuccess).

(** Whether the session's device is still the one it opened. *)
Definition device_current (s : DriverState) : bool := (on_usb NS6DeviceSession_isCurrentDevice true s).1.

(** The hardware after a round of the monitor in [s]: it runs on while the device is current; it is off
    after the device was lost, and then or when it was off before it is started again. *)
Definition monitored (h : hardware) (s : DriverState) (on on' : bool) : Prop :=
  if on && device_current s then on' = true
  else ∃ s0, hardware_off s0 ∧ same_registry s s0 ∧ (on = false → machine s0 = machine s) ∧ restarts h s0 on'.

(** The hardware after a stop or a removal: it runs on for the clients that are left. *)
Definition runs_on (on : bool) (R' : registry) (on' : bool) : Prop := on' = true ↔ on = true ∧ any_started R'.

(** What the abstract driver with the map [R] and the hardware [on] or off may answer, and what it
    becomes; [s] is the state the operation meets. *)
Definition accepts (op : driver_op) (s : DriverState) (R : registry) (on : bool) (r : OSStatus) (R' : registry) (on' : bool)
    : Prop :=
  match op with
  | AddClient device (Some info) =>
      let k := (device, mClientID info) in
      on' = on ∧
      if negb (validDevice device) then r = BadObjectError ∧ R' = R
      else match R !! k with
      | Some _ => r = noErr ∧ R' = R
      | None => if Z.of_nat (size R) =? kMaxClients then r = NotReadyError ∧ R' = R
                else r = noErr ∧ R' = <[k := 0]> R
      end
  | RemoveClientOp t device (Some info) =>
      let k := (device, mClientID info) in
      if negb (validDevice device) then r = BadObjectError ∧ R' = R ∧ on' = on
      else R' = delete k R ∧ runs_on on R' on' ∧ match R !! k with None => r = noErr | Some _ => left_status device R R' r end
  | StartIOOp h device client =>
      let k := (device, client) in
      if negb (validDevice device) then r = BadObjectError ∧ R' = R ∧ on' = on
      else match R !! k with
      | None => r = BadObjectError ∧ R' = R ∧ on' = on
      | Some n =>
          if n =? UINT32_MAX then r = BadObjectError ∧ R' = R ∧ on' = on
          else (r = noErr ∧ R' = <[k := n + 1]> R ∧ (on' = true ↔ on = true ∨ ¬ any_started R)) ∨
               (¬ any_started R ∧ R' = R ∧ on' = false ∧ ∃ e, r = IOStatus e ∧ e ≠ kIOReturnSuccess)
      end
  | StopIOOp t device client =>
      let k := (device, client) in
      if negb (validDevice device) then r = BadObjectError ∧ R' = R ∧ on' = on
      else match R !! k with
      | None => r = BadObjectError ∧ R' = R ∧ on' = on
      | Some n => if n =? 0 then r = noErr ∧ R' = R ∧ on' = on
                  else R' = <[k := n - 1]> R ∧ runs_on on R' on' ∧ left_status device R R' r
      end
  | MonitorRound h t _ =>
      r = noErr ∧ R' = R ∧ (any_started R → monitored h s on on') ∧ (¬ any_started R → on' = on)
  | AddClient _ None | RemoveClientOp _ _ None => r = BadObjectError ∧ R' = R ∧ on' = on
  end.
End spec.

(** The hardware is off, or it runs for some client and captures for those of the input device. *)
Definition hardware_is (on : bool) (s : DriverState) (R : registry) : Prop :=
  if on then any_started R ∧ ∃ i : bool, hardware_on i s ∧ (i = true ↔ started_on kInputDeviceObjectID R)
  else hardware_off s.

Section steps.
Context {codes : IOReturns} {laws : IOReturnsLaws} {constants : UsbConstants}.

Definition good (R : registry) (on : bool) (s : DriverState) : Prop := ∃ mo mi, models s R mo mi ∧ hardware_is on s R.

(** Changes that keep which clients have started. *)
Lemma hardware_is_same on s s' R R' :
  (∀ k, count_of R' k = count_of R k) → session s' = session s → runtime s' = runtime s → running s' = running s →
  hardware_is on s R → hardware_is on s' R'.
Proof.
  intros Hk E1 E2 E3. destruct on; cbn.
  - intros [[k Hn] (i & [? [? (r & ? & ?)]] & Hi)]. split; [exists k; by rewrite Hk|]. exists i. split.
    + split; [congruence|]. split; [congruence|]. exists r. split; [congruence|done].
    + rewrite Hi. unfold started_on. by setoid_rewrite Hk.
  - intros [? [? ?]]. split; [congruence|split; congruence].
Qed.

Lemma same_registry_models s s' R mo mi : same_registry s s' → models s R mo mi → models s' R mo mi.
Proof.
  intros [E1 E2 E3 E4 E5] []. split; unfold registered in *; rewrite ?E1, ?E2, ?E3, ?E4, ?E5; done.
Qed.

(** A slot is free while fewer than 64 clients are registered. *)
Lemma free_slot s R mo mi :
  models s R mo mi → clientCount s < 64 →
  ∃ l1 a l2, activity s = l1 ++ a :: l2 ∧ as_key a = 0 ∧
    first_index (λ a, as_key a =? 0) (activity s) 0 = Some (Z.of_nat (length l1)).
Proof.
  intros Hm Hc. pose proof (first_index_spec (λ a, as_key a =? 0) (activity s) 0) as H.
  destruct (first_index (λ a, as_key a =? 0) (activity s) 0) as [i|].
  { destruct H as (l1 & a & l2 & E & -> & Ha & _). exists l1, a, l2. split; [done|]. split; [lia|done]. }
  exfalso. assert (seqZ 0 64 ⊆ dc_activitySlot <$> registered s) as Hs.
  { intros i Hi%elem_of_seqZ. apply (mo_used _ _ _ _ Hm); [lia|]. unfold rd. rewrite list.Forall_forall in H.
    destruct (lookup_lt_is_Some_2 (activity s) (Z.to_nat i)) as [a Ha]; [rewrite (mo_activity _ _ _ _ Hm); lia|].
    rewrite (list_lookup_total_correct _ _ _ Ha). specialize (H a (list_elem_of_lookup_2 _ _ _ Ha)). lia. }
  apply (NoDup_submseteq _ _ (NoDup_seqZ 0 64)), submseteq_length in Hs.
  rewrite length_seqZ, length_fmap, (length_registered _ _ _ _ Hm) in Hs. lia.
Qed.

Lemma models_add s R mo mi device info slot l1 a l2 :
  models s R mo mi → clientCount s < 64 → validDevice device = true → is_u32 (mClientID info) →
  R !! (device, mClientID info) = None → activity s = l1 ++ a :: l2 → as_key a = 0 → slot = Z.of_nat (length l1) →
  models (s <| clients := wr (clients s) (clientCount s)
                {| dc_device := device; dc_id := mClientID info; dc_pid := mProcessID info;
                   dc_starts := 0; dc_activitySlot := slot; dc_bundle := mBundle info |} |>
            <| clientCount ::= λ n, n +₃₂ 1 |>
            <| activity ::= λ l, wr l slot
                {| as_key := activity_key device (mClientID info); as_lastIO := 0; as_inputCalls := 0;
                   as_inputSignalBlocks := 0 |} |>)
    (<[(device, mClientID info) := 0]> R) mo mi.
Proof.
  intros Hm Hc Hv Hid Hn Ea Hka Hslot. pose proof (mo_count _ _ _ _ Hm) as Hct.
  set (c := {| dc_device := device |}). set (s' := s <| clients := _ |> <| clientCount ::= _ |> <| activity ::= _ |>).
  assert (clientCount s +₃₂ 1 = clientCount s + 1) as Ec by (apply u32_id; unfold is_u32; lia).
  assert (registered s' = registered s ++ [c]) as Er.
  { unfold registered, s'. cbn [clientCount clients set_field]. rewrite Ec.
    replace (Z.to_nat (clientCount s + 1)) with (S (Z.to_nat (clientCount s))) by lia.
    rewrite <- (Z2Nat.id (clientCount s)) at 2 by lia. apply take_wr_last. rewrite (mo_clients _ _ _ _ Hm). lia. }
  assert (length l1 < 64)%nat as Hl1.
  { pose proof (mo_activity _ _ _ _ Hm) as Hl. rewrite Ea, length_app in Hl. cbn in Hl. lia. }
  assert (as_key (rd (activity s) slot) = 0) as Hk0.
  { subst slot. unfold rd. rewrite Nat2Z.id, Ea, list_lookup_total_middle; done. }
  assert (slot ∉ dc_activitySlot <$> registered s) as Hfree.
  { intros (c' & -> & Hc')%list_elem_of_fmap. pose proof (mo_keys _ _ _ _ Hm) as Hk. pose proof (mo_valid _ _ _ _ Hm) as Hva.
    rewrite list.Forall_forall in Hk, Hva. destruct (Hk c' Hc') as [_ E]. destruct (Hva c' Hc') as [E1 E2].
    rewrite E in Hk0. by apply (activity_key_pos _ _ E1 E2). }
  assert (∀ k, count_of (<[(device, mClientID info) := 0]> R) k = count_of R k) as Hcount.
  { intros k. rewrite count_insert. case_decide; [subst; unfold count_of; by rewrite Hn|done]. }
  split.
  - unfold s'. cbn. by rewrite length_wr, (mo_clients _ _ _ _ Hm).
  - unfold s'. cbn. by rewrite length_wr, (mo_activity _ _ _ _ Hm).
  - unfold s'. cbn. rewrite Ec. lia.
  - rewrite Er, fmap_app, map_to_list_insert by done. rewrite (mo_entries _ _ _ _ Hm). cbn. solve_Permutation.
  - rewrite Er. apply Forall_app. split; [apply (mo_valid _ _ _ _ Hm)|by constructor].
  - apply (mo_out _ _ _ _ Hm).
  - intros id. rewrite Hcount. apply (mo_out_counts _ _ _ _ Hm).
  - apply (mo_in _ _ _ _ Hm).
  - intros id. rewrite Hcount. apply (mo_in_counts _ _ _ _ Hm).
  - rewrite Er, fmap_app. apply NoDup_app. split; [apply (mo_slots _ _ _ _ Hm)|]. split; [|apply NoDup_singleton].
    intros x Hx ->%list_elem_of_singleton. done.
  - rewrite Er. apply Forall_app. split.
    + pose proof (mo_keys _ _ _ _ Hm) as Hk. rewrite list.Forall_forall in Hk |- *. intros c' Hc'.
      destruct (Hk c' Hc') as [E1 E2]. split; [done|]. unfold s'. cbn [activity set_field].
      rewrite rd_wr_ne; [done|lia|lia|]. intros ->. apply Hfree. by apply list_elem_of_fmap_2.
    + constructor; [|constructor]. cbn [dc_activitySlot c]. split; [lia|]. unfold s'. cbn [activity set_field].
      rewrite rd_wr_eq; [done|]. rewrite (mo_activity _ _ _ _ Hm). lia.
  - intros i Hi. unfold s' at 1. cbn [activity set_field]. rewrite Er, fmap_app. destruct (decide (i = slot)) as [->|].
    + intros _. apply elem_of_app. right. by apply list_elem_of_singleton.
    + rewrite rd_wr_ne by lia. intros Hk. apply elem_of_app. left. by apply (mo_used _ _ _ _ Hm).
Qed.

Lemma add_wp device info R on s :
  op_ok (AddClient device info) → good R on s →
  wp (addClient device info) (λ r s', ∃ R' on', accepts (AddClient device info) s R on r R' on' ∧ good R' on' s') s.
Proof.
  intros Hok (mo & mi & Hm & Hf). unfold addClient, accepts.
  destruct info as [info|]; [|wp_step; exists R, on; split; [done|by exists mo, mi]].
  wp_step; [wp_step; exists R, on; split; [done|by exists mo, mi]|]. do 2 wp_step. unfold id.
  rewrite (has_client_lookup _ _ _ _ Hm).
  destruct (R !! (device, mClientID info)) as [n|] eqn:E.
  { rewrite bool_decide_eq_true_2 by by eexists. wp_step. exists R, on. split; [done|by exists mo, mi]. }
  rewrite bool_decide_eq_false_2 by (intros [? ?]; done). rewrite (registry_size _ _ _ _ Hm). wp_step.
  { wp_step. exists R, on. split; [done|by exists mo, mi]. }
  pose proof (mo_count _ _ _ _ Hm). destruct (free_slot s R mo mi Hm) as (l1 & a & l2 & Ea & Hk & ->); [unfold kMaxClients in *; lia|].
  do 4 wp_step. wp_step. exists (<[(device, mClientID info) := 0]> R), on. split; [done|]. exists mo, mi. split.
  - eapply models_add; try done; [unfold kMaxClients in *; lia|by destruct (validDevice device)].
  - eapply hardware_is_same; [|done..|exact Hf]. intros k. rewrite count_insert. case_decide; [subst; unfold count_of; by rewrite E|done].
Qed.

(** *** Starts and stops *)

Definition set_lifecycle (device : Z) (l : AudioDeviceLifecycle) (s : DriverState) : DriverState :=
  if device =? kDeviceObjectID then s <| outputLifecycle := l |> else s <| inputLifecycle := l |>.

Lemma on_lifecycle_wp device op (Q : AudioIOTransition → DriverState → Prop) s :
  (∀ t l, op (lifecycle device s) = (t, l) → Q t (set_lifecycle device l s)) → wp (on_lifecycle device op) Q s.
Proof.
  intros HQ. unfold wp, on_lifecycle, lifecycle, set_lifecycle in *.
  destruct (device =? kDeviceObjectID); destruct (op _) as [t l]; by apply HQ.
Qed.

(** The lifecycle of [device] has become one with [v] starts of [id], the other one is the same. *)
Definition lifecycle_has (device id v : Z) (R : registry) (s s' : DriverState) : Prop :=
  ∃ m m', counts device R m ∧ represents (lifecycle device s') m' ∧
    (∀ j, starts_of m' j = if decide (id = j) then v else starts_of m j) ∧
    lifecycle (if device =? kDeviceObjectID then kInputDeviceObjectID else kDeviceObjectID) s' =
    lifecycle (if device =? kDeviceObjectID then kInputDeviceObjectID else kDeviceObjectID) s.

(** Both lifecycles count a map in which only that client changed. *)
Lemma lifecycles_count device id v R R' s s' mo mi :
  models s R mo mi → validDevice device = true → lifecycle_has device id v R s s' →
  (∀ k, count_of R' k = if decide ((device, id) = k) then v else count_of R k) →
  ∃ mo' mi', represents (outputLifecycle s') mo' ∧ counts kDeviceObjectID R' mo' ∧
    represents (inputLifecycle s') mi' ∧ counts kInputDeviceObjectID R' mi'.
Proof.
  intros Hm Hv (m & m' & Hc & Hr & Hs & Ho) HR. unfold validDevice in Hv. unfold lifecycle in *.
  destruct (device =? kDeviceObjectID) eqn:Ed.
  - assert (device = kDeviceObjectID) as -> by lia. cbn in Ho. exists m', mi. split; [done|].
    split; [by eapply counts_update|]. rewrite Ho. split; [apply (mo_in _ _ _ _ Hm)|].
    eapply counts_other; [|apply (mo_in_counts _ _ _ _ Hm)|exact HR]. done.
  - assert (device = kInputDeviceObjectID) as -> by (cbn in Hv; lia). cbn in Ho. exists mo, m'. rewrite Ho.
    split; [apply (mo_out _ _ _ _ Hm)|]. split; [|split; [done|by eapply counts_update]].
    eapply counts_other; [|apply (mo_out_counts _ _ _ _ Hm)|exact HR]. done.
Qed.

Lemma models_count device id n v R s s' mo mi l1 c l2 :
  models s R mo mi → validDevice device = true → registered s = l1 ++ c :: l2 → entry c = ((device, id), n) →
  clients s' = wr (clients s) (Z.of_nat (length l1)) (c <| dc_starts := v |>) → clientCount s' = clientCount s →
  activity s' = activity s → lifecycle_has device id v R s s' →
  ∃ mo' mi', models s' (<[(device, id) := v]> R) mo' mi'.
Proof.
  intros Hm Hv Er Ec El En Ea Hl.
  destruct (lifecycles_count device id v R (<[(device, id) := v]> R) s s' mo mi Hm Hv Hl) as (mo' & mi' & H1 & H2 & H3 & H4).
  { intros k. apply count_insert. }
  assert (registered s' = l1 ++ c <| dc_starts := v |> :: l2) as Er'.
  { unfold registered in *. rewrite El, En. unfold wr. rewrite Nat2Z.id.
    assert (length l1 < Z.to_nat (clientCount s))%nat.
    { apply (f_equal length) in Er. rewrite length_take, length_app in Er. cbn in Er. lia. }
    rewrite take_insert_lt, Er, insert_app_r_alt, Nat.sub_diag by lia. done. }
  exists mo', mi'.
  assert (entry (c <| dc_starts := v |>) = ((device, id), v)) as Ec'.
  { unfold entry, key_of in *. cbn. by injection Ec as -> -> _. }
  split; try done; rewrite ?Er'.
  - by rewrite El, length_wr, (mo_clients _ _ _ _ Hm).
  - by rewrite Ea, (mo_activity _ _ _ _ Hm).
  - rewrite En. apply (mo_count _ _ _ _ Hm).
  - pose proof (mo_entries _ _ _ _ Hm) as Hp. rewrite Er, fmap_app, fmap_cons, Ec in Hp.
    rewrite fmap_app, fmap_cons, Ec'. by eapply entries_update.
  - pose proof (mo_valid _ _ _ _ Hm) as H. rewrite Er in H. apply Forall_app in H as [? H]. apply list.Forall_cons in H as [? ?].
    apply Forall_app. split; [done|]. by constructor.
  - pose proof (mo_slots _ _ _ _ Hm) as H. by rewrite Er, fmap_app in H; rewrite fmap_app.
  - rewrite Ea. pose proof (mo_keys _ _ _ _ Hm) as H. rewrite Er in H. apply Forall_app in H as [? H].
    apply list.Forall_cons in H as [? ?]. apply Forall_app. split; [done|]. by constructor.
  - rewrite Ea. intros i Hi Hk. pose proof (mo_used _ _ _ _ Hm i Hi Hk) as H. by rewrite Er, fmap_app in H; rewrite fmap_app.
Qed.

Lemma lifecycle_maps device R s mo mi :
  models s R mo mi → validDevice device = true →
  ∃ m, represents (lifecycle device s) m ∧ counts device R m.
Proof.
  intros Hm Hv. unfold lifecycle, validDevice in *. destruct (device =? kDeviceObjectID) eqn:Ed.
  - exists mo. split; [apply (mo_out _ _ _ _ Hm)|]. replace device with kDeviceObjectID by lia. apply (mo_out_counts _ _ _ _ Hm).
  - exists mi. split; [apply (mo_in _ _ _ _ Hm)|]. replace device with kInputDeviceObjectID by (cbn in Hv; lia).
    apply (mo_in_counts _ _ _ _ Hm).
Qed.

Lemma lifecycle_set device l s : lifecycle device (set_lifecycle device l s) = l ∧
  lifecycle (if device =? kDeviceObjectID then kInputDeviceObjectID else kDeviceObjectID) (set_lifecycle device l s) =
  lifecycle (if device =? kDeviceObjectID then kInputDeviceObjectID else kDeviceObjectID) s.
Proof. unfold lifecycle, set_lifecycle. by destruct (device =? kDeviceObjectID). Qed.

(** The active clients of a device are registered, so there is always a slot for another. *)
Lemma registered_has_room device id n R s mo mi m :
  models s R mo mi → R !! (device, id) = Some n → counts device R m → represents (lifecycle device s) m →
  m !! id = None → Z.of_nat (size m) ≠ kClientCapacity.
Proof.
  intros Hm E Hc Hr Hn Hs.
  assert (∀ j x, m !! j = Some x → is_Some (R !! (device, j))) as Hsub.
  { intros j x Ej. pose proof (Hc j) as Hj. unfold starts_of in Hj. rewrite Ej in Hj. unfold count_of in Hj.
    destruct (R !! (device, j)); [by eexists|]. pose proof (starts_bound _ _ _ _ Hr Ej). cbn in Hj. lia. }
  assert ((device, id) :: (pair device <$> (map_to_list m).*1) ⊆ (map_to_list R).*1) as Hincl.
  { intros k [->|(j & -> & Hj)%list_elem_of_fmap]%elem_of_cons.
    - apply list_elem_of_fmap. exists ((device, id), n). split; [done|]. by apply elem_of_map_to_list.
    - apply list_elem_of_fmap in Hj as ([j' x] & -> & Hj). apply elem_of_map_to_list in Hj. destruct (Hsub _ _ Hj) as [y Hy].
      apply list_elem_of_fmap. exists ((device, j'), y). split; [done|]. by apply elem_of_map_to_list. }
  apply NoDup_submseteq, submseteq_length in Hincl.
  - cbn in Hincl. rewrite !length_fmap, !length_map_to_list in Hincl. pose proof (registry_size _ _ _ _ Hm).
    pose proof (mo_count _ _ _ _ Hm). unfold kClientCapacity in *. lia.
  - constructor.
    + intros (j & [= <-] & Hj)%list_elem_of_fmap. apply list_elem_of_fmap in Hj as ([j' x] & -> & Hj).
      apply elem_of_map_to_list in Hj. cbn in Hn. congruence.
    + apply (NoDup_fmap_2 (pair device)), NoDup_fst_map_to_list.
Qed.
(** A lifecycle that is not empty belongs to a device with started clients. *)
Lemma started_counts device R l m : represents l m → counts device R m → m ≠ ∅ ↔ started_on device R.
Proof.
  intros Hr Hc. pose proof (active_starts R l m device Hr Hc) as Ha. pose proof (rep_idle l m Hr) as Hi.
  unfold AudioDeviceLifecycle_activeStarts in Ha. unfold started_on. rewrite <- Ha.
  destruct (Z.eqb_spec (activeStarts_ l) 0) as [E|E]; symmetry in Hi.
  - apply bool_decide_eq_true in Hi. by split; intros [].
  - apply bool_decide_eq_false in Hi. done.
Qed.

Lemma count_lookup device id R m l : represents l m → counts device R m →
  m !! id = if count_of R (device, id) =? 0 then None else Some (count_of R (device, id)).
Proof.
  intros Hr Hc. rewrite <- (Hc id). unfold starts_of. destruct (m !! id) as [n|] eqn:E; [|done].
  pose proof (starts_bound l m id n Hr E). cbn. by case_if; [lia|].
Qed.

Lemma start_lifecycle device id n R s mo mi t l :
  models s R mo mi → validDevice device = true → R !! (device, id) = Some n →
  AudioDeviceLifecycle_startIO id (lifecycle device s) = (t, l) →
  if n =? UINT32_MAX then t = Rejected ∧ lifecycle_has device id n R s (set_lifecycle device l s)
  else t ≠ Rejected ∧ lifecycle_has device id (n + 1) R s (set_lifecycle device l s).
Proof.
  intros Hm Hv E Eop. destruct (lifecycle_maps device R s mo mi Hm Hv) as (m & Hr & Hc).
  pose proof (start_refines (lifecycle device s) m id Hr) as H. rewrite Eop in H.
  destruct (lifecycle_set device l s) as [L1 L2].
  assert (count_of R (device, id) = n) as En by (unfold count_of; by rewrite E).
  pose proof (Hc id) as Hs. rewrite En in Hs. unfold spec_start in H. rewrite (count_lookup device id R m _ Hr Hc), En in H.
  destruct (n =? 0) eqn:E0.
  - rewrite (proj2 (Z.eqb_neq n UINT32_MAX)) by (unfold UINT32_MAX; lia).
    assert (m !! id = None) as Hn by (by rewrite (count_lookup device id R m _ Hr Hc), En, E0).
    rewrite (proj2 (Z.eqb_neq _ _) (registered_has_room device id n R s mo mi m Hm E Hc Hr Hn)) in H.
    destruct H as [-> H]. split; [by destruct (decide (m = ∅))|]. exists m. eexists. rewrite L1.
    split; [done|]. split; [exact H|]. split; [|done]. intros j. rewrite starts_insert, Hs. done.
  - destruct (n =? UINT32_MAX) eqn:Em.
    + destruct H as [-> H]. split; [done|]. exists m, m. rewrite L1. split; [done|]. split; [done|]. split; [|done].
      intros j. case_decide; congruence.
    + destruct H as [-> H]. split; [by destruct (decide (m = ∅))|]. exists m. eexists. rewrite L1.
      split; [done|]. split; [exact H|]. split; [|done]. intros j. rewrite starts_insert, Hs. done.
Qed.

(** A stop or a removal that leaves [v] starts. *)
Definition leaves (device id n v : Z) (R : registry) (s : DriverState) (t : AudioIOTransition) (l : AudioDeviceLifecycle) : Prop :=
  if n =? 0 then t = ClientNotActive ∧ lifecycle_has device id 0 R s (set_lifecycle device l s)
  else lifecycle_has device id v R s (set_lifecycle device l s) ∧
       (t = LastClientStopped ∧ ¬ started_on device (<[(device, id) := v]> R) ∨
        t = ClientStoppedStillActive ∧ started_on device (<[(device, id) := v]> R)).

Lemma leave_lifecycle device id n v R s mo mi t l m m' :
  models s R mo mi → validDevice device = true → R !! (device, id) = Some n →
  represents (lifecycle device s) m → counts device R m →
  (let '(t', m'') := spec_leave id m' m in t = t' ∧ represents l m'') →
  (n ≠ 0 → ∀ j, starts_of m' j = if decide (id = j) then v else starts_of m j) →
  leaves device id n v R s t l.
Proof.
  intros Hm Hv E Hr Hc H Hs. unfold leaves. destruct (lifecycle_set device l s) as [L1 L2].
  assert (count_of R (device, id) = n) as En by (unfold count_of; by rewrite E).
  unfold spec_leave in H. rewrite (count_lookup device id R m _ Hr Hc), En in H. destruct (n =? 0) eqn:E0.
  - destruct H as [-> H]. split; [done|]. exists m, m. rewrite L1. split; [done|]. split; [done|]. split; [|done].
    intros j. case_decide; [subst j; rewrite (Hc id), En; lia|done].
  - destruct H as [-> H]. split; [exists m, m'; rewrite L1; repeat (split; [done|]); split; [apply Hs; lia|done]|].
    assert (counts device (<[(device, id) := v]> R) m') as Hc'.
    { eapply counts_update; [exact Hc| |apply Hs; lia]. intros k. apply count_insert. }
    pose proof (started_counts device _ l m' H Hc') as He. destruct (decide (m' = ∅)) as [Hm'|Hm'].
    + left. split; [done|]. rewrite <- He. auto.
    + right. split; [done|]. by apply He.
Qed.

Lemma stop_lifecycle device id n R s mo mi t l :
  models s R mo mi → validDevice device = true → R !! (device, id) = Some n →
  AudioDeviceLifecycle_stopIO id (lifecycle device s) = (t, l) → leaves device id n (n - 1) R s t l.
Proof.
  intros Hm Hv E Eop. destruct (lifecycle_maps device R s mo mi Hm Hv) as (m & Hr & Hc).
  pose proof (stop_refines (lifecycle device s) m id Hr) as H. rewrite Eop in H.
  assert (starts_of m id = n) as En by (rewrite (Hc id); unfold count_of; by rewrite E).
  eapply leave_lifecycle; [done..|exact H|]. intros Hn j. rewrite En. case_if.
  - rewrite starts_delete. case_decide; lia.
  - by rewrite starts_insert.
Qed.

Lemma remove_lifecycle device id n R s mo mi t l :
  models s R mo mi → validDevice device = true → R !! (device, id) = Some n →
  AudioDeviceLifecycle_removeClient id (lifecycle device s) = (t, l) → leaves device id n 0 R s t l.
Proof.
  intros Hm Hv E Eop. destruct (lifecycle_maps device R s mo mi Hm Hv) as (m & Hr & Hc).
  pose proof (remove_refines (lifecycle device s) m id Hr) as H. rewrite Eop in H.
  eapply leave_lifecycle; [done..|exact H|]. intros Hn j. apply starts_delete.
Qed.

Lemma notify_wp device (Q : () → DriverState → Prop) s :
  (∀ s', same_registry s s' → session s' = session s → runtime s' = runtime s → running s' = running s → Q () s') →
  wp (notifyRunningChanged device) Q s.
Proof. intros HQ. unfold notifyRunningChanged. wp_step. by destruct (host s); apply HQ. Qed.

Lemma count_start_wp test f device id n R mo mi s0 (Q : () → DriverState → Prop) s :
  models s0 R mo mi → R !! (device, id) = Some n → clients s = clients s0 → clientCount s = clientCount s0 →
  (∀ c, test c = true → key_of c = (device, id)) → (∀ c, entry c = ((device, id), n) → test c = true) →
  (∀ l1 c l2, registered s0 = l1 ++ c :: l2 → entry c = ((device, id), n) →
     Q () (s <| clients := wr (clients s0) (Z.of_nat (length l1)) (c <| dc_starts := f n |>) |>)) →
  wp (count_start test f) Q s.
Proof.
  intros Hm E Ecl Ect Ht1 Ht2 HQ. unfold count_start. wp_step.
  assert (registered s = registered s0) as Er by (unfold registered; by rewrite Ecl, Ect). rewrite Er.
  pose proof (first_index_spec test (registered s0) 0) as H.
  destruct (first_index test (registered s0) 0) as [i|].
  - destruct H as (l1 & c & l2 & El & -> & Hc & _). apply Ht1 in Hc.
    assert (entry c = ((device, id), n)) as Ec.
    { unfold entry. rewrite Hc. f_equal. assert (c ∈ registered s0) as Hin by (rewrite El; set_solver).
      apply (registered_lookup _ _ _ _ Hm) in Hin. rewrite Hc in Hin. congruence. }
    assert (rd (clients s) (0 + Z.of_nat (length l1)) = c) as Erd.
    { unfold rd. rewrite Ecl. replace (Z.to_nat (0 + Z.of_nat (length l1))) with (length l1) by lia.
      assert (registered s0 !! length l1 = Some c) as Hl by (rewrite El; by apply list_lookup_middle).
      unfold registered in Hl. apply lookup_take_Some in Hl as [Hl _]. by apply list_lookup_total_correct. }
    specialize (HQ l1 c l2 El Ec). apply (f_equal snd) in Ec as Es. cbn in Es.
    unfold set_field in HQ |- *. cbv beta in HQ |- *. rewrite Erd, Ecl, Z.add_0_l, Es. exact HQ.
  - exfalso. destruct (lookup_registered _ _ _ _ Hm _ _ E) as (c & Hin & Hk & Hs). rewrite list.Forall_forall in H.
    specialize (H c Hin). rewrite Ht2 in H; [done|]. unfold entry. by rewrite Hk, Hs.
Qed.

(** The hardware with whatever capture. *)
Definition powered (on : bool) (s : DriverState) : Prop := if on then ∃ i, hardware_on i s else hardware_off s.

Lemma powered_eq on s s' :
  powered on s → session s' = session s → runtime s' = runtime s → running s' = running s → powered on s'.
Proof.
  destruct on; cbn.
  - intros (i & ? & ? & r & ? & ?) E1 E2 E3. exists i. split; [congruence|]. split; [congruence|]. exists r. split; [congruence|done].
  - intros (? & ? & ?) E1 E2 E3. split; [congruence|]. split; congruence.
Qed.

Lemma hardware_is_powered on s R : hardware_is on s R → powered on s.
Proof. destruct on; [|done]. intros (_ & i & ? & _). by exists i. Qed.

Lemma hardware_is_started on s R : hardware_is on s R → on = true → any_started R.
Proof. intros H ->. apply H. Qed.

(** The hardware after an operation captures as the input device's clients ask. *)
Definition captures (on : bool) (s : DriverState) : Prop := if on then hardware_on (input_active s) s else hardware_off s.

Lemma captures_eq on s s' : captures on s → inputLifecycle s' = inputLifecycle s →
  session s' = session s → runtime s' = runtime s → running s' = running s → captures on s'.
Proof.
  destruct on; cbn.
  - intros (? & ? & r & ? & ? & ?) E0 E1 E2 E3. split; [congruence|]. split; [congruence|]. exists r. split; [congruence|].
    split; [done|]. unfold input_active in *. congruence.
  - intros (? & ? & ?) E0 E1 E2 E3. split; [congruence|]. split; congruence.
Qed.

Lemma settle R s mo mi on :
  models s R mo mi → (on = true → any_started R) → captures on s → good R on s.
Proof.
  intros Hm Ha Hh. exists mo, mi. split; [done|]. destruct on; [|done]. split; [by apply Ha|].
  exists (input_active s). split; [done|]. by apply (input_active_spec _ _ _ _ Hm).
Qed.

Lemma sync_wp (Q : () → DriverState → Prop) s :
  (∀ s', same_registry s s' → (∀ on, powered on s → captures on s') → Q () s') → wp syncInputCapture Q s.
Proof.
  intros HQ. unfold syncInputCapture. wp_step. apply HQ; [by split|]. intros [|]; cbn.
  - intros (i & ? & ? & r & E & ? & _). split; [done|]. split; [done|]. cbn. rewrite E. by eexists.
  - intros (? & E & ?). split; [done|]. split; [cbn; by rewrite E|done].
Qed.

Lemma any_started_insert R k v : v ≠ 0 → any_started (<[k := v]> R).
Proof. intros. exists k. rewrite count_insert. by case_decide. Qed.

Lemma lifecycle_has_eq device id v R s s' s'' :
  lifecycle_has device id v R s s' → outputLifecycle s'' = outputLifecycle s' → inputLifecycle s'' = inputLifecycle s' →
  lifecycle_has device id v R s s''.
Proof.
  intros (m & m' & H1 & H2 & H3 & H4) E1 E2. exists m, m'. unfold lifecycle in *. rewrite E1, E2. done.
Qed.

(** The state with another lifecycle of a device. *)
Lemma set_lifecycle_same device l s : let s' := set_lifecycle device l s in
  clients s' = clients s ∧ clientCount s' = clientCount s ∧ activity s' = activity s ∧
  session s' = session s ∧ runtime s' = runtime s ∧ running s' = running s.
Proof. unfold set_lifecycle. by destruct (device =? kDeviceObjectID). Qed.

(** A lifecycle with the old count of the client: the registry is the same. *)
Lemma models_lifecycle device id n R s s' mo mi :
  models s R mo mi → validDevice device = true → R !! (device, id) = Some n → lifecycle_has device id n R s s' →
  clients s' = clients s → clientCount s' = clientCount s → activity s' = activity s → ∃ mo' mi', models s' R mo' mi'.
Proof.
  intros Hm Hv E Hl D1 D2 D3.
  destruct (lifecycles_count device id n R R s s' mo mi Hm Hv Hl) as (mo' & mi' & M1 & M2 & M3 & M4).
  { intros k. case_decide; [subst; unfold count_of; by rewrite E|done]. }
  exists mo', mi'. destruct Hm. split; unfold registered in *; rewrite ?D1, ?D2, ?D3; done.
Qed.

(** A stop that takes back a start. *)
Lemma stop_takes_back device id n R s s' t l :
  lifecycle_has device id (n + 1) R s s' → 0 <= n →
  AudioDeviceLifecycle_stopIO id (lifecycle device s') = (t, l) →
  lifecycle_has device id n R s (set_lifecycle device l s').
Proof.
  intros (m & m' & Hc & Hr & Hs & Ho) Hn Eop. destruct (lifecycle_set device l s') as [L1 L2].
  pose proof (stop_refines (lifecycle device s') m' id Hr) as H. rewrite Eop in H.
  pose proof (Hs id) as Hid. rewrite decide_True in Hid by done. unfold spec_step, spec_leave in H. rewrite Hid in H.
  destruct (m' !! id) as [x|] eqn:Ex; [|unfold starts_of in Hid; rewrite Ex in Hid; cbn in Hid; lia].
  destruct H as [_ H]. exists m. eexists. rewrite L1, L2. split; [done|]. split; [exact H|]. split; [|done].
  intros j. case_if; [rewrite starts_delete|rewrite starts_insert]; rewrite Hs; case_decide; lia.
Qed.

(** The hardware is started for the first client only; a failure leaves it off. *)
Lemma start_if_idle_wp h R mo mi on s (Q : Z → DriverState → Prop) s1 :
  models s R mo mi → hardware_is on s R → session s1 = session s → runtime s1 = runtime s → running s1 = running s →
  (∀ r s2, same_registry s1 s2 → (r = kIOReturnSuccess → powered (on || negb (anyActive s)) s2) →
     (r ≠ kIOReturnSuccess → ¬ any_started R ∧ hardware_off s2) → Q r s2) →
  wp (if negb (anyActive s) then startHardware h true else mret kIOReturnSuccess) Q s1.
Proof.
  intros Hm Hf C4 C5 C6 HQ. destruct (anyActive s) eqn:Ea; cbn [negb] in *.
  - wp_step. apply HQ; [by split|intros _|done]. rewrite orb_false_r.
    eapply powered_eq; [by eapply hardware_is_powered|done..].
  - assert (¬ any_started R) as Hna by (rewrite <- (any_active_spec _ _ _ _ Hm); by rewrite Ea).
    assert (on = false) as -> by (destruct on; [by destruct Hna; apply (hardware_is_started true s)|done]).
    apply start_hardware_wp.
    + destruct Hf as (? & ? & ?). split; [congruence|]. split; congruence.
    + intros r s2 R2 H1 H2. apply HQ; [done|intros Hr; eexists; by apply H1|by auto].
Qed.

Lemma registered_range device id n R s mo mi :
  models s R mo mi → validDevice device = true → R !! (device, id) = Some n → 0 <= n <= UINT32_MAX.
Proof.
  intros Hm Hv E. destruct (lifecycle_maps device R s mo mi Hm Hv) as (m & Hr & Hc). pose proof (Hc id) as Hs.
  unfold count_of in Hs. rewrite E in Hs. unfold starts_of in Hs. destruct (m !! id) as [x|] eqn:Ex.
  - pose proof (starts_bound _ _ _ _ Hr Ex). cbn in Hs. lia.
  - cbn in Hs. unfold UINT32_MAX. lia.
Qed.

Lemma start_io_wp h device client R on s :
  good R on s →
  wp (startIO h device client) (λ r s', ∃ R' on', accepts (StartIOOp h device client) s R on r R' on' ∧ good R' on' s') s.
Proof.
  intros (mo & mi & Hm & Hf). unfold startIO, accepts.
  assert (∃ R' on', (BadObjectError = BadObjectError ∧ R' = R ∧ on' = on) ∧ good R' on' s) as Hbad
    by (exists R, on; split; [done|by exists mo, mi]).
  destruct (validDevice device) eqn:Hv; cbn [negb]; [|wp_step; exact Hbad]. do 2 wp_step. unfold id.
  rewrite (has_client_lookup _ _ _ _ Hm). destruct (R !! (device, client)) as [n|] eqn:E.
  2:{ rewrite bool_decide_eq_false_2 by (intros [? ?]; done). cbn [negb]. wp_step. exact Hbad. }
  rewrite bool_decide_eq_true_2 by by eexists. cbn [negb]. cbv zeta. wp_step. apply on_lifecycle_wp. intros t l Eop.
  pose proof (start_lifecycle device client n R s mo mi t l Hm Hv E Eop) as H.
  destruct (set_lifecycle_same device l s) as (C1 & C2 & C3 & C4 & C5 & C6). set (s1 := set_lifecycle device l s) in *.
  destruct (n =? UINT32_MAX) eqn:Emax.
  { destruct H as [-> Hl]. destruct (decide (Rejected = Rejected)); [|done]. wp_step. exists R, on. split; [done|].
    destruct (models_lifecycle device client n R s s1 mo mi Hm Hv E Hl C1 C2 C3) as (mo' & mi' & Hm1).
    exists mo', mi'. split; [done|]. by eapply hardware_is_same. }
  destruct H as [Ht Hl]. destruct (decide (t = Rejected)); [done|].
  pose proof (registered_range device client n R s mo mi Hm Hv E) as Hn.
  clearbody s1. wp_step.
  eapply (start_if_idle_wp h R mo mi on s); [done..|]. intros r s2 [S1 S2 S3 S4 S5] Hok Hfail. wp_step.
  { destruct Hfail as [Hna Hoff]; [lia|]. wp_step. apply on_lifecycle_wp. intros t' l' Eop'. wp_step. exists R, false.
    assert (lifecycle_has device client n R s (set_lifecycle device l' s2)) as Hl'.
    { eapply stop_takes_back; [|lia|exact Eop']. by eapply lifecycle_has_eq. }
    destruct (set_lifecycle_same device l' s2) as (D1 & D2 & D3 & D4 & D5 & D6).
    split; [right; split; [done|]; split; [done|]; split; [done|]; eexists; split; [done|lia]|].
    destruct (models_lifecycle device client n R s _ mo mi Hm Hv E Hl') as (mo' & mi' & Hm'); [congruence..|].
    eapply settle; [exact Hm'|done|]. destruct Hoff as (? & ? & ?). split; [congruence|]. split; congruence. }
  wp_step. eapply (count_start_wp _ _ device client n R mo mi s); [exact Hm|exact E|congruence|congruence|..].
  { intros c Hc. by apply is_client_key. }
  { intros c Hc. apply is_client_key. by apply (f_equal fst) in Hc. }
  intros l1 c l2 Er Ec. rewrite (u32_id (n + 1)) by (unfold is_u32, UINT32_MAX in *; lia).
  wp_step. apply sync_wp. intros s4 [T1 T2 T3 T4 T5] Hcap. wp_step.
  match goal with |- wp ?m _ _ => enough (∀ Q : () → DriverState → Prop, (∀ s5, same_registry s4 s5 →
     session s5 = session s4 → runtime s5 = runtime s4 → running s5 = running s4 → Q () s5) → wp m Q s4) as Hnt end.
  2:{ intros Q HQ. destruct (decide (t = FirstClientStarted)); [by apply notify_wp|wp_step; by apply HQ]. }
  apply Hnt. clear Hnt. intros s5 [U1 U2 U3 U4 U5] V1 V2 V3. wp_step.
  exists (<[(device, client) := n + 1]> R), (on || negb (anyActive s)). split.
  { left. split; [done|]. split; [done|]. by rewrite orb_true_iff, negb_true_iff, <- (any_active_spec _ _ _ _ Hm), not_true_iff_false. }
  cbn in T1, T2, T3, T4, T5.
  destruct (models_count device client n (n + 1) R s s5 mo mi l1 c l2) as (mo' & mi' & Hm'); try done; try congruence.
  { eapply lifecycle_has_eq; [exact Hl|congruence|congruence]. }
  eapply settle; [exact Hm'|intros _; apply any_started_insert; lia|]. eapply captures_eq; [|done..].
  apply Hcap. eapply powered_eq; [apply Hok; lia|done..].
Qed.

(** The end of a stop or a removal. *)
Lemma finish_leave_wp t tr device R R' mo mi on s :
  models s R' mo mi → captures on s →
  (tr = LastClientStopped ∧ ¬ started_on device R' ∨ tr = ClientStoppedStillActive ∧ started_on device R') →
  wp (if decide (tr = LastClientStopped) then last_stopped t device else mret noErr)
    (λ r s', ∃ on', runs_on on R' on' ∧ left_status device R R' r ∧ good R' on' s') s.
Proof.
  intros Hm Hh [[-> Hn]|[-> Hst]].
  2:{ assert (any_started R') as Ha by (destruct Hst as [id ?]; by exists (device, id)).
      rewrite decide_False by done. wp_step. exists on. split; [by split; [|intros []]|].
      split; [unfold left_status; rewrite decide_True by done; by right|]. by eapply settle. }
  rewrite decide_True by done. unfold last_stopped. do 2 wp_step. wp_step. unfold id. wp_step.
  - assert (any_started R') as Ha by by apply (any_active_spec _ _ _ _ Hm).
    do 2 wp_step. rewrite Z.eqb_refl. apply notify_wp. intros s' Hs E1 E2 E3. wp_step. exists on.
    split; [by split; [|intros []]|]. split.
    + unfold left_status. rewrite decide_False by done. split; [done|]. by eexists.
    + eapply settle; [by eapply same_registry_models|done|]. eapply captures_eq; [done|apply (sr_in _ _ Hs)|done..].
  - assert (¬ any_started R') as Hna by (rewrite <- (any_active_spec _ _ _ _ Hm); congruence).
    apply stop_hardware_wp. intros r s1 R1 O1. wp_step.
    assert (∀ s', same_registry s1 s' → session s' = session s1 → runtime s' = runtime s1 → running s' = running s1 →
      ∃ on', runs_on on R' on' ∧ left_status device R R' (IOStatus r) ∧ good R' on' s') as Hq.
    { intros s' R2 E1 E2 E3. exists false. split; [by split; [|intros []]|]. split.
      - unfold left_status. rewrite decide_False by done. split; [done|]. by eexists.
      - eapply settle; [eapply same_registry_models; [exact R2|]; by eapply same_registry_models|done|].
        destruct O1 as (? & ? & ?). split; [congruence|]. split; congruence. }
    wp_step; [apply notify_wp; intros; wp_step; by apply Hq|do 2 wp_step; by apply Hq].
Qed.

Lemma stop_io_wp t device client R on s :
  good R on s →
  wp (stopIO t device client) (λ r s', ∃ R' on', accepts (StopIOOp t device client) s R on r R' on' ∧ good R' on' s') s.
Proof.
  intros (mo & mi & Hm & Hf). unfold stopIO, accepts.
  assert (∃ R' on', (BadObjectError = BadObjectError ∧ R' = R ∧ on' = on) ∧ good R' on' s) as Hbad
    by (exists R, on; split; [done|by exists mo, mi]).
  destruct (validDevice device) eqn:Hv; cbn [negb]; [|wp_step; exact Hbad]. do 2 wp_step. unfold id.
  rewrite (has_client_lookup _ _ _ _ Hm). destruct (R !! (device, client)) as [n|] eqn:E.
  2:{ rewrite bool_decide_eq_false_2 by (intros [? ?]; done). cbn [negb]. wp_step. exact Hbad. }
  rewrite bool_decide_eq_true_2 by by eexists. cbn [negb]. wp_step. apply on_lifecycle_wp. intros tr l Eop.
  pose proof (stop_lifecycle device client n R s mo mi tr l Hm Hv E Eop) as H. unfold leaves in H.
  destruct (set_lifecycle_same device l s) as (C1 & C2 & C3 & C4 & C5 & C6). set (s1 := set_lifecycle device l s) in *.
  destruct (n =? 0) eqn:E0.
  { destruct H as [-> Hl]. rewrite decide_True by done. wp_step. exists R, on. split; [done|]. assert (n = 0) as -> by lia.
    destruct (models_lifecycle device client 0 R s s1 mo mi Hm Hv E Hl C1 C2 C3) as (mo' & mi' & Hm1).
    exists mo', mi'. split; [done|]. by eapply hardware_is_same. }
  destruct H as [Hl Htr]. rewrite decide_False by (destruct Htr as [[-> _]|[-> _]]; done). clearbody s1.
  pose proof (registered_range device client n R s mo mi Hm Hv E) as Hn.
  wp_step. eapply (count_start_wp _ _ device client n R mo mi s); [exact Hm|exact E|congruence|congruence|..].
  { intros c [Hc _]%andb_true_iff. by apply is_client_key. }
  { intros c Hc. apply andb_true_iff. split; [apply is_client_key; by apply (f_equal fst) in Hc|].
    apply (f_equal snd) in Hc. cbn in Hc. lia. }
  intros l1 c l2 Er Ec. rewrite (u32_id (n - 1)) by (unfold is_u32, UINT32_MAX in *; lia).
  wp_step. apply sync_wp. intros s4 [T1 T2 T3 T4 T5] Hcap. cbn in T1, T2, T3, T4, T5.
  destruct (models_count device client n (n - 1) R s s4 mo mi l1 c l2) as (mo' & mi' & Hm'); try done; try congruence.
  { eapply lifecycle_has_eq; [exact Hl|congruence|congruence]. }
  eapply wp_mono; [eapply (finish_leave_wp t tr device R); [exact Hm'| |exact Htr]|].
  - apply (Hcap on). eapply powered_eq; [by eapply hardware_is_powered|done..].
  - intros r s5 (on' & H1 & H2 & H3). eexists _, on'. split; [split; [done|by split]|done].
Qed.

(** *** Removing a client *)

Lemma models_remove device id n R s s' mo mi l1 c l2 :
  models s R mo mi → validDevice device = true → registered s = l1 ++ c :: l2 → entry c = ((device, id), n) →
  clients s' = wr (clients s) (Z.of_nat (length l1)) (rd (clients s) (clientCount s - 1)) →
  clientCount s' = clientCount s - 1 →
  activity s' = wr (activity s) (dc_activitySlot c) ((rd (activity s) (dc_activitySlot c)) <| as_key := 0 |>) →
  lifecycle_has device id 0 R s s' →
  ∃ mo' mi', models s' (delete (device, id) R) mo' mi'.
Proof.
  intros Hm Hv Er Ec El En Ea Hl.
  destruct (lifecycles_count device id 0 R (delete (device, id) R) s s' mo mi Hm Hv Hl) as (mo' & mi' & H1 & H2 & H3 & H4).
  { intros k. apply count_delete. }
  pose proof (mo_count _ _ _ _ Hm) as Hct. pose proof (length_registered _ _ _ _ Hm) as Hlen.
  rewrite Er, length_app in Hlen. cbn in Hlen.
  assert (registered s' ≡ₚ l1 ++ l2) as Er'.
  { unfold registered in *. rewrite El, En. replace (clientCount s - 1) with (Z.of_nat (Z.to_nat (clientCount s) - 1)) by lia.
    rewrite Nat2Z.id. replace (Z.to_nat (clientCount s)) with (S (Z.to_nat (clientCount s) - 1)) in Er by lia.
    eapply swap_remove; [exact Er|]. rewrite (mo_clients _ _ _ _ Hm). lia. }
  pose proof (mo_keys _ _ _ _ Hm) as Hk. pose proof (mo_slots _ _ _ _ Hm) as Hs. rewrite Er in Hk, Hs.
  rewrite <- Permutation_middle in Hk, Hs. apply list.Forall_cons in Hk as [[Hsl _] Hk]. cbn in Hs. apply NoDup_cons in Hs as [Hs1 Hs2].
  exists mo', mi'. split; try done.
  - by rewrite El, length_wr, (mo_clients _ _ _ _ Hm).
  - by rewrite Ea, length_wr, (mo_activity _ _ _ _ Hm).
  - lia.
  - rewrite Er'. pose proof (mo_entries _ _ _ _ Hm) as Hp. rewrite Er, <- Permutation_middle in Hp. cbn in Hp. rewrite Ec in Hp.
    by eapply entries_delete.
  - rewrite Er'. pose proof (mo_valid _ _ _ _ Hm) as H. rewrite Er, <- Permutation_middle in H. by apply list.Forall_cons in H as [_ ?].
  - by rewrite Er'.
  - rewrite Er', Ea. rewrite list.Forall_forall in Hk |- *. intros c' Hc'. destruct (Hk c' Hc') as [E1 E2]. split; [done|].
    rewrite rd_wr_ne; [done|lia|lia|]. intros E'. apply Hs1. rewrite E'. by apply list_elem_of_fmap_2.
  - intros i Hi. rewrite Ea, Er'. destruct (decide (i = dc_activitySlot c)) as [->|].
    + rewrite rd_wr_eq by (rewrite (mo_activity _ _ _ _ Hm); lia). done.
    + rewrite rd_wr_ne by lia. intros Hkey. pose proof (mo_used _ _ _ _ Hm i Hi Hkey) as H.
      rewrite Er, <- Permutation_middle in H. cbn in H. by apply elem_of_cons in H as [?|?].
Qed.

Lemma started_delete device id n R : R !! (device, id) = Some n → n = 0 →
  started_on device (delete (device, id) R) ↔ started_on device R.
Proof.
  intros E ->. unfold started_on. setoid_rewrite count_delete. split; intros [j Hj]; exists j; revert Hj; case_decide as Ej; try done.
  injection Ej as <-. unfold count_of. by rewrite E.
Qed.

Lemma remove_wp t device info R on s :
  good R on s →
  wp (removeClient t device info) (λ r s', ∃ R' on', accepts (RemoveClientOp t device info) s R on r R' on' ∧ good R' on' s') s.
Proof.
  intros (mo & mi & Hm & Hf). unfold removeClient, accepts.
  assert (∃ R' on', (BadObjectError = BadObjectError ∧ R' = R ∧ on' = on) ∧ good R' on' s) as Hbad
    by (exists R, on; split; [done|by exists mo, mi]).
  destruct info as [info|]; [|wp_step; exact Hbad].
  destruct (validDevice device) eqn:Hv; cbn [negb]; [|wp_step; exact Hbad]. do 2 wp_step. unfold id.
  destruct (R !! (device, mClientID info)) as [n|] eqn:E.
  2:{ rewrite (no_index _ _ _ _ Hm) by done. wp_step. exists R, on.
      split; [|by exists mo, mi]. rewrite delete_id by done. split; [done|]. split; [|done].
      split; [intros Hon; split; [done|by eapply hardware_is_started]|by intros []]. }
  destruct (client_index _ _ _ _ Hm _ _ _ E) as (l1 & c & l2 & Er & Ec & ->). wp_step. apply on_lifecycle_wp. intros tr l Eop.
  pose proof (remove_lifecycle device (mClientID info) n R s mo mi tr l Hm Hv E Eop) as H. unfold leaves in H.
  destruct (set_lifecycle_same device l s) as (C1 & C2 & C3 & C4 & C5 & C6). set (s1 := set_lifecycle device l s) in *.
  assert (lifecycle_has device (mClientID info) 0 R s s1) as Hl by (destruct (n =? 0); apply H).
  assert ((n = 0 ∧ tr = ClientNotActive) ∨ (n ≠ 0 ∧ (tr = LastClientStopped ∧ ¬ started_on device (delete (device, mClientID info) R) ∨
    tr = ClientStoppedStillActive ∧ started_on device (delete (device, mClientID info) R)))) as Htr.
  { destruct (n =? 0) eqn:E0; [left; split; [lia|apply H]|right]. split; [lia|]. destruct H as [_ H]. unfold started_on in *.
    setoid_rewrite count_delete. by setoid_rewrite count_insert in H. }
  clear H. clearbody s1. pose proof (mo_count _ _ _ _ Hm) as Hct. pose proof (length_registered _ _ _ _ Hm) as Hlen.
  rewrite Er, length_app in Hlen. cbn in Hlen. do 6 wp_step. wp_step. apply sync_wp. intros s4 [T1 T2 T3 T4 T5] Hcap.
  cbn in T1, T2, T3, T4, T5. rewrite C1, C2, (u32_id (clientCount s - 1)) in T3 by (unfold is_u32; lia).
  rewrite C2, (u32_id (clientCount s - 1)) in T4 by (unfold is_u32; lia).
  assert (rd (clients s) (Z.of_nat (length l1)) = c) as Erd.
  { unfold rd. rewrite Nat2Z.id. assert (registered s !! length l1 = Some c) as Hx by (rewrite Er; by apply list_lookup_middle).
    unfold registered in Hx. apply lookup_take_Some in Hx as [Hx _]. by apply list_lookup_total_correct. }
  rewrite C1, C3, Erd in T5.
  destruct (models_remove device (mClientID info) n R s s4 mo mi l1 c l2) as (mo' & mi' & Hm'); try done.
  { eapply lifecycle_has_eq; [exact Hl|congruence|congruence]. }
  assert (captures on s4) as Hh by (apply Hcap; eapply powered_eq; [by eapply hardware_is_powered|done..]).
  destruct Htr as [[-> ->]|[Hn Htr]].
  - assert (on = true → any_started (delete (device, mClientID info) R)) as Hon.
    { intros Hon. destruct (hardware_is_started on s R Hf Hon) as [k Hk]. exists k.
      rewrite count_delete. case_decide; [|done]. subst k. unfold count_of in Hk. by rewrite E in Hk. }
    rewrite decide_False by done. wp_step. exists (delete (device, mClientID info) R), on. split; [|by eapply settle].
    split; [done|]. split; [split; [auto|by intros []]|]. unfold left_status. rewrite decide_True by done.
    rewrite (started_delete device _ 0 R E eq_refl).
    destruct (lifecycle_maps device R s mo mi Hm Hv) as (m & Hr & Hc). pose proof (started_counts device R _ m Hr Hc) as Hst.
    destruct (decide (m = ∅)) as [Em|Em]; [left|right; by apply Hst]. rewrite <- Hst. auto.
  - eapply wp_mono; [eapply (finish_leave_wp t tr device R); [exact Hm'|exact Hh|exact Htr]|].
    intros r s5 (on' & H1 & H2 & H3). eexists _, on'. split; [split; [done|by split]|exact H3].
Qed.

(** *** The monitor *)

(** The end of a round: hardware that is off is started when the device is there. *)
Lemma restart_wp h (ticks : Z) R mo mi s :
  models s R mo mi → any_started R → hardware_off s →
  wp (s ← gets id;
      present ← (match session s with None => zoom machine NS6DeviceSession_devicePresent | Some _ => mret false end);
      (if (present : bool) then (_ ← startHardware h false; mret ()) else mret ());;
      mret ticks) (λ _ s', ∃ on', restarts h s on' ∧ good R on' s') s.
Proof.
  intros Hm Ha Hoff. pose proof Hoff as (Es & _ & _). do 2 wp_step. unfold id. rewrite Es. wp_step. wp_step.
  unfold wp at 1, restarts. destruct (NS6DeviceSession_devicePresent (machine s)) as [p w]. wp_step.
  set (s1 := s <| machine := w |>). assert (same_registry s s1 ∧ hardware_off s1) as [R1 H1] by (split; [by split|done]).
  destruct p; cbn [andb].
  - pose proof (start_hardware_wp h false (λ r s2, same_registry s1 s2 ∧ captures (r =? kIOReturnSuccess) s2) s1 H1) as Hw.
    wp_step. unfold wp in Hw |- *. destruct (startHardware h false s1) as [r s2]. destruct Hw as [R2 Hc].
    { intros r' s' R' Hok Hfail. split; [done|]. destruct (Z.eqb_spec r' kIOReturnSuccess) as [E|E]; [|by apply Hfail].
      specialize (Hok E). cbn. unfold input_active in *. by rewrite (sr_in _ _ R'). }
    cbn. eexists. split; [reflexivity|]. eapply settle; [|done|done].
    eapply same_registry_models; [exact R2|]. by eapply same_registry_models.
  - wp_step. wp_step. exists false. split; [done|]. eapply settle; [by eapply same_registry_models|done..].
Qed.

Lemma monitor_wp h t ticks R on s :
  good R on s → wp (monitor_round h t ticks) (λ _ s', ∃ on', (any_started R → monitored h s on on') ∧
    (¬ any_started R → on' = on) ∧ good R on' s') s.
Proof.
  intros (mo & mi & Hm & Hf). unfold monitor_round. do 2 wp_step. unfold id. wp_step.
  { assert (¬ any_started R) as Hna by (rewrite <- (any_active_spec _ _ _ _ Hm); by destruct (anyActive s)).
    wp_step. exists on. split; [done|]. split; [done|by exists mo, mi]. }
  assert (any_started R) as Ha by (apply (any_active_spec _ _ _ _ Hm); by apply negb_false_iff). cbv zeta.
  wp_step. match goal with |- wp ?m _ _ => enough (∀ Q : () → DriverState → Prop, (∀ s1, same_registry s s1 →
    session s1 = session s → runtime s1 = runtime s → running s1 = running s → machine s1 = machine s → Q () s1) →
    wp m Q s) as Hlog end.
  2:{ intros Q HQ. wp_step; wp_step; by apply HQ. }
  apply Hlog. clear Hlog. intros s1 R1 E1 E2 E3 E4. assert (models s1 R mo mi) as Hm1 by by eapply same_registry_models.
  assert (hardware_is on s1 R) as Hf1 by by eapply hardware_is_same.
  assert (device_current s1 = device_current s) as Ed.
  { unfold device_current, on_usb. rewrite E1, E4. destruct (session s); [|done]. by destruct (NS6DeviceSession_isCurrentDevice _). }
  unfold monitored. rewrite <- Ed. destruct on; cbn [andb].
  - wp_step.
    pose proof (on_usb_wp NS6DeviceSession_isCurrentDevice true (λ r s2, same_registry s1 s2 ∧ runtime s2 = runtime s1 ∧
      running s2 = running s1 ∧ is_Some (session s2)) s1) as Hw.
    unfold device_current. unfold wp in Hw. unfold wp at 1. destruct (on_usb NS6DeviceSession_isCurrentDevice true s1) as [cur s2].
    destruct Hf1 as [_ (i & (I1 & N1 & x & X1 & W1 & Y1) & Hi)].
    destruct Hw as (R2 & X2 & N2 & [y I2]); [by auto|]. cbn [fst].
    assert (models s2 R mo mi) as Hm2 by by eapply same_registry_models. destruct cur; cbn [negb].
    + do 2 wp_step. wp_step. wp_step. unfold id. rewrite I2. do 2 wp_step. do 3 wp_step. exists true. split; [done|]. split; [done|].
      eapply settle; [exact Hm2|done|]. split; [done|]. split; [congruence|]. exists x. split; [congruence|]. split; [done|].
      rewrite Y1. apply eq_iff_eq_true. by rewrite Hi, (input_active_spec _ _ _ _ Hm2).
    + wp_step. wp_step. apply stop_hardware_wp. intros r s3 R3 O3. wp_step.
      eapply wp_mono; [eapply restart_wp; [by eapply same_registry_models|done..]|].
      cbv beta. intros _ s4 (on' & Hr & Hg). exists on'. split; [|by split]. intros _. exists s3. split; [done|].
      split; [|by split]. eapply same_registry_trans; [exact R1|]. by eapply same_registry_trans.
  - pose proof Hf1 as (Es & _ & _). wp_step. unfold wp at 1, on_usb. rewrite Es. cbn [negb]. do 2 wp_step.
    eapply wp_mono; [by eapply restart_wp|]. cbv beta. intros _ s4 (on' & Hr & Hg). exists on'. split; [|by split].
    intros _. exists s1. split; [done|]. by split.
Qed.

Lemma step_wp op R on s :
  op_ok op → good R on s → wp (driver_step op) (λ r s', ∃ R' on', accepts op s R on r R' on' ∧ good R' on' s') s.
Proof.
  intros Hok Hg. destruct op; cbn [driver_step]; [by apply add_wp|by apply remove_wp|by apply start_io_wp|by apply stop_io_wp|].
  wp_step. eapply wp_mono; [by apply monitor_wp|]. intros r s' (on' & H1 & H2 & Hg'). wp_step. by exists R, on'.
Qed.
End steps.

(** ** Runs *)

(** The callbacks of a client find its own activity slot. *)
Lemma own_activity_slot s R mo mi c :
  models s R mo mi → c ∈ registered s →
  first_index (λ a, as_key a =? activity_key (dc_device c) (dc_id c)) (activity s) 0 = Some (dc_activitySlot c).
Proof.
  intros Hm Hc. pose proof (mo_keys _ _ _ _ Hm) as Hk. pose proof (mo_valid _ _ _ _ Hm) as Hv.
  rewrite list.Forall_forall in Hk, Hv. destruct (Hk c Hc) as [Hs Ek]. destruct (Hv c Hc) as [V1 V2].
  assert (NoDup (key_of <$> registered s)) as Hnd.
  { pose proof (NoDup_fst_map_to_list R) as Hn. rewrite (mo_entries _ _ _ _ Hm) in Hn. by rewrite <- list_fmap_compose in Hn. }
  assert (∀ i, 0 <= i < 64 → as_key (rd (activity s) i) = activity_key (dc_device c) (dc_id c) → i = dc_activitySlot c) as Hu.
  { intros i Hi Ei. pose proof (mo_used _ _ _ _ Hm i Hi) as Hin. rewrite Ei in Hin.
    specialize (Hin (activity_key_pos _ _ V1 V2)). apply list_elem_of_fmap in Hin as (c' & -> & Hc').
    destruct (Hk c' Hc') as [_ Ek']. destruct (Hv c' Hc') as [V1' V2']. rewrite Ek' in Ei.
    apply activity_key_inj in Ei; [|done..]. apply list_elem_of_lookup in Hc as [a Ha], Hc' as [b Hb].
    assert (b = a) as -> by (eapply NoDup_lookup; [exact Hnd|rewrite list_lookup_fmap, Hb; done|
      rewrite list_lookup_fmap, Ha; cbn; unfold key_of; congruence]). congruence. }
  pose proof (mo_activity _ _ _ _ Hm) as Hlen.
  pose proof (first_index_spec (λ a, as_key a =? activity_key (dc_device c) (dc_id c)) (activity s) 0) as H.
  destruct (first_index _ (activity s) 0) as [i|].
  - destruct H as (l1 & a & l2 & El & -> & Ha & _). f_equal. apply Hu.
    + rewrite El, length_app in Hlen. cbn in Hlen. lia.
    + unfold rd. replace (Z.to_nat (0 + Z.of_nat (length l1))) with (length l1) by lia.
      rewrite El, list_lookup_total_middle by done. lia.
  - exfalso. rewrite list.Forall_forall in H. destruct (lookup_lt_is_Some_2 (activity s) (Z.to_nat (dc_activitySlot c))) as [a Ha]; [lia|].
    unfold rd in Ek. rewrite (list_lookup_total_correct _ _ _ Ha) in Ek. specialize (H a (list_elem_of_lookup_2 _ _ _ Ha)). lia.
Qed.

Lemma initial_models anchor oe ie w : models (DriverState_new anchor oe ie w) ∅ ∅ ∅.
Proof.
  split; try done; try apply represents_new; try constructor.
  intros i Hi Hk. exfalso. apply Hk. unfold rd. cbn [activity DriverState_new].
  rewrite lookup_total_replicate_2 by (unfold kMaxClients; lia). done.
Qed.

Section runs.
Context {codes : IOReturns} {laws : IOReturnsLaws} {constants : UsbConstants}.

Fixpoint run_driver (ops : list driver_op) : M DriverState (list OSStatus) :=
  match ops with
  | [] => mret []
  | op :: ops' => r ← driver_step op; rs ← run_driver ops'; mret (r :: rs)
  end.

(** The abstract driver can give these answers on its way from [R] with the hardware [on] or off. *)
Inductive accepted : list driver_op → DriverState → registry → bool → list OSStatus → registry → bool → Prop :=
  | accepted_nil s R on : accepted [] s R on [] R on
  | accepted_cons op ops s R on r s1 R1 on1 rs R' on' :
      driver_step op s = (r, s1) → accepts op s R on r R1 on1 → accepted ops s1 R1 on1 rs R' on' →
      accepted (op :: ops) s R on (r :: rs) R' on'.

(** C4: over any sequence of registrations, starts, stops, removals and monitor rounds, whatever
    the system and the device answer: the driver answers as the map from clients to outstanding
    starts does; each registered client has an activity slot of its own; and a device is running exactly
    while a client of it has started.  The hardware is on or off as these operations say: the first
    start turns it on or fails, the last stop turns it off, the others leave it as it is while clients
    have started, and only a monitor round that finds its device gone turns it off meanwhile; a round
    that finds it off and the device there starts it again.  While it is on, session and worker exist
    and it captures exactly while a client of the input device has started. *)
Theorem driver_refines_registry ops anchor oe ie w :
  Forall op_ok ops →
  let s0 := DriverState_new anchor oe ie w in
  let '(rs, s) := run_driver ops s0 in
  ∃ R on, accepted ops s0 ∅ false rs R on ∧
    (∀ device id, hasClient device id s = bool_decide (is_Some (R !! (device, id)))) ∧
    (∀ c, c ∈ registered s →
       first_index (λ a, as_key a =? activity_key (dc_device c) (dc_id c)) (activity s) 0 = Some (dc_activitySlot c)) ∧
    (∀ device, validDevice device = true →
       AudioDeviceLifecycle_activeStarts (lifecycle device s) ≠ 0 ↔ started_on device R) ∧
    hardware_is on s R.
Proof.
  intros Hok s0.
  assert (∀ R on s, good R on s →
    wp (run_driver ops) (λ rs s', ∃ R' on', accepted ops s R on rs R' on' ∧ good R' on' s') s) as H.
  { clear s0. induction Hok as [|op ops Hop _ IH]; intros R on s Hg; cbn [run_driver].
    - wp_step. exists R, on. split; [constructor|done].
    - pose proof (step_wp op R on s Hop Hg) as Hs. wp_step. unfold wp in Hs |- *. destruct (driver_step op s) as [r s1] eqn:Es.
      destruct Hs as (R1 & on1 & H1 & G1). specialize (IH R1 on1 s1 G1). unfold wp in IH.
      unfold mbind, M_bind. destruct (run_driver ops s1) as [rs s2]. destruct IH as (R2 & on2 & H2 & G2). cbn.
      exists R2, on2. split; [by econstructor|done]. }
  specialize (H ∅ false s0). unfold wp in H.
  destruct (run_driver ops s0) as [rs s]. destruct H as (R & on & Ha & mo & mi & Hm & Hf).
  { exists ∅, ∅. split; [apply initial_models|done]. }
  exists R, on. split; [done|]. split; [apply (has_client_lookup _ _ _ _ Hm)|]. split; [intros c Hc; by eapply own_activity_slot|].
  split; [|done]. intros device Hv. destruct (lifecycle_maps device R s mo mi Hm Hv) as (m & Hr & Hc).
  by eapply active_starts.
Qed.
End runs.

(** ** A client of the input device starts *)

Definition demo_answer (n : nat) : reply :=
  ns6_answer (if decide (n < 25)%nat then n else if decide (n < 49)%nat then 100%nat else n - 49)%nat.

Definition demo_thread : worker_thread :=
  {| thread_created := true; until_started := λ _ _, mret (0, 9); until_ended := mret () |}.

Definition demo_hardware : hardware := {|
  session_allocated := true; runtime_allocated := true; first_worker := demo_thread; second_worker := demo_thread;
  activation_schedule := handshake; current_loop := 9; host_time := 1000 |}.

Definition demo_output : AudioOutputEngine :=
  is_Some_proj (mx := AudioOutputEngine_new 16) ltac:(vm_compute; eexists; reflexivity).
Definition demo_input : AudioInputEngine :=
  is_Some_proj (mx := AudioInputEngine_new 16 8) ltac:(vm_compute; eexists; reflexivity).
Definition demo_world : world := {| answer := demo_answer; calls := 0; held := λ _, 0; sent := [] |}.
Abbreviation demo_state := (DriverState_new 0 demo_output demo_input demo_world).

Definition demo_ops : list driver_op :=
  [AddClient 5 (Some {| mClientID := 7; mProcessID := 100; mBundle := [] |}); StartIOOp demo_hardware 5 7].

Lemma demo_runs :
  let '(rs, s) := @run_driver iokit_returns usb_constants demo_ops demo_state in
  rs = [noErr; noErr] ∧ running s = true.
Proof. vm_compute. split; reflexivity. Qed.

Lemma driver_refines_registry_witness :
  let '(rs, s) := @run_driver iokit_returns usb_constants demo_ops demo_state in
  running s = true ∧
  ∃ R, @accepted iokit_returns usb_constants demo_ops demo_state ∅ false [noErr; noErr] R true ∧ any_started R.
Proof.
  assert (Forall op_ok demo_ops) as Hok by (repeat constructor; cbn; lia).
  pose proof (@driver_refines_registry iokit_returns iokit_returns_laws usb_constants demo_ops 0 demo_output demo_input
    demo_world Hok) as H.
  pose proof demo_runs as E. cbv zeta in H. revert E H. generalize (@run_driver iokit_returns usb_constants demo_ops demo_state).
  intros [rs s] [-> Hr] (R & on & Ha & _ & _ & _ & Hf). split; [exact Hr|]. exists R. destruct on.
  - split; [exact Ha|]. apply Hf.
  - destruct Hf as (_ & _ & E). rewrite E in Hr. discriminate.
Defined.
