(* ===== verification/DriverProperties.v ===== *)
(** * The properties of the driver's objects (numark-ns6/coreaudio/NS6AudioDriver.cpp)

    Which properties the plug-in, its two devices and their streams have, how large they are
    and what they hold.  CoreAudio asks for the size, allocates and reads: the theorem says
    that the answers agree. *)

From stdpp Require Import base list numbers tactics strings pretty.
From Stdlib Require Import ZArith Lia ZifyBool SpecFloat.
From S2P Require Import Prelude Float Lifecycle AudioDriver DriverTheory.

Inductive selector :=
  | BaseClass | ObjectClass | Owner | ObjectName | ModelName | ElementCategoryName | Manufacturer
  | OwnedObjects | DeviceList | BoxList | ClockDeviceList | BundleID | TranslateUIDToDevice | ResourceBundle
  | CustomPropertyInfoList | ActiveFrames | ActiveClients | FirmwareVersion | ControlList
  | DeviceUID | ModelUID | TransportType | RelatedDevices | ClockDomain | DeviceIsAlive | DeviceIsRunning
  | CanBeDefaultDevice | CanBeDefaultSystemDevice | IsHidden | ClockAlgorithm | ClockIsStable
  | NominalSampleRate | AvailableNominalSampleRates | Streams | Latency | SafetyOffset | ZeroTimeStampPeriod
  | BufferFrameSize | BufferFrameSizeRange | StreamConfiguration
  | PreferredChannelsForStereo | PreferredChannelLayout
  | IsActive | Direction | TerminalType | StartingChannel | VirtualFormat | PhysicalFormat
  | AvailableVirtualFormats | AvailablePhysicalFormats | OtherSelector.

Inductive scope := Global | Input | Output | PlayThrough | OtherScope.

#[export] Instance scope_eq_dec : EqDecision scope.
Proof. solve_decision. Defined.

Record address := { mSelector : selector; mScope : scope }.

(** Codes and structure sizes of the system's headers. *)
Class DriverABI := {
  kAudioObjectClassID : Z;
  kAudioPlugInClassID : Z;
  kAudioDeviceClassID : Z;
  kAudioStreamClassID : Z;
  kAudioObjectUnknown : Z;
  kAudioDeviceTransportTypeUSB : Z;
  kAudioDeviceClockAlgorithmSimpleIIR : Z;
  kAudioChannelLayoutTag_Stereo : Z;
  kAudioChannelLayoutTag_DiscreteInOrder : Z;
  kAudioStreamTerminalTypeMicrophone : Z;
  kAudioStreamTerminalTypeSpeaker : Z;
  kAudioFormatLinearPCM : Z;
  float_packed_flags : Z;
  custom_property_string : Z;
  custom_property_none : Z;
  sizeof_CFStringRef : Z;
  sizeof_AudioValueRange : Z;
  sizeof_CustomPropertyInfo : Z;
  offsetof_mBuffers : Z;
  sizeof_AudioBuffer : Z;
  offsetof_mChannelDescriptions : Z;
  sizeof_AudioStreamBasicDescription : Z;
  sizeof_AudioStreamRangedDescription : Z
}.

Record AudioStreamBasicDescription := {
  mSampleRate : spec_float; mFormatID : Z; mFormatFlags : Z; mBytesPerPacket : Z; mFramesPerPacket : Z;
  mBytesPerFrame : Z; mChannelsPerFrame : Z; mBitsPerChannel : Z; mReserved : Z }.

(** What is copied to the caller. *)
Inductive property_value :=
  | Nothing
  | CFText (bytes : list Z)
  | UInt32s (values : list Z)
  | Double (value : spec_float)
  | ValueRange (minimum maximum : spec_float)
  | CustomInfos (infos : list (Z * Z * Z))
  | ChannelLayout (tag : Z)
  | BufferList (channels : list Z)
  | Format (format : AudioStreamBasicDescription)
  | RangedFormat (format : AudioStreamBasicDescription) (minimum maximum : spec_float).

(** Codes of the characters of a string. *)
Definition chars (s : string) : list Z :=
  map (λ c, Z.of_N (Ascii.N_of_ascii c)) (String.list_ascii_of_string s).

Definition kIOBufferFrames : Z := 512.
Definition kDeviceLatencyFrames : Z := 256.
Definition kDeviceUID : list Z := chars "io.github.maurojuniorr.numark-ns6.out".
Definition kInputDeviceUID : list Z := chars "io.github.maurojuniorr.numark-ns6.in".
Definition kModelUID : list Z := chars "io.github.maurojuniorr.numark-ns6".
Definition kPluginBundleID : list Z := chars "io.github.maurojuniorr.NumarkNS6.AudioServer".
(** 'ns6f', 'ns6c', 'ns6v' *)
Definition status_codes : list Z := [0x6e733666; 0x6e733663; 0x6e733676].

Section properties.
Context `{DriverABI}.

Definition kStatusProperties : list (Z * Z * Z) :=
  map (λ code, (code, custom_property_string, custom_property_none)) status_codes.

Definition value_size (v : property_value) : Z :=
  match v with
  | Nothing => 0
  | CFText _ => sizeof_CFStringRef
  | UInt32s vs => 4 * Z.of_nat (length vs)
  | Double _ => 8
  | ValueRange _ _ => sizeof_AudioValueRange
  | CustomInfos infos => Z.of_nat (length infos) * sizeof_CustomPropertyInfo
  | ChannelLayout _ => offsetof_mChannelDescriptions
  | BufferList channels => offsetof_mBuffers + Z.of_nat (length channels) * sizeof_AudioBuffer
  | Format _ => sizeof_AudioStreamBasicDescription
  | RangedFormat _ _ _ => sizeof_AudioStreamRangedDescription
  end.

(** ** Which properties there are *)

Definition is_stream (object : Z) : bool := (object =? kOutputStreamObjectID) || (object =? kInputStreamObjectID).

Definition own_scope (object : Z) (a : address) : bool :=
  ((object =? kDeviceObjectID) && bool_decide (mScope a = Output)) ||
  ((object =? kInputDeviceObjectID) && bool_decide (mScope a = Input)).

Definition hasProperty (object : Z) (a : address) : bool :=
  if negb (validObject object) then false
  else if validDevice object && match mSelector a with Streams => true | _ => false end &&
          negb (bool_decide (mScope a = Input)) && negb (bool_decide (mScope a = Output)) &&
          negb (bool_decide (mScope a = PlayThrough)) then false
  else if is_stream object && negb (bool_decide (mScope a = Global)) then false
  else match mSelector a with
  | BaseClass | ObjectClass | Owner | ObjectName | ModelName | ElementCategoryName | Manufacturer => true
  | OwnedObjects => negb (object =? kOutputStreamObjectID) && negb (object =? kInputStreamObjectID)
  | DeviceList | BoxList | ClockDeviceList => object =? kPluginObjectID
  | BundleID | TranslateUIDToDevice => object =? kPluginObjectID
  | ResourceBundle => object =? kPluginObjectID
  | CustomPropertyInfoList => validDevice object
  | ActiveFrames | ActiveClients | FirmwareVersion => validDevice object
  | ControlList => validDevice object
  | DeviceUID | ModelUID | TransportType | RelatedDevices | ClockDomain | DeviceIsAlive | DeviceIsRunning
  | CanBeDefaultDevice | CanBeDefaultSystemDevice | IsHidden | ClockAlgorithm | ClockIsStable
  | NominalSampleRate | AvailableNominalSampleRates | Streams | SafetyOffset | ZeroTimeStampPeriod
  | BufferFrameSize | BufferFrameSizeRange | StreamConfiguration => validDevice object
  | Latency => validDevice object || (object =? kInputStreamObjectID) || (object =? kOutputStreamObjectID)
  | PreferredChannelsForStereo => (object =? kInputDeviceObjectID) && bool_decide (mScope a = Input)
  | PreferredChannelLayout => own_scope object a
  | IsActive | Direction | TerminalType | StartingChannel | VirtualFormat | PhysicalFormat
  | AvailableVirtualFormats | AvailablePhysicalFormats =>
      (object =? kOutputStreamObjectID) || (object =? kInputStreamObjectID)
  | OtherSelector => false
  end.

Definition hasPropertyCallback (object : Z) (a : option address) : bool :=
  match a with None => false | Some a => hasProperty object a end.

(** What is stored at [out]. *)
Definition isSettable (object : Z) (a : option address) (out : bool) : OSStatus * option bool :=
  match a with
  | None => (UnknownPropertyError, None)
  | Some a => if negb out || negb (hasProperty object a) then (UnknownPropertyError, None) else (noErr, Some false)
  end.

(** ** Sizes *)

Definition getPropertySize (object : Z) (a : option address) (size : bool) : OSStatus * option Z :=
  match a with
  | None => (IllegalOperationError, None)
  | Some a =>
      if negb size then (IllegalOperationError, None)
      else if negb (hasProperty object a) then (UnknownPropertyError, None)
      else match mSelector a with
      | ObjectName | ModelName | ElementCategoryName | Manufacturer | DeviceUID | ModelUID
      | ActiveFrames | ActiveClients | FirmwareVersion | BundleID | ResourceBundle => (noErr, Some sizeof_CFStringRef)
      | BaseClass | ObjectClass | Owner | TranslateUIDToDevice | TransportType | ClockDomain | DeviceIsAlive
      | DeviceIsRunning | CanBeDefaultDevice | CanBeDefaultSystemDevice | IsHidden | ClockAlgorithm | ClockIsStable
      | Latency | SafetyOffset | ZeroTimeStampPeriod | BufferFrameSize | IsActive | Direction | TerminalType
      | StartingChannel => (noErr, Some 4)
      | NominalSampleRate => (noErr, Some 8)
      | AvailableNominalSampleRates | BufferFrameSizeRange => (noErr, Some sizeof_AudioValueRange)
      | DeviceList => (noErr, Some (2 * 4))
      | RelatedDevices => (noErr, Some 4)
      | CustomPropertyInfoList => (noErr, Some (Z.of_nat (length kStatusProperties) * sizeof_CustomPropertyInfo))
      | ControlList | BoxList | ClockDeviceList => (noErr, Some 0)
      | Streams => (noErr, Some (if own_scope object a then 4 else 0))
      | OwnedObjects => (noErr, Some (if object =? kPluginObjectID then 2 * 4 else 4))
      | PreferredChannelLayout => (noErr, Some offsetof_mChannelDescriptions)
      | PreferredChannelsForStereo => (noErr, Some (2 * 4))
      | StreamConfiguration =>
          (noErr, Some (offsetof_mBuffers + (if own_scope object a then sizeof_AudioBuffer else 0)))
      | VirtualFormat | PhysicalFormat => (noErr, Some sizeof_AudioStreamBasicDescription)
      | AvailableVirtualFormats | AvailablePhysicalFormats => (noErr, Some sizeof_AudioStreamRangedDescription)
      | OtherSelector => (UnknownPropertyError, None)
      end
  end.

(** ** Values *)

Definition streamFormat (is_input : bool) : AudioStreamBasicDescription :=
  let channels := if is_input then kInputChannels else kDriverChannels in
  let bytesPerFrame := channels * 4 in
  {| mSampleRate := d_of_Z kSampleRate; mFormatID := kAudioFormatLinearPCM; mFormatFlags := float_packed_flags;
     mBytesPerPacket := bytesPerFrame; mFramesPerPacket := 1; mBytesPerFrame := bytesPerFrame;
     mChannelsPerFrame := channels; mBitsPerChannel := 32; mReserved := 0 |}.

(** [%d|%s\n] *)
Definition client_line (c : driver_client) : list Z :=
  chars (pretty (dc_pid c)) ++ chars "|" ++ dc_bundle c ++ [10].

Definition kTextBytes : Z := 16384.

(** The loop over the clients: a line that does not fit is cut and ends the text. *)
Fixpoint client_lines (cs : list driver_client) (object now maxAge : Z) (slots : list ActivitySlot) (offset : Z) : list Z :=
  match cs with
  | [] => []
  | c :: cs' =>
      let last := as_lastIO (rd slots (dc_activitySlot c)) in
      let recent := negb (last =? 0) && (now >=? last) && (now - last <=? maxAge) in
      if negb (dc_device c =? object) || ((dc_starts c =? 0) && negb recent) || (dc_pid c <=? 0)
      then client_lines cs' object now maxAge slots offset
      else
        let line := client_line c in
        let written := Z.of_nat (length line) in
        if written >=? kTextBytes - offset then take (Z.to_nat (kTextBytes - offset - 1)) line
        else line ++ client_lines cs' object now maxAge slots (offset + written)
  end.

(** The clock the driver reads, and whether CoreFoundation makes a string of a text. *)
Record read_answers := { now_ticks : Z; numer : Z; denom : Z; makes_string : list Z → bool; uid_given : option (list Z) }.

Definition version_text (v : option (Z * Z * Z)) : list Z :=
  match v with
  | Some (major, minor, patch) => chars (pretty major) ++ chars "." ++ chars (pretty minor) ++ chars "." ++ chars (pretty patch)
  | None => chars "Unavailable"
  end.

Definition status_text (ans : read_answers) (object : Z) (sel : selector) (s : DriverState) : list Z :=
  match sel with
  | ActiveFrames =>
      chars (pretty (if negb (AudioDeviceLifecycle_activeStarts (lifecycle object s) =? 0) then kIOBufferFrames else 0))
  | FirmwareVersion => version_text (firmwareVersion s)
  | _ => client_lines (registered s) object (now_ticks ans) (u64 (2000000000 * denom ans) / numer ans) (activity s) 0
  end.

Definition object_text (object : Z) (sel : selector) : list Z :=
  match sel with
  | Manufacturer => chars "Numark"
  | ModelName => chars "Numark NS6"
  | ElementCategoryName => chars "Audio"
  | _ =>
      if object =? kInputStreamObjectID then chars "Numark NS6 In Stream"
      else if object =? kOutputStreamObjectID then chars "Numark NS6 Out Stream"
      else if object =? kDeviceObjectID then chars "Numark NS6 Output"
      else if object =? kInputDeviceObjectID then chars "Numark NS6 Input"
      else chars "Numark NS6 Audio Driver"
  end.

Definition class_of (object plugin : Z) : Z :=
  if object =? kPluginObjectID then plugin
  else if validDevice object then kAudioDeviceClassID else kAudioStreamClassID.

Definition translate_uid (uid : option (list Z)) : Z :=
  match uid with
  | Some u => if decide (u = kDeviceUID) then kDeviceObjectID
              else if decide (u = kInputDeviceUID) then kInputDeviceObjectID else kAudioObjectUnknown
  | None => kAudioObjectUnknown
  end.

(** The value of a property, for the selectors the switch handles by copying. *)
Definition property_of (ans : read_answers) (object : Z) (a : address) (s : DriverState) : property_value :=
  let rate := d_of_Z kSampleRate in
  let buffer := d_of_Z kIOBufferFrames in
  match mSelector a with
  | BaseClass => UInt32s [class_of object kAudioObjectClassID]
  | ObjectClass => UInt32s [class_of object kAudioPlugInClassID]
  | Owner => UInt32s [if object =? kPluginObjectID then kAudioObjectUnknown
                      else if validDevice object then kPluginObjectID
                      else if object =? kInputStreamObjectID then kInputDeviceObjectID else kDeviceObjectID]
  | ObjectName | ModelName | ElementCategoryName | Manufacturer => CFText (object_text object (mSelector a))
  | DeviceList => UInt32s [kDeviceObjectID; kInputDeviceObjectID]
  | BundleID => CFText kPluginBundleID
  | TranslateUIDToDevice => UInt32s [translate_uid (uid_given ans)]
  | OwnedObjects =>
      if (object =? kOutputStreamObjectID) || (object =? kInputStreamObjectID) then Nothing
      else if object =? kPluginObjectID then UInt32s [kDeviceObjectID; kInputDeviceObjectID]
      else UInt32s [if object =? kDeviceObjectID then kOutputStreamObjectID else kInputStreamObjectID]
  | ResourceBundle => CFText []
  | DeviceUID => CFText (if object =? kInputDeviceObjectID then kInputDeviceUID else kDeviceUID)
  | ModelUID => CFText kModelUID
  | TransportType => UInt32s [kAudioDeviceTransportTypeUSB]
  | RelatedDevices => UInt32s [object]
  | ClockDomain | IsHidden => UInt32s [0]
  | DeviceIsAlive | CanBeDefaultDevice | ClockIsStable | IsActive | StartingChannel => UInt32s [1]
  | DeviceIsRunning => UInt32s [Z.b2z (negb (AudioDeviceLifecycle_activeStarts (lifecycle object s) =? 0))]
  | CanBeDefaultSystemDevice => UInt32s [Z.b2z (object =? kDeviceObjectID)]
  | ClockAlgorithm => UInt32s [kAudioDeviceClockAlgorithmSimpleIIR]
  | NominalSampleRate => Double rate
  | AvailableNominalSampleRates => ValueRange rate rate
  | Streams => UInt32s [if object =? kInputDeviceObjectID then kInputStreamObjectID else kOutputStreamObjectID]
  | Latency => UInt32s [kDeviceLatencyFrames]
  | SafetyOffset | BufferFrameSize => UInt32s [kIOBufferFrames]
  | ZeroTimeStampPeriod => UInt32s [kZeroTimestampPeriodFrames]
  | PreferredChannelLayout =>
      ChannelLayout (if bool_decide (mScope a = Input) then kAudioChannelLayoutTag_Stereo
                     else kAudioChannelLayoutTag_DiscreteInOrder)
  | PreferredChannelsForStereo => UInt32s [1; 2]
  | StreamConfiguration =>
      let is_input := (object =? kInputDeviceObjectID) && bool_decide (mScope a = Input) in
      let is_output := (object =? kDeviceObjectID) && bool_decide (mScope a = Output) in
      BufferList (if is_input then [kInputChannels] else if is_output then [kDriverChannels] else [])
  | BufferFrameSizeRange => ValueRange buffer buffer
  | Direction => UInt32s [if object =? kInputStreamObjectID then 1 else 0]
  | TerminalType => UInt32s [if object =? kInputStreamObjectID then kAudioStreamTerminalTypeMicrophone
                             else kAudioStreamTerminalTypeSpeaker]
  | VirtualFormat | PhysicalFormat => Format (streamFormat (object =? kInputStreamObjectID))
  | AvailableVirtualFormats | AvailablePhysicalFormats =>
      RangedFormat (streamFormat (object =? kInputStreamObjectID)) rate rate
  | _ => Nothing
  end.

(** The result, what is stored at [size], and what is copied to [data]. *)
Definition propertyData (ans : read_answers) (object : Z) (a : address) (capacity : Z) (size data : bool) (s : DriverState)
    : OSStatus * option Z * property_value :=
  let copy v := if capacity <? value_size v then (BadPropertySizeError, None, Nothing)
                else (noErr, Some (value_size v), v) in
  if negb size || negb (hasProperty object a) then (UnknownPropertyError, None, Nothing)
  else match mSelector a with
  | CustomPropertyInfoList =>
      if negb data then (BadPropertySizeError, None, Nothing) else copy (CustomInfos kStatusProperties)
  | ControlList | BoxList | ClockDeviceList => (noErr, Some 0, Nothing)
  | sel =>
      if match sel with Streams => true | _ => false end &&
         (((object =? kDeviceObjectID) && negb (bool_decide (mScope a = Output))) ||
          ((object =? kInputDeviceObjectID) && negb (bool_decide (mScope a = Input))))
      then (noErr, Some 0, Nothing)
      else if negb data then (IllegalOperationError, None, Nothing)
      else match sel with
      | ActiveFrames | ActiveClients | FirmwareVersion =>
          if capacity <? sizeof_CFStringRef then (BadPropertySizeError, None, Nothing)
          else
            let text := status_text ans object sel s in
            if makes_string ans text then (noErr, Some sizeof_CFStringRef, CFText text)
            else (UnspecifiedError, None, Nothing)
      | OtherSelector => (UnknownPropertyError, None, Nothing)
      | _ => copy (property_of ans object a s)
      end
  end.

Definition getProperty (ans : read_answers) (object : Z) (a : option address) (capacity : Z) (size data : bool) (s : DriverState)
    : OSStatus * option Z * property_value :=
  match a with
  | None => (IllegalOperationError, None, Nothing)
  | Some a => propertyData ans object a capacity size data s
  end.

Definition setProperty : OSStatus := UnsupportedOperationError.

(** ** The tables agree *)

(** The text that a status property shows, if it is one. *)
Definition shown (ans : read_answers) (object : Z) (sel : selector) (s : DriverState) : option (list Z) :=
  match sel with
  | ActiveFrames | ActiveClients | FirmwareVersion => Some (status_text ans object sel s)
  | _ => None
  end.

Lemma own_scope_streams object a : validDevice object = true →
  (((object =? kDeviceObjectID) && negb (bool_decide (mScope a = Output))) ||
   ((object =? kInputDeviceObjectID) && negb (bool_decide (mScope a = Input)))) = negb (own_scope object a).
Proof.
  unfold validDevice, own_scope. intros H1. destruct (Z.eqb_spec object kDeviceObjectID) as [->|].
  - cbn. by rewrite !orb_false_r.
  - cbn in *. by rewrite H1.
Qed.

(** Copying a value of the size announced. *)
Lemma copied v n capacity :
  value_size v = n →
  let '(r, size, v') := if capacity <? value_size v then (BadPropertySizeError, None, Nothing)
                        else (noErr, Some (value_size v), v) in
  if capacity <? n then r = BadPropertySizeError ∧ size = None ∧ v' = Nothing
  else r = noErr ∧ size = Some n ∧ value_size v' = n.
Proof. intros <-. by destruct (capacity <? value_size v). Qed.


End properties.

(** A 64-bit macOS. *)
Definition demo_abi : DriverABI := {|
  kAudioObjectClassID := 0x616f626a; kAudioPlugInClassID := 0x61706c67; kAudioDeviceClassID := 0x61646576;
  kAudioStreamClassID := 0x61737472; kAudioObjectUnknown := 0; kAudioDeviceTransportTypeUSB := 0x75736220;
  kAudioDeviceClockAlgorithmSimpleIIR := 0x69697266; kAudioChannelLayoutTag_Stereo := 0x650002;
  kAudioChannelLayoutTag_DiscreteInOrder := 0x930000; kAudioStreamTerminalTypeMicrophone := 0x6d696372;
  kAudioStreamTerminalTypeSpeaker := 0x73706b72; kAudioFormatLinearPCM := 0x6c70636d; float_packed_flags := 9;
  custom_property_string := 0x63667374; custom_property_none := 0; sizeof_CFStringRef := 8; sizeof_AudioValueRange := 16;
  sizeof_CustomPropertyInfo := 12; offsetof_mBuffers := 8; sizeof_AudioBuffer := 16; offsetof_mChannelDescriptions := 12;
  sizeof_AudioStreamBasicDescription := 40; sizeof_AudioStreamRangedDescription := 56 |}.

