(* ===== verification/MidiOutput.v ===== *)
(** * MIDI to the device, and the bridge to applications (numark-ns6/midi)

    An application's packets arrive at the bridge (MIDIUserSessionBridge.cpp), which packs whole
    channel messages into datagrams of at most 41 bytes and cuts System Exclusive data into
    such datagrams; the driver's writer (MIDIOutputWriter.cpp) sends each datagram as one USB
    packet.  In the other direction the forwarder (LocalMIDIForwarder.cpp) hands messages to
    the bridge.  The bridge also keeps the device's clock running with a silent client. *)

From stdpp Require Import base list numbers tactics.
From Stdlib Require Import ZArith Lia ZifyBool.
From S2P Require Import Prelude IoKit UsbSession Activation Lifecycle.

(** ** The bridge: packets of an application *)

Definition kBridgeReportBytes : Z := 41.

Definition midiMessageLength (status : Z) : Z :=
  if (status >=? 0x80) && (status <=? 0xef)
  then if (Z.land status 0xf0 =? 0xc0) || (Z.land status 0xf0 =? 0xd0) then 2 else 3
  else 0.

(** The calls of [sendto], each with its datagram and its answer, and how many datagrams the socket
    did not take whole; [takes n] is the answer to the [n]-th call. *)
Record bridge := { calls : list (list Z * Z); outboundFailures : Z }.
#[export] Instance eta_bridge : Eta bridge := λ b, Build_bridge (calls b) (outboundFailures b).

(** The datagrams offered to the socket, and those among them it took. *)
Definition offered (b : bridge) : list (list Z) := (calls b).*1.
Definition accepted (b : bridge) : list (list Z) := (filter (λ c, c.2 = Z.of_nat (length c.1)) (calls b)).*1.

Section bridge.
Context (takes : nat → Z).

Definition sendToDriver (bytes : list Z) (length_ : Z) (b : bridge) : bridge :=
  if length_ =? 0 then b
  else
    let sent := takes (length (calls b)) in
    let b := b <| calls ::= λ l, l ++ [(slice bytes 0 length_, sent)] |> in
    if negb (sent =? length_) then b <| outboundFailures ::= λ n, n +₆₄ 1 |> else b.

(** System Exclusive data in parts of the size of a report. *)
Fixpoint send_parts (fuel : nat) (data : list Z) (offset part remaining : Z) (b : bridge) : bridge :=
  match fuel with
  | O => b
  | S fuel' =>
      if part <? remaining then
        let count := Z.min kBridgeReportBytes (remaining - part) in
        send_parts fuel' data offset (part + kBridgeReportBytes) remaining
          (sendToDriver (slice data (offset + part) count) count b)
      else b
  end.

(** The report being filled. *)
Record filling := { fl_report : list Z; fl_used : Z; fl_bridge : bridge }.

(** The loop over one packet. *)
Fixpoint packet_loop (fuel : nat) (data : list Z) (offset : Z) (f : filling) : filling :=
  match fuel with
  | O => f
  | S fuel' =>
      if offset <? Z.of_nat (length data) then
        let status := rd data offset in
        if status =? 0xf0 then
          let b := sendToDriver (fl_report f) (fl_used f) (fl_bridge f) in
          let remaining := Z.of_nat (length data) - offset in
          {| fl_report := fl_report f; fl_used := 0;
             fl_bridge := send_parts (length data) data offset 0 remaining b |}
        else
          let length_ := midiMessageLength status in
          if (length_ =? 0) || (offset + length_ >? Z.of_nat (length data))
          then packet_loop fuel' data (offset + 1) f
          else
            let f := if fl_used f + length_ >? kBridgeReportBytes
                     then {| fl_report := fl_report f; fl_used := 0;
                             fl_bridge := sendToDriver (fl_report f) (fl_used f) (fl_bridge f) |}
                     else f in
            packet_loop fuel' data (offset + length_)
              {| fl_report := memcpy (fl_report f) (fl_used f) (slice data offset length_);
                 fl_used := fl_used f + length_; fl_bridge := fl_bridge f |}
      else f
  end.

Definition receiveFromApplication (packets : list (list Z)) (b : bridge) : bridge :=
  let f := foldl (λ f data, packet_loop (length data) data 0 f)
             {| fl_report := replicate (Z.to_nat kBridgeReportBytes) 0; fl_used := 0; fl_bridge := b |} packets in
  sendToDriver (fl_report f) (fl_used f) (fl_bridge f).
End bridge.

(** ** The writer *)

Record writer := { w_sent : Z; w_failures : Z; w_packets : list (list Z); w_dev : usb }.
#[export] Instance eta_writer : Eta writer := λ w, Build_writer (w_sent w) (w_failures w) (w_packets w) (w_dev w).

Section writer.
Context `{IOReturns, UsbConstants}.

Definition count_failure : M writer () := modify (λ w, w <| w_failures ::= λ n, n +₆₄ 1 |>).

(** At most three attempts: the result of the last write. *)
Fixpoint write_attempts (attempts : nat) (packet : list Z) (result : Z) : M writer Z :=
  match attempts with
  | O => mret result
  | S attempts' =>
      modify (λ w, w <| w_packets ::= λ l, l ++ [packet] |>);;
      result ← zoom w_dev (zoom io call_status);
      if result =? kIOReturnSuccess then mret result
      else if negb (result =? kIOUSBPipeStalled) && negb (result =? kIOReturnNotResponding) &&
              negb (result =? kIOReturnTimeout) then mret result
      else
        cleared ← zoom w_dev (zoom io call_status);
        if negb (cleared =? kIOReturnSuccess) then mret result else write_attempts attempts' packet result
  end.

(** One round of [run] for the datagram [recv] delivers: [message] is what fits its buffer. *)
Definition write_datagram (message : list Z) : M writer () :=
  let length_ := Z.of_nat (length message) in
  if (length_ <=? 0) || (length_ >? 41) then count_failure
  else match ControllerActivation_buildPacket (Some message) length_
               (Some (replicate (Z.to_nat kActivationPacketBytes) 0)) with
  | (true, Some packet) =>
      w ← gets id;
      if interface_ (ses (w_dev w)) =? 0 then count_failure
      else
        result ← write_attempts 3 packet kIOReturnNotReady;
        if result =? kIOReturnSuccess then modify (λ w, w <| w_sent ::= λ n, n +₆₄ 1 |>) else count_failure
  | _ => count_failure
  end.

Fixpoint write_datagrams (messages : list (list Z)) : M writer () :=
  match messages with
  | [] => mret ()
  | m :: ms => (write_datagram m;; write_datagrams ms)
  end.

(** ** Sockets

    The sockets of the process are a set of descriptors; a descriptor the system gives is unused. *)

Record sockets := { opened_fds : list Z; next_fd : Z }.
#[export] Instance eta_sockets : Eta sockets := λ s, Build_sockets (opened_fds s) (next_fd s).

(** [socket]: a descriptor, or -1. *)
Definition make_socket (ok : bool) (s : sockets) : Z * sockets :=
  if ok then (next_fd s, s <| opened_fds ::= λ l, next_fd s :: l |> <| next_fd ::= Z.succ |>) else (-1, s).
Definition close_socket (fd : Z) (s : sockets) : sockets := s <| opened_fds ::= filter (λ x, x ≠ fd) |>.

Record MIDIOutputWriter := { mw_session : bool; mw_socket : Z; mw_running : bool; mw_worker : bool }.
Definition MIDIOutputWriter_new : MIDIOutputWriter :=
  {| mw_session := false; mw_socket := -1; mw_running := false; mw_worker := false |}.

(** Whether the socket can be made and bound and the thread created. *)
Record start_answers := { socket_ok : bool; bind_ok : bool; thread_ok : bool }.

Definition MIDIOutputWriter_start (k : start_answers) (session : NS6DeviceSession) (m : MIDIOutputWriter) (s : sockets)
    : Z * MIDIOutputWriter * sockets :=
  if mw_worker m || (interface_ session =? 0) || (midiOutPipe_ session =? 0) then (kIOReturnNotReady, m, s)
  else
    let '(fd, s) := make_socket (socket_ok k) s in
    let closed := {| mw_session := mw_session m; mw_socket := -1; mw_running := mw_running m; mw_worker := false |} in
    if fd <? 0 then (kIOReturnNoResources,
                     {| mw_session := mw_session m; mw_socket := fd; mw_running := mw_running m; mw_worker := false |}, s)
    else if negb (bind_ok k) then (kIOReturnExclusiveAccess, closed, close_socket fd s)
    else if negb (thread_ok k)
    then (kIOReturnNoResources,
          {| mw_session := false; mw_socket := -1; mw_running := false; mw_worker := false |}, close_socket fd s)
    else (kIOReturnSuccess, {| mw_session := true; mw_socket := fd; mw_running := true; mw_worker := true |}, s).

Definition MIDIOutputWriter_stop (m : MIDIOutputWriter) (s : sockets) : MIDIOutputWriter * sockets :=
  (MIDIOutputWriter_new, if mw_socket m >=? 0 then close_socket (mw_socket m) s else s).

Definition MIDIOutputWriter_stopped (m : MIDIOutputWriter) : bool := negb (mw_worker m).

Record LocalMIDIForwarder := {
  fw_socket : Z; fw_firstSendLogged : bool; fw_sentDatagrams : Z; fw_sentBytes : Z; fw_sendFailures : Z }.
#[export] Instance eta_forwarder : Eta LocalMIDIForwarder := λ f,
  Build_LocalMIDIForwarder (fw_socket f) (fw_firstSendLogged f) (fw_sentDatagrams f) (fw_sentBytes f) (fw_sendFailures f).
Definition LocalMIDIForwarder_new : LocalMIDIForwarder :=
  {| fw_socket := -1; fw_firstSendLogged := false; fw_sentDatagrams := 0; fw_sentBytes := 0; fw_sendFailures := 0 |}.

Definition LocalMIDIForwarder_start (ok : bool) (f : LocalMIDIForwarder) (s : sockets) : bool * LocalMIDIForwarder * sockets :=
  if fw_socket f >=? 0 then (true, f, s)
  else let '(fd, s) := make_socket ok s in (fd >=? 0, f <| fw_socket := fd |>, s).

Definition LocalMIDIForwarder_stop (f : LocalMIDIForwarder) (s : sockets) : LocalMIDIForwarder * sockets :=
  (f <| fw_socket := -1 |> <| fw_firstSendLogged := false |>,
   if fw_socket f >=? 0 then close_socket (fw_socket f) s else s).

(** [sent] is the answer of [sendto]; the datagram, if one is sent, and the forwarder. *)
Definition LocalMIDIForwarder_publish (sent : Z) (bytes : option (list Z)) (length_ : Z) (f : LocalMIDIForwarder)
    : option (list Z) * LocalMIDIForwarder :=
  match bytes with
  | Some bytes =>
      if (fw_socket f >=? 0) && (length_ >? 0) && (length_ <=? 128) then
        let f := if sent =? length_
                 then f <| fw_sentDatagrams ::= λ n, n +₆₄ 1 |> <| fw_sentBytes ::= λ n, n +₆₄ length_ |>
                 else f <| fw_sendFailures ::= λ n, n +₆₄ 1 |> in
        (Some (slice bytes 0 length_), f <| fw_firstSendLogged := true |>)
      else (None, f)
  | None => (None, f)
  end.
End writer.

(** ** The silent client of the bridge *)

Definition kUnknownDevice : Z := 0.
Definition kNS6Vendor : Z := 5604.
Definition kNS6Product : Z := 121.

(** The registry id of the matching service, if there is one. *)
Definition ns6USBGeneration (services : list (Z * Z * Z)) : Z :=
  match filter (λ s, s.1 = (kNS6Vendor, kNS6Product)) services with
  | [] => 0
  | s :: _ => s.2
  end.

(** [devices] are the audio devices with the UIDs they report, absent when they cannot be read. *)
Fixpoint find_uid (devices : list (Z * option (list Z))) (targetUID : list Z) : Z :=
  match devices with
  | [] => kUnknownDevice
  | (device, uid) :: devices' => if decide (uid = Some targetUID) then device else find_uid devices' targetUID
  end.

Definition findNS6Device (services : list (Z * Z * Z)) (devices : option (list (Z * option (list Z)))) (targetUID : list Z) : Z :=
  if ns6USBGeneration services =? 0 then kUnknownDevice
  else match devices with None => kUnknownDevice | Some devices => find_uid devices targetUID end.

Record KeepaliveState := { activeDevice : Z; activeIOProc : Z; lastStartFailure : Z; activeUSBGeneration : Z }.
Definition KeepaliveState_new : KeepaliveState :=
  {| activeDevice := kUnknownDevice; activeIOProc := 0; lastStartFailure := 0; activeUSBGeneration := 0 |}.

(** The calls the thread makes to CoreAudio, each with the answer it got. *)
Inductive audio_call :=
  | AudioDeviceCreateIOProcID (device proc status : Z)
  | AudioDeviceStart (device proc status : Z)
  | AudioDeviceStop (device proc status : Z)
  | AudioDeviceDestroyIOProcID (device proc status : Z).

(** The answers of CoreAudio in one round: the device looked up after the generation was read, the
    status and the procedure of a creation, and the statuses of a start, a stop and a destruction. *)
Record keepalive_round := {
  kr_generation : Z; kr_services : list (Z * Z * Z); kr_devices : option (list (Z * option (list Z)));
  kr_create : Z; kr_proc : Z; kr_start : Z; kr_stop : Z; kr_destroy : Z }.

(** The status, the procedure and the calls. *)
Definition start_silent_client (k : keepalive_round) (device : Z) : Z * Z * list audio_call :=
  let create := AudioDeviceCreateIOProcID device (kr_proc k) (kr_create k) in
  if kr_create k =? 0
  then (kr_start k, kr_proc k, [create; AudioDeviceStart device (kr_proc k) (kr_start k)])
  else (kr_create k, kr_proc k, [create]).

(** The statuses of a stop and a destruction are only logged. *)
Definition stop_silent_client (stop destroy : Z) (st : KeepaliveState) : list audio_call :=
  [AudioDeviceStop (activeDevice st) (activeIOProc st) stop;
   AudioDeviceDestroyIOProcID (activeDevice st) (activeIOProc st) destroy].

Definition updateAudioKeepalive (k : keepalive_round) (uid : list Z) (st : KeepaliveState)
    : KeepaliveState * list audio_call :=
  let usbGeneration := kr_generation k in
  let discoveredDevice := findNS6Device (kr_services k) (kr_devices k) uid in
  match audioKeepaliveAction (activeDevice st) discoveredDevice (usbGeneration =? activeUSBGeneration st) with
  | KeepaliveStop =>
      ({| activeDevice := kUnknownDevice; activeIOProc := 0; lastStartFailure := lastStartFailure st; activeUSBGeneration := 0 |},
       stop_silent_client (kr_stop k) (kr_destroy k) st)
  | KeepaliveStart =>
      let '(status, ioProc, started) := start_silent_client k discoveredDevice in
      if status =? 0
      then ({| activeDevice := discoveredDevice; activeIOProc := ioProc; lastStartFailure := 0;
               activeUSBGeneration := usbGeneration |}, started)
      else ({| activeDevice := activeDevice st; activeIOProc := activeIOProc st; lastStartFailure := status;
               activeUSBGeneration := activeUSBGeneration st |},
            if negb (ioProc =? 0)
            then started ++ [AudioDeviceDestroyIOProcID discoveredDevice ioProc (kr_destroy k)] else started)
  | KeepaliveNone => (st, [])
  end.

(** The loop of the keepalive thread, and its end. *)
Fixpoint keepalive_loop (ks : list keepalive_round) (uid : list Z) (st : KeepaliveState) : KeepaliveState * list audio_call :=
  match ks with
  | [] => (st, [])
  | k :: ks' =>
      let '(st, made) := updateAudioKeepalive k uid st in
      let '(st, later) := keepalive_loop ks' uid st in
      (st, made ++ later)
  end.

Definition end_keepalive (stop destroy : Z) (st : KeepaliveState) : list audio_call :=
  if negb (activeDevice st =? kUnknownDevice) then stop_silent_client stop destroy st else [].
