(* ===== verification/MidiOutputTheory.v ===== *)
(** * What an application sends reaches the device whole and in order *)

From Equations Require Import Equations.
From stdpp Require Import base list numbers tactics.
From Stdlib Require Import ZArith Lia ZifyBool.
From S2P Require Import Prelude IoKit UsbSession UsbSessionTheory Activation ActivationTheory Lifecycle MidiOutput.

(** ** The items of a packet *)

Inductive item := Message (bytes : list Z) | SysEx (bytes : list Z).

Definition item_bytes (i : item) : list Z := match i with Message b | SysEx b => b end.

(** A System Exclusive status takes the rest of the packet; a byte that does not begin a complete
    channel message is skipped. *)
Equations? items (data : list Z) : list item by wf (length data) lt :=
  items [] := [];
  items (b :: data) with b =? 0xf0 => {
    | true => [SysEx (b :: data)]
    | false with (midiMessageLength b =? 0) || (midiMessageLength b >? Z.of_nat (length (b :: data))) => {
        | true => items data
        | false => Message (take (Z.to_nat (midiMessageLength b)) (b :: data)) ::
                     items (drop (Z.to_nat (midiMessageLength b - 1)) data) } }.
Proof.
  - cbn. lia.
  - cbn. rewrite length_drop. lia.
Qed.

Lemma items_cons b data :
  items (b :: data) =
    if b =? 0xf0 then [SysEx (b :: data)]
    else if (midiMessageLength b =? 0) || (midiMessageLength b >? Z.of_nat (length (b :: data))) then items data
    else Message (take (Z.to_nat (midiMessageLength b)) (b :: data)) ::
           items (drop (Z.to_nat (midiMessageLength b - 1)) data).
Proof.
  simp items. destruct (b =? 0xf0); [done|]. cbn [items_clause_2]. simp items.
  destruct ((midiMessageLength b =? 0) || _); by simp items.
Qed.

Lemma message_length_range b : 0 <= midiMessageLength b <= 3.
Proof. unfold midiMessageLength. case_ifs; lia. Qed.

(** What MIDI 1.0 calls a channel message and a System Exclusive message (here also one whose end is
    still to come), and the packets made of them: channel messages, and at most one System Exclusive
    at the end. *)
Definition is_data (b : Z) : Prop := 0 <= b < 0x80.

Definition channel_message (m : list Z) : Prop :=
  ∃ status d1 d2, is_data d1 ∧ is_data d2 ∧
    (m = [status; d1] ∧ 0xc0 <= status <= 0xdf ∨ m = [status; d1; d2] ∧ (0x80 <= status <= 0xbf ∨ 0xe0 <= status <= 0xef)).

Definition system_exclusive (m : list Z) : Prop :=
  ∃ body, Forall is_data body ∧ (m = 0xf0 :: body ∨ m = 0xf0 :: body ++ [0xf7]).

Inductive made_of : list item → list Z → Prop :=
  | packet_end : made_of [] []
  | packet_message m its data : channel_message m → made_of its data → made_of (Message m :: its) (m ++ data)
  | packet_exclusive m : system_exclusive m → made_of [SysEx m] m.

Lemma status_length status :
  0x80 <= status <= 0xef → midiMessageLength status = if (0xc0 <=? status) && (status <=? 0xdf) then 2 else 3.
Proof.
  intros Hs. assert (Forall (λ x, midiMessageLength x = if (0xc0 <=? x) && (x <=? 0xdf) then 2 else 3) (seqZ 0x80 112)) as H
    by (vm_compute; repeat constructor).
  rewrite list.Forall_forall in H. apply (H status), elem_of_seqZ. lia.
Qed.

(** The loop finds the messages such a packet is made of. *)
Lemma items_of_packet its data : made_of its data → items data = its.
Proof.
  induction 1 as [|m its data (status & d1 & d2 & _ & _ & Hm) _ IH|m (body & _ & Hm)]; [by simp items|..].
  - assert (0x80 <= status <= 0xef) as Hs by lia. pose proof (status_length status Hs) as Hl.
    destruct Hm as [[-> Hr]|[-> Hr]]; cbn [app]; rewrite items_cons, Hl.
    + replace ((0xc0 <=? status) && (status <=? 0xdf)) with true by lia. cbn [length]. case_if; [lia|].
      case_if; [lia|]. change (Z.to_nat 2) with 2%nat. change (Z.to_nat (2 - 1)) with 1%nat. exact (f_equal (cons _) IH).
    + replace ((0xc0 <=? status) && (status <=? 0xdf)) with false by lia. cbn [length]. case_if; [lia|].
      case_if; [lia|]. change (Z.to_nat 3) with 3%nat. change (Z.to_nat (3 - 1)) with 2%nat. exact (f_equal (cons _) IH).
  - by destruct Hm as [-> | ->]; rewrite items_cons.
Qed.

Lemma items_of_packets itss packets :
  Forall2 made_of itss packets → concat (map items packets) = concat itss.
Proof. induction 1 as [|its data itss packets Hp _ IH]; [done|]. cbn. by rewrite IH, (items_of_packet its data). Qed.

(** Datagrams carry items: several whole messages in one, or the parts of one System Exclusive. *)
Inductive carries : list (list Z) → list item → Prop :=
  | carries_nil : carries [] []
  | carries_messages ms ds its :
      ms ≠ [] → concat ms ≠ [] → (length (concat ms) <= 41)%nat → carries ds its →
      carries (concat ms :: ds) ((Message <$> ms) ++ its)
  | carries_parts parts ds its :
      Forall (λ p, 0 < length p <= 41)%nat parts → carries ds its →
      carries (parts ++ ds) (SysEx (concat parts) :: its).

Lemma carries_app ds ds' its its' : carries ds its → carries ds' its' → carries (ds ++ ds') (its ++ its').
Proof.
  induction 1 as [|ms ds its ? ? ? _ IH|parts ds its ? _ IH]; intros H'; [done|..].
  - cbn. rewrite <- app_assoc. constructor; auto.
  - rewrite <- app_assoc. cbn. constructor; auto.
Qed.

Lemma carries_bytes ds its : carries ds its → concat ds = concat (map item_bytes its).
Proof.
  induction 1 as [|ms ds its ? ? ? _ IH|parts ds its ? _ IH]; [done|..].
  - cbn. rewrite map_app, concat_app, IH. f_equal. clear. induction ms as [|m ms IH]; [done|]. cbn. by rewrite IH.
  - rewrite concat_app, IH. done.
Qed.

Lemma carries_sizes ds its : carries ds its → Forall (λ d, 0 < length d <= 41)%nat ds.
Proof.
  induction 1 as [|ms ds its ? Hn ? _ IH|parts ds its ? _ IH]; [constructor| |by apply Forall_app].
  constructor; [|done]. destruct (concat ms); [done|cbn in *; lia].
Qed.

(** ** The bridge *)

Section bridge.
Context (takes : nat → Z) (base : list (list Z)).

Lemma send_datagrams bytes n b :
  offered (sendToDriver takes bytes n b) = offered b ++ (if n =? 0 then [] else [slice bytes 0 n]).
Proof.
  unfold sendToDriver, offered. case_if; [by rewrite app_nil_r|]. by destruct (negb _); cbn; rewrite fmap_app.
Qed.

(** Every datagram the socket did not take is counted as a failure. *)
Definition counted (b : bridge) : Prop :=
  outboundFailures b = u64 (Z.of_nat (length (offered b)) - Z.of_nat (length (accepted b))).

Lemma send_counted bytes n b :
  0 <= n <= Z.of_nat (length bytes) → counted b → counted (sendToDriver takes bytes n b).
Proof.
  intros Hn Hb. unfold sendToDriver. destruct (n =? 0); [done|]. set (sent := takes _).
  assert (length (slice bytes 0 n) = Z.to_nat n) as Hl by (apply length_slice; lia).
  unfold counted, offered, accepted in *. rewrite !length_fmap in Hb.
  destruct (Z.eqb_spec sent n) as [E|E]; cbn [negb]; unfold set_field; cbn [calls outboundFailures];
    rewrite list.filter_app, !length_fmap, !length_app.
  - rewrite filter_cons_True by (cbn; lia). rewrite Hb, list.filter_nil. cbn. f_equal. lia.
  - rewrite filter_cons_False by (cbn; lia). rewrite Hb, list.filter_nil. cbn. width_lia.
Qed.

(** The messages in the report, and the items in the datagrams sent so far. *)
Record packed (f : filling) (its : list item) : Prop := {
  pk_length : length (fl_report f) = 41%nat;
  pk_counted : counted (fl_bridge f);
  pk_carried : ∃ ds done ms, offered (fl_bridge f) = base ++ ds ∧ carries ds done ∧ its = done ++ (Message <$> ms) ∧
    fl_used f = Z.of_nat (length (concat ms)) ∧ fl_used f <= 41 ∧
    slice (fl_report f) 0 (fl_used f) = concat ms ∧ Forall (λ m, m ≠ []) ms
}.

(** Sending the report empties it. *)
Lemma packed_flush f its b' :
  packed f its → b' = sendToDriver takes (fl_report f) (fl_used f) (fl_bridge f) →
  (∃ ds, offered b' = base ++ ds ∧ carries ds its) ∧ counted b'.
Proof.
  intros [Hl Hcb (ds & dn & ms & Hd & Hc & -> & Hu & Hb & Hs & Hm)] ->. split; [|apply send_counted; [lia|done]].
  rewrite send_datagrams, Hd.
  destruct ms as [|m ms].
  - cbn in Hu. rewrite Hu. cbn. exists ds. by rewrite !app_nil_r.
  - assert (concat (m :: ms) ≠ []) as Hne.
    { apply list.Forall_cons in Hm as [Hm _]. cbn. destruct m; [done|]. done. }
    case_if; [destruct (concat (m :: ms)); [done|cbn in Hu; lia]|]. rewrite Hs, <- app_assoc.
    exists (ds ++ [concat (m :: ms)]). split; [done|]. apply carries_app; [done|].
    rewrite <- (app_nil_r (Message <$> m :: ms)). constructor; [done|done|lia|constructor].
Qed.

Lemma packed_empty report b ds its :
  length report = 41%nat → offered b = base ++ ds → counted b → carries ds its →
  packed {| fl_report := report; fl_used := 0; fl_bridge := b |} its.
Proof. intros Hl Hd Hb Hc. split; [done|done|]. exists ds, its, []. cbn. rewrite app_nil_r. repeat split; try done; try lia. Qed.

(** Adding a message that fits. *)
Lemma packed_add f its m :
  packed f its → m ≠ [] → fl_used f + Z.of_nat (length m) <= 41 →
  packed {| fl_report := memcpy (fl_report f) (fl_used f) m; fl_used := fl_used f + Z.of_nat (length m);
            fl_bridge := fl_bridge f |} (its ++ [Message m]).
Proof.
  intros [Hl Hcb (ds & dn & ms & Hd & Hc & -> & Hu & Hb & Hs & Hm)] Hne Hfit. split; cbn [fl_report fl_used fl_bridge].
  { by rewrite length_memcpy. }
  { done. }
  exists ds, dn, (ms ++ [m]). rewrite fmap_app, concat_app, length_app. cbn [concat fmap list_fmap]. rewrite app_nil_r, app_assoc.
  repeat split; try done; try lia; [|apply Forall_app; split; [done|by constructor]].
  assert (0 <= fl_used f) by lia. unfold slice. rewrite Z2Nat.inj_add, <- take_take_drop by lia. f_equal.
  - rewrite <- Hs. pose proof (slice_memcpy_ne (fl_report f) (fl_used f) m 0 (fl_used f)) as H'. unfold slice in H'.
    apply H'; lia.
  - pose proof (slice_memcpy_eq (fl_report f) (fl_used f) m) as H'. unfold slice in H'.
    change (drop (Z.to_nat 0) (memcpy (fl_report f) (fl_used f) m)) with (memcpy (fl_report f) (fl_used f) m).
    apply H'; lia.
Qed.

Lemma parts_carried data offset part remaining fuel b ds :
  0 <= offset → 0 <= part → offset + remaining = Z.of_nat (length data) → remaining <= part + Z.of_nat fuel →
  offered b = base ++ ds → counted b →
  ∃ parts, offered (send_parts takes fuel data offset part remaining b) = base ++ ds ++ parts ∧
    counted (send_parts takes fuel data offset part remaining b) ∧
    Forall (λ p, 0 < length p <= 41)%nat parts ∧ concat parts = drop (Z.to_nat (offset + part)) data.
Proof.
  revert part b ds. induction fuel as [|fuel IH]; intros part b ds Ho Hp Hr Hf Hd Hb; cbn [send_parts].
  { exists []. rewrite app_nil_r. do 2 (split; [done|]). split; [constructor|]. symmetry. apply drop_ge. lia. }
  case_if; [|exists []; rewrite app_nil_r; do 2 (split; [done|]); split; [constructor|]; symmetry; apply drop_ge; lia].
  set (count := Z.min kBridgeReportBytes (remaining - part)). unfold kBridgeReportBytes in *.
  assert (length (slice data (offset + part) count) = Z.to_nat count) as Hl by (apply length_slice; lia).
  destruct (IH (part + 41) (sendToDriver takes (slice data (offset + part) count) count b)
    (ds ++ [slice data (offset + part) count])) as (parts & Hs & Hb' & Hf' & Hc); [lia..| |apply send_counted; [lia|done]|].
  { rewrite send_datagrams, Hd, <- app_assoc. case_if; [lia|]. do 3 f_equal.
    unfold slice at 1. rewrite drop_0, take_ge by lia. done. }
  exists (slice data (offset + part) count :: parts). rewrite Hs, <- !app_assoc. do 2 (split; [done|]).
  split; [constructor; [lia|done]|]. cbn. rewrite Hc.
  rewrite <- (take_drop (Z.to_nat count) (drop (Z.to_nat (offset + part)) data)), drop_drop. f_equal.
  destruct (decide (count = 41)) as [->|]; [f_equal; lia|]. rewrite !drop_ge by lia. done.
Qed.

Lemma packet_carried fuel data offset f its :
  packed f its → 0 <= offset → (length (drop (Z.to_nat offset) data) <= fuel)%nat →
  packed (packet_loop takes fuel data offset f) (its ++ items (drop (Z.to_nat offset) data)).
Proof.
  revert offset f its. induction fuel as [|fuel IH]; intros offset f its Hp Ho Hf; cbn [packet_loop].
  { destruct (drop (Z.to_nat offset) data); [|cbn in Hf; lia]. simp items. by rewrite app_nil_r. }
  destruct (Z.ltb_spec offset (Z.of_nat (length data))) as [Hlt|Hge].
  2:{ rewrite drop_ge by lia. simp items. by rewrite app_nil_r. }
  destruct (lookup_lt_is_Some_2 data (Z.to_nat offset)) as [x Hx]; [lia|].
  assert (rd data offset = x) as -> by by apply list_lookup_total_correct.
  pose proof (drop_S data x (Z.to_nat offset) Hx) as Hdrop. rewrite Hdrop in Hf. cbn in Hf.
  rewrite Hdrop, items_cons, <- Hdrop. pose proof (message_length_range x) as Hml. case_if.
  - destruct (packed_flush f its _ Hp eq_refl) as [(ds & Hd & Hc) Hb].
    destruct (parts_carried data offset 0 (Z.of_nat (length data) - offset) (length data) _ ds ltac:(lia) ltac:(lia)
      ltac:(lia) ltac:(lia) Hd Hb) as (parts & Hs & Hb' & Hfp & Hcp).
    eapply packed_empty; [apply (pk_length _ _ Hp)|exact Hs|done|]. apply carries_app; [done|].
    rewrite Z.add_0_r in Hcp. rewrite <- Hcp, <- (app_nil_r parts) at 1. constructor; [done|constructor].
  - rewrite length_drop. destruct ((midiMessageLength x =? 0) || (offset + midiMessageLength x >? Z.of_nat (length data))) eqn:E1.
    + replace ((midiMessageLength x =? 0) || (midiMessageLength x >? Z.of_nat (length data - Z.to_nat offset))) with true by lia.
      replace (S (Z.to_nat offset)) with (Z.to_nat (offset + 1)) by lia. apply IH; [done|lia|].
      replace (Z.to_nat (offset + 1)) with (S (Z.to_nat offset)) by lia. lia.
    + replace ((midiMessageLength x =? 0) || (midiMessageLength x >? Z.of_nat (length data - Z.to_nat offset))) with false by lia.
      set (m := take (Z.to_nat (midiMessageLength x)) (drop (Z.to_nat offset) data)).
      assert (length m = Z.to_nat (midiMessageLength x)) as Hm by (unfold m; rewrite length_take, length_drop; lia).
      assert (m ≠ []) as Hne by (intros Em; rewrite Em in Hm; cbn in Hm; lia).
      rewrite drop_drop. replace (S (Z.to_nat offset) + Z.to_nat (midiMessageLength x - 1))%nat
        with (Z.to_nat (offset + midiMessageLength x)) by lia. rewrite cons_middle, app_assoc.
      apply IH; [|lia|rewrite length_drop in *; lia].
      change (slice data offset (midiMessageLength x)) with m.
      replace (midiMessageLength x) with (Z.of_nat (length m)) by lia. unfold kBridgeReportBytes. case_if; cbn [fl_report fl_used fl_bridge].
      * destruct (packed_flush f its _ Hp eq_refl) as [(ds & Hd & Hc) Hb].
        apply (packed_add {| fl_report := fl_report f; fl_used := 0; fl_bridge := _ |}); [|done|cbn; lia].
        by eapply packed_empty; [apply (pk_length _ _ Hp)|exact Hd|done|].
      * apply packed_add; [done|done|lia].
Qed.
End bridge.

(** The socket takes datagrams among those offered. *)
Lemma accepted_offered b : accepted b `sublist_of` offered b.
Proof.
  unfold accepted, offered. induction (calls b) as [|c l IH]; [done|]. rewrite filter_cons.
  case_decide; cbn; by constructor.
Qed.

(** ** The writer *)

Lemma memcpy_prefix {A} `{Inhabited A} (l src : list A) :
  (length src <= length l)%nat → memcpy l 0 src = src ++ drop (length src) l.
Proof.
  intros Hl. rewrite <- (take_drop (length src) (memcpy l 0 src)). f_equal.
  - pose proof (slice_memcpy_eq l 0 src) as H'. unfold slice in H'. rewrite Nat2Z.id in H'. apply H'; lia.
  - pose proof (slice_memcpy_ne l 0 src (Z.of_nat (length src)) (Z.of_nat (length l))) as H'. unfold slice in H'.
    rewrite !Nat2Z.id, !take_ge in H' by (rewrite length_drop, ?length_memcpy; lia). apply H'; lia.
Qed.

Lemma build_packet_spec m :
  (0 < length m <= 41)%nat →
  ControllerActivation_buildPacket (Some m) (Z.of_nat (length m)) (Some (replicate (Z.to_nat kActivationPacketBytes) 0)) =
    (true, Some (framed m)).
Proof.
  intros Hm. unfold ControllerActivation_buildPacket, kActivationPacketBytes. case_if; [lia|].
  change (memcpy (replicate (Z.to_nat 42) 0) 0 (replicate (Z.to_nat 42) 0xfd)) with (replicate (Z.to_nat 42) 0xfd).
  assert (slice m 0 (Z.of_nat (length m)) = m) as -> by (unfold slice; rewrite Nat2Z.id, drop_0, take_ge; done).
  rewrite memcpy_prefix by (rewrite length_replicate; lia). rewrite drop_replicate.
  replace (Z.to_nat 42 - length m)%nat with (41 - length m + 1)%nat by lia. rewrite replicate_add. do 2 f_equal.
  unfold wr, framed. rewrite insert_app_r_alt by lia. f_equal.
  rewrite insert_app_r_alt by (rewrite length_replicate; lia). rewrite length_replicate.
  replace (Z.to_nat (42 - 1) - length m - (41 - length m))%nat with 0%nat by lia. done.
Qed.

Section writer.
Context {codes : IOReturns} {laws : IOReturnsLaws} {constants : UsbConstants}.

Lemma attempts_wp n packet r0 (Q : Z → writer → Prop) w :
  (∀ r w' k, ses (w_dev w') = ses (w_dev w) → w_sent w' = w_sent w → w_failures w' = w_failures w →
     w_packets w' = w_packets w ++ replicate k packet → (k <= n)%nat → (0 < n → 0 < k)%nat → Q r w') →
  wp (write_attempts n packet r0) Q w.
Proof.
  revert r0 w. induction n as [|n IH]; intros r0 w HQ; cbn [write_attempts].
  { wp_step. apply (HQ _ _ 0%nat); rewrite ?app_nil_r; done || lia. }
  do 2 wp_step. wp_step. do 2 wp_step. apply call_status_wp. intros r w1 _ _.
  assert (∀ x io', wp (mret x) Q (w <| w_packets ::= λ l, l ++ [packet] |> <| w_dev ::= λ u, u <| io := io' |> |>)) as Hend.
  { intros. wp_step. apply (HQ _ _ 1%nat); cbn; done || lia. }
  wp_step; [apply Hend|]. wp_step; [apply Hend|]. wp_step. do 2 wp_step. apply call_status_wp. intros cleared w2 _ _.
  wp_step; [apply Hend|]. apply IH. intros r' w' k E1 E2 E3 E4 Hk _. apply (HQ _ _ (S k)); try done; try lia.
  rewrite E4. cbn. rewrite <- app_assoc. done.
Qed.

Lemma write_datagram_wp m (Q : () → writer → Prop) w :
  (0 < length m <= 41)%nat → interface_ (ses (w_dev w)) ≠ 0 →
  (∀ w' k, ses (w_dev w') = ses (w_dev w) → w_packets w' = w_packets w ++ replicate k (framed m) → (1 <= k <= 3)%nat →
     (w_sent w' = w_sent w +₆₄ 1 ∧ w_failures w' = w_failures w ∨ w_sent w' = w_sent w ∧ w_failures w' = w_failures w +₆₄ 1) →
     Q () w') →
  wp (write_datagram m) Q w.
Proof.
  intros Hm Hi HQ. unfold write_datagram. cbv zeta. rewrite build_packet_spec by done. case_if; [lia|]. do 2 wp_step.
  unfold id. wp_step; [lia|]. wp_step. apply attempts_wp. intros r w' k E1 E2 E3 E4 Hk Hk'. unfold count_failure.
  wp_step; wp_step; (apply (HQ _ k); [done|done|lia|cbn; rewrite E2, E3; auto]).
Qed.

Lemma write_datagrams_wp ds w :
  Forall (λ d, 0 < length d <= 41)%nat ds → interface_ (ses (w_dev w)) ≠ 0 →
  wp (write_datagrams ds) (λ _ w', ∃ counts, length counts = length ds ∧
    Forall (λ k, 1 <= k <= 3)%nat counts ∧
    w_packets w' = w_packets w ++ concat (zip_with (λ k d, replicate k (framed d)) counts ds) ∧
    u64 (w_sent w' + w_failures w') = u64 (w_sent w + w_failures w + Z.of_nat (length ds))) w.
Proof.
  intros Hs. revert w. induction Hs as [|d ds Hd _ IH]; intros w Hi; cbn [write_datagrams].
  - wp_step. exists []. rewrite app_nil_r. repeat split; [constructor|]. f_equal. cbn. lia.
  - wp_step. apply write_datagram_wp; [done|done|]. intros w1 k E1 E2 Hk Hs. eapply wp_mono; [apply IH; congruence|].
    intros _ w2 (counts & C1 & C2 & C3 & C4). exists (k :: counts). cbn [zip_with concat length]. split; [by rewrite C1|].
    split; [by constructor|]. split; [by rewrite C3, E2, <- app_assoc|]. rewrite C4.
    destruct Hs as [[-> ->]|[-> ->]]; width_lia.
Qed.

Lemma bridge_carries takes packets :
  let b := receiveFromApplication takes packets {| calls := []; outboundFailures := 0 |} in
  carries (offered b) (concat (map items packets)) ∧ counted b.
Proof.
  intros b. assert (∀ f its, packed [] f its → packed [] (foldl (λ f data, packet_loop takes (length data) data 0 f) f packets)
    (its ++ concat (map items packets))) as H.
  { clear b. induction packets as [|data packets IH]; intros f its Hp; cbn; [by rewrite app_nil_r|]. rewrite app_assoc. apply IH.
    apply (packet_carried takes [] (length data) data 0 f its Hp); [lia|]. by rewrite drop_0. }
  specialize (H {| fl_report := replicate (Z.to_nat kBridgeReportBytes) 0; fl_used := 0;
                   fl_bridge := {| calls := []; outboundFailures := 0 |} |} []).
  destruct (packed_flush takes [] _ _ b (H ltac:(by eapply packed_empty; [done|done|done|constructor])) eq_refl)
    as [(ds & Hd & Hc) Hb].
  cbn in Hd. rewrite Hd. by split.
Qed.

(** C11: for packets made of complete channel messages, each possibly ended by one System Exclusive,
    the bridge offers the socket datagrams that carry these messages in order, each channel message
    whole within one datagram of at most 41 bytes, and counts the datagrams the socket refused.  The
    writer, on an open session, sends whatever datagrams it receives of those the socket took, in order,
    each as a 42-byte packet (the datagram, filler, terminator), one to three times as the pipe
    recovers, and counts it as sent or failed. *)
Theorem application_reaches_device takes messages packets received w :
  Forall2 made_of messages packets → interface_ (ses (w_dev w)) ≠ 0 →
  let b := receiveFromApplication takes packets {| calls := []; outboundFailures := 0 |} in
  received `sublist_of` accepted b →
  carries (offered b) (concat messages) ∧ counted b ∧
  let '(_, w') := write_datagrams received w in
  ∃ counts, length counts = length received ∧ Forall (λ k, 1 <= k <= 3)%nat counts ∧
    w_packets w' = w_packets w ++ concat (zip_with (λ k d, replicate k (framed d)) counts received) ∧
    u64 (w_sent w' + w_failures w') = u64 (w_sent w + w_failures w + Z.of_nat (length received)).
Proof.
  intros Hm Hi b Hr. destruct (bridge_carries takes packets) as [Hc Hb]. fold b in Hc, Hb.
  rewrite (items_of_packets messages packets Hm) in Hc. split; [done|]. split; [done|].
  assert (Forall (λ d, 0 < length d <= 41)%nat received) as Hs.
  { apply carries_sizes in Hc. rewrite list.Forall_forall in Hc |- *. intros d Hd. apply Hc.
    eapply elem_of_sublist; [done|]. exact (transitivity Hr (accepted_offered b)). }
  pose proof (write_datagrams_wp received w Hs Hi) as H. unfold wp in H. by destruct (write_datagrams received w) as [[] w'].
Qed.
End writer.

(** Two messages and a long System Exclusive, whose second part the socket refuses, on a device that
    stalls once. *)
Lemma application_reaches_device_witness :
  let messages := [[Message [0x90; 60; 127]; Message [0xc1; 5]]; [SysEx (0xf0 :: replicate 50 1 ++ [0xf7])]] in
  let packets := [[0x90; 60; 127; 0xc1; 5]; 0xf0 :: replicate 50 1 ++ [0xf7]] in
  let w := {| w_sent := 0; w_failures := 0; w_packets := [];
              w_dev := {| ses := NS6DeviceSession_new <| interface_ := 4 |> <| midiOutPipe_ := 3 |>;
                          io := ns6_world <| answer := λ n, {| status := if decide (n = 0%nat) then 0xe000404f else 0;
                                                              value := 0; bytes := []; found := [] |} |> |} |} in
  let b := receiveFromApplication (λ n, nth n [5; 41; -1] 0) packets {| calls := []; outboundFailures := 0 |} in
  (length (offered b) = 3%nat ∧ length (accepted b) = 2%nat ∧ outboundFailures b = 1 ∧
   length (w_packets (@write_datagrams iokit_returns (accepted b) w).2) = 3%nat) ∧
  carries (offered b) (concat messages).
Proof.
  intros messages packets w b. split; [vm_compute; repeat split; reflexivity|].
  assert (Forall2 made_of messages packets) as Hm.
  { constructor; [|constructor; [|constructor]].
    - apply (packet_message [0x90; 60; 127] _ [0xc1; 5]); [exists 0x90, 60, 127; unfold is_data; do 2 (split; [lia|]); right; split; [reflexivity|lia]|].
      apply (packet_message [0xc1; 5] _ []); [exists 0xc1, 5, 0; unfold is_data; do 2 (split; [lia|]); left; split; [reflexivity|lia]|constructor].
    - constructor. exists (replicate 50 1). split; [|by right]. apply list.Forall_replicate. unfold is_data. lia. }
  assert (interface_ (ses (w_dev w)) ≠ 0) as Hi by (intros E; cbn in E; discriminate E).
  exact (proj1 (@application_reaches_device iokit_returns (λ n, nth n [5; 41; -1] 0) messages packets (accepted b) w Hm Hi ltac:(reflexivity))).
Defined.

Example items_of_bytes : items [0x40; 0x90; 60; 127; 0xc1; 5; 0xf8; 0x90; 1] = [Message [0x90; 60; 127]; Message [0xc1; 5]].
Proof. rewrite !items_cons. reflexivity. Qed.

(** ** The silent client *)

(** The life of an I/O procedure as its owner drives it: what the last call made of it. *)
Inductive client :=
  | NoClient
  | Created (device proc : Z)
  | Unusable (device proc : Z)
  | Running (device proc : Z)
  | Stopped (device proc : Z).

(** One procedure at a time: one that was made is started, one that cannot be started is destroyed, and
    one that runs is stopped and then destroyed, whatever these two calls answer. *)
Inductive drives : client → audio_call → client → Prop :=
  | drive_create d p : p ≠ 0 → drives NoClient (AudioDeviceCreateIOProcID d p 0) (Created d p)
  | drive_no_create d status : status ≠ 0 → drives NoClient (AudioDeviceCreateIOProcID d 0 status) NoClient
  | drive_half_create d p status :
      status ≠ 0 → p ≠ 0 → drives NoClient (AudioDeviceCreateIOProcID d p status) (Unusable d p)
  | drive_start d p : drives (Created d p) (AudioDeviceStart d p 0) (Running d p)
  | drive_no_start d p status : status ≠ 0 → drives (Created d p) (AudioDeviceStart d p status) (Unusable d p)
  | drive_stop d p status : drives (Running d p) (AudioDeviceStop d p status) (Stopped d p)
  | drive_destroy d p status : drives (Stopped d p) (AudioDeviceDestroyIOProcID d p status) NoClient
  | drive_destroy_unusable d p status : drives (Unusable d p) (AudioDeviceDestroyIOProcID d p status) NoClient.

Inductive drives_all : client → list audio_call → client → Prop :=
  | drives_nil c : drives_all c [] c
  | drives_cons c1 c2 c3 a l : drives c1 a c2 → drives_all c2 l c3 → drives_all c1 (a :: l) c3.

Lemma drives_app c1 c2 c3 l l' : drives_all c1 l c2 → drives_all c2 l' c3 → drives_all c1 (l ++ l') c3.
Proof. induction 1; [done|]. intros H'. cbn. econstructor; eauto. Qed.

(** The client the state of the thread names. *)
Definition named (st : KeepaliveState) : client :=
  if activeDevice st =? 0 then NoClient else Running (activeDevice st) (activeIOProc st).

(** A procedure CoreAudio makes is not null. *)
Definition round_ok (k : keepalive_round) : Prop := kr_create k = 0 → kr_proc k ≠ 0.

Lemma stop_drives stop destroy st :
  activeDevice st ≠ 0 → drives_all (named st) (stop_silent_client stop destroy st) NoClient.
Proof. intros Hd. unfold named. case_if; [lia|]. repeat econstructor. Qed.

Lemma keepalive_step k uid st :
  round_ok k →
  let '(st', made) := updateAudioKeepalive k uid st in
  let device := findNS6Device (kr_services k) (kr_devices k) uid in
  drives_all (named st) made (named st') ∧
  (activeDevice st' ≠ 0 → activeDevice st' = device ∧ activeUSBGeneration st' = kr_generation k) ∧
  (activeDevice st' = 0 → device = 0 ∨ activeDevice st ≠ 0 ∨ kr_create k ≠ 0 ∨ kr_start k ≠ 0).
Proof.
  intros Hk. unfold updateAudioKeepalive, audioKeepaliveAction, start_silent_client. set (d := findNS6Device _ _ _).
  destruct (Z.eqb_spec (activeDevice st) 0) as [E0|E0]; cbn [negb andb].
  - assert (named st = NoClient) as Hn by (unfold named; by rewrite E0).
    destruct (Z.eqb_spec d 0) as [Ed|Ed]; cbn [negb]; [split; [constructor|split; [done|by left]]|].
    destruct (Z.eqb_spec (kr_create k) 0) as [Ec|Ec].
    + specialize (Hk Ec). rewrite Ec. destruct (Z.eqb_spec (kr_start k) 0) as [Es|Es].
      * rewrite Es, Hn. unfold named. cbn. case_if; [lia|]. split; [repeat econstructor; done|]. split; [done|lia].
      * rewrite (proj2 (Z.eqb_neq _ _) Hk). cbn [negb app]. replace (named {| activeDevice := _ |}) with NoClient
          by (unfold named; cbn; by rewrite E0). rewrite Hn. cbn. split; [|lia]. repeat (econstructor; eauto).
    + rewrite (proj2 (Z.eqb_neq _ _) Ec). replace (named {| activeDevice := _ |}) with NoClient
          by (unfold named; cbn; by rewrite E0). rewrite Hn. cbn. split; [|lia].
      destruct (Z.eqb_spec (kr_proc k) 0) as [Ep|Ep]; cbn; [rewrite Ep|]; repeat (econstructor; eauto).
  - pose proof (stop_drives (kr_stop k) (kr_destroy k) st E0) as Hs.
    destruct (Z.eqb_spec (activeDevice st) d) as [Ed|Ed]; cbn [negb andb]; [|split; [exact Hs|split; [done|by right; left]]].
    destruct (Z.eqb_spec (kr_generation k) (activeUSBGeneration st)) as [Eg|Eg]; cbn [negb andb]; [|split; [exact Hs|split; [done|by right; left]]].
    split; [constructor|]. split; [done|intros; by right; left].
Qed.

Lemma keepalive_loop_drives ks uid st :
  Forall round_ok ks → let '(st', made) := keepalive_loop ks uid st in drives_all (named st) made (named st').
Proof.
  intros Hks. revert st. induction Hks as [|k ks Hk _ IH]; intros st; cbn [keepalive_loop]; [constructor|].
  pose proof (keepalive_step k uid st Hk) as H. destruct (updateAudioKeepalive k uid st) as [st1 made]. destruct H as [H _].
  specialize (IH st1). destruct (keepalive_loop ks uid st1) as [st2 later]. by eapply drives_app.
Qed.

(** C30: over any rounds the calls the bridge makes drive one I/O procedure at a time: each one made is
    started, each one that cannot be started is destroyed, and the running one, which the state names, is
    stopped and destroyed before another is made and when the thread ends.  After a round it is on
    the device that round found, of the USB generation that round read; and a round that finds a device
    while none runs leaves none running only when creation or start failed.  (The answers of the stop
    and destroy calls are not looked at: the theorem is about the calls, not about their effect.) *)
Theorem keepalive_runs_one_client ks k uid stop destroy :
  Forall round_ok ks → round_ok k →
  let '(st, before) := keepalive_loop ks uid KeepaliveState_new in
  let '(st', made) := updateAudioKeepalive k uid st in
  let device := findNS6Device (kr_services k) (kr_devices k) uid in
  drives_all NoClient (before ++ made) (named st') ∧
  drives_all (named st') (end_keepalive stop destroy st') NoClient ∧
  (activeDevice st' ≠ 0 → activeDevice st' = device ∧ activeUSBGeneration st' = kr_generation k) ∧
  (activeDevice st' = 0 → device = 0 ∨ activeDevice st ≠ 0 ∨ kr_create k ≠ 0 ∨ kr_start k ≠ 0).
Proof.
  intros Hks Hk. pose proof (keepalive_loop_drives ks uid KeepaliveState_new Hks) as H.
  destruct (keepalive_loop ks uid KeepaliveState_new) as [st before]. pose proof (keepalive_step k uid st Hk) as H'.
  destruct (updateAudioKeepalive k uid st) as [st' made]. destruct H' as (H1 & H2). split; [by eapply drives_app|].
  split; [|done]. unfold end_keepalive, kUnknownDevice. destruct (Z.eqb_spec (activeDevice st') 0) as [E|E]; cbn [negb].
  - unfold named. rewrite E. constructor.
  - by apply stop_drives.
Qed.

(** A device that cannot be started at first, is started, and then comes back as another USB device. *)
Lemma keepalive_runs_one_client_witness :
  let round generation start := {|
    kr_generation := generation; kr_services := [(5604, 121, generation)];
    kr_devices := Some [(40, Some [1]); (41, Some [2])];
    kr_create := 0; kr_proc := 77; kr_start := start; kr_stop := -1; kr_destroy := 0 |} in
  let '(st, before) := keepalive_loop [round 9 5; round 9 0] [2] KeepaliveState_new in
  let '(st', made) := updateAudioKeepalive (round 10 0) [2] st in
  named st = Running 41 77 ∧ made = [AudioDeviceStop 41 77 (-1); AudioDeviceDestroyIOProcID 41 77 0] ∧
  drives_all NoClient (before ++ made) (named st').
Proof.
  intros round. split; [reflexivity|]. split; [reflexivity|].
  exact (proj1 (keepalive_runs_one_client [round 9 5; round 9 0] (round 10 0) [2] 0 0
    ltac:(repeat constructor; intros _; discriminate) ltac:(intros _; discriminate))).
Defined.
